(* ===== verification/_CoqProject ===== *)
-Q . S2P
Prelude.v
Binary64.v
BitScan.v
Types.v
MemoryPool.v
OrderBook.v
OrderBookFacts.v
OrderBookRefine.v
OrderBookPeek.v
FlatOrderBook.v
FixedPoint.v
Text.v
LevelParser.v
OnepassDecoder.v
JsonDecoder.v
IniConfig.v
Clock.v
DoubleTypes.v
SbeDecoder.v
PositionKeeper.v
RiskManager.v
LayerBook.v
QuoteReconciler.v
OrderStateManager.v
OrderExpiry.v
OrderManager.v
OrderManagerFacts.v
OrderBatches.v
OrderEntry.v
SpotOrderEntry.v
SpscQueue.v
MpscQueue.v
MpscDestroy.v
Threads.v
MarketConsumer.v
FuturesFeed.v
SpotFeed.v
FixSession.v
FixMessage.v
FixFeed.v
FixOrderEntry.v
OeEncoder.v
FileTransport.v
WsTransport.v
WsOeSession.v
WsMdSession.v
Broker.v
Logger.v
CpuManager.v
FeatureEngine.v
RobustZScore.v
WallThreshold.v
WallDetector.v
MarketPhase.v
MakerScores.v
AdverseSelection.v
MeanReversionMaker.v
MakerFacts.v
MakerSafety.v
MakerSettings.v
PriceQtyArray.v
Instruments.v
Startup.v
MakerOrders.v
TradeEngine.v
EngineStrategy.v
MakerEngine.v
DirectionalStrategy.v
System.v
