(* ===== verification/Prelude.v ===== *)
(** * The HFT trading engine: a verification development

    ** The program

    The program under [src/hft] is a market maker for Binance spot and
    futures.  One thread receives market data, one thread trades, one thread
    talks to the order entry of the exchange.

    - [src/market_consumer.hpp] receives decoded market data, joins the
      snapshot of the book with the stream of differences, detects gaps and
      recovers from them, and hands the events over through a single
      producer, single consumer ring ([common/spsc_queue.h]).
    - [src/trade_engine.hpp] takes events from the ring and execution reports
      from a second ring, in batches, and calls the order book, the feature
      engine, the position keeper, the order manager and the strategy.
    - [src/order_book.hpp] keeps the price levels: in buckets of 4096 levels
      allocated from [common/memory_pool.hpp] (the default build), or in one
      flat bitmap ([USE_FLAT_ORDERBOOK]).
    - [src/feature_engine.hpp] derives trade ratios, a volume-weighted price
      and the book imbalance.
    - [src/position_keeper.cpp] books the fills; [src/risk_manager.cpp] checks
      orders against position and loss limits.
    - [src/order_manager.hpp] turns quote intents into orders:
      [src/quote_reconciler.h] compares the intents with the layers of
      [src/layer_book.h], the risk filter drops what would leave the limits,
      and what is sent is reserved in [src/reserved_position_tracker.h].
      Execution reports come back through [src/order_state_manager.cpp];
      [src/order_expiry_manager.h] schedules the cancels of orders that have
      lived too long.
    - [src/strategy] holds the strategies; the mean reversion maker looks at the
      z-score of prices and at walls (large resting quantities) in the book.
    - [common/fixed_point.hpp] is the arithmetic of prices and quantities.
    - [core/websocket/market_data] turns the bytes of the exchange into market
      data: a hand-written decoder, a converter that allocates the entries, a
      router and the application that dispatches to the consumer.
    - [core/websocket/order_entry] and [src/order_gateway.hpp] send the requests
      of the order manager and turn the answers into execution reports.
    - [core/fix] is the second way to the exchange: a session on FIX messages with
      the same consumer and gateway on top of it, and [core/response_manager.cpp]
      the pools of its reports.
    - [core/transport/file_transport.h] replaces the socket by recorded messages
      and a simulator of the exchange.
    - [common/logger.cpp] writes the log from a thread of its own, and
      [common/cpumanager] places the threads on cpus.
    - [src/main.cpp] builds all of it from the configuration, waits for the
      gateway, starts the consumer and stops everything on a signal.
      [common/fast_clock.h] is the clock of orders, [common/thread.hpp] starts the
      threads, [core/http] asks the exchange for the lot sizes.
    - [src/repository/broker.cpp], outside of [src/hft], is a second program that
      records market data with a copy of the consumer's recovery.

    ** The files

    - [Prelude]: machine integers, arrays as lists with [Z] indices ([zget],
      [zset], [zlen]), the hint and rewrite databases, the case-analysis and
      arithmetic tactics, and the list lemmas the components share.
    - [BitScan]: [SearchHighest] and [SearchLowest] of [order_book.hpp] on
      64-bit words as instances of one class [SearchDir] with its laws.
    - [Types]: the enumerations and structs of [common/types.h],
      [core/market_data.h] and [core/order_entry.h], and their conversions.
    - [MemoryPool]: the free list of [memory_pool.hpp] with its head packed in
      64 bits (index and counter), and the class [NodePool] it implements.
    - [OrderBook]: the bucketed [MarketOrderBook]: buckets with bitmap and
      summary word, the bucket table of a side, cached best indices,
      [update_side], [add_order], [delete_order], [clear_book],
      [on_market_data_updated], [next_active_bid/ask].  [OrderBookFacts] has
      the invariant and what each operation does to the levels,
      [OrderBookRefine] the refinement, [OrderBookPeek] the depth views
      ([peek_levels], [peek_levels_with_qty], [peek_qty]) with their scans.
    - [FlatOrderBook]: the flat [MarketOrderBook].
    - [FixedPoint]: parsing, printing, arithmetic on the raw 64-bit values.
    - [PositionKeeper], [RiskManager]: [PositionInfo], [RiskInfo] and the
      tables by ticker; [RiskManager] also has the inventory skew.
    - [LayerBook]: slots, ticks, ids and times of the layers of a side book,
      the searches, [plan_layer], and the reserved position.
    - [QuoteReconciler]: [diff] and the venue filter.
    - [OrderStateManager]: the handlers of execution reports.
    - [OrderExpiry]: the expiry heap.
    - [OrderManager]: reports, intents, risk filter, sending, sweeping, on the
      state of all side books; [OrderManagerFacts] has its theorems.
    - [SpscQueue]: the ring, one step per shared access of its two threads;
      [MpscQueue]: the linked chunks of [mpsc_queue_cas.hpp], for any number of
      producers, with the reference counts and the reclamation of chunks;
      [MpscDestroy]: its destructor.
    - [MarketConsumer]: the consumer with its websocket policy, the depth
      validators and the recovery.
    - [FeatureEngine]: the feature engine.
    - [RobustZScore], [WallThreshold], [WallDetector]: the signals of the mean
      reversion maker, from [robust_zscore.h], [dynamic_wall_threshold.h] and
      [wall_detector.h] under [src/strategy/mean_reversion_maker].
    - [MarketPhase], [MakerScores], [AdverseSelection]: the phase machines, the
      configurations and weighted scores, and the markout tracker of
      [mean_reversion_maker.h]; [MeanReversionMaker]: its three callbacks with
      everything they call, over a parameter for [OrderManager::apply].
      [MakerFacts] and [MakerSafety] have the theorems on what it sends and on
      its invariant.
    - [OrderBatches]: what the order manager does with a batch of at most one
      intent, whoever sends it; [MakerOrders] puts the order manager under the
      maker.
    - [TradeEngine]: dispatch and batch loops; the strategy is a parameter that
      acts on its own state, the book and the order manager.  [EngineStrategy]
      is the interface that the engine's theorems need of a strategy, the class
      [ExactStrategy]; [MakerEngine] discharges it for the maker and
      [DirectionalStrategy], the model of [directional_strategy.h], for the
      directional strategy.
    - [Binary64]: doubles as correctly rounded rationals, and the conversions
      of [fixed_point.hpp] from and to them; [DoubleTypes]: [Price] and [Qty] of
      [types.h] and the comparisons of fixed-point values with doubles.
    - [Clock]: [fast_clock.h] and [wait_strategy.h]; [Threads]: [thread.hpp] over
      the class [Pthreads] of POSIX calls with their laws.
    - [Instruments]: [http_client.cpp], the fetcher of exchange information, the
      instrument and reject visitors of both converters, and the way of the lot
      size to the venue policy.
    - [Startup]: [main.cpp], the constructors that read limits, policies, ticks and
      coefficients from the configuration, [precision_config.hpp] and
      [authorization.cpp]; [System]: the trade engine as its constructor builds it
      from one configuration, and its histories from the start of the program.
    - [Text]: runs of digits and literals; [IniConfig]: [ini_config.hpp], with
      the file system and the order of the hash map as parameters.
    - [LevelParser]: [price_qty_array.h] on scaled integers, [PriceQtyArray] on
      doubles; [OnepassDecoder]: the one-pass futures decoder; [JsonDecoder]: the
      other futures decoder, over the JSON library; [FuturesFeed]: converter, router and application, down to the
      consumer.
    - [SbeDecoder]: the binary spot decoder ([sbe_md_decoder.hpp],
      [binance_sbe_ops.h]); [SpotFeed]: the text decoder and the converter, router
      and application of the spot build.
    - [OrderEntry]: request ids, pending requests, gateway, dispatch router and
      mapper, for spot and for futures; [SpotOrderEntry]: the router, the mapper
      and the connection handler of spot from their own files; [OeEncoder]: the requests that the two
      encoders write.
    - [FixSession]: [fix_app.cpp], from the bytes of the socket to the callbacks
      and from the queue to the socket, and [fix_sequence_counter.cpp];
      [FixMessage]: fields and numbers of requests; [FixFeed]: [fix_md_core.cpp],
      the FIX policy and recovery of the consumer; [FixOrderEntry]:
      [fix_oe_core.cpp], [response_manager.cpp] and the gateway of the FIX build.
    - [FileTransport]: [file_transport.h].
    - [WsTransport]: [ws_transport.tpp], the events of the websocket library as
      inputs, the queue of writes and the buffer of fragments as state;
      [WsOeSession]: [ws_oe_app.hpp] with decoders and connection handlers, the
      logon, the listen key and its keepalive; [WsMdSession]: [ws_md_app.hpp]
      with the requests of its encoders, over the record [Feed] of what a feed
      does with one payload, which [futures_feed] fills in.
    - [Broker]: [broker.cpp], its websocket and its FIX build.
    - [Logger]: [logger.h] and [logger.cpp]: the modules [LogText] (levels and
      lines), [FileSink] (files and rotation) and [Logger] (producers, worker and
      shutdown as steps).
    - [CpuManager]: [cpu_manager.cpp], with the kernel as a parameter.
    - [MakerSettings]: the constructor of [mean_reversion_maker.h], from the text
      of a configuration to the integers of the maker.

    A definition keeps the name of the function it translates; methods of
    template classes take the template's constants as arguments or as section
    variables.  Where two components interact, the client is proved against
    the interface of the other: the book's searches against [SearchDirLaws],
    which both directions satisfy, the book and the trade engine against
    [NodePool], which the pool satisfies, the trade engine against any
    strategy ([ExactStrategy]), the batch loops against a queue that is the list of its
    contents, which [SpscQueue] justifies.

    ** Conventions

    - A signed 64-bit value is an exact [Z]; unsigned arithmetic wraps where
      the code's type is unsigned ([u64], [u32]); C++ division is [Z.quot] and
      [Z.rem].  Signed overflow is undefined in C++, so the bounds theorems
      say, with [in_i64], when the exact value is the machine's.
    - What C++ leaves undefined and would break the run (a null bucket after a
      failed allocation, a shift by the width, an index outside of an array)
      is [None].  Early returns and refused inputs are values of the model.
      Divisions by a configured lot or tick size are [Z.quot], so that the
      theorems that depend on them ask for positive sizes; the settings of
      price ranges and limits are products and differences without overflow,
      the reservation of a vector never fails.
    - Readings of the clock, the room left in a queue and whether the pool of
      market data is exhausted are arguments, universally quantified in the
      theorems.
    - Hash maps keyed by tickers and by client order ids are [gmap]; arrays
      and vectors are lists; the priority queue of expiries is the list of its
      pops.
    - The pool is modelled for one caller at a time, which is how the book
      uses it.  The ring is modelled for both threads, in any interleaving of
      their loads and stores, under sequential consistency.
    - Text is the list of its character codes.  Reading past the end of a
      buffer is [None] in the decoder, which has no end pointer.
    - A double is a rational number that has been rounded to 53 bits, to
      nearest even; overflow, subnormal numbers and NaN do not occur in the
      modelled range.
    - The decoder of the FIX library is a parameter of the session, and what the
      venue does to a printed number is a parameter [wire] with the hypothesis
      that it prints a nearest decimal and reads it as a double close to it.  A priority
      queue is a class whose law is that no element is earlier than the popped
      one.
    - The callbacks of the websocket library are inputs of the transport, one per
      event, and the readers of the JSON library are a record of functions that
      the decoders of order entry take.
    - A transfer of the HTTP library is a function from the options of a request to
      the blocks it delivers; the calls on threads are a class with the laws of
      their manual; what [main] does is a trace of events.
    - A file system maps names to contents.  The log queue is a third-party
      library: each producer has a stream of its own, and a failed [try_dequeue] has
      found every stream empty at the time it looked at it.
    - The calls of the logger inside of other components are not modelled.

    ** Fuel

    Loops that are not structural run with fuel.  The scan of a word takes as
    much fuel as the word has bits, since each step clears a set bit; the
    loops over buckets one more than a side has buckets and the loops over
    levels one more than it has levels, since each step moves further out; the
    erasing loop of the venue filter as much as its vector is long, since each
    step moves the cursor or shortens the vector; the printers as much as a
    64-bit number has digits; the readers of levels one more than the text has
    characters, since each round consumes one ([reader_terminates]); the loop
    over the messages of a FIX buffer one more than the buffer has characters and
    the loops of the replay one more than their queue is long, for the same
    reason; the wait for the gateway 101, since it sleeps at most a hundred times.
    The destructor of the queue takes any fuel that is enough, and its theorem says
    how much is.  The theorems are about the functions with that
    fuel and state the whole result, so running out is excluded and not
    assumed away.

    ** What is proved

    - The order books.  After any feed of levels that are set and removed the
      bucketed book shows two abstract ladders from price to quantity and
      their best bid and offer, and it fails exactly when a level needs a new
      bucket and its side has levels in as many as its pool holds
      ([feed_refines_ladders], [update_fails_iff_exhausted]),
      and the flat book refines the same ladders
      ([flat_feed_refines_ladders]).  The depth views return the best levels
      in order ([peek_views_best_first], [peek_qty_best_first]),
      [next_active_nearest] and
      [flat_next_active_bid_spec] are the neighbour searches.  The free list
      and the live slots of the pool partition it ([pool_partition]).
    - Orders and risk.  The reserved position is the exposure of the working
      orders in every history of agreeing reports ([reserved_is_exposure]);
      the risk filter keeps position and reservation within the limits
      ([risk_filter_budget]); a fill moves quantity from the reservation to
      the position ([fill_moves_reserved_to_position]); a rejected replacement
      restores the order ([replace_reject_restores]); a terminal report frees
      its layer ([terminal_report_frees_layer]); sweeps take exactly what is
      due ([sweep_exact], [sweep_cancels_expired]); [diff_actions_sound],
      [filter_by_venue_exact], [fit_qty_limits] and [plan_layer_policy]
      describe the planning of actions.
    - The maker.  A trade sends one passive entry or closing orders
      ([trade_sends_one_entry_or_exits]); the callbacks return and keep the
      invariant, over the order manager and for a ticker that the limits and
      positions have ([maker_callbacks_total]); an entry
      needs a full excursion ([very_weak_after_excursion], [phases_mirror]); late
      fills are liquidated ([late_fill_is_liquidated]); each fill is counted once
      ([each_fill_counted_once]).
    - The wire.  Messages in the documented formats are decoded to their fields
      ([decode_rendered]) by parsers that agree ([decimal_parsers_agree]), and
      the bytes of a depth message move the book to the ladders with its levels
      ([depth_bytes_update_ladders]).  The binary depth decoders read only inside
      of their message, whatever its bytes ([sbe_depth_no_overrun]), and give back
      what was encoded ([sbe_depth_roundtrip]).  Request ids come back
      ([request_id_roundtrip]) and a rejected spot order is released
      ([rejected_spot_order_released]).
      The two readers of price levels agree on every array of decimals
      ([level_readers_agree]), the two futures decoders on every message whose
      fields the JSON library reads as the hand-written parsers do
      ([decoders_agree]), the spot router is the router of both builds for spot
      ([spot_router_is_router]), and the quantities of its reports add up
      ([report_quantities_add]).
    - FIX.  The work of the reader does not depend on how the socket cuts the
      stream ([framing_independent_of_cuts]); bytes run the handlers of their
      messages ([fix_bytes_run_handlers]); a depth message moves the book to the
      ladders with its levels ([fix_depth_updates_ladders]); events continue each
      other and requests are numbered without a hole ([fix_stream_continues]); a
      limit order echoed by the venue comes back as it was, rounded to the
      decimals that are printed ([limit_order_echoed]), and the gateway sends exactly what it can
      ([fix_gateway_exact]).  Reports are returned to their pools
      ([response_returned]).
    - Encoders and replay.  The decimals in a request are those of the order on
      the grid of the exchange ([spot_order_written], [futures_order_written]);
      a replay ends and delivers every message once, by time
      ([replay_all_sorted], [recorded_time_is_event_time]); a written order is
      answered once ([written_order_answered]).
    - Websocket sessions.  The transport delivers the messages that were
      fragmented, those that end in an empty fragment together with the next, and
      sends what was queued in order ([fragments_reassembled],
      [writes_leave_in_order]); bytes run the handlers of their messages
      ([api_bytes_run_handlers], [stream_bytes_run_feed]), an answer is read by
      the kind of its request ([answers_read_by_kind]), the order entry logs on
      and opens its stream ([session_logs_on]), the market data session asks for
      the snapshot when it is connected ([connected_requests_snapshot]), and
      depth messages in fragments are the events of the consumer
      ([depth_fragments_reach_consumer]).
    - The recorder.  It follows the stream as the consumer does
      ([recorder_follows_consumer], [recorder_stream_gap_free]), its pools are
      accounted for ([recorder_nodes_accounted]) and it fails only when its own
      handlers have dropped the nodes ([recorder_fails_by_leaks]); the FIX build
      subscribes anew at every jump of the sequence numbers
      ([fix_recorder_resubscribes]).
    - Services.  Log files hold every line in order and within their size
      ([log_files_hold_lines], [unflushed_bounded]), time stamps are read back
      ([timestamp_read_back]), no message is lost, repeated or reordered
      ([log_order_kept]), and a shutdown ends with everything written that was
      logged before it ([shutdown_ends], [logged_before_shutdown_written]).
      Threads are placed as configured ([placement_exact]) and give back what their
      functions return ([join_returns_result]).  Timestamps follow the cycle counter
      within 9/8 of a nanosecond ([timestamp_tracks_counter]) and do not go back
      between two readings of the system clock ([timestamps_sorted]), so that orders
      a little apart have ids of their own ([order_ids_distinct]); the waiting of the
      trade engine never overflows ([engine_rounds_bounded]).
    - Start.  The program waits for the gateway at most a hundred times, starts
      market data only behind it, and stops on a signal ([main_waits_then_starts]);
      the engine that the configuration builds sends nothing before the first quote
      ([nothing_sent_before_quotes]) and keeps the reservation equal to the working
      orders from the start, for reports that agree with their orders and leave
      whole lots ([program_keeps_reservation]);
      the limits of the configuration are those of the risk check
      ([configured_limits_apply]); both conversions to ticks agree
      ([tick_conversions_agree]); the lot size that the exchange lists, a power of
      ten, becomes the increment of the venue policy ([listed_power_step_exact],
      [listed_step_sets_increment]), over HTTP as over the stream
      ([fetch_is_converter]), and a failed fetch changes nothing
      ([fetch_fails_when]).
    - The directional strategy.  A trade sends at most one order, a passive entry
      or one that closes an open leg ([directional_sends_one]), and the engine
      keeps its reservation exact ([directional_keeps_reservation]).
    - Configuration.  Rendered files are read back ([ini_roundtrip]), files
      overlay each other in a fixed order ([profile_precedence]), the placeholder
      loop ends and is right ([placeholders_replaced]), integers come back
      ([integers_read_back]), decimals arrive within one unit
      ([decimal_setting_read]), and a maker built from positive settings has the
      invariant of its callbacks ([configured_maker_ok]).
    - Money.  The realised profit of a flat position is the cash flow of its
      fills ([realised_pnl_is_cash_flow]).
    - Signals.  The sorted window and its median are those of the last prices
      ([median_of_window]), the adaptive threshold keeps its limits
      ([adaptive_threshold_bounded]), walls are the shortest prefixes that reach
      the threshold ([detect_wall_exact]), the threshold is that of the
      percentiles of both sides ([orderbook_threshold_percentile]), and trackers
      forget what was before a reset ([tracker_since_reset]).
    - Data.  The stream handed to the trade engine has no gaps
      ([depth_stream_gap_free]); the ring is a bounded queue for every
      interleaving ([spsc_fifo]), and the queue of many producers is first in,
      first out and loses nothing ([mpsc_fifo], [mpsc_nothing_lost]); features are those of their windows
      ([vwap_window_exact], [imbalance_is_ratio_of_sums]).
    - Numbers.  Printing and parsing are inverse, both printers agree, and the
      multiplication by a reciprocal is off by at most one
      ([to_string_roundtrip], [to_string2_equiv], [mul_scale8_error]); values up
      to 2^47 survive the way through doubles ([double_roundtrip]), are compared
      with doubles as with each other ([compare_with_double_exact]) and are added
      alike ([double_arithmetic_agrees]); rounding is monotone ([rnd_mono]).
    - Where the code does not do what it means to, a theorem states what it
      does: quotes of one side that collide, terminal reports that arrive
      twice, an event refused by a full queue, the first futures event after a
      recovery, the message beyond a full batch, the cached best index after a
      clear, the profit of hedged legs, the wall threshold of a book with an
      empty side, exits that are never retried and entries that block trading
      ([cancelled_exit_never_retried], [refused_entry_stops_trading]), futures
      rejections that are never reported ([rejected_futures_order_silent]),
      decimals read as zero ([extra_fraction_digits_zero]), snapshots that
      leave old levels in the book ([snapshot_bytes_keep_old_levels]), falling
      markets that are bought ([falling_market_is_bought]), configured
      decimals that lose a unit ([configured_value_truncated]), spot levels that
      lose their fraction ([spot_levels_truncated]), binary messages read past
      their end ([sbe_symbol_unguarded]) and messages that restart the recovery
      of a running consumer ([best_quote_restarts_recovery],
      [refused_depth_restarts_recovery]), and reference counts that do not protect
      the chunks of the queue ([mpsc_use_after_free],
      [mpsc_lost_swing_miscounts]), FIX messages that overtake each other
      ([retried_message_overtaken]) or stop the reader
      ([negative_length_stalls]), trades that switch the gap test off
      ([trade_disables_gap_check]), a consumer that blocks on its own pool
      ([awaiting_snapshot_blocks]), recordings whose order is lost
      ([ties_in_any_order]), a listen key that is never kept alive
      ([keepalive_never_starts]), answers to modifications that are dropped
      ([modification_answer_dropped]), a closed connection that accepts writes
      and never sends them ([closed_never_sends]), an empty final fragment
      that glues two messages ([empty_final_fragment_glues]), a recorder that
      drops its own nodes and retries without an end ([stale_snapshot_leaks],
      [recorder_runs_out], [buffered_gap_never_exits]), a log that a restart
      overwrites ([restart_loses_lines]), a thread without a cpu
      ([thread_without_cpu_undefined]), a setting that is read from another
      section ([exit_margin_of_exit_section_ignored]), a lot size of zero
      ([missing_lot_size_zero_increment]), ticks that divide by zero
      ([unsupported_tick_divides_by_zero]), a clock that goes back or stands still
      ([recalibration_goes_back], [stuck_counter_stops_clock]), a queue that leaks
      its last chunk ([destructor_leaks_last_chunk]), streams of short symbols that
      are not recognised ([short_symbol_unrouted]) and failures that exit with
      success ([exception_exits_with_success]).

    ** What is not modelled

    Sockets, TLS, curl, the websocket library, the FIX library with the classes
    generated from its dictionary, and the JSON library with the declarations of wire
    structs it reads are third-party or generated code around plain data; where the
    program uses their results they are parameters.  The applications and cores that
    only forward, the base class of strategies and the liquid taker, whose callbacks
    are empty, hold no logic.  Left out besides: logging inside of components and the
    [toString] functions that serve it, the performance trace of the logger, the
    functions that nothing calls ([reopen_fallback], [dispatch] of the logger,
    [round5], [parse_double_inline], [get_float]), the Apple build of threads and cpu
    placement, and the memory order of atomics weaker than sequential consistency.

    ** Plan

    The plan is complete: every component that keeps state or computes is modelled.
    Behind it are the order of weaker atomics, for the two queues and the pool, and
    the pool under several callers. *)

From stdpp Require Export base numbers list option gmap strings sorting.
From Stdlib Require Export ZArith Lia.

#[global] Open Scope Z_scope.

(** ** Machine integers

    A [w]-bit integer of the C++ code is a [Z].  Unsigned arithmetic wraps
    modulo [2^w] and the wrap is written out ([u64], [u32]); a narrowing cast
    to a signed type is the two's complement value ([i32], [i64], as C++20
    defines it).  Signed arithmetic that leaves the type is undefined in C++:
    the models compute the exact integer, and the [in_i64] predicates of the
    bounds theorems say when that is what the machine computes. *)
Definition two32 : Z := 4294967296.
Definition two63 : Z := 9223372036854775808.
Definition two64 : Z := 18446744073709551616.
Definition u64 (x : Z) : Z := x mod two64.
Definition u32 (x : Z) : Z := x mod two32.
Definition i32 (x : Z) : Z := (x + 2147483648) mod two32 - 2147483648.
Definition i64 (x : Z) : Z := (x + two63) mod two64 - two63.
Definition int64_max : Z := 9223372036854775807.
Definition int64_min : Z := -9223372036854775808.
Definition uint64_max : Z := 18446744073709551615.
Definition uint32_max : Z := 4294967295.
Definition int128_max : Z := 170141183460469231731687303715884105727.
Definition in_i64 (x : Z) : Prop := int64_min <= x <= int64_max.
Definition in_i128 (x : Z) : Prop := -int128_max - 1 <= x <= int128_max.
Definition in_u64 (x : Z) : Prop := 0 <= x < two64.

#[global] Instance in_i64_dec x : Decision (in_i64 x).
Proof. unfold in_i64. apply _. Defined.
#[global] Instance in_u64_dec x : Decision (in_u64 x).
Proof. unfold in_u64. apply _. Defined.

Lemma u64_small x : in_u64 x -> u64 x = x.
Proof. unfold in_u64, u64. apply Z.mod_small. Qed.

Lemma u64_range x : in_u64 (u64 x).
Proof. unfold in_u64, u64. apply Z.mod_pos_bound. reflexivity. Qed.

Lemma i64_small x : in_i64 x -> i64 x = x.
Proof.
  unfold in_i64, i64, int64_min, int64_max, two63, two64. intros. rewrite Z.mod_small by lia. lia.
Qed.

Lemma i32_small x : -2147483648 <= x < 2147483648 -> i32 x = x.
Proof. intros ?. unfold i32, two32. rewrite Z.mod_small; lia. Qed.

(** ** Lists indexed by machine integers

    [a[i]] of an array or a vector.  Outside the array the C++ read is
    undefined; [zget] is then the default element and [zset] changes nothing,
    and the components prove that their indices are in range. *)
Class Dflt (A : Type) := dflt : A.
#[global] Instance Dflt_Z : Dflt Z := 0.
#[global] Instance Dflt_bool : Dflt bool := false.
#[global] Instance Dflt_option {A} : Dflt (option A) := None.
#[global] Instance Dflt_list {A} : Dflt (list A) := [].

Definition zget {A} `{Dflt A} (l : list A) (i : Z) : A :=
  if bool_decide (0 <= i) then default dflt (l !! Z.to_nat i) else dflt.

Definition zset {A} (l : list A) (i : Z) (x : A) : list A :=
  if bool_decide (0 <= i) then <[Z.to_nat i := x]> l else l.

Definition zlen {A} (l : list A) : Z := Z.of_nat (length l).

Section zlists.
Context {A : Type} `{Dflt A}.
Implicit Types (l : list A) (x : A) (i j : Z).

Lemma zlen_nonneg l : 0 <= zlen l.
Proof. unfold zlen. lia. Qed.

Lemma zlen_zset l i x : zlen (zset l i x) = zlen l.
Proof. unfold zlen, zset. case_bool_decide; [rewrite length_insert|]; done. Qed.

Lemma zlen_app l1 l2 : zlen (l1 ++ l2) = zlen l1 + zlen l2.
Proof. unfold zlen. rewrite length_app. lia. Qed.

Lemma zlen_cons x l : zlen (x :: l) = 1 + zlen l.
Proof. unfold zlen. cbn [length]. lia. Qed.

Lemma zlen_replicate n x : zlen (replicate n x) = Z.of_nat n.
Proof. unfold zlen. by rewrite length_replicate. Qed.

Lemma zget_lookup l i x : l !! Z.to_nat i = Some x -> 0 <= i -> zget l i = x.
Proof. intros Hl Hi. unfold zget. by rewrite bool_decide_true, Hl. Qed.

Lemma zget_Some l i : 0 <= i < zlen l -> l !! Z.to_nat i = Some (zget l i).
Proof.
  intros Hi. destruct (lookup_lt_is_Some_2 l (Z.to_nat i)) as [x Hx].
  { unfold zlen in Hi. lia. }
  rewrite Hx. f_equal. symmetry. apply zget_lookup; [done | lia].
Qed.

Lemma zget_zset_eq l i x : 0 <= i < zlen l -> zget (zset l i x) i = x.
Proof.
  intros [? ?]. apply zget_lookup; [|done]. unfold zset, zlen in *.
  rewrite bool_decide_true by done. apply list_lookup_insert_eq. lia.
Qed.

Lemma zget_zset_ne l i j x : i <> j -> zget (zset l i x) j = zget l j.
Proof.
  unfold zget, zset. intros ?. repeat case_bool_decide; try done.
  rewrite list_lookup_insert_ne by lia. done.
Qed.

Lemma zget_zset l i j x :
  0 <= i < zlen l ->
  zget (zset l i x) j = if decide (i = j) then x else zget l j.
Proof.
  intros ?. case_decide; subst; [by apply zget_zset_eq | by apply zget_zset_ne].
Qed.

Lemma zget_out l i : ~ (0 <= i < zlen l) -> zget l i = dflt.
Proof.
  unfold zget, zlen. intros Hi. case_bool_decide; [|done].
  rewrite lookup_ge_None_2; [done | lia].
Qed.

Lemma zget_elem l i : 0 <= i < zlen l -> zget l i ∈ l.
Proof. intros ?. eapply list_elem_of_lookup_2. by apply zget_Some. Qed.

Lemma zget_replicate n x i : 0 <= i < Z.of_nat n -> zget (replicate n x) i = x.
Proof. intros ?. apply zget_lookup; [apply lookup_replicate_2|]; lia. Qed.

Lemma zset_zget l i : 0 <= i < zlen l -> zset l i (zget l i) = l.
Proof.
  intros Hi. unfold zset. rewrite bool_decide_true by lia.
  apply list_insert_id. by apply zget_Some.
Qed.

Lemma zset_out l i x : ~ (0 <= i < zlen l) -> zset l i x = l.
Proof.
  intros Hi. unfold zset, zlen in *. case_bool_decide; [|done]. apply list_insert_ge. lia.
Qed.

Lemma zset_elem l i x y : y ∈ zset l i x -> y = x \/ y ∈ l.
Proof.
  unfold zset. case_bool_decide; [|by right].
  intros [k Hk]%list_elem_of_lookup. revert Hk.
  rewrite list_lookup_insert. case_decide as Hd.
  - intros [= ->]. by left.
  - intros ?. right. by eapply list_elem_of_lookup_2.
Qed.

Lemma Forall_zset P l i x : Forall P l -> P x -> Forall P (zset l i x).
Proof.
  rewrite !Forall_forall. intros Hl Hx y [-> | Hy]%zset_elem; auto.
Qed.
End zlists.

Create HintDb hft.
Create Rewrite HintDb hft_len.
#[export] Hint Rewrite @zlen_zset @zlen_app @zlen_replicate : hft_len.
#[export] Hint Resolve zlen_nonneg u64_range : hft.

(** ** First hit of a search loop

    [for (i : order) if (body(i)) return ...]: the loops of the code that walk
    an index range and stop at the first index whose body yields a value. *)
Fixpoint first_some {A B} (f : A -> option B) (l : list A) : option B :=
  match l with
  | [] => None
  | x :: l' => match f x with Some b => Some b | None => first_some f l' end
  end.

Lemma first_some_None {A B} (f : A -> option B) l :
  first_some f l = None <-> (forall x, x ∈ l -> f x = None).
Proof.
  induction l as [|y l IH]; simpl.
  - split; [intros _ x Hx; by apply not_elem_of_nil in Hx | done].
  - split.
    + destruct (f y) eqn:E; [done|]. intros H x [->|Hx]%elem_of_cons; [done|].
      by apply IH.
    + intros H. rewrite (H y) by left. apply IH. intros x Hx. apply H. by right.
Qed.

Lemma first_some_Some {A B} (f : A -> option B) l b :
  first_some f l = Some b ->
  exists l1 x l2, l = l1 ++ x :: l2 /\ f x = Some b /\ (forall y, y ∈ l1 -> f y = None).
Proof.
  induction l as [|y l IH]; simpl; [done|].
  destruct (f y) eqn:E.
  - intros [= <-]. exists [], y, l. split_and!; try done.
    intros z Hz. by apply not_elem_of_nil in Hz.
  - intros (l1 & x & l2 & -> & Hx & Hl)%IH. exists (y :: l1), x, l2.
    split_and!; try done. intros z [->|Hz]%elem_of_cons; auto.
Qed.

(** Sub-multisets and sublists. *)
Lemma submseteq_NoDup {A} (l k : list A) : l ⊆+ k -> NoDup k -> NoDup l.
Proof. intros [k' ->]%submseteq_Permutation Hk. apply NoDup_app in Hk. tauto. Qed.

Lemma sublist_Forall {A} (P : A -> Prop) (l k : list A) : l `sublist_of` k -> Forall P k -> Forall P l.
Proof. induction 1; intros HF; [done | |]; apply Forall_cons in HF as [? ?]; auto. Qed.

Lemma filter_sublist {A} (f : A -> bool) (l : list A) : List.filter f l `sublist_of` l.
Proof. induction l as [|a l IH]; simpl; [done|]. destruct (f a); by constructor. Qed.

Lemma StronglySorted_sublist {A} (R : A -> A -> Prop) (l k : list A) :
  l `sublist_of` k -> StronglySorted R k -> StronglySorted R l.
Proof.
  induction 1 as [|x l k Hs IH|x l k Hs IH]; intros Hk; [constructor | |];
    apply StronglySorted_inv in Hk as [Hk Hx]; [|by apply IH].
  constructor; [by apply IH|]. eapply sublist_Forall; eassumption.
Qed.

(** Sums. *)
Definition zsum (l : list Z) : Z := foldr Z.add 0 l.

Lemma zsum_app l1 l2 : zsum (l1 ++ l2) = zsum l1 + zsum l2.
Proof. induction l1; simpl; lia. Qed.

(** A body that maps the hit of another body, and never fails to. *)
Lemma first_some_bind {A B C} (f : A -> option B) (g : A -> option C) (h : B -> option C) l :
  (forall x, x ∈ l -> g x = f x ≫= h) ->
  (forall x b, x ∈ l -> f x = Some b -> is_Some (h b)) ->
  first_some g l = first_some f l ≫= h.
Proof.
  induction l as [|x l IH]; intros Hg Hh; simpl; [done|].
  rewrite Hg by left. destruct (f x) as [b|] eqn:E; simpl.
  - destruct (Hh x b) as [c Hc]; [left | done |]. by rewrite Hc.
  - apply IH; intros; [apply Hg | eapply Hh; [|done]]; by right.
Qed.

(** ** Averages

    [(a * x + (scale - a) * y) / scale], the exponential averages of the code. *)
Definition ema (scale a x y : Z) : Z := Z.quot (a * x + (scale - a) * y) scale.

Lemma ema_between scale a x y lo hi :
  0 < scale -> 0 <= a <= scale -> 0 <= lo -> lo <= x <= hi -> lo <= y <= hi ->
  lo <= ema scale a x y <= hi.
Proof.
  intros Hs Ha Hlo Hx Hy. unfold ema. rewrite Z.quot_div_nonneg by nia.
  split; [apply Z.div_le_lower_bound | apply Z.div_le_upper_bound]; nia.
Qed.

(** ** Windows and rings *)

(** The last [n] elements. *)
Definition lastn {A} (n : Z) (l : list A) : list A := drop (length l - Z.to_nat n) l.

(** A ring of [n] slots that holds [f] of the last [n] elements of [l], the
    element [i] in slot [i mod n]. *)
Definition ring {A B} `{Dflt B} (n : Z) (f : A -> B) (l : list A) (arr : list B) : Prop :=
  zlen arr = n /\
  forall i x, l !! i = Some x -> zlen l - n <= Z.of_nat i -> zget arr (Z.of_nat i mod n) = f x.

Lemma ring_snoc {A B} `{Dflt B} n (f : A -> B) l arr x :
  0 < n -> ring n f l arr -> ring n f (l ++ [x]) (zset arr (zlen l mod n) (f x)).
Proof.
  intros Hn [Hlen Hr]. pose proof (Z.mod_pos_bound (zlen l) n Hn). split; [by rewrite zlen_zset|].
  intros i y Hi Hge. rewrite zlen_app in Hge. change (zlen [x]) with 1 in Hge.
  apply lookup_app_Some in Hi as [Hi|[Hle Hi]].
  - pose proof (lookup_lt_Some _ _ _ Hi) as Hlt. rewrite zget_zset_ne; [apply Hr; [done|lia]|].
    intros E. assert (Hz : (zlen l - Z.of_nat i) mod n = 0)
      by (rewrite Zminus_mod, E, Z.sub_diag; apply Z.mod_0_l; lia).
    unfold zlen in *. rewrite Z.mod_small in Hz by lia. lia.
  - apply list_lookup_singleton_Some in Hi as [Hi <-].
    replace (Z.of_nat i) with (zlen l) by (unfold zlen; lia). rewrite zget_zset_eq by lia. done.
Qed.

(** The slot that the next write reuses holds the element about to leave. *)
Lemma ring_oldest {A B} `{Dflt B} n (f : A -> B) l arr :
  0 < n -> ring n f l arr -> n <= zlen l ->
  exists x, lastn n l = x :: lastn (n - 1) l /\ zget arr (zlen l mod n) = f x.
Proof.
  intros Hn [Hlen Hr] Hle. unfold lastn, zlen in *.
  destruct (lookup_lt_is_Some_2 l (length l - Z.to_nat n)) as [x Hx]; [lia|]. exists x. split.
  - rewrite (drop_S _ _ _ Hx). do 2 f_equal. lia.
  - rewrite <- (Hr _ _ Hx) by lia. f_equal.
    replace (Z.of_nat (length l - Z.to_nat n)) with (Z.of_nat (length l) + (-1) * n) by lia.
    by rewrite Z_mod_plus_full.
Qed.

Lemma lastn_snoc {A} n (l : list A) x :
  0 < n -> lastn n (l ++ [x]) = lastn (n - 1) l ++ [x].
Proof.
  intros Hn. unfold lastn. rewrite length_app. simpl.
  rewrite drop_app_le by lia. do 2 f_equal. lia.
Qed.

Lemma lastn_all {A} n (l : list A) : zlen l <= n -> lastn n l = l.
Proof. intros Hn. unfold lastn, zlen in *. by replace (length l - Z.to_nat n)%nat with 0%nat by lia. Qed.

Lemma zlen_lastn {A} n (l : list A) : 0 <= n -> zlen (lastn n l) = Z.min n (zlen l).
Proof. intros Hn. unfold lastn, zlen. rewrite length_drop. lia. Qed.

(** A deque that drops its front when it grows beyond [n]. *)
Lemma lastn_push {A} n (l : list A) x :
  0 < n ->
  lastn n (l ++ [x]) =
    if n <? zlen (lastn n l ++ [x]) then tail (lastn n l ++ [x]) else lastn n l ++ [x].
Proof.
  intros Hn. rewrite zlen_app, zlen_lastn by lia. change (zlen [x]) with 1.
  pose proof (zlen_nonneg l). destruct (Z.ltb_spec n (Z.min n (zlen l) + 1)) as [Hlt|Hge].
  - rewrite lastn_snoc by done. assert (E : lastn (n - 1) l = tail (lastn n l)).
    { unfold lastn, zlen in *.
      transitivity (drop 1 (drop (length l - Z.to_nat n) l)); [rewrite drop_drop; f_equal; lia|].
      by destruct (drop (length l - Z.to_nat n) l). }
    rewrite E. assert (Hl : zlen (lastn n l) = Z.min n (zlen l)) by (apply zlen_lastn; lia).
    destruct (lastn n l); [unfold zlen in Hl; simpl in Hl; unfold zlen in *; lia | done].
  - rewrite !lastn_all; [done | lia | rewrite zlen_app; change (zlen [x]) with 1; lia].
Qed.

(** The filled part of a ring is determined by what was written to it. *)
Lemma ring_determined {A B} `{Dflt B} n (f : A -> B) l arr arr' j :
  0 < n -> ring n f l arr -> ring n f l arr' -> 0 <= j < Z.min n (zlen l) -> zget arr j = zget arr' j.
Proof.
  intros Hn [_ Hr] [_ Hr'] Hj. set (i := j + n * ((zlen l - 1 - j) / n)).
  assert (Hi : zlen l - n <= i < zlen l /\ 0 <= i).
  { pose proof (Z.mod_pos_bound (zlen l - 1 - j) n Hn).
    pose proof (Z.div_mod (zlen l - 1 - j) n ltac:(lia)).
    assert (0 <= (zlen l - 1 - j) / n) by (apply Z.div_pos; lia). unfold i. nia. }
  destruct (lookup_lt_is_Some_2 l (Z.to_nat i)) as [x Hx]; [unfold zlen in Hi; lia|].
  assert (Ej : Z.of_nat (Z.to_nat i) mod n = j).
  { rewrite Z2Nat.id by lia. unfold i. rewrite Z.mul_comm, Z_mod_plus_full. apply Z.mod_small. lia. }
  rewrite <- Ej at 1 2. rewrite (Hr _ x), (Hr' _ x); done || lia.
Qed.

Lemma zget_ext {A} `{Dflt A} (l k : list A) :
  zlen l = zlen k -> (forall j, 0 <= j < zlen l -> zget l j = zget k j) -> l = k.
Proof.
  intros Hlen Hj. apply list_eq. intros i. destruct (decide (i < length l)%nat) as [Hi|Hi].
  - specialize (Hj (Z.of_nat i)). unfold zlen in *.
    pose proof (zget_Some l (Z.of_nat i)) as El. pose proof (zget_Some k (Z.of_nat i)) as Ek.
    unfold zlen in *. rewrite Nat2Z.id in *. rewrite El, Ek by lia. f_equal. apply Hj. lia.
  - rewrite !lookup_ge_None_2; unfold zlen in *; [done | lia | lia].
Qed.

Lemma zget_take {A} `{Dflt A} (l : list A) n j : 0 <= j < Z.of_nat n -> zget (take n l) j = zget l j.
Proof. intros Hj. unfold zget. rewrite !bool_decide_true by lia. rewrite lookup_take_lt by lia. done. Qed.

(** Read from the next slot to be written on, a full ring is the window in order. *)
Lemma ring_rotated {A B} `{Dflt B} n (f : A -> B) l arr :
  0 < n -> ring n f l arr -> n <= zlen l ->
  drop (Z.to_nat (zlen l mod n)) arr ++ take (Z.to_nat (zlen l mod n)) arr = f <$> lastn n l.
Proof.
  intros Hn [Hlen Hr] Hle. pose proof (Z.mod_pos_bound (zlen l) n Hn) as Hm.
  pose proof (Z.div_mod (zlen l) n ltac:(lia)) as Hd.
  assert (Hlast : length (lastn n l) = Z.to_nat n) by (unfold lastn, zlen in *; rewrite length_drop; lia).
  apply list_eq. intros i. rewrite list_lookup_fmap.
  destruct (decide (i < Z.to_nat n)%nat) as [Hi|Hi].
  2: { rewrite (lookup_ge_None_2 (lastn n l)) by lia. apply lookup_ge_None_2.
       rewrite length_app, length_drop, length_take. unfold zlen in *. lia. }
  destruct (lookup_lt_is_Some_2 (lastn n l) i) as [x Hx]; [lia|]. rewrite Hx. simpl.
  unfold lastn in Hx. rewrite lookup_drop in Hx. apply Hr in Hx; [|unfold zlen in *; lia].
  set (m := zlen l mod n) in *.
  assert (Ei : Z.of_nat (length l - Z.to_nat n + i) mod n = if m + Z.of_nat i <? n then m + Z.of_nat i else m + Z.of_nat i - n).
  { symmetry. unfold zlen in *. destruct (Z.ltb_spec (m + Z.of_nat i) n);
      [apply Z.mod_unique with (Z.of_nat (length l) / n - 1) | apply Z.mod_unique with (Z.of_nat (length l) / n)]; lia. }
  rewrite Ei in Hx. unfold zlen in *. destruct (Z.ltb_spec (m + Z.of_nat i) n).
  - rewrite lookup_app_l by (rewrite length_drop; lia). rewrite lookup_drop. rewrite <- Hx.
    replace (Z.to_nat m + i)%nat with (Z.to_nat (m + Z.of_nat i)) by lia. apply zget_Some. unfold zlen. lia.
  - rewrite lookup_app_r by (rewrite length_drop; lia). rewrite length_drop.
    rewrite lookup_take_lt by lia. rewrite <- Hx.
    replace (i - (length arr - Z.to_nat m))%nat with (Z.to_nat (m + Z.of_nat i - n)) by lia.
    apply zget_Some. unfold zlen. lia.
Qed.

(** The filled part of a ring is the window, in some order. *)
Lemma ring_window {A B} `{Dflt B} n (f : A -> B) l arr :
  0 < n -> ring n f l arr -> take (Z.to_nat (Z.min (zlen l) n)) arr ≡ₚ f <$> lastn n l.
Proof.
  intros Hn Hring. pose proof Hring as [Hlen Hr]. destruct (Z.le_gt_cases n (zlen l)) as [Hle|Hlt].
  - rewrite <- (ring_rotated n f l arr) by done. rewrite Z.min_r, take_ge by (unfold zlen in *; lia).
    rewrite Permutation_app_comm. by rewrite take_drop.
  - rewrite lastn_all, Z.min_l by lia. apply reflexive_eq, list_eq. intros i.
    rewrite list_lookup_fmap. destruct (l !! i) as [x|] eqn:E; simpl.
    + pose proof (lookup_lt_Some _ _ _ E) as Hi. apply Hr in E as Hx; [|unfold zlen in *; lia].
      rewrite Z.mod_small in Hx by (unfold zlen in *; lia).
      rewrite lookup_take_lt by (unfold zlen; lia). rewrite <- Hx.
      rewrite <- (zget_Some arr) by (unfold zlen in *; lia). by rewrite Nat2Z.id.
    + apply lookup_ge_None in E. apply lookup_ge_None_2. rewrite length_take. unfold zlen. lia.
Qed.

(** ** Tactics *)

(** Case analysis on the boolean tests and matches of a definition. *)
Ltac break_tests :=
  repeat match goal with
  | |- context [bool_decide ?P] => case_bool_decide
  | H : context [bool_decide ?P] |- _ => case_bool_decide
  | |- context [if ?b then _ else _] => let E := fresh "E" in destruct b eqn:E
  end.

(** Boolean comparisons of [Z] to propositions, then linear arithmetic. *)
Ltac zb :=
  repeat match goal with
  | H : (_ <? _) = true |- _ => apply Z.ltb_lt in H
  | H : (_ <? _) = false |- _ => apply Z.ltb_ge in H
  | H : (_ <=? _) = true |- _ => apply Z.leb_le in H
  | H : (_ <=? _) = false |- _ => apply Z.leb_gt in H
  | H : (_ =? _) = true |- _ => apply Z.eqb_eq in H
  | H : (_ =? _) = false |- _ => apply Z.eqb_neq in H
  | H : (_ && _) = true |- _ => apply andb_true_iff in H as [? ?]
  | H : (_ || _) = false |- _ => apply orb_false_iff in H as [? ?]
  end.

(** Boolean tests that hold, anywhere, as propositions. *)
Ltac zprop :=
  zb; rewrite ?orb_true_iff, ?andb_true_iff, ?Z.leb_le, ?Z.ltb_lt, ?Z.eqb_eq in *.

(** Linear arithmetic with [/] and [mod] by constants. *)
Ltac zdiv := Z.div_mod_to_equations; lia.

Ltac zsolve := zb; try lia; try nia.
