(* ===== verification/Binary64.v ===== *)
(** * Conversions between fixed-point numbers and doubles
      (src/hft/common/fixed_point.hpp)

    A finite double is the rational it denotes, and an operation is the exact
    operation followed by rounding to 53 significant bits, to nearest and ties
    to even ([rnd]).  The exponent is unbounded: prices and quantities are far
    from the limits of the range of binary64.

    The theorems: the relative error of one rounding, that rounding is monotone
    and depends on the value of a fraction only, and that a fixed-point
    value survives the way through doubles ([from_double], [to_double]). *)

From Stdlib Require Import QArith Qabs Lqa.
From S2P Require Import Prelude.

Module Binary64.

(** ** Rounding *)

(** [num / den] to the nearest integer, ties to even. *)
Definition nearest_even (num den : Z) : Z :=
  let q := num / den in
  let r := 2 * (num mod den) in
  if r <? den then q
  else if den <? r then q + 1
  else if Z.even q then q else q + 1.

(** [a / d * 2^s] as a fraction. *)
Definition scale_num (a s : Z) : Z := if 0 <=? s then a * 2 ^ s else a.
Definition scale_den (d s : Z) : Z := if 0 <=? s then d else d * 2 ^ (- s).

(** The power of two that brings [a / d] between 2^52 and 2^53. *)
Definition shift_of (a d : Z) : Z :=
  let s := 52 - (Z.log2 a - Z.log2 d) in
  if 2 ^ 52 * scale_den d s <=? scale_num a s then s else s + 1.

(** [m * 2^(-s)] *)
Definition unscale (m s : Z) : Q :=
  if 0 <=? s then m # Z.to_pos (2 ^ s) else inject_Z (m * 2 ^ (- s)).

Definition rnd_pos (a d : Z) : Q :=
  let s := shift_of a d in unscale (nearest_even (scale_num a s) (scale_den d s)) s.

Definition rnd (q : Q) : Q :=
  let n := Qnum q in
  if n =? 0 then 0%Q
  else if 0 <? n then rnd_pos n (Zpos (Qden q))
  else Qopp (rnd_pos (- n) (Zpos (Qden q))).

(** ** The conversions *)

(** Truncation of a double to an integer. *)
Definition trunc (q : Q) : Z := Z.quot (Qnum q) (Zpos (Qden q)).

(** [static_cast<double>(value) / Scale] *)
Definition to_double (scale value : Z) : Q := rnd (rnd (inject_Z value) / inject_Z scale)%Q.

(** [static_cast<BaseType>(val * Scale + (val >= 0 ? 0.5 : -0.5))] *)
Definition from_double (scale : Z) (val : Q) : Z :=
  let offset := if Qle_bool 0 val then (1 # 2)%Q else (-1 # 2)%Q in
  trunc (rnd (rnd (val * inject_Z scale)%Q + offset)%Q).

(** [std::max(0.0, a - b)] *)
Definition max0_sub (a b : Q) : Q :=
  let d := rnd (a - b)%Q in if Qle_bool d 0 then 0%Q else d.

(** ** The error of a rounding *)

Lemma nearest_even_err num den :
  0 < den -> 2 * Z.abs (nearest_even num den * den - num) <= den.
Proof.
  intros Hd. unfold nearest_even. pose proof (Z.div_mod num den ltac:(lia)).
  pose proof (Z.mod_pos_bound num den Hd).
  destruct (Z.ltb_spec (2 * (num mod den)) den); [nia|].
  destruct (Z.ltb_spec den (2 * (num mod den))); [nia|].
  destruct (Z.even (num / den)); nia.
Qed.

Lemma scale_den_pos d s : 0 < d -> 0 < scale_den d s.
Proof.
  intros Hd. unfold scale_den. destruct (Z.leb_spec 0 s); [done|].
  pose proof (Z.pow_pos_nonneg 2 (- s) ltac:(lia) ltac:(lia)). nia.
Qed.

(** One more doubling. *)
Lemma scale_succ a d s :
  0 < d -> 0 <= a ->
  2 * scale_num a s * scale_den d (s + 1) = scale_num a (s + 1) * scale_den d s.
Proof.
  intros Hd Ha. unfold scale_num, scale_den.
  destruct (Z.leb_spec 0 s), (Z.leb_spec 0 (s + 1)); try lia.
  - rewrite Z.pow_add_r by lia. ring.
  - assert (s = -1) as -> by lia. change (2 ^ (- -1)) with 2. change (2 ^ (-1 + 1)) with 1. ring.
  - replace (- s) with (- (s + 1) + 1) by lia. rewrite (Z.pow_add_r 2 (- (s + 1)) 1) by lia. ring.
Qed.

Lemma scale_log a d :
  0 < a -> 0 < d -> let s := 52 - (Z.log2 a - Z.log2 d) in
  2 ^ 51 * scale_den d s < scale_num a s.
Proof.
  intros Ha Hd s. pose proof (Z.log2_spec a Ha) as [La Ua]. pose proof (Z.log2_spec d Hd) as [Ld Ud].
  pose proof (Z.log2_nonneg a). pose proof (Z.log2_nonneg d).
  rewrite Z.pow_succ_r in Ua, Ud by lia. unfold scale_num, scale_den, s.
  set (la := Z.log2 a) in *. set (ld := Z.log2 d) in *.
  destruct (Z.leb_spec 0 (52 - (la - ld))).
  - assert (E : 2 ^ la * 2 ^ (52 - (la - ld)) = 2 ^ 52 * 2 ^ ld)
      by (rewrite <-!Z.pow_add_r by lia; f_equal; lia).
    assert (0 < 2 ^ (52 - (la - ld))) by (apply Z.pow_pos_nonneg; lia).
    assert (2 ^ la * 2 ^ (52 - (la - ld)) <= a * 2 ^ (52 - (la - ld))) by nia.
    change (2 ^ 52) with (2 * 2 ^ 51) in E. nia.
  - assert (E : 2 ^ ld * 2 ^ (- (52 - (la - ld))) * 2 ^ 52 = 2 ^ la)
      by (rewrite <-!Z.pow_add_r by lia; f_equal; lia).
    assert (0 < 2 ^ (- (52 - (la - ld)))) by (apply Z.pow_pos_nonneg; lia).
    change (2 ^ 52) with (2 * 2 ^ 51) in E. nia.
Qed.

Lemma shift_normal a d :
  0 < a -> 0 < d -> 2 ^ 52 * scale_den d (shift_of a d) <= scale_num a (shift_of a d).
Proof.
  intros Ha Hd. unfold shift_of. set (s := 52 - _).
  destruct (Z.leb_spec (2 ^ 52 * scale_den d s) (scale_num a s)) as [|Hlt]; [done|].
  pose proof (scale_log a d Ha Hd) as Hl. fold s in Hl. cbv zeta in Hl.
  pose proof (scale_succ a d s Hd ltac:(lia)) as Hs.
  pose proof (scale_den_pos d s Hd). pose proof (scale_den_pos d (s + 1) Hd).
  change (2 ^ 52) with (2 * 2 ^ 51). nia.
Qed.

Lemma unscale_mul m s : (unscale m s == inject_Z m * unscale 1 s)%Q.
Proof.
  unfold unscale. destruct (0 <=? s).
  - unfold Qeq, inject_Z. simpl. lia.
  - rewrite Z.mul_1_l, <-inject_Z_mult. reflexivity.
Qed.

Lemma unscale_pos s : (0 < unscale 1 s)%Q.
Proof.
  unfold unscale. destruct (Z.leb_spec 0 s); [done|].
  pose proof (Z.pow_pos_nonneg 2 (- s) ltac:(lia) ltac:(lia)). unfold Qlt, inject_Z. simpl Qnum. simpl Qden. lia.
Qed.

(** The scaled fraction, scaled back. *)
Lemma scale_back a d s :
  0 < d -> (inject_Z (scale_num a s) / inject_Z (scale_den d s) * unscale 1 s == inject_Z a / inject_Z d)%Q.
Proof.
  intros Hd. unfold scale_num, scale_den, unscale. destruct (Z.leb_spec 0 s).
  - pose proof (Z.pow_pos_nonneg 2 s ltac:(lia) ltac:(lia)).
    assert (E : (1 # Z.to_pos (2 ^ s) == / inject_Z (2 ^ s))%Q).
    { unfold Qinv, inject_Z. simpl. destruct (2 ^ s) eqn:Ep; [lia | done | lia]. }
    rewrite E, inject_Z_mult. field. split; unfold Qeq, inject_Z; simpl; lia.
  - pose proof (Z.pow_pos_nonneg 2 (- s) ltac:(lia) ltac:(lia)).
    rewrite Z.mul_1_l, inject_Z_mult. field. split; unfold Qeq, inject_Z; simpl; lia.
Qed.

(** 2^(-53) *)
Definition ulp : Q := 1 # 9007199254740992.

Lemma rnd_pos_err a d :
  0 < a -> 0 < d -> (Qabs (rnd_pos a d - inject_Z a / inject_Z d) <= inject_Z a / inject_Z d * ulp)%Q.
Proof.
  intros Ha Hd. unfold rnd_pos. set (s := shift_of a d).
  set (num := scale_num a s). set (den := scale_den d s). set (m := nearest_even num den).
  assert (Hden : 0 < den) by (by apply scale_den_pos).
  assert (Herr : 2 * Z.abs (m * den - num) <= den) by (by apply nearest_even_err).
  assert (Hnorm : 2 ^ 52 * den <= num) by (by apply shift_normal).
  rewrite <-(scale_back a d s Hd), unscale_mul. fold num den. pose proof (unscale_pos s) as Hu.
  set (u := unscale 1 s) in *. set (x := (inject_Z num / inject_Z den)%Q).
  assert (Hx : (x * inject_Z den == inject_Z num)%Q).
  { unfold x. field. unfold Qeq, inject_Z. simpl. lia. }
  assert (Hd' : (0 < inject_Z den)%Q) by (unfold Qlt, inject_Z; simpl; lia).
  assert (Hbig : (4503599627370496 * inject_Z den <= inject_Z num)%Q).
  { change 4503599627370496%Q with (inject_Z (2 ^ 52)). rewrite <-inject_Z_mult, <-Zle_Qle. done. }
  assert (H1 : (2 * (inject_Z m * inject_Z den - inject_Z num) <= inject_Z den)%Q).
  { change 2%Q with (inject_Z 2). unfold Qminus.
    rewrite <-inject_Z_mult, <-inject_Z_opp, <-inject_Z_plus, <-inject_Z_mult, <-Zle_Qle. lia. }
  assert (H2 : (- inject_Z den <= 2 * (inject_Z m * inject_Z den - inject_Z num))%Q).
  { change 2%Q with (inject_Z 2). unfold Qminus.
    rewrite <-inject_Z_mult, <-!inject_Z_opp, <-inject_Z_plus, <-inject_Z_mult, <-Zle_Qle. lia. }
  assert (Hm : (Qabs (inject_Z m - x) <= x * ulp)%Q).
  { unfold ulp. apply Qabs_Qle_condition. split; nra. }
  assert (E : (inject_Z m * u - x * u == (inject_Z m - x) * u)%Q) by ring.
  rewrite E, Qabs_Qmult, (Qabs_pos u) by lra. nra.
Qed.

Lemma inject_frac n d : (inject_Z n / inject_Z (Zpos d) == n # d)%Q.
Proof. unfold Qdiv, Qinv, Qmult, inject_Z, Qeq. simpl. lia. Qed.

(** The error of a rounding is at most half a unit of the last of 53 bits. *)
Lemma rnd_err q : (Qabs (rnd q - q) <= Qabs q * ulp)%Q.
Proof.
  destruct q as [n d]. unfold rnd. simpl Qnum. simpl Qden. destruct (Z.eqb_spec n 0) as [->|Hn].
  { unfold Qle. simpl. lia. }
  destruct (Z.ltb_spec 0 n) as [Hp|Hp].
  - pose proof (rnd_pos_err n (Zpos d) Hp ltac:(lia)) as H. rewrite inject_frac in H.
    rewrite (Qabs_pos (n # d)); [done|]. unfold Qle. simpl. lia.
  - pose proof (rnd_pos_err (- n) (Zpos d) ltac:(lia) ltac:(lia)) as H. rewrite inject_frac in H.
    assert (E : (- n # d == - (n # d))%Q) by reflexivity. rewrite E in H.
    rewrite (Qabs_neg (n # d)) by (unfold Qle; simpl; lia).
    assert (E' : (- rnd_pos (- n) (Zpos d) - (n # d) == - (rnd_pos (- n) (Zpos d) - - (n # d)))%Q) by ring.
    by rewrite E', Qabs_opp.
Qed.

Lemma rnd_bounds q b : (Qabs q <= b -> q - b * ulp <= rnd q <= q + b * ulp)%Q.
Proof.
  intros Hb. pose proof (rnd_err q) as H. apply Qabs_Qle_condition in H. unfold ulp in *. split; lra.
Qed.

Lemma trunc_between q v : 0 <= v -> (inject_Z v <= q)%Q -> (q < inject_Z (v + 1))%Q -> trunc q = v.
Proof.
  destruct q as [n d]. unfold trunc, Qle, Qlt, inject_Z. simpl Qnum. simpl Qden. intros H0 H1 H2.
  rewrite Z.quot_div_nonneg by lia. symmetry. apply (Z.div_unique n (Zpos d) v (n - v * Zpos d)); lia.
Qed.

Lemma trunc_opp q : trunc (- q) = - trunc q.
Proof. destruct q as [n d]. unfold trunc. simpl. by rewrite Z.quot_opp_l. Qed.

Definition kExactRange : Z := 2 ^ 47.

Lemma range_q v : Z.abs v <= kExactRange -> (Qabs (inject_Z v) <= 140737488355328)%Q.
Proof. intros H. unfold kExactRange in H. unfold Qabs, inject_Z, Qle. simpl. lia. Qed.

(** A double that is close to the scaled value is read as the value. *)
Lemma from_double_near scale val v :
  0 < scale -> Z.abs v <= kExactRange ->
  (Qabs (val * inject_Z scale - inject_Z v) <= 1 # 4)%Q -> from_double scale val = v.
Proof.
  intros Hs Hv Hn. apply Qabs_Qle_condition in Hn. pose proof (range_q v Hv) as Hr.
  apply Qabs_Qle_condition in Hr. unfold from_double.
  set (y := (val * inject_Z scale)%Q) in *.
  assert (Hscale : (0 < inject_Z scale)%Q) by (unfold Qlt, inject_Z; simpl; lia).
  assert (H1 : (y - (1 # 16) <= rnd y <= y + (1 # 16))%Q).
  { destruct (rnd_bounds y 281474976710657) as [Ha Hb]; [apply Qabs_Qle_condition; lra|].
    unfold ulp in *. split; lra. }
  assert (H2 : forall o, (Qabs o <= 1 # 2 -> rnd y + o - (1 # 16) <= rnd (rnd y + o) <= rnd y + o + (1 # 16))%Q).
  { intros o Ho. apply Qabs_Qle_condition in Ho.
    destruct (rnd_bounds (rnd y + o) 281474976710659) as [Ha Hb]; [apply Qabs_Qle_condition; lra|].
    unfold ulp in *. split; lra. }
  destruct (Qle_bool 0 val) eqn:E; cbv zeta iota.
  - apply Qle_bool_iff in E. assert (0 <= y)%Q by (unfold y; nra).
    assert (0 <= v). { apply Z.nlt_ge. intros Hlt. assert (inject_Z v <= -1)%Q by (unfold Qle, inject_Z; simpl; lia). lra. }
    destruct (H2 (1 # 2)%Q ltac:(by vm_compute)) as [Ha Hb].
    apply trunc_between; [done | lra|]. rewrite inject_Z_plus. change (inject_Z 1) with 1%Q. lra.
  - assert (Hneg : (val < 0)%Q). { apply Qnot_le_lt. intros Hc. apply Qle_bool_iff in Hc. congruence. }
    assert (y <= 0)%Q by (unfold y; nra).
    assert (v <= 0). { apply Z.nlt_ge. intros Hlt. assert (1 <= inject_Z v)%Q by (unfold Qle, inject_Z; simpl; lia). lra. }
    destruct (H2 (-1 # 2)%Q ltac:(by vm_compute)) as [Ha Hb].
    set (x := rnd (rnd y + (-1 # 2))) in *.
    assert (trunc (- x) = - v).
    { apply trunc_between; [lia | rewrite inject_Z_opp; lra|]. rewrite inject_Z_plus, inject_Z_opp. change (inject_Z 1) with 1%Q. lra. }
    rewrite trunc_opp in H3. lia.
Qed.

Lemma scale_cancel q scale : 0 < scale -> (q / inject_Z scale * inject_Z scale == q)%Q.
Proof. intros Hs. field. unfold Qeq, inject_Z. simpl. lia. Qed.

(** The exact quotient, rounded once: what the text of a decimal denotes. *)
Lemma from_double_decimal scale v :
  0 < scale -> Z.abs v <= kExactRange -> from_double scale (rnd (inject_Z v / inject_Z scale)) = v.
Proof.
  intros Hs Hv. apply from_double_near; [done..|].
  set (q := (inject_Z v / inject_Z scale)%Q). pose proof (rnd_err q) as He.
  pose proof (scale_cancel (inject_Z v) scale Hs) as Hc. fold q in Hc.
  assert (Hscale : (0 < inject_Z scale)%Q) by (unfold Qlt, inject_Z; simpl; lia).
  assert (E : (rnd q * inject_Z scale - inject_Z v == (rnd q - q) * inject_Z scale)%Q) by (rewrite <-Hc; ring).
  rewrite E, Qabs_Qmult, (Qabs_pos (inject_Z scale)) by lra.
  assert (Hq : (Qabs q * inject_Z scale == Qabs (inject_Z v))%Q).
  { rewrite <-(Qabs_pos (inject_Z scale)) at 1 by lra. rewrite <-Qabs_Qmult. by rewrite Hc. }
  pose proof (range_q v Hv). unfold ulp in He. nra.
Qed.

(** A double that stands for a fixed-point value, with the error it may have
    to be read back exactly. *)
Definition stands_for (scale : Z) (val : Q) (v : Z) : Prop :=
  (Qabs (val * inject_Z scale - inject_Z v) <= 1 # 16)%Q.

Lemma to_double_near scale v :
  0 < scale -> Z.abs v <= kExactRange -> stands_for scale (to_double scale v) v.
Proof.
  intros Hs Hv. unfold stands_for, to_double.
  set (r := rnd (inject_Z v)). set (q := (r / inject_Z scale)%Q).
  pose proof (range_q v Hv) as Hr. pose proof (rnd_err (inject_Z v)) as H1. fold r in H1.
  pose proof (rnd_err q) as H2. pose proof (scale_cancel r scale Hs) as Hc. fold q in Hc.
  assert (Hscale : (0 < inject_Z scale)%Q) by (unfold Qlt, inject_Z; simpl; lia).
  assert (Hq : (Qabs q * inject_Z scale == Qabs r)%Q).
  { rewrite <-(Qabs_pos (inject_Z scale)) at 1 by lra. rewrite <-Qabs_Qmult. by rewrite Hc. }
  assert (E : (rnd q * inject_Z scale - inject_Z v == (rnd q - q) * inject_Z scale + (r - inject_Z v))%Q)
    by (rewrite <-Hc; ring).
  rewrite E. eapply Qle_trans; [apply Qabs_triangle|]. rewrite Qabs_Qmult, (Qabs_pos (inject_Z scale)) by lra.
  assert (Hr' : (Qabs r <= Qabs (inject_Z v) + Qabs (r - inject_Z v))%Q).
  { eapply Qle_trans; [|apply Qabs_triangle]. apply Qle_lteq. right. f_equiv. ring. }
  unfold ulp in *. nra.
Qed.

Lemma from_double_stands scale val v :
  0 < scale -> Z.abs v <= kExactRange -> stands_for scale val v -> from_double scale val = v.
Proof.
  intros Hs Hv Hn. apply from_double_near; [done..|]. unfold stands_for in Hn. lra.
Qed.

Lemma zero_stands scale : stands_for scale 0 0.
Proof. unfold stands_for. apply Qabs_Qle_condition. change (inject_Z 0) with 0%Q. split; lra. Qed.

(** What is left of a quantity, through doubles. *)
Lemma max0_sub_exact scale dq dz q z :
  0 < scale -> 0 <= q <= kExactRange -> 0 <= z <= kExactRange ->
  stands_for scale dq q -> stands_for scale dz z ->
  from_double scale (max0_sub dq dz) = Z.max 0 (q - z).
Proof.
  intros Hs Hq Hz Nq Nz. unfold stands_for in *. apply Qabs_Qle_condition in Nq, Nz.
  assert (Hscale : (0 < inject_Z scale)%Q) by (unfold Qlt, inject_Z; simpl; lia).
  assert (Ed : (inject_Z (q - z) == inject_Z q - inject_Z z)%Q)
    by (unfold Z.sub, Qminus; by rewrite inject_Z_plus, inject_Z_opp).
  pose proof (range_q (q - z) ltac:(lia)) as Hr. apply Qabs_Qle_condition in Hr.
  pose proof (rnd_err (dq - dz)) as He. set (x := (dq - dz)%Q) in *. set (d := rnd x) in *.
  assert (Hx : (Qabs (x * inject_Z scale - inject_Z (q - z)) <= 1 # 8)%Q).
  { apply Qabs_Qle_condition. unfold x. split; nra. }
  assert (Hxs : (Qabs x * inject_Z scale <= 140737488355329)%Q).
  { rewrite <-(Qabs_pos (inject_Z scale)) at 1 by lra. rewrite <-Qabs_Qmult.
    apply Qabs_Qle_condition. apply Qabs_Qle_condition in Hx. split; lra. }
  assert (Hd : (Qabs (d * inject_Z scale - inject_Z (q - z)) <= 1 # 4)%Q).
  { assert (E : (d * inject_Z scale - inject_Z (q - z) ==
      (d - x) * inject_Z scale + (x * inject_Z scale - inject_Z (q - z)))%Q) by ring.
    rewrite E. eapply Qle_trans; [apply Qabs_triangle|].
    rewrite Qabs_Qmult, (Qabs_pos (inject_Z scale)) by lra. unfold ulp in He. nra. }
  unfold max0_sub. fold x d. destruct (Qle_bool d 0) eqn:E.
  - apply Qle_bool_iff in E. apply Qabs_Qle_condition in Hd.
    assert (q - z <= 0). { apply Z.nlt_ge. intros Hlt.
      assert (1 <= inject_Z (q - z))%Q by (unfold Qle, inject_Z; simpl; lia). nra. }
    rewrite Z.max_l by lia. apply from_double_stands; [done | done | apply zero_stands].
  - assert (Hpos : (0 < d)%Q). { apply Qnot_le_lt. intros Hc. apply Qle_bool_iff in Hc. congruence. }
    assert (0 <= q - z). { apply Z.nlt_ge. intros Hlt. apply Qabs_Qle_condition in Hd.
      assert (inject_Z (q - z) <= -1)%Q by (unfold Qle, inject_Z; simpl; lia). nra. }
    rewrite Z.max_r by lia. apply from_double_near; [done | lia | done].
Qed.

(** A price or quantity up to 2^47 in absolute value survives the way
    through doubles: [from_double] of [to_double] is the value, for every scale,
    although both round. *)
Theorem double_roundtrip scale v :
  0 < scale -> Z.abs v <= kExactRange -> from_double scale (to_double scale v) = v.
Proof. intros Hs Hv. apply from_double_stands; [done..|]. by apply to_double_near. Qed.

Lemma double_roundtrip_witness : from_double 1000000 (to_double 1000000 (-2134567)) = -2134567.
Proof. apply double_roundtrip; vm_compute; done. Defined.

(** ** Configured values

    [static_cast<int64_t>(INI_CONFIG.get_double(...) * Scale)]: the double of a
    decimal text is its value, rounded once. *)
Definition cast_scaled (scale : Z) (val : Q) : Z := trunc (rnd (val * inject_Z scale)%Q).

(** The product of a rounded decimal and the scale is truncated, so that [v]
    units come out as [v] or as one unit less. *)
Lemma cast_scaled_near scale v q :
  0 < scale -> 0 < v <= kExactRange -> (q * inject_Z scale == inject_Z v)%Q ->
  cast_scaled scale (rnd q) = v \/ cast_scaled scale (rnd q) = v - 1.
Proof.
  intros Hs Hv Hc. unfold cast_scaled. pose proof (rnd_err q) as He.
  assert (Hscale : (0 < inject_Z scale)%Q) by (unfold Qlt, inject_Z; simpl; lia).
  assert (Hq : (Qabs q * inject_Z scale == Qabs (inject_Z v))%Q).
  { rewrite <-(Qabs_pos (inject_Z scale)) at 1 by lra. rewrite <-Qabs_Qmult. by rewrite Hc. }
  pose proof (range_q v ltac:(lia)) as Hr. set (y := (rnd q * inject_Z scale)%Q).
  assert (Hy : (Qabs (y - inject_Z v) <= 1 # 4)%Q).
  { assert (E : (y - inject_Z v == (rnd q - q) * inject_Z scale)%Q) by (unfold y; rewrite <-Hc; ring).
    rewrite E, Qabs_Qmult, (Qabs_pos (inject_Z scale)) by lra. unfold ulp in He. nra. }
  apply Qabs_Qle_condition in Hy, Hr.
  destruct (rnd_bounds y 140737488355329) as [Ha Hb]; [apply Qabs_Qle_condition; split; lra|]. unfold ulp in *.
  destruct (Qlt_le_dec (rnd y) (inject_Z v)) as [Hlt|Hge].
  - right. apply trunc_between; [lia | | by replace (v - 1 + 1) with v by lia].
    assert (E : (inject_Z (v - 1) == inject_Z v - 1)%Q) by (unfold Z.sub; by rewrite inject_Z_plus). rewrite E. lra.
  - left. apply trunc_between; [lia | done|]. rewrite inject_Z_plus. change (inject_Z 1) with 1%Q. lra.
Qed.

(** A configured decimal of [v] units of the scale is read as [v] or as one
    unit less, since the product is truncated and not rounded. *)
Theorem configured_value_truncated scale v :
  0 < scale -> 0 < v <= kExactRange ->
  let raw := cast_scaled scale (rnd (inject_Z v / inject_Z scale)) in
  raw = v \/ raw = v - 1.
Proof. intros Hs Hv. apply cast_scaled_near; [done | done | by apply scale_cancel]. Qed.

(** 0.0003 at the scale 10000 of the signals is 2. *)
Lemma configured_value_truncated_witness :
  let raw := cast_scaled 10000 (rnd (inject_Z 3 / inject_Z 10000)) in
  (raw = 3 \/ raw = 3 - 1) /\ raw = 2.
Proof.
  split; [|vm_compute; reflexivity]. apply (configured_value_truncated 10000 3); [lia|].
  unfold kExactRange. lia.
Defined.

(** ** Rounding is monotone *)

Lemma nearest_even_mono n1 d1 n2 d2 :
  0 < d1 -> 0 < d2 -> n1 * d2 <= n2 * d1 -> nearest_even n1 d1 <= nearest_even n2 d2.
Proof.
  intros H1 H2 Hle. pose proof (nearest_even_err n1 d1 H1) as E1. pose proof (nearest_even_err n2 d2 H2) as E2.
  destruct (Z_lt_le_dec (nearest_even n2 d2) (nearest_even n1 d1)) as [Hlt|]; [|done]. exfalso.
  set (m := nearest_even n2 d2) in *. set (m1 := nearest_even n1 d1) in *.
  assert (L1 : (2 * m1 - 1) * d1 <= 2 * n1) by lia. assert (L2 : 2 * n2 <= (2 * m + 1) * d2) by lia.
  assert (T1 : 2 * n1 = (2 * m + 1) * d1) by nia. assert (T2 : 2 * n2 = (2 * m + 1) * d2) by nia.
  assert (Htie : forall n d, 0 < d -> 2 * n = (2 * m + 1) * d -> nearest_even n d = if Z.even m then m else m + 1).
  { intros n d Hd Ht. unfold nearest_even.
    assert (Hdm : n / d = m /\ 2 * (n mod d) = d).
    { pose proof (Z.div_mod n d ltac:(lia)). pose proof (Z.mod_pos_bound n d Hd). assert (n / d = m) by nia. split; nia. }
    destruct Hdm as [-> ->]. rewrite Z.ltb_irrefl. done. }
  pose proof (Htie n1 d1 H1 T1) as R1. pose proof (Htie n2 d2 H2 T2) as R2. fold m in R2. fold m1 in R1. lia.
Qed.

Lemma unscale_succ s : (unscale 1 s == 2 * unscale 1 (s + 1))%Q.
Proof.
  unfold unscale. destruct (Z.leb_spec 0 s), (Z.leb_spec 0 (s + 1)); try lia.
  - pose proof (Z.pow_pos_nonneg 2 s ltac:(lia) ltac:(lia)). unfold Qeq. cbn [Qnum Qden Qmult].
    rewrite Z.pow_add_r, Pos2Z.inj_mul, !Z2Pos.id by lia. lia.
  - assert (s = -1) as -> by lia. done.
  - replace (- s) with (- (s + 1) + 1) by lia. rewrite Z.pow_add_r by lia. unfold Qeq. cbn [Qnum Qden Qmult inject_Z]. lia.
Qed.

Lemma unscale_antitone s k : 0 <= k -> (2 * unscale 1 (s + 1 + k) <= unscale 1 s)%Q.
Proof.
  intros Hk. revert k Hk. apply natlike_ind.
  - rewrite Z.add_0_r, (unscale_succ s). lra.
  - intros k Hk IH. pose proof (unscale_succ (s + 1 + k)) as E. pose proof (unscale_pos (s + 1 + Z.succ k)).
    replace (s + 1 + k + 1) with (s + 1 + Z.succ k) in E by lia. lra.
Qed.

Lemma shift_upper a d : 0 < a -> 0 < d -> scale_num a (shift_of a d) < 2 ^ 53 * scale_den d (shift_of a d).
Proof.
  intros Ha Hd. unfold shift_of. set (s := 52 - _). destruct (Z.leb_spec (2 ^ 52 * scale_den d s) (scale_num a s)) as [_|Hlt].
  - pose proof (Z.log2_spec a Ha) as [La Ua]. pose proof (Z.log2_spec d Hd) as [Ld Ud].
    pose proof (Z.log2_nonneg a). pose proof (Z.log2_nonneg d). rewrite Z.pow_succ_r in Ua by lia.
    unfold scale_num, scale_den, s. set (la := Z.log2 a) in *. set (ld := Z.log2 d) in *.
    destruct (Z.leb_spec 0 (52 - (la - ld))).
    + assert (E : 2 ^ la * 2 ^ (52 - (la - ld)) = 2 ^ 52 * 2 ^ ld) by (rewrite <-!Z.pow_add_r by lia; f_equal; lia).
      assert (0 < 2 ^ (52 - (la - ld))) by (apply Z.pow_pos_nonneg; lia).
      change (2 ^ 53) with (2 * 2 ^ 52). nia.
    + assert (E : 2 ^ ld * 2 ^ (- (52 - (la - ld))) * 2 ^ 52 = 2 ^ la) by (rewrite <-!Z.pow_add_r by lia; f_equal; lia).
      assert (0 < 2 ^ (- (52 - (la - ld)))) by (apply Z.pow_pos_nonneg; lia).
      change (2 ^ 53) with (2 * 2 ^ 52). nia.
  - pose proof (scale_succ a d s Hd ltac:(lia)) as Hs.
    pose proof (scale_den_pos d s Hd). pose proof (scale_den_pos d (s + 1) Hd).
    change (2 ^ 53) with (2 * 2 ^ 52). nia.
Qed.

(** The rounded significand, with its bounds. *)
Lemma significand_bounds a d :
  0 < a -> 0 < d ->
  2 ^ 52 <= nearest_even (scale_num a (shift_of a d)) (scale_den d (shift_of a d)) <= 2 ^ 53.
Proof.
  intros Ha Hd. pose proof (shift_normal a d Ha Hd). pose proof (shift_upper a d Ha Hd).
  pose proof (scale_den_pos d (shift_of a d) Hd) as Hp.
  pose proof (nearest_even_mono (2 ^ 52) 1 _ _ ltac:(lia) Hp ltac:(rewrite Z.mul_1_r; eassumption)) as L.
  pose proof (nearest_even_mono (scale_num a (shift_of a d)) _ (2 ^ 53) 1 Hp ltac:(lia) ltac:(lia)) as U.
  by change (nearest_even (2 ^ 52) 1) with (2 ^ 52) in L; change (nearest_even (2 ^ 53) 1) with (2 ^ 53) in U.
Qed.

Lemma rnd_pos_eq a d :
  0 < a -> 0 < d -> exists m, (rnd_pos a d == inject_Z m * unscale 1 (shift_of a d))%Q /\ 2 ^ 52 <= m <= 2 ^ 53.
Proof. intros Ha Hd. eexists. split; [apply unscale_mul | by apply significand_bounds]. Qed.

(** The binade of a fraction. *)
Lemma binade a d :
  0 < a -> 0 < d -> let u := unscale 1 (shift_of a d) in
  (inject_Z (2 ^ 52) * u <= inject_Z a / inject_Z d)%Q /\ (inject_Z a / inject_Z d < inject_Z (2 ^ 53) * u)%Q.
Proof.
  intros Ha Hd u. pose proof (shift_normal a d Ha Hd) as L. pose proof (shift_upper a d Ha Hd) as U.
  rewrite <-(scale_back a d (shift_of a d) Hd). pose proof (scale_den_pos d (shift_of a d) Hd) as Hp. fold u.
  set (num := scale_num a _) in *. set (den := scale_den d _) in *. pose proof (unscale_pos (shift_of a d)) as Hu. fold u in Hu.
  assert (Hd' : (0 < inject_Z den)%Q) by (unfold Qlt, inject_Z; simpl; lia).
  rewrite Zle_Qle, inject_Z_mult in L. rewrite Zlt_Qlt, inject_Z_mult in U.
  assert (inject_Z (2 ^ 52) <= inject_Z num / inject_Z den)%Q by (by apply Qle_shift_div_l).
  assert (inject_Z num / inject_Z den < inject_Z (2 ^ 53))%Q by (by apply Qlt_shift_div_r).
  split; [by apply Qmult_le_compat_r; [|lra] | by apply Qmult_lt_compat_r].
Qed.

Lemma scale_le a1 d1 a2 d2 s :
  0 < d1 -> 0 < d2 -> a1 * d2 <= a2 * d1 -> scale_num a1 s * scale_den d2 s <= scale_num a2 s * scale_den d1 s.
Proof.
  intros H1 H2 Hle. unfold scale_num, scale_den. destruct (Z.leb_spec 0 s).
  - pose proof (Z.pow_pos_nonneg 2 s ltac:(lia) ltac:(lia)). nia.
  - pose proof (Z.pow_pos_nonneg 2 (- s) ltac:(lia) ltac:(lia)). nia.
Qed.

Lemma frac_le a1 d1 a2 d2 :
  0 < d1 -> 0 < d2 -> a1 * d2 <= a2 * d1 -> (inject_Z a1 / inject_Z d1 <= inject_Z a2 / inject_Z d2)%Q.
Proof.
  intros H1 H2 Hle. destruct d1 as [|p1|], d2 as [|p2|]; try lia. rewrite !inject_frac. unfold Qle. simpl. lia.
Qed.

Lemma rnd_pos_mono a1 d1 a2 d2 :
  0 < a1 -> 0 < a2 -> 0 < d1 -> 0 < d2 -> a1 * d2 <= a2 * d1 -> (rnd_pos a1 d1 <= rnd_pos a2 d2)%Q.
Proof.
  intros Ha1 Ha2 Hd1 Hd2 Hle.
  pose proof (binade a1 d1 Ha1 Hd1) as [L1 U1]. pose proof (binade a2 d2 Ha2 Hd2) as [L2 U2].
  pose proof (frac_le a1 d1 a2 d2 Hd1 Hd2 Hle) as Hq.
  destruct (Z.lt_trichotomy (shift_of a1 d1) (shift_of a2 d2)) as [Hs|[Hs|Hs]].
  - exfalso. pose proof (unscale_antitone (shift_of a1 d1) (shift_of a2 d2 - shift_of a1 d1 - 1) ltac:(lia)) as Hu.
    replace (shift_of a1 d1 + 1 + (shift_of a2 d2 - shift_of a1 d1 - 1)) with (shift_of a2 d2) in Hu by lia.
    change (inject_Z (2 ^ 53)) with 9007199254740992%Q in *. change (inject_Z (2 ^ 52)) with 4503599627370496%Q in *. lra.
  - unfold rnd_pos. rewrite Hs, (unscale_mul (nearest_even _ _)), (unscale_mul (nearest_even (scale_num a2 _) _)).
    apply Qmult_le_compat_r; [|apply Qlt_le_weak, unscale_pos]. rewrite <-Zle_Qle.
    apply nearest_even_mono; [by apply scale_den_pos.. | by apply scale_le].
  - destruct (rnd_pos_eq a1 d1 Ha1 Hd1) as (m1 & -> & _ & Hm1). destruct (rnd_pos_eq a2 d2 Ha2 Hd2) as (m2 & -> & Hm2 & _).
    pose proof (unscale_antitone (shift_of a2 d2) (shift_of a1 d1 - shift_of a2 d2 - 1) ltac:(lia)) as Hu.
    replace (shift_of a2 d2 + 1 + (shift_of a1 d1 - shift_of a2 d2 - 1)) with (shift_of a1 d1) in Hu by lia.
    rewrite Zle_Qle in Hm1, Hm2. pose proof (unscale_pos (shift_of a1 d1)). pose proof (unscale_pos (shift_of a2 d2)).
    apply (Qle_trans _ (inject_Z (2 ^ 53) * unscale 1 (shift_of a1 d1))); [apply Qmult_le_compat_r; [done|lra]|].
    apply (Qle_trans _ (inject_Z (2 ^ 52) * unscale 1 (shift_of a2 d2))); [|apply Qmult_le_compat_r; [done|lra]].
    change (inject_Z (2 ^ 53)) with 9007199254740992%Q. change (inject_Z (2 ^ 52)) with 4503599627370496%Q. lra.
Qed.

Lemma rnd_pos_nonneg a d : 0 < a -> 0 < d -> (0 <= rnd_pos a d)%Q.
Proof.
  intros Ha Hd. destruct (rnd_pos_eq a d Ha Hd) as (m & -> & Hm & _). pose proof (unscale_pos (shift_of a d)).
  rewrite Zle_Qle in Hm. change (inject_Z (2 ^ 52)) with 4503599627370496%Q in Hm. apply Qmult_le_0_compat; lra.
Qed.

Lemma rnd_mono q1 q2 : (q1 <= q2)%Q -> (rnd q1 <= rnd q2)%Q.
Proof.
  destruct q1 as [n1 d1], q2 as [n2 d2]. unfold Qle at 1. simpl. intros Hle. unfold rnd. simpl Qnum. simpl Qden.
  destruct (Z.eqb_spec n1 0) as [->|], (Z.eqb_spec n2 0) as [->|]; try done.
  - rewrite (proj2 (Z.ltb_lt 0 n2)) by nia. apply rnd_pos_nonneg; nia.
  - destruct (Z.ltb_spec 0 n1); [nia|]. pose proof (rnd_pos_nonneg (- n1) (Zpos d1) ltac:(lia) ltac:(lia)). lra.
  - destruct (Z.ltb_spec 0 n1), (Z.ltb_spec 0 n2); try nia.
    + apply rnd_pos_mono; lia.
    + pose proof (rnd_pos_nonneg (- n1) (Zpos d1) ltac:(lia) ltac:(lia)). pose proof (rnd_pos_nonneg n2 (Zpos d2) ltac:(lia) ltac:(lia)). lra.
    + apply Qopp_le_compat, rnd_pos_mono; lia.
Qed.

(** Rounding depends on the value of a fraction only. *)
#[export] Instance rnd_proper : Proper (Qeq ==> Qeq) rnd.
Proof. intros q1 q2 E. apply Qle_antisym; apply rnd_mono; rewrite E; apply Qle_refl. Qed.

Lemma trunc_mono q1 q2 : (q1 <= q2)%Q -> trunc q1 <= trunc q2.
Proof.
  destruct q1 as [n1 d1], q2 as [n2 d2]. unfold Qle, trunc. simpl. intros Hle.
  rewrite <-(Z.quot_mul_cancel_r n1 (Zpos d1) (Zpos d2)), <-(Z.quot_mul_cancel_r n2 (Zpos d2) (Zpos d1)) by lia.
  replace (Zpos d2 * Zpos d1) with (Zpos d1 * Zpos d2) by lia. apply Z.quot_le_mono; lia.
Qed.

#[export] Instance trunc_proper : Proper (Qeq ==> eq) trunc.
Proof. intros q1 q2 E. apply Z.le_antisymm; apply trunc_mono; rewrite E; apply Qle_refl. Qed.

Lemma rnd_nonneg q : (0 <= q)%Q -> (0 <= rnd q)%Q.
Proof. intros H. apply (rnd_mono 0 q H). Qed.

Lemma trunc_floor q : (0 <= q)%Q -> 0 <= trunc q /\ (inject_Z (trunc q) <= q)%Q /\ (q < inject_Z (trunc q) + 1)%Q.
Proof.
  destruct q as [n d]. unfold trunc, Qle, Qlt, inject_Z, Qplus. cbn [Qnum Qden]. intros H.
  rewrite Z.quot_div_nonneg by lia. pose proof (Z.div_mod n (Zpos d) ltac:(lia)). pose proof (Z.mod_pos_bound n (Zpos d) ltac:(lia)).
  pose proof (Z.div_pos n (Zpos d) ltac:(lia) ltac:(lia)). split; [done|]. split; lia.
Qed.

#[export] Instance from_double_proper scale : Proper (Qeq ==> eq) (from_double scale).
Proof.
  intros a b E. unfold from_double.
  assert (Hs : Qle_bool 0 a = Qle_bool 0 b) by (apply eq_bool_prop_intro; rewrite !Is_true_true, !Qle_bool_iff, E; done).
  rewrite Hs. apply trunc_proper. by rewrite E.
Qed.

#[export] Instance cast_scaled_proper scale : Proper (Qeq ==> eq) (cast_scaled scale).
Proof. intros a b E. unfold cast_scaled. apply trunc_proper. by rewrite E. Qed.

End Binary64.
