(* ===== verification/BitScan.v ===== *)
(** * Bitmap search (src/hft/src/order_book.hpp)

    The order book keeps its active levels in bitmaps of 64-bit words and
    walks them with the policies [SearchHighest] (bids) and [SearchLowest]
    (asks).  This file holds the word primitives, the two policies as
    instances of one class with its laws, the word scanner, and the search
    over a list of words, each proved to find the nearest (or the extreme)
    set bit in the policy's direction. *)

From S2P Require Import Prelude.

Definition kBitsPerWord : Z := 64.
Definition kWordShift : Z := 6.
Definition kWordMask : Z := kBitsPerWord - 1.

(** ** Word primitives *)

(** [std::countl_zero] and [std::countr_zero] on [uint64_t]. *)
Definition countl_zero (word : Z) : Z :=
  if word =? 0 then 64 else 63 - Z.log2 word.

Fixpoint pos_ctz (p : positive) : Z :=
  match p with
  | xO q => 1 + pos_ctz q
  | _ => 0
  end.

Definition countr_zero (word : Z) : Z :=
  match word with
  | Zpos p => pos_ctz p
  | _ => 64
  end.

(** [~x] on [uint64_t]. *)
Definition not64 (x : Z) : Z := uint64_max - x.

#[global] Arguments not64 _ : simpl never.

(** ** The search policies *)

Class SearchDir := {
  kIsHighest : bool;
  find_bit : Z -> Z;
  make_mask : Z -> Z;
  (** the indices [iterate_words(start, end, .)] visits, in order *)
  iterate_words : Z -> Z -> list Z;
  iterate_summary : Z -> Z -> list Z;
}.

(** [start - 1, start - 2, ..., end] and [start + 1, ..., end - 1]. *)
Definition down_to (start stop : Z) : list Z := reverse (seqZ stop (start - stop)).
Definition up_to (start stop : Z) : list Z := seqZ (start + 1) (stop - (start + 1)).

Definition SearchHighest : SearchDir := {|
  kIsHighest := true;
  find_bit := fun word => kWordMask - countl_zero word;
  make_mask := fun bit_offset =>
    if bit_offset =? 0 then 0 else Z.shiftl 1 bit_offset - 1;
  iterate_words := fun start stop => down_to start stop;
  iterate_summary := fun start _ => down_to start 0;
|}.

Definition SearchLowest : SearchDir := {|
  kIsHighest := false;
  find_bit := fun word => countr_zero word;
  make_mask := fun bit_offset =>
    if bit_offset =? kWordMask then 0 else not64 (Z.shiftl 1 (bit_offset + 1) - 1);
  iterate_words := fun start stop => up_to start stop;
  iterate_summary := fun start stop => up_to start stop;
|}.

(** The direction of a side: bids walk down, asks walk up. *)
Definition side_dir (is_bid : bool) : SearchDir :=
  if is_bid then SearchHighest else SearchLowest.

(** [j] lies strictly beyond [i] in the walking direction. *)
Definition beyond (D : SearchDir) (i j : Z) : Prop :=
  if kIsHighest then j < i else i < j.

(** [r] is the nearest index beyond [i] that satisfies [P]; [r] is the extreme
    index that satisfies [P] (nothing that satisfies [P] comes before it). *)
Definition nearest (D : SearchDir) (P : Z -> Prop) (i r : Z) : Prop :=
  beyond D i r /\ P r /\ forall j, P j -> beyond D i j -> j = r \/ beyond D r j.
Definition extreme (D : SearchDir) (P : Z -> Prop) (r : Z) : Prop :=
  P r /\ forall j, P j -> j = r \/ beyond D r j.

(** ** Laws of a policy *)

Class SearchDirLaws (D : SearchDir) := {
  find_bit_spec word : 0 < word < two64 ->
    0 <= find_bit word < 64 /\
    extreme D (fun b => Z.testbit word b = true) (find_bit word);
  make_mask_spec b j : 0 <= b < 64 -> 0 <= j < 64 ->
    (Z.testbit (make_mask b) j = true <-> beyond D b j);
  make_mask_range b : 0 <= b < 64 -> 0 <= make_mask b < two64;
  (** with [n] words, [iterate_words] visits exactly the words beyond [i] *)
  iterate_words_spec i n j : 0 <= i < n ->
    (j ∈ iterate_words i (if kIsHighest then 0 else n) <-> 0 <= j < n /\ beyond D i j);
  iterate_summary_spec i n j : 0 <= i < n ->
    (j ∈ iterate_summary i n <-> 0 <= j < n /\ beyond D i j);
  iterate_words_sorted i n l1 j l2 :
    iterate_words i (if kIsHighest then 0 else n) = l1 ++ j :: l2 ->
    forall k, k ∈ l2 -> beyond D j k;
  iterate_summary_sorted i n l1 j l2 :
    iterate_summary i n = l1 ++ j :: l2 -> forall k, k ∈ l2 -> beyond D j k;
}.

Lemma testbit_63 word b : 0 <= word < two64 -> Z.testbit word b = true -> 0 <= b < 64.
Proof.
  intros Hw Hb. split.
  - destruct (Z.ltb_spec b 0); [|done]. by rewrite Z.testbit_neg_r in Hb.
  - destruct (Z.ltb_spec b 64); [done|].
    destruct (decide (word = 0)) as [->|]; [by rewrite Z.testbit_0_l in Hb|].
    rewrite Z.bits_above_log2 in Hb; [done | lia |].
    assert (Z.log2 word < 64); [|lia].
    apply Z.log2_lt_pow2; [lia|]. change (2 ^ 64) with two64. lia.
Qed.

Lemma pos_ctz_nonneg p : 0 <= pos_ctz p.
Proof. induction p; simpl; lia. Qed.

Lemma pos_ctz_spec p :
  Z.testbit (Zpos p) (pos_ctz p) = true /\
  forall j, Z.testbit (Zpos p) j = true -> j = pos_ctz p \/ pos_ctz p < j.
Proof.
  induction p as [p _|p [IH1 IH2]|]; simpl.
  - split; [done|]. intros j Hj.
    destruct (Z.ltb_spec j 0); [by rewrite Z.testbit_neg_r in Hj | lia].
  - pose proof (pos_ctz_nonneg p).
    replace (Zpos p~0) with (2 * Zpos p) by lia. split.
    + replace (1 + pos_ctz p) with (Z.succ (pos_ctz p)) by lia.
      by rewrite Z.testbit_even_succ.
    + intros j Hj. destruct (Z.ltb_spec j 0); [by rewrite Z.testbit_neg_r in Hj|].
      destruct (decide (j = 0)) as [->|].
      { by rewrite Z.testbit_even_0 in Hj. }
      replace j with (Z.succ (j - 1)) in Hj by lia.
      rewrite Z.testbit_even_succ in Hj by lia. apply IH2 in Hj. lia.
  - split; [done|]. intros j Hj.
    destruct (Z.ltb_spec j 0); [by rewrite Z.testbit_neg_r in Hj | lia].
Qed.

Lemma testbit_ones_low b j :
  0 <= b -> 0 <= j -> Z.testbit (Z.shiftl 1 b - 1) j = (j <? b).
Proof.
  intros Hb Hj. rewrite Z.shiftl_1_l.
  replace (2 ^ b - 1) with (Z.ones b) by (rewrite Z.ones_equiv; lia).
  destruct (Z.ltb_spec j b); [by apply Z.ones_spec_low | by apply Z.ones_spec_high].
Qed.

Lemma testbit_not64 x j :
  0 <= x < two64 -> 0 <= j < 64 -> Z.testbit (not64 x) j = negb (Z.testbit x j).
Proof.
  intros Hx Hj. unfold not64.
  replace (uint64_max - x) with ((-1 - x) mod 2 ^ 64).
  - rewrite Z.mod_pow2_bits_low by lia.
    replace (-1 - x) with (Z.lnot x) by (unfold Z.lnot; lia).
    apply Z.lnot_spec. lia.
  - symmetry. apply Z.mod_unique with (-1); unfold two64, uint64_max in *; lia.
Qed.

Lemma elem_of_down_to i n j : j ∈ down_to i n <-> n <= j < i.
Proof. unfold down_to. rewrite elem_of_reverse, elem_of_seqZ. lia. Qed.

Lemma elem_of_up_to i n j : j ∈ up_to i n <-> i < j < n.
Proof. unfold up_to. rewrite elem_of_seqZ. lia. Qed.

Lemma down_to_sorted i n l1 j l2 :
  down_to i n = l1 ++ j :: l2 -> forall k, k ∈ l2 -> k < j.
Proof.
  intros H k [m Hm]%list_elem_of_lookup.
  assert (Hlen : length (down_to i n) = (length l1 + S (length l2))%nat)
    by (rewrite H, length_app; done).
  unfold down_to in Hlen. rewrite length_reverse, length_seqZ in Hlen.
  pose proof (lookup_lt_Some _ _ _ Hm).
  assert (Hj : down_to i n !! length l1 = Some j) by (rewrite H; by apply list_lookup_middle).
  assert (Hk : down_to i n !! (length l1 + S m)%nat = Some k).
  { rewrite H, lookup_app_r by lia.
    replace (length l1 + S m - length l1)%nat with (S m) by lia. done. }
  unfold down_to in Hj, Hk.
  rewrite reverse_lookup in Hj, Hk by (rewrite length_seqZ; lia).
  rewrite length_seqZ in Hj, Hk. apply lookup_seqZ in Hj, Hk. lia.
Qed.

Lemma up_to_sorted i n l1 j l2 :
  up_to i n = l1 ++ j :: l2 -> forall k, k ∈ l2 -> j < k.
Proof.
  intros H k [m Hm]%list_elem_of_lookup.
  assert (Hj : up_to i n !! length l1 = Some j) by (rewrite H; by apply list_lookup_middle).
  assert (Hk : up_to i n !! (length l1 + S m)%nat = Some k).
  { rewrite H, lookup_app_r by lia.
    replace (length l1 + S m - length l1)%nat with (S m) by lia. done. }
  apply lookup_seqZ in Hj, Hk. lia.
Qed.

#[global] Instance SearchHighest_laws : SearchDirLaws SearchHighest.
Proof.
  split; unfold beyond, extreme; simpl.
  - intros word Hw. unfold countl_zero. destruct (Z.eqb_spec word 0); [lia|].
    assert (Z.log2 word < 64) by (apply Z.log2_lt_pow2; [lia|]; change (2 ^ 64) with two64; lia).
    pose proof (Z.log2_nonneg word). unfold kWordMask, kBitsPerWord.
    replace (64 - 1 - (63 - Z.log2 word)) with (Z.log2 word) by lia.
    split_and!; [lia | lia | apply Z.bit_log2; lia |].
    intros j Hj. destruct (Z.ltb_spec (Z.log2 word) j); [|unfold beyond; simpl; lia].
    rewrite Z.bits_above_log2 in Hj; [done | lia | lia].
  - intros b j Hb Hj. unfold beyond; simpl. destruct (Z.eqb_spec b 0) as [->|].
    + rewrite Z.testbit_0_l. split; [done | lia].
    + rewrite testbit_ones_low by lia. rewrite Z.ltb_lt. done.
  - intros b Hb. destruct (Z.eqb_spec b 0); [done|]. rewrite Z.shiftl_1_l.
    assert (2 ^ b <= 2 ^ 63) by (apply Z.pow_le_mono_r; lia).
    assert (0 < 2 ^ b) by (apply Z.pow_pos_nonneg; lia).
    change (2 ^ 63) with two63 in *. unfold two64, two63 in *. lia.
  - intros i n j Hi. rewrite elem_of_down_to. unfold beyond; simpl. lia.
  - intros i n j Hi. rewrite elem_of_down_to. unfold beyond; simpl. lia.
  - intros i n l1 j l2 H k Hk. by eapply down_to_sorted.
  - intros i n l1 j l2 H k Hk. by eapply down_to_sorted.
Qed.

#[global] Instance SearchLowest_laws : SearchDirLaws SearchLowest.
Proof.
  split; unfold beyond, extreme; simpl.
  - intros [|p|p] Hw; [lia | | lia]. simpl.
    pose proof (pos_ctz_spec p) as [H1 H2].
    assert (0 <= pos_ctz p < 64) by (apply (testbit_63 (Zpos p)); [lia | done]).
    split_and!; [lia | lia | done |].
    intros j Hj. unfold beyond; simpl. by apply H2.
  - intros b j Hb Hj. unfold beyond, kWordMask, kBitsPerWord; simpl.
    destruct (Z.eqb_spec b (64 - 1)) as [->|].
    + rewrite Z.testbit_0_l. split; [done | lia].
    + rewrite testbit_not64; [| |lia].
      * rewrite testbit_ones_low by lia.
        destruct (Z.ltb_spec j (b + 1)); simpl; split; intros; done || lia.
      * rewrite Z.shiftl_1_l.
        assert (2 ^ (b + 1) <= 2 ^ 63) by (apply Z.pow_le_mono_r; lia).
        assert (0 < 2 ^ (b + 1)) by (apply Z.pow_pos_nonneg; lia).
        change (2 ^ 63) with two63 in *. unfold two64, two63 in *. lia.
  - intros b Hb. unfold kWordMask, kBitsPerWord.
    destruct (Z.eqb_spec b (64 - 1)); [done|]. rewrite Z.shiftl_1_l. unfold not64.
    assert (2 ^ (b + 1) <= 2 ^ 63) by (apply Z.pow_le_mono_r; lia).
    assert (0 < 2 ^ (b + 1)) by (apply Z.pow_pos_nonneg; lia).
    change (2 ^ 63) with two63 in *. unfold two64, two63, uint64_max in *. lia.
  - intros i n j Hi. rewrite elem_of_up_to. unfold beyond; simpl. lia.
  - intros i n j Hi. rewrite elem_of_up_to. unfold beyond; simpl. lia.
  - intros i n l1 j l2 H k Hk. by eapply up_to_sorted.
  - intros i n l1 j l2 H k Hk. by eapply up_to_sorted.
Qed.

#[global] Instance side_dir_laws is_bid : SearchDirLaws (side_dir is_bid).
Proof. destruct is_bid; apply _. Qed.

(** ** Search over the words of a bitmap *)

(** Bit [i] of a bitmap kept as a list of words. *)
Definition bit (bitmap : list Z) (i : Z) : Prop :=
  0 <= i /\ Z.testbit (zget bitmap (i / 64)) (i mod 64) = true.

Definition wf_bitmap (bitmap : list Z) : Prop :=
  Forall (fun w => 0 <= w < two64) bitmap.

Section search.
Context (D : SearchDir).

(** The body of the word loops: the first set bit of word [word_idx]. *)
Definition word_hit (bitmap : list Z) (word_idx : Z) : option Z :=
  let word := zget bitmap word_idx in
  if word =? 0 then None
  else Some (word_idx * kBitsPerWord + find_bit word).

(** The masked word that holds the start, then the words [order]. *)
Definition search_from (bitmap : list Z) (start : Z) (order : list Z) : option Z :=
  let word_index := Z.shiftr start kWordShift in
  let bit_offset := Z.land start kWordMask in
  let word := Z.land (zget bitmap word_index) (make_mask bit_offset) in
  if word =? 0 then first_some (word_hit bitmap) order
  else Some (word_index * kBitsPerWord + find_bit word).
End search.

Lemma shiftr_6 x : Z.shiftr x kWordShift = x / 64.
Proof. unfold kWordShift. by rewrite Z.shiftr_div_pow2. Qed.

Lemma land_63 x : Z.land x kWordMask = x mod 64.
Proof.
  unfold kWordMask, kBitsPerWord. change (64 - 1) with (Z.ones 6).
  by rewrite Z.land_ones.
Qed.

Lemma div64_range x n : 0 <= x < 64 * n -> 0 <= x / 64 < n.
Proof. intros. zdiv. Qed.

Lemma bit_range bitmap i : wf_bitmap bitmap -> bit bitmap i -> 0 <= i < 64 * zlen bitmap.
Proof.
  intros Hwf [Hi Hb]. split; [done|].
  destruct (Z.ltb_spec (i / 64) (zlen bitmap)); [zdiv|].
  rewrite zget_out in Hb by lia. by rewrite Z.testbit_0_l in Hb.
Qed.

Lemma wf_bitmap_word bitmap i : wf_bitmap bitmap -> 0 <= zget bitmap i < two64.
Proof.
  intros Hwf. destruct (decide (0 <= i < zlen bitmap)) as [Hi|Hi].
  - unfold wf_bitmap in Hwf. rewrite Forall_forall in Hwf. by apply Hwf, zget_elem.
  - rewrite zget_out by done. done.
Qed.

(** Walking directions and the split of an index into quotient and remainder. *)
Lemma beyond_split D B i j :
  0 < B ->
  (beyond D i j <->
   beyond D (i / B) (j / B) \/ i / B = j / B /\ beyond D (i mod B) (j mod B)).
Proof.
  intros HB. unfold beyond.
  pose proof (Z.div_mod i B ltac:(lia)). pose proof (Z.div_mod j B ltac:(lia)).
  pose proof (Z.mod_pos_bound i B HB). pose proof (Z.mod_pos_bound j B HB).
  assert (Hlt : forall a b, a / B < b / B -> a < b).
  { intros a b Hab. destruct (Z.ltb_spec a b); [done|].
    pose proof (Z.div_le_mono b a B HB ltac:(lia)). lia. }
  destruct kIsHighest; split; intros Hij.
  - pose proof (Z.div_le_mono j i B HB ltac:(lia)).
    destruct (decide (i / B = j / B)) as [e|]; [right|left; lia].
    assert (B * (i / B) = B * (j / B)) by congruence. lia.
  - destruct Hij as [?%Hlt | [e ?]]; [done|].
    assert (B * (i / B) = B * (j / B)) by congruence. lia.
  - pose proof (Z.div_le_mono i j B HB ltac:(lia)).
    destruct (decide (i / B = j / B)) as [e|]; [right|left; lia].
    assert (B * (i / B) = B * (j / B)) by congruence. lia.
  - destruct Hij as [?%Hlt | [e ?]]; [done|].
    assert (B * (i / B) = B * (j / B)) by congruence. lia.
Qed.

Lemma div_mod_combine B q r : 0 <= r < B -> (q * B + r) / B = q /\ (q * B + r) mod B = r.
Proof.
  intros Hr. split; [symmetry; apply Z.div_unique with r | symmetry; apply Z.mod_unique with q]; lia.
Qed.

Lemma eq_split B i j : 0 < B -> i / B = j / B -> i mod B = j mod B -> i = j.
Proof.
  intros. rewrite (Z.div_mod i B), (Z.div_mod j B) by lia. congruence.
Qed.

(** [order] enumerates the set [P] of indices in the walking direction. *)
Record walks (D : SearchDir) (P : Z -> Prop) (order : list Z) : Prop := {
  walks_elem j : j ∈ order <-> P j;
  walks_sorted l1 j l2 : order = l1 ++ j :: l2 -> forall k, k ∈ l2 -> beyond D j k;
}.

Lemma iterate_words_walks (D : SearchDir) `{!SearchDirLaws D} i n :
  0 <= i < n ->
  walks D (fun j => 0 <= j < n /\ beyond D i j) (iterate_words i (if kIsHighest then 0 else n)).
Proof.
  intros Hi. split; [intros j; by apply iterate_words_spec | apply iterate_words_sorted].
Qed.

Lemma iterate_summary_walks (D : SearchDir) `{!SearchDirLaws D} i n :
  0 <= i < n ->
  walks D (fun j => 0 <= j < n /\ beyond D i j) (iterate_summary i n).
Proof.
  intros Hi. split; [intros j; by apply iterate_summary_spec | apply iterate_summary_sorted].
Qed.

(** All words, in the order the direction visits them: the loops over a whole
    bitmap ([find_in_bucket], [best_bid_idx], [best_ask_idx]). *)
Definition all_words (D : SearchDir) (n : Z) : list Z :=
  if kIsHighest then down_to n 0 else seqZ 0 n.

Lemma all_words_walks (D : SearchDir) n : walks D (fun j => 0 <= j < n) (all_words D n).
Proof.
  unfold all_words, beyond. split.
  - intros j. destruct kIsHighest; [rewrite elem_of_down_to | rewrite elem_of_seqZ]; lia.
  - unfold beyond. destruct kIsHighest; intros l1 j l2 E k Hk; [by eapply down_to_sorted|].
    apply (up_to_sorted (-1) n l1 j l2); [|done]. unfold up_to. rewrite <-E. f_equal; lia.
Qed.

Section search_spec.
Context (D : SearchDir) `{!SearchDirLaws D}.
Context (bitmap : list Z) (Hwf : wf_bitmap bitmap).

Lemma word_hit_Some w r :
  word_hit D bitmap w = Some r -> 0 <= w ->
  r / 64 = w /\ bit bitmap r /\
  forall j, bit bitmap j -> j / 64 = w -> j = r \/ beyond D r j.
Proof using Hwf SearchDirLaws0.
  unfold word_hit. destruct (Z.eqb_spec (zget bitmap w) 0); [done|].
  intros [= <-] Hw0. pose proof (wf_bitmap_word bitmap w Hwf).
  destruct (find_bit_spec (zget bitmap w)) as [Hb [Hbit Hex]]; [lia|].
  destruct (div_mod_combine 64 w (find_bit (zget bitmap w)) Hb) as [Hd Hm].
  unfold kBitsPerWord. split_and!; [done | |].
  - split; [lia|]. by rewrite Hd, Hm.
  - intros j [Hj Hjb] Hjw. rewrite Hjw in Hjb. destruct (Hex _ Hjb) as [He|He].
    + left. apply (eq_split 64); rewrite ?Hd, ?Hm; lia.
    + right. apply (beyond_split D 64); [lia|]. right. rewrite Hd, Hm. done.
Qed.

Lemma word_hit_None w :
  word_hit D bitmap w = None -> forall j, bit bitmap j -> j / 64 <> w.
Proof using Type.
  unfold word_hit. destruct (Z.eqb_spec (zget bitmap w) 0) as [E|]; [|done].
  intros _ j [_ Hj] <-. by rewrite E, Z.testbit_0_l in Hj.
Qed.

(** The word loop finds the first set bit among the words it visits. *)
Lemma words_search P order :
  walks D P order -> (forall w, P w -> 0 <= w) ->
  match first_some (word_hit D bitmap) order with
  | Some r => bit bitmap r /\ P (r / 64) /\
      forall j, bit bitmap j -> P (j / 64) -> j = r \/ beyond D r j
  | None => forall j, bit bitmap j -> ~ P (j / 64)
  end.
Proof using Hwf SearchDirLaws0.
  intros [Helem Hsort] Hpos.
  destruct (first_some _ order) as [r|] eqn:E.
  - apply first_some_Some in E as (l1 & w & l2 & -> & Hw & Hl1).
    assert (HPw : P w) by (apply Helem, elem_of_app; right; left).
    apply word_hit_Some in Hw as (<- & Hr & Hbest); [|by apply Hpos].
    split_and!; [done | done |]. intros j Hj HPj.
    apply Helem in HPj. apply elem_of_app in HPj as [Hin|Hin].
    { exfalso. eapply word_hit_None; eauto. }
    apply elem_of_cons in Hin as [Heq|Hin]; [by apply Hbest|].
    right. apply (beyond_split D 64); [lia|]. left. by eapply Hsort.
  - intros j Hj HPj. apply Helem in HPj.
    rewrite first_some_None in E. eapply word_hit_None; [by apply E | done | done].
Qed.

(** A bit of the masked start word is a bit of the bitmap beyond the start. *)
Lemma masked_bit start j :
  bit bitmap j -> j / 64 = start / 64 ->
  Z.testbit (Z.land (zget bitmap (start / 64)) (make_mask (start mod 64))) (j mod 64) = true
  <-> beyond D start j.
Proof using SearchDirLaws0.
  intros [Hj0 Hj] Hjw. rewrite Hjw in Hj. rewrite Z.land_spec, Hj. simpl.
  assert (0 <= j mod 64 < 64) by (apply Z.mod_pos_bound; lia).
  assert (0 <= start mod 64 < 64) by (apply Z.mod_pos_bound; lia).
  rewrite make_mask_spec by lia. rewrite (beyond_split D 64 start j) by lia.
  rewrite Hjw. unfold beyond. destruct kIsHighest; lia.
Qed.

Lemma masked_range w b :
  0 <= b < 64 -> Z.land (zget bitmap w) (make_mask b) <> 0 ->
  0 < Z.land (zget bitmap w) (make_mask b) < two64.
Proof using Hwf SearchDirLaws0.
  intros Hb Hne. pose proof (wf_bitmap_word bitmap w Hwf) as Hword.
  assert (0 <= Z.land (zget bitmap w) (make_mask b)) by (apply Z.land_nonneg; lia).
  split; [lia|]. change two64 with (2 ^ 64). apply Z.log2_lt_cancel.
  eapply Z.le_lt_trans; [apply Z.log2_land; [lia | apply make_mask_range; lia]|].
  apply Z.min_lt_iff. left. rewrite Z.log2_pow2 by lia.
  destruct (decide (zget bitmap w = 0)) as [->|]; [done|].
  apply Z.log2_lt_pow2; [lia|]. change (2 ^ 64) with two64. lia.
Qed.

(** The start word, when the mask leaves a bit of it. *)
Lemma masked_hit start :
  0 <= start -> Z.land (zget bitmap (start / 64)) (make_mask (start mod 64)) <> 0 ->
  nearest D (bit bitmap) start
    (start / 64 * 64 + find_bit (Z.land (zget bitmap (start / 64)) (make_mask (start mod 64)))).
Proof using Hwf SearchDirLaws0.
  intros Hs Hne. assert (Hmod : 0 <= start mod 64 < 64) by (apply Z.mod_pos_bound; lia).
  destruct (find_bit_spec _ (masked_range _ _ Hmod Hne)) as [Hb [Hbit Hex]].
  set (b := find_bit _) in *. set (w := start / 64) in *.
  assert (0 <= w) by (subst w; apply Z.div_pos; lia).
  destruct (div_mod_combine 64 w b Hb) as [Hd Hm].
  assert (Hr : bit bitmap (w * 64 + b)).
  { split; [lia|]. rewrite Hd, Hm. rewrite Z.land_spec in Hbit.
    by apply andb_true_iff in Hbit as [? _]. }
  split_and!; [|done|].
  - apply (masked_bit start _ Hr Hd). by rewrite Hm.
  - intros j Hj Hsj. pose proof Hsj as Hsj'.
    apply (beyond_split D 64) in Hsj as [Hf|[He Hf]]; [| |lia].
    + right. apply (beyond_split D 64); [lia|]. left. by rewrite Hd.
    + apply (masked_bit start j Hj) in Hsj'; [|done]. destruct (Hex _ Hsj') as [Heq|Heq].
      * left. apply (eq_split 64); rewrite ?Hd, ?Hm; lia.
      * right. apply (beyond_split D 64); [lia|]. right. rewrite Hd, Hm. done.
Qed.

(** The masked start word followed by the remaining words finds the nearest
    set bit beyond [start]. *)
Lemma search_from_spec start order :
  0 <= start < 64 * zlen bitmap ->
  walks D (fun j => 0 <= j < zlen bitmap /\ beyond D (start / 64) j) order ->
  match search_from D bitmap start order with
  | Some r => nearest D (bit bitmap) start r
  | None => forall j, bit bitmap j -> ~ beyond D start j
  end.
Proof using Hwf SearchDirLaws0.
  intros Hs Hord. unfold search_from. rewrite shiftr_6, land_63.
  destruct (Z.eqb_spec (Z.land (zget bitmap (start / 64)) (make_mask (start mod 64))) 0) as [E|E];
    [|by apply masked_hit; [lia|]].
  assert (Hother : forall j, bit bitmap j -> beyond D start j ->
    0 <= j / 64 < zlen bitmap /\ beyond D (start / 64) (j / 64)).
  { intros j Hj Hsj. pose proof (bit_range _ _ Hwf Hj). split; [zdiv|].
    pose proof Hsj as Hsj'. apply (beyond_split D 64) in Hsj as [?|[He ?]]; [done | | lia].
    apply (masked_bit start j Hj) in Hsj'; [|done]. by rewrite E, Z.testbit_0_l in Hsj'. }
  pose proof (words_search _ order Hord ltac:(intros w' Hw'; cbv beta in Hw'; lia)) as Hsearch.
  destruct (first_some _ order) as [r|].
  - destruct Hsearch as (Hr & [Hrw Hrb] & Hbest). split_and!; [|done|].
    + apply (beyond_split D 64); [lia|]. by left.
    + intros j Hj Hsj. by apply Hbest, Hother.
  - intros j Hj Hsj. by eapply Hsearch, Hother.
Qed.

Lemma word_has_bit w : 0 <= w -> zget bitmap w <> 0 -> exists i, bit bitmap i /\ i / 64 = w.
Proof using Hwf SearchDirLaws0.
  intros Hw Hne. destruct (word_hit D bitmap w) as [r|] eqn:E.
  - apply word_hit_Some in E as (? & ? & _); [|done]. by exists r.
  - unfold word_hit in E. by rewrite (proj2 (Z.eqb_neq _ 0) Hne) in E.
Qed.
End search_spec.

(** ** Setting and clearing a bit *)

Lemma testbit_shiftl_1 i j : 0 <= i -> 0 <= j -> Z.testbit (Z.shiftl 1 i) j = (j =? i).
Proof.
  intros Hi Hj. rewrite Z.shiftl_1_l. rewrite Z.pow2_bits_eqb by done.
  destruct (Z.eqb_spec i j), (Z.eqb_spec j i); congruence || lia.
Qed.

Lemma shiftl_1_range i : 0 <= i < 64 -> 0 < Z.shiftl 1 i < two64.
Proof.
  intros Hi. rewrite Z.shiftl_1_l. split; [apply Z.pow_pos_nonneg; lia|].
  change two64 with (2 ^ 64). apply Z.pow_lt_mono_r; lia.
Qed.

Lemma word_bound x : 0 <= x -> (forall j, 64 <= j -> Z.testbit x j = false) -> x < two64.
Proof.
  intros Hx Hj. destruct (Z.ltb_spec x two64) as [|Hge]; [done|].
  assert (64 <= Z.log2 x) by (apply Z.log2_le_pow2; [unfold two64 in *; lia | done]).
  specialize (Hj (Z.log2 x) ltac:(lia)).
  rewrite Z.bit_log2 in Hj; [done | unfold two64 in *; lia].
Qed.

Lemma testbit_high x j : 0 <= x < two64 -> 64 <= j -> Z.testbit x j = false.
Proof.
  intros Hx Hj. destruct (Z.testbit x j) eqn:E; [|done]. apply testbit_63 in E; lia.
Qed.

Lemma not64_range x : 0 <= x < two64 -> 0 <= not64 x < two64.
Proof. unfold not64, uint64_max, two64. lia. Qed.

Definition set_bit (bitmap : list Z) (i : Z) : list Z :=
  zset bitmap (i / 64) (Z.lor (zget bitmap (i / 64)) (Z.shiftl 1 (i mod 64))).
Definition clear_bit (bitmap : list Z) (i : Z) : list Z :=
  zset bitmap (i / 64) (Z.land (zget bitmap (i / 64)) (not64 (Z.shiftl 1 (i mod 64)))).

Section bit_updates.
Context (bitmap : list Z) (Hwf : wf_bitmap bitmap) (i : Z).
Context (Hi : 0 <= i < 64 * zlen bitmap).

Lemma bit_update_range : 0 <= i / 64 < zlen bitmap /\ 0 <= i mod 64 < 64.
Proof using Hi. split; [zdiv | apply Z.mod_pos_bound; lia]. Qed.

Lemma set_bit_wf : wf_bitmap (set_bit bitmap i).
Proof using Hwf Hi.
  destruct bit_update_range as [_ Hm]. pose proof (wf_bitmap_word bitmap (i / 64) Hwf).
  pose proof (shiftl_1_range _ Hm). apply Forall_zset; [done|].
  assert (0 <= Z.lor (zget bitmap (i / 64)) (Z.shiftl 1 (i mod 64)))
    by (apply Z.lor_nonneg; lia).
  split; [done|]. apply word_bound; [done|]. intros j Hj.
  rewrite Z.lor_spec, !testbit_high by lia. done.
Qed.

Lemma clear_bit_wf : wf_bitmap (clear_bit bitmap i).
Proof using Hwf Hi.
  destruct bit_update_range as [_ Hm]. pose proof (wf_bitmap_word bitmap (i / 64) Hwf).
  apply Forall_zset; [done|].
  assert (0 <= Z.land (zget bitmap (i / 64)) (not64 (Z.shiftl 1 (i mod 64))))
    by (apply Z.land_nonneg; lia).
  split; [done|]. apply word_bound; [done|]. intros j Hj.
  rewrite Z.land_spec, testbit_high by lia. done.
Qed.

Lemma bit_set_bit j : bit (set_bit bitmap i) j <-> j = i \/ bit bitmap j.
Proof using Hi.
  destruct bit_update_range as [Hq Hm]. unfold bit, set_bit. rewrite zget_zset by done.
  case_decide as E; [|split; [tauto | intros [->|?]; done]].
  assert (0 <= j mod 64 < 64) by (apply Z.mod_pos_bound; lia).
  rewrite Z.lor_spec, testbit_shiftl_1, orb_true_iff, Z.eqb_eq by lia. rewrite <-E.
  split.
  - intros [? [?|e]]; [tauto|]. left. apply (eq_split 64); lia.
  - intros [->|[? ?]]; [split; [lia|tauto] | tauto].
Qed.

Lemma bit_clear_bit j : bit (clear_bit bitmap i) j <-> j <> i /\ bit bitmap j.
Proof using Hi.
  destruct bit_update_range as [Hq Hm]. unfold bit, clear_bit. rewrite zget_zset by done.
  case_decide as E; [|split; [intros ?; split; [congruence | done] | tauto]].
  assert (0 <= j mod 64 < 64) by (apply Z.mod_pos_bound; lia).
  pose proof (shiftl_1_range _ Hm).
  rewrite Z.land_spec, testbit_not64, testbit_shiftl_1, andb_true_iff, negb_true_iff,
    Z.eqb_neq by lia.
  rewrite <-E. split.
  - intros (? & ? & ?). split; [congruence | done].
  - intros (? & ? & ?). split_and!; [done..|]. intros e. apply H1. by apply (eq_split 64).
Qed.

Lemma zlen_set_bit : zlen (set_bit bitmap i) = zlen bitmap.
Proof using Type. apply zlen_zset. Qed.

Lemma zlen_clear_bit : zlen (clear_bit bitmap i) = zlen bitmap.
Proof using Type. apply zlen_zset. Qed.
End bit_updates.

Lemma no_bit_words bitmap :
  wf_bitmap bitmap ->
  (forallb (fun word => word =? 0) bitmap = true <-> forall i, ~ bit bitmap i).
Proof.
  intros Hwf. rewrite forallb_forall. split.
  - intros Hz i Hi. pose proof (bit_range _ _ Hwf Hi). destruct Hi as [_ Hi].
    assert (zget bitmap (i / 64) = 0) as E.
    { apply Z.eqb_eq, Hz, list_elem_of_In, zget_elem. zdiv. }
    by rewrite E, Z.testbit_0_l in Hi.
  - intros Hno x [k Hk]%list_elem_of_In%list_elem_of_lookup. apply Z.eqb_eq.
    assert (zget bitmap (Z.of_nat k) = x) as Hx
      by (apply zget_lookup; [by rewrite Nat2Z.id | lia]).
    destruct (decide (x = 0)); [done|].
    destruct (word_has_bit SearchLowest bitmap Hwf (Z.of_nat k)) as (i & Hb & _);
      [lia | congruence | by apply Hno in Hb].
Qed.

Lemma some_bit_words bitmap :
  wf_bitmap bitmap -> forallb (fun word => word =? 0) bitmap = false ->
  exists i, bit bitmap i.
Proof.
  intros Hwf Hf. assert (exists k w, bitmap !! k = Some w /\ w <> 0) as (k & w & Hk & Hw).
  { clear Hwf. induction bitmap as [|w l IH]; [done|]. simpl in Hf.
    destruct (Z.eqb_spec w 0) as [_|Hw]; [|by exists 0%nat, w].
    destruct (IH Hf) as (k & w' & Hk & Hw'). by exists (S k), w'. }
  assert (zget bitmap (Z.of_nat k) = w) as Hx
    by (apply zget_lookup; [by rewrite Nat2Z.id | lia]).
  destruct (word_has_bit SearchLowest bitmap Hwf (Z.of_nat k)) as (i & Hb & _);
    [lia | congruence | by exists i].
Qed.

#[export] Hint Rewrite zlen_set_bit zlen_clear_bit : hft_len.
#[export] Hint Resolve set_bit_wf clear_bit_wf : hft.
