(* ===== verification/Types.v ===== *)
(** * Shared data (src/hft/common/types.h, fixed_point_config.hpp,
      src/hft/core/market_data.h, src/hft/core/order_entry.h)

    The enumerations and structs that the components exchange, with the
    conversions the code defines on them.  A price or a quantity
    ([FixedPoint<int64_t, Scale>]) is its raw value; the default-constructed
    value is [kInvalidValue]. *)

From S2P Require Import Prelude.

(** ** FixedPointConfig *)

Record FixedPointConfig := {
  kPriceScale : Z;
  kQtyScale : Z;
  kPriceScaleActual : Z;
  kQtyScaleActual : Z;
}.

Definition XRPUSDCConfig := {|
  kPriceScale := 1000000; kQtyScale := 1000;
  kPriceScaleActual := 10000; kQtyScaleActual := 10 |}.
Definition BTCUSDCConfig := {|
  kPriceScale := 10; kQtyScale := 1000;
  kPriceScaleActual := 10; kQtyScaleActual := 1000 |}.
Definition BTCUSDTConfig := {|
  kPriceScale := 100; kQtyScale := 100000;
  kPriceScaleActual := 100; kQtyScaleActual := 100000 |}.

Definition kZScoreScale : Z := 10000.
Definition kSignalScale : Z := 10000.
Definition kBpsScale : Z := 10000.
Definition kObiScale : Z := 10000.
Definition kEmaScale : Z := 10000.

Definition kInvalidValue : Z := int64_max.
Definition is_valid (raw : Z) : bool := negb (raw =? kInvalidValue).

Definition kOrderIdInvalid : Z := uint64_max.

(** ** Enumerations *)

Inductive Side := kBuy | kSell | kTrade | kInvalid.
Inductive PositionSide := kLong | kShort | kPosInvalid.
Inductive MarketUpdateType :=
  MUInvalid | MUClear | MUAdd | MUModify | MUCancel | MUTrade | MUBookTicker.
Inductive MarketDataType := MDTrade | MDMarket | MDBookTicker | MDNone.
Inductive OrdStatus :=
  OSInvalid | OSNew | OSPartiallyFilled | OSFilled | OSCanceled
| OSPendingCancel | OSRejected | OSPendingNew | OSExpired.
Inductive ExecType :=
  ETNew | ETCanceled | ETReplaced | ETRejected | ETSuspended | ETTrade | ETExpired.
Inductive ReqeustType :=
  RQInvalid | RQNewSingleOrderData | RQOrderCancelRequest
| RQOrderCancelRequestAndNewOrderSingle | RQOrderModify | RQOrderMassCancelRequest.
Inductive OrderType := OTInvalid | OTMarket | OTLimit | OTStopLoss | OTStopLimit.
Inductive TimeInForce := TIFInvalid | TIFGoodTillCancel | TIFImmediateOrCancel | TIFFillOrKill.
Inductive OrderSide := OSideNone | OSideBuy | OSideSell.

#[global] Instance Side_eq_dec : EqDecision Side.
Proof. solve_decision. Defined.
#[global] Instance PositionSide_eq_dec : EqDecision PositionSide.
Proof. solve_decision. Defined.
#[global] Instance MarketUpdateType_eq_dec : EqDecision MarketUpdateType.
Proof. solve_decision. Defined.
#[global] Instance MarketDataType_eq_dec : EqDecision MarketDataType.
Proof. solve_decision. Defined.
#[global] Instance OrdStatus_eq_dec : EqDecision OrdStatus.
Proof. solve_decision. Defined.
#[global] Instance ExecType_eq_dec : EqDecision ExecType.
Proof. solve_decision. Defined.
#[global] Instance ReqeustType_eq_dec : EqDecision ReqeustType.
Proof. solve_decision. Defined.

(** ** Conversions *)

Definition charToSide (character : Z) : Side :=
  if character =? 48 then kBuy
  else if character =? 49 then kSell
  else if character =? 50 then kTrade
  else kInvalid.

Definition side_toString (side : Side) : string :=
  match side with
  | kBuy => "BUY" | kSell => "SELL" | kTrade => "TRADE" | kInvalid => "INVALID"
  end.

Definition toSide (str : string) : Side :=
  if String.eqb str "BUY" then kBuy
  else if String.eqb str "SELL" then kSell
  else if String.eqb str "TRADE" then kTrade
  else kInvalid.

Definition sideToIndex (side : Side) : Z :=
  match side with kBuy => 0 | kSell => 1 | kTrade => 2 | kInvalid => 3 end.

Definition oppIndex (idx : Z) : Z := Z.lxor idx 1.

Definition sideToValue (side : Side) : Z :=
  match side with kBuy => 1 | _ => -1 end.

Definition positionSide_toString (side : PositionSide) : string :=
  match side with
  | kLong => "LONG" | kShort => "SHORT" | kPosInvalid => "INVALID"
  end.

Definition toPositionSide (str : string) : PositionSide :=
  if String.eqb str "LONG" then kLong
  else if String.eqb str "SHORT" then kShort
  else kPosInvalid.

Definition positionSideToIndex (side : PositionSide) : Z :=
  match side with kLong => 0 | kShort => 1 | kPosInvalid => 2 end.

Definition charToMarketUpdateType (character : Z) : MarketUpdateType :=
  if character =? 48 then MUAdd
  else if character =? 49 then MUModify
  else if character =? 50 then MUCancel
  else MUInvalid.

Definition ordStatus_toString (status : OrdStatus) : string :=
  match status with
  | OSInvalid => "INVALID"
  | OSNew => "NEW"
  | OSPartiallyFilled => "PARIALLY_FILLED"
  | OSFilled => "FILLED"
  | OSCanceled => "CANCELED"
  | OSPendingCancel => "PENDING_CANCEL"
  | OSRejected => "REJECTED"
  | OSPendingNew => "PENDING_NEW"
  | OSExpired => "EXPIRED"
  end.

Definition toOrderStatus (status : string) : OrdStatus :=
  if String.eqb status "NEW" then OSNew
  else if String.eqb status "PARTIALLY_FILLED" then OSPartiallyFilled
  else if String.eqb status "FILLED" then OSFilled
  else if String.eqb status "CANCELED" then OSCanceled
  else if String.eqb status "PENDING_CANCELED" then OSPendingCancel
  else if String.eqb status "REJECTED" then OSRejected
  else if String.eqb status "PENDING_NEW" then OSPendingNew
  else if String.eqb status "EXPIRED" then OSExpired
  else OSInvalid.

Definition toType (type : string) : ExecType :=
  if String.eqb type "NEW" then ETNew
  else if String.eqb type "TRADE" then ETTrade
  else if String.eqb type "CANCELED" then ETCanceled
  else if String.eqb type "REJECTED" then ETRejected
  else ETNew.

Definition from_common_side (side : Side) : OrderSide :=
  match side with kBuy => OSideBuy | kSell => OSideSell | _ => OSideNone end.

Definition to_common_side (side : OrderSide) : Side :=
  match side with OSideBuy => kBuy | OSideSell => kSell | OSideNone => kInvalid end.

(** ** Structs *)

Record MarketData := mkMarketData {
  md_type : MarketUpdateType;
  md_order_id : Z;
  md_ticker_id : string;
  md_side : Side;
  md_price : Z;
  md_qty : Z;
}.

(** The best bid and offer; [BBO{}] holds invalid prices and quantities. *)
Record BBO := mkBBO {
  bid_price : Z;
  ask_price : Z;
  bid_qty : Z;
  ask_qty : Z;
}.
Definition BBO_default : BBO :=
  mkBBO kInvalidValue kInvalidValue kInvalidValue kInvalidValue.

Record RiskCfg := mkRiskCfg {
  max_order_size_ : Z;
  max_position_ : Z;
  min_position_ : Z;
  max_loss_ : Z;
}.

(** The fields of [ExecutionReport] that the trading components read. *)
Record ExecutionReport := mkReport {
  cl_order_id : Z;
  symbol : string;
  exec_type : ExecType;
  ord_status : OrdStatus;
  leaves_qty : Z;
  last_qty : Z;
  er_price : Z;
  er_side : Side;
  er_position_side : option PositionSide;
}.

Record RequestCommon := mkRequest {
  req_type : ReqeustType;
  rq_cl_cancel_order_id : Z;
  rq_cl_order_id : Z;
  rq_orig_cl_order_id : Z;
  rq_symbol : string;
  rq_side : Side;
  rq_order_qty : Z;
  rq_ord_type : OrderType;
  rq_price : Z;
  rq_time_in_force : TimeInForce;
  rq_position_side : option PositionSide;
}.

(** ** Round trips *)

Lemma toSide_toString side : toSide (side_toString side) = side.
Proof. by destruct side. Qed.

Lemma toPositionSide_toString side : toPositionSide (positionSide_toString side) = side.
Proof. by destruct side. Qed.

(** Printing an order status and parsing it back gives the status again,
    except for the two statuses whose printed and parsed spellings differ
    ([PARIALLY_FILLED], [PENDING_CANCEL]); those come back as invalid. *)
Theorem ordStatus_roundtrip status :
  toOrderStatus (ordStatus_toString status) =
  match status with
  | OSPartiallyFilled | OSPendingCancel => OSInvalid
  | s => s
  end.
Proof. by destruct status. Qed.

Lemma to_from_common_side side :
  side = kBuy \/ side = kSell -> to_common_side (from_common_side side) = side.
Proof. by intros [-> | ->]. Qed.

Lemma sideToValue_abs side : Z.abs (sideToValue side) = 1.
Proof. by destruct side. Qed.

Lemma oppIndex_side side :
  side = kBuy \/ side = kSell ->
  oppIndex (sideToIndex side) = 1 - sideToIndex side.
Proof. by intros [-> | ->]. Qed.
