(* ===== verification/MemoryPool.v ===== *)
(** * The object pool (src/hft/common/memory_pool.hpp)

    [NodePool] is what the pool promises to its clients: a LIFO stack of free
    node indices.  [MemoryPool] is the pool itself: the [alive] flag of every
    bin, the [next] links and the packed head word with its ABA counter, with
    one definition per member function; [MemoryPool_NodePool] discharges the
    interface.  Operations are run one at a time, so every compare-exchange
    succeeds; addresses are byte offsets from the start of [store_]. *)

From S2P Require Import Prelude.

(** ** The interface *)

Class NodePool (P : Type) := {
  np_ok : P -> Prop;
  np_free : P -> list Z;          (* free nodes, next to be handed out first *)
  np_used : P -> Z -> Prop;       (* nodes handed out *)
  np_alloc : P -> option (Z * P);
  np_dealloc : Z -> P -> P;
  np_alloc_None p : np_ok p -> (np_alloc p = None <-> np_free p = []);
  np_alloc_Some p n p' : np_ok p -> np_alloc p = Some (n, p') ->
    np_ok p' /\ np_free p = n :: np_free p' /\ ~ np_used p n /\
    forall m, np_used p' m <-> m = n \/ np_used p m;
  np_dealloc_used p n : np_ok p -> np_used p n ->
    np_ok (np_dealloc n p) /\ np_free (np_dealloc n p) = n :: np_free p /\
    forall m, np_used (np_dealloc n p) m <-> m <> n /\ np_used p m;
}.

Module MemoryPool.

Definition kIndexMask : Z := 4294967295.
Definition kCounterShift : Z := 32.
Definition kInvalidIndex : Z := uint32_max.

Record StackHead := mkHead { index : Z; counter : Z }.

Definition pack (head : StackHead) : Z :=
  Z.lor (Z.shiftl (counter head) kCounterShift) (index head).

Definition unpack (val : Z) : StackHead :=
  {| index := u32 (Z.land val kIndexMask);
     counter := u32 (Z.shiftr val kCounterShift) |}.

(** [alive i] is [store_[i].alive]; [next i] is [free_nodes_[i].next]. *)
Record pool := mkPool {
  alive : list bool;
  next : list Z;
  free_head : Z;
}.

(** [MemoryPool(num_elems)] *)
Definition create (num_elems : Z) : pool := {|
  alive := replicate (Z.to_nat num_elems) false;
  next := (fun i => if i =? num_elems - 1 then kInvalidIndex else i + 1)
            <$> seqZ 0 num_elems;
  free_head := pack (mkHead 0 0);
|}.

(** [allocate]: the index of the bin, or [None] for [nullptr]. *)
Definition allocate (p : pool) : option (Z * pool) :=
  let old_head := unpack (free_head p) in
  if index old_head =? kInvalidIndex then None
  else
    let old_idx := index old_head in
    let next_idx := u32 (zget (next p) old_idx) in
    let new_head := mkHead next_idx (u32 (counter old_head + 1)) in
    Some (old_idx, {| alive := zset (alive p) old_idx true;
                      next := next p;
                      free_head := pack new_head |}).

(** The second half of [deallocate]: push the bin back on the stack. *)
Definition push_free (idx : Z) (p : pool) : pool :=
  let old_head := unpack (free_head p) in
  {| alive := alive p;
     next := zset (next p) idx (index old_head);
     free_head := pack (mkHead (u32 idx) (u32 (counter old_head + 1))) |}.

(** [deallocate(elem)]: [off] is the distance in bytes of [elem] from the
    start of the store, [None] the null pointer. *)
Definition deallocate (bin_size : Z) (elem : option Z) (p : pool) : bool * pool :=
  match elem with
  | None => (false, p)
  | Some off =>
      if off <? 0 then (false, p)
      else if negb (off mod bin_size =? 0) then (false, p)
      else
        let idx := off / bin_size in
        if zlen (alive p) <=? idx then (false, p)
        else if negb (zget (alive p) idx) then (false, p)
        else (true, push_free idx {| alive := zset (alive p) idx false;
                                     next := next p; free_head := free_head p |})
  end.

Definition capacity (p : pool) : Z := zlen (alive p).

(** The nodes reachable from [idx] by [next] links, at most [fuel] of them. *)
Fixpoint chain (fuel : nat) (nxt : list Z) (idx : Z) : list Z :=
  match fuel with
  | O => []
  | S n => if idx =? kInvalidIndex then [] else idx :: chain n nxt (zget nxt idx)
  end.

(** [free_count]: the loop stops at the capacity. *)
Definition free_count (p : pool) : Z :=
  zlen (chain (Z.to_nat (capacity p)) (next p) (index (unpack (free_head p)))).

(** ** Packing *)

Definition head_ok (h : StackHead) : Prop :=
  0 <= index h < two32 /\ 0 <= counter h < two32.

Lemma pack_value h : head_ok h -> pack h = counter h * two32 + index h.
Proof.
  intros [Hi Hc]. unfold pack, kCounterShift.
  rewrite Z.shiftl_mul_pow2 by lia. change (2 ^ 32) with two32.
  rewrite <-Z.lxor_lor, <-Z.add_nocarry_lxor; [done| |];
    apply Z.bits_inj'; intros n Hn; rewrite Z.land_spec, Z.testbit_0_l;
    change two32 with (2 ^ 32) in *;
    (destruct (Z.ltb_spec n 32);
     [rewrite Z.mul_pow2_bits_low by lia; done
     |rewrite (Z.bits_above_log2 (index h)); [by rewrite andb_false_r | lia |];
      destruct (decide (index h = 0)) as [->|]; [simpl; lia|];
      apply Z.lt_le_trans with 32; [|done]; apply Z.log2_lt_pow2; lia]).
Qed.

Lemma unpack_pack h : head_ok h -> unpack (pack h) = h.
Proof.
  intros Hh. rewrite pack_value by done. destruct Hh as [Hi Hc], h as [i c]. simpl in *.
  unfold unpack, kIndexMask, kCounterShift, u32. f_equal.
  - change 4294967295 with (Z.ones 32). rewrite Z.land_ones by lia.
    change (2 ^ 32) with two32. rewrite Z.mod_mod by done.
    symmetry. apply Z.mod_unique with c; lia.
  - rewrite Z.shiftr_div_pow2 by lia. change (2 ^ 32) with two32.
    replace ((c * two32 + i) / two32) with c by (apply Z.div_unique with i; lia).
    apply Z.mod_small. lia.
Qed.

#[local] Opaque pack unpack.

Lemma u32_range x : 0 <= u32 x < two32.
Proof. unfold u32. apply Z.mod_pos_bound. done. Qed.

(** ** The invariant *)

(** [fl] is the list of nodes threaded through [nxt] from [idx]. *)
Fixpoint linked (nxt : list Z) (idx : Z) (fl : list Z) : Prop :=
  match fl with
  | [] => idx = kInvalidIndex
  | x :: fl' => idx = x /\ 0 <= x < zlen nxt /\ linked nxt (zget nxt x) fl'
  end.

Definition free_list (p : pool) : list Z :=
  chain (Z.to_nat (capacity p)) (next p) (index (unpack (free_head p))).

(** A bin is on the free list exactly when its [alive] flag is down. *)
Record pool_ok (p : pool) : Prop := {
  ok_capacity : 0 < capacity p <= uint32_max;
  ok_next : zlen (next p) = capacity p;
  ok_head : exists h, head_ok h /\ free_head p = pack h;
  ok_linked : linked (next p) (index (unpack (free_head p))) (free_list p);
  ok_nodup : NoDup (free_list p);
  ok_free i : i ∈ free_list p <-> 0 <= i < capacity p /\ zget (alive p) i = false;
}.

Lemma linked_chain nxt idx fl fuel :
  linked nxt idx fl -> zlen nxt <= uint32_max -> (length fl <= fuel)%nat ->
  chain fuel nxt idx = fl.
Proof.
  intros Hl Hn. revert idx fuel Hl.
  induction fl as [|x fl IH]; intros idx fuel; simpl.
  - intros -> _. by destruct fuel.
  - intros (-> & Hx & Hl) Hf. destruct fuel as [|fuel]; [lia|]. simpl.
    destruct (Z.eqb_spec x kInvalidIndex) as [E|_].
    + unfold kInvalidIndex in E. lia.
    + f_equal. apply IH; [done | lia].
Qed.

Lemma linked_zset nxt idx fl x v :
  x ∉ fl -> linked nxt idx fl -> linked (zset nxt x v) idx fl.
Proof.
  revert idx. induction fl as [|y fl IH]; intros idx Hx; simpl; [done|].
  apply not_elem_of_cons in Hx as [Hne Hx]. intros (-> & Hy & Hl).
  rewrite zlen_zset, zget_zset_ne by done. auto.
Qed.

Lemma NoDup_range_length (l : list Z) n :
  NoDup l -> (forall i, i ∈ l -> 0 <= i < n) -> (length l <= Z.to_nat n)%nat.
Proof.
  intros Hnd Hr. rewrite <-(length_seqZ 0 n).
  apply submseteq_length, NoDup_submseteq; [done|].
  intros x Hx%Hr. apply elem_of_seqZ. lia.
Qed.

(** A pool whose links thread a duplicate-free list [fl] of the dead bins from
    the head [h] is well formed, and [fl] is its free list. *)
Lemma pool_ok_intro p h fl :
  0 < capacity p <= uint32_max -> zlen (next p) = capacity p ->
  head_ok h -> free_head p = pack h -> linked (next p) (index h) fl -> NoDup fl ->
  (forall i, i ∈ fl <-> 0 <= i < capacity p /\ zget (alive p) i = false) ->
  pool_ok p /\ free_list p = fl.
Proof.
  intros Hc Hn Hh Hp Hl Hnd Hfree.
  assert (Hfl : free_list p = fl).
  { unfold free_list. rewrite Hp, unpack_pack by done.
    apply linked_chain; [done | lia |].
    apply NoDup_range_length; [done|]. intros i Hi. by apply Hfree in Hi as [? _]. }
  split; [|done]. split; rewrite ?Hfl; eauto. rewrite Hp, unpack_pack; done.
Qed.

Lemma linked_seqZ nxt i k :
  (forall j, i <= j < i + k - 1 -> zget nxt j = j + 1) ->
  zget nxt (i + k - 1) = kInvalidIndex -> 0 <= i -> 0 < k -> i + k <= zlen nxt ->
  linked nxt i (seqZ i k).
Proof.
  intros Hstep Hlast Hi Hk. remember (Z.to_nat k) as n eqn:E.
  revert i k E Hstep Hlast Hi Hk. induction n as [|n IH]; intros i k E Hstep Hlast Hi Hk Hlen.
  { lia. }
  rewrite seqZ_cons by lia. simpl. split_and!; [done | lia | lia |].
  destruct (decide (k = 1)) as [->|].
  - rewrite seqZ_nil by lia. simpl. rewrite <-Hlast. f_equal. lia.
  - rewrite Hstep by lia. replace (i + 1) with (Z.succ i) by lia.
    apply IH; try lia; [intros j Hj; apply Hstep; lia|].
    rewrite <-Hlast. f_equal. lia.
Qed.

(** The constructor threads all bins in order. *)
Lemma create_ok n : 0 < n <= uint32_max -> pool_ok (create n) /\ free_list (create n) = seqZ 0 n.
Proof.
  intros Hn.
  assert (Hnext : forall j, 0 <= j < n ->
    zget (next (create n)) j = if j =? n - 1 then kInvalidIndex else j + 1).
  { intros j Hj. simpl. apply zget_lookup; [|lia].
    rewrite list_lookup_fmap, lookup_seqZ_lt by lia. cbn [fmap option_fmap option_map].
    by replace (0 + Z.of_nat (Z.to_nat j)) with j by lia. }
  assert (Hlen : zlen (next (create n)) = n).
  { simpl. unfold zlen. rewrite length_fmap, length_seqZ. lia. }
  assert (Hcap : capacity (create n) = n).
  { unfold capacity. simpl. rewrite zlen_replicate. lia. }
  apply (pool_ok_intro _ (mkHead 0 0)); rewrite ?Hcap; try done.
  - apply linked_seqZ; [| | lia | lia | lia].
    + intros j Hj. rewrite Hnext by lia. destruct (Z.eqb_spec j (n - 1)); lia.
    + rewrite Hnext by lia. by rewrite (proj2 (Z.eqb_eq (0 + n - 1) (n - 1))) by lia.
  - apply NoDup_seqZ.
  - intros i. rewrite elem_of_seqZ. simpl. split; [|lia]. intros Hi. split; [lia|].
    apply zget_replicate. lia.
Qed.

Lemma pool_ok_head p : pool_ok p -> head_ok (unpack (free_head p)).
Proof. intros [_ _ (h & Hh & ->) _ _ _]. by rewrite unpack_pack. Qed.

Lemma allocate_None p : pool_ok p -> (allocate p = None <-> free_list p = []).
Proof.
  intros Hok. pose proof (ok_linked _ Hok) as Hl. unfold allocate.
  destruct (Z.eqb_spec (index (unpack (free_head p))) kInvalidIndex) as [E|E].
  - split; [|done]. intros _. destruct (free_list p) as [|x fl]; [done|].
    destruct Hl as (Hx & Hr & _). pose proof (ok_next _ Hok). pose proof (ok_capacity _ Hok).
    rewrite E in Hx. unfold kInvalidIndex in Hx. lia.
  - split; [done|]. intros Hfl. rewrite Hfl in Hl. done.
Qed.

Lemma allocate_Some p n p' :
  pool_ok p -> allocate p = Some (n, p') ->
  pool_ok p' /\ free_list p = n :: free_list p' /\ zget (alive p) n = false /\
  0 <= n < capacity p /\ capacity p' = capacity p /\ alive p' = zset (alive p) n true.
Proof.
  intros Hok. pose proof Hok as [Hcap Hnext _ Hl Hnd Hfree].
  pose proof (pool_ok_head _ Hok) as [Hhi Hhc]. unfold allocate.
  destruct (Z.eqb_spec (index (unpack (free_head p))) kInvalidIndex) as [E|E]; [done|].
  intros [= <- <-]. set (n := index (unpack (free_head p))) in *.
  destruct (free_list p) as [|x fl] eqn:Hfl; [done|].
  destruct Hl as (Hx & Hr & Hl). change (index _) with n in Hx. subst x.
  apply NoDup_cons in Hnd as [Hn Hnd].
  assert (Halive : zget (alive p) n = false) by (apply (Hfree n); left).
  assert (Hnx : u32 (zget (next p) n) = zget (next p) n).
  { unfold u32. apply Z.mod_small. destruct fl as [|y fl]; simpl in Hl.
    - rewrite Hl. done.
    - destruct Hl as (-> & Hy & _). unfold two32, uint32_max in *. lia. }
  rewrite Hnx.
  set (p' := {| alive := zset (alive p) n true |}).
  assert (Hcap' : capacity p' = capacity p) by (unfold capacity; simpl; by rewrite zlen_zset).
  destruct (pool_ok_intro p' (mkHead (zget (next p) n) (u32 (counter (unpack (free_head p)) + 1))) fl)
    as [Hok' Hfl']; try done.
  - by rewrite Hcap'.
  - by rewrite Hcap'.
  - split; simpl; [|apply u32_range]. rewrite <-Hnx. apply u32_range.
  - intros i. rewrite Hcap'. simpl.
    destruct (decide (i = n)) as [->|Hne].
    + rewrite zget_zset_eq by (unfold capacity in *; lia). split; [done | by intros [_ ?]].
    + rewrite zget_zset_ne by done. rewrite <-(Hfree i), elem_of_cons. tauto.
  - rewrite Hfl'. split_and!; try done; lia.
Qed.

Lemma push_free_ok p n :
  pool_ok p -> 0 <= n < capacity p -> zget (alive p) n = true ->
  let p' := push_free n {| alive := zset (alive p) n false; next := next p; free_head := free_head p |} in
  pool_ok p' /\ free_list p' = n :: free_list p /\
  capacity p' = capacity p /\ alive p' = zset (alive p) n false.
Proof.
  intros Hok Hn Ha p'. pose proof Hok as [Hcap Hnext _ Hl Hnd Hfree].
  pose proof (pool_ok_head _ Hok) as [Hhi Hhc].
  assert (Hcap' : capacity p' = capacity p) by (unfold capacity; simpl; by rewrite zlen_zset).
  assert (Hnin : n ∉ free_list p) by (rewrite Hfree, Ha; by intros [_ ?]).
  assert (Hn32 : u32 n = n).
  { unfold u32. apply Z.mod_small. unfold two32, uint32_max in *. lia. }
  destruct (pool_ok_intro p' (mkHead n (u32 (counter (unpack (free_head p)) + 1)))
    (n :: free_list p)) as [Hok' Hfl']; try done.
  - by rewrite Hcap'.
  - rewrite Hcap'. subst p'. cbn. by rewrite zlen_zset.
  - split; simpl; [|apply u32_range]. rewrite <-Hn32. apply u32_range.
  - subst p'. cbn. by rewrite Hn32.
  - subst p'. cbn. split_and!; [done | lia | rewrite zlen_zset; lia |].
    rewrite zget_zset_eq by lia. by apply linked_zset.
  - by apply NoDup_cons.
  - intros i. rewrite Hcap', elem_of_cons. subst p'. cbn. destruct (decide (i = n)) as [->|Hne].
    + rewrite zget_zset_eq by (unfold capacity in *; lia). split; [done | by left].
    + rewrite zget_zset_ne by done. rewrite <-(Hfree i). tauto.
Qed.

(** A pointer that [allocate] returned and that is still alive goes back. *)
Lemma deallocate_alive bin_size p n :
  0 < bin_size -> 0 <= n < capacity p -> zget (alive p) n = true ->
  deallocate bin_size (Some (n * bin_size)) p =
    (true, push_free n {| alive := zset (alive p) n false; next := next p;
                          free_head := free_head p |}).
Proof.
  intros Hb Hn Ha. unfold deallocate.
  rewrite (proj2 (Z.ltb_ge (n * bin_size) 0)) by nia.
  rewrite Z.mod_mul, Z.div_mul, Z.eqb_refl by lia. cbn [negb].
  rewrite (proj2 (Z.leb_gt (zlen (alive p)) n)) by (unfold capacity in Hn; lia).
  by rewrite Ha.
Qed.

(** The pool implements the interface of its clients. *)
Section instance.
Context (bin_size : Z) (Hbin : 0 < bin_size).

Definition pool_used (p : pool) (n : Z) : Prop :=
  0 <= n < capacity p /\ zget (alive p) n = true.
Definition pool_dealloc (n : Z) (p : pool) : pool :=
  snd (deallocate bin_size (Some (n * bin_size)) p).

Lemma pool_alloc_Some p n p' : pool_ok p -> allocate p = Some (n, p') ->
  pool_ok p' /\ free_list p = n :: free_list p' /\ ~ pool_used p n /\
  forall m, pool_used p' m <-> m = n \/ pool_used p m.
Proof.
  intros Hok Hal. unfold pool_used.
  apply (allocate_Some _ _ _ Hok) in Hal as (Hok' & Hfl & Ha & Hn & Hc & Hal).
  split_and!; [done | done | rewrite Ha; by intros [_ ?] |].
  intros m. rewrite Hc, Hal. destruct (decide (m = n)) as [->|Hne].
  - rewrite zget_zset_eq by done. tauto.
  - rewrite zget_zset_ne by done. tauto.
Qed.

Lemma pool_dealloc_used p n : pool_ok p -> pool_used p n ->
  pool_ok (pool_dealloc n p) /\ free_list (pool_dealloc n p) = n :: free_list p /\
  forall m, pool_used (pool_dealloc n p) m <-> m <> n /\ pool_used p m.
Proof using Hbin.
  intros Hok [Hn Ha]. unfold pool_used, pool_dealloc. rewrite deallocate_alive by done.
  destruct (push_free_ok p n Hok Hn Ha) as (Hok' & Hfl & Hc & Hal).
  cbn [snd]. split_and!; [done | done |].
  intros m. rewrite Hc, Hal. destruct (decide (m = n)) as [->|Hne].
  - rewrite zget_zset_eq by done. split; [by intros [_ ?] | tauto].
  - rewrite zget_zset_ne by done. tauto.
Qed.

Definition MemoryPool_NodePool : NodePool pool := {|
  np_ok := pool_ok; np_free := free_list; np_used := pool_used;
  np_alloc := allocate; np_dealloc := pool_dealloc;
  np_alloc_None := allocate_None;
  np_alloc_Some := pool_alloc_Some;
  np_dealloc_used := pool_dealloc_used;
|}.
End instance.

(** ** Sequences of operations *)

Inductive op := Alloc | Dealloc (elem : option Z).

Definition step (bin_size : Z) (p : pool) (o : op) : pool :=
  match o with
  | Alloc => match allocate p with Some (_, p') => p' | None => p end
  | Dealloc elem => snd (deallocate bin_size elem p)
  end.

Definition alive_count (p : pool) : Z := zlen (filter (fun b => b = true) (alive p)).

(** What [deallocate] accepts: the address of a live bin, and nothing else. *)
Lemma deallocate_cases bin_size elem p :
  0 < bin_size ->
  (exists n, elem = Some (n * bin_size) /\ pool_used p n /\
     deallocate bin_size elem p = (true, pool_dealloc bin_size n p)) \/
  ((forall n, elem = Some (n * bin_size) -> ~ pool_used p n) /\
   deallocate bin_size elem p = (false, p)).
Proof.
  intros Hb. destruct elem as [off|]; [|by right].
  assert (Hn : forall n, Some off = Some (n * bin_size) -> n = off / bin_size /\ off mod bin_size = 0).
  { intros n [= ->]. by rewrite Z.div_mul, Z.mod_mul by lia. }
  destruct (decide (off mod bin_size = 0)) as [Hm|Hm].
  - assert (Hoff : off = off / bin_size * bin_size)
      by (rewrite (Z.div_mod off bin_size) at 1; lia).
    destruct (decide (0 <= off / bin_size < capacity p /\ zget (alive p) (off / bin_size) = true))
      as [Hu|Hu].
    + left. exists (off / bin_size). split_and!; [by f_equal | done|].
      unfold pool_dealloc. revert Hoff Hu. generalize (off / bin_size). intros q -> [Hq Ha].
      by rewrite deallocate_alive.
    + right. split; [intros n [-> _]%Hn; done|].
      unfold deallocate, capacity in *. rewrite Hm. cbn.
      destruct (Z.ltb_spec off 0); [done|].
      destruct (Z.leb_spec (zlen (alive p)) (off / bin_size)); [done|].
      destruct (zget (alive p) (off / bin_size)); [|done]. exfalso. apply Hu.
      split; [|done]. split; [|done]. apply Z.div_pos; lia.
  - right. split; [intros n [_ ?]%Hn; done|]. unfold deallocate.
    destruct (Z.ltb_spec off 0); [done|]. by rewrite (proj2 (Z.eqb_neq _ 0) Hm).
Qed.

Lemma step_ok bin_size p o : 0 < bin_size -> pool_ok p -> pool_ok (step bin_size p o).
Proof.
  intros Hb Hok. destruct o as [|elem]; simpl.
  - destruct (allocate p) as [[n p']|] eqn:E; [|done]. by apply allocate_Some in E as (? & _).
  - destruct (deallocate_cases bin_size elem p Hb) as [(n & _ & Hu & ->)|[_ ->]]; [|done].
    by apply pool_dealloc_used.
Qed.

(** The free list holds exactly the dead bins, once each. *)
Lemma free_list_length p : pool_ok p -> zlen (free_list p) + alive_count p = capacity p.
Proof.
  intros [_ _ _ _ Hnd Hfree].
  assert (Hperm : free_list p ≡ₚ filter (fun i => zget (alive p) i = false) (seqZ 0 (capacity p))).
  { apply NoDup_Permutation; [done | apply NoDup_filter, NoDup_seqZ |].
    intros i. rewrite Hfree, list_elem_of_filter, elem_of_seqZ. naive_solver lia. }
  unfold zlen at 1. rewrite Hperm. unfold alive_count, capacity. clear.
  assert (Haux : forall (l : list bool) (k : Z), (forall i, 0 <= i < zlen l -> zget (alive p) (k + i) = zget l i) ->
    Z.of_nat (length (filter (fun i => zget (alive p) i = false) (seqZ k (zlen l)))) +
    zlen (filter (fun b => b = true) l) = zlen l).
  { induction l as [|b l IH]; intros k Hk.
    - unfold zlen. by rewrite seqZ_nil.
    - assert (zlen (b :: l) = zlen l + 1) as Hlen by (unfold zlen; simpl; lia).
      pose proof (zlen_nonneg l).
      rewrite seqZ_cons by lia. rewrite !filter_cons.
      replace (Z.pred (zlen (b :: l))) with (zlen l) by lia.
      assert (IH' : forall i, 0 <= i < zlen l -> zget (alive p) (Z.succ k + i) = zget l i).
      { intros i Hi. replace (Z.succ k + i) with (k + (i + 1)) by lia. rewrite Hk by lia.
        unfold zget. rewrite !bool_decide_true by lia.
        by replace (Z.to_nat (i + 1)) with (S (Z.to_nat i)) by lia. }
      apply IH in IH'. rewrite Hlen.
      specialize (Hk 0 ltac:(lia)). rewrite Z.add_0_r in Hk. cbn in Hk. rewrite Hk.
      unfold zlen in *. destruct b; repeat case_decide; try done; cbn [length]; lia. }
  by apply (Haux (alive p) 0).
Qed.

Lemma step_capacity bin_size p o : capacity (step bin_size p o) = capacity p.
Proof.
  destruct o as [|elem]; simpl.
  - unfold allocate. destruct (_ =? _); [done|]. unfold capacity. simpl. apply zlen_zset.
  - unfold deallocate. destruct elem; [|done]. break_tests; try done.
    unfold capacity, push_free. simpl. apply zlen_zset.
Qed.

(** C10: whatever sequence of [allocate] and [deallocate] calls is made on a
    fresh pool (null, foreign, misaligned and already freed pointers included),
    the bins stay partitioned: each dead bin is on the free list exactly once,
    no live bin is, and [free_count] plus the number of live bins is the
    capacity, so no bin leaks and none is handed out twice. *)
Theorem pool_partition bin_size n ops :
  0 < bin_size -> 0 < n <= uint32_max ->
  let p := fold_left (step bin_size) ops (create n) in
  pool_ok p /\ free_count p + alive_count p = n.
Proof.
  intros Hb Hn. assert (H0 : pool_ok (create n) /\ capacity (create n) = n).
  { split; [by apply create_ok|]. unfold capacity. simpl. rewrite zlen_replicate. lia. }
  revert H0. generalize (create n). induction ops as [|o ops IH]; intros p [Hok Hc]; simpl.
  - split; [done|]. rewrite <-Hc. by apply free_list_length.
  - apply IH. split; [by apply step_ok | by rewrite step_capacity].
Qed.

Lemma pool_partition_witness :
  let p := fold_left (step 16) [Alloc; Alloc; Dealloc (Some 16); Dealloc (Some 16); Alloc] (create 4) in
  pool_ok p /\ free_count p + alive_count p = 4.
Proof.
  apply (pool_partition 16 4 [Alloc; Alloc; Dealloc (Some 16); Dealloc (Some 16); Alloc]).
  - lia.
  - unfold uint32_max. lia.
Defined.

(** [deallocate] returns [true] and frees a bin exactly when its argument
    is the address of a live bin; a null, foreign, misaligned, out-of-range or
    already freed pointer is refused and leaves the pool untouched. *)
Theorem deallocate_accepts bin_size elem p :
  0 < bin_size ->
  (fst (deallocate bin_size elem p) = true <->
   exists n, elem = Some (n * bin_size) /\ pool_used p n) /\
  (fst (deallocate bin_size elem p) = false -> snd (deallocate bin_size elem p) = p).
Proof.
  intros Hb. destruct (deallocate_cases bin_size elem p Hb) as [(n & He & Hu & ->)|[Hno ->]]; simpl.
  - split; [|done]. split; [by exists n | done].
  - split; [|done]. split; [done | intros (n & He & Hu)]. by apply Hno in Hu.
Qed.

Lemma deallocate_accepts_witness :
  let p := step 16 (create 2) Alloc in
  (fst (deallocate 16 (Some 0) p) = true <-> exists n, Some 0 = Some (n * 16) /\ pool_used p n) /\
  (fst (deallocate 16 (Some 0) p) = false -> snd (deallocate 16 (Some 0) p) = p) /\
  fst (deallocate 16 (Some 0) p) = true /\ fst (deallocate 16 (Some 8) p) = false.
Proof.
  intros p. destruct (deallocate_accepts 16 (Some 0) p) as [H1 H2]; [lia|].
  split_and!; [apply H1 | exact H2 | vm_compute; reflexivity | vm_compute; reflexivity].
Defined.
End MemoryPool.
