(* ===== verification/OrderBook.v ===== *)
(** * The bucketed order book (src/hft/src/order_book.hpp, default build)

    Price levels are indices from [min_price_int]; 4096 levels form a bucket
    that is allocated from a pool while it holds an active level, and a summary
    bitmap says which buckets exist.  One [Side] record holds the members the
    code keeps per side ([bid_buckets_], [bid_summary_],
    [cached_best_bid_idx_], [bid_bucket_pool_] and the ask ones); the [_bid] and [_ask]
    members of the class are the same code up to the search direction.
    [None] as a result stands for a null-pointer dereference (a pool that is
    exhausted).  This file holds the definitions; the theorems are in
    [OrderBookFacts] and [OrderBookPeek]. *)

From S2P Require Import Prelude BitScan MemoryPool Types.

Definition kDefaultMinPriceInt : Z := 100000.
Definition kDefaultMaxPriceInt : Z := 30000000.
Definition kMaxBucketPoolSize : Z := 256.
Definition kBucketSize : Z := 4096.
Definition kBucketBitmapWords : Z := Z.quot (kBucketSize + kBitsPerWord - 1) kBitsPerWord.

(** ** Configuration *)

Record OrderBookConfig := {
  min_price_int : Z;
  max_price_int : Z;
  num_levels : Z;
  bitmap_words : Z;
  bucket_count : Z;
  summary_words : Z;
  bucket_pool_size : Z;
}.

(** [OrderBookConfig::from_ini] with the two values read from the file.  The
    [int] arithmetic is exact as long as [max_price - min_price + kBucketSize] is an
    [int]. *)
Definition from_ini (min_price max_price : Z) : OrderBookConfig :=
  let num_levels := max_price - min_price + 1 in
  let bitmap_words := Z.quot (num_levels + kBitsPerWord - 1) kBitsPerWord in
  let bucket_count := Z.quot (num_levels + kBucketSize - 1) kBucketSize in
  let summary_words := Z.quot (bucket_count + kBitsPerWord - 1) kBitsPerWord in
  {| min_price_int := min_price; max_price_int := max_price;
     num_levels := num_levels; bitmap_words := bitmap_words;
     bucket_count := bucket_count; summary_words := summary_words;
     bucket_pool_size := Z.min bucket_count kMaxBucketPoolSize |}.

Definition price_to_index (cfg : OrderBookConfig) (price : Z) : Z :=
  i32 price - min_price_int cfg.

Definition index_to_price (cfg : OrderBookConfig) (index : Z) : Z :=
  min_price_int cfg + index.

(** ** State *)

Record Bucket := mkBucket { bitmap : list Z; orders : list Z }.
#[global] Instance Bucket_dflt : Dflt Bucket := mkBucket [] [].

Definition is_active (qty : Z) : bool := 0 <? qty.

Definition bucket_empty (b : Bucket) : bool := forallb (fun word => word =? 0) (bitmap b).

(** A bucket as [allocate] and the two fills leave it. *)
Definition zero_bucket : Bucket :=
  mkBucket (replicate (Z.to_nat kBucketBitmapWords) 0) (replicate (Z.to_nat kBucketSize) 0).

Section book.
Context {P : Type} `{NodePool P}.

(** A bucket pointer is the node it occupies in the pool and its contents;
    [nullptr] is [None]. *)
Record SideBook := mkSide {
  buckets : list (option (Z * Bucket));
  summary : list Z;
  cached_best_idx : Z;
  bucket_pool : P;
}.

Record Book := mkBook {
  config : OrderBookConfig;
  bid_side : SideBook;
  ask_side : SideBook;
  bbo : BBO;
}.

Definition get_side (is_bid : bool) (bk : Book) : SideBook :=
  if is_bid then bid_side bk else ask_side bk.
Definition set_side (is_bid : bool) (s : SideBook) (bk : Book) : Book :=
  if is_bid then mkBook (config bk) s (ask_side bk) (bbo bk)
  else mkBook (config bk) (bid_side bk) s (bbo bk).
Definition set_bbo (b : BBO) (bk : Book) : Book :=
  mkBook (config bk) (bid_side bk) (ask_side bk) b.
Definition bbo_set (is_bid : bool) (price qty : Z) (b : BBO) : BBO :=
  if is_bid then mkBBO price (ask_price b) qty (ask_qty b)
  else mkBBO (bid_price b) price (bid_qty b) qty.
Definition bbo_set_qty (is_bid : bool) (qty : Z) (b : BBO) : BBO :=
  if is_bid then mkBBO (bid_price b) (ask_price b) qty (ask_qty b)
  else mkBBO (bid_price b) (ask_price b) (bid_qty b) qty.
Definition with_cache (idx : Z) (s : SideBook) : SideBook :=
  mkSide (buckets s) (summary s) idx (bucket_pool s).
Definition with_bucket (bidx : Z) (b : option (Z * Bucket)) (s : SideBook) : SideBook :=
  mkSide (zset (buckets s) bidx b) (summary s) (cached_best_idx s) (bucket_pool s).
Definition with_pool (p : P) (s : SideBook) : SideBook :=
  mkSide (buckets s) (summary s) (cached_best_idx s) p.

(** [MarketOrderBook(ticker_id, logger)] *)
Definition new_side (cfg : OrderBookConfig) (pool : P) : SideBook :=
  mkSide (replicate (Z.to_nat (bucket_count cfg)) None)
         (replicate (Z.to_nat (summary_words cfg)) 0) (-1) pool.
Definition new_book (cfg : OrderBookConfig) (bid_pool ask_pool : P) : Book :=
  mkBook cfg (new_side cfg bid_pool) (new_side cfg ask_pool) BBO_default.

(** ** Updates *)

Definition set_summary (bid_x : Z) (s : SideBook) : SideBook :=
  let w := Z.shiftr bid_x kWordShift in
  mkSide (buckets s)
         (zset (summary s) w (Z.lor (zget (summary s) w) (Z.shiftl 1 (Z.land bid_x kWordMask))))
         (cached_best_idx s) (bucket_pool s).

Definition clear_summary (bid_x : Z) (s : SideBook) : SideBook :=
  let w := Z.shiftr bid_x kWordShift in
  mkSide (buckets s)
         (zset (summary s) w
            (Z.land (zget (summary s) w) (not64 (Z.shiftl 1 (Z.land bid_x kWordMask)))))
         (cached_best_idx s) (bucket_pool s).

(** The null test and [allocate] at the head of [update_bid]/[update_ask]. *)
Definition ensure_bucket (bucket_idx : Z) (s : SideBook) : option (Z * Bucket * SideBook) :=
  match zget (buckets s) bucket_idx with
  | Some (node, bucket) => Some (node, bucket, s)
  | None =>
      match np_alloc (bucket_pool s) with
      | None => None
      | Some (node, pool) =>
          Some (node, zero_bucket,
                with_bucket bucket_idx (Some (node, zero_bucket)) (with_pool pool s))
      end
  end.

(** [update_bid(idx, qty)] / [update_ask(idx, qty)] *)
Definition update_side (idx qty : Z) (s : SideBook) : option SideBook :=
  let bucket_idx := Z.quot idx kBucketSize in
  let off := Z.land idx (kBucketSize - 1) in
  match ensure_bucket bucket_idx s with
  | None => None
  | Some (node, bucket, s1) =>
      let orders1 := zset (orders bucket) off qty in
      let word := Z.shiftr off kWordShift in
      let mask := Z.shiftl 1 (Z.land off kWordMask) in
      if is_active qty then
        let bucket1 := mkBucket (zset (bitmap bucket) word
                                   (Z.lor (zget (bitmap bucket) word) mask)) orders1 in
        Some (set_summary bucket_idx (with_bucket bucket_idx (Some (node, bucket1)) s1))
      else
        let bucket1 := mkBucket (zset (bitmap bucket) word
                                   (Z.land (zget (bitmap bucket) word) (not64 mask))) orders1 in
        if bucket_empty bucket1 then
          let s2 := clear_summary bucket_idx s1 in
          Some (with_bucket bucket_idx None
                  (with_pool (np_dealloc node (bucket_pool s2)) s2))
        else Some (with_bucket bucket_idx (Some (node, bucket1)) s1)
  end.

(** [is_bid_idx_valid] / [is_ask_idx_valid] *)
Definition idx_valid (idx : Z) (s : SideBook) : bool :=
  if idx <? 0 then false
  else match zget (buckets s) (Z.quot idx kBucketSize) with
       | None => false
       | Some (_, bucket) => is_active (zget (orders bucket) (Z.land idx (kBucketSize - 1)))
       end.

(** ** Searches *)

(** [find_in_bucket(bucket, highest)] *)
Definition find_in_bucket (D : SearchDir) (bucket : Bucket) : Z :=
  match first_some (word_hit D (bitmap bucket)) (all_words D kBucketBitmapWords) with
  | Some off => off
  | None => -1
  end.

(** A summary word that is hit: its best bucket, then the best level in it.
    A null bucket under a set summary bit would be dereferenced. *)
Definition summary_hit (D : SearchDir) (s : SideBook) (swi : Z) : option Z :=
  let summary_word := zget (summary s) swi in
  if summary_word =? 0 then None
  else
    let next_bucket_index := Z.shiftl swi kWordShift + find_bit summary_word in
    match zget (buckets s) next_bucket_index with
    | None => None
    | Some (_, bucket) => Some (next_bucket_index * kBucketSize + find_in_bucket D bucket)
    end.

(** [next_active_impl<SearchDir>(summary, buckets, start_idx)] *)
Definition next_active_impl (D : SearchDir) (s : SideBook) (start_idx : Z) : Z :=
  let bucket_index := Z.quot start_idx kBucketSize in
  let level_offset := Z.land start_idx (kBucketSize - 1) in
  let in_bucket :=
    match zget (buckets s) bucket_index with
    | None => None
    | Some (_, bucket) =>
        search_from D (bitmap bucket) level_offset
          (iterate_words (Z.shiftr level_offset kWordShift)
             (if kIsHighest then 0 else kBucketBitmapWords))
    end in
  match in_bucket with
  | Some off => bucket_index * kBucketSize + off
  | None =>
      let summary_word_index := Z.shiftr bucket_index kWordShift in
      let sb_word := Z.land (zget (summary s) summary_word_index)
                            (make_mask (Z.land bucket_index kWordMask)) in
      if sb_word =? 0 then
        match first_some (summary_hit D s)
                (iterate_summary summary_word_index (zlen (summary s))) with
        | Some r => r
        | None => -1
        end
      else
        let next_bucket_index := Z.shiftl summary_word_index kWordShift + find_bit sb_word in
        match zget (buckets s) next_bucket_index with
        | None => -1
        | Some (_, bucket) => next_bucket_index * kBucketSize + find_in_bucket D bucket
        end
  end.

(** The slow path of [best_bid_idx]/[best_ask_idx]: a summary word whose best
    bucket has no active level does not stop the walk. *)
Definition best_hit (D : SearchDir) (s : SideBook) (sw : Z) : option Z :=
  let word := zget (summary s) sw in
  if word =? 0 then None
  else
    let bidx := Z.shiftl sw kWordShift + find_bit word in
    match zget (buckets s) bidx with
    | None => None
    | Some (_, bucket) =>
        match first_some (word_hit D (bitmap bucket)) (all_words D kBucketBitmapWords) with
        | Some off => Some (bidx * kBucketSize + off)
        | None => None
        end
    end.

(** [best_bid_idx] / [best_ask_idx]: the result and the updated cache. *)
Definition best_idx (D : SearchDir) (s : SideBook) : Z * SideBook :=
  if (0 <=? cached_best_idx s) && idx_valid (cached_best_idx s) s
  then (cached_best_idx s, s)
  else match first_some (best_hit D s) (all_words D (zlen (summary s))) with
       | Some idx => (idx, with_cache idx s)
       | None => (-1, with_cache (-1) s)
       end.

(** [best_bid_price], [best_bid_qty] and the ask ones. *)
Definition best_price (cfg : OrderBookConfig) (D : SearchDir) (s : SideBook) : Z * SideBook :=
  let '(idx, s') := best_idx D s in
  (if 0 <=? idx then index_to_price cfg idx else kInvalidValue, s').

Definition best_qty (D : SearchDir) (s : SideBook) : Z * SideBook :=
  let '(idx, s') := best_idx D s in
  if idx <? 0 then (kInvalidValue, s')
  else match zget (buckets s') (Z.quot idx kBucketSize) with
       | None => (0, s')
       | Some (_, bucket) => (zget (orders bucket) (Z.land idx (kBucketSize - 1)), s')
       end.

(** [bbo_.bid_price = best_bid_price(); bbo_.bid_qty = best_bid_qty();] *)
Definition refresh_bbo (is_bid : bool) (bk : Book) : Book :=
  let '(price, s1) := best_price (config bk) (side_dir is_bid) (get_side is_bid bk) in
  let '(qty, s2) := best_qty (side_dir is_bid) s1 in
  set_bbo (bbo_set is_bid price qty (bbo bk)) (set_side is_bid s2 bk).

(** ** Order operations *)

Definition is_bid_of (side : Side) : bool := bool_decide (side = kBuy).

(** [add_order(market_update, idx, qty)] *)
Definition add_order (side : Side) (idx qty : Z) (bk : Book) : option Book :=
  let is_bid := is_bid_of side in
  match update_side idx qty (get_side is_bid bk) with
  | None => None
  | Some s =>
      let cached := cached_best_idx s in
      if (cached <? 0) || (if is_bid then cached <? idx else idx <? cached) then
        Some (set_bbo (bbo_set is_bid (index_to_price (config bk) idx) qty (bbo bk))
                (set_side is_bid (with_cache idx s) bk))
      else if idx =? cached then
        Some (set_bbo (bbo_set_qty is_bid qty (bbo bk)) (set_side is_bid s bk))
      else Some (set_side is_bid s bk)
  end.

(** [delete_order(market_update, idx)] *)
Definition delete_order (side : Side) (idx : Z) (bk : Book) : option Book :=
  let is_bid := is_bid_of side in
  match update_side idx 0 (get_side is_bid bk) with
  | None => None
  | Some s =>
      if idx =? cached_best_idx s
      then Some (refresh_bbo is_bid (set_side is_bid (with_cache (-1) s) bk))
      else Some (set_side is_bid s bk)
  end.

(** [trade_order(market_update, idx)] *)
Definition trade_order (side : Side) (idx trade_qty : Z) (bk : Book) : option Book :=
  let is_bid := is_bid_of side in
  let bidx := Z.quot idx kBucketSize in
  let off := Z.land idx (kBucketSize - 1) in
  let s := get_side is_bid bk in
  match zget (buckets s) bidx with
  | None => Some bk
  | Some (node, bucket) =>
      let qty := zget (orders bucket) off in
      if is_active qty then
        let left := qty - trade_qty in
        let s1 := with_bucket bidx
                    (Some (node, mkBucket (bitmap bucket) (zset (orders bucket) off left))) s in
        let was_depleted := left <=? 0 in
        match (if was_depleted then update_side idx 0 s1 else Some s1) with
        | None => None
        | Some s2 =>
            if was_depleted && (idx =? cached_best_idx s2)
            then Some (refresh_bbo is_bid (set_side is_bid (with_cache (-1) s2) bk))
            else if idx =? cached_best_idx s2
            then Some (set_bbo (bbo_set_qty is_bid left (bbo bk)) (set_side is_bid s2 bk))
            else Some (set_side is_bid s2 bk)
        end
      else Some bk
  end.

(** The [kClear] branch: every bucket back to its pool, the summaries and the
    best quotes reset; the cached best indices keep their value. *)
Definition clear_buckets (s : SideBook) : SideBook :=
  mkSide ((fun _ => None) <$> buckets s) ((fun _ => 0) <$> summary s) (cached_best_idx s)
    (fold_left (fun p b => match b with Some (node, _) => np_dealloc node p | None => p end)
       (buckets s) (bucket_pool s)).

Definition clear_book (bk : Book) : Book :=
  mkBook (config bk) (clear_buckets (bid_side bk)) (clear_buckets (ask_side bk)) BBO_default.

(** What the book tells the trade engine. *)
Inductive Notification :=
| OnTradeUpdated (md : MarketData)
| OnBookTickerUpdated (md : MarketData)
| OnOrderbookUpdated (ticker : string) (price : Z) (side : Side).

(** [on_market_data_updated(market_update)] *)
Definition on_market_data_updated (md : MarketData) (bk : Book)
    : option (Book * list Notification) :=
  let cfg := config bk in
  if (max_price_int cfg <? md_price md) || (md_price md <? min_price_int cfg)
  then Some (bk, [])
  else
    let idx := price_to_index cfg (md_price md) in
    let updated r :=
      match r with
      | None => None
      | Some bk' =>
          Some (bk', [OnOrderbookUpdated (md_ticker_id md) (md_price md) (md_side md)])
      end in
    match md_type md with
    | MUInvalid => updated (Some bk)
    | MUClear => Some (clear_book bk, [])
    | MUAdd | MUModify => updated (add_order (md_side md) idx (md_qty md) bk)
    | MUCancel => updated (delete_order (md_side md) idx bk)
    | MUTrade => Some (bk, [OnTradeUpdated md])
    | MUBookTicker => Some (bk, [OnBookTickerUpdated md])
    end.
End book.

Arguments SideBook : clear implicits.
Arguments Book : clear implicits.
