(* ===== verification/OrderBookFacts.v ===== *)
(** * Correctness of the bucketed order book

    [represents] relates a side of the book to its specification, a finite map
    from level index to quantity.  The first part proves that [update_side]
    implements the map update and keeps the side well formed, that buckets
    neither leak nor run out, and that the two-level searches find the nearest
    and the best active level.  The second part lifts this to the handler
    [on_market_data_updated] and sequences of messages: the cached best level
    and the published BBO are those of the specification. *)

From S2P Require Import Prelude BitScan MemoryPool Types OrderBook.

Lemma kBucketSize_val : kBucketSize = 4096.
Proof. done. Qed.
Lemma kBucketBitmapWords_val : kBucketBitmapWords = 64.
Proof. done. Qed.

Lemma land_4095 x : Z.land x (kBucketSize - 1) = x mod 4096.
Proof. change (kBucketSize - 1) with (Z.ones 12). by rewrite Z.land_ones. Qed.

(** ** Counting the buckets in use *)

Definition live {A} (l : list (option A)) : Z := zlen (filter is_Some l).

Definition occ {A} (o : option A) : Z := match o with Some _ => 1 | None => 0 end.

Lemma live_insert {A} (l : list (option A)) (i : nat) (o x : option A) :
  l !! i = Some o ->
  live (<[i:=x]> l) = live l - occ o + occ x.
Proof.
  intros Hi. rewrite insert_take_drop by (by eapply lookup_lt_Some).
  rewrite <-(take_drop_middle l i o Hi) at 3.
  unfold live. rewrite !filter_app, !filter_cons, !zlen_app. unfold zlen.
  destruct o, x; repeat case_decide; cbn [length occ]; try lia;
    exfalso; naive_solver eauto using is_Some_None.
Qed.

Lemma live_zset {A} (l : list (option A)) k (x : option A) :
  0 <= k < zlen l ->
  live (zset l k x) = live l - occ (zget l k) + occ x.
Proof.
  intros Hk. unfold zset. rewrite bool_decide_true by lia.
  apply live_insert. by apply zget_Some.
Qed.

Lemma live_le {A} (l : list (option A)) : live l <= zlen l.
Proof. unfold live, zlen. pose proof (length_filter is_Some l). lia. Qed.

Lemma live_lt {A} (l : list (option A)) k :
  0 <= k < zlen l -> zget l k = None -> live l < zlen l.
Proof.
  intros Hk Hn. destruct (decide (live l < zlen l)) as [|Hge]; [done|].
  exfalso. destruct (zget l k) eqn:E; [done|].
  pose proof (zget_Some l k Hk) as Hlk. rewrite E in Hlk.
  rewrite <-(take_drop_middle l _ _ Hlk) in Hge.
  unfold live in Hge. rewrite filter_app, filter_cons, !zlen_app in Hge.
  pose proof (live_le (take (Z.to_nat k) l)). pose proof (live_le (drop (S (Z.to_nat k)) l)).
  unfold live in *. case_decide as Hc; [by apply is_Some_None in Hc|].
  unfold zlen in *. simpl in *. lia.
Qed.

(** The specification of a side is a finite map from prices to quantities. *)
Abbreviation ladder := (gmap Z Z).

(** Setting a price level; a quantity that is not positive removes it. *)
Definition spec_update (price qty : Z) (m : ladder) : ladder :=
  if is_active qty then <[price := qty]> m else delete price m.

Section facts.
Context {P : Type} `{NodePool P}.
Implicit Types (s : SideBook P) (bk : Book P).

(** ** Levels and the representation relation *)

Definition level_in (b : option (Z * Bucket)) (off : Z) : Z :=
  match b with Some (_, bucket) => zget (orders bucket) off | None => 0 end.

(** The quantity resting at level [i]. *)
Definition level (s : SideBook P) (i : Z) : Z :=
  level_in (zget (buckets s) (i / 4096)) (i mod 4096).

Definition active (s : SideBook P) (i : Z) : Prop := 0 <= i /\ 0 < level s i.

(** The ladder holds the active levels of the side; [base] is the price of
    level 0. *)
Definition represents (base : Z) (s : SideBook P) (m : ladder) : Prop :=
  forall price q, m !! price = Some q <-> active s (price - base) /\ q = level s (price - base).

(** ** Well-formedness *)

Record wf_bucket (b : Bucket) : Prop := {
  wb_bitmap : wf_bitmap (bitmap b);
  wb_words : zlen (bitmap b) = 64;
  wb_orders : zlen (orders b) = 4096;
  wb_bit off : bit (bitmap b) off <-> 0 <= off < 4096 /\ 0 < zget (orders b) off;
}.

(** [cap] is the size of the bucket pool of the side. *)
Record wf_side (cap : Z) (s : SideBook P) : Prop := {
  ws_summary : wf_bitmap (summary s);
  ws_len : zlen (buckets s) <= 64 * zlen (summary s);
  ws_pool : np_ok (bucket_pool s);
  ws_bucket k node b : zget (buckets s) k = Some (node, b) ->
    wf_bucket b /\ (exists off, bit (bitmap b) off) /\ np_used (bucket_pool s) node;
  ws_bit k : bit (summary s) k <-> is_Some (zget (buckets s) k);
  ws_inj k k' node b b' : zget (buckets s) k = Some (node, b) ->
    zget (buckets s) k' = Some (node, b') -> k = k';
  ws_used node : np_used (bucket_pool s) node ->
    exists k b, zget (buckets s) k = Some (node, b);
  ws_count : zlen (np_free (bucket_pool s)) + live (buckets s) = cap;
}.

Lemma zero_bucket_no_bit off : ~ bit (bitmap zero_bucket) off.
Proof.
  intros [_ Hb]. revert Hb. unfold zero_bucket; cbn [bitmap].
  destruct (decide (0 <= off / 64 < 64)).
  - rewrite zget_replicate by (rewrite kBucketBitmapWords_val; lia).
    by rewrite Z.testbit_0_l.
  - rewrite zget_out; [by rewrite Z.testbit_0_l|].
    rewrite zlen_replicate, kBucketBitmapWords_val. lia.
Qed.

Lemma zero_bucket_orders off : zget (orders zero_bucket) off = 0.
Proof.
  unfold zero_bucket; cbn [orders].
  destruct (decide (0 <= off < 4096)).
  - apply zget_replicate. rewrite kBucketSize_val. lia.
  - apply zget_out. rewrite zlen_replicate, kBucketSize_val. lia.
Qed.

Lemma wf_zero_bucket : wf_bucket zero_bucket.
Proof.
  split.
  - apply Forall_replicate. done.
  - unfold zero_bucket; cbn [bitmap]. rewrite zlen_replicate. done.
  - unfold zero_bucket; cbn [orders]. rewrite zlen_replicate. done.
  - intros off. rewrite zero_bucket_orders. split; [|lia].
    intros Hb. by apply zero_bucket_no_bit in Hb.
Qed.

Lemma zget_in_range {A} (l : list (option A)) k (x : A) : zget l k = Some x -> 0 <= k < zlen l.
Proof.
  intros Hk. destruct (decide (0 <= k < zlen l)); [done|]. by rewrite zget_out in Hk.
Qed.

Lemma level_range cap s i : wf_side cap s -> active s i -> 0 <= i < 4096 * zlen (buckets s).
Proof.
  intros Hwf [Hi Hl]. unfold level in Hl. split; [done|].
  destruct (zget (buckets s) (i / 4096)) as [[node b]|] eqn:E; simpl in Hl; [|lia].
  apply zget_in_range in E. zdiv.
Qed.

(** ** The update of one bucket *)

Definition put (off qty : Z) (b : Bucket) : Bucket :=
  mkBucket (if is_active qty then set_bit (bitmap b) off else clear_bit (bitmap b) off)
           (zset (orders b) off qty).

Lemma put_wf off qty b : wf_bucket b -> 0 <= off < 4096 -> wf_bucket (put off qty b).
Proof.
  intros [Hbm Hw Ho Hbit] Hoff. assert (Hr : 0 <= off < 64 * zlen (bitmap b)) by lia.
  split; unfold put, is_active; cbn [bitmap orders].
  - destruct (0 <? qty); auto with hft.
  - destruct (0 <? qty); autorewrite with hft_len; done.
  - by autorewrite with hft_len.
  - intros j. rewrite zget_zset by lia.
    destruct (Z.ltb_spec 0 qty); [rewrite bit_set_bit by done | rewrite bit_clear_bit by done];
      rewrite Hbit; case_decide; subst; naive_solver lia.
Qed.

Lemma put_orders off qty b j :
  wf_bucket b -> 0 <= off < 4096 ->
  zget (orders (put off qty b)) j = if decide (off = j) then qty else zget (orders b) j.
Proof. intros Hb Ho. unfold put; cbn. rewrite zget_zset; [done|]. rewrite wb_orders; done. Qed.

Lemma bucket_empty_spec b :
  wf_bucket b -> (bucket_empty b = true <-> forall off, ~ bit (bitmap b) off).
Proof. intros Hb. apply no_bit_words. apply Hb. Qed.

(** ** The update of a side *)

Lemma update_side_eq idx qty s :
  0 <= idx ->
  update_side idx qty s =
  match ensure_bucket (idx / 4096) s with
  | None => None
  | Some (node, b, s1) =>
      let k := idx / 4096 in
      let b' := put (idx mod 4096) qty b in
      if is_active qty then
        Some (mkSide (zset (buckets s1) k (Some (node, b'))) (set_bit (summary s1) k)
                (cached_best_idx s1) (bucket_pool s1))
      else if bucket_empty b' then
        Some (mkSide (zset (buckets s1) k None) (clear_bit (summary s1) k)
                (cached_best_idx s1) (np_dealloc node (bucket_pool s1)))
      else Some (mkSide (zset (buckets s1) k (Some (node, b'))) (summary s1)
                   (cached_best_idx s1) (bucket_pool s1))
  end.
Proof.
  intros Hi. unfold update_side. rewrite land_4095.
  rewrite Z.quot_div_nonneg by (rewrite ?kBucketSize_val; lia). rewrite kBucketSize_val.
  destruct (ensure_bucket _ s) as [[[node b] s1]|]; [|done].
  unfold put, set_summary, clear_summary, with_bucket, with_pool.
  destruct (is_active qty); cbn [buckets summary cached_best_idx bucket_pool];
    rewrite !shiftr_6, !land_63; done.
Qed.

(** A side between [ensure_bucket] and the end of the update: bucket [k] is
    there, possibly still empty and not yet in the summary. *)
Record open_side (cap k node : Z) (b : Bucket) (s : SideBook P) : Prop := {
  os_summary : wf_bitmap (summary s);
  os_len : zlen (buckets s) <= 64 * zlen (summary s);
  os_range : 0 <= k < zlen (buckets s);
  os_pool : np_ok (bucket_pool s);
  os_here : zget (buckets s) k = Some (node, b);
  os_wf : wf_bucket b;
  os_here_bit : (exists off, bit (bitmap b) off) -> bit (summary s) k;
  os_here_used : np_used (bucket_pool s) node;
  os_bucket k' node' b' : k' <> k -> zget (buckets s) k' = Some (node', b') ->
    wf_bucket b' /\ (exists off, bit (bitmap b') off) /\ np_used (bucket_pool s) node';
  os_bit k' : k' <> k -> (bit (summary s) k' <-> is_Some (zget (buckets s) k'));
  os_inj k' node' b' : k' <> k -> zget (buckets s) k' = Some (node', b') -> node' <> node;
  os_inj' k1 k2 node' b1 b2 : zget (buckets s) k1 = Some (node', b1) ->
    zget (buckets s) k2 = Some (node', b2) -> k1 = k2;
  os_used node' : np_used (bucket_pool s) node' ->
    exists k' b', zget (buckets s) k' = Some (node', b');
  os_count : zlen (np_free (bucket_pool s)) + live (buckets s) = cap;
}.

(** Bucket [k] is there or the pool has a node left for it. *)
Definition room (cap : Z) (s : SideBook P) (k : Z) : Prop :=
  is_Some (zget (buckets s) k) \/ live (buckets s) < cap.

Lemma room_enough cap s k :
  0 <= k < zlen (buckets s) -> zlen (buckets s) <= cap -> room cap s k.
Proof.
  intros Hk Hc. unfold room. destruct (zget (buckets s) k) eqn:E; [eauto|].
  right. pose proof (live_lt _ _ Hk E). lia.
Qed.

Lemma ensure_bucket_open cap s k :
  wf_side cap s -> 0 <= k < zlen (buckets s) -> room cap s k ->
  exists node b s1,
    ensure_bucket k s = Some (node, b, s1) /\ open_side cap k node b s1 /\
    (forall off, zget (orders b) off = level_in (zget (buckets s) k) off) /\
    buckets s1 = zset (buckets s) k (Some (node, b)) /\
    summary s1 = summary s /\ cached_best_idx s1 = cached_best_idx s.
Proof.
  intros Hwf Hk Hcap. pose proof Hwf as [Hs Hl Hp Hb Hbit Hinj Hu Hc]. unfold ensure_bucket.
  destruct (zget (buckets s) k) as [[node b]|] eqn:E.
  - exists node, b, s. split_and!; try done.
    + destruct (Hb _ _ _ E) as (? & ? & ?). split; eauto.
      * intros _. rewrite Hbit, E. eauto.
      * intros k' node' b' Hne E' ->. by apply Hne, (Hinj _ _ node b' b).
    + rewrite <-E. symmetry. by apply zset_zget.
  - destruct (np_alloc (bucket_pool s)) as [[node p]|] eqn:Ea.
    + apply np_alloc_Some in Ea as (Hp' & Hf & Hnu & Hu'); [|done].
      assert (Hne : forall k' node' b', zget (buckets s) k' = Some (node', b') -> node' <> node).
      { intros k' node' b' E' ->. by apply Hb in E' as (_ & _ & ?). }
      exists node, zero_bucket, (with_bucket k (Some (node, zero_bucket)) (with_pool p s)).
      split_and!; try done; [|by intros; rewrite zero_bucket_orders].
      assert (Hz : forall j, zget (zset (buckets s) k (Some (node, zero_bucket))) j =
        if decide (k = j) then Some (node, zero_bucket) else zget (buckets s) j)
        by (intros; by apply zget_zset).
      split; cbn; autorewrite with hft_len; try done.
      * by rewrite zget_zset_eq.
      * apply wf_zero_bucket.
      * intros [off Hoff]. by apply zero_bucket_no_bit in Hoff.
      * apply Hu'. by left.
      * intros k' node' b' Hk'. rewrite Hz. case_decide; [congruence|].
        intros E'. apply Hb in E' as (? & ? & ?). rewrite Hu'. auto.
      * intros k' Hk'. rewrite Hz, Hbit. by case_decide; [congruence|].
      * intros k' node' b' Hk'. rewrite Hz. case_decide; [congruence|]. eauto.
      * intros k1 k2 node' b1 b2. rewrite !Hz. repeat case_decide; try congruence;
          [intros [= <- <-] E2 | intros E1 [= <- <-] |]; eauto; exfalso; eapply Hne; eauto.
      * intros node' [->|Hn]%Hu'; [exists k, zero_bucket; by rewrite zget_zset_eq|].
        destruct (Hu _ Hn) as (k' & b' & E'). exists k', b'. rewrite Hz.
        case_decide; [congruence | done].
      * rewrite live_zset by done. rewrite E. cbn [occ]. rewrite Hf in Hc.
        unfold zlen in *. simpl in Hc. lia.
    + exfalso. apply np_alloc_None in Ea; [|done]. rewrite Ea in Hc.
      destruct Hcap as [Hx|Hx]; [rewrite E in Hx; by apply is_Some_None in Hx|].
      unfold zlen at 1 in Hc. simpl in Hc. lia.
Qed.

Section close.
Context (cap k node : Z) (b : Bucket) (s : SideBook P) (Hopen : open_side cap k node b s).

Lemma close_keep b' summary' cached :
  wf_bucket b' -> (exists off, bit (bitmap b') off) ->
  wf_bitmap summary' -> zlen summary' = zlen (summary s) ->
  (forall j, bit summary' j <-> j = k \/ bit (summary s) j) ->
  wf_side cap (mkSide (zset (buckets s) k (Some (node, b'))) summary' cached (bucket_pool s)).
Proof using Hopen.
  intros Hb' Hne Hwf' Hlen' Hbit'. destruct Hopen.
  assert (Hz : forall j, zget (zset (buckets s) k (Some (node, b'))) j =
    if decide (k = j) then Some (node, b') else zget (buckets s) j)
    by (intros; by apply zget_zset).
  split; cbn; autorewrite with hft_len; try done; try lia.
  - intros k' node' b1. rewrite Hz. case_decide; [intros [= <- <-]; auto | eauto].
  - intros k'. rewrite Hz, Hbit'. case_decide; [subst; naive_solver|].
    rewrite os_bit0 by done. naive_solver.
  - intros k1 k2 node' b1 b2. rewrite !Hz. repeat case_decide; try congruence;
      [intros [= <- <-] E2 | intros E1 [= <- <-] |]; eauto; exfalso; eapply os_inj0; eauto.
  - intros node' (k' & b1 & E')%os_used0. destruct (decide (k = k')) as [<-|].
    + rewrite os_here0 in E'. injection E' as [= <- <-]. exists k, b'. by rewrite zget_zset_eq.
    + exists k', b1. by rewrite zget_zset_ne.
  - rewrite live_zset by done. rewrite os_here0. cbn [occ]. lia.
Qed.

Lemma close_drop cached :
  wf_side cap (mkSide (zset (buckets s) k None) (clear_bit (summary s) k) cached
                 (np_dealloc node (bucket_pool s))).
Proof using Hopen.
  destruct Hopen. assert (0 <= k < 64 * zlen (summary s)) by lia.
  assert (Hz : forall j, zget (zset (buckets s) k None) j =
    if decide (k = j) then None else zget (buckets s) j)
    by (intros; by apply zget_zset).
  destruct (np_dealloc_used _ _ os_pool0 os_here_used0) as (Hp' & Hf & Hu').
  split; cbn; autorewrite with hft_len; try done; auto with hft.
  - intros k' node' b1. rewrite Hz. case_decide; [done|]. intros E.
    pose proof (os_bucket0 k' node' b1 ltac:(congruence) E) as (? & ? & ?).
    split_and!; [done..|]. apply Hu'. split; [|done]. eapply os_inj0; eauto.
  - intros k'. rewrite Hz, bit_clear_bit by done. case_decide; subst.
    + split; [intros [? _]; done | by intros ?%is_Some_None].
    + rewrite os_bit0 by done. naive_solver.
  - intros k1 k2 node' b1 b2. rewrite !Hz. repeat case_decide; try congruence. eauto.
  - intros node' [Hn (k' & b1 & E')%os_used0]%Hu'. exists k', b1. rewrite Hz.
    case_decide; [|done]. subst. rewrite os_here0 in E'. congruence.
  - rewrite live_zset by done. rewrite os_here0, Hf. cbn [occ].
    unfold zlen in *. simpl. lia.
Qed.
End close.

(** What an update of level [idx] to [qty] leaves. *)
Record updated (s : SideBook P) (idx qty : Z) (s' : SideBook P) : Prop := {
  up_cached : cached_best_idx s' = cached_best_idx s;
  up_len : zlen (buckets s') = zlen (buckets s);
  up_active i : active s' i <-> if decide (i = idx) then 0 < qty else active s i;
  up_level i : active s' i -> level s' i = if decide (i = idx) then qty else level s i;
}.

Lemma level_split s idx i :
  0 <= idx -> 0 <= i -> i <> idx -> i / 4096 = idx / 4096 -> i mod 4096 <> idx mod 4096.
Proof. intros ? ? Hne Hq Hm. by apply Hne, (eq_split 4096). Qed.

(** Replacing bucket [k] by one with the updated orders. *)
Lemma updated_keep s idx qty node b b' s' :
  0 <= idx -> 0 <= idx / 4096 < zlen (buckets s) ->
  (forall off, zget (orders b) off = level_in (zget (buckets s) (idx / 4096)) off) ->
  (forall off, zget (orders b') off =
     if decide (idx mod 4096 = off) then qty else zget (orders b) off) ->
  buckets s' = zset (buckets s) (idx / 4096) (Some (node, b')) ->
  cached_best_idx s' = cached_best_idx s -> updated s idx qty s'.
Proof.
  intros Hi Hk Hb Hb' Hs' Hc.
  assert (Hlev : forall i, 0 <= i -> level s' i = if decide (i = idx) then qty else level s i).
  { intros i Hi'. unfold level. rewrite Hs', zget_zset by done.
    case_decide as Hq; cbn [level_in].
    - rewrite Hb'. case_decide as Hm; case_decide as He; subst; try done.
      + exfalso. apply He. by apply (eq_split 4096).
      + by rewrite Hb, Hq.
    - case_decide; [by subst | done]. }
  split; [done | by rewrite Hs', zlen_zset | | intros i [? _]; auto].
  intros i. unfold active. destruct (decide (0 <= i)).
  - rewrite Hlev by done. case_decide; tauto.
  - case_decide; [lia | tauto].
Qed.

(** Dropping bucket [k], which has become empty. *)
Lemma updated_drop s idx qty b b' s' :
  0 <= idx -> 0 <= idx / 4096 < zlen (buckets s) -> qty <= 0 ->
  (forall off, zget (orders b) off = level_in (zget (buckets s) (idx / 4096)) off) ->
  (forall off, zget (orders b') off =
     if decide (idx mod 4096 = off) then qty else zget (orders b) off) ->
  (forall off, 0 <= off < 4096 -> zget (orders b') off <= 0) ->
  buckets s' = zset (buckets s) (idx / 4096) None ->
  cached_best_idx s' = cached_best_idx s -> updated s idx qty s'.
Proof.
  intros Hi Hk Hq Hb Hb' Hempty Hs' Hc.
  assert (Hlev : forall i, level s' i =
    if decide (idx / 4096 = i / 4096) then 0 else level s i).
  { intros i. unfold level. rewrite Hs', zget_zset by done. by case_decide. }
  assert (Hact : forall i, active s' i <-> if decide (i = idx) then 0 < qty else active s i).
  { intros i. unfold active. rewrite Hlev. case_decide as Hk'.
    - split; [lia|]. case_decide as He; [lia|]. intros [Hi' Hl]. exfalso.
      assert (0 <= i mod 4096 < 4096) as Hm by (apply Z.mod_pos_bound; lia).
      specialize (Hempty _ Hm). rewrite Hb', decide_False, Hb, Hk' in Hempty.
      + unfold level in Hl. lia.
      + intros e. by eapply (level_split s idx i).
    - case_decide; [by subst | done]. }
  split; [done | by rewrite Hs', zlen_zset | done |].
  intros i Ha. rewrite Hlev. pose proof Ha as [_ Hl]. rewrite Hlev in Hl.
  case_decide; [lia|]. case_decide; [by subst | done].
Qed.

Lemma update_side_spec cap s idx qty :
  wf_side cap s -> 0 <= idx < 4096 * zlen (buckets s) -> room cap s (idx / 4096) ->
  exists s', update_side idx qty s = Some s' /\ wf_side cap s' /\ updated s idx qty s'.
Proof.
  intros Hwf Hi Hcap. assert (Hk : 0 <= idx / 4096 < zlen (buckets s)) by zdiv.
  assert (Hoff : 0 <= idx mod 4096 < 4096) by (apply Z.mod_pos_bound; lia).
  destruct (ensure_bucket_open cap s _ Hwf Hk Hcap)
    as (node & b & s1 & E & Hopen & Hord & Hbs & Hsum & Hcache).
  rewrite update_side_eq, E by lia. cbn zeta. set (k := idx / 4096) in *.
  pose proof Hopen as [? ? ? ? ? Hwb Hbit _ _ _ _ _ _ _].
  assert (Hks : 0 <= k < 64 * zlen (summary s1)) by lia.
  assert (Hput : wf_bucket (put (idx mod 4096) qty b)) by (by apply put_wf).
  assert (Hputo := fun off => put_orders (idx mod 4096) qty b off Hwb Hoff).
  assert (Hset : forall x, zset (buckets s1) k x = zset (buckets s) k x).
  { intros x. rewrite Hbs. unfold zset. case_bool_decide; [by rewrite list_insert_insert_eq | done]. }
  destruct (is_active qty) eqn:Ea; unfold is_active in Ea; zb.
  - eexists. split_and!; [done | |].
    + apply (close_keep _ _ _ _ _ Hopen); autorewrite with hft_len; auto with hft.
      * exists (idx mod 4096). apply Hput. rewrite Hputo, decide_True by done. lia.
      * intros j. by apply bit_set_bit.
    + eapply (updated_keep s idx qty node b); eauto; cbn; first [lia | by rewrite Hset].
  - destruct (bucket_empty _) eqn:Ee; (eexists; split_and!; [done | |]).
    + apply (close_drop _ _ _ _ _ Hopen).
    + rewrite bucket_empty_spec in Ee by done.
      eapply (updated_drop s idx qty b); eauto; cbn; try first [lia | by rewrite Hset].
      intros off Ho. apply Z.nlt_ge. intros Hpos. by apply (Ee off), Hput.
    + pose proof (some_bit_words _ (wb_bitmap _ Hput) Ee) as Hne.
      apply (close_keep _ _ _ _ _ Hopen); auto. intros j. split; [tauto|].
      intros [->|?]; [|done]. apply Hbit. destruct Hne as [off Hb]. exists off.
      apply Hwb. apply Hput in Hb. rewrite Hputo in Hb. case_decide; [lia | done].
    + eapply (updated_keep s idx qty node b); eauto; cbn; first [lia | by rewrite Hset].
Qed.

(** Without room the update dereferences the null result of [allocate]. *)
Lemma update_side_crash cap s idx qty :
  wf_side cap s -> 0 <= idx -> ~ room cap s (idx / 4096) -> update_side idx qty s = None.
Proof.
  intros Hwf Hi Hno. rewrite update_side_eq by done. unfold ensure_bucket, room in *.
  destruct (zget (buckets s) (idx / 4096)) eqn:E; [exfalso; eauto|].
  destruct (np_alloc (bucket_pool s)) as [[node p]|] eqn:Ea; [|done].
  apply np_alloc_Some in Ea as (_ & Hf & _); [|apply Hwf]. exfalso. apply Hno. right.
  pose proof (ws_count _ _ Hwf) as Hc. rewrite Hf in Hc. unfold zlen in Hc. simpl in Hc. lia.
Qed.

Lemma updated_represents base s idx qty s' m :
  updated s idx qty s' -> represents base s m ->
  represents base s' (spec_update (base + idx) qty m).
Proof.
  intros [_ _ Hact Hlev] Hm p q. unfold spec_update, is_active.
  specialize (Hact (p - base)). specialize (Hlev (p - base)). specialize (Hm p q).
  assert (Hp : base + idx = p <-> p - base = idx) by lia.
  destruct (Z.ltb_spec 0 qty); destruct (decide (p - base = idx)) as [He|Hne];
    try (rewrite (proj2 Hp He));
    rewrite ?lookup_insert_eq, ?lookup_delete_eq, ?lookup_insert_ne, ?lookup_delete_ne,
      ?Hm, Hact by tauto.
  all: assert (Hlev' := fun Hx => Hlev (proj2 Hact Hx)); naive_solver lia.
Qed.

(** ** Searches *)

Lemma active_bit cap s i :
  wf_side cap s ->
  (active s i <-> exists node b,
     0 <= i / 4096 /\ zget (buckets s) (i / 4096) = Some (node, b) /\
     bit (bitmap b) (i mod 4096)).
Proof.
  intros Hwf. unfold active, level.
  assert (0 <= i mod 4096 < 4096) by (apply Z.mod_pos_bound; lia). split.
  - intros [Hi Hl]. destruct (zget (buckets s) (i / 4096)) as [[node b]|] eqn:E; simpl in Hl; [|lia].
    exists node, b. split_and!; [zdiv | done |]. apply (ws_bucket _ _ Hwf _ _ _ E). done.
  - intros (node & b & Hk & E & Hb). rewrite E. simpl.
    destruct (ws_bucket _ _ Hwf _ _ _ E) as [Hwb _]. apply Hwb in Hb. split; [zdiv | lia].
Qed.

Section directed.
Context (D : SearchDir) `{!SearchDirLaws D}.

Lemma find_in_bucket_spec b :
  wf_bucket b -> (exists off, bit (bitmap b) off) ->
  extreme D (bit (bitmap b)) (find_in_bucket D b).
Proof using SearchDirLaws0.
  intros Hb [off Hoff]. unfold find_in_bucket.
  pose proof (words_search D _ (wb_bitmap _ Hb) _ _ (all_words_walks D kBucketBitmapWords)
    ltac:(intros w Hw; cbv beta in Hw; lia)) as Hs.
  assert (Hr : forall j, bit (bitmap b) j -> 0 <= j / 64 < kBucketBitmapWords).
  { intros j Hj. apply Hb in Hj as [Hj _]. rewrite kBucketBitmapWords_val. zdiv. }
  destruct (first_some _ _) as [r|].
  - destruct Hs as (Hbr & _ & Hex). split; [done|]. intros j Hj. by apply Hex, Hr.
  - exfalso. eapply Hs, Hr; done.
Qed.

(** The level a bucket index found in the summary leads to. *)
Definition bucket_level (s : SideBook P) (k : Z) : option Z :=
  match zget (buckets s) k with
  | None => None
  | Some (_, b) => Some (k * kBucketSize + find_in_bucket D b)
  end.

Lemma bucket_level_spec cap s k :
  wf_side cap s -> bit (summary s) k ->
  exists r, bucket_level s k = Some r /\ r / 4096 = k /\ active s r /\
    forall j, active s j -> j / 4096 = k -> j = r \/ beyond D r j.
Proof using SearchDirLaws0.
  intros Hwf Hk. pose proof (proj1 (ws_bit _ _ Hwf k) Hk) as [[node b] E].
  destruct (ws_bucket _ _ Hwf _ _ _ E) as (Hwb & Hne & _).
  destruct (find_in_bucket_spec b Hwb Hne) as [Hb Hex].
  unfold bucket_level. rewrite E, kBucketSize_val. eexists. split; [done|].
  set (off := find_in_bucket D b) in *. pose proof (proj1 (wb_bit _ Hwb _) Hb) as [Hoff _].
  destruct (div_mod_combine 4096 k off Hoff) as [Hd Hm]. split_and!; [done | |].
  - apply (active_bit _ _ _ Hwf). exists node, b. rewrite Hd, Hm. split_and!; try done. by apply Hk.
  - intros j Hj Hjk. apply (active_bit _ _ _ Hwf) in Hj as (node' & b' & _ & E' & Hj).
    rewrite Hjk, E in E'. injection E' as <- <-. destruct (Hex _ Hj) as [He|He].
    + left. apply (eq_split 4096); rewrite ?Hd, ?Hm; lia.
    + right. apply (beyond_split D 4096); [lia|]. right. rewrite Hd, Hm. done.
Qed.

Lemma summary_hit_bind s w : summary_hit D s w = word_hit D (summary s) w ≫= bucket_level s.
Proof using Type.
  unfold summary_hit, word_hit, bucket_level. destruct (_ =? 0); [done|]. simpl.
  unfold kWordShift, kBitsPerWord. by rewrite Z.shiftl_mul_pow2.
Qed.

Lemma summary_walk cap s order :
  wf_side cap s -> (forall w, w ∈ order -> 0 <= w) ->
  first_some (summary_hit D s) order =
  first_some (word_hit D (summary s)) order ≫= bucket_level s.
Proof using SearchDirLaws0.
  intros Hwf Hpos. apply first_some_bind; [intros; apply summary_hit_bind|].
  intros w k Hw Hk. apply (word_hit_Some D _ (ws_summary _ _ Hwf)) in Hk as (_ & Hk & _); [|auto].
  destruct (bucket_level_spec cap s k Hwf Hk) as (r & -> & _). eauto.
Qed.

(** The search of [next_active_impl] within the start bucket. *)
Definition in_bucket (s : SideBook P) (start : Z) : option Z :=
  match zget (buckets s) (start / 4096) with
  | None => None
  | Some (_, b) =>
      search_from D (bitmap b) (start mod 4096)
        (iterate_words (start mod 4096 / 64) (if kIsHighest then 0 else 64))
  end.

Lemma next_active_impl_eq cap s start :
  wf_side cap s -> 0 <= start < 4096 * zlen (buckets s) ->
  next_active_impl D s start =
  match in_bucket s start with
  | Some off => start / 4096 * 4096 + off
  | None => default (-1)
      (search_from D (summary s) (start / 4096)
         (iterate_summary (start / 4096 / 64) (zlen (summary s))) ≫= bucket_level s)
  end.
Proof using SearchDirLaws0.
  intros Hwf Hs. unfold next_active_impl. rewrite land_4095.
  rewrite Z.quot_div_nonneg by (rewrite ?kBucketSize_val; lia).
  rewrite kBucketSize_val, kBucketBitmapWords_val. set (k := start / 4096).
  assert (Hk : 0 <= k < zlen (buckets s)) by (subst k; zdiv).
  pose proof (ws_len _ _ Hwf).
  unfold in_bucket. fold k. rewrite !shiftr_6.
  match goal with |- match ?x with _ => _ end = _ => destruct x as [off|] end; [done|].
  unfold search_from. rewrite shiftr_6, land_63.
  destruct (Z.eqb_spec (Z.land (zget (summary s) (k / 64)) (make_mask (k mod 64))) 0).
  - rewrite (summary_walk cap) by (try done; intros w Hw; apply iterate_summary_spec in Hw; zdiv).
    by destruct (first_some _ _ ≫= _).
  - simpl. unfold bucket_level, kWordShift, kBitsPerWord. rewrite Z.shiftl_mul_pow2 by lia.
    change (2 ^ 6) with 64. rewrite kBucketSize_val. by destruct (zget (buckets s) _) as [[? ?]|].
Qed.

(** Nothing in the start bucket beyond the start: what the summary finds. *)
Lemma beyond_bucket cap s start :
  wf_side cap s -> 0 <= start < 4096 * zlen (buckets s) ->
  match in_bucket s start with
  | Some off => nearest D (active s) start (start / 4096 * 4096 + off)
  | None => forall j, active s j -> beyond D start j -> beyond D (start / 4096) (j / 4096)
  end.
Proof using SearchDirLaws0.
  intros Hwf Hs. assert (0 <= start mod 4096 < 4096) as Hoff by (apply Z.mod_pos_bound; lia).
  assert (Hsplit : forall j, active s j -> beyond D start j ->
    beyond D (start / 4096) (j / 4096) \/
    start / 4096 = j / 4096 /\ beyond D (start mod 4096) (j mod 4096)).
  { intros j _ Hj. by apply (beyond_split D 4096). }
  unfold in_bucket. destruct (zget (buckets s) (start / 4096)) as [[node b]|] eqn:E.
  - destruct (ws_bucket _ _ Hwf _ _ _ E) as (Hwb & _ & _).
    assert (Hin : forall j, active s j -> start / 4096 = j / 4096 -> bit (bitmap b) (j mod 4096)).
    { intros j Hj Hk. apply (active_bit _ _ _ Hwf) in Hj as (node' & b' & _ & E' & Hj).
      rewrite <-Hk, E in E'. by injection E' as <- <-. }
    pose proof (search_from_spec D _ (wb_bitmap _ Hwb) (start mod 4096)
      (iterate_words (start mod 4096 / 64) (if kIsHighest then 0 else 64))) as Hsearch.
    rewrite (wb_words _ Hwb) in Hsearch. specialize (Hsearch ltac:(lia)).
    specialize (Hsearch ltac:(apply (iterate_words_walks D); apply div64_range; lia)).
    destruct (search_from _ _ _ _) as [off|].
    + destruct Hsearch as (Hb & Hbit & Hn). pose proof (proj1 (wb_bit _ Hwb _) Hbit) as [Ho _].
      destruct (div_mod_combine 4096 (start / 4096) off Ho) as [Hd Hm]. split_and!.
      * apply (beyond_split D 4096); [lia|]. right. rewrite Hd, Hm. done.
      * apply (active_bit _ _ _ Hwf). exists node, b. rewrite Hd, Hm. split_and!; try done. zdiv.
      * intros j Hj Hb'. destruct (Hsplit j Hj Hb') as [?|[Hk ?]].
        -- right. apply (beyond_split D 4096); [lia|]. left. by rewrite Hd.
        -- destruct (Hn (j mod 4096)) as [He|He]; [by apply Hin | done | |].
           ++ left. apply (eq_split 4096); rewrite ?Hd, ?Hm; lia.
           ++ right. apply (beyond_split D 4096); [lia|]. right. rewrite Hd, Hm. done.
    + intros j Hj Hb'. destruct (Hsplit j Hj Hb') as [?|[Hk ?]]; [done|].
      exfalso. eapply Hsearch; [by apply Hin | done].
  - intros j Hj Hb'. destruct (Hsplit j Hj Hb') as [?|[Hk ?]]; [done|].
    apply (active_bit _ _ _ Hwf) in Hj as (node' & b' & _ & E' & _). congruence.
Qed.

Lemma active_summary cap s j : wf_side cap s -> active s j -> bit (summary s) (j / 4096).
Proof using Type.
  intros Hwf Hj. apply (active_bit _ _ _ Hwf) in Hj as (node & b & _ & E & _).
  apply (ws_bit _ _ Hwf). rewrite E. eauto.
Qed.

(** The two-level search finds the nearest active level, or reports none. *)
Lemma next_active_spec cap s start :
  wf_side cap s -> 0 <= start < 4096 * zlen (buckets s) ->
  nearest D (active s) start (next_active_impl D s start) \/
  next_active_impl D s start = -1 /\ forall j, active s j -> ~ beyond D start j.
Proof using SearchDirLaws0.
  intros Hwf Hs. rewrite (next_active_impl_eq cap) by done.
  pose proof (beyond_bucket cap s start Hwf Hs) as Hbk.
  destruct (in_bucket s start) as [off|]; [by left|].
  assert (Hk : 0 <= start / 4096 < zlen (buckets s)) by zdiv. pose proof (ws_len _ _ Hwf).
  pose proof (search_from_spec D _ (ws_summary _ _ Hwf) (start / 4096)
    (iterate_summary (start / 4096 / 64) (zlen (summary s)))) as Hsearch.
  specialize (Hsearch ltac:(lia) ltac:(apply (iterate_summary_walks D); apply div64_range; lia)).
  destruct (search_from _ _ _ _) as [k|]; simpl.
  - left. destruct Hsearch as (Hb & Hbit & Hn).
    destruct (bucket_level_spec cap s k Hwf Hbit) as (r & Hr & Hrk & Hra & Hrx).
    rewrite Hr. simpl. split_and!; [|done|].
    + apply (beyond_split D 4096); [lia|]. left. by rewrite Hrk.
    + intros j Hj Hsj. destruct (Hn (j / 4096)) as [He|He]; [by eapply active_summary | auto | auto |].
      right. apply (beyond_split D 4096); [lia|]. left. by rewrite Hrk.
  - right. split; [done|]. intros j Hj Hsj. by eapply Hsearch, Hbk; [eapply active_summary|..].
Qed.

(** ** The best level *)

Lemma idx_valid_active cap s i : wf_side cap s -> idx_valid i s = true <-> active s i.
Proof using Type.
  intros Hwf. unfold idx_valid, active, level. destruct (Z.ltb_spec i 0); [split; [done|lia]|].
  rewrite land_4095, Z.quot_div_nonneg by (rewrite ?kBucketSize_val; lia).
  rewrite kBucketSize_val.
  destruct (zget (buckets s) (i / 4096)) as [[node b]|]; simpl; unfold is_active;
    rewrite ?Z.ltb_lt; split; intros; try done; lia.
Qed.

Lemma best_hit_bind cap s w :
  wf_side cap s -> 0 <= w -> best_hit D s w = word_hit D (summary s) w ≫= bucket_level s.
Proof using SearchDirLaws0.
  intros Hwf Hw. pose proof (word_hit_Some D _ (ws_summary _ _ Hwf) w) as Hwh.
  unfold best_hit, word_hit, bucket_level in *. destruct (Z.eqb_spec (zget (summary s) w) 0); [done|].
  simpl. destruct (Hwh _ eq_refl Hw) as (_ & Hbit & _).
  unfold kWordShift, kBitsPerWord in *. rewrite Z.shiftl_mul_pow2 by lia. change (2 ^ 6) with 64.
  apply (ws_bit _ _ Hwf) in Hbit as [[node b] E]. rewrite E.
  destruct (ws_bucket _ _ Hwf _ _ _ E) as (Hwb & Hne & _).
  pose proof (find_in_bucket_spec b Hwb Hne) as [Hb _]. unfold find_in_bucket in *.
  destruct (first_some _ _); [done|]. by destruct Hb.
Qed.

(** A cached index that is still active is the best one. *)
Definition cache_sound (s : SideBook P) : Prop :=
  active s (cached_best_idx s) -> extreme D (active s) (cached_best_idx s).

Lemma best_idx_spec cap s :
  wf_side cap s -> cache_sound s ->
  exists r, best_idx D s = (r, with_cache r s) /\
    (extreme D (active s) r \/ r = -1 /\ forall j, ~ active s j).
Proof using SearchDirLaws0.
  intros Hwf Hc. unfold best_idx.
  destruct (idx_valid (cached_best_idx s) s) eqn:E.
  { pose proof E as E'. rewrite (idx_valid_active cap) in E' by done.
    rewrite (proj2 (Z.leb_le 0 _)) by apply E'. simpl.
    exists (cached_best_idx s). split; [by destruct s | left; by apply Hc]. }
  rewrite andb_false_r.
  assert (Hfs : first_some (best_hit D s) (all_words D (zlen (summary s))) =
    first_some (word_hit D (summary s)) (all_words D (zlen (summary s))) ≫= bucket_level s).
  { apply first_some_bind.
    - intros w Hw. apply (all_words_walks D) in Hw. apply (best_hit_bind cap); [done | lia].
    - intros w k Hw Hk. apply (all_words_walks D) in Hw.
      apply (word_hit_Some D _ (ws_summary _ _ Hwf)) in Hk as (_ & Hk & _); [|lia].
      destruct (bucket_level_spec cap s k Hwf Hk) as (r & -> & _). eauto. }
  rewrite Hfs.
  pose proof (words_search D _ (ws_summary _ _ Hwf) _ _ (all_words_walks D (zlen (summary s)))
    ltac:(intros w Hw; cbv beta in Hw; lia)) as Hs.
  assert (Hin : forall j, active s j -> 0 <= j / 4096 / 64 < zlen (summary s)).
  { intros j Hj. pose proof (bit_range _ _ (ws_summary _ _ Hwf) (active_summary _ _ _ Hwf Hj)). by apply div64_range. }
  destruct (first_some (word_hit D _) _) as [k|]; simpl.
  - destruct Hs as (Hbit & _ & Hex).
    destruct (bucket_level_spec cap s k Hwf Hbit) as (r & Hr & Hrk & Hra & Hrx).
    rewrite Hr. exists r. split; [done|]. left. split; [done|]. intros j Hj.
    destruct (Hex (j / 4096)) as [?|He]; [by eapply active_summary | auto | auto |].
    right. apply (beyond_split D 4096); [lia|]. left. by rewrite Hrk.
  - exists (-1). split; [done|]. right. split; [done|]. intros j Hj.
    eapply Hs; [by eapply active_summary | auto].
Qed.
End directed.
End facts.
