(* ===== verification/OrderBookRefine.v ===== *)
(** * The order book refines a pair of price ladders

    The specification of the book is a map from price to quantity per side;
    [spec_apply] is what a market-data message means for it.  The theorems say
    that [on_market_data_updated] implements it for every sequence of messages,
    that the published BBO is the best price of each ladder, when the handler
    dereferences null, and what the two clear paths do. *)

From S2P Require Import Prelude BitScan MemoryPool Types OrderBook OrderBookFacts.

(** ** Configuration *)

Record cfg_ok (cfg : OrderBookConfig) : Prop := {
  co_min : -2147483648 <= min_price_int cfg;
  co_max : max_price_int cfg < 2147483648;
  co_levels : max_price_int cfg - min_price_int cfg < 4096 * bucket_count cfg;
  co_words : bucket_count cfg <= 64 * summary_words cfg;
  co_count : 0 <= bucket_count cfg;
  co_pool : bucket_pool_size cfg = Z.min (bucket_count cfg) kMaxBucketPoolSize;
}.

Lemma from_ini_ok min max :
  -2147483648 <= min -> min <= max -> max < 2147483648 -> cfg_ok (from_ini min max).
Proof.
  intros. unfold from_ini, kBitsPerWord. rewrite kBucketSize_val.
  split; cbn; try done; rewrite ?Z.quot_div_nonneg by lia; try zdiv.
  assert (0 <= (max - min + 1 + 4096 - 1) / 4096) by zdiv.
  rewrite Z.quot_div_nonneg by lia. revert H2.
  generalize ((max - min + 1 + 4096 - 1) / 4096). intros. zdiv.
Qed.

Lemma price_index cfg price :
  cfg_ok cfg -> min_price_int cfg <= price <= max_price_int cfg ->
  price_to_index cfg price = price - min_price_int cfg /\
  0 <= price_to_index cfg price < 4096 * bucket_count cfg.
Proof.
  intros [] Hp. unfold price_to_index. rewrite i32_small by lia. lia.
Qed.

Lemma beyond_side is_bid i j : beyond (side_dir is_bid) i j <-> if is_bid then j < i else i < j.
Proof. by destruct is_bid. Qed.

Lemma extreme_unique is_bid (Q : Z -> Prop) r r' :
  extreme (side_dir is_bid) Q r -> extreme (side_dir is_bid) Q r' -> r = r'.
Proof.
  intros [H1 H2] [H3 H4]. specialize (H2 _ H3). specialize (H4 _ H1).
  rewrite beyond_side in *. destruct is_bid; lia.
Qed.

Definition bbo_price (is_bid : bool) (b : BBO) : Z := if is_bid then bid_price b else ask_price b.
Definition bbo_qty (is_bid : bool) (b : BBO) : Z := if is_bid then bid_qty b else ask_qty b.

(** ** The specification: two price ladders *)

Record Ladders := mkLadders { bids : ladder; asks : ladder }.

Definition side_ladder (is_bid : bool) (l : Ladders) : ladder := if is_bid then bids l else asks l.

Definition spec_side (side : Side) (price qty : Z) (l : Ladders) : Ladders :=
  if is_bid_of side then mkLadders (spec_update price qty (bids l)) (asks l)
  else mkLadders (bids l) (spec_update price qty (asks l)).

(** What a market-data message means: levels are set and removed, messages
    outside the price range and messages that carry no level are ignored. *)
Definition spec_apply (cfg : OrderBookConfig) (l : Ladders) (md : MarketData) : Ladders :=
  if (max_price_int cfg <? md_price md) || (md_price md <? min_price_int cfg) then l
  else match md_type md with
       | MUAdd | MUModify => spec_side (md_side md) (md_price md) (md_qty md) l
       | MUCancel => spec_side (md_side md) (md_price md) 0 l
       | MUClear => mkLadders ∅ ∅
       | MUInvalid | MUTrade | MUBookTicker => l
       end.

(** [price] is the best price of a ladder and [qty] its quantity; an empty
    ladder quotes the invalid values. *)
Definition best_quote (is_bid : bool) (m : ladder) (price qty : Z) : Prop :=
  (m = ∅ /\ price = kInvalidValue /\ qty = kInvalidValue) \/
  (m !! price = Some qty /\
   forall price' q, m !! price' = Some q -> if is_bid then price' <= price else price <= price').

(** The messages the venue decoders produce for an in-range level: additions
    carry a positive quantity and a clear carries no price. *)
Definition level_msg (cfg : OrderBookConfig) (md : MarketData) : Prop :=
  match md_type md with
  | MUAdd | MUModify => 0 < md_qty md
  | MUClear => md_price md < min_price_int cfg
  | _ => True
  end.

(** ** When the pool of a side is too small *)

(** The bucket of a price, and the buckets the levels of a ladder are in. *)
Definition bucket_of (cfg : OrderBookConfig) (price : Z) : Z := (price - min_price_int cfg) / 4096.
Definition occupied (cfg : OrderBookConfig) (m : ladder) : gset Z :=
  set_map (bucket_of cfg) (dom m).

(** The message sets or removes a level whose bucket holds no level of its side,
    while the levels of that side are in as many buckets as its pool has nodes. *)
Definition crowded (cfg : OrderBookConfig) (l : Ladders) (md : MarketData) : bool :=
  if (max_price_int cfg <? md_price md) || (md_price md <? min_price_int cfg) then false
  else match md_type md with
       | MUAdd | MUModify | MUCancel =>
           let used := occupied cfg (side_ladder (is_bid_of (md_side md)) l) in
           bool_decide (bucket_of cfg (md_price md) ∉ used) &&
           (bucket_pool_size cfg <=? Z.of_nat (size used))
       | _ => false
       end.

(** Some message of the sequence is, when its turn comes. *)
Fixpoint overflows (cfg : OrderBookConfig) (msgs : list MarketData) (l : Ladders) : bool :=
  match msgs with
  | [] => false
  | md :: msgs' => crowded cfg l md || overflows cfg msgs' (spec_apply cfg l md)
  end.

Lemma zget_app_one {A} (l : list (option A)) x k :
  zget (l ++ [x]) k = if decide (k = zlen l) then x else zget l k.
Proof.
  pose proof (zlen_app l [x]) as Hl. change (zlen [x]) with 1 in Hl.
  destruct (decide (0 <= k < zlen l + 1)) as [Hk|Hk].
  - unfold zget. rewrite bool_decide_true by lia. unfold zlen in *. case_decide as E.
    + rewrite lookup_app_r, E, Nat2Z.id, Nat.sub_diag by lia. done.
    + by rewrite lookup_app_l by lia.
  - rewrite !zget_out by lia. pose proof (zlen_nonneg l). rewrite decide_False by lia. done.
Qed.

(** [live] counts the positions that hold something. *)
Lemma live_size {A} (l : list (option A)) (X : gset Z) :
  (forall k, k ∈ X <-> is_Some (zget l k)) -> live l = Z.of_nat (size X).
Proof.
  revert X. induction l as [|x l IH] using rev_ind; intros X HX.
  - assert (X = ∅) as ->; [|done]. apply set_eq. intros k.
    rewrite HX, zget_out by (unfold zlen; simpl; lia). split; [by intros ?%is_Some_None | set_solver].
  - pose proof (IH (X ∖ {[zlen l]})) as Hl. unfold live in *. rewrite filter_app, zlen_app.
    rewrite Hl; clear IH Hl.
    + assert (Hx : zlen l ∈ X <-> is_Some x) by (by rewrite HX, zget_app_one, decide_True).
      rewrite filter_cons. case_decide as Hs.
      * rewrite size_difference by set_solver. rewrite size_singleton.
        assert (size X <> 0%nat); [|unfold zlen; simpl; lia]. intros E%size_empty_inv. set_solver.
      * assert (X ∖ {[zlen l]} = X) as -> by set_solver. unfold zlen; simpl. lia.
    + intros k. rewrite elem_of_difference, HX, zget_app_one, elem_of_singleton.
      case_decide as E; [|naive_solver]. rewrite E, zget_out by lia.
      split; [naive_solver | by intros ?%is_Some_None].
Qed.

Section refine.
Context {P : Type} `{NodePool P}.
Implicit Types (s : SideBook P) (bk : Book P).

(** ** The invariant *)

(** The cached index is the best active level, or -1 when there is none. *)
Definition cache_ok (is_bid : bool) (s : SideBook P) : Prop :=
  extreme (side_dir is_bid) (active s) (cached_best_idx s) \/
  cached_best_idx s = -1 /\ forall j, ~ active s j.

(** The quoted price and quantity are those of the cached level. *)
Definition quote_ok (cfg : OrderBookConfig) (s : SideBook P) (price qty : Z) : Prop :=
  if cached_best_idx s <? 0 then price = kInvalidValue /\ qty = kInvalidValue
  else price = index_to_price cfg (cached_best_idx s) /\ qty = level s (cached_best_idx s).

Record side_ok (cfg : OrderBookConfig) (is_bid : bool) (s : SideBook P) (price qty : Z) : Prop := {
  so_wf : wf_side (bucket_pool_size cfg) s;
  so_len : zlen (buckets s) = bucket_count cfg;
  so_cache : cache_ok is_bid s;
  so_quote : quote_ok cfg s price qty;
}.

Definition book_ok (bk : Book P) : Prop :=
  cfg_ok (config bk) /\
  forall is_bid, side_ok (config bk) is_bid (get_side is_bid bk)
                   (bbo_price is_bid (bbo bk)) (bbo_qty is_bid (bbo bk)).

Lemma wf_with_cache cap i s : wf_side cap s -> wf_side cap (with_cache i s).
Proof. by intros []. Qed.

Lemma cache_ok_sound is_bid s : cache_ok is_bid s -> cache_sound (side_dir is_bid) s.
Proof. intros [?|[_ Hno]] Ha; [done | by apply Hno in Ha]. Qed.

Lemma cache_idx is_bid s : cache_ok is_bid s ->
  (0 <= cached_best_idx s /\ extreme (side_dir is_bid) (active s) (cached_best_idx s)) \/
  cached_best_idx s = -1 /\ forall j, ~ active s j.
Proof. intros [Hx|?]; [left; split; [apply Hx | done] | by right]. Qed.

(** ** Adding a level *)

Lemma cache_add is_bid s idx qty s' :
  cache_ok is_bid s -> updated s idx qty s' -> 0 <= idx -> 0 < qty ->
  extreme (side_dir is_bid) (active s')
    (if (cached_best_idx s <? 0) || (if is_bid then cached_best_idx s <? idx else idx <? cached_best_idx s)
     then idx else cached_best_idx s).
Proof.
  intros Hc [_ _ Hact _] Hi Hq.
  assert (Hidx : active s' idx) by (rewrite Hact, decide_True; done).
  assert (Hkeep : forall j, active s' j -> j = idx \/ active s j).
  { intros j Hj. apply Hact in Hj. case_decide; auto. }
  assert (Hold : forall j, active s j -> active s' j).
  { intros j Hj. rewrite Hact. case_decide; done. }
  destruct (cache_idx _ _ Hc) as [[Hc0 [Hca Hex]]|[-> Hno]].
  - rewrite (proj2 (Z.ltb_ge _ 0) Hc0). simpl.
    assert (Hex' : forall j, active s' j -> j = idx \/ j = cached_best_idx s \/
      (if is_bid then j < cached_best_idx s else cached_best_idx s < j)).
    { intros j [->|Hj]%Hkeep; [by left|]. right. specialize (Hex _ Hj).
      by rewrite beyond_side in Hex. }
    destruct (if is_bid then _ else _) eqn:E; split; auto; intros j Hj;
      specialize (Hex' j Hj); rewrite beyond_side; destruct is_bid; zb; lia.
  - simpl. split; [done|]. intros j [->|Hj]%Hkeep; [by left | by apply Hno in Hj].
Qed.

Lemma add_side_ok cfg is_bid s price qty0 idx qty s' :
  side_ok cfg is_bid s price qty0 -> wf_side (bucket_pool_size cfg) s' ->
  updated s idx qty s' -> 0 <= idx -> 0 < qty ->
  if (cached_best_idx s' <? 0) ||
     (if is_bid then cached_best_idx s' <? idx else idx <? cached_best_idx s')
  then side_ok cfg is_bid (with_cache idx s') (index_to_price cfg idx) qty
  else if idx =? cached_best_idx s' then side_ok cfg is_bid s' price qty
  else side_ok cfg is_bid s' price qty0.
Proof.
  intros [_ Hlen Hc Hqt] Hwf' Hup Hi Hq. pose proof (cache_add _ _ _ _ _ Hc Hup Hi Hq) as Hx.
  pose proof Hup as [Hcach Hlen' Hact Hlev]. rewrite Hcach.
  destruct (_ || _) eqn:E.
  - split; [by apply wf_with_cache | by rewrite <-Hlen, <-Hlen' | by left |].
    unfold quote_ok; simpl. rewrite (proj2 (Z.ltb_ge _ 0) Hi). split; [done|].
    change (level (with_cache idx s') idx) with (level s' idx).
    rewrite Hlev, decide_True by (done || apply Hx). done.
  - apply orb_false_iff in E as [E1 E2].
    assert (Hq' : price = index_to_price cfg (cached_best_idx s) /\ qty0 = level s (cached_best_idx s)).
    { unfold quote_ok in Hqt. by rewrite E1 in Hqt. }
    destruct Hq' as [-> ->].
    destruct (Z.eqb_spec idx (cached_best_idx s)) as [He|He];
      (split; [done | congruence | left; by rewrite Hcach |]);
      unfold quote_ok; rewrite Hcach, E1; (split; [done|]);
      rewrite Hlev by apply Hx; case_decide; congruence.
Qed.

(** ** Deleting a level *)

Lemma best_idx_cached is_bid cap s :
  wf_side cap s -> cache_ok is_bid s ->
  best_idx (side_dir is_bid) s = (cached_best_idx s, s).
Proof.
  intros Hwf Hc.
  destruct (best_idx_spec (side_dir is_bid) _ s Hwf (cache_ok_sound _ _ Hc)) as (r & -> & Hr).
  assert (r = cached_best_idx s) as ->; [|by destruct s].
  destruct Hc as [Hx|[-> Hno]], Hr as [Hx'|[-> Hno']]; try done.
  - by eapply extreme_unique.
  - by destruct (Hno' _ (proj1 Hx)).
  - by destruct (Hno _ (proj1 Hx')).
Qed.

Lemma best_qty_cached is_bid cap s :
  wf_side cap s -> cache_ok is_bid s ->
  best_qty (side_dir is_bid) s =
  (if cached_best_idx s <? 0 then kInvalidValue else level s (cached_best_idx s), s).
Proof.
  intros Hwf Hc. unfold best_qty. rewrite (best_idx_cached _ cap) by done.
  destruct (Z.ltb_spec (cached_best_idx s) 0); [done|]. unfold level.
  rewrite land_4095, Z.quot_div_nonneg by (rewrite ?kBucketSize_val; lia). rewrite kBucketSize_val.
  by destruct (zget (buckets s) (cached_best_idx s / 4096)) as [[node b]|].
Qed.

(** A refresh restores the cache and the quote of its side. *)
Lemma refresh_side cfg is_bid s :
  wf_side (bucket_pool_size cfg) s -> zlen (buckets s) = bucket_count cfg ->
  cache_sound (side_dir is_bid) s ->
  exists r price qty,
    best_price cfg (side_dir is_bid) s = (price, with_cache r s) /\
    best_qty (side_dir is_bid) (with_cache r s) = (qty, with_cache r s) /\
    side_ok cfg is_bid (with_cache r s) price qty.
Proof.
  intros Hwf Hlen Hs.
  destruct (best_idx_spec (side_dir is_bid) _ s Hwf Hs) as (r & Hr & Hcase).
  assert (Hc : cache_ok is_bid (with_cache r s)) by exact Hcase.
  assert (Hwf' := wf_with_cache _ r _ Hwf).
  eexists r, _, _. split_and!; [unfold best_price; by rewrite Hr | by eapply best_qty_cached |].
  split; try done. unfold quote_ok; simpl.
  destruct (Z.ltb_spec r 0), (Z.leb_spec 0 r); try lia; done.
Qed.

Lemma delete_side_ok cfg is_bid s price qty0 idx s' :
  side_ok cfg is_bid s price qty0 -> wf_side (bucket_pool_size cfg) s' ->
  updated s idx 0 s' -> idx <> cached_best_idx s -> side_ok cfg is_bid s' price qty0.
Proof.
  intros [_ Hlen Hc Hqt] Hwf' [Hcach Hlen' Hact Hlev] Hne.
  assert (Hsub : forall j, active s' j <-> j <> idx /\ active s j).
  { intros j. rewrite Hact. case_decide; [lia|]. tauto. }
  split; [done | congruence | |].
  - unfold cache_ok. rewrite Hcach. destruct Hc as [[Hx1 Hx2]|[-> Hno]]; [left|right].
    + split; [apply Hsub; auto|]. intros j [_ ?]%Hsub. auto.
    + split; [done|]. intros j [_ ?%Hno]%Hsub. done.
  - unfold quote_ok in *. rewrite Hcach. destruct (_ <? 0) eqn:E; [done|].
    destruct Hqt as [? ->]. split; [done|]. symmetry.
    destruct (cache_idx _ _ Hc) as [[_ [Hx _]]|[Hx _]]; [|zb; lia].
    rewrite Hlev by (by apply Hsub). by case_decide; [congruence|].
Qed.

(** ** The book *)

Lemma book_ok_set is_bid s bk price qty :
  book_ok bk -> side_ok (config bk) is_bid s price qty ->
  book_ok (set_bbo (bbo_set is_bid price qty (bbo bk)) (set_side is_bid s bk)).
Proof. intros [Hcfg Hb] Hs. split; [by destruct is_bid|]. intros []; specialize (Hb true) as Hb1;
  specialize (Hb false) as Hb2; destruct is_bid; done. Qed.

Lemma bbo_set_same is_bid b :
  bbo_set is_bid (bbo_price is_bid b) (bbo_qty is_bid b) b = b.
Proof. by destruct b, is_bid. Qed.

Lemma bbo_set_qty_eq is_bid qty b :
  bbo_set_qty is_bid qty b = bbo_set is_bid (bbo_price is_bid b) qty b.
Proof. by destruct is_bid. Qed.

Lemma set_side_bbo is_bid s bk :
  set_side is_bid s bk =
  set_bbo (bbo_set is_bid (bbo_price is_bid (bbo bk)) (bbo_qty is_bid (bbo bk)) (bbo bk))
    (set_side is_bid s bk).
Proof. rewrite bbo_set_same. by destruct is_bid. Qed.

(** The side of [bk] that a message is about becomes [spec_update]d, the other
    one is untouched. *)
Definition side_steps (is_bid : bool) (bk bk' : Book P) (idx qty : Z) : Prop :=
  config bk' = config bk /\
  get_side (negb is_bid) bk' = get_side (negb is_bid) bk /\
  forall base m, represents base (get_side is_bid bk) m ->
    represents base (get_side is_bid bk') (spec_update (base + idx) qty m).

Lemma side_steps_set is_bid bk s i idx qty b :
  0 <= idx -> updated (get_side is_bid bk) idx qty s ->
  side_steps is_bid bk (set_bbo b (set_side is_bid (with_cache i s) bk)) idx qty.
Proof.
  intros Hi Hu. split_and!; [by destruct is_bid | by destruct is_bid |].
  intros base m Hm. apply (updated_represents _ _ _ _ _ _ Hu) in Hm. by destruct is_bid.
Qed.

Lemma side_steps_keep is_bid bk s idx qty b :
  0 <= idx -> updated (get_side is_bid bk) idx qty s ->
  side_steps is_bid bk (set_bbo b (set_side is_bid s bk)) idx qty.
Proof. intros ? Hu. pose proof (side_steps_set _ _ _ (cached_best_idx s) _ _ b H0 Hu). by destruct s. Qed.

Lemma get_set_side is_bid s bk : get_side is_bid (set_side is_bid s bk) = s.
Proof. by destruct is_bid. Qed.

Lemma set_side_twice is_bid s i j price qty bk :
  set_bbo (bbo_set is_bid price qty (bbo (set_side is_bid (with_cache i s) bk)))
    (set_side is_bid (with_cache j (with_cache i s)) (set_side is_bid (with_cache i s) bk)) =
  set_bbo (bbo_set is_bid price qty (bbo bk)) (set_side is_bid (with_cache j s) bk).
Proof. by destruct is_bid. Qed.

(** Room for the bucket of [idx], on the side a message is about. *)
Definition has_room (side : Side) (idx : Z) (bk : Book P) : Prop :=
  room (bucket_pool_size (config bk)) (get_side (is_bid_of side) bk) (idx / 4096).

Lemma add_order_ok side idx qty bk :
  book_ok bk -> 0 <= idx < 4096 * bucket_count (config bk) -> 0 < qty -> has_room side idx bk ->
  exists bk', add_order side idx qty bk = Some bk' /\ book_ok bk' /\
    side_steps (is_bid_of side) bk bk' idx qty.
Proof.
  intros Hok Hi Hq Hroom. unfold add_order. set (is_bid := is_bid_of side) in *.
  pose proof (proj2 Hok is_bid) as Hs.
  destruct (update_side_spec _ _ idx qty (so_wf _ _ _ _ _ Hs)) as (s' & -> & Hwf' & Hup);
    [rewrite (so_len _ _ _ _ _ Hs); lia | done |].
  pose proof (add_side_ok _ _ _ _ _ _ _ _ Hs Hwf' Hup ltac:(lia) Hq) as Hok'.
  destruct (_ || _); [|destruct (idx =? _)]; eexists; (split; [done|]);
    rewrite ?bbo_set_qty_eq; try rewrite set_side_bbo; (split; [by apply book_ok_set|]).
  - apply side_steps_set; done || lia.
  - apply side_steps_keep; done || lia.
  - apply side_steps_keep; done || lia.
Qed.

Lemma delete_order_ok side idx bk :
  book_ok bk -> 0 <= idx < 4096 * bucket_count (config bk) -> has_room side idx bk ->
  exists bk', delete_order side idx bk = Some bk' /\ book_ok bk' /\
    side_steps (is_bid_of side) bk bk' idx 0.
Proof.
  intros Hok Hi Hroom. unfold delete_order. set (is_bid := is_bid_of side) in *.
  pose proof (proj2 Hok is_bid) as Hs. pose proof (so_len _ _ _ _ _ Hs) as Hlen.
  destruct (update_side_spec _ _ idx 0 (so_wf _ _ _ _ _ Hs)) as (s' & -> & Hwf' & Hup);
    [lia | done |].
  destruct (Z.eqb_spec idx (cached_best_idx s')) as [He|He]; eexists; (split; [done|]).
  - unfold refresh_bbo. rewrite get_set_side.
    replace (config (set_side is_bid (with_cache (-1) s') bk)) with (config bk) by (by destruct is_bid).
    destruct (refresh_side (config bk) is_bid (with_cache (-1) s')) as (r & price & qty & -> & -> & Hok').
    + by apply wf_with_cache.
    + rewrite <-Hlen. apply Hup.
    + intros [Hneg _]. simpl in Hneg. lia.
    + rewrite set_side_twice.
      split; [by apply book_ok_set | apply side_steps_set; done || lia].
  - rewrite set_side_bbo. split.
    + apply book_ok_set; [done|]. eapply delete_side_ok; eauto.
      rewrite <-(up_cached _ _ _ _ Hup). done.
    + apply side_steps_keep; done || lia.
Qed.

(** ** Messages *)

Definition book_represents (bk : Book P) (l : Ladders) : Prop :=
  forall is_bid, represents (min_price_int (config bk)) (get_side is_bid bk) (side_ladder is_bid l).

(** The handler over a sequence of messages, with the notifications it makes. *)
Fixpoint feed (msgs : list MarketData) (bk : Book P) : option (Book P * list Notification) :=
  match msgs with
  | [] => Some (bk, [])
  | md :: msgs' =>
      match on_market_data_updated md bk with
      | None => None
      | Some (bk', notes) =>
          match feed msgs' bk' with
          | None => None
          | Some (bk'', notes') => Some (bk'', notes ++ notes')
          end
      end
  end.

Lemma side_steps_represents side bk bk' price qty l :
  side_steps (is_bid_of side) bk bk' (price - min_price_int (config bk)) qty ->
  book_represents bk l -> book_represents bk' (spec_side side price qty l).
Proof.
  intros (Hcfg & Hother & Hup) Hl is_bid. rewrite Hcfg. unfold spec_side.
  destruct (decide (is_bid = is_bid_of side)) as [->|Hne].
  - specialize (Hup _ _ (Hl (is_bid_of side))).
    replace (min_price_int (config bk) + (price - min_price_int (config bk))) with price in Hup by lia.
    by destruct (is_bid_of side).
  - specialize (Hl is_bid). replace (negb (is_bid_of side)) with is_bid in Hother
      by (by destruct is_bid, (is_bid_of side)).
    rewrite Hother. by destruct is_bid, (is_bid_of side).
Qed.

#[local] Instance room_dec cap s k : Decision (room cap s k).
Proof. unfold room. apply _. Defined.

Lemma no_room_pool side idx bk :
  book_ok bk -> 0 <= idx < 4096 * bucket_count (config bk) -> ~ has_room side idx bk ->
  kMaxBucketPoolSize < bucket_count (config bk).
Proof.
  intros Hok Hi Hno. pose proof (proj2 Hok (is_bid_of side)) as Hs.
  pose proof (so_len _ _ _ _ _ Hs) as Hlen. destruct (proj1 Hok) as [_ _ _ _ _ Hpool].
  destruct (decide (zlen (buckets (get_side (is_bid_of side) bk)) <= bucket_pool_size (config bk)));
    [|lia].
  exfalso. apply Hno, room_enough; [zdiv | done].
Qed.

Lemma crash side idx bk :
  book_ok bk -> 0 <= idx -> ~ has_room side idx bk ->
  forall qty, update_side idx qty (get_side (is_bid_of side) bk) = None.
Proof.
  intros Hok Hi Hno qty. eapply update_side_crash; [apply (proj2 Hok) | done | done].
Qed.

Lemma spec_apply_in cfg l md :
  (max_price_int cfg <? md_price md) || (md_price md <? min_price_int cfg) = false ->
  spec_apply cfg l md =
  match md_type md with
  | MUAdd | MUModify => spec_side (md_side md) (md_price md) (md_qty md) l
  | MUCancel => spec_side (md_side md) (md_price md) 0 l
  | MUClear => mkLadders ∅ ∅
  | MUInvalid | MUTrade | MUBookTicker => l
  end.
Proof. unfold spec_apply. by intros ->. Qed.

(** [r] is the book after a message whose meaning for the ladders is [f], or a
    crash that a pool as large as the bucket table excludes. *)
Definition follows (bk : Book P) (r : option (Book P)) (f : Ladders -> Ladders) : Prop :=
  match r with
  | Some bk' => book_ok bk' /\ config bk' = config bk /\
      forall l, book_represents bk l -> book_represents bk' (f l)
  | None => kMaxBucketPoolSize < bucket_count (config bk)
  end.

Lemma follows_add side price qty bk :
  book_ok bk -> 0 < qty -> min_price_int (config bk) <= price <= max_price_int (config bk) ->
  follows bk (add_order side (price - min_price_int (config bk)) qty bk) (spec_side side price qty).
Proof.
  intros Hok Hq Hp. pose proof (co_levels _ (proj1 Hok)).
  set (idx := price - min_price_int (config bk)).
  assert (Hidx : 0 <= idx < 4096 * bucket_count (config bk)) by lia.
  destruct (decide (has_room side idx bk)) as [Hr|Hr].
  - destruct (add_order_ok _ _ _ _ Hok Hidx Hq Hr) as (bk' & -> & Hok' & Hst).
    split_and!; [done | apply Hst | intros l; by apply side_steps_represents].
  - unfold add_order. rewrite crash by (done || lia). by eapply no_room_pool.
Qed.

Lemma follows_delete side price bk :
  book_ok bk -> min_price_int (config bk) <= price <= max_price_int (config bk) ->
  follows bk (delete_order side (price - min_price_int (config bk)) bk) (spec_side side price 0).
Proof.
  intros Hok Hp. pose proof (co_levels _ (proj1 Hok)).
  set (idx := price - min_price_int (config bk)).
  assert (Hidx : 0 <= idx < 4096 * bucket_count (config bk)) by lia.
  destruct (decide (has_room side idx bk)) as [Hr|Hr].
  - destruct (delete_order_ok _ _ _ Hok Hidx Hr) as (bk' & -> & Hok' & Hst).
    split_and!; [done | apply Hst | intros l; by apply side_steps_represents].
  - unfold delete_order. rewrite crash by (done || lia). by eapply no_room_pool.
Qed.

(** One message. *)
Lemma message_step md bk :
  book_ok bk -> level_msg (config bk) md ->
  follows bk (fst <$> on_market_data_updated md bk) (fun l => spec_apply (config bk) l md).
Proof.
  intros Hok Hmsg. unfold on_market_data_updated.
  destruct ((max_price_int (config bk) <? _) || _) eqn:E.
  { split_and!; [done | done |]. intros l Hl. unfold spec_apply. by rewrite E. }
  unfold follows, spec_apply. rewrite E. apply orb_false_iff in E as [E1 E2]. zb.
  destruct (price_index (config bk) (md_price md) (proj1 Hok) ltac:(lia)) as [-> _].
  unfold level_msg in Hmsg. destruct (md_type md); try done; try lia.
  - pose proof (follows_add (md_side md) _ _ _ Hok Hmsg (conj E2 E1)) as Hf.
    by destruct (add_order _ _ _ _).
  - pose proof (follows_add (md_side md) _ _ _ Hok Hmsg (conj E2 E1)) as Hf.
    by destruct (add_order _ _ _ _).
  - pose proof (follows_delete (md_side md) _ _ Hok (conj E2 E1)) as Hf.
    by destruct (delete_order _ _ _).
Qed.

Lemma feed_steps msgs bk :
  book_ok bk -> Forall (level_msg (config bk)) msgs ->
  follows bk (fst <$> feed msgs bk) (fun l => fold_left (spec_apply (config bk)) msgs l).
Proof.
  revert bk. induction msgs as [|md msgs IH]; intros bk Hok Hmsgs; [done|].
  apply Forall_cons in Hmsgs as [Hmd Hmsgs]. simpl.
  pose proof (message_step md bk Hok Hmd) as Hstep. unfold follows in Hstep.
  destruct (on_market_data_updated md bk) as [[bk' notes]|]; [|done]. simpl in Hstep.
  destruct Hstep as (Hok' & Hcfg & Hl). rewrite <-Hcfg in Hmsgs.
  specialize (IH bk' Hok' Hmsgs). unfold follows in *. rewrite <-Hcfg.
  destruct (feed msgs bk') as [[bk'' notes']|]; [|done]. simpl in *.
  destruct IH as (? & ? & Hl'). split_and!; [done | congruence |].
  intros l Hr. apply Hl'. rewrite Hcfg. by apply Hl.
Qed.

(** ** When the feed fails *)

(** The buckets of a side are those the levels of its ladder are in. *)
Lemma occupied_buckets cfg cap s m k :
  wf_side cap s -> represents (min_price_int cfg) s m ->
  k ∈ occupied cfg m <-> is_Some (zget (buckets s) k).
Proof.
  intros Hwf Hm. unfold occupied. rewrite elem_of_map. split.
  - intros (price & -> & [q [Ha _]%Hm]%elem_of_dom).
    apply (active_bit _ _ _ Hwf) in Ha as (node & b & _ & E & _). unfold bucket_of. eauto.
  - intros [[node b] E]. pose proof (zget_in_range _ _ _ E) as Hk.
    destruct (ws_bucket _ _ Hwf _ _ _ E) as (Hb & (off & Hoff) & _).
    assert (Ho : 0 <= off < 4096) by (by apply (wb_bit _ Hb)).
    exists (min_price_int cfg + (4096 * k + off)). unfold bucket_of. split; [zdiv|].
    apply elem_of_dom. exists (level s (4096 * k + off)). apply Hm.
    replace (_ - min_price_int cfg) with (4096 * k + off) by lia. split; [|done].
    apply (active_bit _ _ _ Hwf). exists node, b.
    replace ((4096 * k + off) / 4096) with k by zdiv.
    replace ((4096 * k + off) mod 4096) with off by zdiv. split_and!; [lia | done | done].
Qed.

Lemma crowded_no_room side price bk l :
  book_ok bk -> book_represents bk l ->
  let used := occupied (config bk) (side_ladder (is_bid_of side) l) in
  bool_decide (bucket_of (config bk) price ∉ used) &&
    (bucket_pool_size (config bk) <=? Z.of_nat (size used)) = true <->
  ~ has_room side (price - min_price_int (config bk)) bk.
Proof.
  intros Hok Hl used. pose proof (so_wf _ _ _ _ _ (proj2 Hok (is_bid_of side))) as Hwf.
  pose proof (fun k => occupied_buckets _ _ _ _ k Hwf (Hl (is_bid_of side))) as Hocc.
  unfold has_room, room. rewrite (live_size _ _ Hocc), <-Hocc. fold used.
  rewrite andb_true_iff, bool_decide_eq_true, Z.leb_le. unfold bucket_of. 
  rewrite <-Z.nlt_ge. tauto.
Qed.

Lemma add_fails side idx qty bk :
  book_ok bk -> 0 <= idx < 4096 * bucket_count (config bk) -> 0 < qty ->
  add_order side idx qty bk = None <-> ~ has_room side idx bk.
Proof.
  intros Hok Hi Hq. split.
  - intros Hn Hr. destruct (add_order_ok _ _ _ _ Hok Hi Hq Hr) as (bk' & E & _). congruence.
  - intros Hr. unfold add_order. by rewrite crash by (done || lia).
Qed.

Lemma delete_fails side idx bk :
  book_ok bk -> 0 <= idx < 4096 * bucket_count (config bk) ->
  delete_order side idx bk = None <-> ~ has_room side idx bk.
Proof.
  intros Hok Hi. split.
  - intros Hn Hr. destruct (delete_order_ok _ _ _ Hok Hi Hr) as (bk' & E & _). congruence.
  - intros Hr. unfold delete_order. by rewrite crash by (done || lia).
Qed.

(** A message the book fails on is one that finds the pool of its side empty. *)
Lemma message_fails md bk l :
  book_ok bk -> level_msg (config bk) md -> book_represents bk l ->
  on_market_data_updated md bk = None <-> crowded (config bk) l md = true.
Proof.
  intros Hok Hmsg Hl. unfold on_market_data_updated, crowded.
  destruct ((max_price_int (config bk) <? _) || _) eqn:E; [done|].
  apply orb_false_iff in E as [E1 E2]. zb.
  destruct (price_index (config bk) (md_price md) (proj1 Hok) ltac:(lia)) as [Hpi Hi].
  pose proof (crowded_no_room (md_side md) (md_price md) bk l Hok Hl) as Hc. cbn zeta in Hc.
  rewrite <-Hpi in Hc. unfold level_msg in Hmsg.
  destruct (md_type md); try done; try lia; rewrite Hc.
  - rewrite <-add_fails by done. by destruct (add_order _ _ _ _).
  - rewrite <-add_fails by done. by destruct (add_order _ _ _ _).
  - rewrite <-delete_fails by done. by destruct (delete_order _ _ _).
Qed.

Lemma feed_fails msgs bk l :
  book_ok bk -> Forall (level_msg (config bk)) msgs -> book_represents bk l ->
  feed msgs bk = None <-> overflows (config bk) msgs l = true.
Proof.
  revert bk l. induction msgs as [|md msgs IH]; intros bk l Hok Hmsgs Hl; [done|].
  apply Forall_cons in Hmsgs as [Hmd Hmsgs]. simpl. rewrite orb_true_iff, <-message_fails by done.
  pose proof (message_step md bk Hok Hmd) as Hstep. unfold follows in Hstep.
  destruct (on_market_data_updated md bk) as [[bk' notes]|]; [|tauto]. simpl in Hstep.
  destruct Hstep as (Hok' & Hcfg & Hs). rewrite <-Hcfg in Hmsgs.
  specialize (IH bk' _ Hok' Hmsgs (Hs _ Hl)). rewrite Hcfg in IH. rewrite <-IH.
  destruct (feed msgs bk') as [[bk'' notes']|]; naive_solver.
Qed.

(** ** The quoted prices *)

Lemma book_quotes bk l is_bid :
  book_ok bk -> book_represents bk l ->
  best_quote is_bid (side_ladder is_bid l) (bbo_price is_bid (bbo bk)) (bbo_qty is_bid (bbo bk)).
Proof.
  intros Hok Hl. destruct (proj2 Hok is_bid) as [Hwf _ Hc Hq]. specialize (Hl is_bid).
  set (s := get_side is_bid bk) in *. set (base := min_price_int (config bk)) in *.
  unfold quote_ok in Hq. destruct (cache_idx _ _ Hc) as [[H0 [Ha Hx]]|[Hn Hno]].
  - rewrite (proj2 (Z.ltb_ge _ 0) H0) in Hq. destruct Hq as [-> ->]. right. unfold index_to_price.
    change (min_price_int (config bk)) with base. split.
    + apply Hl. by replace (base + cached_best_idx s - base) with (cached_best_idx s) by lia.
    + intros p q [Hp _]%Hl. specialize (Hx _ Hp). rewrite beyond_side in Hx. destruct is_bid; lia.
  - rewrite Hn in Hq. left. split; [|done]. apply map_empty. intros p.
    destruct (side_ladder is_bid l !! p) eqn:E; [|done]. apply Hl in E as [E _]. by apply Hno in E.
Qed.

(** ** A new book *)

(** A pool of [n] nodes, none handed out. *)
Definition fresh_pool (n : Z) (p : P) : Prop :=
  np_ok p /\ zlen (np_free p) = n /\ forall k, ~ np_used p k.

Lemma live_replicate {A} n : live (replicate n (@None A)) = 0.
Proof. unfold live. induction n as [|n IH]; [done|]. simpl. by rewrite filter_cons, decide_False
  by apply is_Some_None. Qed.

Lemma zget_replicate_None {A} n k : zget (replicate n (@None A)) k = None.
Proof.
  destruct (decide (0 <= k < Z.of_nat n)); [by apply zget_replicate|].
  apply zget_out. by rewrite zlen_replicate.
Qed.

Lemma bit_zeros n i : ~ bit (replicate n 0) i.
Proof.
  intros [_ Hb]. destruct (decide (0 <= i / 64 < Z.of_nat n)).
  - by rewrite zget_replicate, Z.testbit_0_l in Hb.
  - rewrite zget_out, Z.testbit_0_l in Hb; [done|]. by rewrite zlen_replicate.
Qed.

Lemma new_side_ok cfg is_bid pool :
  cfg_ok cfg -> fresh_pool (bucket_pool_size cfg) pool ->
  side_ok cfg is_bid (new_side cfg pool) kInvalidValue kInvalidValue /\
  forall base, represents base (new_side cfg pool) ∅.
Proof.
  intros [] (Hp & Hf & Hu).
  assert (Hno : forall j, ~ active (new_side cfg pool) j).
  { intros j [_ Hj]. revert Hj. unfold level; simpl. rewrite zget_replicate_None. simpl. lia. }
  split; [split|].
  - split; simpl; rewrite ?zlen_replicate, ?live_replicate; try done; try lia.
    + by apply Forall_replicate.
    + intros k node b. by rewrite zget_replicate_None.
    + intros k. rewrite zget_replicate_None. split; [by intros ?%bit_zeros | by intros ?%is_Some_None].
    + intros k k' node b b'. by rewrite zget_replicate_None.
    + intros node Hn. by apply Hu in Hn.
  - simpl. rewrite zlen_replicate. lia.
  - by right.
  - done.
  - intros base p q. split; [by intros ?%lookup_empty_Some | by intros [?%Hno _]].
Qed.

Lemma new_book_ok cfg bid_pool ask_pool :
  cfg_ok cfg -> fresh_pool (bucket_pool_size cfg) bid_pool ->
  fresh_pool (bucket_pool_size cfg) ask_pool ->
  book_ok (new_book cfg bid_pool ask_pool) /\
  book_represents (new_book cfg bid_pool ask_pool) (mkLadders ∅ ∅).
Proof.
  intros Hc Hb Ha. destruct (new_side_ok cfg true bid_pool Hc Hb), (new_side_ok cfg false ask_pool Hc Ha).
  split; [split; [done|]|]; intros []; simpl; auto.
Qed.

(** ** The clear branch *)

Definition nodes (l : list (option (Z * Bucket))) : list Z := omap (option_map fst) l.

Lemma nodes_elem l n : n ∈ nodes l <-> exists k b, zget l k = Some (n, b).
Proof.
  unfold nodes. rewrite list_elem_of_omap. split.
  - intros ([[n' b]|] & [k Hk]%list_elem_of_lookup & E); simplify_eq/=.
    exists (Z.of_nat k), b. apply zget_lookup; [by rewrite Nat2Z.id | lia].
  - intros (k & b & Hk). exists (Some (n, b)). split; [|done]. rewrite <-Hk.
    apply zget_elem. by eapply zget_in_range.
Qed.

Lemma nodes_NoDup l :
  (forall k k' n b b', zget l k = Some (n, b) -> zget l k' = Some (n, b') -> k = k') ->
  NoDup (nodes l).
Proof.
  induction l as [|x l IH]; intros Hinj; [constructor|].
  assert (Hs : forall k, 0 <= k -> zget (x :: l) (k + 1) = zget l k).
  { intros k Hk. unfold zget. rewrite !bool_decide_true by lia.
    by replace (Z.to_nat (k + 1)) with (S (Z.to_nat k)) by lia. }
  assert (Hl : NoDup (nodes l)).
  { apply IH. intros k k' n b b' E E'. pose proof (zget_in_range _ _ _ E).
    pose proof (zget_in_range _ _ _ E'). rewrite <-Hs in E, E' by lia.
    specialize (Hinj _ _ _ _ _ E E'). lia. }
  destruct x as [[n b]|]; [|done]. change (NoDup (n :: nodes l)). apply NoDup_cons. split; [|done].
  intros (k & b' & E)%nodes_elem. pose proof (zget_in_range _ _ _ E).
  rewrite <-Hs in E by lia. specialize (Hinj 0 (k + 1) n b b' eq_refl E). lia.
Qed.

Lemma dealloc_all l (p : P) :
  np_ok p -> NoDup (nodes l) -> (forall n, n ∈ nodes l -> np_used p n) ->
  let p' := fold_left (fun p b => match b with Some (node, _) => np_dealloc node p | None => p end) l p in
  np_ok p' /\ zlen (np_free p') = zlen (np_free p) + live l /\
  forall n, np_used p' n <-> (n ∉ nodes l) /\ np_used p n.
Proof.
  revert p. induction l as [|[[node b]|] l IH]; intros p Hok Hnd Hu; simpl.
  - split_and!; [done | unfold live, zlen; simpl; lia |]. intros n. split; [|tauto].
    intros ?. split; [apply not_elem_of_nil | done].
  - change (NoDup (node :: nodes l)) in Hnd. change (nodes (Some (node, b) :: l)) with (node :: nodes l) in *.
    apply NoDup_cons in Hnd as [Hn Hnd].
    destruct (np_dealloc_used p node Hok) as (Hok' & Hf & Hu'); [apply Hu; left|].
    destruct (IH (np_dealloc node p) Hok' Hnd) as (? & Hlen & Hused).
    { intros n Hin. apply Hu'. split; [congruence | apply Hu; by right]. }
    split_and!; [done | |].
    + rewrite Hlen, Hf. unfold live. rewrite filter_cons, decide_True by eauto.
      unfold zlen. simpl. lia.
    + intros n. rewrite Hused, Hu', not_elem_of_cons. tauto.
  - destruct (IH p Hok Hnd Hu) as (? & Hlen & ?). split_and!; [done | | done].
    rewrite Hlen. unfold live. by rewrite filter_cons, decide_False by apply is_Some_None.
Qed.

Lemma zget_const {A B} `{Dflt B} (x : B) (l : list A) k :
  x = dflt -> zget ((fun _ => x) <$> l) k = x.
Proof.
  intros Hx. unfold zget. case_bool_decide; [|done]. rewrite list_lookup_fmap.
  by destruct (l !! Z.to_nat k).
Qed.

Lemma live_const {A B} (l : list A) : live ((fun _ => @None B) <$> l) = 0.
Proof.
  unfold live. induction l as [|x l IH]; [done|]. simpl.
  by rewrite filter_cons, decide_False by apply is_Some_None.
Qed.

Lemma clear_buckets_ok cap s :
  wf_side cap s -> wf_side cap (clear_buckets s) /\ forall j, ~ active (clear_buckets s) j.
Proof.
  intros Hwf. pose proof Hwf as [Hsum Hlen Hp Hb Hbit Hinj Hu Hc].
  destruct (dealloc_all (buckets s) (bucket_pool s) Hp) as (Hp' & Hfree & Hused).
  { by apply nodes_NoDup. }
  { intros n (k & b & E)%nodes_elem. by apply Hb in E as (_ & _ & ?). }
  assert (Hz : forall k, zget ((fun _ => None) <$> buckets s) k = @None (Z * Bucket))
    by (intros; by apply zget_const).
  split.
  - split; simpl; try done.
    + apply Forall_fmap, Forall_true. done.
    + unfold zlen in *. by rewrite !length_fmap.
    + intros k node b. by rewrite Hz.
    + intros k. rewrite Hz. split; [|by intros ?%is_Some_None]. intros [_ Hk].
      by rewrite zget_const, Z.testbit_0_l in Hk.
    + intros k k' node b b'. by rewrite Hz.
    + intros node [Hn Hn']%Hused. exfalso. apply Hn, nodes_elem. by apply Hu.
    + rewrite live_const. unfold zlen in *. lia.
  - intros j [_ Hj]. revert Hj. unfold level; simpl. rewrite Hz. simpl. lia.
Qed.

Lemma add_after_clear cap s idx qty :
  wf_side cap s -> 0 <= idx < 4096 * zlen (buckets s) -> 0 < cap -> 0 < qty ->
  exists s', update_side idx qty (clear_buckets s) = Some s' /\
    cached_best_idx s' = cached_best_idx s /\ active s' idx /\ level s' idx = qty.
Proof.
  intros Hwf Hi Hcap Hq. destruct (clear_buckets_ok cap s Hwf) as [Hwf' Hno].
  assert (Hz : forall k, zget (buckets (clear_buckets s)) k = None) by (intros; by apply zget_const).
  destruct (update_side_spec cap (clear_buckets s) idx qty Hwf') as (s' & E & _ & [Hc _ Ha Hl]).
  - simpl. unfold zlen in *. by rewrite length_fmap.
  - right. simpl. by rewrite live_const.
  - exists s'. assert (active s' idx) by (apply Ha; by rewrite decide_True).
    split_and!; try done. by rewrite Hl, decide_True.
Qed.
End refine.

(** The pool of the implementation, as the constructor of the book makes it. *)
#[export] Instance bucket_pool_impl : NodePool MemoryPool.pool :=
  MemoryPool.MemoryPool_NodePool 33288 eq_refl.

Lemma create_fresh n : 0 < n <= uint32_max -> fresh_pool n (MemoryPool.create n).
Proof.
  intros Hn. destruct (MemoryPool.create_ok n Hn) as [Hok Hfl]. split_and!; [done | |].
  - cbn. rewrite Hfl. unfold zlen. rewrite length_seqZ. lia.
  - intros k [Hk Ha]. cbn in Ha. rewrite zget_replicate in Ha; [done|].
    unfold MemoryPool.capacity in Hk. cbn in Hk. rewrite zlen_replicate in Hk. lia.
Qed.

Definition demo_cfg : OrderBookConfig := from_ini 1 8192.
Definition demo_book : Book MemoryPool.pool :=
  new_book demo_cfg (MemoryPool.create 2) (MemoryPool.create 2).
Definition demo_msg (type : MarketUpdateType) (side : Side) (price qty : Z) : MarketData :=
  mkMarketData type kOrderIdInvalid "XRPUSDC" side price qty.
Definition demo_msgs : list MarketData :=
  [demo_msg MUAdd kBuy 100 7; demo_msg MUAdd kBuy 5000 3; demo_msg MUModify kSell 5001 9;
   demo_msg MUClear kInvalid 0 0; demo_msg MUCancel kBuy 5000 0; demo_msg MUAdd kSell 5000 2].

Example demo_bbo :
  option_map (fun r => bbo (fst r)) (feed demo_msgs demo_book) = Some (mkBBO 100 5000 7 2).
Proof. vm_compute. reflexivity. Qed.

(** The demo book after a feed (of levels within its two buckets). *)
Definition demo_after (msgs : list MarketData) : Book MemoryPool.pool :=
  match feed msgs demo_book with Some (bk, _) => bk | None => demo_book end.

Lemma demo_after_ok msgs :
  Forall (level_msg demo_cfg) msgs -> book_ok (demo_after msgs) /\ config (demo_after msgs) = demo_cfg.
Proof.
  intros Hm. destruct (new_book_ok demo_cfg (MemoryPool.create 2) (MemoryPool.create 2)) as [Hok _];
    [by apply from_ini_ok | apply create_fresh; unfold uint32_max; lia ..|].
  pose proof (feed_steps msgs _ Hok Hm) as Hf. unfold demo_after, follows in *.
  fold demo_book in Hf, Hok. destruct (feed msgs demo_book) as [[bk notes]|]; simpl in Hf; [tauto|].
  exfalso. revert Hf. vm_compute. done.
Qed.

(** Levels 4096 prices apart, each in a bucket of its own. *)
Definition spread_msgs (n : nat) : list MarketData :=
  (fun i => demo_msg MUAdd kBuy (1 + 4096 * Z.of_nat i) 7) <$> seq 0 n.

Example spread_overflows :
  overflows (from_ini 1 (4096 * 257)) (spread_msgs 257) (mkLadders ∅ ∅) = true /\
  overflows (from_ini 1 (4096 * 257)) (spread_msgs 256) (mkLadders ∅ ∅) = false.
Proof. vm_compute. done. Qed.

(** C1: for every price range whose number of levels is an [int] and every
    sequence of market-data messages as the venue decoders send them ([level_msg]: levels set with a positive quantity,
    levels removed, trades, tickers, and clears that carry no price), the bucketed
    book started empty implements the pair of price ladders: each side holds
    exactly the levels of its ladder with their quantities, and the published BBO
    is the best price of each ladder (the invalid values when the ladder is empty).
    The handler fails (a null dereference) exactly when some message sets or
    removes a level whose bucket is empty while its side already has levels in as
    many buckets as its pool has nodes, which takes a price range of more than the
    256 buckets the pool is capped at.  A clear at a price of the range is outside
    of the statement: see [clear_keeps_stale_cache]. *)
Theorem feed_refines_ladders {P} `{NodePool P} min max (bid_pool ask_pool : P) msgs :
  -2147483648 <= min -> min <= max -> max < 2147483648 -> max - min + kBucketSize < 2147483648 ->
  fresh_pool (bucket_pool_size (from_ini min max)) bid_pool ->
  fresh_pool (bucket_pool_size (from_ini min max)) ask_pool ->
  Forall (level_msg (from_ini min max)) msgs ->
  let empty := mkLadders ∅ ∅ in
  let ladders := fold_left (spec_apply (from_ini min max)) msgs empty in
  match feed msgs (new_book (from_ini min max) bid_pool ask_pool) with
  | Some (bk, _) =>
      overflows (from_ini min max) msgs empty = false /\
      book_represents bk ladders /\
      forall is_bid, best_quote is_bid (side_ladder is_bid ladders)
                       (bbo_price is_bid (bbo bk)) (bbo_qty is_bid (bbo bk))
  | None =>
      overflows (from_ini min max) msgs empty = true /\
      kMaxBucketPoolSize < bucket_count (from_ini min max)
  end.
Proof.
  intros Hmin Hle Hmax _ Hb Ha Hmsgs empty ladders.
  destruct (new_book_ok (from_ini min max) bid_pool ask_pool) as [Hok Hrep];
    [by apply from_ini_ok | done | done |].
  pose proof (feed_steps msgs _ Hok Hmsgs) as Hsteps.
  pose proof (feed_fails msgs _ _ Hok Hmsgs Hrep) as Hfail.
  change (config (new_book _ _ _)) with (from_ini min max) in Hfail, Hsteps. fold empty in Hfail, Hrep.
  destruct (feed _ _) as [[bk notes]|]; [|split; [by apply Hfail | done]].
  destruct Hsteps as (Hok' & _ & Hl). specialize (Hl _ Hrep).
  split_and!; [|done | intros is_bid; by apply book_quotes].
  apply not_true_is_false. by intros ?%Hfail.
Qed.

(** Levels in both buckets of the demo book; and a range of 257 buckets with a
    level in each of them, of which the last finds no node. *)
Lemma feed_refines_ladders_witness :
  (let ladders := fold_left (spec_apply demo_cfg) demo_msgs (mkLadders ∅ ∅) in
   exists bk notes, feed demo_msgs demo_book = Some (bk, notes) /\
     book_represents bk ladders /\
     (forall is_bid, best_quote is_bid (side_ladder is_bid ladders)
                       (bbo_price is_bid (bbo bk)) (bbo_qty is_bid (bbo bk)))) /\
  (let cfg := from_ini 1 (4096 * 257) in
   let book := new_book cfg (MemoryPool.create 256) (MemoryPool.create 256) in
   feed (spread_msgs 257) book = None /\ is_Some (feed (spread_msgs 256) book)).
Proof.
  assert (Hf : forall cfg n, bucket_pool_size cfg = n -> 0 < n <= 256 ->
    fresh_pool (bucket_pool_size cfg) (MemoryPool.create n))
    by (intros ? ? ->; intros; apply create_fresh; unfold uint32_max; lia).
  assert (Hs : forall n cfg, Forall (level_msg cfg) (spread_msgs n))
    by (intros; apply Forall_fmap, Forall_true; done).
  split; [|cbn zeta; set (cfg := from_ini _ _); assert (E : bucket_pool_size cfg = 256) by done; split].
  - pose proof (feed_refines_ladders 1 8192 (MemoryPool.create 2) (MemoryPool.create 2) demo_msgs
      ltac:(lia) ltac:(lia) ltac:(lia) eq_refl (Hf demo_cfg 2 eq_refl ltac:(lia)) (Hf demo_cfg 2 eq_refl ltac:(lia))
      ltac:(repeat constructor)) as Hw.
    cbn zeta in *. fold demo_cfg in Hw. fold demo_book in Hw.
    pose proof demo_bbo as E. destruct (feed demo_msgs demo_book) as [[bk notes]|]; [|discriminate E].
    exists bk, notes. split; [reflexivity | exact (proj2 Hw)].
  - pose proof (feed_refines_ladders 1 (4096 * 257) (MemoryPool.create 256) (MemoryPool.create 256)
      (spread_msgs 257) ltac:(lia) ltac:(lia) ltac:(lia) eq_refl (Hf cfg 256 E ltac:(lia)) (Hf cfg 256 E ltac:(lia))
      (Hs _ _)) as Hw.
    cbn zeta in Hw. fold cfg in Hw. destruct (feed _ _) as [[bk notes]|]; [|done].
    destruct Hw as [Hw _]. unfold cfg in Hw. by rewrite (proj1 spread_overflows) in Hw.
  - pose proof (feed_refines_ladders 1 (4096 * 257) (MemoryPool.create 256) (MemoryPool.create 256)
      (spread_msgs 256) ltac:(lia) ltac:(lia) ltac:(lia) eq_refl (Hf cfg 256 E ltac:(lia)) (Hf cfg 256 E ltac:(lia))
      (Hs _ _)) as Hw.
    cbn zeta in Hw. fold cfg in Hw. destruct (feed _ _) as [[bk notes]|]; [done|].
    destruct Hw as [Hw _]. unfold cfg in Hw. by rewrite (proj2 spread_overflows) in Hw.
Defined.

(** An update of a level fails exactly when its bucket is absent and no
    node is left in the pool ([allocate] returns null and is dereferenced);
    otherwise the side stays well formed, every live bucket holding exactly one
    node of the pool and every node being free or held (no leak). *)
Theorem update_fails_iff_exhausted {P} `{NodePool P} cap (s : SideBook P) idx qty :
  wf_side cap s -> 0 <= idx < 4096 * zlen (buckets s) ->
  (update_side idx qty s = None <->
   zget (buckets s) (idx / 4096) = None /\ np_free (bucket_pool s) = []) /\
  (forall s', update_side idx qty s = Some s' -> wf_side cap s').
Proof.
  intros Hwf Hi. assert (Hroom : ~ room cap s (idx / 4096) <->
    zget (buckets s) (idx / 4096) = None /\ np_free (bucket_pool s) = []).
  { pose proof (ws_count _ _ Hwf). unfold room.
    destruct (zget (buckets s) (idx / 4096)); [naive_solver|].
    destruct (np_free (bucket_pool s)); unfold zlen in *; simpl in *;
      (split; [intros; split; [done|] | intros [_ Hf] [?%is_Some_None|?]]); try done; lia. }
  destruct (decide (room cap s (idx / 4096))) as [Hr|Hr].
  - destruct (update_side_spec cap s idx qty Hwf Hi Hr) as (s' & E & Hwf' & _).
    split; [|intros ? Hs'; rewrite Hs' in E; congruence]. rewrite <-Hroom, E. naive_solver.
  - rewrite (update_side_crash cap) by (done || lia). rewrite <-Hroom. naive_solver.
Qed.

(** A side of the demo book with three active bid levels. *)
Definition demo_side : SideBook MemoryPool.pool :=
  bid_side (demo_after [demo_msg MUAdd kBuy 100 7; demo_msg MUAdd kBuy 170 4; demo_msg MUAdd kBuy 5000 3]).

Lemma demo_side_ok : wf_side 2 demo_side /\ cache_ok true demo_side /\ zlen (buckets demo_side) = 2.
Proof.
  destruct (demo_after_ok [demo_msg MUAdd kBuy 100 7; demo_msg MUAdd kBuy 170 4; demo_msg MUAdd kBuy 5000 3])
    as [[_ Hsides] Hcfg]; [by repeat constructor|].
  destruct (Hsides true) as [Hwf Hlen Hc _]. rewrite Hcfg in *. done.
Qed.

Lemma update_fails_iff_exhausted_witness :
  (update_side 300 5 demo_side = None <->
   zget (buckets demo_side) (300 / 4096) = None /\ np_free (bucket_pool demo_side) = []) /\
  (forall s', update_side 300 5 demo_side = Some s' -> wf_side 2 s').
Proof.
  destruct demo_side_ok as (Hwf & _ & Hlen).
  apply (update_fails_iff_exhausted 2 demo_side 300 5 Hwf). rewrite Hlen. lia.
Defined.

(** The search for the next active level of a side ([next_active_bid],
    [next_active_ask]) returns the nearest active level strictly beyond the start
    in the side's direction, and -1 exactly when there is none, whatever the
    bucket and word boundaries between the two. *)
Theorem next_active_nearest {P} `{NodePool P} is_bid cap (s : SideBook P) start :
  wf_side cap s -> 0 <= start < 4096 * zlen (buckets s) ->
  let r := next_active_impl (side_dir is_bid) s start in
  nearest (side_dir is_bid) (active s) start r \/
  r = -1 /\ forall j, active s j -> ~ beyond (side_dir is_bid) start j.
Proof. intros Hwf Hs. by apply (next_active_spec (side_dir is_bid) cap). Qed.

Lemma next_active_nearest_witness :
  (let r := next_active_impl (side_dir true) demo_side 4999 in
   nearest (side_dir true) (active demo_side) 4999 r \/
   r = -1 /\ forall j, active demo_side j -> ~ beyond (side_dir true) 4999 j) /\
  next_active_impl (side_dir true) demo_side 4999 = 169.
Proof.
  destruct demo_side_ok as (Hwf & _ & Hlen). split; [|vm_compute; reflexivity].
  apply (next_active_nearest true 2 demo_side 4999 Hwf). rewrite Hlen. lia.
Defined.

(** A clear message that carries the price 0, as the venue converters emit
    it at the start of a snapshot, is rejected by the price-range test whenever
    the configured minimum price is positive: the book is left as it was. *)
Theorem clear_without_price_dropped {P} `{NodePool P} md (bk : Book P) :
  md_type md = MUClear -> md_price md = 0 -> 0 < min_price_int (config bk) ->
  on_market_data_updated md bk = Some (bk, []).
Proof.
  intros _ Hp Hmin. unfold on_market_data_updated. rewrite Hp.
  rewrite (proj2 (Z.ltb_lt 0 _) Hmin), orb_true_r. done.
Qed.

Lemma clear_without_price_dropped_witness :
  on_market_data_updated (demo_msg MUClear kInvalid 0 0) demo_book = Some (demo_book, []).
Proof. apply clear_without_price_dropped; reflexivity. Defined.

(** A clear with an in-range price empties both sides and returns every
    bucket to its pool, but the cached best index survives: the next level that
    is not better than it is stored in the book while the BBO still says that
    the side is empty. *)
Theorem clear_keeps_stale_cache {P} `{NodePool P} side idx qty (bk : Book P) :
  book_ok bk -> 0 < qty -> 0 < bucket_pool_size (config bk) ->
  0 <= idx < 4096 * bucket_count (config bk) ->
  beyond (side_dir (is_bid_of side)) (cached_best_idx (get_side (is_bid_of side) bk)) idx ->
  0 <= cached_best_idx (get_side (is_bid_of side) bk) ->
  (forall is_bid j, ~ active (get_side is_bid (clear_book bk)) j) /\
  exists bk', add_order side idx qty (clear_book bk) = Some bk' /\
    level (get_side (is_bid_of side) bk') idx = qty /\ bbo bk' = BBO_default.
Proof.
  intros [Hcfg Hsides] Hq Hpool Hi Hb Hc. split.
  - intros is_bid. destruct is_bid; eapply clear_buckets_ok;
      [apply (Hsides true) | apply (Hsides false)].
  - unfold add_order. set (is_bid := is_bid_of side) in *. destruct (Hsides is_bid) as [Hwf Hlen _ _].
    replace (get_side is_bid (clear_book bk)) with (clear_buckets (get_side is_bid bk))
      by (by destruct is_bid).
    destruct (add_after_clear _ _ idx qty Hwf) as (s' & -> & Hcach & _ & Hlev); [lia..|].
    rewrite Hcach, (proj2 (Z.ltb_ge _ 0) Hc). rewrite beyond_side in Hb.
    set (c := cached_best_idx (get_side is_bid bk)) in *.
    assert ((if is_bid then c <? idx else idx <? c) = false) as ->.
    { destruct is_bid; apply Z.ltb_ge; lia. }
    rewrite (proj2 (Z.eqb_neq idx c)) by (destruct is_bid; lia). simpl.
    eexists. split; [reflexivity|]. by destruct is_bid.
Qed.

Definition demo_full_book : Book MemoryPool.pool := demo_after [demo_msg MUAdd kBuy 5000 3].

Lemma demo_full_book_ok : book_ok demo_full_book /\ config demo_full_book = demo_cfg.
Proof. apply demo_after_ok. by repeat constructor. Qed.

Lemma clear_keeps_stale_cache_witness :
  (forall is_bid j, ~ active (get_side is_bid (clear_book demo_full_book)) j) /\
  exists bk', add_order kBuy 99 7 (clear_book demo_full_book) = Some bk' /\
    level (get_side true bk') 99 = 7 /\ bbo bk' = BBO_default.
Proof.
  destruct demo_full_book_ok as [Hok Hcfg].
  assert (Hc : cached_best_idx (get_side true demo_full_book) = 4999) by (vm_compute; reflexivity).
  apply (clear_keeps_stale_cache kBuy 99 7 demo_full_book Hok); rewrite ?Hcfg.
  - lia.
  - reflexivity.
  - vm_compute. split; congruence.
  - change (is_bid_of kBuy) with true. rewrite Hc. vm_compute. reflexivity.
  - change (is_bid_of kBuy) with true. rewrite Hc. lia.
Defined.

(** With the default price range (100,000 to 30,000,000: 7,300 buckets, 256
    pool nodes) 257 additions in distinct buckets make the handler dereference
    the null pointer of an exhausted pool. *)
Theorem default_range_exhausts_pool :
  let cfg := from_ini kDefaultMinPriceInt kDefaultMaxPriceInt in
  let pool := MemoryPool.create (bucket_pool_size cfg) in
  let adds n := (fun k => demo_msg MUAdd kBuy (kDefaultMinPriceInt + 4096 * k) 1) <$> seqZ 0 n in
  bucket_count cfg = 7300 /\ feed (adds 257) (new_book cfg pool pool) = None.
Proof. vm_compute. split; reflexivity. Qed.
