(* ===== verification/OrderBookPeek.v ===== *)
(** * Reading levels off the bucketed order book

    [peek_levels], [peek_levels_with_qty] and [peek_qty] of
    src/hft/src/order_book.hpp with the helpers they share ([scan_word],
    [jump_next_bucket_impl], [consume_levels_in_bucket], ...).  Each is proved to
    return the first [level] entries of [active_levels], the enumeration of the
    active levels of the side from the best one outwards. *)

From S2P Require Import Prelude BitScan MemoryPool Types OrderBook OrderBookFacts OrderBookRefine.

(** ** Word scanning *)

Section scan.
Context {St : Type}.

(** [scan_word<MsbFirst>(word, base_word_idx, on_off)]: the callback threads the
    state [St]; a word has at most 64 bits to visit. *)
Fixpoint scan_word_fuel (fuel : nat) (D : SearchDir) (word base_word_idx : Z)
    (on_off : Z -> St -> bool * St) (st : St) : bool * St :=
  match fuel with
  | O => (false, st)
  | S fuel' =>
      if word =? 0 then (false, st)
      else
        let bit := if kIsHighest then kWordMask - countl_zero word else countr_zero word in
        let off := Z.shiftl base_word_idx kWordShift + bit in
        let '(stop, st') := on_off off st in
        if stop then (true, st')
        else scan_word_fuel fuel' D
               (if kIsHighest then Z.land word (not64 (Z.shiftl 1 bit)) else Z.land word (word - 1))
               base_word_idx on_off st'
  end.
Definition scan_word := scan_word_fuel 64.

(** The word loops: [for (wi ...; guard; ...) if (scan_word(bitmap[wi], wi, on_off))
    return true;], where [guard] is the size test of the loop head. *)
Fixpoint scan_words (D : SearchDir) (bm : list Z) (guard : St -> bool)
    (on_off : Z -> St -> bool * St) (order : list Z) (st : St) : bool * St :=
  match order with
  | [] => (false, st)
  | wi :: order' =>
      if guard st then
        let '(stop, st') := scan_word D (zget bm wi) wi on_off st in
        if stop then (true, st') else scan_words D bm guard on_off order' st'
      else (false, st)
  end.

(** The reference loop: the callback on each offset until it asks to stop. *)
Fixpoint each_until (f : Z -> St -> bool * St) (l : list Z) (st : St) : bool * St :=
  match l with
  | [] => (false, st)
  | x :: l' => let '(stop, st') := f x st in if stop then (true, st') else each_until f l' st'
  end.
End scan.

(** ** Masks and the jump to the next bucket *)

Definition mask_before (bit : Z) : Z := if bit =? 0 then 0 else Z.shiftl 1 bit - 1.
Definition mask_after_inclusive (bit : Z) : Z := not64 (Z.shiftl 1 (bit + 1) - 1).

(** [first_mask<S>(start_off)] *)
Definition first_mask (is_bid : bool) (start_off : Z) : Z :=
  let remain := Z.land start_off kWordMask in
  if is_bid then if remain =? 0 then 0 else Z.shiftl 1 remain - 1
  else if remain =? kWordMask then 0 else not64 (Z.shiftl 1 (remain + 1) - 1).

(** [scan_word_one<IsBid>(word, swi)] *)
Definition scan_word_one (is_bid : bool) (word swi : Z) : Z :=
  if word =? 0 then -1
  else
    let bit := if is_bid then kWordMask - countl_zero word else countr_zero word in
    Z.shiftl swi kWordShift + bit.

Definition scan_one_hit (is_bid : bool) (summary : list Z) (i : Z) : option Z :=
  let index := scan_word_one is_bid (zget summary i) i in
  if index =? -1 then None else Some index.

(** [jump_next_bucket_impl<IsBid>(summary, start_bidx)] *)
Definition jump_next_bucket_impl (is_bid : bool) (summary : list Z) (start_bidx : Z) : Z :=
  let kSummaryWords := zlen summary in
  let swi := Z.shiftr start_bidx kWordShift in
  let sbit := Z.land start_bidx kWordMask in
  let masked := Z.land (zget summary swi)
    (if is_bid then mask_before sbit
     else if sbit =? kWordMask then 0 else mask_after_inclusive sbit) in
  let idx := scan_word_one is_bid masked swi in
  if negb (idx =? -1) then idx
  else
    match first_some (scan_one_hit is_bid summary)
            (if is_bid then down_to swi 0 else up_to swi kSummaryWords) with
    | Some index => index
    | None => -1
    end.

(** ** Level views *)

Record LevelView := mkLevelView { lv_idx : Z; lv_qty_raw : Z; lv_price_raw : Z }.

(** [push_level_if_positive(bucket, bucket_idx, local_off, indexToPrice, out, level)] *)
Definition push_level_if_positive (bucket : Bucket) (bucket_idx : Z) (indexToPrice : Z -> Z)
    (level local_off : Z) (out : list LevelView) : bool * list LevelView :=
  let qty := zget (orders bucket) local_off in
  if negb (is_active qty) then (false, out)
  else
    let global_idx := bucket_idx * kBucketSize + local_off in
    let out' := out ++ [mkLevelView global_idx qty (indexToPrice global_idx)] in
    (level <=? zlen out', out').

(** [consume_levels_in_bucket<IsBid>(bucket, bucket_idx, off, indexToPrice, out, level)] *)
Definition consume_levels_in_bucket (is_bid : bool) (bucket : option Bucket) (bucket_idx off : Z)
    (indexToPrice : Z -> Z) (level : Z) (out : list LevelView) : list LevelView :=
  match bucket with
  | None => out
  | Some bucket =>
      if level <=? zlen out then out
      else
        let on_off := push_level_if_positive bucket bucket_idx indexToPrice level in
        let word_index := Z.shiftr off kWordShift in
        let bit := Z.land off kWordMask in
        let first_mask :=
          if is_bid then if bit =? 0 then 0 else mask_before bit
          else if bit =? kWordMask then 0 else mask_after_inclusive bit in
        let word := Z.land (zget (bitmap bucket) word_index) first_mask in
        let D := side_dir is_bid in
        let '(stop, out1) := scan_word D word word_index on_off out in
        if stop then out1
        else snd (scan_words D (bitmap bucket) (fun out => zlen out <? level) on_off
                    (if is_bid then down_to word_index 0 else up_to word_index kBucketBitmapWords)
                    out1)
  end.

(** ** Quantities into caller-provided spans *)

(** [qty_out], [idx_out] and the counter [filled] that the lambdas capture. *)
Record PeekSt := mkPeek { qty_out : list Z; idx_out : list Z; filled : Z }.

(** [push_if_active<int64_t>(bucket, bidx, off, qty_out, idx_out, filled, want)] *)
Definition push_if_active (bucket : Bucket) (bidx want off : Z) (st : PeekSt) : bool * PeekSt :=
  let qty := zget (orders bucket) off in
  let st' :=
    if is_active qty then
      mkPeek (zset (qty_out st) (filled st) qty)
             (if bool_decide (idx_out st = []) then idx_out st
              else zset (idx_out st) (filled st) (bidx * kBucketSize + off))
             (filled st + 1)
    else st in
  (want <=? filled st', st').

(** [consume_first_word<S, T>] *)
Definition consume_first_word (is_bid : bool) (bucket : Bucket) (bidx start_off want : Z)
    (st : PeekSt) : bool * PeekSt :=
  let word_idx := Z.shiftr start_off kWordShift in
  let word := Z.land (zget (bitmap bucket) word_idx) (first_mask is_bid start_off) in
  scan_word (side_dir is_bid) word word_idx (push_if_active bucket bidx want) st.

(** [consume_following_words<S, T>] *)
Definition consume_following_words (is_bid : bool) (bucket : Bucket) (bidx start_off want : Z)
    (st : PeekSt) : bool * PeekSt :=
  let word_idx := Z.shiftr start_off kWordShift in
  let '(stop, st') :=
    scan_words (side_dir is_bid) (bitmap bucket) (fun st => filled st <? want)
      (push_if_active bucket bidx want)
      (if is_bid then down_to word_idx 0 else up_to word_idx kBucketBitmapWords) st in
  if stop then (true, st') else (want <=? filled st', st').

(** [consume_bucket_side<S, T>] *)
Definition consume_bucket_side (is_bid : bool) (bucket : option Bucket)
    (bidx start_off want : Z) (st : PeekSt) : bool * PeekSt :=
  match bucket with
  | None => (false, st)
  | Some bucket =>
      let '(stop, st') := consume_first_word is_bid bucket bidx start_off want st in
      if stop then (true, st')
      else consume_following_words is_bid bucket bidx start_off want st'
  end.

Section peek.
Context {P : Type} `{NodePool P}.

Definition next_active_idx (is_bid : bool) (start_idx : Z) (s : SideBook P) : Z :=
  next_active_impl (side_dir is_bid) s start_idx.

(** [peek_levels(is_bid, level)]: the loop runs once per active level, of which
    there are at most as many as indices. *)
Fixpoint peek_levels_loop (fuel : nat) (is_bid : bool) (level idx : Z) (s : SideBook P)
    (output : list Z) : list Z :=
  match fuel with
  | O => output
  | S fuel' =>
      if (0 <=? idx) && (zlen output <? u64 level) then
        let idx' := next_active_idx is_bid idx s in
        peek_levels_loop fuel' is_bid level idx' s
          (if 0 <=? idx' then output ++ [idx'] else output)
      else output
  end.

Definition peek_levels (is_bid : bool) (level : Z) (s : SideBook P) : list Z * SideBook P :=
  let '(idx, s') := best_idx (side_dir is_bid) s in
  let output := if 0 <=? idx then [idx] else [] in
  (peek_levels_loop (S (Z.to_nat (kBucketSize * zlen (buckets s)))) is_bid level idx s' output, s').

(** The lambda [consume_full_bucket] of [peek_levels_with_qty] and of [peek_qty]:
    all words of a bucket, with the callback [on_off] of the caller and its
    "not yet full" test [guard]. *)
Definition consume_full_bucket {St} (is_bid : bool) (guard : St -> bool)
    (on_off : Bucket -> Z -> Z -> St -> bool * St) (s : SideBook P) (bidx : Z) (st : St)
    : bool * St :=
  match zget (buckets s) bidx with
  | None => (false, st)
  | Some (_, bucket) =>
      let '(stop, st') :=
        scan_words (side_dir is_bid) (bitmap bucket) guard (on_off bucket bidx)
          (all_words (side_dir is_bid) kBucketBitmapWords) st in
      if stop then (true, st') else (negb (guard st'), st')
  end.

(** The [while] loop of both over the buckets after the best one: a bucket is
    visited at most once. *)
Fixpoint bucket_loop {St} (fuel : nat) (is_bid : bool) (guard : St -> bool)
    (on_off : Bucket -> Z -> Z -> St -> bool * St) (s : SideBook P) (bucket_idx : Z) (st : St)
    : St :=
  match fuel with
  | O => st
  | S fuel' =>
      if guard st then
        let bucket_idx' := jump_next_bucket_impl is_bid (summary s) bucket_idx in
        if bucket_idx' <? 0 then st
        else
          let '(stop, st') := consume_full_bucket is_bid guard on_off s bucket_idx' st in
          if stop then st' else bucket_loop fuel' is_bid guard on_off s bucket_idx' st'
      else st
  end.

(** [peek_levels_with_qty(is_bid, level, out)]: the returned count is the length
    of the list.  The reservation of the vector, which ends the program for a
    negative [level], is left out. *)
Definition peek_levels_with_qty (cfg : OrderBookConfig) (is_bid : bool) (level : Z)
    (s : SideBook P) : list LevelView * SideBook P :=
  if level <=? 0 then ([], s)
  else
    let '(best_idx, s') := best_idx (side_dir is_bid) s in
    if best_idx <? 0 then ([], s')
    else
      let best_bucket_idx := Z.quot best_idx kBucketSize in
      let best_off := Z.land best_idx (kBucketSize - 1) in
      let best_bucket := option_map snd (zget (buckets s') best_bucket_idx) in
      let price_of := index_to_price cfg in
      let out :=
        match best_bucket with
        | Some b =>
            let qty := zget (orders b) best_off in
            if is_active qty then [mkLevelView best_idx qty (price_of best_idx)] else []
        | None => []
        end in
      if level <=? zlen out then (out, s')
      else
        let out1 := consume_levels_in_bucket is_bid best_bucket best_bucket_idx best_off
                      price_of level out in
        (bucket_loop (S (Z.to_nat (zlen (buckets s)))) is_bid (fun out => zlen out <? level)
           (fun bucket bidx => push_level_if_positive bucket bidx price_of level)
           s' best_bucket_idx out1, s').

(** [peek_qty<int64_t>(is_bid, level, qty_out, idx_out)]: the returned count with
    the spans and the cache it leaves. *)
Definition peek_qty (is_bid : bool) (level : Z) (qty_span idx_span : list Z) (s : SideBook P)
    : Z * list Z * list Z * SideBook P :=
  let want := Z.min level (zlen qty_span) in
  if want <=? 0 then (-1, qty_span, idx_span, s)
  else
    let '(best_idx, s') := best_idx (side_dir is_bid) s in
    if best_idx <? 0 then (-1, qty_span, idx_span, s')
    else
      let best_bidx := Z.quot best_idx kBucketSize in
      let best_off := Z.land best_idx (kBucketSize - 1) in
      let best_bucket := option_map snd (zget (buckets s') best_bidx) in
      let st0 := mkPeek qty_span idx_span 0 in
      let result st := (filled st, qty_out st, idx_out st, s') in
      let st1 :=
        match best_bucket with
        | Some b =>
            let qty := zget (orders b) best_off in
            if is_active qty then
              mkPeek (zset qty_span 0 qty)
                     (if bool_decide (idx_span = []) then idx_span else zset idx_span 0 best_idx) 1
            else st0
        | None => st0
        end in
      if (0 <? filled st1) && (want <=? filled st1) then result st1
      else
        let '(stop, st2) := consume_bucket_side is_bid best_bucket best_bidx best_off want st1 in
        if stop then result st2
        else result (bucket_loop (S (Z.to_nat (zlen (buckets s)))) is_bid (fun st => filled st <? want)
                       (fun bucket bidx => push_if_active bucket bidx want) s' best_bidx st2).
End peek.

(** ** Enumerations *)

Section each.
Context {St : Type}.
Implicit Types (f : Z -> St -> bool * St) (st : St).

Lemma each_until_app f l1 l2 st :
  each_until f (l1 ++ l2) st =
  let '(stop, st') := each_until f l1 st in if stop then (true, st') else each_until f l2 st'.
Proof.
  revert st. induction l1 as [|x l1 IH]; intros st; simpl; [done|].
  destruct (f x st) as [[] st']; [done | apply IH].
Qed.

Lemma each_until_map f g (h : Z -> Z) l st :
  (forall x st, x ∈ l -> f x st = g (h x) st) ->
  each_until f l st = each_until g (h <$> l) st.
Proof.
  revert st. induction l as [|x l IH]; intros st Hf; simpl; [done|].
  rewrite Hf by left. destruct (g (h x) st) as [[] st']; [done|].
  apply IH. intros y st0 Hy. apply Hf. by right.
Qed.

(** [f] asks to stop exactly when the state is full. *)
Definition stops_full (full : St -> bool) f (l : list Z) : Prop :=
  forall x st, x ∈ l -> full st = false -> fst (f x st) = full (snd (f x st)).

Lemma each_until_full full f l st :
  stops_full full f l -> full st = false ->
  fst (each_until f l st) = full (snd (each_until f l st)).
Proof.
  revert st. induction l as [|x l IH]; intros st Hf Hst; simpl; [done|].
  pose proof (Hf x st ltac:(left) Hst) as Hx. destruct (f x st) as [[] st']; simpl in *; [done|].
  apply IH; [|done]. intros y st0 Hy. apply Hf. by right.
Qed.
End each.

(** The set bits of a word in the order of the direction. *)
Definition word_bits (D : SearchDir) (word : Z) : list Z :=
  filter (fun b => Z.testbit word b = true) (all_words D 64).

Definition words_bits (D : SearchDir) (bm : list Z) (order : list Z) : list Z :=
  mjoin ((fun w => (fun b => w * 64 + b) <$> word_bits D (zget bm w)) <$> order).

(** ** Enumerations are unique *)

Lemma beyond_irrefl D i : ~ beyond D i i.
Proof. unfold beyond. destruct kIsHighest; lia. Qed.
Lemma beyond_trans D i j k : beyond D i j -> beyond D j k -> beyond D i k.
Proof. unfold beyond. destruct kIsHighest; lia. Qed.
Lemma beyond_total D i j : i = j \/ beyond D i j \/ beyond D j i.
Proof. unfold beyond. destruct kIsHighest; lia. Qed.

Lemma walks_nil D (P : Z -> Prop) : (forall j, ~ P j) -> walks D P [].
Proof.
  intros Hno. split; [|by intros [|? ?] ? ?].
  intros j. split; [by intros ?%not_elem_of_nil | by intros ?%Hno].
Qed.

Lemma walks_cons D (P : Z -> Prop) x l :
  walks D P (x :: l) <-> extreme D P x /\ walks D (fun j => P j /\ beyond D x j) l.
Proof.
  split.
  - intros [He Hs]. assert (Hx : forall k, k ∈ l -> beyond D x k) by (by apply (Hs [])).
    split.
    + split; [apply He; left|]. intros j [->|Hj]%He%elem_of_cons; auto.
    + split.
      * intros j. split; [intros Hj; split; [apply He; by right | auto]|].
        intros [[->|Hj]%He%elem_of_cons Hb]; [by apply beyond_irrefl in Hb | done].
      * intros l1 j l2 -> k Hk. by apply (Hs (x :: l1) j l2).
  - intros [[Hx Hex] [He Hs]]. split.
    + intros j. rewrite elem_of_cons, He. split; [intros [->|[? _]]; done|].
      intros Hj. destruct (Hex j Hj); auto.
    + intros [|y l1] j l2 [= -> Hl] k Hk.
      * subst l2. by apply He in Hk as [_ ?].
      * by eapply Hs.
Qed.

Lemma walks_proper D (P Q : Z -> Prop) l : (forall j, P j <-> Q j) -> walks D P l -> walks D Q l.
Proof. intros HPQ [He Hs]. split; [|done]. intros j. by rewrite He, HPQ. Qed.

Lemma walks_unique D (P Q : Z -> Prop) l l' :
  walks D P l -> walks D Q l' -> (forall j, P j <-> Q j) -> l = l'.
Proof.
  revert P Q l'. induction l as [|x l IH]; intros P Q [|y l'] Hl Hl' HPQ; try done.
  - exfalso. apply walks_cons in Hl' as [[Hy _] _]. apply HPQ in Hy. apply Hl in Hy.
    by apply not_elem_of_nil in Hy.
  - exfalso. apply walks_cons in Hl as [[Hy _] _]. apply HPQ in Hy. apply Hl' in Hy.
    by apply not_elem_of_nil in Hy.
  - apply walks_cons in Hl as [[Hx Hxe] Hl], Hl' as [[Hy Hye] Hl'].
    assert (x = y) as ->.
    { destruct (Hxe y) as [?|H1]; [by apply HPQ | done |].
      destruct (Hye x) as [?|H2]; [by apply HPQ | done |].
      exfalso. eapply beyond_irrefl, beyond_trans; [apply H1 | done]. }
    f_equal. eapply IH; [done..|]. intros j. simpl. by rewrite HPQ.
Qed.

Lemma walks_app D (P Q : Z -> Prop) l l' :
  walks D P l -> walks D Q l' -> (forall i j, P i -> Q j -> beyond D i j) ->
  walks D (fun j => P j \/ Q j) (l ++ l').
Proof.
  revert P. induction l as [|x l IH]; intros P Hl Hl' HPQ; simpl.
  - eapply walks_proper, Hl'. intros j. split; [tauto|]. intros [Hj|?]; [|done].
    apply Hl in Hj. by apply not_elem_of_nil in Hj.
  - apply walks_cons in Hl as [[Hx Hxe] Hl]. apply walks_cons. split.
    + split; [by left|]. intros j [?|?]; auto.
    + eapply walks_proper; [|apply (IH _ Hl Hl')]; simpl; [|naive_solver].
      intros j. split; [intros [[? ?]|?]; auto|]. tauto.
Qed.

Lemma walks_fmap D (P : Z -> Prop) (g : Z -> Z) l :
  (forall i j, beyond D i j -> beyond D (g i) (g j)) -> walks D P l ->
  walks D (fun j => exists i, j = g i /\ P i) (g <$> l).
Proof.
  intros Hg. revert P. induction l as [|x l IH]; intros P Hl; simpl.
  - apply walks_nil. intros j (i & -> & Hi). apply Hl in Hi. by apply not_elem_of_nil in Hi.
  - apply walks_cons in Hl as [[Hx Hxe] Hl]. apply walks_cons. split.
    + split; [eauto|]. intros j (i & -> & Hi). destruct (Hxe i Hi) as [->|?]; auto.
    + eapply walks_proper; [|apply (IH _ Hl)]. intros j. simpl. split.
      * intros (i & -> & Hi & Hb). eauto.
      * intros [(i & -> & Hi) Hb]. exists i. split_and!; try done.
        destruct (Hxe i Hi) as [->|?]; [by apply beyond_irrefl in Hb | done].
Qed.

Lemma walks_filter D (P Q : Z -> Prop) `{!forall j, Decision (Q j)} l :
  walks D P l -> walks D (fun j => P j /\ Q j) (filter Q l).
Proof.
  revert P. induction l as [|x l IH]; intros P Hl.
  - apply walks_nil. intros j [Hj _]. apply Hl in Hj. by apply not_elem_of_nil in Hj.
  - apply walks_cons in Hl as [[Hx Hxe] Hl]. rewrite filter_cons. case_decide as HQ.
    + apply walks_cons. split; [split; [done|]; intros j [Hj _]; auto|].
      eapply walks_proper; [|apply (IH _ Hl)]. naive_solver.
    + eapply walks_proper; [|apply (IH _ Hl)]. intros j. simpl. split; [tauto|].
      intros [Hj HQj]. split; [|done]. split; [done|]. destruct (Hxe j Hj) as [->|?]; done.
Qed.

(** ** [scan_word] visits the set bits in order *)

Lemma clear_lowest p j :
  0 <= j ->
  Z.testbit (Z.land (Zpos p) (Zpos p - 1)) j = Z.testbit (Zpos p) j && negb (j =? pos_ctz p).
Proof.
  revert j. induction p as [p _|p IH|]; intros j Hj; rewrite Z.land_spec.
  - simpl pos_ctz. replace (Zpos p~1) with (2 * Zpos p + 1) by lia.
    replace (2 * Zpos p + 1 - 1) with (2 * Zpos p) by lia.
    destruct (Z.eqb_spec j 0) as [->|].
    + by rewrite Z.testbit_even_0, andb_false_r.
    + replace j with (Z.succ (j - 1)) by lia.
      rewrite Z.testbit_odd_succ, Z.testbit_even_succ by lia. by destruct (Z.testbit _ _).
  - pose proof (pos_ctz_nonneg p). simpl pos_ctz. replace (Zpos p~0) with (2 * Zpos p) by lia.
    replace (2 * Zpos p - 1) with (2 * (Zpos p - 1) + 1) by lia.
    destruct (decide (j = 0)) as [->|].
    + by rewrite Z.testbit_even_0.
    + replace j with (Z.succ (j - 1)) by lia.
      rewrite Z.testbit_odd_succ, Z.testbit_even_succ by lia.
      specialize (IH (j - 1) ltac:(lia)). rewrite Z.land_spec in IH. rewrite IH.
      f_equal. f_equal. destruct (Z.eqb_spec (j - 1) (pos_ctz p)), (Z.eqb_spec (Z.succ (j - 1)) (1 + pos_ctz p)); lia || done.
  - simpl. destruct (Z.eqb_spec j 0) as [->|]; [done|].
    rewrite Z.testbit_0_l, andb_false_r. symmetry. rewrite andb_true_r.
    apply (Z.bits_above_log2 1 j); simpl; lia.
Qed.

Section scan_word_spec.
Context (D : SearchDir) `{!SearchDirLaws D} (HD : D = SearchHighest \/ D = SearchLowest).

Lemma word_bits_walks word :
  walks D (fun b => 0 <= b < 64 /\ Z.testbit word b = true) (word_bits D word).
Proof using Type. apply walks_filter, all_words_walks. Qed.

(** The bit a step of the scan takes, and the word it leaves. *)
Definition next_bit (word : Z) : Z :=
  if kIsHighest then kWordMask - countl_zero word else countr_zero word.
Definition next_word (word : Z) : Z :=
  if kIsHighest then Z.land word (not64 (Z.shiftl 1 (next_bit word))) else Z.land word (word - 1).

Lemma next_bit_find word : next_bit word = find_bit word.
Proof using HD. unfold next_bit. destruct HD as [E|E]; by rewrite E. Qed.

Lemma next_word_bits word j :
  0 < word < two64 -> 0 <= j < 64 ->
  Z.testbit (next_word word) j = Z.testbit word j && negb (j =? next_bit word).
Proof using HD SearchDirLaws0.
  intros Hw Hj. destruct (find_bit_spec word Hw) as [Hb _]. rewrite <-next_bit_find in Hb.
  unfold next_word, next_bit in *. destruct kIsHighest.
  - pose proof (shiftl_1_range _ Hb).
    by rewrite Z.land_spec, testbit_not64, testbit_shiftl_1 by lia.
  - destruct word as [|p|p]; [lia | | lia]. apply clear_lowest. lia.
Qed.

Lemma next_word_range word : 0 < word < two64 -> 0 <= next_word word < two64.
Proof using Type.
  intros Hw. assert (H0 : 0 <= next_word word) by (unfold next_word; destruct kIsHighest; apply Z.land_nonneg; lia).
  split; [done|]. apply word_bound; [done|]. intros j Hj. unfold next_word.
  destruct kIsHighest; rewrite Z.land_spec, (testbit_high word) by lia; done.
Qed.

Lemma word_bits_step word :
  0 < word < two64 -> word_bits D word = next_bit word :: word_bits D (next_word word).
Proof using HD SearchDirLaws0.
  intros Hw. destruct (find_bit_spec word Hw) as [Hb [Hbit Hex]]. rewrite <-next_bit_find in *.
  eapply walks_unique; [apply word_bits_walks | apply walks_cons; split | intros j; reflexivity].
  - split; [done|]. intros j [_ Hj]. by apply Hex.
  - eapply walks_proper, word_bits_walks. intros j. simpl. split.
    + intros [Hj Hjb]. rewrite next_word_bits in Hjb by done. apply andb_true_iff in Hjb as [Hjb Hne].
      apply negb_true_iff, Z.eqb_neq in Hne. split; [done|]. destruct (Hex j Hjb); done.
    + intros [[Hj Hjb] Hbe]. split; [done|]. rewrite next_word_bits, Hjb by done. simpl.
      apply negb_true_iff, Z.eqb_neq. intros ->. by apply beyond_irrefl in Hbe.
Qed.

Lemma word_bits_0 : word_bits D 0 = [].
Proof using Type.
  eapply walks_unique; [apply word_bits_walks | apply (walks_nil D (fun _ => False)); naive_solver |].
  intros j. simpl. rewrite Z.testbit_0_l. naive_solver.
Qed.

Lemma scan_word_fuel_each {St} (f : Z -> St -> bool * St) fuel word base st :
  0 <= word < two64 -> (length (word_bits D word) <= fuel)%nat ->
  scan_word_fuel fuel D word base f st =
  each_until f ((fun b => base * 64 + b) <$> word_bits D word) st.
Proof using HD SearchDirLaws0.
  revert word st. induction fuel as [|fuel IH]; intros word st Hw Hf.
  - destruct (word_bits D word); simpl in *; [done | lia].
  - simpl. destruct (Z.eqb_spec word 0) as [->|]; [by rewrite word_bits_0|].
    rewrite word_bits_step in Hf |- * by lia. fold (next_bit word). fold (next_word word).
    simpl in *. unfold kWordShift. rewrite Z.shiftl_mul_pow2 by lia. change (2 ^ 6) with 64.
    destruct (f (base * 64 + next_bit word) st) as [[] st']; [done|].
    apply IH; [apply next_word_range; lia | lia].
Qed.

Lemma scan_word_each {St} (f : Z -> St -> bool * St) word base st :
  0 <= word < two64 ->
  scan_word D word base f st = each_until f ((fun b => base * 64 + b) <$> word_bits D word) st.
Proof using HD SearchDirLaws0.
  intros Hw. apply scan_word_fuel_each; [done|]. unfold word_bits.
  rewrite length_filter. unfold all_words, down_to.
  destruct kIsHighest; rewrite ?length_reverse, length_seqZ; lia.
Qed.

(** The word loop visits the bits of its words, stopping when the guard fails. *)
Lemma scan_words_each {St} (f : Z -> St -> bool * St) guard bm order st :
  wf_bitmap bm -> stops_full (fun st => negb (guard st)) f (words_bits D bm order) ->
  guard st = true ->
  scan_words D bm guard f order st = each_until f (words_bits D bm order) st.
Proof using HD SearchDirLaws0.
  intros Hbm. revert st. induction order as [|w order IH]; intros st Hf Hst; [done|].
  cbn [scan_words]. rewrite Hst.
  change (words_bits D bm (w :: order)) with
    (((fun b => w * 64 + b) <$> word_bits D (zget bm w)) ++ words_bits D bm order) in *.
  rewrite each_until_app, scan_word_each by (by apply wf_bitmap_word).
  assert (Hhead : stops_full (fun st => negb (guard st)) f
    ((fun b => w * 64 + b) <$> word_bits D (zget bm w))).
  { intros x st0 Hx. apply Hf, elem_of_app. by left. }
  pose proof (each_until_full _ _ _ st Hhead) as Hfull.
  destruct (each_until f _ st) as [[] st'] eqn:E; [done|]. apply IH.
  - intros x st0 Hx. apply Hf. apply elem_of_app. by right.
  - simpl in Hfull. rewrite Hst in Hfull. specialize (Hfull eq_refl). by destruct (guard st').
Qed.

Lemma words_bits_walks bm P order :
  wf_bitmap bm -> walks D P order -> (forall w, P w -> 0 <= w) ->
  walks D (fun i => bit bm i /\ P (i / 64)) (words_bits D bm order).
Proof using Type.
  intros Hbm. revert P. induction order as [|w order IH]; intros P Hw Hpos.
  - apply walks_nil. intros j [_ Hj]. apply Hw in Hj. by apply not_elem_of_nil in Hj.
  - apply walks_cons in Hw as [[Hpw Hex] Hw].
    change (words_bits D bm (w :: order)) with
      (((fun b => w * 64 + b) <$> word_bits D (zget bm w)) ++ words_bits D bm order).
    specialize (IH _ Hw ltac:(intros ? [? _]; auto)). specialize (Hpos w Hpw) as Hw0.
    pose proof (walks_fmap D _ (fun b => w * 64 + b) _ ltac:(intros i j; unfold beyond; destruct kIsHighest; lia)
      (word_bits_walks (zget bm w))) as Hhead.
    eapply walks_proper; [|apply (walks_app D _ _ _ _ Hhead IH)].
    + intros j. simpl. split.
      * intros [(b & -> & Hb & Ht)|(? & ? & ?)]; [|done].
        destruct (div_mod_combine 64 w b Hb) as [Hd Hm]. rewrite Hd. split; [|done].
        split; [lia|]. by rewrite Hd, Hm.
      * intros [Hj HPj]. destruct (Hex _ HPj) as [He|?]; [left | by right].
        exists (j mod 64). split_and!; [pose proof (Z.div_mod j 64); lia | apply Z.mod_pos_bound; lia.. |].
        destruct Hj as [_ Hj]. by rewrite He in Hj.
    + intros i j (b & -> & Hb & _) (_ & _ & Hwj).
      apply (beyond_split D 64); [lia|]. left. by rewrite (proj1 (div_mod_combine 64 w b Hb)).
Qed.
End scan_word_spec.

(** ** Enumerating a side *)

Section side.
Context {P : Type} `{NodePool P}.
Implicit Types (s : SideBook P).

#[global] Instance active_dec s i : Decision (active s i).
Proof. unfold active. apply _. Defined.

(** The active levels of a side, from the best outwards. *)
Definition active_levels (is_bid : bool) (s : SideBook P) : list Z :=
  filter (active s) (all_words (side_dir is_bid) (4096 * zlen (buckets s))).

Lemma active_levels_walks is_bid cap s :
  wf_side cap s -> walks (side_dir is_bid) (active s) (active_levels is_bid s).
Proof.
  intros Hwf. eapply walks_proper, walks_filter, all_words_walks.
  intros j. simpl. split; [tauto|]. intros Hj. split; [by eapply level_range | done].
Qed.

Context (is_bid : bool) (cap : Z) (s : SideBook P) (Hwf : wf_side cap s).
#[local] Abbreviation D := (side_dir is_bid).

Lemma side_dir_cases : D = SearchHighest \/ D = SearchLowest.
Proof using Type. destruct is_bid; auto. Qed.

Lemma scan_word_one_eq word w :
  scan_word_one is_bid word w = if word =? 0 then -1 else w * 64 + @find_bit D word.
Proof using Type.
  unfold scan_word_one, kWordShift. rewrite Z.shiftl_mul_pow2 by lia. by destruct is_bid.
Qed.

(** The jump is the masked search over the summary. *)
Lemma jump_next_bucket_eq k :
  0 <= k < 64 * zlen (summary s) -> jump_next_bucket_impl is_bid (summary s) k =
  default (-1) (search_from D (summary s) k (@iterate_summary D (k / 64) (zlen (summary s)))).
Proof using Hwf.
  intros Hk. unfold jump_next_bucket_impl, search_from. rewrite shiftr_6, land_63.
  pose proof (ws_summary _ _ Hwf) as Hsum. pose proof (div64_range _ _ Hk) as Hw.
  assert (Hmod : 0 <= k mod 64 < 64) by (apply Z.mod_pos_bound; lia).
  replace (if is_bid then mask_before (k mod 64) else _) with (@make_mask D (k mod 64))
    by (by destruct is_bid).
  rewrite scan_word_one_eq.
  destruct (Z.eqb_spec (Z.land (zget (summary s) (k / 64)) (@make_mask D (k mod 64))) 0) as [E|E].
  - replace (if is_bid then down_to (k / 64) 0 else up_to (k / 64) (zlen (summary s)))
      with (@iterate_summary D (k / 64) (zlen (summary s))) by (by destruct is_bid).
    simpl negb. cbv iota.
    rewrite (first_some_bind (word_hit D (summary s)) _ Some); [by destruct (first_some _ _)| |eauto].
    intros w [Hw' _]%iterate_summary_spec; [|done]. unfold scan_one_hit, word_hit.
    rewrite scan_word_one_eq. pose proof (wf_bitmap_word _ w Hsum).
    destruct (Z.eqb_spec (zget (summary s) w) 0); [done|].
    destruct (find_bit_spec (D:=D) (zget (summary s) w)) as [Hb _]; [lia|]. simpl.
    unfold kBitsPerWord. by rewrite (proj2 (Z.eqb_neq _ (-1))) by lia.
  - destruct (find_bit_spec (D:=D) _ (masked_range D _ Hsum _ _ Hmod E)) as [Hb _].
    by rewrite (proj2 (Z.eqb_neq _ (-1))) by lia.
Qed.

Lemma jump_next_bucket_spec k :
  0 <= k < zlen (buckets s) ->
  nearest D (bit (summary s)) k (jump_next_bucket_impl is_bid (summary s) k) \/
  jump_next_bucket_impl is_bid (summary s) k = -1 /\ forall j, bit (summary s) j -> ~ beyond D k j.
Proof using Hwf.
  intros Hk. pose proof (ws_len _ _ Hwf). rewrite jump_next_bucket_eq by lia.
  pose proof (search_from_spec D _ (ws_summary _ _ Hwf) k
    (@iterate_summary D (k / 64) (zlen (summary s)))) as Hsearch.
  specialize (Hsearch ltac:(lia) ltac:(apply (iterate_summary_walks D); apply div64_range; lia)).
  destruct (search_from _ _ _ _); [by left | by right].
Qed.

(** The active levels of bucket [k], and those of it beyond [start]. *)
Lemma bucket_walks k node b :
  0 <= k -> zget (buckets s) k = Some (node, b) ->
  walks D (fun i => active s i /\ i / 4096 = k)
    ((fun off => k * 4096 + off) <$> words_bits D (bitmap b) (all_words D 64)).
Proof using Hwf.
  intros Hk E. destruct (ws_bucket _ _ Hwf _ _ _ E) as (Hwb & _ & _).
  pose proof (words_bits_walks D _ _ _ (wb_bitmap _ Hwb) (all_words_walks D 64)
    ltac:(intros w Hw; simpl in Hw; lia)) as Hw.
  eapply walks_proper, (walks_fmap D _ (fun off => k * 4096 + off)), Hw;
    [|intros i j; unfold beyond; destruct kIsHighest; lia].
  intros i. simpl. split.
  - intros (off & -> & Hb & _). pose proof (proj1 (wb_bit _ Hwb _) Hb) as [Ho _].
    destruct (div_mod_combine 4096 k off Ho) as [Hd Hm]. split; [|done].
    apply (active_bit _ _ _ Hwf). exists node, b. by rewrite Hd, Hm.
  - intros [Ha Hik]. apply (active_bit _ _ _ Hwf) in Ha as (node' & b' & _ & E' & Hb).
    rewrite Hik, E in E'. injection E' as <- <-. exists (i mod 4096).
    pose proof (proj1 (wb_bit _ Hwb _) Hb) as [Ho _].
    split; [pose proof (Z.div_mod i 4096); lia | split; [done | apply div64_range; lia]].
Qed.

Definition rest_of_bucket (b : Bucket) (off : Z) : list Z :=
  ((fun j => off / 64 * 64 + j) <$>
     word_bits D (Z.land (zget (bitmap b) (off / 64)) (@make_mask D (off mod 64)))) ++
  words_bits D (bitmap b) (@iterate_words D (off / 64) (if @kIsHighest D then 0 else 64)).

Lemma rest_of_bucket_walks b off :
  wf_bucket b -> 0 <= off < 4096 ->
  walks D (fun j => bit (bitmap b) j /\ beyond D off j) (rest_of_bucket b off).
Proof using Type.
  intros Hwb Ho. pose proof (wb_bitmap _ Hwb) as Hbm.
  pose proof (div64_range off 64 ltac:(lia)) as Hq.
  pose proof (words_bits_walks D _ _ _ Hbm (iterate_words_walks D (off / 64) 64 Hq)
    ltac:(intros w Hw; simpl in Hw; lia)) as Htail.
  pose proof (walks_fmap D _ (fun j => off / 64 * 64 + j) _
    ltac:(intros i j; unfold beyond; destruct kIsHighest; lia)
    (word_bits_walks D (Z.land (zget (bitmap b) (off / 64)) (@make_mask D (off mod 64))))) as Hhead.
  eapply walks_proper; [|apply (walks_app D _ _ _ _ Hhead Htail)].
  - intros j. simpl. split.
    + intros [(x & -> & Hx & Ht)|(Hb & _ & Hbe)].
      * destruct (div_mod_combine 64 (off / 64) x Hx) as [Hd Hm].
        assert (Hb : bit (bitmap b) (off / 64 * 64 + x)).
        { split; [lia|]. rewrite Hd, Hm. rewrite Z.land_spec in Ht. by apply andb_true_iff in Ht as [? _]. }
        split; [done|]. apply (masked_bit D (bitmap b) off _ Hb Hd). by rewrite Hm.
      * split; [done|]. apply (beyond_split D 64); [lia|]. by left.
    + intros [Hb Hbe]. pose proof Hbe as Hbe'. apply (beyond_split D 64) in Hbe as [?|[He ?]]; [| |lia].
      * right. pose proof (proj1 (wb_bit _ Hwb _) Hb) as [? _].
        split; [done | split; [apply div64_range; lia | done]].
      * left. exists (j mod 64). split_and!; [pose proof (Z.div_mod j 64); lia | apply Z.mod_pos_bound; lia..|].
        by apply (masked_bit D (bitmap b) off j Hb).
  - intros i j (x & -> & Hx & _) (_ & _ & Hbe).
    apply (beyond_split D 64); [lia|]. left. by rewrite (proj1 (div_mod_combine 64 _ x Hx)).
Qed.

Lemma rest_levels best node b i :
  zget (buckets s) (best / 4096) = Some (node, b) ->
  (exists j, i = best / 4096 * 4096 + j /\ bit (bitmap b) j /\ beyond D (best mod 4096) j) <->
  active s i /\ i / 4096 = best / 4096 /\ beyond D best i.
Proof using Hwf.
  intros E. pose proof (zget_in_range _ _ _ E). destruct (ws_bucket _ _ Hwf _ _ _ E) as (Hwb & _ & _).
  split.
  - intros (j & -> & Hb & Hbe). pose proof (proj1 (wb_bit _ Hwb _) Hb) as [Hj _].
    destruct (div_mod_combine 4096 (best / 4096) j Hj) as [Hd Hm]. split_and!; [|done|].
    + apply (active_bit _ _ _ Hwf). exists node, b. rewrite Hd, Hm. split_and!; try done; lia.
    + apply (beyond_split D 4096); [lia|]. right. by rewrite Hd, Hm.
  - intros (Ha & Hi & Hbe). exists (i mod 4096).
    apply (active_bit _ _ _ Hwf) in Ha as (node' & b' & _ & E' & Hb).
    rewrite Hi, E in E'. injection E' as <- <-.
    split_and!; [pose proof (Z.div_mod i 4096); lia | apply Hb.. |].
    apply (beyond_split D 4096) in Hbe as [Hbe|[_ ?]]; [| |lia]; [|done].
    rewrite Hi in Hbe. by apply beyond_irrefl in Hbe.
Qed.

(** ** Pushing levels until the caller is full *)

Section push.
Context {St : Type} (guard : St -> bool) (on_off : Bucket -> Z -> Z -> St -> bool * St).
Context (F : Z -> St -> bool * St).
Context (Hon : forall k node b off st, zget (buckets s) k = Some (node, b) -> 0 <= off < 4096 ->
  on_off b k off st = F (k * 4096 + off) st).
Context (Hfull : forall i st, active s i -> guard st = true ->
  fst (F i st) = negb (guard (snd (F i st)))).

Lemma bucket_stops k node b l :
  0 <= k -> zget (buckets s) k = Some (node, b) -> (forall off, off ∈ l -> bit (bitmap b) off) ->
  stops_full (fun st => negb (guard st)) (on_off b k) l /\
  forall st, each_until (on_off b k) l st = each_until F ((fun off => k * 4096 + off) <$> l) st.
Proof using Hfull Hon Hwf.
  intros Hk E Hl. destruct (ws_bucket _ _ Hwf _ _ _ E) as (Hwb & _ & _).
  assert (Hr : forall off, off ∈ l -> 0 <= off < 4096) by (intros off Ho; by apply Hwb, Hl).
  split.
  - intros off st Ho Hst. rewrite (Hon _ _ _ _ _ E) by auto.
    apply Hfull; [|by destruct (guard st)].
    destruct (div_mod_combine 4096 k off (Hr _ Ho)) as [Hd Hm].
    apply (active_bit _ _ _ Hwf). exists node, b. rewrite Hd, Hm. auto.
  - intros st. apply each_until_map. intros off st' Ho. by rewrite (Hon _ _ _ _ _ E) by auto.
Qed.

Lemma each_active_full l st :
  (forall i, i ∈ l -> active s i) -> guard st = true ->
  fst (each_until F l st) = negb (guard (snd (each_until F l st))).
Proof using Hfull.
  intros Hl Hst. apply (each_until_full (fun st => negb (guard st))); [|by rewrite Hst].
  intros i st' Hi Hg. apply Hfull; [auto|]. by destruct (guard st').
Qed.

Lemma consume_full_bucket_each k node b st :
  0 <= k -> zget (buckets s) k = Some (node, b) -> guard st = true ->
  consume_full_bucket is_bid guard on_off s k st =
  each_until F ((fun off => k * 4096 + off) <$> words_bits D (bitmap b) (all_words D 64)) st.
Proof using Hfull Hon Hwf.
  intros Hk E Hst. destruct (ws_bucket _ _ Hwf _ _ _ E) as (Hwb & _ & _).
  destruct (bucket_stops k node b (words_bits D (bitmap b) (all_words D 64)) Hk E) as [Hs He].
  { intros off Ho. apply (words_bits_walks D _ _ _ (wb_bitmap _ Hwb) (all_words_walks D 64)
      ltac:(intros w Hw; simpl in Hw; lia)) in Ho. apply Ho. }
  unfold consume_full_bucket. rewrite E.
  rewrite (scan_words_each D side_dir_cases) by (done || apply Hwb).
  change kBucketBitmapWords with 64. rewrite He.
  pose proof (each_active_full ((fun off => k * 4096 + off) <$> words_bits D (bitmap b) (all_words D 64)) st) as Hf.
  destruct (each_until F _ st) as [[] st']; [done|]. f_equal. symmetry. apply Hf; [|done].
  intros i Hi. by apply (bucket_walks k node b Hk E) in Hi as [? _].
Qed.

#[local] Instance beyond_dec i j : Decision (beyond D i j).
Proof. unfold beyond. destruct kIsHighest; apply _. Defined.

Lemma bucket_loop_each fuel k l st :
  0 <= k < zlen (buckets s) ->
  (Z.to_nat (if is_bid then k else zlen (buckets s) - 1 - k) < fuel)%nat ->
  walks D (fun i => active s i /\ beyond D k (i / 4096)) l ->
  bucket_loop fuel is_bid guard on_off s k st = if guard st then snd (each_until F l st) else st.
Proof using Hfull Hon Hwf.
  revert k l st. induction fuel as [|fuel IH]; intros k l st Hk Hfuel Hl; [lia|].
  cbn [bucket_loop]. destruct (guard st) eqn:Hst; [|done].
  destruct (jump_next_bucket_spec k Hk) as [(Hb & Hbit & Hn)|[-> Hno]].
  - set (k' := jump_next_bucket_impl is_bid (summary s) k) in *.
    pose proof (proj1 Hbit) as Hk'. rewrite (proj2 (Z.ltb_ge k' 0) Hk').
    pose proof (proj1 (ws_bit _ _ Hwf k') Hbit) as [[node b] E].
    pose proof (zget_in_range _ _ _ E) as Hkr.
    rewrite (consume_full_bucket_each k' node b) by done.
    pose proof (bucket_walks k' node b Hk' E) as Hw1.
    pose proof (walks_filter D _ (fun i => beyond D k' (i / 4096)) _ Hl) as Hw2.
    set (l1 := _ <$> words_bits _ _ _) in *. set (l2 := filter _ l) in *. clearbody l2.
    assert (l = l1 ++ l2) as ->.
    { eapply walks_unique; [done | apply (walks_app D _ _ _ _ Hw1 Hw2) |].
      - intros i j [_ <-] [_ Hj]. apply (beyond_split D 4096); [lia|]. by left.
      - intros i. simpl. split.
        + intros [Ha Hbe]. destruct (Hn (i / 4096)) as [?|?]; [by eapply active_summary | done | auto..].
        + intros [[Ha ->]|[? _]]; done. }
    rewrite each_until_app. pose proof (each_active_full l1 st) as Hf.
    destruct (each_until F l1 st) as [[] st'] eqn:E1; [done|].
    rewrite (IH k' l2); [|done| |].
    + simpl in Hf. destruct (guard st'); [done|].
      specialize (Hf ltac:(intros i Hi; apply Hw1 in Hi; tauto) Hst). done.
    + rewrite beyond_side in Hb. destruct is_bid; lia.
    + eapply walks_proper, Hw2. intros i. simpl. split; [tauto|]. intros [Ha Hbe].
      split; [|done]. split; [done|]. by eapply beyond_trans.
  - simpl. assert (l = []) as ->; [|done]. eapply walks_unique; [done | apply (walks_nil D (fun _ => False)); tauto |].
    intros i. simpl. split; [|done]. intros [Ha Hbe]. eapply Hno; [by eapply active_summary | done].
Qed.

(** The rest of the bucket of the best level: masked word, then the words after. *)
Lemma scan_rest_each k node b off st :
  0 <= k -> zget (buckets s) k = Some (node, b) -> 0 <= off < 4096 -> guard st = true ->
  (let '(stop, st') := scan_word D (Z.land (zget (bitmap b) (off / 64)) (@make_mask D (off mod 64)))
                         (off / 64) (on_off b k) st in
   if stop then (true, st')
   else scan_words D (bitmap b) guard (on_off b k)
          (@iterate_words D (off / 64) (if @kIsHighest D then 0 else 64)) st') =
  each_until F ((fun j => k * 4096 + j) <$> rest_of_bucket b off) st.
Proof using Hfull Hon Hwf.
  intros Hk E Ho Hst. destruct (ws_bucket _ _ Hwf _ _ _ E) as (Hwb & _ & _).
  destruct (bucket_stops k node b (rest_of_bucket b off) Hk E) as [Hs He].
  { intros j Hj. by apply (rest_of_bucket_walks b off Hwb Ho) in Hj as [? _]. }
  rewrite <-He. unfold rest_of_bucket in *. rewrite each_until_app.
  set (masked := Z.land _ _). assert (Hm : 0 <= masked < two64).
  { assert (Hmod : 0 <= off mod 64 < 64) by (apply Z.mod_pos_bound; lia).
    destruct (decide (masked = 0)) as [->|Hne]; [done|].
    pose proof (masked_range D _ (wb_bitmap _ Hwb) (off / 64) _ Hmod Hne). lia. }
  rewrite (scan_word_each D side_dir_cases) by done.
  assert (Hhead : stops_full (fun st => negb (guard st)) (on_off b k)
    ((fun j => off / 64 * 64 + j) <$> word_bits D masked)).
  { intros x st0 Hx. apply Hs, elem_of_app. by left. }
  pose proof (each_until_full _ _ _ st Hhead) as Hf. simpl in Hf. rewrite Hst in Hf.
  specialize (Hf eq_refl).
  destruct (each_until (on_off b k) _ st) as [[] st']; [done|]. simpl in Hf.
  apply (scan_words_each D side_dir_cases); [apply Hwb | | by destruct (guard st')].
  intros x st0 Hx. apply Hs, elem_of_app. by right.
Qed.

(** The best level, the rest of its bucket and the buckets after it make up
    the whole side. *)
Lemma active_levels_split best node b fuel st1 :
  extreme D (active s) best -> zget (buckets s) (best / 4096) = Some (node, b) ->
  (Z.to_nat (zlen (buckets s)) < fuel)%nat -> guard st1 = true ->
  let st2 := snd (each_until F ((fun j => best / 4096 * 4096 + j) <$> rest_of_bucket b (best mod 4096)) st1) in
  exists l, active_levels is_bid s = best :: l /\
    (if guard st2 then bucket_loop fuel is_bid guard on_off s (best / 4096) st2 else st2) =
    snd (each_until F l st1).
Proof using Hfull Hon Hwf.
  intros Hex E Hfuel Hst1. cbv zeta. pose proof (zget_in_range _ _ _ E) as Hk.
  destruct (ws_bucket _ _ Hwf _ _ _ E) as (Hwb & _ & _).
  assert (Ho : 0 <= best mod 4096 < 4096) by (apply Z.mod_pos_bound; lia).
  pose proof (active_levels_walks is_bid cap s Hwf) as Hall.
  set (l1 := (fun j => best / 4096 * 4096 + j) <$> rest_of_bucket b (best mod 4096)).
  pose proof (walks_fmap D _ (fun j => best / 4096 * 4096 + j) _
    ltac:(intros i j; unfold beyond; destruct kIsHighest; lia)
    (rest_of_bucket_walks b _ Hwb Ho)) as Hw1. fold l1 in Hw1.
  pose proof (walks_filter D _ (fun i => beyond D (best / 4096) (i / 4096)) _ Hall) as Hw2.
  set (l2 := filter _ (active_levels is_bid s)) in Hw2. exists (l1 ++ l2).
  assert (Hl1 := fun i => rest_levels best node b i E).
  split.
  - eapply walks_unique; [done| |intros; reflexivity]. apply walks_cons. split; [done|].
    eapply walks_proper; [|apply (walks_app D _ _ _ _ Hw1 Hw2)].
    + intros i. simpl. rewrite Hl1. split.
      * intros [(? & ? & ?)|[? ?]]; (split; [done|]); [done|].
        apply (beyond_split D 4096); [lia|]. by left.
      * intros [Ha Hbe]. pose proof Hbe as Hbe'.
        apply (beyond_split D 4096) in Hbe as [?|[? ?]]; [by right | | lia]. left. done.
    + intros i j (_ & Hi & _)%Hl1 [_ Hj]. apply (beyond_split D 4096); [lia|]. left. by rewrite Hi.
  - rewrite each_until_app. pose proof (each_active_full l1 st1) as Hf.
    destruct (each_until F l1 st1) as [stop st'] eqn:E1. simpl in Hf |- *.
    rewrite Hf; [|intros i Hi; by apply Hw1, Hl1 in Hi as [? _] | done].
    destruct (guard st') eqn:Hg; [|done]. simpl.
    clearbody l2. rewrite (bucket_loop_each fuel _ l2); [by rewrite Hg | done | | done].
    clear -Hfuel Hk. destruct is_bid; lia.
Qed.
End push.
End side.

(** ** What the callers get *)

Section results.
Context {P : Type} `{NodePool P}.
Implicit Types (s : SideBook P).

Lemma active_levels_none is_bid cap s :
  wf_side cap s -> (forall j, ~ active s j) -> active_levels is_bid s = [].
Proof.
  intros Hwf Hno. eapply walks_unique; [by eapply active_levels_walks | by apply walks_nil |].
  intros j. reflexivity.
Qed.

Lemma active_levels_head is_bid cap s best :
  wf_side cap s -> extreme (side_dir is_bid) (active s) best ->
  exists l, active_levels is_bid s = best :: l.
Proof.
  intros Hwf Hex. pose proof (active_levels_walks is_bid cap s Hwf) as Hw.
  destruct (active_levels is_bid s) as [|x l].
  - exfalso. apply (not_elem_of_nil best). apply Hw, Hex.
  - apply walks_cons in Hw as [Hx _]. exists l. f_equal. by eapply extreme_unique.
Qed.

Lemma level_of_bucket s k node b off :
  0 <= off < 4096 -> zget (buckets s) k = Some (node, b) ->
  level s (k * 4096 + off) = zget (orders b) off.
Proof.
  intros Ho E. unfold level. destruct (div_mod_combine 4096 k off Ho) as [-> ->]. by rewrite E.
Qed.

Lemma active_bucket s i : active s i ->
  exists node b, zget (buckets s) (i / 4096) = Some (node, b) /\
    zget (orders b) (i mod 4096) = level s i /\ is_active (zget (orders b) (i mod 4096)) = true.
Proof.
  intros [Hi Hl]. unfold level in *. destruct (zget (buckets s) (i / 4096)) as [[node b]|] eqn:E;
    simpl in *; [|lia]. exists node, b. split_and!; [done..|]. by apply Z.ltb_lt.
Qed.

(** *** Level views *)

Definition view (cfg : OrderBookConfig) (s : SideBook P) (i : Z) : LevelView :=
  mkLevelView i (level s i) (index_to_price cfg i).

Definition push_view (cfg : OrderBookConfig) (s : SideBook P) (level_ i : Z) (out : list LevelView)
    : bool * list LevelView :=
  if negb (is_active (level s i)) then (false, out)
  else let out' := out ++ [view cfg s i] in (level_ <=? zlen out', out').

Lemma push_view_each cfg s lvl l out :
  (forall i, i ∈ l -> active s i) -> zlen out < lvl ->
  snd (each_until (push_view cfg s lvl) l out) =
  out ++ take (Z.to_nat (lvl - zlen out)) (view cfg s <$> l).
Proof.
  revert out. induction l as [|i l IH]; intros out Hl Ho; simpl.
  - by rewrite take_nil, app_nil_r.
  - unfold push_view at 1. destruct (Hl i ltac:(left)) as [_ Hi].
    unfold is_active. rewrite (proj2 (Z.ltb_lt 0 _) Hi). simpl.
    assert (Hlen : zlen (out ++ [view cfg s i]) = zlen out + 1) by (by rewrite zlen_app).
    replace (Z.to_nat (lvl - zlen out)) with (S (Z.to_nat (lvl - zlen out - 1))) by lia.
    cbn [fmap list_fmap firstn]. destruct (Z.leb_spec lvl (zlen (out ++ [view cfg s i]))).
    + simpl. by replace (Z.to_nat (lvl - zlen out - 1)) with 0%nat by lia.
    + rewrite IH; [|intros j Hj; apply Hl; by right | done].
      rewrite Hlen, <-app_assoc. simpl. do 3 f_equal. lia.
Qed.

Definition on_level (cfg : OrderBookConfig) (lvl : Z) (bucket : Bucket) (bidx : Z)
    : Z -> list LevelView -> bool * list LevelView :=
  push_level_if_positive bucket bidx (index_to_price cfg) lvl.

Lemma on_level_push cfg lvl s k node b off st :
  zget (buckets s) k = Some (node, b) -> 0 <= off < 4096 ->
  on_level cfg lvl b k off st = push_view cfg s lvl (k * 4096 + off) st.
Proof.
  intros E Ho. unfold on_level, push_level_if_positive, push_view, view.
  by rewrite (level_of_bucket _ _ _ _ _ Ho E), kBucketSize_val.
Qed.

Lemma push_view_full cfg s lvl i st : active s i -> (zlen st <? lvl) = true ->
  fst (push_view cfg s lvl i st) = negb (zlen (snd (push_view cfg s lvl i st)) <? lvl).
Proof.
  intros [_ Hi] _. unfold push_view, is_active. rewrite (proj2 (Z.ltb_lt 0 _) Hi). simpl.
  apply Z.leb_antisym.
Qed.

Lemma consume_levels_each cfg is_bid cap lvl s k node b off out :
  wf_side cap s -> 0 <= k -> zget (buckets s) k = Some (node, b) -> 0 <= off < 4096 ->
  zlen out < lvl ->
  consume_levels_in_bucket is_bid (Some b) k off (index_to_price cfg) lvl out =
  snd (each_until (push_view cfg s lvl) ((fun j => k * 4096 + j) <$> rest_of_bucket is_bid b off) out).
Proof.
  intros Hwf Hk E Ho Hout. unfold consume_levels_in_bucket.
  rewrite (proj2 (Z.leb_gt lvl (zlen out)) Hout), shiftr_6, land_63.
  rewrite <-(scan_rest_each is_bid cap s Hwf (fun out => zlen out <? lvl) (on_level cfg lvl)
    (push_view cfg s lvl) (on_level_push cfg lvl s) (push_view_full cfg s lvl) k node b off)
    by (try done; by apply Z.ltb_lt).
  change kBucketBitmapWords with 64. fold (on_level cfg lvl b k).
  replace (if is_bid then if off mod 64 =? 0 then 0 else mask_before (off mod 64) else _)
    with (@make_mask (side_dir is_bid) (off mod 64)).
  2: { destruct is_bid; simpl; unfold mask_before, mask_after_inclusive; [|done].
       by destruct (off mod 64 =? 0). }
  destruct (scan_word _ _ _ _ _) as [[] out1]; [done|]. by destruct is_bid.
Qed.

Lemma peek_levels_with_qty_spec cfg is_bid cap lvl s :
  wf_side cap s -> cache_ok is_bid s ->
  peek_levels_with_qty cfg is_bid lvl s =
  (take (Z.to_nat lvl) (view cfg s <$> active_levels is_bid s), s).
Proof.
  intros Hwf Hc. unfold peek_levels_with_qty. destruct (Z.leb_spec lvl 0).
  { by replace (Z.to_nat lvl) with 0%nat by lia. }
  rewrite (best_idx_cached _ cap) by done.
  destruct (cache_idx _ _ Hc) as [[Hb0 Hex]|[-> Hno]];
    [|rewrite (active_levels_none _ cap) by done; by destruct (Z.to_nat lvl)].
  set (best := cached_best_idx s) in *. rewrite (proj2 (Z.ltb_ge best 0) Hb0).
  rewrite land_4095, Z.quot_div_nonneg by (rewrite ?kBucketSize_val; lia). rewrite kBucketSize_val.
  destruct (active_bucket s best (proj1 Hex)) as (node & b & E & Hq & Ha). rewrite E. simpl option_map.
  cbv iota. rewrite Hq in *. rewrite Ha.
  change (mkLevelView best (level s best) (index_to_price cfg best)) with (view cfg s best).
  assert (Ho : 0 <= best mod 4096 < 4096) by (apply Z.mod_pos_bound; lia).
  pose proof (zget_in_range _ _ _ E) as Hk.
  destruct (Z.leb_spec lvl (zlen [view cfg s best])) as [Hl1|Hl1].
  { destruct (active_levels_head is_bid cap s best Hwf Hex) as [l ->].
    unfold zlen in Hl1; simpl in Hl1. by replace lvl with 1 by lia. }
  rewrite (consume_levels_each cfg is_bid cap lvl s _ node b) by (done || lia).
  destruct (active_levels_split is_bid cap s Hwf (fun out => zlen out <? lvl) (on_level cfg lvl)
    (push_view cfg s lvl) (on_level_push cfg lvl s) (push_view_full cfg s lvl) best node b
    (S (Z.to_nat (zlen (buckets s)))) [view cfg s best] Hex E ltac:(lia)) as (l & Hl & Hloop);
    [by apply Z.ltb_lt |].
  f_equal. rewrite Hl. transitivity (snd (each_until (push_view cfg s lvl) l [view cfg s best])).
  - rewrite <-Hloop. destruct (zlen _ <? lvl) eqn:Hg; [done|]. simpl bucket_loop. by rewrite Hg.
  - rewrite push_view_each; [|intros i Hi; eapply active_levels_walks; [done|]; rewrite Hl; by right | done].
    replace (Z.to_nat lvl) with (S (Z.to_nat (lvl - zlen [view cfg s best]))) by (unfold zlen in *; simpl in *; lia).
    done.
Qed.

(** *** Level indices *)

Lemma walks_next is_bid (Q : Z -> Prop) pre idx post r :
  walks (side_dir is_bid) Q (pre ++ idx :: post) -> nearest (side_dir is_bid) Q idx r ->
  exists post', post = r :: post'.
Proof.
  intros Hw (Hb & HQ & Hn). pose proof (walks_sorted _ _ _ Hw) as Hs.
  assert (Hin : r ∈ post).
  { apply (walks_elem _ _ _ Hw) in HQ. apply elem_of_app in HQ as [Hr|[->|Hr]%elem_of_cons]; [| |done].
    - exfalso. apply list_elem_of_split in Hr as (l1 & l2 & ->).
      eapply beyond_irrefl, beyond_trans; [exact Hb|].
      apply (Hs l1 r (l2 ++ idx :: post)); [by rewrite <-app_assoc|]. apply elem_of_app. right. left.
    - by apply beyond_irrefl in Hb. }
  destruct post as [|x post']; [by apply not_elem_of_nil in Hin|]. exists post'. f_equal.
  apply elem_of_cons in Hin as [->|Hin]; [done|].
  assert (Hxr : beyond (side_dir is_bid) x r).
  { apply (Hs (pre ++ [idx]) x post'); [by rewrite <-app_assoc | done]. }
  assert (Hix : beyond (side_dir is_bid) idx x) by (apply (Hs pre idx (x :: post')); [done | left]).
  destruct (Hn x) as [?|Hrx]; [|done | done |].
  - apply (walks_elem _ _ _ Hw), elem_of_app. right. right. left.
  - exfalso. eapply beyond_irrefl, beyond_trans; [exact Hxr | exact Hrx].
Qed.

Lemma peek_levels_loop_spec is_bid cap s lvl fuel pre idx post :
  wf_side cap s -> active_levels is_bid s = pre ++ idx :: post ->
  (length post < fuel)%nat -> zlen (pre ++ [idx]) <= lvl < two64 ->
  peek_levels_loop fuel is_bid lvl idx s (pre ++ [idx]) =
  take (Z.to_nat lvl) (active_levels is_bid s).
Proof.
  intros Hwf. revert pre idx post. induction fuel as [|fuel IH]; intros pre idx post HL Hf Hlvl; [lia|].
  pose proof (active_levels_walks is_bid cap s Hwf) as Hw. rewrite HL in Hw |- *.
  assert (Ha : active s idx) by (apply Hw, elem_of_app; right; left).
  cbn [peek_levels_loop]. rewrite (proj2 (Z.leb_le 0 idx)) by apply Ha.
  rewrite u64_small by (unfold in_u64; pose proof (zlen_nonneg (pre ++ [idx])); lia). cbn [andb].
  replace (pre ++ idx :: post) with ((pre ++ [idx]) ++ post) by (by rewrite <-app_assoc).
  destruct (Z.ltb_spec (zlen (pre ++ [idx])) lvl).
  - destruct (next_active_spec (side_dir is_bid) cap s idx Hwf) as [Hn|[Hn Hno]];
      [by eapply level_range | |]; unfold next_active_idx.
    + destruct (walks_next _ _ _ _ _ _ Hw Hn) as [post' ->]. set (r := next_active_impl _ s idx) in *.
      rewrite (proj2 (Z.leb_le 0 r)) by apply Hn.
      rewrite (IH (pre ++ [idx]) r post'); [|by rewrite <-app_assoc | simpl in Hf; lia |].
      * by rewrite HL, <-app_assoc.
      * rewrite (zlen_app (pre ++ [idx]) [r]). change (zlen [r]) with 1. lia.
    + rewrite Hn. simpl. assert (post = []) as ->.
      { destruct post as [|x post]; [done|]. exfalso. apply (Hno x).
        - apply Hw, elem_of_app. right. right. left.
        - apply (walks_sorted _ _ _ Hw pre idx (x :: post)); [done | left]. }
      rewrite app_nil_r. destruct fuel; simpl; rewrite take_ge; try done; unfold zlen in *; lia.
  - replace (Z.to_nat lvl) with (length (pre ++ [idx])) by (unfold zlen in *; lia).
    by rewrite take_app_length.
Qed.

Lemma active_levels_bound is_bid s : (length (active_levels is_bid s) <= Z.to_nat (4096 * zlen (buckets s)))%nat.
Proof.
  unfold active_levels. rewrite length_filter. unfold all_words, down_to.
  destruct kIsHighest; rewrite ?length_reverse, length_seqZ; lia.
Qed.

Lemma peek_levels_spec is_bid cap lvl s :
  wf_side cap s -> cache_ok is_bid s -> 0 < lvl < two64 ->
  peek_levels is_bid lvl s = (take (Z.to_nat lvl) (active_levels is_bid s), s).
Proof.
  intros Hwf Hc Hlvl. unfold peek_levels. rewrite (best_idx_cached _ cap) by done.
  pose proof (active_levels_bound is_bid s) as Hbound.
  destruct (cache_idx _ _ Hc) as [[Hb0 Hex]|[-> Hno]].
  - rewrite (proj2 (Z.leb_le 0 _) Hb0).
    destruct (active_levels_head is_bid cap s _ Hwf Hex) as [l Hl]. f_equal.
    apply (peek_levels_loop_spec is_bid cap s lvl _ [] _ l Hwf Hl); [|unfold zlen; simpl; lia].
    rewrite Hl in Hbound. rewrite kBucketSize_val. simpl in Hbound. lia.
  - simpl. by rewrite (active_levels_none _ cap), take_nil.
Qed.

(** *** Quantities into spans *)

Definition push_qty (s : SideBook P) (want i : Z) (st : PeekSt) : bool * PeekSt :=
  let st' :=
    if is_active (level s i) then
      mkPeek (zset (qty_out st) (filled st) (level s i))
             (if bool_decide (idx_out st = []) then idx_out st else zset (idx_out st) (filled st) i)
             (filled st + 1)
    else st in
  (want <=? filled st', st').

Lemma push_if_active_push want s k node b off st :
  zget (buckets s) k = Some (node, b) -> 0 <= off < 4096 ->
  push_if_active b k want off st = push_qty s want (k * 4096 + off) st.
Proof.
  intros E Ho. unfold push_if_active, push_qty.
  by rewrite (level_of_bucket _ _ _ _ _ Ho E), kBucketSize_val.
Qed.

Lemma push_qty_full s want i st : active s i -> (filled st <? want) = true ->
  fst (push_qty s want i st) = negb (filled (snd (push_qty s want i st)) <? want).
Proof. intros _ _. unfold push_qty. simpl. apply Z.leb_antisym. Qed.

(** The first [filled] entries of the spans are the levels [l] and their
    quantities, the rest is as the caller passed it. *)
Record peeked (s : SideBook P) (q0 i0 : list Z) (l : list Z) (st : PeekSt) : Prop := {
  pk_filled : filled st = zlen l;
  pk_qty : qty_out st = (level s <$> l) ++ drop (length l) q0;
  pk_idx : idx_out st = if bool_decide (i0 = []) then [] else l ++ drop (length l) i0;
}.

Lemma zset_app_drop (l q0 : list Z) x :
  (length l < length q0)%nat ->
  zset (l ++ drop (length l) q0) (zlen l) x = (l ++ [x]) ++ drop (length (l ++ [x])) q0.
Proof.
  intros Hlt. unfold zset. rewrite bool_decide_true by apply zlen_nonneg.
  unfold zlen. rewrite Nat2Z.id, insert_app_r_alt by lia. rewrite Nat.sub_diag.
  destruct (drop (length l) q0) as [|y r] eqn:E.
  { assert (length (drop (length l) q0) = 0%nat) as Hz by (by rewrite E). rewrite length_drop in Hz. lia. }
  simpl. rewrite <-app_assoc. simpl. do 2 f_equal.
  rewrite length_app. simpl. rewrite <-drop_drop, E. done.
Qed.

Lemma push_qty_peeked s q0 i0 want l i st :
  peeked s q0 i0 l st -> active s i -> zlen l < zlen q0 -> i0 = [] \/ zlen l < zlen i0 ->
  peeked s q0 i0 (l ++ [i]) (snd (push_qty s want i st)).
Proof.
  intros [Hf Hq Hi] [_ Ha] Hlq Hli. unfold push_qty, is_active. rewrite (proj2 (Z.ltb_lt 0 _) Ha). simpl.
  unfold zlen in *. split; simpl.
  - rewrite Hf, zlen_app. done.
  - rewrite Hq, Hf, fmap_app. simpl. pose proof (zset_app_drop (level s <$> l) q0 (level s i)) as Hz.
    unfold zlen in Hz. rewrite length_app, !length_fmap in Hz. rewrite length_app. simpl in *.
    rewrite Hz by lia. done.
  - rewrite Hi, Hf. destruct (decide (i0 = [])) as [->|Hne].
    + rewrite !bool_decide_true; done.
    + rewrite (bool_decide_false (i0 = [])) by done. destruct Hli as [?|Hli]; [done|].
      rewrite bool_decide_false.
      * apply zset_app_drop. lia.
      * intros [_ Hd]%app_nil. apply (f_equal length) in Hd. rewrite length_drop in Hd. simpl in Hd. lia.
Qed.

Lemma push_qty_each s q0 i0 want l l' st :
  peeked s q0 i0 l st -> (forall i, i ∈ l' -> active s i) ->
  zlen l < want -> want <= zlen q0 -> i0 = [] \/ want <= zlen i0 ->
  peeked s q0 i0 (l ++ take (Z.to_nat (want - zlen l)) l') (snd (each_until (push_qty s want) l' st)).
Proof.
  revert l st. induction l' as [|i l' IH]; intros l st Hp Hl' Hlt Hq Hi; cbn [each_until].
  - by rewrite take_nil, app_nil_r.
  - pose proof (push_qty_peeked s q0 i0 want l i st Hp (Hl' i ltac:(left)) ltac:(lia) ltac:(destruct Hi; [by left | right; lia])) as Hp'.
    pose proof (push_qty_full s want i st (Hl' i ltac:(left))) as Hfull.
    rewrite (pk_filled _ _ _ _ _ Hp) in Hfull. specialize (Hfull (proj2 (Z.ltb_lt _ _) Hlt)).
    destruct (push_qty s want i st) as [stop st']. cbn [fst snd] in *.
    rewrite (pk_filled _ _ _ _ _ Hp') in Hfull.
    replace (Z.to_nat (want - zlen l)) with (S (Z.to_nat (want - zlen (l ++ [i]))))
      by (rewrite zlen_app; unfold zlen in *; simpl; lia).
    cbn [firstn]. rewrite cons_middle, app_assoc. destruct stop; cbn [snd].
    + symmetry in Hfull. apply negb_true_iff, Z.ltb_ge in Hfull.
      replace (Z.to_nat (want - zlen (l ++ [i]))) with 0%nat by lia. by rewrite take_0, app_nil_r.
    + symmetry in Hfull. apply negb_false_iff, Z.ltb_lt in Hfull.
      apply IH; try done. intros j Hj. apply Hl'. by right.
Qed.

Lemma rest_active is_bid cap s k node b off i :
  wf_side cap s -> 0 <= k -> zget (buckets s) k = Some (node, b) -> 0 <= off < 4096 ->
  i ∈ (fun j => k * 4096 + j) <$> rest_of_bucket is_bid b off -> active s i.
Proof.
  intros Hwf Hk E Ho (j & -> & Hj)%list_elem_of_fmap.
  destruct (ws_bucket _ _ Hwf _ _ _ E) as (Hwb & _ & _).
  apply (rest_of_bucket_walks is_bid b off Hwb Ho) in Hj as [Hb _].
  destruct (proj1 (wb_bit _ Hwb j) Hb) as [Hj Hq]. split; [lia|].
  by rewrite (level_of_bucket _ _ _ _ _ Hj E).
Qed.

Lemma consume_bucket_side_each is_bid cap want s k node b off st :
  wf_side cap s -> 0 <= k -> zget (buckets s) k = Some (node, b) -> 0 <= off < 4096 ->
  filled st < want ->
  consume_bucket_side is_bid (Some b) k off want st =
  each_until (push_qty s want) ((fun j => k * 4096 + j) <$> rest_of_bucket is_bid b off) st.
Proof.
  intros Hwf Hk E Ho Hst. unfold consume_bucket_side, consume_first_word, consume_following_words.
  assert (Hact := fun i => rest_active is_bid cap s k node b off i Hwf Hk E Ho).
  pose proof (each_active_full s (fun st => filled st <? want) (push_qty s want) (push_qty_full s want)
    _ st Hact (proj2 (Z.ltb_lt _ _) Hst)) as Hfull.
  revert Hfull.
  rewrite <-(scan_rest_each is_bid cap s Hwf (fun st => filled st <? want)
    (fun b k => push_if_active b k want) (push_qty s want) (push_if_active_push want s)
    (push_qty_full s want) k node b off) by (try done; by apply Z.ltb_lt).
  rewrite shiftr_6. change kBucketBitmapWords with 64.
  replace (first_mask is_bid off) with (@make_mask (side_dir is_bid) (off mod 64))
    by (unfold first_mask; rewrite land_63; by destruct is_bid).
  replace (if is_bid then down_to (off / 64) 0 else up_to (off / 64) 64)
    with (@iterate_words (side_dir is_bid) (off / 64) (if @kIsHighest (side_dir is_bid) then 0 else 64))
    by (by destruct is_bid).
  destruct (scan_word _ _ _ _ _) as [[] st1]; [done|].
  destruct (scan_words _ _ _ _ _ _) as [[] st2]; [done|]. simpl. intros Hfull.
  rewrite Z.leb_antisym. by rewrite <-Hfull.
Qed.

Lemma peek_qty_spec is_bid cap lvl q0 i0 s :
  wf_side cap s -> cache_ok is_bid s -> i0 = [] \/ Z.min lvl (zlen q0) <= zlen i0 ->
  let want := Z.min lvl (zlen q0) in
  if (want <=? 0) || bool_decide (active_levels is_bid s = [])
  then peek_qty is_bid lvl q0 i0 s = (-1, q0, i0, s)
  else exists st, peek_qty is_bid lvl q0 i0 s = (filled st, qty_out st, idx_out st, s) /\
         peeked s q0 i0 (take (Z.to_nat want) (active_levels is_bid s)) st.
Proof.
  intros Hwf Hc Hi0 want. unfold peek_qty. fold want. fold want in Hi0.
  destruct (Z.leb_spec want 0) as [|Hw]; [done|]. simpl orb.
  rewrite (best_idx_cached _ cap) by done.
  destruct (cache_idx _ _ Hc) as [[Hb0 Hex]|[-> Hno]];
    [|by rewrite (active_levels_none _ cap), bool_decide_true].
  set (best := cached_best_idx s) in *. rewrite (proj2 (Z.ltb_ge best 0) Hb0).
  rewrite land_4095, Z.quot_div_nonneg by (rewrite ?kBucketSize_val; lia). rewrite kBucketSize_val.
  destruct (active_bucket s best (proj1 Hex)) as (node & b & E & Hq & Ha). rewrite E. simpl option_map.
  cbv iota. rewrite Hq in *. rewrite Ha. pose proof (zget_in_range _ _ _ E) as Hk.
  assert (Ho : 0 <= best mod 4096 < 4096) by (apply Z.mod_pos_bound; lia).
  set (st1 := mkPeek (zset q0 0 (level s best)) _ 1).
  assert (Hst1 : peeked s q0 i0 [best] st1).
  { pose proof (push_qty_peeked s q0 i0 want [] best (mkPeek q0 i0 0)) as Hp.
    unfold push_qty in Hp. rewrite Ha in Hp. simpl in Hp. apply Hp; [split; simpl; try done| apply Hex | change (zlen []) with 0; lia | change (zlen []) with 0; destruct Hi0; [by left | right; lia]].
    case_bool_decide; [done | by rewrite drop_0]. }
  destruct (active_levels_head is_bid cap s best Hwf Hex) as [l Hl].
  rewrite Hl, bool_decide_false by done. change (filled st1) with 1. change (0 <? 1) with true. cbn [andb].
  destruct (Z.leb_spec want 1) as [Hw1|Hw1].
  { exists st1. replace want with 1 by lia. done. }
  rewrite (consume_bucket_side_each is_bid cap want s _ node b) by (done || lia).
  destruct (active_levels_split is_bid cap s Hwf (fun st => filled st <? want)
    (fun b k => push_if_active b k want) (push_qty s want) (push_if_active_push want s)
    (push_qty_full s want) best node b (S (Z.to_nat (zlen (buckets s)))) st1 Hex E ltac:(lia))
    as (l' & Hl' & Hloop); [by apply Z.ltb_lt|].
  rewrite Hl in Hl'. injection Hl' as <-.
  assert (Hact : forall i, i ∈ l -> active s i).
  { intros i Hi. eapply active_levels_walks; [done|]. rewrite Hl. by right. }
  pose proof (push_qty_each s q0 i0 want [best] l st1 Hst1 Hact ltac:(done) ltac:(lia) Hi0) as Hfin.
  rewrite <-Hloop in Hfin. clear Hloop.
  assert (Hact2 := fun i => rest_active is_bid cap s _ node b _ i Hwf (proj1 Hk) E Ho).
  pose proof (each_active_full s (fun st => filled st <? want) (push_qty s want) (push_qty_full s want)
    _ st1 Hact2 (proj2 (Z.ltb_lt _ _) Hw1)) as Hfull.
  destruct (each_until (push_qty s want) _ st1) as [stop st2]. cbn [fst snd] in Hfull, Hfin.
  replace (Z.to_nat want) with (S (Z.to_nat (want - zlen [best]))) by (unfold zlen; simpl; lia).
  destruct (filled st2 <? want); cbn [negb] in Hfull; subst stop;
    (eexists; split; [reflexivity | exact Hfin]).
Qed.
End results.

(** C8: [peek_levels_with_qty] returns the first [level] active levels of the
    side in price priority, each with its index, its quantity and its price, and
    all of them when there are fewer (none for a non-positive [level]); the
    enumeration holds every active level once. *)
Theorem peek_views_best_first {P} `{NodePool P} cfg is_bid cap lvl (s : SideBook P) :
  wf_side cap s -> cache_ok is_bid s ->
  fst (peek_levels_with_qty cfg is_bid lvl s) =
    take (Z.to_nat lvl) (view cfg s <$> active_levels is_bid s) /\
  walks (side_dir is_bid) (active s) (active_levels is_bid s).
Proof.
  intros Hwf Hc. rewrite (peek_levels_with_qty_spec cfg is_bid cap) by done.
  split; [done | by eapply active_levels_walks].
Qed.

(** The pool of the demo sides. *)
#[local] Existing Instance bucket_pool_impl.

Lemma peek_views_best_first_witness :
  (fst (peek_levels_with_qty demo_cfg true 2 demo_side) =
    take 2 (view demo_cfg demo_side <$> active_levels true demo_side) /\
   walks (side_dir true) (active demo_side) (active_levels true demo_side)) /\
  fst (peek_levels_with_qty demo_cfg true 2 demo_side) =
    [mkLevelView 4999 3 5000; mkLevelView 169 4 170].
Proof.
  destruct demo_side_ok as (Hwf & Hc & _). split; [|vm_compute; reflexivity].
  exact (peek_views_best_first demo_cfg true 2 2 demo_side Hwf Hc).
Defined.

(** [peek_qty] writes the quantities (and, when the caller passed an index
    span, the indices) of the first [min(level, qty_out.size())] active levels in
    price priority, leaves the rest of the spans alone and returns how many it
    wrote; it returns -1 and writes nothing exactly when that minimum is not
    positive or the side is empty. *)
Theorem peek_qty_best_first {P} `{NodePool P} is_bid cap lvl qty_span idx_span (s : SideBook P) :
  wf_side cap s -> cache_ok is_bid s ->
  idx_span = [] \/ Z.min lvl (zlen qty_span) <= zlen idx_span ->
  let want := Z.min lvl (zlen qty_span) in
  if (want <=? 0) || bool_decide (active_levels is_bid s = [])
  then peek_qty is_bid lvl qty_span idx_span s = (-1, qty_span, idx_span, s)
  else exists st,
    peek_qty is_bid lvl qty_span idx_span s = (filled st, qty_out st, idx_out st, s) /\
    peeked s qty_span idx_span (take (Z.to_nat want) (active_levels is_bid s)) st.
Proof. apply peek_qty_spec. Qed.

Lemma peek_qty_best_first_witness :
  (let want := Z.min 2 (zlen [0; 0; 0]) in
   if (want <=? 0) || bool_decide (active_levels true demo_side = [])
   then peek_qty true 2 [0; 0; 0] [] demo_side = (-1, [0; 0; 0], [], demo_side)
   else exists st,
     peek_qty true 2 [0; 0; 0] [] demo_side = (filled st, qty_out st, idx_out st, demo_side) /\
     peeked demo_side [0; 0; 0] [] (take (Z.to_nat want) (active_levels true demo_side)) st) /\
  fst (fst (peek_qty true 2 [0; 0; 0] [] demo_side)) = (2, [3; 4; 0]).
Proof.
  destruct demo_side_ok as (Hwf & Hc & _). split; [|vm_compute; reflexivity].
  apply (peek_qty_best_first true 2 2 [0; 0; 0] [] demo_side Hwf Hc). by left.
Defined.

(** [peek_levels], which walks with [next_active_idx] instead of scanning
    buckets, returns the indices of the same levels for every positive [level]. *)
Theorem peek_levels_best_first {P} `{NodePool P} cfg is_bid cap lvl (s : SideBook P) :
  wf_side cap s -> cache_ok is_bid s -> 0 < lvl < two64 ->
  fst (peek_levels is_bid lvl s) = take (Z.to_nat lvl) (active_levels is_bid s) /\
  fst (peek_levels is_bid lvl s) = lv_idx <$> fst (peek_levels_with_qty cfg is_bid lvl s).
Proof.
  intros Hwf Hc Hl. rewrite (peek_levels_spec is_bid cap) by done.
  rewrite (peek_levels_with_qty_spec cfg is_bid cap) by done. split; [done|]. simpl.
  rewrite fmap_take, <-list_fmap_compose. by rewrite (list_fmap_id (active_levels is_bid s)) at 1.
Qed.

Lemma peek_levels_best_first_witness :
  fst (peek_levels true 3 demo_side) = take 3 (active_levels true demo_side) /\
  fst (peek_levels true 3 demo_side) = lv_idx <$> fst (peek_levels_with_qty demo_cfg true 3 demo_side).
Proof.
  destruct demo_side_ok as (Hwf & Hc & _).
  apply (peek_levels_best_first demo_cfg true 2 3 demo_side Hwf Hc). unfold two64. lia.
Defined.
