(* ===== verification/FlatOrderBook.v ===== *)
(** * The flat order book (src/hft/src/order_book.hpp, USE_FLAT_ORDERBOOK)

    One array of orders per side with a bitmap of the active levels and a
    summary bitmap of the non-zero words.  The members per side are one record;
    [_bid] and [_ask] code that differs only in the direction is one definition.
    The two [next_active] functions differ by more than the direction and are
    separate; a shift by the word width, undefined in C++, is [None].
    The theorems show that the handler implements the same price ladders as the
    bucketed book, in-range clears included. *)

From S2P Require Import Prelude BitScan Types OrderBook OrderBookFacts OrderBookRefine OrderBookPeek.

Module FlatOrderBook.

(** ** State *)

Record FlatSide := mkFlat {
  f_orders : list Z;
  f_bitmap : list Z;
  f_summary : list Z;
  f_cached : Z;
}.

Record FlatBook := mkFlatBook {
  f_config : OrderBookConfig;
  f_bid : FlatSide;
  f_ask : FlatSide;
  f_bbo : BBO;
}.

(** [OrderBookConfig::from_ini] under USE_FLAT_ORDERBOOK, exact as long as the
    number of levels is an [int]. *)
Definition flat_from_ini (min_price max_price : Z) : OrderBookConfig :=
  let num_levels := max_price - min_price + 1 in
  {| min_price_int := min_price; max_price_int := max_price;
     num_levels := num_levels;
     bitmap_words := Z.quot (num_levels + kBitsPerWord - 1) kBitsPerWord;
     bucket_count := 0; summary_words := 0; bucket_pool_size := 0 |}.

Definition new_flat_side (cfg : OrderBookConfig) : FlatSide :=
  mkFlat (replicate (Z.to_nat (num_levels cfg)) 0)
         (replicate (Z.to_nat (bitmap_words cfg)) 0)
         (replicate (Z.to_nat (Z.quot (bitmap_words cfg + kBitsPerWord - 1) kBitsPerWord)) 0) (-1).

Definition new_flat_book (cfg : OrderBookConfig) : FlatBook :=
  mkFlatBook cfg (new_flat_side cfg) (new_flat_side cfg) BBO_default.

Definition fget (is_bid : bool) (bk : FlatBook) : FlatSide := if is_bid then f_bid bk else f_ask bk.
Definition fset (is_bid : bool) (s : FlatSide) (bk : FlatBook) : FlatBook :=
  if is_bid then mkFlatBook (f_config bk) s (f_ask bk) (f_bbo bk)
  else mkFlatBook (f_config bk) (f_bid bk) s (f_bbo bk).
Definition fset_bbo (b : BBO) (bk : FlatBook) : FlatBook :=
  mkFlatBook (f_config bk) (f_bid bk) (f_ask bk) b.
Definition with_fcached (i : Z) (s : FlatSide) : FlatSide :=
  mkFlat (f_orders s) (f_bitmap s) (f_summary s) i.

(** ** Updates and searches *)

(** [update_bid(idx, qty)] / [update_ask(idx, qty)] *)
Definition flat_update (idx qty : Z) (s : FlatSide) : FlatSide :=
  let orders := zset (f_orders s) idx qty in
  let word := Z.shiftr idx kWordShift in
  let mask := Z.shiftl 1 (Z.land idx kWordMask) in
  let summary_idx := Z.shiftr word kWordShift in
  let sbit := Z.shiftl 1 (Z.land word kWordMask) in
  if 0 <? qty then
    let summary :=
      if zget (f_bitmap s) word =? 0
      then zset (f_summary s) summary_idx (Z.lor (zget (f_summary s) summary_idx) sbit)
      else f_summary s in
    mkFlat orders (zset (f_bitmap s) word (Z.lor (zget (f_bitmap s) word) mask)) summary (f_cached s)
  else
    let bitmap := zset (f_bitmap s) word (Z.land (zget (f_bitmap s) word) (not64 mask)) in
    let summary :=
      if zget bitmap word =? 0
      then zset (f_summary s) summary_idx (Z.land (zget (f_summary s) summary_idx) (not64 sbit))
      else f_summary s in
    mkFlat orders bitmap summary (f_cached s).

(** [is_bid_idx_valid] / [is_ask_idx_valid] *)
Definition flat_idx_valid (idx : Z) (s : FlatSide) : bool :=
  (0 <=? idx) && is_active (zget (f_orders s) idx).

(** A summary word that is hit: its first word, and the first bit of that. *)
Definition flat_hit (D : SearchDir) (s : FlatSide) (sw : Z) : option Z :=
  let s_word := zget (f_summary s) sw in
  if s_word =? 0 then None
  else
    let word_idx := Z.shiftl sw kWordShift + find_bit s_word in
    Some (Z.shiftl word_idx kWordShift + find_bit (zget (f_bitmap s) word_idx)).

(** [best_bid_idx] / [best_ask_idx] *)
Definition flat_best_idx (is_bid : bool) (s : FlatSide) : Z * FlatSide :=
  if (0 <=? f_cached s) && is_active (zget (f_orders s) (f_cached s)) then (f_cached s, s)
  else
    let r := default (-1) (first_some (flat_hit (side_dir is_bid) s)
                             (all_words (side_dir is_bid) (zlen (f_summary s)))) in
    (r, with_fcached r s).

Definition flat_best_price (cfg : OrderBookConfig) (is_bid : bool) (s : FlatSide) : Z * FlatSide :=
  let '(idx, s') := flat_best_idx is_bid s in
  (if 0 <=? idx then index_to_price cfg idx else kInvalidValue, s').

Definition flat_best_qty (is_bid : bool) (s : FlatSide) : Z * FlatSide :=
  let '(idx, s') := flat_best_idx is_bid s in
  (if idx <? 0 then kInvalidValue else zget (f_orders s') idx, s').

Definition flat_refresh (is_bid : bool) (bk : FlatBook) : FlatBook :=
  let '(price, s1) := flat_best_price (f_config bk) is_bid (fget is_bid bk) in
  let '(qty, s2) := flat_best_qty is_bid s1 in
  fset_bbo (bbo_set is_bid price qty (f_bbo bk)) (fset is_bid s2 bk).

(** [1ULL << n]: undefined from the word width on. *)
Definition shl64 (n : Z) : option Z := if n <? 64 then Some (Z.shiftl 1 n) else None.

(** [next_active_bid(start_idx)] *)
Definition flat_next_active_bid (cfg : OrderBookConfig) (s : FlatSide) (start_idx : Z) : option Z :=
  if start_idx <=? 0 then Some (-1)
  else
    let word_idx := Z.shiftr (start_idx - 1) kWordShift in
    if bitmap_words cfg <=? word_idx then Some (-1)
    else
      let bit_pos := Z.land (start_idx - 1) kWordMask in
      match shl64 (bit_pos + 1) with
      | None => None
      | Some m =>
          let word := Z.land (zget (f_bitmap s) word_idx) (m - 1) in
          if word =? 0 then
            Some (default (-1) (first_some (word_hit SearchHighest (f_bitmap s)) (down_to word_idx 0)))
          else Some (Z.shiftl word_idx kWordShift + (kWordMask - countl_zero word))
      end.

(** [next_active_ask(start_idx)] *)
Definition flat_next_active_ask (cfg : OrderBookConfig) (s : FlatSide) (start_idx : Z) : option Z :=
  if num_levels cfg - 1 <=? start_idx then Some (-1)
  else
    let word_idx := Z.shiftr (start_idx + 1) kWordShift in
    if bitmap_words cfg <=? word_idx then Some (-1)
    else
      let bit_pos := Z.land (start_idx + 1) kWordMask in
      match shl64 bit_pos with
      | None => None
      | Some m =>
          let word := Z.land (zget (f_bitmap s) word_idx) (not64 (m - 1)) in
          if word =? 0 then
            Some (default (-1) (first_some (word_hit SearchLowest (f_bitmap s))
                                  (up_to word_idx (bitmap_words cfg))))
          else Some (Z.shiftl word_idx kWordShift + countr_zero word)
      end.

Definition flat_next_active_idx (cfg : OrderBookConfig) (is_bid : bool) (s : FlatSide) (start_idx : Z)
    : option Z :=
  if is_bid then flat_next_active_bid cfg s start_idx else flat_next_active_ask cfg s start_idx.

(** The shared shape of the peek loops: from [idx], collect the active levels
    with [push] while [more] holds; a level is visited once. *)
Fixpoint flat_walk {St} (fuel : nat) (cfg : OrderBookConfig) (is_bid : bool) (s : FlatSide)
    (more : St -> bool) (push : Z -> St -> St) (idx : Z) (st : St) : option St :=
  match fuel with
  | O => Some st
  | S fuel' =>
      if more st then
        match flat_next_active_idx cfg is_bid s idx with
        | None => None
        | Some idx' =>
            if idx' <? 0 then Some st
            else flat_walk fuel' cfg is_bid s more push idx' (push idx' st)
        end
      else Some st
  end.

(** [peek_levels(is_bid, level)] *)
Definition flat_peek_levels (cfg : OrderBookConfig) (is_bid : bool) (level : Z) (s : FlatSide)
    : option (list Z) :=
  let '(idx, s') := flat_best_idx is_bid s in
  if 0 <=? idx then
    flat_walk (S (Z.to_nat (num_levels cfg))) cfg is_bid s' (fun out => zlen out <? u64 level)
      (fun i out => out ++ [i]) idx [idx]
  else Some [].

(** [peek_levels_with_qty(is_bid, level, out)] *)
Definition flat_peek_levels_with_qty (cfg : OrderBookConfig) (is_bid : bool) (level : Z)
    (s : FlatSide) : option (list LevelView) :=
  if level <=? 0 then Some []
  else
    let '(idx, s') := flat_best_idx is_bid s in
    if idx <? 0 then Some []
    else
      let push i out :=
        if is_active (zget (f_orders s') i)
        then out ++ [mkLevelView i (zget (f_orders s') i) (index_to_price cfg i)] else out in
      flat_walk (S (Z.to_nat (num_levels cfg))) cfg is_bid s' (fun out => zlen out <? level)
        push idx (push idx []).

(** [peek_qty<int64_t>(is_bid, level, qty_out, idx_out)] *)
Definition flat_peek_qty (cfg : OrderBookConfig) (is_bid : bool) (level : Z)
    (qty_span idx_span : list Z) (s : FlatSide) : option (Z * list Z * list Z) :=
  let want := Z.min level (zlen qty_span) in
  if want <=? 0 then Some (-1, qty_span, idx_span)
  else
    let '(idx, s') := flat_best_idx is_bid s in
    if idx <? 0 then Some (-1, qty_span, idx_span)
    else
      let push i st :=
        if is_active (zget (f_orders s') i) then
          mkPeek (zset (qty_out st) (filled st) (zget (f_orders s') i))
                 (if bool_decide (idx_out st = []) then idx_out st
                  else zset (idx_out st) (filled st) i)
                 (filled st + 1)
        else st in
      match flat_walk (S (Z.to_nat (num_levels cfg))) cfg is_bid s' (fun st => filled st <? want)
              push idx (push idx (mkPeek qty_span idx_span 0)) with
      | None => None
      | Some st => Some (filled st, qty_out st, idx_out st)
      end.

(** [get_qty_at_idx(is_bid, idx)] *)
Definition get_qty_at_idx (is_bid : bool) (idx : Z) (bk : FlatBook) : Z :=
  if (idx <? 0) || (num_levels (f_config bk) <=? idx) then 0
  else zget (f_orders (fget is_bid bk)) idx.

(** ** Order operations *)

(** [add_order(market_update, idx, qty)] *)
Definition flat_add_order (side : Side) (idx qty : Z) (bk : FlatBook) : FlatBook :=
  let is_bid := is_bid_of side in
  let s := flat_update idx qty (fget is_bid bk) in
  let better := if is_bid then f_cached s <? idx else (f_cached s <? 0) || (idx <? f_cached s) in
  let s1 := if better then with_fcached idx s else s in
  if flat_idx_valid (f_cached s1) s1 then
    fset_bbo (bbo_set is_bid (index_to_price (f_config bk) (f_cached s1))
                (zget (f_orders s1) (f_cached s1)) (f_bbo bk)) (fset is_bid s1 bk)
  else flat_refresh is_bid (fset is_bid s1 bk).

(** [delete_order(market_update, idx)] *)
Definition flat_delete_order (side : Side) (idx : Z) (bk : FlatBook) : FlatBook :=
  let is_bid := is_bid_of side in
  let s := flat_update idx 0 (fget is_bid bk) in
  if negb (idx =? f_cached s) && flat_idx_valid (f_cached s) s then fset is_bid s bk
  else flat_refresh is_bid (fset is_bid s bk).

(** [trade_order(market_update, idx)] *)
Definition flat_trade_order (side : Side) (idx trade_qty : Z) (bk : FlatBook) : FlatBook :=
  let is_bid := is_bid_of side in
  let s := fget is_bid bk in
  if is_active (zget (f_orders s) idx) then
    let left := zget (f_orders s) idx - trade_qty in
    let s1 := mkFlat (zset (f_orders s) idx left) (f_bitmap s) (f_summary s) (f_cached s) in
    let s2 := if is_active left then s1 else flat_update idx 0 s1 in
    if negb (idx =? f_cached s2) && flat_idx_valid (f_cached s2) s2 then
      fset_bbo (bbo_set_qty is_bid (zget (f_orders s2) (f_cached s2)) (f_bbo bk)) (fset is_bid s2 bk)
    else flat_refresh is_bid (fset is_bid s2 bk)
  else bk.

Definition flat_clear_side (s : FlatSide) : FlatSide :=
  mkFlat ((fun _ => 0) <$> f_orders s) ((fun _ => 0) <$> f_bitmap s)
         ((fun _ => 0) <$> f_summary s) (f_cached s).

(** [on_market_data_updated(market_update)] *)
Definition flat_on_market_data_updated (md : MarketData) (bk : FlatBook)
    : FlatBook * list Notification :=
  let cfg := f_config bk in
  if (max_price_int cfg <? md_price md) || (md_price md <? min_price_int cfg) then (bk, [])
  else
    let idx := price_to_index cfg (md_price md) in
    let updated bk' :=
      (bk', [OnOrderbookUpdated (md_ticker_id md) (md_price md) (md_side md)]) in
    match md_type md with
    | MUInvalid => updated bk
    | MUClear =>
        (mkFlatBook cfg (flat_clear_side (f_bid bk)) (flat_clear_side (f_ask bk)) BBO_default, [])
    | MUAdd | MUModify => updated (flat_add_order (md_side md) idx (md_qty md) bk)
    | MUCancel => updated (flat_delete_order (md_side md) idx bk)
    | MUTrade => (bk, [OnTradeUpdated md])
    | MUBookTicker => (bk, [OnBookTickerUpdated md])
    end.

(** ** Well-formedness *)

Definition factive (s : FlatSide) (i : Z) : Prop := 0 <= i /\ 0 < zget (f_orders s) i.

(** A side with [n] levels. *)
Record wf_flat (n : Z) (s : FlatSide) : Prop := {
  wf_orders : zlen (f_orders s) = n;
  wf_bits : wf_bitmap (f_bitmap s);
  wf_words : n <= 64 * zlen (f_bitmap s);
  wf_sum : wf_bitmap (f_summary s);
  wf_sum_words : zlen (f_bitmap s) <= 64 * zlen (f_summary s);
  wf_bit i : bit (f_bitmap s) i <-> factive s i;
  wf_sum_bit w : bit (f_summary s) w <-> exists i, bit (f_bitmap s) i /\ i / 64 = w;
}.

Lemma factive_range n s i : wf_flat n s -> factive s i -> 0 <= i < n.
Proof.
  intros Hwf [Hi Ha]. destruct (decide (0 <= i < zlen (f_orders s))) as [Hr|Hr].
  - rewrite (wf_orders _ _ Hwf) in Hr. done.
  - rewrite zget_out in Ha by done. unfold dflt, Dflt_Z in Ha. lia.
Qed.

Lemma word_zero_no_bit bm w i : zget bm w = 0 -> bit bm i -> i / 64 <> w.
Proof. intros Hz [_ Hb] <-. by rewrite Hz, Z.testbit_0_l in Hb. Qed.

Lemma flat_update_eq idx qty s :
  flat_update idx qty s =
  if 0 <? qty then
    mkFlat (zset (f_orders s) idx qty) (set_bit (f_bitmap s) idx)
      (if zget (f_bitmap s) (idx / 64) =? 0 then set_bit (f_summary s) (idx / 64) else f_summary s)
      (f_cached s)
  else
    mkFlat (zset (f_orders s) idx qty) (clear_bit (f_bitmap s) idx)
      (if zget (clear_bit (f_bitmap s) idx) (idx / 64) =? 0
       then clear_bit (f_summary s) (idx / 64) else f_summary s)
      (f_cached s).
Proof. unfold flat_update, set_bit, clear_bit. by rewrite !shiftr_6, !land_63. Qed.

Lemma flat_update_orders idx qty s :
  f_orders (flat_update idx qty s) = zset (f_orders s) idx qty /\
  f_cached (flat_update idx qty s) = f_cached s.
Proof. rewrite flat_update_eq. by destruct (0 <? qty). Qed.

Lemma flat_update_active n s idx qty i :
  wf_flat n s -> 0 <= idx < n ->
  (factive (flat_update idx qty s) i <-> if decide (i = idx) then 0 < qty else factive s i).
Proof.
  intros Hwf Hi. unfold factive. rewrite (proj1 (flat_update_orders idx qty s)).
  rewrite zget_zset by (rewrite (wf_orders _ _ Hwf); done).
  repeat case_decide; subst; try done. intuition lia.
Qed.

Lemma flat_update_wf n s idx qty :
  wf_flat n s -> 0 <= idx < n -> wf_flat n (flat_update idx qty s).
Proof.
  intros Hwf Hi. pose proof (fun i => flat_update_active n s idx qty i Hwf Hi) as Hact.
  pose proof Hwf as [Ho Hb Hw Hs Hsw Hbit Hsbit].
  assert (Hir : 0 <= idx < 64 * zlen (f_bitmap s)) by lia.
  pose proof (div64_range _ _ Hir) as Hq.
  assert (Hqr : 0 <= idx / 64 < 64 * zlen (f_summary s)) by lia.
  rewrite flat_update_eq in Hact |- *. destruct (Z.ltb_spec 0 qty).
  - split; cbn [f_orders f_bitmap f_summary] in *; autorewrite with hft_len; auto with hft.
    + by case_match; auto with hft.
    + case_match; autorewrite with hft_len; done.
    + intros i. rewrite Hact, bit_set_bit, Hbit by done. case_decide; naive_solver.
    + intros w. setoid_rewrite bit_set_bit; [|done].
      assert (Hex : (exists i, (i = idx \/ bit (f_bitmap s) i) /\ i / 64 = w) <->
        w = idx / 64 \/ exists i, bit (f_bitmap s) i /\ i / 64 = w) by naive_solver.
      rewrite Hex. destruct (Z.eqb_spec (zget (f_bitmap s) (idx / 64)) 0) as [Hz|Hz].
      * by rewrite bit_set_bit, Hsbit by done.
      * rewrite Hsbit. split; [tauto|]. intros [->|?]; [|done].
        destruct (word_has_bit SearchLowest _ Hb (idx / 64)) as (i & Hib & Hiw); [lia | done | eauto].
  - split; cbn [f_orders f_bitmap f_summary] in *; autorewrite with hft_len; auto with hft.
    + by case_match; auto with hft.
    + case_match; autorewrite with hft_len; done.
    + intros i. rewrite Hact, bit_clear_bit, Hbit by done. case_decide; naive_solver lia.
    + intros w. pose proof (clear_bit_wf _ Hb idx Hir) as Hwf'.
      assert (Hsub : (exists i, bit (clear_bit (f_bitmap s) idx) i /\ i / 64 = w) ->
        exists i, bit (f_bitmap s) i /\ i / 64 = w).
      { intros (i & [_ ?]%bit_clear_bit & ?); eauto. }
      assert (Hsame : w <> idx / 64 -> (exists i, bit (f_bitmap s) i /\ i / 64 = w) ->
        exists i, bit (clear_bit (f_bitmap s) idx) i /\ i / 64 = w).
      { intros Hne (i & Hib & Hiw). exists i. rewrite bit_clear_bit by done. split; [|done].
        split; [congruence | done]. }
      destruct (Z.eqb_spec (zget (clear_bit (f_bitmap s) idx) (idx / 64)) 0) as [Hz|Hz].
      * rewrite bit_clear_bit, Hsbit by done. split; [intros [? ?]; auto|].
        intros Hi'. split; [|auto]. destruct Hi' as (i & Hib & Hiw).
        intros ->. by eapply word_zero_no_bit.
      * rewrite Hsbit. split; [|auto]. intros Hi'. destruct (decide (w = idx / 64)) as [->|?]; [|auto].
        apply (word_has_bit SearchLowest _ Hwf'); [lia | done].
Qed.

(** ** The best level *)

Definition flat_cache_ok (is_bid : bool) (s : FlatSide) : Prop :=
  extreme (side_dir is_bid) (factive s) (f_cached s) \/ forall j, ~ factive s j.

(** What the fast path of a search relies on. *)
Definition flat_cache_sound (is_bid : bool) (s : FlatSide) : Prop :=
  factive s (f_cached s) -> extreme (side_dir is_bid) (factive s) (f_cached s).

Lemma flat_cache_ok_sound is_bid s : flat_cache_ok is_bid s -> flat_cache_sound is_bid s.
Proof. intros [?|Hno] Ha; [done | by apply Hno in Ha]. Qed.

(** The quote of a side is that of its best level. *)
Definition flat_quote (cfg : OrderBookConfig) (is_bid : bool) (s : FlatSide) (price qty : Z) : Prop :=
  (exists r, extreme (side_dir is_bid) (factive s) r /\
     price = index_to_price cfg r /\ qty = zget (f_orders s) r) \/
  ((forall j, ~ factive s j) /\ price = kInvalidValue /\ qty = kInvalidValue).

Lemma flat_idx_valid_spec i s : flat_idx_valid i s = true <-> factive s i.
Proof. unfold flat_idx_valid, factive, is_active. rewrite andb_true_iff, Z.leb_le, Z.ltb_lt. done. Qed.

Lemma flat_search_spec is_bid n s :
  wf_flat n s ->
  match first_some (flat_hit (side_dir is_bid) s) (all_words (side_dir is_bid) (zlen (f_summary s))) with
  | Some r => extreme (side_dir is_bid) (factive s) r
  | None => forall j, ~ factive s j
  end.
Proof.
  intros [Ho Hb Hw Hs Hsw Hbit Hsbit]. set (D := side_dir is_bid).
  rewrite (first_some_bind (word_hit D (f_summary s)) _
    (fun w => Some (w * 64 + @find_bit D (zget (f_bitmap s) w)))); [| |eauto].
  2: { intros w _. unfold flat_hit, word_hit. destruct (_ =? 0); [done|]. simpl.
       unfold kWordShift, kBitsPerWord. by rewrite !Z.shiftl_mul_pow2. }
  pose proof (words_search D _ Hs _ _ (all_words_walks D (zlen (f_summary s)))
    ltac:(intros w Hw'; cbv beta in Hw'; lia)) as Hsearch.
  assert (Hin : forall j, factive s j -> bit (f_summary s) (j / 64) /\ 0 <= j / 64 / 64 < zlen (f_summary s)).
  { intros j Hj%Hbit. assert (Hsb : bit (f_summary s) (j / 64)) by (apply Hsbit; eauto).
    split; [done|]. apply div64_range, (bit_range _ _ Hs Hsb). }
  destruct (first_some _ _) as [w|]; simpl.
  - destruct Hsearch as (Hwb & _ & Hex). pose proof (proj1 Hwb) as Hw0.
    apply Hsbit in Hwb as (i & Hi & Hiw).
    assert (Hne : zget (f_bitmap s) w <> 0) by (intros Hz; by eapply word_zero_no_bit).
    pose proof (word_hit_Some D _ Hb w) as Hhit. unfold word_hit in Hhit.
    change kBitsPerWord with 64 in Hhit. rewrite (proj2 (Z.eqb_neq _ 0) Hne) in Hhit. destruct (Hhit _ eq_refl Hw0) as (Hd & Hr & Hbest).
    split; [by apply Hbit|]. intros j Hj. destruct (Hin j Hj) as [Hjs Hjr].
    destruct (Hex _ Hjs Hjr) as [He|He]; [apply Hbest; [by apply Hbit | done]|].
    right. apply (beyond_split D 64); [lia|]. left. by rewrite Hd.
  - intros j Hj. destruct (Hin j Hj) as [Hjs Hjr]. by eapply Hsearch.
Qed.

Lemma flat_best_idx_spec is_bid n s :
  wf_flat n s -> flat_cache_sound is_bid s ->
  exists r, flat_best_idx is_bid s = (r, with_fcached r s) /\
    (extreme (side_dir is_bid) (factive s) r \/ r = -1 /\ forall j, ~ factive s j).
Proof.
  intros Hwf Hc. unfold flat_best_idx. fold (flat_idx_valid (f_cached s) s).
  destruct (flat_idx_valid (f_cached s) s) eqn:E.
  - apply flat_idx_valid_spec in E. exists (f_cached s). split; [by destruct s|].
    left. by apply Hc.
  - eexists. split; [done|]. pose proof (flat_search_spec is_bid n s Hwf) as Hs.
    destruct (first_some _ _); [by left | by right].
Qed.

Lemma flat_refresh_spec is_bid n bk :
  wf_flat n (fget is_bid bk) -> flat_cache_sound is_bid (fget is_bid bk) ->
  exists r price qty,
    flat_refresh is_bid bk = fset_bbo (bbo_set is_bid price qty (f_bbo bk))
                               (fset is_bid (with_fcached r (fget is_bid bk)) bk) /\
    flat_cache_ok is_bid (with_fcached r (fget is_bid bk)) /\
    flat_quote (f_config bk) is_bid (with_fcached r (fget is_bid bk)) price qty.
Proof.
  intros Hwf Hc. set (s := fget is_bid bk) in *.
  destruct (flat_best_idx_spec is_bid n s Hwf Hc) as (r & Hr & Hcase).
  assert (Hc' : flat_cache_ok is_bid (with_fcached r s)) by (destruct Hcase as [?|[_ ?]]; [by left | by right]).
  assert (Hwf' : wf_flat n (with_fcached r s)) by (by destruct Hwf).
  destruct (flat_best_idx_spec is_bid n _ Hwf' (flat_cache_ok_sound _ _ Hc')) as (r' & Hr' & Hcase').
  assert (r' = r) as ->.
  { change (factive (with_fcached r s)) with (factive s) in Hcase'.
    destruct Hcase as [Hx|[-> Hno]], Hcase' as [Hx'|[-> Hno']]; try done.
    - by eapply extreme_unique.
    - by destruct (Hno' _ (proj1 Hx)).
    - by destruct (Hno _ (proj1 Hx')). }
  exists r, (if 0 <=? r then index_to_price (f_config bk) r else kInvalidValue),
    (if r <? 0 then kInvalidValue else zget (f_orders s) r).
  split_and!; [|done|].
  - unfold flat_refresh, flat_best_price, flat_best_qty. fold s. rewrite Hr, Hr'. done.
  - destruct Hcase as [Hx|[-> Hno]]; [left|right; done]. exists r. split; [done|].
    destruct Hx as [[Hr0 _] _]. rewrite (proj2 (Z.leb_le 0 r) Hr0), (proj2 (Z.ltb_ge r 0) Hr0). done.
Qed.

(** ** The book *)

Record flat_side_ok (cfg : OrderBookConfig) (is_bid : bool) (s : FlatSide) (price qty : Z) : Prop := {
  fo_wf : wf_flat (num_levels cfg) s;
  fo_cache : flat_cache_ok is_bid s;
  fo_quote : flat_quote cfg is_bid s price qty;
}.

Definition flat_ok (bk : FlatBook) : Prop :=
  forall is_bid, flat_side_ok (f_config bk) is_bid (fget is_bid bk)
                   (bbo_price is_bid (f_bbo bk)) (bbo_qty is_bid (f_bbo bk)).

Lemma flat_ok_set is_bid s bk price qty :
  flat_ok bk -> flat_side_ok (f_config bk) is_bid s price qty ->
  flat_ok (fset_bbo (bbo_set is_bid price qty (f_bbo bk)) (fset is_bid s bk)).
Proof.
  intros Hb Hs. pose proof (Hb true). pose proof (Hb false). intros []; destruct is_bid; done.
Qed.

Lemma fset_same is_bid s bk :
  fset is_bid s bk = fset_bbo (bbo_set is_bid (bbo_price is_bid (f_bbo bk))
                                 (bbo_qty is_bid (f_bbo bk)) (f_bbo bk)) (fset is_bid s bk).
Proof. rewrite bbo_set_same. by destruct is_bid. Qed.

Definition flat_represents (base : Z) (s : FlatSide) (m : ladder) : Prop :=
  forall price q, m !! price = Some q <->
    factive s (price - base) /\ q = zget (f_orders s) (price - base).

Definition flat_book_represents (bk : FlatBook) (l : Ladders) : Prop :=
  forall is_bid, flat_represents (min_price_int (f_config bk)) (fget is_bid bk) (side_ladder is_bid l).

(** [bk'] differs from [bk] on one side, whose orders got [qty] at [idx]. *)
Definition flat_steps (is_bid : bool) (bk bk' : FlatBook) (idx qty : Z) : Prop :=
  f_config bk' = f_config bk /\ fget (negb is_bid) bk' = fget (negb is_bid) bk /\
  f_orders (fget is_bid bk') = zset (f_orders (fget is_bid bk)) idx qty.

Lemma flat_steps_represents side bk bk' price qty l :
  flat_ok bk -> min_price_int (f_config bk) <= price ->
  price - min_price_int (f_config bk) < num_levels (f_config bk) ->
  flat_steps (is_bid_of side) bk bk' (price - min_price_int (f_config bk)) qty ->
  flat_book_represents bk l -> flat_book_represents bk' (spec_side side price qty l).
Proof.
  intros Hok Hlo Hhi (Hcfg & Hother & Hord) Hl is_bid. rewrite Hcfg. unfold spec_side.
  destruct (decide (is_bid = is_bid_of side)) as [->|Hne].
  - specialize (Hl (is_bid_of side)). pose proof (fo_wf _ _ _ _ _ (Hok (is_bid_of side))) as Hwf.
    assert (Hup : flat_represents (min_price_int (f_config bk)) (fget (is_bid_of side) bk')
      (spec_update price qty (side_ladder (is_bid_of side) l))).
    2: by destruct (is_bid_of side).
    intros p q. specialize (Hl p q). unfold factive in *. rewrite Hord, zget_zset by (rewrite (wf_orders _ _ Hwf); lia).
    unfold spec_update, is_active. destruct (decide (p = price)) as [->|Hp].
    + rewrite decide_True by done. destruct (Z.ltb_spec 0 qty);
        rewrite ?lookup_insert_eq, ?lookup_delete_eq; naive_solver lia.
    + rewrite decide_False by lia. destruct (Z.ltb_spec 0 qty);
        rewrite ?lookup_insert_ne, ?lookup_delete_ne by done; done.
  - specialize (Hl is_bid). replace (negb (is_bid_of side)) with is_bid in Hother
      by (by destruct is_bid, (is_bid_of side)).
    rewrite Hother. by destruct is_bid, (is_bid_of side).
Qed.

(** The refreshed side of a book whose cache is usable. *)
Lemma flat_refresh_ok is_bid bk s :
  flat_ok bk -> wf_flat (num_levels (f_config bk)) s -> flat_cache_sound is_bid s ->
  flat_ok (flat_refresh is_bid (fset is_bid s bk)) /\
  f_config (flat_refresh is_bid (fset is_bid s bk)) = f_config bk /\
  fget (negb is_bid) (flat_refresh is_bid (fset is_bid s bk)) = fget (negb is_bid) bk /\
  f_orders (fget is_bid (flat_refresh is_bid (fset is_bid s bk))) = f_orders s.
Proof.
  intros Hok Hwf Hc.
  assert (Hget : fget is_bid (fset is_bid s bk) = s) by (by destruct is_bid).
  destruct (flat_refresh_spec is_bid (num_levels (f_config bk)) (fset is_bid s bk))
    as (r & price & qty & -> & Hc' & Hq); rewrite ?Hget; [done..|].
  rewrite Hget in *.
  replace (fset_bbo _ _) with (fset_bbo (bbo_set is_bid price qty (f_bbo bk))
    (fset is_bid (with_fcached r s) bk)) by (by destruct is_bid).
  split_and!; [|by destruct is_bid..]. apply flat_ok_set; [done|].
  split; [by destruct Hwf | done | by destruct is_bid].
Qed.

Lemma flat_add_cache is_bid n s idx qty :
  wf_flat n s -> flat_cache_ok is_bid s -> 0 <= idx < n -> 0 < qty ->
  let s' := flat_update idx qty s in
  let better := if is_bid then f_cached s <? idx else (f_cached s <? 0) || (idx <? f_cached s) in
  let c := if better then idx else f_cached s in
  factive s' c -> extreme (side_dir is_bid) (factive s') c.
Proof.
  intros Hwf Hc Hi Hq s' better c Ha.
  pose proof (fun i => flat_update_active n s idx qty i Hwf Hi) as Hact. fold s' in Hact.
  assert (Hkeep : forall j, factive s' j -> j = idx \/ factive s j).
  { intros j Hj. apply Hact in Hj. case_decide; auto. }
  split; [done|]. intros j [->|Hj]%Hkeep.
  - rewrite beyond_side. subst c better. destruct Hc as [[[Hc0 _] _]|Hno].
    + destruct is_bid; simpl; repeat case_match; zb; try lia.
    + apply Hkeep in Ha as [Ha|Ha]; [by left | by apply Hno in Ha].
  - destruct Hc as [[[Hc0 _] Hex]|Hno]; [|by apply Hno in Hj]. specialize (Hex j Hj).
    rewrite beyond_side in *. subst c better.
    destruct is_bid; simpl in *; repeat case_match; zb; try lia.
Qed.

Lemma flat_add_ok side idx qty bk :
  flat_ok bk -> 0 <= idx < num_levels (f_config bk) -> 0 < qty ->
  flat_ok (flat_add_order side idx qty bk) /\
  flat_steps (is_bid_of side) bk (flat_add_order side idx qty bk) idx qty.
Proof.
  intros Hok Hi Hq. unfold flat_add_order, flat_steps. set (is_bid := is_bid_of side).
  pose proof (Hok is_bid) as [Hwf Hc _].
  destruct (flat_update_orders idx qty (fget is_bid bk)) as [Hord Hcach].
  pose proof (flat_add_cache is_bid _ _ idx qty Hwf Hc Hi Hq) as Hcache. cbv zeta in Hcache.
  pose proof (flat_update_wf _ _ idx qty Hwf Hi) as Hwf'.
  pose proof (fun i => flat_update_active _ _ idx qty i Hwf Hi) as Hact.
  rewrite Hcach. set (s := flat_update idx qty (fget is_bid bk)) in *.
  set (better := if is_bid then _ else _) in *.
  set (s1 := if better then with_fcached idx s else s).
  assert (Hs1 : f_cached s1 = (if better then idx else f_cached (fget is_bid bk)) /\
    f_orders s1 = f_orders s /\ wf_flat (num_levels (f_config bk)) s1 /\ factive s1 = factive s).
  { subst s1. destruct better; split_and!; try done. by destruct Hwf'. }
  destruct Hs1 as (Hs1c & Hs1o & Hs1w & Hs1a). clearbody s1.
  assert (Hsound : flat_cache_sound is_bid s1) by (unfold flat_cache_sound; rewrite Hs1a, Hs1c; done).
  destruct (flat_idx_valid (f_cached s1) s1) eqn:Hv.
  - apply flat_idx_valid_spec, Hsound in Hv.
    split; [|split_and!; [by destruct is_bid | by destruct is_bid |]].
    + apply flat_ok_set; [done|]. split; [done | by left | left]. by exists (f_cached s1).
    + rewrite <-Hord, <-Hs1o. by destruct is_bid.
  - destruct (flat_refresh_ok is_bid bk s1 Hok Hs1w Hsound) as (? & ? & ? & Ho).
    split; [done|]. rewrite Ho, Hs1o. done.
Qed.

Lemma flat_delete_ok side idx bk :
  flat_ok bk -> 0 <= idx < num_levels (f_config bk) ->
  flat_ok (flat_delete_order side idx bk) /\
  flat_steps (is_bid_of side) bk (flat_delete_order side idx bk) idx 0.
Proof.
  intros Hok Hi. unfold flat_delete_order, flat_steps. set (is_bid := is_bid_of side).
  pose proof (Hok is_bid) as [Hwf Hc Hqt].
  destruct (flat_update_orders idx 0 (fget is_bid bk)) as [Hord Hcach].
  pose proof (flat_update_wf _ _ idx 0 Hwf Hi) as Hwf'.
  assert (Hact : forall i, factive (flat_update idx 0 (fget is_bid bk)) i <->
    i <> idx /\ factive (fget is_bid bk) i).
  { intros i. rewrite (flat_update_active _ _ idx 0 i Hwf Hi). case_decide; [lia | tauto]. }
  rewrite Hcach. set (s := flat_update idx 0 (fget is_bid bk)) in *.
  assert (Hsound : flat_cache_sound is_bid s).
  { unfold flat_cache_sound. rewrite Hcach. intros Hca. split; [done|]. intros j Hj.
    apply Hact in Hca as [_ Hca], Hj as [_ Hj]. destruct Hc as [[_ Hex]|Hno]; [auto | by apply Hno in Hj]. }
  destruct (negb _ && _) eqn:E.
  - apply andb_true_iff in E as [E1 E2]. apply negb_true_iff, Z.eqb_neq in E1.
    rewrite <-Hcach in E2. apply flat_idx_valid_spec, Hsound in E2.
    split; [|split_and!; [by destruct is_bid | by destruct is_bid | by destruct is_bid]].
    rewrite fset_same. apply flat_ok_set; [done|]. split; [done | by left |].
    assert (Hold : extreme (side_dir is_bid) (factive (fget is_bid bk)) (f_cached s)).
    { destruct Hc as [Hx|Hno]; [by rewrite Hcach|]. destruct E2 as [[_ Ha]%Hact _]. by apply Hno in Ha. }
    destruct Hqt as [(r & Hr & -> & ->)|[Hno _]]; [|by destruct (Hno _ (proj1 Hold))].
    pose proof (extreme_unique _ _ _ _ Hr Hold) as ->. left. exists (f_cached s). split_and!; try done.
    rewrite Hord. rewrite zget_zset_ne; [done|]. rewrite Hcach. done.
  - destruct (flat_refresh_ok is_bid bk s Hok Hwf' Hsound) as (? & ? & ? & Ho).
    split; [done|]. rewrite Ho. done.
Qed.

(** ** Empty sides *)

Lemma empty_flat_ok cfg is_bid s :
  zlen (f_orders s) = num_levels cfg -> num_levels cfg <= 64 * zlen (f_bitmap s) ->
  zlen (f_bitmap s) <= 64 * zlen (f_summary s) ->
  (forall i, zget (f_orders s) i = 0) -> (forall i, zget (f_bitmap s) i = 0) ->
  (forall i, zget (f_summary s) i = 0) -> wf_bitmap (f_bitmap s) -> wf_bitmap (f_summary s) ->
  flat_side_ok cfg is_bid s kInvalidValue kInvalidValue /\
  forall base, flat_represents base s ∅.
Proof.
  intros Hlo Hlb Hls Hzo Hzb Hzs Hwb Hws.
  assert (Hno : forall j, ~ factive s j) by (intros j [_ Hj]; rewrite Hzo in Hj; lia).
  assert (Hnb : forall j, ~ bit (f_bitmap s) j) by (intros j [_ Hj]; by rewrite Hzb, Z.testbit_0_l in Hj).
  assert (Hns : forall j, ~ bit (f_summary s) j) by (intros j [_ Hj]; by rewrite Hzs, Z.testbit_0_l in Hj).
  split; [split; [split; try done | by right | by right]|].
  - intros i. split; [by intros ?%Hnb | by intros ?%Hno].
  - intros w. split; [by intros ?%Hns | by intros (i & ?%Hnb & _)].
  - intros base p q. split; [by intros ?%lookup_empty_Some | by intros [?%Hno _]].
Qed.

Lemma zeros_get n i : zget (replicate n 0) i = 0.
Proof.
  destruct (decide (0 <= i < Z.of_nat n)); [by apply zget_replicate|].
  apply zget_out. by rewrite zlen_replicate.
Qed.

Lemma new_flat_book_ok min max :
  min <= max -> flat_ok (new_flat_book (flat_from_ini min max)) /\
  flat_book_represents (new_flat_book (flat_from_ini min max)) (mkLadders ∅ ∅).
Proof.
  intros Hle.
  assert (Hs : forall is_bid, flat_side_ok (flat_from_ini min max) is_bid
      (new_flat_side (flat_from_ini min max)) kInvalidValue kInvalidValue /\
    forall base, flat_represents base (new_flat_side (flat_from_ini min max)) ∅).
  { intros is_bid. unfold new_flat_side, flat_from_ini, kBitsPerWord. cbn [num_levels bitmap_words].
    rewrite (Z.quot_div_nonneg (max - min + 1 + 64 - 1)) by lia.
    assert (0 <= (max - min + 1 + 64 - 1) / 64) by zdiv.
    rewrite Z.quot_div_nonneg by lia.
    apply empty_flat_ok; cbn [f_orders f_bitmap f_summary num_levels]; try (intros; apply zeros_get);
      rewrite ?zlen_replicate; try (by apply Forall_replicate); try zdiv. }
  split; intros is_bid; destruct (Hs is_bid) as [H1 H2]; destruct is_bid; try apply H1; apply H2.
Qed.

Lemma flat_clear_ok bk :
  flat_ok bk ->
  let bk' := mkFlatBook (f_config bk) (flat_clear_side (f_bid bk)) (flat_clear_side (f_ask bk)) BBO_default in
  flat_ok bk' /\ flat_book_represents bk' (mkLadders ∅ ∅).
Proof.
  intros Hok bk'.
  assert (Hs : forall is_bid, flat_side_ok (f_config bk) is_bid
      (flat_clear_side (fget is_bid bk)) kInvalidValue kInvalidValue /\
    forall base, flat_represents base (flat_clear_side (fget is_bid bk)) ∅).
  { intros is_bid. destruct (Hok is_bid) as [[Ho _ Hw _ Hsw _ _] _ _].
    apply empty_flat_ok; cbn [flat_clear_side f_orders f_bitmap f_summary];
      try (intros; by apply zget_const); unfold zlen in *; rewrite ?length_fmap; try done;
      (apply Forall_fmap, Forall_true; done). }
  split; intros is_bid; destruct (Hs is_bid) as [H1 H2]; destruct is_bid; try apply H1; apply H2.
Qed.

(** ** Messages *)

Fixpoint flat_feed (msgs : list MarketData) (bk : FlatBook) : FlatBook * list Notification :=
  match msgs with
  | [] => (bk, [])
  | md :: msgs' =>
      let '(bk', notes) := flat_on_market_data_updated md bk in
      let '(bk'', notes') := flat_feed msgs' bk' in
      (bk'', notes ++ notes')
  end.

Definition positive_add (md : MarketData) : Prop :=
  match md_type md with MUAdd | MUModify => 0 < md_qty md | _ => True end.

Definition flat_cfg_ok (cfg : OrderBookConfig) : Prop :=
  -2147483648 <= min_price_int cfg /\ max_price_int cfg < 2147483648 /\
  max_price_int cfg - min_price_int cfg < num_levels cfg.

Lemma flat_message_step md bk :
  flat_ok bk -> flat_cfg_ok (f_config bk) -> positive_add md ->
  let bk' := fst (flat_on_market_data_updated md bk) in
  flat_ok bk' /\ f_config bk' = f_config bk /\
  forall l, flat_book_represents bk l -> flat_book_represents bk' (spec_apply (f_config bk) l md).
Proof.
  intros Hok (Hmin & Hmax & Hlev) Hmsg. unfold flat_on_market_data_updated, spec_apply.
  destruct ((max_price_int (f_config bk) <? _) || _) eqn:E; [done|].
  apply orb_false_iff in E as [E1 E2]. zb. unfold price_to_index. rewrite i32_small by lia.
  set (idx := md_price md - min_price_int (f_config bk)).
  assert (Hidx : 0 <= idx < num_levels (f_config bk)) by lia. unfold positive_add in Hmsg.
  destruct (md_type md); cbn [fst]; try done.
  - destruct (flat_clear_ok bk Hok) as [? ?]. done.
  - destruct (flat_add_ok (md_side md) idx (md_qty md) bk Hok Hidx Hmsg) as [? Hst].
    split_and!; [done | apply Hst | intros l; apply flat_steps_represents; done || lia].
  - destruct (flat_add_ok (md_side md) idx (md_qty md) bk Hok Hidx Hmsg) as [? Hst].
    split_and!; [done | apply Hst | intros l; apply flat_steps_represents; done || lia].
  - destruct (flat_delete_ok (md_side md) idx bk Hok Hidx) as [? Hst].
    split_and!; [done | apply Hst | intros l; apply flat_steps_represents; done || lia].
Qed.

Lemma flat_feed_steps msgs bk :
  flat_ok bk -> flat_cfg_ok (f_config bk) -> Forall positive_add msgs ->
  let bk' := fst (flat_feed msgs bk) in
  flat_ok bk' /\ f_config bk' = f_config bk /\
  forall l, flat_book_represents bk l ->
    flat_book_represents bk' (fold_left (spec_apply (f_config bk)) msgs l).
Proof.
  revert bk. induction msgs as [|md msgs IH]; intros bk Hok Hcfg Hmsgs; [done|].
  apply Forall_cons in Hmsgs as [Hmd Hmsgs]. simpl.
  destruct (flat_message_step md bk Hok Hcfg Hmd) as (Hok' & Hc & Hl).
  destruct (flat_on_market_data_updated md bk) as [bk1 notes]. simpl in *.
  rewrite <-Hc in Hcfg. destruct (IH bk1 Hok' Hcfg Hmsgs) as (Hok2 & Hc2 & Hl2).
  destruct (flat_feed msgs bk1) as [bk2 notes2]. simpl in *. split_and!; [done | congruence |].
  intros l Hr. rewrite <-Hc. apply Hl2. rewrite Hc. auto.
Qed.

Lemma flat_book_quotes bk l is_bid :
  flat_ok bk -> flat_book_represents bk l ->
  best_quote is_bid (side_ladder is_bid l) (bbo_price is_bid (f_bbo bk)) (bbo_qty is_bid (f_bbo bk)).
Proof.
  intros Hok Hl. destruct (Hok is_bid) as [_ _ Hq]. specialize (Hl is_bid).
  destruct Hq as [(r & [Hr Hx] & -> & ->)|(Hno & -> & ->)].
  - right. unfold index_to_price. set (base := min_price_int (f_config bk)) in *. split.
    + apply Hl. by replace (base + r - base) with r by lia.
    + intros p q [Hp _]%Hl. specialize (Hx _ Hp). rewrite beyond_side in Hx. destruct is_bid; lia.
  - left. split; [|done]. apply map_empty. intros p.
    destruct (side_ladder is_bid l !! p) eqn:E; [|done]. apply Hl in E as [E _]. by apply Hno in E.
Qed.

(** C9: the flat order book implements the same pair of price ladders as the
    bucketed one, for every price range and every sequence of messages, clears
    with an in-range price included (its quotes are re-derived from the bitmaps
    when the cached best index is stale), and never fails. *)
Theorem flat_feed_refines_ladders min max msgs :
  -2147483648 <= min -> min <= max -> max < 2147483648 -> Forall positive_add msgs ->
  let bk := fst (flat_feed msgs (new_flat_book (flat_from_ini min max))) in
  let ladders := fold_left (spec_apply (flat_from_ini min max)) msgs (mkLadders ∅ ∅) in
  flat_book_represents bk ladders /\
  forall is_bid, best_quote is_bid (side_ladder is_bid ladders)
                   (bbo_price is_bid (f_bbo bk)) (bbo_qty is_bid (f_bbo bk)).
Proof.
  intros Hmin Hle Hmax Hmsgs bk ladders.
  destruct (new_flat_book_ok min max Hle) as [Hok Hrep].
  destruct (flat_feed_steps msgs _ Hok) as (Hok' & _ & Hl);
    [unfold flat_cfg_ok; simpl; lia | done |].
  specialize (Hl _ Hrep). split; [done|]. intros is_bid. by apply flat_book_quotes.
Qed.

Lemma flat_feed_refines_ladders_witness :
  let msgs := [demo_msg MUAdd kBuy 100 7; demo_msg MUClear kInvalid 100 0; demo_msg MUAdd kBuy 60 3] in
  let bk := fst (flat_feed msgs (new_flat_book (flat_from_ini 1 200))) in
  let ladders := fold_left (spec_apply (flat_from_ini 1 200)) msgs (mkLadders ∅ ∅) in
  flat_book_represents bk ladders /\
  forall is_bid, best_quote is_bid (side_ladder is_bid ladders)
                   (bbo_price is_bid (f_bbo bk)) (bbo_qty is_bid (f_bbo bk)).
Proof. apply flat_feed_refines_ladders; [lia..|]. repeat constructor. Defined.

(** ** The next active level *)

(** [next_active_bid] of the flat book shifts a 64-bit word by 64 (undefined)
    exactly when the start is a positive multiple of 64 inside the bitmap; for
    every other start it returns the nearest active level strictly below it, or
    -1 when there is none. *)
Theorem flat_next_active_bid_spec n s cfg start :
  wf_flat n s -> bitmap_words cfg = zlen (f_bitmap s) -> 0 <= start < n ->
  (flat_next_active_bid cfg s start = None <-> 0 < start /\ start mod 64 = 0) /\
  forall r, flat_next_active_bid cfg s start = Some r ->
    nearest SearchHighest (factive s) start r \/
    r = -1 /\ forall j, factive s j -> start <= j.
Proof.
  intros Hwf Hcfg Hs. pose proof Hwf as [_ Hb Hw _ _ Hbit _]. unfold flat_next_active_bid.
  destruct (Z.leb_spec start 0) as [Hz|Hz].
  { split; [split; [done | lia]|]. intros r [= <-]. right. split; [done|]. intros j [? _]. lia. }
  rewrite shiftr_6, land_63, Hcfg.
  assert (Hq : 0 <= (start - 1) / 64 < zlen (f_bitmap s)) by (apply div64_range; lia).
  rewrite (proj2 (Z.leb_gt _ _) (proj2 Hq)).
  assert (Hm1 : (start - 1) mod 64 = 63 <-> start mod 64 = 0) by zdiv.
  assert (Hmb : 0 <= (start - 1) mod 64 < 64) by (apply Z.mod_pos_bound; lia).
  unfold shl64. destruct (Z.ltb_spec ((start - 1) mod 64 + 1) 64) as [Hlt|Hge].
  2: { split; [|done]. split; [intros _; split; [done|]; apply Hm1; lia | done]. }
  assert (Hsd : (start - 1) / 64 = start / 64 /\ (start - 1) mod 64 + 1 = start mod 64) by zdiv.
  destruct Hsd as [Hd Hmod]. rewrite Hmod in *. rewrite Hd in *.
  split; [split; [by case_match | lia]|].
  pose proof (search_from_spec SearchHighest _ Hb start (down_to (start / 64) 0)) as Hsearch.
  specialize (Hsearch ltac:(lia) (iterate_words_walks SearchHighest (start / 64) _ Hq)).
  unfold search_from in Hsearch. rewrite shiftr_6, land_63 in Hsearch.
  replace (@make_mask SearchHighest (start mod 64)) with (Z.shiftl 1 (start mod 64) - 1) in Hsearch.
  2: { simpl. by rewrite (proj2 (Z.eqb_neq (start mod 64) 0)) by lia. }
  assert (Hn : forall r, nearest SearchHighest (bit (f_bitmap s)) start r ->
    nearest SearchHighest (factive s) start r).
  { intros r (H1 & H2 & H3). split_and!; [done | by apply Hbit | intros j Hj; apply H3; by apply Hbit]. }
  unfold kWordShift, kBitsPerWord in *. rewrite (Z.shiftl_mul_pow2 (start / 64)) by lia. change (2 ^ 6) with 64.
  intros r. destruct (_ =? 0).
  - destruct (first_some _ _); intros [= <-]; [by left; auto|]. right. split; [done|].
    intros j Hj%Hbit. specialize (Hsearch j Hj). unfold beyond in Hsearch. simpl in Hsearch. lia.
  - intros [= <-]. left. by apply Hn.
Qed.

Definition demo_flat : FlatBook :=
  fst (flat_feed [demo_msg MUAdd kBuy 10 7; demo_msg MUAdd kBuy 129 2]
         (new_flat_book (flat_from_ini 1 200))).

Lemma flat_next_active_bid_spec_witness :
  ((flat_next_active_bid (flat_from_ini 1 200) (f_bid demo_flat) 128 = None <->
    0 < 128 /\ 128 mod 64 = 0) /\
   forall r, flat_next_active_bid (flat_from_ini 1 200) (f_bid demo_flat) 128 = Some r ->
     nearest SearchHighest (factive (f_bid demo_flat)) 128 r \/
     r = -1 /\ forall j, factive (f_bid demo_flat) j -> 128 <= j) /\
  flat_next_active_bid (flat_from_ini 1 200) (f_bid demo_flat) 127 = Some 9.
Proof.
  destruct (new_flat_book_ok 1 200) as [Hok _]; [lia|].
  destruct (flat_feed_steps [demo_msg MUAdd kBuy 10 7; demo_msg MUAdd kBuy 129 2] _ Hok)
    as (Hok' & _ & _); [vm_compute; split_and!; congruence | repeat constructor |].
  pose proof (fo_wf _ _ _ _ _ (Hok' true)) as Hwf.
  split; [|vm_compute; reflexivity].
  apply (flat_next_active_bid_spec 200 (f_bid demo_flat) (flat_from_ini 1 200) 128).
  - exact Hwf.
  - vm_compute. reflexivity.
  - lia.
Defined.
End FlatOrderBook.
