(* ===== verification/FixedPoint.v ===== *)
(** * Fixed-point numbers (src/hft/common/fixed_point.hpp)

    A [FixedPoint<int64_t, Scale>] is its raw value.  [string_to_fixed],
    [to_string] and the table-driven [to_string2] work on lists of character
    codes; [mul] is written out for the scale of 10^8, where the code
    multiplies by a reciprocal, and for the other scales, where it divides.
    The theorems are the print/parse round trip, the equivalence of the two
    printers and the exact error of the reciprocal multiplication. *)

From S2P Require Import Prelude Types.

Module FixedPoint.

Definition kDecimalBase : Z := 10.
Definition kScale8Decimal : Z := 100000000.
Definition kInverseScale8 : Z := Z.quot (Z.shiftl 1 64) kScale8Decimal + 1.

Definition chr_0 : Z := 48.
Definition chr_9 : Z := 57.
Definition chr_minus : Z := 45.
Definition chr_dot : Z := 46.

(** ** Parsing *)

Record ParseSt := mkParse {
  integer_part : Z;
  frac_part : Z;
  frac_digits : nat;
  in_frac : bool;
  negative : bool;
}.

(** The body of the character loop of [string_to_fixed]. *)
Definition parse_step (st : ParseSt) (chr : Z) : ParseSt :=
  if chr =? chr_minus then
    mkParse (integer_part st) (frac_part st) (frac_digits st) (in_frac st) true
  else if chr =? chr_dot then
    mkParse (integer_part st) (frac_part st) (frac_digits st) true (negative st)
  else if (chr_0 <=? chr) && (chr <=? chr_9) then
    if in_frac st then
      mkParse (integer_part st) (frac_part st * kDecimalBase + (chr - chr_0))
        (S (frac_digits st)) true (negative st)
    else
      mkParse (integer_part st * kDecimalBase + (chr - chr_0)) (frac_part st)
        (frac_digits st) false (negative st)
  else st.

(** [for (int i = 0; i < frac_digits; ++i) frac_scale *= kDecimalBase;] *)
Fixpoint pow10 (n : nat) : Z :=
  match n with O => 1 | S n' => pow10 n' * kDecimalBase end.

Definition string_to_fixed (scale : Z) (str : list Z) : Z :=
  let st := fold_left parse_step str (mkParse 0 0 0 false false) in
  let frac_scale := pow10 (frac_digits st) in
  let result := integer_part st * scale + Z.quot (frac_part st * scale) frac_scale in
  if negative st then - result else result.

(** ** Arithmetic *)

Definition from_int64 (scale val : Z) : Z := val * scale.
Definition add (a b : Z) : Z := a + b.
Definition sub (a b : Z) : Z := a - b.

Definition mul (scale a b : Z) : Z :=
  let temp := a * b in
  if scale =? kScale8Decimal then i64 (Z.shiftr (temp * kInverseScale8) 64)
  else i64 (Z.quot temp scale).

(** Division by zero is undefined. *)
Definition div (scale a b : Z) : option Z :=
  if b =? 0 then None else Some (i64 (Z.quot (a * scale) b)).

(** The integer part of [to_double_truncated_fast], [qty_to_actual_double] and
    [price_to_actual_double]: the value cut to a multiple of the divisor. *)
Definition truncate_to (divisor value : Z) : Z := Z.quot value divisor * divisor.
Definition qty_to_actual (cfg : FixedPointConfig) (qty : Z) : Z :=
  truncate_to (Z.quot (kQtyScale cfg) (kQtyScaleActual cfg)) qty.
Definition price_to_actual (cfg : FixedPointConfig) (price : Z) : Z :=
  truncate_to (Z.quot (kPriceScale cfg) (kPriceScaleActual cfg)) price.

(** ** Printing *)

(** [while (temp_scale > 1) { temp_scale /= 10; ++frac_digits; }]: an int64
    scale has at most 19 digits. *)
Fixpoint count_frac (fuel : nat) (temp_scale : Z) : nat :=
  match fuel with
  | O => O
  | S n => if 1 <? temp_scale then S (count_frac n (Z.quot temp_scale kDecimalBase)) else O
  end.

(** [while (frac_digits > 0 && frac_part % 10 == 0)] *)
Fixpoint strip_zeros (digits : nat) (frac : Z) : nat * Z :=
  match digits with
  | O => (O, frac)
  | S n => if Z.rem frac kDecimalBase =? 0 then strip_zeros n (Z.quot frac kDecimalBase)
           else (digits, frac)
  end.

(** [for (i < frac_digits) temp[pos++] = '0' + (frac_part % 10)]: the pushed
    characters in the order of the pushes. *)
Fixpoint push_frac (digits : nat) (frac : Z) : list Z :=
  match digits with
  | O => []
  | S n => (chr_0 + Z.rem frac kDecimalBase) :: push_frac n (Z.quot frac kDecimalBase)
  end.

(** [while (integer_part > 0) temp[pos++] = ...]: an int64 has 19 digits. *)
Fixpoint push_int (fuel : nat) (n : Z) : list Z :=
  match fuel with
  | O => []
  | S fuel' =>
      if 0 <? n then (chr_0 + Z.rem n kDecimalBase) :: push_int fuel' (Z.quot n kDecimalBase)
      else []
  end.

(** The reversed copy into [buf], cut to [buf_size - 1]. *)
Definition copy_out (temp : list Z) (buf_size : Z) : list Z :=
  let pos := zlen temp in
  let len := if buf_size <=? pos then buf_size - 1 else pos in
  take (Z.to_nat len) (reverse temp).

Definition to_string (scale value buf_size : Z) : list Z :=
  if buf_size =? 0 then []
  else
    let negative := value <? 0 in
    let val := if negative then - value else value in
    let integer_part := Z.quot val scale in
    let '(frac_digits, frac_part) := strip_zeros (count_frac 64 scale) (Z.rem val scale) in
    let temp1 := if (0 <? frac_digits)%nat then push_frac frac_digits frac_part ++ [chr_dot] else [] in
    let temp2 := if integer_part =? 0 then [chr_0] else push_int 64 integer_part in
    let temp3 := if negative then [chr_minus] else [] in
    copy_out (temp1 ++ temp2 ++ temp3) buf_size.

(** [kDigitsLut]: the two digits of 0..99. *)
Definition kDigitsLut : list Z :=
  (fun c => Z.of_N (Ascii.N_of_ascii c)) <$> String.list_ascii_of_string
  "00010203040506070809101112131415161718192021222324252627282930313233343536373839404142434445464748495051525354555657585960616263646566676869707172737475767778798081828384858687888990919293949596979899".
Definition kLutBase : Z := 100.

(** The table loops of [to_string2]: two characters per step. *)
Fixpoint push_frac2 (fuel : nat) (digits : nat) (frac : Z) : list Z :=
  match fuel with
  | O => []
  | S fuel' =>
      match digits with
      | S (S n) =>
          let idx := Z.rem frac kLutBase * 2 in
          zget kDigitsLut (idx + 1) :: zget kDigitsLut idx :: push_frac2 fuel' n (Z.quot frac kLutBase)
      | S O => [chr_0 + Z.rem frac kDecimalBase]
      | O => []
      end
  end.

Fixpoint push_int2 (fuel : nat) (n : Z) : list Z :=
  match fuel with
  | O => []
  | S fuel' =>
      if kLutBase <=? n then
        let idx := Z.rem n kLutBase * 2 in
        zget kDigitsLut (idx + 1) :: zget kDigitsLut idx :: push_int2 fuel' (Z.quot n kLutBase)
      else if n <? kDecimalBase then [chr_0 + n]
      else [zget kDigitsLut (n * 2 + 1); zget kDigitsLut (n * 2)]
  end.

Definition to_string2 (scale value buf_size : Z) : list Z :=
  if buf_size =? 0 then []
  else
    let negative := value <? 0 in
    let val := if negative then - value else value in
    let integer_part := Z.quot val scale in
    let '(frac_digits, frac_part) := strip_zeros (count_frac 64 scale) (Z.rem val scale) in
    let temp1 := if (0 <? frac_digits)%nat then push_frac2 64 frac_digits frac_part ++ [chr_dot] else [] in
    let temp2 := if integer_part =? 0 then [chr_0] else push_int2 64 integer_part in
    let temp3 := if negative then [chr_minus] else [] in
    copy_out (temp1 ++ temp2 ++ temp3) buf_size.

Example to_string_ex : string_to_fixed 1000 (to_string 1000 (-12050) 64) = -12050.
Proof. vm_compute. reflexivity. Qed.
Example to_string2_ex : to_string2 100000000 123456789012 64 = to_string 100000000 123456789012 64.
Proof. vm_compute. reflexivity. Qed.

(** ** Digits *)

Lemma rem_digit n : 0 <= n -> Z.rem n kDecimalBase = n mod 10 /\ Z.quot n kDecimalBase = n / 10.
Proof. intros. unfold kDecimalBase. by rewrite Z.rem_mod_nonneg, Z.quot_div_nonneg by lia. Qed.

Lemma pow10_pos n : 0 < pow10 n.
Proof. induction n; simpl; unfold kDecimalBase; lia. Qed.

Lemma pow10_eq n : pow10 n = 10 ^ Z.of_nat n.
Proof.
  induction n as [|n IH]; [done|]. simpl pow10. rewrite IH, Nat2Z.inj_succ, Z.pow_succ_r by lia.
  unfold kDecimalBase. lia.
Qed.

Lemma parse_digit st d :
  0 <= d < 10 ->
  parse_step st (chr_0 + d) =
  if in_frac st then
    mkParse (integer_part st) (frac_part st * 10 + d) (S (frac_digits st)) true (negative st)
  else mkParse (integer_part st * 10 + d) (frac_part st) (frac_digits st) false (negative st).
Proof.
  intros Hd. unfold parse_step, chr_minus, chr_dot, chr_0, chr_9, kDecimalBase.
  rewrite !(proj2 (Z.eqb_neq _ _)) by lia. rewrite !(proj2 (Z.leb_le _ _)) by lia. simpl.
  by replace (48 + d - 48) with d by lia.
Qed.

(** Parsing the printed fraction digits. *)
Lemma parse_frac k f st :
  0 <= f < pow10 k -> in_frac st = true ->
  fold_left parse_step (reverse (push_frac k f)) st =
  mkParse (integer_part st) (frac_part st * pow10 k + f) (k + frac_digits st)%nat true (negative st).
Proof.
  revert f. induction k as [|k IH]; intros f Hf Hin; simpl.
  - destruct st; simpl in *. subst. f_equal; lia.
  - destruct (rem_digit f ltac:(lia)) as [-> ->]. rewrite reverse_cons, fold_left_app.
    simpl pow10 in Hf. unfold kDecimalBase in *.
    rewrite IH by (done || zdiv). simpl.
    rewrite parse_digit by (apply Z.mod_pos_bound; lia). simpl. f_equal. unfold kDecimalBase. zdiv.
Qed.

(** Parsing the printed integer digits. *)
Lemma parse_int fuel n st :
  0 <= n < pow10 fuel -> in_frac st = false ->
  fold_left parse_step (reverse (push_int fuel n)) st =
  mkParse (integer_part st * pow10 (length (push_int fuel n)) + n) (frac_part st)
    (frac_digits st) false (negative st).
Proof.
  revert n. induction fuel as [|fuel IH]; intros n Hn Hin; simpl.
  - simpl in Hn. destruct st; simpl in *. subst. f_equal; lia.
  - destruct (Z.ltb_spec 0 n).
    + destruct (rem_digit n ltac:(lia)) as [-> ->]. rewrite reverse_cons, fold_left_app.
      simpl pow10 in Hn. unfold kDecimalBase in *.
      rewrite IH by (done || zdiv). simpl.
      rewrite parse_digit by (apply Z.mod_pos_bound; lia). simpl. f_equal. unfold kDecimalBase.
      set (p := pow10 _). pose proof (Z.div_mod n 10). nia.
    + simpl. destruct st; simpl in *. subst. f_equal. lia.
Qed.

Lemma strip_zeros_spec k f d f' :
  0 <= f < pow10 k -> strip_zeros k f = (d, f') ->
  exists j, k = (d + j)%nat /\ f = f' * pow10 j /\ 0 <= f' < pow10 d.
Proof.
  revert f. induction k as [|k IH]; intros f Hf; cbn [strip_zeros].
  - intros [= <- <-]. exists 0%nat. simpl in *. split_and!; lia.
  - destruct (rem_digit f ltac:(lia)) as [-> ->]. destruct (Z.eqb_spec (f mod 10) 0) as [Hz|Hz].
    + simpl pow10 in Hf. unfold kDecimalBase in Hf. intros (j & -> & Hj & Hr)%IH; [|zdiv].
      exists (S j). split_and!; [lia | | lia..]. simpl. unfold kDecimalBase. rewrite Z.mul_assoc, <-Hj. zdiv.
    + intros [= <- <-]. exists 0%nat. simpl. split_and!; [lia | lia | lia.. |]. simpl in Hf. lia.
Qed.

Lemma count_frac_pow10 k fuel : (k <= fuel)%nat -> count_frac fuel (pow10 k) = k.
Proof.
  revert fuel. induction k as [|k IH]; intros fuel Hf.
  - destruct fuel; done.
  - destruct fuel as [|fuel]; [lia|]. simpl. pose proof (pow10_pos k). unfold kDecimalBase in *.
    rewrite (proj2 (Z.ltb_lt 1 _)) by lia. rewrite Z.quot_mul by lia. f_equal. apply IH. lia.
Qed.

Lemma push_frac_length k f : length (push_frac k f) = k.
Proof. revert f. induction k; intros; simpl; auto. Qed.

Lemma push_int_length fuel n j : n < pow10 j -> (length (push_int fuel n) <= j)%nat.
Proof.
  revert n j. induction fuel as [|fuel IH]; intros n j Hn; simpl; [lia|].
  destruct (Z.ltb_spec 0 n); simpl; [|lia]. destruct j as [|j]; [simpl in Hn; lia|].
  destruct (rem_digit n ltac:(lia)) as [_ ->]. simpl pow10 in Hn. unfold kDecimalBase in Hn.
  apply le_n_S, IH. zdiv.
Qed.

(** ** Round trip *)

(** The integer characters, as pushed. *)
Definition int_chars (n : Z) : list Z := if n =? 0 then [chr_0] else push_int 64 n.

Lemma int64_max_pow10 : int64_max < pow10 19.
Proof. done. Qed.

Lemma int_chars_parse n st :
  0 <= n <= int64_max -> in_frac st = false -> integer_part st = 0 ->
  fold_left parse_step (reverse (int_chars n)) st =
  mkParse n (frac_part st) (frac_digits st) false (negative st).
Proof.
  intros Hn Hin Hz. unfold int_chars. destruct (Z.eqb_spec n 0) as [->|Hne].
  - change [chr_0] with [chr_0 + 0]. simpl reverse. unfold reverse; simpl.
    rewrite parse_digit, Hin, Hz by lia. done.
  - rewrite parse_int, Hz; [f_equal; lia | | done].
    pose proof int64_max_pow10. assert (pow10 19 <= pow10 64) by done. lia.
Qed.

Lemma int_chars_length n : 0 <= n <= int64_max -> zlen (int_chars n) <= 19.
Proof.
  intros Hn. unfold int_chars, zlen. destruct (n =? 0); [simpl; lia|].
  pose proof (push_int_length 64 n 19). pose proof int64_max_pow10. lia.
Qed.

(** The fraction characters with their dot, as pushed. *)
Definition frac_chars (d : nat) (f : Z) : list Z :=
  if (0 <? d)%nat then push_frac d f ++ [chr_dot] else [].

Lemma frac_chars_parse d f st :
  0 <= f < pow10 d -> in_frac st = false -> frac_part st = 0 -> frac_digits st = 0%nat ->
  let st' := fold_left parse_step (reverse (frac_chars d f)) st in
  integer_part st' = integer_part st /\ frac_part st' = f /\ frac_digits st' = d /\
  negative st' = negative st.
Proof.
  intros Hf Hin Hp Hd. unfold frac_chars. destruct (Nat.ltb_spec 0 d) as [Hlt|Hle].
  - rewrite reverse_app, fold_left_app. unfold reverse at 2; simpl.
    change (parse_step st chr_dot) with
      (mkParse (integer_part st) (frac_part st) (frac_digits st) true (negative st)).
    rewrite parse_frac by done. simpl. rewrite Hp, Hd. split_and!; try done; lia.
  - assert (d = 0%nat) as -> by lia. simpl in *. split_and!; try done; lia.
Qed.

Lemma copy_out_all temp buf_size : zlen temp < buf_size -> copy_out temp buf_size = reverse temp.
Proof.
  intros Hlt. unfold copy_out. rewrite (proj2 (Z.leb_gt buf_size (zlen temp)) Hlt).
  apply take_ge. rewrite length_reverse. unfold zlen. lia.
Qed.

(** For every scale that is a power of ten (up to 10^18) and every raw value
    whose negation is representable, parsing what [to_string] prints into a
    64-byte buffer gives the value back. *)
Theorem to_string_roundtrip k value buf_size :
  (k <= 18)%nat -> -int64_max <= value <= int64_max -> 64 <= buf_size ->
  string_to_fixed (pow10 k) (to_string (pow10 k) value buf_size) = value.
Proof.
  intros Hk Hv Hbuf. pose proof (pow10_pos k) as Hscale. unfold to_string.
  rewrite (proj2 (Z.eqb_neq buf_size 0)) by lia. rewrite count_frac_pow10 by lia.
  set (val := if value <? 0 then - value else value).
  assert (Hval : 0 <= val <= int64_max /\ (if value <? 0 then - val else val) = value).
  { subst val. destruct (Z.ltb_spec value 0); lia. }
  destruct Hval as [Hval Hback].
  rewrite Z.rem_mod_nonneg, Z.quot_div_nonneg by lia.
  assert (Hint : 0 <= val / pow10 k <= int64_max).
  { split; [apply Z.div_pos; lia|]. apply Z.div_le_upper_bound; [lia|]. unfold int64_max in *. nia. }
  destruct (strip_zeros k (val mod pow10 k)) as [d f'] eqn:Es.
  apply strip_zeros_spec in Es as (j & -> & Hf & Hf'); [|apply Z.mod_pos_bound; lia].
  fold (frac_chars d f') (int_chars (val / pow10 (d + j))).
  set (temp3 := if value <? 0 then [chr_minus] else []).
  rewrite copy_out_all.
  2: { rewrite !zlen_app. pose proof (int_chars_length _ Hint).
       assert (zlen (frac_chars d f') <= 19).
       { unfold frac_chars. destruct (0 <? d)%nat; [|done].
         rewrite zlen_app. unfold zlen. rewrite push_frac_length. simpl. lia. }
       assert (zlen temp3 <= 1) by (subst temp3; by destruct (value <? 0)). lia. }
  unfold string_to_fixed. rewrite !reverse_app, !fold_left_app.
  assert (H3 : fold_left parse_step (reverse temp3) (mkParse 0 0 0 false false) =
    mkParse 0 0 0 false (value <? 0)) by (subst temp3; by destruct (value <? 0)).
  rewrite H3, int_chars_parse by done. cbn [frac_part frac_digits negative].
  destruct (frac_chars_parse d f' (mkParse (val / pow10 (d + j)) 0 0 false (value <? 0)))
    as (-> & -> & -> & ->); try done. simpl.
  pose proof (pow10_pos d). pose proof (pow10_pos j).
  assert (Hadd : pow10 (d + j) = pow10 d * pow10 j).
  { rewrite (pow10_eq (d + j)), Nat2Z.inj_add, Z.pow_add_r, <-!pow10_eq by lia. done. }
  replace (f' * pow10 (d + j)) with (f' * pow10 j * pow10 d) by (rewrite Hadd; ring).
  rewrite Z.quot_mul, <-Hf, (Z.mul_comm _ (pow10 (d + j))), <-Z.div_mod by lia. done.
Qed.

Lemma to_string_roundtrip_witness :
  string_to_fixed (pow10 6) (to_string (pow10 6) (-1234500) 64) = -1234500.
Proof. apply to_string_roundtrip; [lia | unfold int64_max; lia | lia]. Defined.

(** ** The table-driven printer *)

Lemma lut_spec i : 0 <= i < 100 ->
  zget kDigitsLut (i * 2) = chr_0 + i / 10 /\ zget kDigitsLut (i * 2 + 1) = chr_0 + i mod 10.
Proof.
  intros Hi.
  assert (Hall : forallb (fun i => (zget kDigitsLut (i * 2) =? chr_0 + i / 10) &&
    (zget kDigitsLut (i * 2 + 1) =? chr_0 + i mod 10)) (seqZ 0 100) = true) by (vm_compute; reflexivity).
  rewrite forallb_forall in Hall. specialize (Hall i).
  rewrite <-list_elem_of_In, elem_of_seqZ in Hall. specialize (Hall ltac:(lia)). zb. done.
Qed.

Lemma lut_pair n : 0 <= n ->
  zget kDigitsLut (Z.rem n kLutBase * 2 + 1) = chr_0 + n mod 10 /\
  zget kDigitsLut (Z.rem n kLutBase * 2) = chr_0 + (n / 10) mod 10 /\
  Z.quot n kLutBase = n / 10 / 10.
Proof.
  intros Hn. unfold kLutBase. rewrite Z.rem_mod_nonneg, Z.quot_div_nonneg by lia.
  destruct (lut_spec (n mod 100)) as [-> ->]; [apply Z.mod_pos_bound; lia|].
  split_and!; [f_equal; zdiv | f_equal; zdiv | zdiv].
Qed.

Lemma push_frac2_eq fuel d f :
  0 <= f -> (d <= fuel)%nat -> push_frac2 fuel d f = push_frac d f.
Proof.
  revert d f. induction fuel as [|fuel IH]; intros d f Hf Hd.
  - by assert (d = 0%nat) as -> by lia.
  - destruct d as [|[|d]]; [done | done |]. cbn [push_frac2 push_frac].
    destruct (lut_pair f Hf) as (-> & -> & ->). destruct (rem_digit f Hf) as [-> ->].
    assert (0 <= f / 10) as Hq by zdiv. destruct (rem_digit (f / 10) Hq) as [-> ->].
    rewrite IH by (zdiv || lia). done.
Qed.

Lemma push_int2_eq fuel n :
  0 < n -> n < pow10 fuel -> push_int2 fuel n = push_int fuel n.
Proof.
  enough (Haux : forall f1 f2 n, 0 < n -> n < pow10 f1 -> (f1 <= f2)%nat ->
    push_int2 f2 n = push_int f1 n) by (intros; by apply Haux).
  intros f1. induction (lt_wf f1) as [f1 _ IH]. intros f2 m Hm Hlt Hle.
  destruct f1 as [|f1]; [simpl in Hlt; lia|]. destruct f2 as [|f2]; [lia|]. cbn [push_int2 push_int].
  rewrite (proj2 (Z.ltb_lt 0 m) Hm). destruct (rem_digit m ltac:(lia)) as [-> ->].
  simpl pow10 in Hlt. unfold kDecimalBase, kLutBase in *. destruct (Z.leb_spec 100 m).
  - destruct (lut_pair m ltac:(lia)) as (H1 & H2 & H3). unfold kLutBase in *. rewrite H1, H2, H3.
    destruct f1 as [|f1]; [simpl in Hlt; lia|]. cbn [push_int].
    assert (0 < m / 10) as Hq by zdiv. rewrite (proj2 (Z.ltb_lt 0 _) Hq).
    destruct (rem_digit (m / 10) ltac:(lia)) as [-> ->]. do 2 f_equal.
    simpl pow10 in Hlt. unfold kDecimalBase in Hlt. apply IH; [lia | zdiv | zdiv | lia].
  - destruct (Z.ltb_spec m 10).
    + replace (m mod 10) with m by zdiv. replace (m / 10) with 0 by zdiv. by destruct f1.
    + destruct (lut_spec m ltac:(lia)) as [-> ->]. destruct f1 as [|f1]; [simpl in Hlt; lia|].
      cbn [push_int]. assert (0 < m / 10) as Hq by zdiv. rewrite (proj2 (Z.ltb_lt 0 _) Hq).
      destruct (rem_digit (m / 10) ltac:(lia)) as [-> ->].
      replace ((m / 10) mod 10) with (m / 10) by zdiv. replace (m / 10 / 10) with 0 by zdiv.
      by destruct f1.
Qed.

(** The table-driven printer [to_string2] writes exactly what [to_string]
    writes, for every power-of-ten scale up to 10^18, every value whose negation
    is representable and every buffer size. *)
Theorem to_string2_equiv k value buf_size :
  (k <= 18)%nat -> -int64_max <= value <= int64_max ->
  to_string2 (pow10 k) value buf_size = to_string (pow10 k) value buf_size.
Proof.
  intros Hk Hv. pose proof (pow10_pos k). unfold to_string2, to_string.
  destruct (buf_size =? 0); [done|]. rewrite count_frac_pow10 by lia.
  set (val := if value <? 0 then - value else value).
  assert (Hval : 0 <= val <= int64_max) by (subst val; destruct (Z.ltb_spec value 0); lia).
  rewrite Z.rem_mod_nonneg, Z.quot_div_nonneg by lia.
  destruct (strip_zeros k (val mod pow10 k)) as [d f'] eqn:Es.
  apply strip_zeros_spec in Es as (j & -> & Hf & Hf'); [|apply Z.mod_pos_bound; lia].
  rewrite push_frac2_eq by lia. destruct (Z.eqb_spec (val / pow10 (d + j)) 0) as [|Hne]; [done|].
  assert (0 <= val / pow10 (d + j)) by (apply Z.div_pos; lia).
  rewrite push_int2_eq; [done | lia |].
  apply Z.le_lt_trans with int64_max; [|done].
  apply Z.div_le_upper_bound; [lia|]. unfold int64_max in *. nia.
Qed.

Lemma to_string2_equiv_witness :
  to_string2 (pow10 8) 1234567800 8 = to_string (pow10 8) 1234567800 8.
Proof. apply to_string2_equiv; [lia | unfold int64_max; lia]. Defined.

(** ** Multiplication at scale 10^8 *)

(** At scale 10^8 the multiplication by the reciprocal gives the truncated
    quotient for non-negative products below 2*10^11, and one less than the
    truncated quotient for every negative product in that range (the other
    scales truncate toward zero). *)
Theorem mul_scale8_error a b :
  -200000000000 <= a * b <= 200000000000 ->
  mul kScale8Decimal a b =
  Z.quot (a * b) kScale8Decimal - (if a * b <? 0 then 1 else 0).
Proof.
  intros Ht. unfold mul. rewrite Z.eqb_refl. set (t := a * b) in *. unfold kScale8Decimal in *.
  rewrite Z.shiftr_div_pow2 by lia. change (2 ^ 64) with two64.
  change kInverseScale8 with 184467440738.
  assert (Hr : t * 184467440738 / two64 = Z.quot t 100000000 - (if t <? 0 then 1 else 0)).
  { destruct (Z.ltb_spec t 0) as [Hn|Hn].
    - assert (Hq : Z.quot t 100000000 = - ((-t) / 100000000)).
      { rewrite <-(Z.opp_involutive t) at 1. rewrite Z.quot_opp_l, Z.quot_div_nonneg by lia. done. }
      rewrite Hq. unfold two64. zdiv.
    - rewrite Z.quot_div_nonneg by lia. unfold two64. zdiv. }
  rewrite Hr. unfold i64. rewrite Z.mod_small; [lia|].
  assert (-2000 <= Z.quot t 100000000 <= 2000).
  { split; [apply (Z.quot_le_mono (-200000000000) t 100000000); lia
           |apply (Z.quot_le_mono t 200000000000 100000000); lia]. }
  unfold two63, two64. destruct (t <? 0); lia.
Qed.

Lemma mul_scale8_error_witness :
  mul kScale8Decimal (-1) 100000000 =
  Z.quot (-1 * 100000000) kScale8Decimal - (if -1 * 100000000 <? 0 then 1 else 0).
Proof. apply mul_scale8_error. lia. Defined.
End FixedPoint.
