(* ===== verification/Text.v ===== *)
(** * Texts

    Text is a list of character codes.  What the parsers and printers share: the
    codes of a literal, runs of digits and the number they denote, and
    [std::to_string] of an unsigned integer. *)

From S2P Require Import Prelude Types FixedPoint.

Module Text.
Import FixedPoint.

Definition codes (s : string) : list Z :=
  map (fun a => Z.of_N (Ascii.N_of_ascii a)) (String.list_ascii_of_string s).

Definition digits (d : list Z) : Prop := Forall (fun c => chr_0 <= c <= chr_9) d.
Definition digits_value (d : list Z) : Z := fold_left (fun val c => val * 10 + (c - chr_0)) d 0.

Lemma fold_digits_ge d v : digits d -> 0 <= v -> v <= fold_left (fun val c => val * 10 + (c - chr_0)) d v.
Proof.
  intros Hd. revert v. induction Hd as [|x d Hx Hd IH]; intros v Hv; simpl; [lia|].
  unfold chr_0, chr_9 in *. etransitivity; [|apply IH]; lia.
Qed.

Lemma push_int_digits fuel n : digits (push_int fuel n).
Proof.
  revert n. induction fuel as [|fuel IH]; intros n; simpl; [constructor|].
  destruct (Z.ltb_spec 0 n); [|constructor]. constructor; [|apply IH].
  destruct (rem_digit n) as [-> _]; [lia|]. unfold chr_0, chr_9. zdiv.
Qed.

(** [std::to_string] of an unsigned integer. *)
Definition to_string_u64 (n : Z) : list Z := reverse (int_chars n).

Lemma digits_value_reverse fuel n :
  0 <= n < pow10 fuel -> digits_value (reverse (push_int fuel n)) = n.
Proof.
  revert n. induction fuel as [|fuel IH]; intros n Hn; simpl in *; [by assert (n = 0) as -> by lia|].
  destruct (Z.ltb_spec 0 n); [|by assert (n = 0) as -> by lia].
  destruct (rem_digit n ltac:(lia)) as [-> ->]. unfold kDecimalBase in Hn.
  rewrite reverse_cons. unfold digits_value. rewrite fold_left_app. fold (digits_value (reverse (push_int fuel (n / 10)))).
  rewrite IH by zdiv. simpl. unfold chr_0. zdiv.
Qed.

Lemma to_string_u64_spec n :
  0 <= n < two64 -> digits (to_string_u64 n) /\ digits_value (to_string_u64 n) = n /\ to_string_u64 n <> [].
Proof.
  intros Hn. unfold to_string_u64, int_chars, digits. destruct (Z.eqb_spec n 0) as [->|Hne].
  - split_and!; [|done..]. repeat constructor; unfold chr_0, chr_9; lia.
  - assert (Hv : digits_value (reverse (push_int 64 n)) = n)
      by (apply digits_value_reverse; assert (two64 <= pow10 64) by done; lia).
    split_and!; [apply Forall_reverse, push_int_digits | done |].
    intros Hnil. rewrite Hnil in Hv. by rewrite <-Hv in Hne.
Qed.

End Text.
