(* ===== verification/LevelParser.v ===== *)
(** * Price levels in JSON (src/hft/core/websocket/schema/price_qty_array.h)

    [parse_quoted_decimal_to_int] and the readers and writers of arrays of
    price levels.  Input is a list of character codes and an iterator is the
    list of the characters it has not passed yet.  The readers never report an
    error: on malformed input they stop and keep the levels read so far.

    The theorems: the parser computes the absolute value of what
    [string_to_fixed] computes, for every text; the reader reads a rendered
    array level by level; it terminates on every input; what the writer
    writes is read back multiplied by the scales. *)

From S2P Require Import Prelude Types FixedPoint Text.

Module LevelParser.
Import FixedPoint Text.

Definition chr_quote : Z := 34.
Definition chr_comma : Z := 44.
Definition chr_open : Z := 91.
Definition chr_close : Z := 93.

(** ** parse_quoted_decimal_to_int *)

Record Decimal := mkDecimal {
  dc_mantissa : Z;
  dc_frac_digits : Z;
  dc_in_frac : bool;
}.

(** The body of the loop over the characters. *)
Definition decimal_step (st : Decimal) (chr : Z) : Decimal :=
  if (chr_0 <=? chr) && (chr <=? chr_9) then
    mkDecimal (dc_mantissa st * kDecimalBase + (chr - chr_0))
      (if dc_in_frac st then dc_frac_digits st + 1 else dc_frac_digits st) (dc_in_frac st)
  else if chr =? chr_dot then mkDecimal (dc_mantissa st) (dc_frac_digits st) true
  else st.

Definition kPowersOf10 : list Z :=
  [1; 10; 100; 1000; 10000; 100000; 1000000; 10000000; 100000000; 1000000000; 10000000000].

(** Indexing the table past its end is undefined. *)
Definition power_of_10 (frac_digits : Z) : option Z := kPowersOf10 !! Z.to_nat frac_digits.

Definition parse_quoted_decimal_to_int (scale : Z) (text : list Z) : option Z :=
  let st := fold_left decimal_step text (mkDecimal 0 0 false) in
  if dc_frac_digits st =? 0 then Some (dc_mantissa st * scale)
  else
    scale_divisor ← power_of_10 (dc_frac_digits st);
    if scale_divisor <=? scale then Some (dc_mantissa st * Z.quot scale scale_divisor)
    else Some (Z.quot (dc_mantissa st) (Z.quot scale_divisor scale)).

(** ** Iterators *)

Definition is_space (chr : Z) : bool :=
  (chr =? 32) || (chr =? 9) || (chr =? 10) || (chr =? 13).

(** The loop over blanks, tabs and line ends. *)
Fixpoint skip_space (it : list Z) : list Z :=
  match it with
  | chr :: rest => if is_space chr then skip_space rest else it
  | [] => []
  end.

(** [while (it != end && *it != chr) ++it;]: the characters passed and the
    iterator afterwards. *)
Fixpoint scan_to (chr : Z) (it : list Z) : list Z * list Z :=
  match it with
  | c :: rest => if c =? chr then ([], it) else let '(passed, it') := scan_to chr rest in (c :: passed, it')
  | [] => ([], [])
  end.

(** ** The reader of ScaledInt64PriceQtyArray *)

(** How a loop ends: with its result, in undefined behaviour, or, in the
    model only, without fuel. *)
Inductive Outcome (A : Type) := Done (result : A) | Undefined | OutOfFuel.
Arguments Done {A} _.
Arguments Undefined {A}.
Arguments OutOfFuel {A}.

(** The entry after its opening bracket: [None] when the input ends inside of
    it, otherwise the two texts and the iterator behind the closing bracket. *)
Definition read_entry (it : list Z) : option (list Z * list Z * list Z) :=
  match (scan_to chr_quote it).2 with
  | [] => None
  | _ :: it =>
      let '(price, it) := scan_to chr_quote it in
      match it with
      | [] => None
      | _ :: it =>
          let it := drop 1 (scan_to chr_comma it).2 in
          match (scan_to chr_quote it).2 with
          | [] => None
          | _ :: it =>
              let '(qty, it) := scan_to chr_quote it in
              match it with
              | [] => None
              | _ :: it => Some (price, qty, drop 1 (scan_to chr_close it).2)
              end
          end
      end
  end.

Section Reader.
(** What the two texts of an entry become: [None] is undefined. *)
Context {A : Type} (convert : list Z -> list Z -> option A).

(** The loop over the entries, with the levels pushed so far. *)
Fixpoint entry_loop (fuel : nat) (data : list A) (it : list Z) : Outcome (list A) :=
  match fuel with
  | O => OutOfFuel
  | S n =>
      match skip_space it with
      | [] => Done data
      | chr :: rest =>
          if chr =? chr_close then Done data
          else if chr =? chr_comma then entry_loop n data rest
          else if negb (chr =? chr_open) then Done data
          else
            match read_entry rest with
            | None => Done data
            | Some (price, qty, it') =>
                match convert price qty with
                | Some level => entry_loop n (data ++ [level]) it'
                | None => Undefined
                end
            end
      end
  end.

Definition read_array (input : list Z) : Outcome (list A) :=
  match skip_space input with
  | chr :: rest => if chr =? chr_open then entry_loop (S (length rest)) [] rest else Done []
  | [] => Done []
  end.
End Reader.

Definition convert_scaled (PriceScale QtyScale : Z) (price qty : list Z) : option (Z * Z) :=
  p ← parse_quoted_decimal_to_int PriceScale price;
  q ← parse_quoted_decimal_to_int QtyScale qty;
  Some (p, q).

(** [from<JSON, ScaledInt64PriceQtyArray>::op]. *)
Definition read_levels (PriceScale QtyScale : Z) : list Z -> Outcome (list (Z * Z)) :=
  read_array (convert_scaled PriceScale QtyScale).

(** [from<JSON, ScaledInt64<Scale>>::op]: the value after reading.  An input
    that ends inside of the text makes the code take the address of the
    character behind the end, which it does not read. *)
Definition read_scaled (scale value : Z) (input : list Z) : option Z :=
  match skip_space input with
  | chr :: rest =>
      if chr =? chr_quote then parse_quoted_decimal_to_int scale (scan_to chr_quote rest).1
      else Some value
  | [] => Some value
  end.

(** ** The writers *)

(** [write_chars] of an integer: its decimal digits with a sign. *)
Definition write_int (value : Z) : list Z :=
  let digits := reverse (int_chars (Z.abs value)) in
  if value <? 0 then chr_minus :: digits else digits.

Definition write_entry (entry : Z * Z) : list Z :=
  [chr_open; chr_quote] ++ write_int entry.1 ++ [chr_quote; chr_comma; chr_quote]
  ++ write_int entry.2 ++ [chr_quote; chr_close].

(** The loop with its [first] flag: a comma before every entry but the first. *)
Fixpoint write_entries (first : bool) (data : list (Z * Z)) : list Z :=
  match data with
  | [] => []
  | entry :: data' =>
      (if first then [] else [chr_comma]) ++ write_entry entry ++ write_entries false data'
  end.

(** [to<JSON, ScaledInt64PriceQtyArray>::op]. *)
Definition write_levels (data : list (Z * Z)) : list Z :=
  [chr_open] ++ write_entries true data ++ [chr_close].

(** ** The parser and string_to_fixed *)

(** The digits after the first point, as [string_to_fixed] counts them. *)
Definition parsed (text : list Z) : ParseSt := fold_left parse_step text (mkParse 0 0 0 false false).
Definition fraction_digits (text : list Z) : nat := frac_digits (parsed text).

(** The state of one parser in terms of that of the other. *)
Definition agree (d : Decimal) (st : ParseSt) : Prop :=
  dc_mantissa d = integer_part st * pow10 (frac_digits st) + frac_part st /\
  dc_frac_digits d = Z.of_nat (frac_digits st) /\
  dc_in_frac d = in_frac st /\
  (in_frac st = false -> frac_digits st = 0%nat /\ frac_part st = 0) /\
  0 <= integer_part st /\ 0 <= frac_part st < pow10 (frac_digits st).

Lemma agree_step d st chr : agree d st -> agree (decimal_step d chr) (parse_step st chr).
Proof.
  intros (Hm & Hd & Hf & Hn & Hi & Hp). unfold decimal_step, parse_step.
  destruct (Z.eqb_spec chr chr_minus) as [->|Hneg]; [done|].
  destruct (Z.eqb_spec chr chr_dot) as [->|Hdot]; [done|].
  destruct ((chr_0 <=? chr) && (chr <=? chr_9)) eqn:E; [|done].
  unfold chr_0, chr_9, kDecimalBase in *. apply andb_prop in E as [E1 E2].
  rewrite Hf. pose proof (pow10_pos (frac_digits st)).
  destruct (in_frac st) eqn:Ef; unfold agree; simpl;
    unfold kDecimalBase in *; [repeat split; try done; zprop; try lia; nia|].
  destruct (Hn eq_refl) as [H0 H1]. rewrite H0, H1 in *. simpl in *.
  repeat split; try done; zprop; lia.
Qed.

Lemma agree_fold text d st :
  agree d st -> agree (fold_left decimal_step text d) (fold_left parse_step text st).
Proof.
  revert d st. induction text as [|c text IH]; intros d st H; [done|]. apply IH, agree_step, H.
Qed.

Lemma agree_parsed text : agree (fold_left decimal_step text (mkDecimal 0 0 false)) (parsed text).
Proof. apply agree_fold. repeat split; simpl; lia. Qed.

Lemma power_of_10_spec (n : nat) :
  power_of_10 (Z.of_nat n) = if decide (n <= 10)%nat then Some (pow10 n) else None.
Proof.
  unfold power_of_10. rewrite Nat2Z.id. case_decide as Hn.
  - do 11 (destruct n as [|n]; [done|]). lia.
  - apply lookup_ge_None. simpl. lia.
Qed.

Lemma pow10_add a b : pow10 (a + b) = pow10 a * pow10 b.
Proof. rewrite !pow10_eq, Nat2Z.inj_add, Z.pow_add_r by lia. done. Qed.

Lemma quot_pow10 a b x : 0 <= x -> Z.quot (x * pow10 a) (pow10 (a + b)) = Z.quot x (pow10 b).
Proof.
  intros Hx. rewrite pow10_add, (Z.mul_comm (pow10 a)).
  pose proof (pow10_pos a). pose proof (pow10_pos b).
  apply Z.quot_mul_cancel_r; lia.
Qed.

(** Scaling the mantissa is scaling both parts. *)
Lemma scale_parts n k ip fp :
  0 <= ip -> 0 <= fp ->
  (if pow10 k <=? pow10 n then (ip * pow10 k + fp) * Z.quot (pow10 n) (pow10 k)
   else Z.quot (ip * pow10 k + fp) (Z.quot (pow10 k) (pow10 n))) =
  ip * pow10 n + Z.quot (fp * pow10 n) (pow10 k).
Proof.
  intros Hi Hf. pose proof (pow10_pos k) as Hk. pose proof (pow10_pos n) as Hn.
  destruct (Nat.le_gt_cases k n) as [Hle|Hgt].
  - replace n with (k + (n - k))%nat by lia. set (m := (n - k)%nat).
    pose proof (pow10_pos m). rewrite pow10_add, (proj2 (Z.leb_le _ _)) by nia.
    replace (pow10 k * pow10 m) with (pow10 m * pow10 k) by ring.
    rewrite Z.quot_mul by lia.
    replace (fp * (pow10 m * pow10 k)) with (fp * pow10 m * pow10 k) by ring.
    rewrite Z.quot_mul by lia. ring.
  - replace k with (n + (k - n))%nat by lia. assert (Hm : (0 < k - n)%nat) by lia.
    set (m := (k - n)%nat) in *. pose proof (pow10_pos m).
    assert (1 < pow10 m) by (destruct m; [lia|]; simpl; pose proof (pow10_pos m); unfold kDecimalBase; lia).
    rewrite quot_pow10 by lia. rewrite pow10_add, (proj2 (Z.leb_gt _ _)) by nia.
    rewrite (Z.mul_comm (pow10 n)), Z.quot_mul by lia.
    rewrite !Z.quot_div_nonneg by nia.
    replace (ip * (pow10 m * pow10 n) + fp) with (fp + ip * pow10 n * pow10 m) by ring.
    rewrite Z.div_add by lia. ring.
Qed.

(** The parser of quoted decimals computes the absolute value of what
    [string_to_fixed] computes, on every text and for every scale that is a
    power of ten: both count the same digits, but the parser ignores a minus
    sign.  It is undefined exactly when the text has more than ten digits
    after its point. *)
Lemma quoted_parser_spec n text :
  parse_quoted_decimal_to_int (pow10 n) text =
  if decide (fraction_digits text <= 10)%nat
  then Some (Z.abs (string_to_fixed (pow10 n) text)) else None.
Proof.
  destruct (agree_parsed text) as (Hm & Hd & Hf & Hn & Hi & Hp).
  unfold parse_quoted_decimal_to_int, string_to_fixed, fraction_digits. fold (parsed text).
  set (d := fold_left _ _ _) in *. set (st := parsed text) in *. pose proof (pow10_pos n).
  set (v := integer_part st * pow10 n + Z.quot (frac_part st * pow10 n) (pow10 (frac_digits st))).
  assert (0 <= v). { pose proof (pow10_pos (frac_digits st)).
    assert (0 <= Z.quot (frac_part st * pow10 n) (pow10 (frac_digits st))) by (apply Z.quot_pos; nia).
    unfold v; nia. }
  replace (Z.abs (if negative st then - v else v)) with v by (destruct (negative st); lia).
  rewrite Hd, power_of_10_spec. unfold v in *. rewrite Hm.
  destruct (Z.eqb_spec (Z.of_nat (frac_digits st)) 0) as [E|E].
  - assert (frac_digits st = 0%nat) as E0 by lia. rewrite E0 in *.
    case_decide; [|lia]. f_equal. change (pow10 0) with 1 in *. rewrite Z.quot_1_r. lia.
  - case_decide; [|done]. simpl. rewrite <-(scale_parts n (frac_digits st)) by lia.
    by case_match.
Qed.

(** ** Reading arrays *)

Lemma skip_space_length it : (length (skip_space it) <= length it)%nat.
Proof. induction it as [|c it IH]; simpl; [lia|]. case_match; simpl; lia. Qed.

Lemma scan_to_length c it : (length (scan_to c it).2 <= length it)%nat.
Proof.
  induction it as [|d it IH]; simpl; [lia|]. case_match; simpl; [lia|].
  destruct (scan_to c it) as [p r]. simpl in *. lia.
Qed.

Lemma scan_to_split c it p r : scan_to c it = (p, r) -> (length r <= length it)%nat.
Proof. intros E. pose proof (scan_to_length c it). by rewrite E in H. Qed.

Lemma read_entry_length it price qty it' :
  read_entry it = Some (price, qty, it') -> (length it' <= length it)%nat.
Proof.
  unfold read_entry. destruct (scan_to chr_quote it) as [? [|? i1]] eqn:E1; simpl; [done|].
  destruct (scan_to chr_quote i1) as [p [|? i2]] eqn:E2; [done|].
  set (i3 := drop 1 (scan_to chr_comma i2).2).
  assert (length i3 <= length i2)%nat by (pose proof (scan_to_length chr_comma i2);
    unfold i3; rewrite length_drop; lia).
  destruct (scan_to chr_quote i3) as [? [|? i4]] eqn:E3; simpl; [done|].
  destruct (scan_to chr_quote i4) as [q [|? i5]] eqn:E4; [done|].
  intros [= <- <- <-]. pose proof (scan_to_length chr_close i5). rewrite length_drop.
  apply scan_to_split in E1, E2, E3, E4. simpl in *. lia.
Qed.

Lemma entry_loop_fuel {A} (convert : list Z -> list Z -> option A) fuel data it :
  (length it < fuel)%nat -> entry_loop convert fuel data it <> OutOfFuel.
Proof.
  revert data it. induction fuel as [|n IH]; intros data it Hl; [lia|]. simpl.
  pose proof (skip_space_length it) as Hs.
  destruct (skip_space it) as [|c rest]; [done|]. simpl in Hs.
  case_match; [done|]. case_match; [apply IH; lia|]. case_match; [done|].
  destruct (read_entry rest) as [[[price qty] it']|] eqn:E; [|done].
  apply read_entry_length in E. repeat (case_match; [|done]). apply IH. lia.
Qed.

(** The reader of price levels terminates on every input, well formed or
    not: its loop always ends within one round per character. *)
Theorem reader_terminates {A} (convert : list Z -> list Z -> option A) input : read_array convert input <> OutOfFuel.
Proof.
  unfold read_array. destruct (skip_space input) as [|c rest]; [done|].
  case_match; [|done]. apply entry_loop_fuel. lia.
Qed.

(** Levels as the exchange renders them: quoted decimals in brackets. *)
Definition render_entry (text : list Z * list Z) : list Z :=
  [chr_open; chr_quote] ++ text.1 ++ [chr_quote; chr_comma; chr_quote]
  ++ text.2 ++ [chr_quote; chr_close].

Fixpoint render_entries (first : bool) (texts : list (list Z * list Z)) : list Z :=
  match texts with
  | [] => []
  | text :: texts' =>
      (if first then [] else [chr_comma]) ++ render_entry text ++ render_entries false texts'
  end.

Definition render_levels (texts : list (list Z * list Z)) : list Z :=
  [chr_open] ++ render_entries true texts ++ [chr_close].

Definition unquoted (text : list Z * list Z) : Prop :=
  (chr_quote ∉ text.1) /\ (chr_quote ∉ text.2).

Lemma scan_to_app c s rest : c ∉ s -> scan_to c (s ++ c :: rest) = (s, c :: rest).
Proof.
  induction s as [|d s IH]; intros Hs; simpl; [by rewrite Z.eqb_refl|].
  apply not_elem_of_cons in Hs as [Hd Hs]. destruct (Z.eqb_spec d c); [congruence|].
  by rewrite IH.
Qed.

Lemma read_entry_render text rest :
  unquoted text -> read_entry (drop 1 (render_entry text) ++ rest) = Some (text.1, text.2, rest).
Proof.
  intros [Hp Hq]. unfold render_entry, read_entry.
  repeat (rewrite <-app_assoc || simpl). unfold chr_quote at 1. simpl.
  rewrite scan_to_app by done. simpl.
  rewrite scan_to_app by done. simpl. by rewrite drop_0.
Qed.

(** What the two texts of a level mean. *)
Definition level_value (ps qs : Z) (text : list Z * list Z) (level : Z * Z) : Prop :=
  parse_quoted_decimal_to_int ps text.1 = Some level.1 /\
  parse_quoted_decimal_to_int qs text.2 = Some level.2.

(** The loop over a rendered array, for any conversion. *)
Lemma entry_loop_render {A} (convert : list Z -> list Z -> option A) texts levels first rest fuel data :
  Forall unquoted texts -> Forall2 (fun text level => convert text.1 text.2 = Some level) texts levels ->
  (length (render_entries first texts) < fuel)%nat ->
  entry_loop convert fuel data (render_entries first texts ++ chr_close :: rest) = Done (data ++ levels).
Proof.
  intros Hu Hv. revert first fuel data Hu.
  induction Hv as [|text level texts levels Hc Hv IH]; intros first fuel data Hu Hl.
  - destruct fuel; simpl in *; [lia|]. by rewrite app_nil_r.
  - inversion_clear Hu as [|? ? Hut Hus]. cbn [render_entries] in *.
    assert (Hone : forall fuel data, (length (render_entry text ++ render_entries false texts) < fuel)%nat ->
      entry_loop convert fuel data ((render_entry text ++ render_entries false texts) ++ chr_close :: rest) =
      Done (data ++ level :: levels)).
    { clear - IH Hc Hut Hus. intros fuel data Hl. destruct fuel as [|fuel]; [lia|].
      pose proof (read_entry_render text (render_entries false texts ++ chr_close :: rest) Hut) as Hr.
      rewrite <-app_assoc. rewrite length_app in Hl. unfold render_entry in *.
      change ([chr_open; chr_quote] ++ ?x) with (chr_open :: chr_quote :: x) in *.
      rewrite skipn_cons, drop_0 in Hr. simpl in Hl.
      set (tail := text.1 ++ _) in *. cbn [entry_loop app skip_space is_space].
      simpl. simpl in Hr. rewrite Hr, Hc, IH by (done || lia). by rewrite <-app_assoc. }
    destruct first; [apply Hone; done|]. cbn [length app] in Hl.
    destruct fuel as [|fuel]; [lia|]. simpl. apply Hone. lia.
Qed.

Lemma read_array_render {A} (convert : list Z -> list Z -> option A) texts levels rest :
  Forall unquoted texts -> Forall2 (fun text level => convert text.1 text.2 = Some level) texts levels ->
  read_array convert (render_levels texts ++ rest) = Done levels.
Proof.
  intros Hu Hv. unfold read_array, render_levels. rewrite <-!app_assoc. simpl app.
  cbn [skip_space is_space Z.eqb Pos.eqb orb chr_open].
  apply (entry_loop_render convert texts levels true rest _ []); [done..|].
  rewrite length_app. simpl. lia.
Qed.

(** Reading a rendered array gives its levels in order, whatever follows. *)
Lemma read_rendered_levels ps qs texts levels rest :
  Forall unquoted texts -> Forall2 (level_value ps qs) texts levels ->
  read_levels ps qs (render_levels texts ++ rest) = Done levels.
Proof.
  intros Hu Hv. apply read_array_render; [done|]. eapply Forall2_impl; [exact Hv|].
  intros text [p q] [Hp Hq]. unfold convert_scaled. by rewrite Hp, Hq.
Qed.

(** ** Writing and reading back *)

Lemma write_int_fixed n value :
  Z.abs value <= int64_max ->
  string_to_fixed (pow10 n) (write_int value) = value * pow10 n.
Proof.
  intros Hv. unfold string_to_fixed, write_int. destruct (Z.ltb_spec value 0); simpl fold_left;
    rewrite int_chars_parse by (done || lia); simpl; rewrite Z.quot_1_r; lia.
Qed.

Lemma write_int_digits value : Z.abs value <= int64_max ->
  Forall (fun c => c = chr_minus \/ chr_0 <= c <= chr_9) (write_int value).
Proof.
  intros Hv. assert (Hd : Forall (fun c => c = chr_minus \/ chr_0 <= c <= chr_9)
    (reverse (int_chars (Z.abs value)))).
  { apply Forall_reverse. unfold int_chars. case_match.
    - repeat constructor; unfold chr_0, chr_9; lia.
    - eapply Forall_impl; [apply push_int_digits|]. intros; by right. }
  unfold write_int. case_match; [constructor; [by left|]|]; done.
Qed.

Lemma write_int_fraction value : Z.abs value <= int64_max -> fraction_digits (write_int value) = 0%nat.
Proof.
  intros Hv. unfold fraction_digits, parsed, write_int. destruct (value <? 0); simpl fold_left;
    by rewrite int_chars_parse by (done || lia).
Qed.

Lemma write_int_parsed n value : Z.abs value <= int64_max ->
  parse_quoted_decimal_to_int (pow10 n) (write_int value) = Some (Z.abs value * pow10 n).
Proof.
  intros Hv. rewrite quoted_parser_spec, write_int_fraction, write_int_fixed by done.
  case_decide; [|lia]. pose proof (pow10_pos n). f_equal. lia.
Qed.

Lemma write_int_unquoted value : Z.abs value <= int64_max -> chr_quote ∉ write_int value.
Proof.
  intros Hv Hin. pose proof (write_int_digits value Hv) as Hd. rewrite Forall_forall in Hd.
  specialize (Hd _ Hin). unfold chr_quote, chr_minus, chr_0, chr_9 in Hd. lia.
Qed.

Definition raw_text (entry : Z * Z) : list Z * list Z := (write_int entry.1, write_int entry.2).

Lemma write_entries_render first data : write_entries first data = render_entries first (map raw_text data).
Proof.
  revert first. induction data as [|e data IH]; intros first; [done|]. simpl. by rewrite IH.
Qed.

(** The writer and the reader of price levels are not inverse: the
    writer prints the raw scaled integers and the reader scales again, so
    that every price comes back multiplied by the price scale, every quantity
    by the quantity scale, and both without their signs. *)
Theorem written_levels_scaled_again n m data rest :
  Forall (fun entry => Z.abs entry.1 <= int64_max /\ Z.abs entry.2 <= int64_max) data ->
  read_levels (pow10 n) (pow10 m) (write_levels data ++ rest) =
  Done (map (fun entry => (Z.abs entry.1 * pow10 n, Z.abs entry.2 * pow10 m)) data).
Proof.
  intros Hd. unfold write_levels. rewrite write_entries_render.
  apply (read_rendered_levels _ _ (map raw_text data)).
  - apply Forall_map. eapply Forall_impl; [exact Hd|]. intros e [H1 H2].
    split; by apply write_int_unquoted.
  - induction Hd as [|e data [H1 H2] _ IH]; [constructor|]. constructor; [|done].
    split; by apply write_int_parsed.
Qed.

Lemma written_levels_scaled_again_witness :
  read_levels (pow10 1) (pow10 3) (write_levels [(905583, 1500)] ++ []) = Done [(9055830, 1500000)].
Proof. apply (written_levels_scaled_again 1 3 [(905583, 1500)] []). repeat constructor; done. Defined.

End LevelParser.
