(* ===== verification/OnepassDecoder.v ===== *)
(** * The one-pass market data decoder
      (src/hft/core/websocket/market_data/onepass_binance_futures_md_decoder.hpp)

    The decoder walks a pointer over compact JSON with fixed offsets.  A
    pointer is the list of the characters from it to the end of the payload;
    moving or reading past the end is undefined ([None]).  Decoding with the
    JSON library is a parameter.

    In the patterns below a single quote stands for the double quote of JSON.

    The theorems: every message rendered in the documented format is decoded
    to its fields; the parser of decimals agrees with [string_to_fixed] as long
    as the text has no more fraction digits than the scale, and returns zero
    when it has more; a trade message with the field [nq] is misread. *)

From S2P Require Import Prelude Types FixedPoint Text LevelParser.

Module Onepass.
Import FixedPoint Text LevelParser.

(** ** Characters *)

(** A pattern with double quotes for its single quotes. *)
Definition json (s : string) : list Z := map (fun c => if c =? 39 then chr_quote else c) (codes s).

(** ** Offsets: [sizeof(pattern) - 1] *)

Definition kStreamValueStart : nat := length (json "{'stream':'").
Definition kDataEventStart : nat := length (json "','data':{'e':'").
Definition kPriceQtyEntry : nat := length (json "['").
Definition kSkipQuoteKeyValue : nat := length (json "','X':").
Definition kSkipKeyValue : nat := length (json ",'X':").
Definition kSkipQuoteKeyQuote : nat := length (json ",'X':'").
Definition kDepthPuSkip : nat := length (json ",'pu':").
Definition kDepthBidsStart : nat := length (json ",'b':[").
Definition kDepthAsksStart : nat := length (json "],'a':[").
Definition kTradeAggIdSkip : nat := length (json ",'a':").
Definition kTradePriceSkip : nat := length (json "','p':'").
Definition kTradeQtySkip : nat := length (json ",'q':'").
Definition kTradeFirstIdSkip : nat := length (json ",'f':").
Definition kBookTickerBidPriceSkip : nat := length (json "','b':'").
Definition kBookTickerBidQtySkip : nat := length (json ",'B':'").
Definition kBookTickerAskPriceSkip : nat := length (json ",'a':'").
Definition kBookTickerAskQtySkip : nat := length (json ",'A':'").
Definition kSnapshotIdStart : nat := length (json "{'id':'").
Definition kSnapshotStatusSkip : nat := length (json "','status':").
Definition kSnapshotResultSkip : nat := length (json ",'result':{'lastUpdateId':").
Definition kSnapshotBidsStart : nat := length (json ",'bids':[").
Definition kSnapshotAsksStart : nat := length (json "],'asks':[").
Definition kMinPayloadLen : nat := length (json "{'s':''}").
Definition kFirstCharOffset : nat := 2.
Definition kAtSearchStart : nat := length (json "{'stream':'x").
Definition kStreamTypeOffset : nat := 1.
Definition kShortSearchLen : nat := 32.

(** ** The scanner *)

Abbreviation Ptr := (list Z).

(** [ptr += n] *)
Definition advance (n : nat) (ptr : Ptr) : option Ptr :=
  if (n <=? length ptr)%nat then Some (drop n ptr) else None.

(** [memchr(ptr, chr, n)]: it reads up to the first match, so that only a
    search that runs off the end is undefined. *)
Fixpoint memchr (chr : Z) (n : nat) (ptr : Ptr) : option (option Ptr) :=
  match n, ptr with
  | O, _ => Some None
  | S _, [] => None
  | S n', c :: rest => if c =? chr then Some (Some ptr) else memchr chr n' rest
  end.

(** [static_cast<uint8_t>(chr - '0') < 10] *)
Definition is_digit (chr : Z) : bool := (chr - chr_0) mod 256 <? 10.

Fixpoint skip_digits (ptr : Ptr) : option Ptr :=
  match ptr with
  | [] => None
  | chr :: rest => if is_digit chr then skip_digits rest else Some ptr
  end.

Definition skip_to (ptr : Ptr) (chr : Z) : option Ptr :=
  found ← memchr chr kShortSearchLen ptr;
  Some (default ptr found).

Fixpoint uint_loop (val : Z) (ptr : Ptr) : option (Z * Ptr) :=
  match ptr with
  | [] => None
  | chr :: rest => if is_digit chr then uint_loop (u64 (val * 10 + (chr - chr_0))) rest else Some (val, ptr)
  end.
Definition parse_uint_inline (ptr : Ptr) : option (Z * Ptr) := uint_loop 0 ptr.

(** [ofs::kDecimalBase] is the double [10.0]: the mantissa is accumulated in
    binary64 and cast back at each digit.  On non-negative integers binary64
    is rounding to 53 bits, to nearest and ties to even. *)
Definition to_double (z : Z) : Z :=
  if z <? 2 ^ 53 then z
  else
    let e := Z.log2 z - 52 in
    let q := Z.shiftr z e in
    let r := z - Z.shiftl q e in
    let half := Z.shiftl 1 (e - 1) in
    Z.shiftl (if (half <? r) || ((r =? half) && Z.odd q) then q + 1 else q) e.

(** [mantissa * kDecimalBase + (chr - '0')]; casting a double that is too
    large back to [int64_t] is undefined. *)
Definition push_digit (mantissa digit : Z) : option Z :=
  let next := to_double (to_double (to_double mantissa * 10) + digit) in
  if next <? two63 then Some next else None.

Fixpoint fixed_loop (mantissa frac_digits : Z) (in_frac : bool) (ptr : Ptr) : option (Z * Z * Ptr) :=
  match ptr with
  | [] => None
  | chr :: rest =>
      if is_digit chr then
        mantissa' ← push_digit mantissa (chr - chr_0);
        fixed_loop mantissa' (if in_frac then frac_digits + 1 else frac_digits) in_frac rest
      else if chr =? chr_dot then fixed_loop mantissa frac_digits true rest
      else Some (mantissa, frac_digits, ptr)
  end.

(** [parse_fixed_inline<Scale>]; its table of powers is that of
    [parse_quoted_decimal_to_int]. *)
Definition parse_fixed_inline (scale : Z) (ptr : Ptr) : option (Z * Ptr) :=
  '(mantissa, frac_digits, ptr) ← fixed_loop 0 0 false ptr;
  ptr ← advance 1 ptr;
  if frac_digits =? 0 then Some (mantissa * scale, ptr)
  else
    scale_divisor ← power_of_10 frac_digits;
    Some (mantissa * Z.quot scale scale_divisor, ptr).

(** [string.assign(ptr, end)] *)
Definition assign (ptr end_ : Ptr) : list Z := take (length ptr - length end_) ptr.

(** ** Messages: the fields that the decoder sets *)

Record DepthData := mkDepthData {
  dd_symbol : list Z;
  dd_start_update_id : Z;
  dd_end_update_id : Z;
  dd_final_update_id_in_last_stream : Z;
  dd_bids : list (Z * Z);
  dd_asks : list (Z * Z);
}.

Record AggregateTrade := mkAggregateTrade {
  td_symbol : list Z;
  td_price : Z;
  td_quantity : Z;
  td_is_buyer_market_maker : bool;
}.

Record BookTickerData := mkBookTicker {
  bt_update_id : Z;
  bt_symbol : list Z;
  bt_best_bid_price : Z;
  bt_best_bid_qty : Z;
  bt_best_ask_price : Z;
  bt_best_ask_qty : Z;
}.

Record DepthSnapshot := mkSnapshot {
  sn_id : list Z;
  sn_book_update_id : Z;
  sn_bids : list (Z * Z);
  sn_asks : list (Z * Z);
}.

Section Decoder.
(** The scales of the build and the JSON library with its messages. *)
Variables PriceScale QtyScale : Z.
Context {Api Info : Type}.
Variable read_api : list Z -> option Api.
Variable read_info : list Z -> option Info.

Inductive WireMessage :=
| Monostate
| Depth (data : DepthData)
| TradeEvent (data : AggregateTrade)
| BookTicker (data : BookTickerData)
| Snapshot (data : DepthSnapshot)
| ApiResponse (response : Api)
| ExchangeInfo (response : Info).

(** The loop over the entries of a side; a round passes at least the opening
    bracket, so the length of the input is enough fuel. *)
Fixpoint level_loop (fuel : nat) (levels : list (Z * Z)) (ptr : Ptr) : option (list (Z * Z) * Ptr) :=
  match fuel with
  | O => None
  | S n =>
      chr ← head ptr;
      if chr =? chr_open then
        ptr ← advance kPriceQtyEntry ptr;
        '(price, ptr) ← parse_fixed_inline PriceScale ptr;
        ptr ← advance kPriceQtyEntry ptr;
        '(qty, ptr) ← parse_fixed_inline QtyScale ptr;
        ptr ← advance 1 ptr;
        next ← head ptr;
        level_loop n (levels ++ [(price, qty)]) (if next =? chr_comma then drop 1 ptr else ptr)
      else Some (levels, ptr)
  end.
Definition parse_levels (ptr : Ptr) : option (list (Z * Z) * Ptr) := level_loop (S (length ptr)) [] ptr.

(** The common prefix: to the closing quote of the event type. *)
Definition skip_header (payload : Ptr) : option Ptr :=
  ptr ← advance kStreamValueStart payload;
  ptr ← skip_to ptr chr_quote;
  ptr ← advance kDataEventStart ptr;
  skip_to ptr chr_quote.

Definition decode_depth (payload : Ptr) : option WireMessage :=
  ptr ← skip_header payload;
  ptr ← advance kSkipQuoteKeyValue ptr;
  ptr ← skip_digits ptr;
  ptr ← advance kSkipKeyValue ptr;
  ptr ← skip_digits ptr;
  ptr ← advance kSkipQuoteKeyQuote ptr;
  s_end ← skip_to ptr chr_quote;
  let symbol := assign ptr s_end in
  ptr ← advance kSkipQuoteKeyValue s_end;
  '(start_update_id, ptr) ← parse_uint_inline ptr;
  ptr ← advance kSkipKeyValue ptr;
  '(end_update_id, ptr) ← parse_uint_inline ptr;
  ptr ← advance kDepthPuSkip ptr;
  '(final_update_id, ptr) ← parse_uint_inline ptr;
  ptr ← advance kDepthBidsStart ptr;
  '(bids, ptr) ← parse_levels ptr;
  ptr ← advance kDepthAsksStart ptr;
  '(asks, ptr) ← parse_levels ptr;
  Some (Depth (mkDepthData symbol start_update_id end_update_id final_update_id bids asks)).

Definition decode_trade (payload : Ptr) : option WireMessage :=
  ptr ← skip_header payload;
  ptr ← advance kSkipQuoteKeyValue ptr;
  ptr ← skip_digits ptr;
  ptr ← advance kTradeAggIdSkip ptr;
  ptr ← skip_digits ptr;
  ptr ← advance kSkipQuoteKeyQuote ptr;
  s_end ← skip_to ptr chr_quote;
  let symbol := assign ptr s_end in
  ptr ← advance kTradePriceSkip s_end;
  '(price, ptr) ← parse_fixed_inline PriceScale ptr;
  ptr ← advance kTradeQtySkip ptr;
  '(quantity, ptr) ← parse_fixed_inline QtyScale ptr;
  ptr ← advance kTradeFirstIdSkip ptr;
  ptr ← skip_digits ptr;
  ptr ← advance kSkipKeyValue ptr;
  ptr ← skip_digits ptr;
  ptr ← advance kSkipKeyValue ptr;
  ptr ← skip_digits ptr;
  ptr ← advance kSkipKeyValue ptr;
  flag ← head ptr;
  Some (TradeEvent (mkAggregateTrade symbol price quantity (flag =? 116))).

Definition decode_book_ticker (payload : Ptr) : option WireMessage :=
  ptr ← skip_header payload;
  ptr ← advance kSkipQuoteKeyValue ptr;
  '(update_id, ptr) ← parse_uint_inline ptr;
  ptr ← advance kSkipQuoteKeyQuote ptr;
  s_end ← skip_to ptr chr_quote;
  let symbol := assign ptr s_end in
  ptr ← advance kBookTickerBidPriceSkip s_end;
  '(bid_price, ptr) ← parse_fixed_inline PriceScale ptr;
  ptr ← advance kBookTickerBidQtySkip ptr;
  '(bid_qty, ptr) ← parse_fixed_inline QtyScale ptr;
  ptr ← advance kBookTickerAskPriceSkip ptr;
  '(ask_price, ptr) ← parse_fixed_inline PriceScale ptr;
  ptr ← advance kBookTickerAskQtySkip ptr;
  '(ask_qty, ptr) ← parse_fixed_inline QtyScale ptr;
  Some (BookTicker (mkBookTicker update_id symbol bid_price bid_qty ask_price ask_qty)).

Definition decode_snapshot (view : Ptr) : option WireMessage :=
  ptr ← advance kSnapshotIdStart view;
  id_end ← skip_to ptr chr_quote;
  let id := assign ptr id_end in
  ptr ← advance kSnapshotStatusSkip id_end;
  ptr ← skip_digits ptr;
  ptr ← advance kSnapshotResultSkip ptr;
  '(book_update_id, ptr) ← parse_uint_inline ptr;
  ptr ← advance kSkipKeyValue ptr;
  ptr ← skip_digits ptr;
  ptr ← advance kSkipKeyValue ptr;
  ptr ← skip_digits ptr;
  ptr ← advance kSnapshotBidsStart ptr;
  '(bids, ptr) ← parse_levels ptr;
  ptr ← advance kSnapshotAsksStart ptr;
  '(asks, ptr) ← parse_levels ptr;
  Some (Snapshot (mkSnapshot id book_update_id bids asks)).

(** [decode_with_glaze<ExchangeInfoResponse>]: a failure gives the empty
    message. *)
Definition decode_with_glaze (payload : Ptr) : WireMessage :=
  match read_info payload with Some info => ExchangeInfo info | None => Monostate end.

(** The end of [decode], where every other message goes. *)
Definition decode_api (payload : Ptr) : WireMessage :=
  match read_api payload with Some response => ApiResponse response | None => Monostate end.

(** A payload of the stream kind that is shorter than the start of the search
    wraps the length of the search: undefined. *)
Definition decode (payload : Ptr) : option WireMessage :=
  if (length payload <? kMinPayloadLen)%nat then Some Monostate
  else
    first_chr ← payload !! kFirstCharOffset;
    if first_chr =? 115 then
      p_start ← advance kAtSearchStart payload;
      at_ptr ← memchr 64 (length payload - kAtSearchStart) p_start;
      match at_ptr with
      | Some at_ptr =>
          stream_type ← at_ptr !! kStreamTypeOffset;
          if stream_type =? 100 then decode_depth payload
          else if stream_type =? 97 then decode_trade payload
          else if stream_type =? 98 then decode_book_ticker payload
          else Some (decode_api payload)
      | None => Some (decode_api payload)
      end
    else if first_chr =? 105 then decode_snapshot payload
    else if first_chr =? 116 then Some (decode_with_glaze payload)
    else Some (decode_api payload).

End Decoder.

Arguments WireMessage : clear implicits.

(** ** Scanning what was rendered *)

Lemma is_digit_true c : chr_0 <= c <= chr_9 -> is_digit c = true.
Proof. unfold is_digit, chr_0, chr_9. intros H. rewrite Z.mod_small by lia. apply Z.ltb_lt. lia. Qed.

(** What follows a number in a message is not a digit. *)
Definition ends_number (rest : Ptr) : Prop := exists c rest', rest = c :: rest' /\ is_digit c = false.

Lemma advance_app n pre rest : length pre = n -> advance n (pre ++ rest) = Some rest.
Proof.
  intros <-. unfold advance. rewrite (proj2 (Nat.leb_le _ _)) by (rewrite length_app; lia).
  by rewrite drop_app_length.
Qed.

Lemma memchr_app c n s rest :
  c ∉ s -> (length s < n)%nat -> memchr c n (s ++ c :: rest) = Some (Some (c :: rest)).
Proof.
  revert n. induction s as [|d s IH]; intros n Hs Hn; (destruct n as [|n]; [simpl in Hn; lia|]); simpl.
  - by rewrite Z.eqb_refl.
  - apply not_elem_of_cons in Hs as [Hd Hs]. destruct (Z.eqb_spec d c); [congruence|].
    apply IH; [done | simpl in Hn; lia].
Qed.

(** A quoted name that the short search can pass. *)
Definition name (s : list Z) : Prop := (chr_quote ∉ s) /\ (length s < kShortSearchLen)%nat.

Lemma skip_to_app s rest :
  name s -> skip_to (s ++ chr_quote :: rest) chr_quote = Some (chr_quote :: rest).
Proof. intros [H1 H2]. unfold skip_to. by rewrite memchr_app. Qed.

Lemma assign_app s rest : assign (s ++ rest) rest = s.
Proof.
  unfold assign. rewrite length_app, Nat.add_sub. apply take_app_length.
Qed.

Lemma skip_digits_app d rest : digits d -> ends_number rest -> skip_digits (d ++ rest) = Some rest.
Proof.
  intros Hd (c & r & -> & Hc). induction Hd as [|x d Hx Hd IH]; simpl; [by rewrite Hc|].
  by rewrite is_digit_true.
Qed.

Lemma uint_loop_app d rest v :
  digits d -> ends_number rest -> 0 <= v ->
  fold_left (fun val c => val * 10 + (c - chr_0)) d v < two64 ->
  uint_loop v (d ++ rest) = Some (fold_left (fun val c => val * 10 + (c - chr_0)) d v, rest).
Proof.
  intros Hd (c & r & -> & Hc). revert v.
  induction Hd as [|x d Hx Hd IH]; intros v Hv Hlt; simpl; [by rewrite Hc|].
  rewrite is_digit_true by done. simpl in Hlt.
  pose proof (fold_digits_ge d (v * 10 + (x - chr_0)) Hd).
  unfold chr_0, chr_9 in *. rewrite u64_small by (unfold in_u64; lia). apply IH; lia || done.
Qed.

Lemma parse_uint_app d rest :
  digits d -> ends_number rest -> digits_value d < two64 ->
  parse_uint_inline (d ++ rest) = Some (digits_value d, rest).
Proof. intros. by apply uint_loop_app. Qed.

(** ** Decimals *)

Definition decimal_text (t : list Z) : Prop :=
  Forall (fun c => chr_0 <= c <= chr_9 \/ c = chr_dot) t.

(** All the digits of a text read as one integer. *)
Definition all_digits (t : list Z) : Z := dc_mantissa (fold_left decimal_step t (mkDecimal 0 0 false)).

Lemma to_double_small z : z < 2 ^ 53 -> to_double z = z.
Proof. intros H. unfold to_double. by rewrite (proj2 (Z.ltb_lt _ _)). Qed.

Lemma decimal_fold_ge t d :
  decimal_text t -> 0 <= dc_mantissa d -> dc_mantissa d <= dc_mantissa (fold_left decimal_step t d).
Proof.
  intros Ht. revert d. induction Ht as [|c t Hc Ht IH]; intros d Hd; simpl; [lia|].
  assert (dc_mantissa d <= dc_mantissa (decimal_step d c)).
  { unfold decimal_step, kDecimalBase. repeat case_match; simpl; zprop; unfold chr_0 in *; lia. }
  etransitivity; [done|]. apply IH. lia.
Qed.

Lemma fixed_loop_app t d rest :
  decimal_text t -> 0 <= dc_mantissa d ->
  dc_mantissa (fold_left decimal_step t d) < 2 ^ 53 ->
  fixed_loop (dc_mantissa d) (dc_frac_digits d) (dc_in_frac d) (t ++ chr_quote :: rest) =
  let d' := fold_left decimal_step t d in
  Some (dc_mantissa d', dc_frac_digits d', chr_quote :: rest).
Proof.
  intros Ht. revert d. induction Ht as [|c t Hc Ht IH]; intros d Hd Hlt; simpl; [done|].
  simpl in Hlt. pose proof (decimal_fold_ge t (decimal_step d c) Ht) as Hge.
  destruct Hc as [Hc| ->].
  - rewrite is_digit_true by done. unfold push_digit.
    assert (E : decimal_step d c = mkDecimal (dc_mantissa d * 10 + (c - chr_0))
      (if dc_in_frac d then dc_frac_digits d + 1 else dc_frac_digits d) (dc_in_frac d)).
    { unfold decimal_step. rewrite (proj2 (Z.leb_le _ _)), (proj2 (Z.leb_le c _)) by lia. done. }
    rewrite E in *. simpl in *. unfold chr_0, chr_9 in *. specialize (Hge ltac:(lia)).
    rewrite (to_double_small (dc_mantissa d)), (to_double_small (_ * 10)), to_double_small by lia.
    rewrite (proj2 (Z.ltb_lt _ _)) by (unfold two63; lia). simpl.
    refine (IH (mkDecimal (dc_mantissa d * 10 + (c - 48)) _ _) _ Hlt). simpl. lia.
  - simpl. apply (IH (mkDecimal (dc_mantissa d) (dc_frac_digits d) true)); done.
Qed.

Lemma decimal_frac t :
  dc_frac_digits (fold_left decimal_step t (mkDecimal 0 0 false)) = Z.of_nat (fraction_digits t).
Proof. by destruct (agree_parsed t) as (_ & ? & _). Qed.

(** The result of the parser on every text of digits and points that its
    table covers. *)
Lemma parse_fixed_value scale t rest :
  decimal_text t -> all_digits t < 2 ^ 53 -> (fraction_digits t <= 10)%nat ->
  parse_fixed_inline scale (t ++ chr_quote :: rest) =
  Some (all_digits t * Z.quot scale (pow10 (fraction_digits t)), rest).
Proof.
  intros Ht Hm Hf. unfold parse_fixed_inline.
  rewrite (fixed_loop_app t (mkDecimal 0 0 false)) by (done || simpl; lia). cbn -[advance].
  rewrite decimal_frac, power_of_10_spec. case_decide; [|lia].
  change (advance 1 (chr_quote :: rest)) with (advance 1 ([chr_quote] ++ rest)).
  rewrite advance_app by done. cbn -[pow10]. fold (all_digits t).
  destruct (Z.eqb_spec (Z.of_nat (fraction_digits t)) 0) as [E|E]; [|done].
  assert (fraction_digits t = 0%nat) as -> by lia. simpl. by rewrite Z.quot_1_r.
Qed.

Lemma decimal_text_positive n t :
  decimal_text t -> Z.abs (string_to_fixed (pow10 n) t) = string_to_fixed (pow10 n) t.
Proof.
  intros Ht. assert (Hneg : forall st, negative (fold_left parse_step t st) = negative st).
  { induction Ht as [|c t Hc _ IH]; intros st; [done|]. simpl. rewrite IH.
    unfold parse_step. destruct (Z.eqb_spec c chr_minus) as [->|].
    - unfold chr_minus, chr_0, chr_9, chr_dot in Hc. lia.
    - by repeat case_match. }
  destruct (agree_parsed t) as (_ & _ & _ & _ & Hi & Hp). unfold string_to_fixed.
  rewrite Hneg. fold (parsed t). simpl. pose proof (pow10_pos n).
  pose proof (pow10_pos (frac_digits (parsed t))).
  assert (0 <= Z.quot (frac_part (parsed t) * pow10 n) (pow10 (frac_digits (parsed t))))
    by (apply Z.quot_pos; nia). nia.
Qed.

(** A decimal that fits the scale [10^n]. *)
Definition decimal (n : nat) (t : list Z) : Prop :=
  decimal_text t /\ (fraction_digits t <= Nat.min n 10)%nat /\ all_digits t < 2 ^ 53.

Lemma quoted_decimal n t :
  decimal n t -> parse_quoted_decimal_to_int (pow10 n) t = Some (string_to_fixed (pow10 n) t).
Proof.
  intros (Ht & Hf & Hm). rewrite quoted_parser_spec, decimal_text_positive by done.
  case_decide; [done | lia].
Qed.

Lemma pow10_le a b : (a <= b)%nat -> pow10 a <= pow10 b.
Proof.
  intros H. replace b with (a + (b - a))%nat by lia. rewrite pow10_add.
  pose proof (pow10_pos a). pose proof (pow10_pos (b - a)). nia.
Qed.

Lemma parse_fixed_app n t rest :
  decimal n t ->
  parse_fixed_inline (pow10 n) (t ++ chr_quote :: rest) = Some (string_to_fixed (pow10 n) t, rest).
Proof.
  intros (Ht & Hf & Hm). pose proof (quoted_decimal n t (conj Ht (conj Hf Hm))) as Hq.
  rewrite parse_fixed_value by (done || lia). unfold parse_quoted_decimal_to_int in Hq.
  fold (all_digits t) in Hq. rewrite decimal_frac, power_of_10_spec in Hq.
  destruct (Z.eqb_spec (Z.of_nat (fraction_digits t)) 0) as [E|E].
  - assert (fraction_digits t = 0%nat) as -> by lia. simpl. rewrite Z.quot_1_r. congruence.
  - case_decide; [|lia]. simpl in Hq.
    rewrite (proj2 (Z.leb_le _ _)) in Hq by (apply pow10_le; lia). congruence.
Qed.

(** Decidable facts on concrete texts. *)
Ltac decided := apply (bool_decide_unpack _); vm_compute; exact I.

(** The three parsers of decimals agree: on a text of digits and points
    with at most ten fraction digits and no more than the scale has, and with
    less than 2^53 as its digits, the one-pass parser and the parser of quoted
    decimals both give what [string_to_fixed] gives, and the one-pass parser
    stops behind the closing quote. *)
Theorem decimal_parsers_agree n t rest :
  decimal n t ->
  parse_fixed_inline (pow10 n) (t ++ chr_quote :: rest) = Some (string_to_fixed (pow10 n) t, rest) /\
  parse_quoted_decimal_to_int (pow10 n) t = Some (string_to_fixed (pow10 n) t).
Proof. intros H. split; [by apply parse_fixed_app | by apply quoted_decimal]. Qed.

Lemma decimal_parsers_agree_witness :
  parse_fixed_inline (pow10 2) (json "98234.1','q'") = Some (9823410, json ",'q'") /\
  parse_quoted_decimal_to_int (pow10 2) (json "98234.1") = Some 9823410.
Proof.
  apply (decimal_parsers_agree 2 (json "98234.1") (json ",'q'")).
  split; [unfold decimal_text; decided | split; [vm_compute; lia | done]].
Defined.

(** A decimal with more fraction digits than the scale is read as zero by
    the one-pass parser, whatever its value, where the parser of quoted
    decimals truncates it.  With the price scale 10 of [BTCUSDCConfig] and the
    two fraction digits of the exchange every price is zero. *)
Theorem extra_fraction_digits_zero n t rest :
  decimal_text t -> all_digits t < 2 ^ 53 -> (n < fraction_digits t <= 10)%nat ->
  parse_fixed_inline (pow10 n) (t ++ chr_quote :: rest) = Some (0, rest) /\
  parse_quoted_decimal_to_int (pow10 n) t = Some (string_to_fixed (pow10 n) t).
Proof.
  intros Ht Hm Hf. split.
  - rewrite parse_fixed_value by (done || lia). rewrite Z.quot_small; [f_equal; f_equal; lia|].
    pose proof (pow10_pos n). pose proof (pow10_le (S n) (fraction_digits t) ltac:(lia)) as Hle.
    simpl in Hle. unfold kDecimalBase in Hle. lia.
  - rewrite quoted_parser_spec, decimal_text_positive by done. case_decide; [done | lia].
Qed.

Lemma extra_fraction_digits_zero_witness :
  parse_fixed_inline (kPriceScale BTCUSDCConfig) (json "90558.30',") = Some (0, json ",") /\
  parse_quoted_decimal_to_int (kPriceScale BTCUSDCConfig) (json "90558.30") = Some 905583.
Proof.
  apply (extra_fraction_digits_zero 1 (json "90558.30") (json ",")); [unfold decimal_text; decided | done | vm_compute; lia].
Defined.

(** ** Rendered messages

    The documented formats, with the texts of their fields. *)

Record RawDepth := mkRawDepth {
  rd_stream : list Z; rd_event : list Z; rd_E : list Z; rd_T : list Z; rd_s : list Z;
  rd_U : list Z; rd_u : list Z; rd_pu : list Z;
  rd_b : list (list Z * list Z); rd_a : list (list Z * list Z);
}.

Definition render_header (stream event : list Z) (rest : list Z) : list Z :=
  json "{'stream':'" ++ stream ++ json "','data':{'e':'" ++ event ++ rest.

Definition render_depth (r : RawDepth) : list Z :=
  render_header (rd_stream r) (rd_event r) (json "','E':" ++ rd_E r ++ json ",'T':" ++ rd_T r
  ++ json ",'s':'" ++ rd_s r ++ json "','U':" ++ rd_U r ++ json ",'u':" ++ rd_u r
  ++ json ",'pu':" ++ rd_pu r ++ json ",'b':[" ++ render_entries true (rd_b r)
  ++ json "],'a':[" ++ render_entries true (rd_a r) ++ json "]}}").

Record RawTrade := mkRawTrade {
  rt_stream : list Z; rt_event : list Z; rt_E : list Z; rt_a : list Z; rt_s : list Z;
  rt_p : list Z; rt_q : list Z; rt_f : list Z; rt_l : list Z; rt_T : list Z; rt_m : bool;
}.

Definition render_bool (b : bool) : list Z := json (if b then "true" else "false").

Definition render_trade (r : RawTrade) : list Z :=
  render_header (rt_stream r) (rt_event r) (json "','E':" ++ rt_E r ++ json ",'a':" ++ rt_a r
  ++ json ",'s':'" ++ rt_s r ++ json "','p':'" ++ rt_p r ++ chr_quote :: json ",'q':'" ++ rt_q r
  ++ chr_quote :: json ",'f':" ++ rt_f r ++ json ",'l':" ++ rt_l r ++ json ",'T':" ++ rt_T r
  ++ json ",'m':" ++ render_bool (rt_m r) ++ json "}}").

Record RawTicker := mkRawTicker {
  rk_stream : list Z; rk_event : list Z; rk_u : list Z; rk_s : list Z;
  rk_b : list Z; rk_B : list Z; rk_a : list Z; rk_A : list Z; rk_tail : list Z;
}.

(** The tail is what the decoder does not look at: the times. *)
Definition render_ticker (r : RawTicker) : list Z :=
  render_header (rk_stream r) (rk_event r) (json "','u':" ++ rk_u r ++ json ",'s':'" ++ rk_s r
  ++ json "','b':'" ++ rk_b r ++ chr_quote :: json ",'B':'" ++ rk_B r
  ++ chr_quote :: json ",'a':'" ++ rk_a r ++ chr_quote :: json ",'A':'" ++ rk_A r
  ++ chr_quote :: rk_tail r).

Record RawSnapshot := mkRawSnapshot {
  rs_id : list Z; rs_status : list Z; rs_lastUpdateId : list Z; rs_E : list Z; rs_T : list Z;
  rs_bids : list (list Z * list Z); rs_asks : list (list Z * list Z);
}.

Definition render_snapshot (r : RawSnapshot) : list Z :=
  json "{'id':'" ++ rs_id r ++ json "','status':" ++ rs_status r
  ++ json ",'result':{'lastUpdateId':" ++ rs_lastUpdateId r ++ json ",'E':" ++ rs_E r
  ++ json ",'T':" ++ rs_T r ++ json ",'bids':[" ++ render_entries true (rs_bids r)
  ++ json "],'asks':[" ++ render_entries true (rs_asks r) ++ json "]}}".

Section RoundTrip.
Variables n m : nat.
Context {Api Info : Type}.
Variable read_api : list Z -> option Api.
Variable read_info : list Z -> option Info.

Abbreviation price_of := (string_to_fixed (pow10 n)).
Abbreviation qty_of := (string_to_fixed (pow10 m)).
Abbreviation decode_ := (decode (pow10 n) (pow10 m) read_api read_info).
Abbreviation Wire := (WireMessage Api Info).

Definition level_of (text : list Z * list Z) : Z * Z := (price_of text.1, qty_of text.2).
Definition level_ok (text : list Z * list Z) : Prop := decimal n text.1 /\ decimal m text.2.
Definition id_ok (d : list Z) : Prop := digits d /\ digits_value d < two64.

(** A stream name: the symbol, [@] and the type with its first letter. *)
Definition stream_ok (letter : Z) (stream : list Z) : Prop :=
  name stream /\ exists c sym rest, stream = c :: sym ++ 64 :: letter :: rest /\ (64 ∉ sym).

Definition depth_ok (r : RawDepth) : Prop :=
  stream_ok 100 (rd_stream r) /\ name (rd_event r) /\ name (rd_s r) /\
  digits (rd_E r) /\ digits (rd_T r) /\ id_ok (rd_U r) /\ id_ok (rd_u r) /\ id_ok (rd_pu r) /\
  Forall level_ok (rd_b r) /\ Forall level_ok (rd_a r).
Definition depth_of (r : RawDepth) : DepthData :=
  mkDepthData (rd_s r) (digits_value (rd_U r)) (digits_value (rd_u r)) (digits_value (rd_pu r))
    (map level_of (rd_b r)) (map level_of (rd_a r)).

Definition trade_ok (r : RawTrade) : Prop :=
  stream_ok 97 (rt_stream r) /\ name (rt_event r) /\ name (rt_s r) /\
  digits (rt_E r) /\ digits (rt_a r) /\ decimal n (rt_p r) /\ decimal m (rt_q r) /\
  digits (rt_f r) /\ digits (rt_l r) /\ digits (rt_T r).
Definition trade_of (r : RawTrade) : AggregateTrade :=
  mkAggregateTrade (rt_s r) (price_of (rt_p r)) (qty_of (rt_q r)) (rt_m r).

Definition ticker_ok (r : RawTicker) : Prop :=
  stream_ok 98 (rk_stream r) /\ name (rk_event r) /\ name (rk_s r) /\ id_ok (rk_u r) /\
  decimal n (rk_b r) /\ decimal m (rk_B r) /\ decimal n (rk_a r) /\ decimal m (rk_A r).
Definition ticker_of (r : RawTicker) : BookTickerData :=
  mkBookTicker (digits_value (rk_u r)) (rk_s r) (price_of (rk_b r)) (qty_of (rk_B r))
    (price_of (rk_a r)) (qty_of (rk_A r)).

Definition snapshot_ok (r : RawSnapshot) : Prop :=
  name (rs_id r) /\ digits (rs_status r) /\ id_ok (rs_lastUpdateId r) /\
  digits (rs_E r) /\ digits (rs_T r) /\ Forall level_ok (rs_bids r) /\ Forall level_ok (rs_asks r).
Definition snapshot_of (r : RawSnapshot) : DepthSnapshot :=
  mkSnapshot (rs_id r) (digits_value (rs_lastUpdateId r))
    (map level_of (rs_bids r)) (map level_of (rs_asks r)).

(** *** One lemma per field, on what the renderers produce *)

Lemma skip_to_pat s pat rest :
  name s -> head pat = Some chr_quote -> skip_to (s ++ pat ++ rest) chr_quote = Some (pat ++ rest).
Proof. intros Hs Hp. destruct pat as [|c pat]; [done|]. injection Hp as ->. by apply skip_to_app. Qed.

Lemma assign_pat s pat rest : assign (s ++ pat ++ rest) (pat ++ rest) = s.
Proof. apply assign_app. Qed.

Lemma ends_number_pat pat rest :
  match head pat with Some c => negb (is_digit c) | None => false end = true ->
  ends_number (pat ++ rest).
Proof.
  destruct pat as [|c pat]; [done|]. simpl. intros H. exists c, (pat ++ rest). split; [done|].
  by destruct (is_digit c).
Qed.

Lemma skip_digits_pat d pat rest :
  digits d -> match head pat with Some c => negb (is_digit c) | None => false end = true ->
  skip_digits (d ++ pat ++ rest) = Some (pat ++ rest).
Proof. intros Hd Hp. by apply skip_digits_app, ends_number_pat. Qed.

Lemma skip_no_digits pat rest :
  match head pat with Some c => negb (is_digit c) | None => false end = true ->
  skip_digits (pat ++ rest) = Some (pat ++ rest).
Proof. intros Hp. apply (skip_digits_app [] (pat ++ rest)); [constructor | by apply ends_number_pat]. Qed.

Lemma parse_uint_pat d pat rest :
  id_ok d -> match head pat with Some c => negb (is_digit c) | None => false end = true ->
  parse_uint_inline (d ++ pat ++ rest) = Some (digits_value d, pat ++ rest).
Proof. intros [Hd Hv] Hp. by apply parse_uint_app, Hv; [|apply ends_number_pat]. Qed.

Lemma level_round fuel levels text next rest :
  level_ok text ->
  level_loop (pow10 n) (pow10 m) (S fuel) levels (render_entry text ++ next :: rest) =
  level_loop (pow10 n) (pow10 m) fuel (levels ++ [level_of text])
    (if next =? chr_comma then rest else next :: rest).
Proof.
  intros [Hp Hq]. unfold render_entry. rewrite <-!app_assoc. cbn [level_loop].
  cbn -[advance parse_fixed_inline level_loop pow10 kPriceQtyEntry].
  change (advance kPriceQtyEntry (chr_open :: chr_quote :: ?x)) with
    (advance kPriceQtyEntry ([chr_open; chr_quote] ++ x)).
  rewrite advance_app by done. cbn -[advance parse_fixed_inline level_loop pow10 kPriceQtyEntry].
  rewrite parse_fixed_app by done. cbn -[advance parse_fixed_inline level_loop pow10 kPriceQtyEntry].
  change (advance kPriceQtyEntry (chr_comma :: chr_quote :: ?x)) with
    (advance kPriceQtyEntry ([chr_comma; chr_quote] ++ x)).
  rewrite advance_app by done. cbn -[advance parse_fixed_inline level_loop pow10 kPriceQtyEntry].
  rewrite parse_fixed_app by done. cbn -[advance level_loop pow10 kPriceQtyEntry].
  change (advance 1 (chr_close :: ?x)) with (advance 1 ([chr_close] ++ x)).
  rewrite advance_app by done. by cbn -[advance level_loop pow10 kPriceQtyEntry].
Qed.

Lemma level_loop_render texts rest fuel levels :
  Forall level_ok texts -> (length (render_entries true texts) < fuel)%nat ->
  level_loop (pow10 n) (pow10 m) fuel levels (render_entries true texts ++ chr_close :: rest) =
  Some (levels ++ map level_of texts, chr_close :: rest).
Proof.
  intros Ht. revert fuel levels. induction Ht as [|t texts Ht Hts IH]; intros fuel levels Hf.
  - destruct fuel; [simpl in Hf; lia|]. simpl. by rewrite app_nil_r.
  - cbn [render_entries app] in *. rewrite <-app_assoc. rewrite length_app in Hf.
    destruct fuel as [|fuel]; [lia|].
    assert (0 < length (render_entry t))%nat by (unfold render_entry; rewrite length_app; simpl; lia).
    assert (Hl : (levels ++ [level_of t]) ++ map level_of texts = levels ++ map level_of (t :: texts))
      by (by rewrite <-app_assoc).
    destruct texts as [|t' texts].
    + cbn [render_entries app]. rewrite level_round by done.
      pose proof (IH fuel (levels ++ [level_of t])) as IH'. rewrite Hl in IH'. apply IH'. simpl. lia.
    + change (render_entries false (t' :: texts)) with (chr_comma :: render_entries true (t' :: texts)) in *.
      cbn [app]. rewrite level_round by done.
      pose proof (IH fuel (levels ++ [level_of t])) as IH'. rewrite Hl in IH'. apply IH'.
      cbn [length] in Hf. lia.
Qed.

Lemma parse_levels_pat texts pat rest :
  Forall level_ok texts -> head pat = Some chr_close ->
  parse_levels (pow10 n) (pow10 m) (render_entries true texts ++ pat ++ rest) =
  Some (map level_of texts, pat ++ rest).
Proof.
  intros Ht Hp. destruct pat as [|c pat]; [done|]. injection Hp as ->.
  apply (level_loop_render texts (pat ++ rest) _ []); [done|]. rewrite length_app. lia.
Qed.

Lemma render_header_skip stream event pat rest :
  name stream -> name event -> head pat = Some chr_quote ->
  skip_header (render_header stream event (pat ++ rest)) = Some (pat ++ rest).
Proof.
  intros Hs He Hp. unfold skip_header, render_header. rewrite advance_app by reflexivity.
  cbn [mbind option_bind]. rewrite skip_to_pat by done. cbn [mbind option_bind].
  rewrite advance_app by reflexivity. cbn [mbind option_bind]. by apply skip_to_pat.
Qed.

(** Scans the next field of a rendered message. *)
Ltac scan_field :=
  first [ rewrite render_header_skip by done
        | rewrite advance_app by reflexivity
        | rewrite skip_to_pat by done
        | rewrite skip_digits_pat by done
        | rewrite parse_uint_pat by done
        | rewrite parse_fixed_app by done
        | rewrite parse_levels_pat by done ];
  cbn [mbind option_bind]; rewrite ?assign_pat.

Lemma decode_depth_render r :
  depth_ok r -> decode_depth (pow10 n) (pow10 m) (render_depth r) = Some (Depth (depth_of r) : Wire).
Proof.
  intros ([Hs _] & He & Hn & HE & HT & HU & Hu & Hpu & Hb & Ha).
  unfold decode_depth, render_depth. repeat scan_field.
  rewrite <-(app_nil_r (json "]}}")). by repeat scan_field.
Qed.

Lemma decode_trade_render r :
  trade_ok r -> decode_trade (pow10 n) (pow10 m) (render_trade r) = Some (TradeEvent (trade_of r) : Wire).
Proof.
  intros ([Hs _] & He & Hn & HE & HT & Hp & Hq & Hf & Hl & Ht).
  unfold decode_trade, render_trade. repeat scan_field. unfold trade_of. by destruct (rt_m r).
Qed.

Lemma decode_ticker_render r :
  ticker_ok r ->
  decode_book_ticker (pow10 n) (pow10 m) (render_ticker r) = Some (BookTicker (ticker_of r) : Wire).
Proof.
  intros ([Hs _] & He & Hn & Hu & Hb & HB & Ha & HA).
  unfold decode_book_ticker, render_ticker. by repeat scan_field.
Qed.

Lemma decode_snapshot_render r :
  snapshot_ok r ->
  decode_snapshot (pow10 n) (pow10 m) (render_snapshot r) = Some (Snapshot (snapshot_of r) : Wire).
Proof.
  intros (Hi & Hs & Hl & HE & HT & Hb & Ha). unfold decode_snapshot, render_snapshot.
  repeat scan_field. rewrite <-(app_nil_r (json "]}}")). by repeat scan_field.
Qed.

(** The dispatch on the stream name. *)
Lemma decode_stream letter stream event rest :
  stream_ok letter stream ->
  let payload := render_header stream event rest in
  decode_ payload =
  if letter =? 100 then decode_depth (pow10 n) (pow10 m) payload
  else if letter =? 97 then decode_trade (pow10 n) (pow10 m) payload
  else if letter =? 98 then decode_book_ticker (pow10 n) (pow10 m) payload
  else Some (decode_api read_api payload).
Proof.
  intros [_ (c & sym & tail & -> & Hsym)] payload.
  assert (exists more, payload = (json "{'stream':'" ++ [c]) ++ sym ++ 64 :: letter :: more) as [more Hp].
  { exists (tail ++ json "','data':{'e':'" ++ event ++ rest). unfold payload, render_header.
    rewrite <-app_assoc. cbn [app]. rewrite <-app_assoc. reflexivity. }
  clearbody payload. subst payload. set (payload := _ ++ _).
  assert (Hlen : length payload = (12 + (length sym + S (S (length more))))%nat)
    by (unfold payload; rewrite !length_app; done).
  assert (Hadv : advance kAtSearchStart payload = Some (sym ++ 64 :: letter :: more))
    by (by apply advance_app).
  unfold decode. rewrite (proj2 (Nat.ltb_ge _ _)) by (rewrite Hlen; vm_compute; lia).
  change (payload !! kFirstCharOffset) with (Some 115). cbn [mbind option_bind].
  rewrite Z.eqb_refl, Hadv. cbn [mbind option_bind].
  rewrite memchr_app; [| done | rewrite Hlen; change kAtSearchStart with 12%nat; lia].
  done.
Qed.

Lemma decode_depth_message r : depth_ok r -> decode_ (render_depth r) = Some (Depth (depth_of r)).
Proof.
  intros Hr. unfold render_depth. rewrite (decode_stream 100) by apply Hr. by apply decode_depth_render.
Qed.

Lemma decode_trade_message r : trade_ok r -> decode_ (render_trade r) = Some (TradeEvent (trade_of r)).
Proof.
  intros Hr. unfold render_trade. rewrite (decode_stream 97) by apply Hr. by apply decode_trade_render.
Qed.

Lemma decode_ticker_message r : ticker_ok r -> decode_ (render_ticker r) = Some (BookTicker (ticker_of r)).
Proof.
  intros Hr. unfold render_ticker. rewrite (decode_stream 98) by apply Hr. by apply decode_ticker_render.
Qed.

Lemma decode_snapshot_message r :
  snapshot_ok r -> decode_ (render_snapshot r) = Some (Snapshot (snapshot_of r)).
Proof.
  intros Hr. rewrite <-decode_snapshot_render by done. unfold decode.
  by rewrite (proj2 (Nat.ltb_ge _ _)) by (unfold render_snapshot; rewrite !length_app;
    change (length (json "{'id':'")) with 7%nat; change (length (json "','status':")) with 11%nat;
    change kMinPayloadLen with 8%nat; lia).
Qed.

(** C23: a message rendered in one of the documented formats is decoded to
    exactly its fields, whatever its length: names without quotes that are
    shorter than the short search, update ids below 2^64, and prices and
    quantities as [string_to_fixed] reads them. *)
Theorem decode_rendered :
  (forall r, depth_ok r -> decode_ (render_depth r) = Some (Depth (depth_of r))) /\
  (forall r, trade_ok r -> decode_ (render_trade r) = Some (TradeEvent (trade_of r))) /\
  (forall r, ticker_ok r -> decode_ (render_ticker r) = Some (BookTicker (ticker_of r))) /\
  (forall r, snapshot_ok r -> decode_ (render_snapshot r) = Some (Snapshot (snapshot_of r))).
Proof.
  auto using decode_depth_message, decode_trade_message, decode_ticker_message, decode_snapshot_message.
Qed.

(** *** Trades with a notional quantity

    [schema/futures/response/trade.h] has the field [nq] between [q] and [f],
    added to the stream on 2025-12-31. *)
Definition render_trade_nq (r : RawTrade) (nq : list Z) : list Z :=
  render_header (rt_stream r) (rt_event r) (json "','E':" ++ rt_E r ++ json ",'a':" ++ rt_a r
  ++ json ",'s':'" ++ rt_s r ++ json "','p':'" ++ rt_p r ++ chr_quote :: json ",'q':'" ++ rt_q r
  ++ chr_quote :: json ",'nq':'" ++ nq ++ json "','f':" ++ rt_f r ++ json ",'l':" ++ rt_l r
  ++ json ",'T':" ++ rt_T r ++ json ",'m':" ++ render_bool (rt_m r) ++ json "}}").

(** When the trade message carries the notional quantity, with its
    fraction starting within three characters, the fixed offsets run into the
    wrong fields and the decoded trade is never marked as one of a buying
    maker: every such trade is taken for a purchase by the aggressor. *)
Theorem notional_field_loses_maker_flag r x d f4 c rest :
  trade_ok r -> length x = 3%nat -> digits d ->
  rt_f r = f4 ++ c :: rest -> length f4 = 4%nat ->
  decode_ (render_trade_nq r (x ++ d)) =
  Some (TradeEvent (mkAggregateTrade (rt_s r) (price_of (rt_p r)) (qty_of (rt_q r)) false)).
Proof.
  intros (Hst & He & Hn & HE & HT & Hp & Hq & Hf & Hl & Ht) Hx Hd Efr Hf4.
  unfold render_trade_nq. rewrite (decode_stream 97) by done. destruct Hst as [Hs _].
  change (97 =? 100) with false. change (97 =? 97) with true. cbn iota.
  unfold decode_trade. repeat scan_field.
  change (json ",'nq':'") with (json ",'nq'" ++ json ":'"). rewrite <-!app_assoc. scan_field.
  rewrite skip_no_digits by done. cbn [mbind option_bind].
  rewrite (app_assoc (json ":'")), advance_app by (by rewrite length_app, Hx).
  cbn [mbind option_bind]. scan_field.
  change (json "','f':") with (json "','f'" ++ json ":"). rewrite <-!app_assoc. scan_field.
  rewrite skip_no_digits by done. cbn [mbind option_bind]. rewrite Efr, <-app_assoc.
  rewrite (app_assoc (json ":")), advance_app by (by rewrite length_app, Hf4).
  cbn [mbind option_bind app head]. rewrite Efr in Hf. apply Forall_app in Hf as [_ Hf].
  inversion_clear Hf as [|? ? Hc _]. unfold chr_0, chr_9 in Hc.
  by rewrite (proj2 (Z.eqb_neq c 116)) by lia.
Qed.

End RoundTrip.

(** Two levels of a depth message through the decoder. *)
Definition sample_depth : RawDepth :=
  mkRawDepth (json "xrpusdc@depth") (json "depthUpdate") (json "1700000000123") (json "1700000000120")
    (json "XRPUSDC") (json "1000") (json "1005") (json "999")
    [(json "2.1345", json "17.5"); (json "2.1344", json "0")] [(json "2.1350", json "3.25")].

Lemma decode_rendered_witness :
  decode 1000000 1000 (fun _ => None (A := unit)) (fun _ => None (A := unit)) (render_depth sample_depth) =
  Some (Depth (mkDepthData (json "XRPUSDC") 1000 1005 999
    [(2134500, 17500); (2134400, 0)] [(2135000, 3250)])).
Proof.
  apply (proj1 (decode_rendered 6 3 (fun _ => None (A := unit)) (fun _ => None (A := unit)))).
  unfold depth_ok, stream_ok, name, digits, id_ok, level_ok, decimal, decimal_text.
  split_and!; try decided.
  exists 120, (json "rpusdc"), (json "epth"). split; [done | decided].
Defined.

Definition sample_trade : RawTrade :=
  mkRawTrade (json "xrpusdc@aggTrade") (json "aggTrade") (json "1767225600123") (json "812345")
    (json "XRPUSDC") (json "2.1345") (json "17.5") (json "9123456") (json "9123457")
    (json "1767225600120") true.

Lemma notional_field_loses_maker_flag_witness :
  rt_m sample_trade = true /\
  decode 1000000 1000 (fun _ => None (A := unit)) (fun _ => None (A := unit))
    (render_trade_nq sample_trade (json "37.35")) =
  Some (TradeEvent (mkAggregateTrade (json "XRPUSDC") 2134500 17500 false)).
Proof.
  split; [done|].
  apply (notional_field_loses_maker_flag 6 3 (fun _ => None (A := unit)) (fun _ => None (A := unit))
    sample_trade (json "37.") (json "35") (json "9123") 52 (json "56")); try done.
  - unfold trade_ok, stream_ok, name, digits, decimal, decimal_text.
    split_and!; try decided.
    exists 120, (json "rpusdc"), (json "ggTrade"). split; [done | decided].
  - unfold digits. decided.
Defined.

End Onepass.
