(* ===== verification/JsonDecoder.v ===== *)
(** * The JSON decoder of futures market data
      (src/hft/core/websocket/market_data/json_binance_futures_md_decoder.hpp)

    The decoder that leaves the fields to the JSON library and only chooses the
    type to read.  The readers of the library are parameters; the readers of the
    one-pass decoder are those of [OnepassDecoder].

    The theorems: where the one-pass decoder decodes a message, the JSON decoder
    gives the same one if the library reads the same fields; the search for the
    kind of a stream starts too late for symbols of less than four letters. *)

From S2P Require Import Prelude Types FixedPoint Text LevelParser OnepassDecoder.

Module JsonDecoder.
Import Text Onepass.

Section Decoder.
Context {Api Info : Type}.
(** [glz::read_json<T>(payload)]: [None] is an error. *)
Variable read_depth : list Z -> option DepthData.
Variable read_trade : list Z -> option AggregateTrade.
Variable read_book_ticker : list Z -> option BookTickerData.
Variable read_snapshot : list Z -> option DepthSnapshot.
Variable read_api : list Z -> option Api.
Variable read_info : list Z -> option Info.

Definition kMinimumPayloadLen : nat := 10.
Definition kPositionStart : nat := 15.

(** [decode_or_log]: an error gives the empty message. *)
Definition decode_or_log {T} (message : T -> WireMessage Api Info) (parsed : option T) : WireMessage Api Info :=
  match parsed with Some data => message data | None => Monostate end.

(** [find('@')]: the text from the character on. *)
Fixpoint find_chr (chr : Z) (l : list Z) : option (list Z) :=
  match l with
  | [] => None
  | c :: rest => if c =? chr then Some l else find_chr chr rest
  end.

(** [None]: the character behind the last one is read. *)
Definition json_decode (payload : list Z) : option (WireMessage Api Info) :=
  if (length payload <? kMinimumPayloadLen)%nat then Some Monostate
  else
    let api := decode_or_log ApiResponse (read_api payload) in
    first_chr ← payload !! 2%nat;
    if first_chr =? 115 then
      match find_chr 64 (drop kPositionStart payload) with
      | Some at_pos =>
          stream_type ← at_pos !! 1%nat;
          if stream_type =? 100 then Some (decode_or_log Depth (read_depth payload))
          else if stream_type =? 97 then Some (decode_or_log TradeEvent (read_trade payload))
          else if stream_type =? 98 then Some (decode_or_log BookTicker (read_book_ticker payload))
          else Some api
      | None => Some api
      end
    else if first_chr =? 105 then Some (decode_or_log Snapshot (read_snapshot payload))
    else if first_chr =? 116 then Some (decode_or_log ExchangeInfo (read_info payload))
    else Some api.

(** ** The two decoders *)

Lemma memchr_find c l : memchr c (length l) l = Some (find_chr c l).
Proof. induction l as [|d l IH]; [done|]. simpl. destruct (d =? c); [done | apply IH]. Qed.

Lemma find_chr_app c a b : c ∉ a -> find_chr c (a ++ b) = find_chr c b.
Proof.
  induction a as [|d a IH]; [done|]. intros [Hd Ha]%not_elem_of_cons. simpl.
  destruct (Z.eqb_spec d c); [congruence | by apply IH].
Qed.

Variables PriceScale QtyScale : Z.

(** The library reads the fields that the one-pass decoder reads. *)
Definition same_fields (payload : list Z) : Prop :=
  (forall d, decode_depth PriceScale QtyScale payload = Some (Depth d : WireMessage Api Info) -> read_depth payload = Some d) /\
  (forall d, decode_trade PriceScale QtyScale payload = Some (TradeEvent d : WireMessage Api Info) -> read_trade payload = Some d) /\
  (forall d, decode_book_ticker PriceScale QtyScale payload = Some (BookTicker d : WireMessage Api Info) -> read_book_ticker payload = Some d) /\
  (forall d, decode_snapshot PriceScale QtyScale payload = Some (Snapshot d : WireMessage Api Info) -> read_snapshot payload = Some d).

Lemma decode_depth_kind payload m :
  decode_depth PriceScale QtyScale payload = Some (m : WireMessage Api Info) -> exists d, m = Depth d.
Proof. unfold decode_depth. intros H. repeat (apply bind_Some in H as (? & _ & H); repeat case_match). injection H as <-. by eexists. Qed.
Lemma decode_trade_kind payload m :
  decode_trade PriceScale QtyScale payload = Some (m : WireMessage Api Info) -> exists d, m = TradeEvent d.
Proof. unfold decode_trade. intros H. repeat (apply bind_Some in H as (? & _ & H); repeat case_match). injection H as <-. by eexists. Qed.
Lemma decode_book_ticker_kind payload m :
  decode_book_ticker PriceScale QtyScale payload = Some (m : WireMessage Api Info) -> exists d, m = BookTicker d.
Proof. unfold decode_book_ticker. intros H. repeat (apply bind_Some in H as (? & _ & H); repeat case_match). injection H as <-. by eexists. Qed.
Lemma decode_snapshot_kind payload m :
  decode_snapshot PriceScale QtyScale payload = Some (m : WireMessage Api Info) -> exists d, m = Snapshot d.
Proof. unfold decode_snapshot. intros H. repeat (apply bind_Some in H as (? & _ & H); repeat case_match). injection H as <-. by eexists. Qed.

(** The two decoders of futures market data agree.  Every payload of ten bytes or
    more that the one-pass decoder decodes, with no at sign in the three bytes where
    only it searches, is decoded to the same message by the JSON decoder, provided
    the library reads the fields that the one-pass decoder reads. *)
Theorem decoders_agree payload m :
  same_fields payload -> (kMinimumPayloadLen <= length payload)%nat ->
  64 ∉ take 3 (drop kAtSearchStart payload) ->
  decode PriceScale QtyScale read_api read_info payload = Some m -> json_decode payload = Some m.
Proof.
  intros (H1 & H2 & H3 & H4) Hlen Hat. unfold decode, json_decode.
  rewrite (proj2 (Nat.ltb_ge _ kMinPayloadLen)) by (change kMinPayloadLen with 8%nat; unfold kMinimumPayloadLen in Hlen; lia).
  rewrite (proj2 (Nat.ltb_ge _ kMinimumPayloadLen)) by done. change kFirstCharOffset with 2%nat.
  destruct (payload !! 2%nat) as [first_chr|]; [|done]. cbn [mbind option_bind].
  destruct (first_chr =? 115).
  - unfold advance. destruct (kAtSearchStart <=? length payload)%nat eqn:El; [|done]. cbn [mbind option_bind].
    rewrite <-(length_drop payload kAtSearchStart), memchr_find. cbn [mbind option_bind].
    rewrite <-(take_drop 3 (drop kAtSearchStart payload)), find_chr_app, drop_drop by done.
    change (kAtSearchStart + 3)%nat with kPositionStart.
    destruct (find_chr 64 _) as [at_pos|]; [|done]. change kStreamTypeOffset with 1%nat.
    destruct (at_pos !! 1%nat) as [t|]; [|done]. cbn [mbind option_bind].
    destruct (t =? 100); [intros E; destruct (decode_depth_kind _ _ E) as [d ->]; by rewrite (H1 _ E)|].
    destruct (t =? 97); [intros E; destruct (decode_trade_kind _ _ E) as [d ->]; by rewrite (H2 _ E)|].
    destruct (t =? 98); [intros E; destruct (decode_book_ticker_kind _ _ E) as [d ->]; by rewrite (H3 _ E) | done].
  - destruct (first_chr =? 105); [intros E; destruct (decode_snapshot_kind _ _ E) as [d ->]; by rewrite (H4 _ E)|].
    by destruct (first_chr =? 116).
Qed.

Lemma find_chr_none c l : c ∉ l -> find_chr c l = None.
Proof. intros H. rewrite <-(app_nil_r l), find_chr_app by done. done. Qed.

(** A stream of a symbol with three letters or less is not recognised: its at sign
    comes before the start of the search, and the message is read as an answer of
    the API. *)
Theorem short_symbol_unrouted sym rest :
  (length sym <= 3)%nat -> 64 ∉ rest ->
  let payload := json "{'stream':'" ++ sym ++ 64 :: rest in
  json_decode payload = Some (decode_or_log ApiResponse (read_api payload)).
Proof.
  intros Hs Hr payload. unfold json_decode.
  assert (Hl : length payload = (12 + length sym + length rest)%nat).
  { unfold payload. rewrite !length_app. change (length (json "{'stream':'")) with 11%nat. cbn [length]. lia. }
  rewrite (proj2 (Nat.ltb_ge _ kMinimumPayloadLen)) by (unfold kMinimumPayloadLen; lia).
  change (payload !! 2%nat) with (Some 115). cbn [mbind option_bind Z.eqb Pos.eqb].
  rewrite find_chr_none; [done|]. intros Hin.
  assert (E : drop kPositionStart payload = drop (3 - length sym) rest).
  { unfold payload. rewrite drop_app_ge by (change (length (json "{'stream':'")) with 11%nat; unfold kPositionStart; lia).
    change (length (json "{'stream':'")) with 11%nat. rewrite drop_app_ge by (unfold kPositionStart; lia).
    replace (kPositionStart - 11 - length sym)%nat with (S (3 - length sym)) by (unfold kPositionStart; lia). done. }
  rewrite E in Hin. apply Hr. rewrite <-(take_drop (3 - length sym) rest). apply elem_of_app. by right.
Qed.

End Decoder.

(** The readers of the one-pass decoder as readers of the library. *)
Definition onepass_depth (ps qs : Z) (payload : list Z) : option DepthData :=
  match decode_depth ps qs payload : option (WireMessage unit unit) with Some (Depth d) => Some d | _ => None end.
Definition onepass_trade (ps qs : Z) (payload : list Z) : option AggregateTrade :=
  match decode_trade ps qs payload : option (WireMessage unit unit) with Some (TradeEvent d) => Some d | _ => None end.
Definition onepass_ticker (ps qs : Z) (payload : list Z) : option BookTickerData :=
  match decode_book_ticker ps qs payload : option (WireMessage unit unit) with Some (BookTicker d) => Some d | _ => None end.
Definition onepass_snapshot (ps qs : Z) (payload : list Z) : option DepthSnapshot :=
  match decode_snapshot ps qs payload : option (WireMessage unit unit) with Some (Snapshot d) => Some d | _ => None end.

Lemma decoders_agree_witness :
  json_decode (onepass_depth 1000000 1000) (onepass_trade 1000000 1000) (onepass_ticker 1000000 1000)
    (onepass_snapshot 1000000 1000) (fun _ => None (A := unit)) (fun _ => None (A := unit)) (render_depth sample_depth) =
  decode 1000000 1000 (fun _ => None (A := unit)) (fun _ => None (A := unit)) (render_depth sample_depth).
Proof.
  destruct (decode 1000000 1000 (fun _ => None (A := unit)) (fun _ => None (A := unit)) (render_depth sample_depth)) as [m|] eqn:E;
    [|by vm_compute in E].
  apply (decoders_agree _ _ _ _ _ _ 1000000 1000); [|vm_compute; lia | | exact E].
  - split_and!; intros d Hd.
    + unfold onepass_depth. by rewrite Hd.
    + unfold onepass_trade. by rewrite Hd.
    + unfold onepass_ticker. by rewrite Hd.
    + unfold onepass_snapshot. by rewrite Hd.
  - refine (bool_decide_unpack _ _). vm_compute. exact I.
Defined.

Lemma short_symbol_unrouted_witness :
  json_decode (fun _ => None) (fun _ => None) (fun _ => None) (fun _ => None) (fun _ => Some tt) (fun _ => None (A := unit))
    (json "{'stream':'" ++ codes "abc" ++ 64 :: codes "depth") = Some (ApiResponse tt).
Proof.
  refine (short_symbol_unrouted _ _ _ _ (fun _ => Some tt) _ (codes "abc") (codes "depth") _ _);
    [vm_compute; lia | refine (bool_decide_unpack _ _); vm_compute; exact I].
Defined.

End JsonDecoder.
