(* ===== verification/IniConfig.v ===== *)
(** * Configuration files (src/hft/common/ini_config.hpp)

    [IniConfig]: the reader of INI files, the base file with its profile files,
    and the typed getters.  The file system is a function from paths to
    contents; the order in which an [unordered_map] is walked is a parameter of
    which only its contents are known.  Text is a list of character codes.

    The theorems: what was rendered is read back; a key has the value of the last
    file that sets it, in the order environment, custom profiles by name, symbol,
    strategy, whatever the order of the hash map; the placeholder loop ends and
    replaces exactly the occurrences; integers are read back.  [get_double] and
    [get_float] are not modelled. *)

From S2P Require Import Prelude Types FixedPoint Text.

Module IniConfig.
Import FixedPoint Text.

Definition chr_newline : Z := 10.
Definition chr_hash : Z := 35.
Definition chr_apostrophe : Z := 39.
Definition chr_plus : Z := 43.
Definition chr_comma : Z := 44.
Definition chr_period : Z := 46.
Definition chr_slash : Z := 47.
Definition chr_semicolon : Z := 59.
Definition chr_equals : Z := 61.
Definition chr_open : Z := 91.
Definition chr_close : Z := 93.

(** ** Text *)

(** [std::isspace] in the C locale. *)
Definition isspace (c : Z) : bool := (c =? 32) || ((9 <=? c) && (c <=? 13)).

Fixpoint drop_space (str : list Z) : list Z :=
  match str with
  | c :: rest => if isspace c then drop_space rest else str
  | [] => []
  end.

Definition trim (str : list Z) : list Z := reverse (drop_space (reverse (drop_space str))).

(** The lines of [std::getline]: the last one needs no newline. *)
Fixpoint getlines (content : list Z) : list (list Z) :=
  match content with
  | [] => []
  | c :: rest =>
      if c =? chr_newline then [] :: getlines rest
      else match getlines rest with [] => [[c]] | line :: lines => (c :: line) :: lines end
  end.

(** [line.find('=')], with the text before and behind it. *)
Fixpoint split_equals (line : list Z) : option (list Z * list Z) :=
  match line with
  | [] => None
  | c :: rest =>
      if c =? chr_equals then Some ([], rest)
      else '(key, value) ← split_equals rest; Some (c :: key, value)
  end.

(** ** Reading a file *)

Abbreviation Data := (gmap (list Z) (list Z)).

Definition full_key (section key : list Z) : list Z :=
  match section with [] => key | _ => section ++ [chr_period] ++ key end.

(** The body of the loop over the lines: the section and the data. *)
Definition read_line (st : list Z * Data) (raw : list Z) : list Z * Data :=
  let '(current_section, data) := st in
  let line := trim raw in
  match line with
  | [] => st
  | front :: rest =>
      if (front =? chr_semicolon) || (front =? chr_hash) then st
      else if (front =? chr_open) && bool_decide (last line = Some chr_close) then
        (trim (take (length line - 2) rest), data)
      else match split_equals line with
      | Some (key, value) => (current_section, <[full_key current_section (trim key) := trim value]> data)
      | None => st
      end
  end.

Definition read_content (content : list Z) (data : Data) : Data :=
  (fold_left read_line (getlines content) ([], data)).2.

(** ** The configuration *)

Record Ini := mkIni {
  data_ : Data;
  environment : list Z;
  symbol : list Z;
  strategy : list Z;
  loaded_files_ : list (list Z);
  base_path_ : list Z;
}.

Definition set_data (d : Data) (file : list Z) (ini : Ini) : Ini :=
  mkIni d (environment ini) (symbol ini) (strategy ini) (loaded_files_ ini ++ [file]) (base_path_ ini).

(** [get(section, key, def)], which always puts a period. *)
Definition get_key (section key : list Z) : list Z := section ++ [chr_period] ++ key.
Definition get (section key def : list Z) (ini : Ini) : list Z := default def (data_ ini !! get_key section key).
Definition has_key (section key : list Z) (ini : Ini) : bool := bool_decide (is_Some (data_ ini !! get_key section key)).
Definition set (section key value : list Z) (ini : Ini) : Ini :=
  mkIni (<[get_key section key := value]> (data_ ini)) (environment ini) (symbol ini) (strategy ini)
    (loaded_files_ ini) (base_path_ ini).

(** ** Paths *)

Fixpoint drop_slashes (p : list Z) : list Z :=
  match p with
  | c :: rest => if c =? chr_slash then drop_slashes rest else p
  | [] => []
  end.

(** A reversed path without its last component. *)
Fixpoint drop_component (p : list Z) : list Z :=
  match p with
  | c :: rest => if c =? chr_slash then p else drop_component rest
  | [] => []
  end.

(** [std::filesystem::path::parent_path] on POSIX paths: the text before the
    last component without the slashes that end it, or the root. *)
Definition parent_path (p : list Z) : list Z :=
  let up := drop_component (reverse p) in
  match drop_slashes up with
  | [] => match up with [] => [] | _ => [chr_slash] end
  | rest => reverse rest
  end.

(** [lhs / rhs] of POSIX paths: an absolute [rhs] replaces [lhs]. *)
Definition path_append (lhs rhs : list Z) : list Z :=
  match rhs with
  | c :: _ =>
      if c =? chr_slash then rhs
      else match last lhs with
      | None => rhs
      | Some e => if e =? chr_slash then lhs ++ rhs else lhs ++ [chr_slash] ++ rhs
      end
  | [] => match last lhs with
          | None => []
          | Some e => if e =? chr_slash then lhs else lhs ++ [chr_slash]
          end
  end.

Definition resolve_profile_path (profile_type profile_name : list Z) (base : list Z) : list Z :=
  path_append (path_append base profile_type) (codes "config-" ++ profile_name ++ codes ".ini").

(** ** Profiles *)

(** [lhs < rhs] of [std::string], on unsigned characters. *)
Fixpoint string_le (lhs rhs : list Z) : bool :=
  match lhs, rhs with
  | [], _ => true
  | _ :: _, [] => false
  | a :: lhs', b :: rhs' => if a =? b then string_le lhs' rhs' else a <? b
  end.

Definition profile_le (lhs rhs : list Z * list Z) : Prop := string_le lhs.1 rhs.1 = true.
#[global] Instance profile_le_dec lhs rhs : Decision (profile_le lhs rhs).
Proof. unfold profile_le. apply _. Defined.

Definition strip_prefix (prefix l : list Z) : option (list Z) :=
  if bool_decide (take (length prefix) l = prefix) then Some (drop (length prefix) l) else None.

Definition is_named_profile (profile_type : list Z) : bool :=
  bool_decide (profile_type ∈ [codes "environment"; codes "symbol"; codes "strategy"]).

(** One element of the walk over the data. *)
Definition custom_profile (entry : list Z * list Z) : option (list Z * list Z) :=
  profile_type ← strip_prefix (codes "profile.") entry.1;
  if is_named_profile profile_type then None else Some (profile_type, entry.2).

Section FileSystem.
Context (files : list Z -> option (list Z)) (walk : Data -> list (list Z * list Z)).

Definition load_profile_file (ini : Ini) (profile : list Z * list Z) : Ini :=
  let filename := resolve_profile_path profile.1 profile.2 (base_path_ ini) in
  match files filename with
  | None => ini
  | Some content => set_data (read_content content ∅ ∪ data_ ini) filename ini
  end.

Definition unless_empty (profile_type name : list Z) : list (list Z * list Z) :=
  match name with [] => [] | _ => [(profile_type, name)] end.

Definition load_profiles (ini : Ini) : Ini :=
  let env := get (codes "profile") (codes "environment") [] ini in
  let sym := get (codes "profile") (codes "symbol") [] ini in
  let strat := get (codes "profile") (codes "strategy") [] ini in
  let custom_profiles := merge_sort profile_le (omap custom_profile (walk (data_ ini))) in
  fold_left load_profile_file
    (unless_empty (codes "env") env ++ custom_profiles ++ unless_empty (codes "symbol") sym ++
     unless_empty (codes "strategy") strat)
    (mkIni (data_ ini) env sym strat (loaded_files_ ini) (base_path_ ini)).

Definition load (filename : list Z) (ini : Ini) : bool * Ini :=
  match files filename with
  | None => (false, mkIni ∅ (environment ini) (symbol ini) (strategy ini) [] (base_path_ ini))
  | Some content =>
      (true, load_profiles (mkIni (read_content content ∅) (environment ini) (symbol ini) (strategy ini) [filename]
        (parent_path filename)))
  end.

End FileSystem.

(** ** Placeholders *)

(** [std::tolower] in the C locale. *)
Definition tolower (c : Z) : Z := if (65 <=? c) && (c <=? 90) then c + 32 else c.

Definition kPlaceholder : list Z := codes "{symbol}".

Fixpoint find (pattern l : list Z) : option nat :=
  if bool_decide (take (length pattern) l = pattern) then Some 0%nat
  else match l with [] => None | _ :: rest => S <$> find pattern rest end.

(** [value.find(pattern, pos)] *)
Definition find_from (pattern value : list Z) (pos : nat) : option nat :=
  (fun i => (pos + i)%nat) <$> find pattern (drop pos value).

(** The loop; [None] is out of fuel. *)
Fixpoint replace_loop (fuel : nat) (word value : list Z) (pos : nat) : option (list Z) :=
  match fuel with
  | O => None
  | S fuel' =>
      match find_from kPlaceholder value pos with
      | None => Some value
      | Some pos =>
          replace_loop fuel' word (take pos value ++ word ++ drop (pos + length kPlaceholder) value)
            (pos + length word)
      end
  end.

Definition get_with_symbol (section key def : list Z) (ini : Ini) : option (list Z) :=
  let value := get section key def ini in
  match value, symbol ini with
  | [], _ | _, [] => Some value
  | _, _ => replace_loop (S (length value)) (tolower <$> symbol ini) value 0
  end.

(** ** Integers *)

Fixpoint leading_digits (l : list Z) : list Z :=
  match l with
  | c :: rest => if (chr_0 <=? c) && (c <=? chr_9) then c :: leading_digits rest else []
  | [] => []
  end.

(** The sign and the digits that [strtol] reads; [None] when there is no digit. *)
Definition read_integer (l : list Z) : option (bool * Z) :=
  let l := drop_space l in
  let '(negative, l) :=
    match l with
    | c :: rest => if c =? chr_minus then (true, rest) else if c =? chr_plus then (false, rest) else (false, l)
    | [] => (false, [])
    end in
  match leading_digits l with
  | [] => None
  | d => Some (negative, digits_value d)
  end.

Definition signed (lo hi : Z) (l : list Z) : option Z :=
  match read_integer l with
  | Some (negative, n) =>
      let v := if negative then - n else n in if (lo <=? v) && (v <=? hi) then Some v else None
  | None => None
  end.

(** [std::stoull]: a sign is taken, and the value wraps. *)
Definition stoull (l : list Z) : option Z :=
  match read_integer l with
  | Some (negative, n) => if n <? two64 then Some (if negative then u64 (- n) else n) else None
  | None => None
  end.

Definition erase_separators (value : list Z) : list Z :=
  filter (fun c : Z => c <> chr_apostrophe /\ c <> chr_comma) value.

Definition int32_min : Z := -2147483648.
Definition int32_max : Z := 2147483647.

Definition get_int (section key : list Z) (def : Z) (ini : Ini) : Z :=
  default def (signed int32_min int32_max (erase_separators (get section key [] ini))).

Definition get_int64 (section key : list Z) (def : Z) (ini : Ini) : Z :=
  default def (signed int64_min int64_max (erase_separators (get section key [] ini))).

Definition get_uint64_t (section key : list Z) (def : Z) (ini : Ini) : Z :=
  default (u64 def) (stoull (erase_separators (get section key [] ini))).

(** ** Trimming *)

Definition no_space (o : option Z) : Prop := forall c, o = Some c -> isspace c = false.

Lemma drop_space_length l : (length (drop_space l) <= length l)%nat.
Proof. induction l as [|c l IH]; simpl; [done|]. destruct (isspace c); simpl; lia. Qed.

Lemma drop_space_id l : drop_space l = l <-> no_space (head l).
Proof.
  split.
  - destruct l as [|c l]; intros E d; [done|]. simpl in *. destruct (isspace c) eqn:Hc; [|by intros [= <-]].
    pose proof (drop_space_length l) as Hl. rewrite E in Hl. simpl in Hl. lia.
  - destruct l as [|c l]; intros Hn; [done|]. simpl. by rewrite (Hn c eq_refl).
Qed.

Lemma head_reverse (l : list Z) : head (reverse l) = last l.
Proof. by rewrite <-last_reverse, reverse_involutive. Qed.

Lemma trim_id l : trim l = l <-> no_space (head l) /\ no_space (last l).
Proof.
  unfold trim. rewrite <-(drop_space_id l), <-head_reverse, <-drop_space_id. split.
  - intros E.
    assert (H1 : drop_space l = l).
    { pose proof (drop_space_length (reverse (drop_space l))) as H1. pose proof (drop_space_length l) as H2.
      apply (f_equal length) in E as E'. rewrite !length_reverse in *.
      destruct l as [|c l]; [done|]. simpl in *. destruct (isspace c); [|done].
      pose proof (drop_space_length l). lia. }
    split; [done|]. rewrite H1 in E. by rewrite <-E at 2; rewrite reverse_involutive.
  - intros [-> ->]. apply reverse_involutive.
Qed.

(** Text that stands in a line as it is. *)
Definition clean (l : list Z) : Prop := trim l = l /\ chr_newline ∉ l.
#[global] Instance clean_dec l : Decision (clean l).
Proof. unfold clean. apply _. Defined.

(** ** Rendered files *)

Definition plain_key (k : list Z) : Prop :=
  clean k /\ (chr_equals ∉ k) /\
  Forall (fun c => c <> chr_open /\ c <> chr_semicolon /\ c <> chr_hash) (take 1 k).
#[global] Instance plain_key_dec k : Decision (plain_key k).
Proof. unfold plain_key. apply _. Defined.

Definition entry_ok (entry : list Z * list Z) : Prop := plain_key entry.1 /\ clean entry.2.
#[global] Instance entry_ok_dec entry : Decision (entry_ok entry).
Proof. unfold entry_ok. apply _. Defined.

Definition section_ok (s : list Z * list (list Z * list Z)) : Prop := clean s.1 /\ Forall entry_ok s.2.
#[global] Instance section_ok_dec s : Decision (section_ok s).
Proof. unfold section_ok. apply _. Defined.

Definition render_line (entry : list Z * list Z) : list Z := entry.1 ++ [chr_equals] ++ entry.2 ++ [chr_newline].
Definition render_section (s : list Z * list (list Z * list Z)) : list Z :=
  [chr_open] ++ s.1 ++ [chr_close; chr_newline] ++ concat (render_line <$> s.2).
Definition render (sections : list (list Z * list (list Z * list Z))) : list Z :=
  concat (render_section <$> sections).

Definition assign (section : list Z) (data : Data) (entry : list Z * list Z) : Data :=
  <[full_key section entry.1 := entry.2]> data.
Definition assign_section (data : Data) (s : list Z * list (list Z * list Z)) : Data :=
  fold_left (assign s.1) s.2 data.

Lemma getlines_app line rest : chr_newline ∉ line -> getlines (line ++ chr_newline :: rest) = line :: getlines rest.
Proof.
  induction line as [|c line IH]; intros Hn; simpl; [done|].
  apply not_elem_of_cons in Hn as [Hc Hn]. rewrite (proj2 (Z.eqb_neq c chr_newline)) by congruence.
  by rewrite IH.
Qed.

Lemma split_equals_app key value : chr_equals ∉ key -> split_equals (key ++ chr_equals :: value) = Some (key, value).
Proof.
  induction key as [|c key IH]; intros Hn; simpl; [done|].
  apply not_elem_of_cons in Hn as [Hc Hn]. rewrite (proj2 (Z.eqb_neq c chr_equals)) by congruence.
  by rewrite IH.
Qed.

Lemma read_section_line section data s :
  clean s -> read_line (section, data) ([chr_open] ++ s ++ [chr_close]) = (s, data).
Proof.
  intros [Ht _]. unfold read_line. rewrite (proj2 (trim_id _)).
  2:{ split; intros c; [by intros [= <-]|]. rewrite app_assoc, last_snoc. by intros [= <-]. }
  cbn [app]. change ((chr_open =? chr_semicolon) || (chr_open =? chr_hash)) with false. cbv iota.
  rewrite Z.eqb_refl, bool_decide_eq_true_2 by (by rewrite app_comm_cons, last_snoc). cbn [andb].
  f_equal. transitivity (trim s); [|done]. f_equal. cbn [length]. rewrite length_app. cbn [length].
  replace (S (length s + 1) - 2)%nat with (length s) by lia. apply take_app_length.
Qed.

Lemma read_entry_line section data entry :
  entry_ok entry -> read_line (section, data) (entry.1 ++ [chr_equals] ++ entry.2) = (section, assign section data entry).
Proof.
  destruct entry as [k v]. intros [((Hk & _) & Heq & Hfirst) [Hv _]]. cbn [fst snd] in *. unfold read_line.
  rewrite (proj2 (trim_id _)).
  2:{ apply trim_id in Hk as [Hkh _]. apply trim_id in Hv as [_ Hvl]. split; intros c.
      - destruct k as [|c' k]; [by intros [= <-] | exact (Hkh c)].
      - rewrite app_assoc, last_app. destruct (last v) as [e|] eqn:E; [intros [= ->]; by apply Hvl|].
        rewrite last_snoc. by intros [= <-]. }
  cbn [app]. rewrite split_equals_app by done. unfold assign. cbn [fst snd].
  assert (Hout : forall front rest, k ++ chr_equals :: v = front :: rest ->
    (front =? chr_semicolon) || (front =? chr_hash) = false /\ (front =? chr_open) = false).
  { intros front rest E. destruct k as [|c k]; injection E as <- _; [done|].
    apply Forall_cons in Hfirst as [(H1 & H2 & H3) _].
    by rewrite (proj2 (Z.eqb_neq _ _) H1), (proj2 (Z.eqb_neq _ _) H2), (proj2 (Z.eqb_neq _ _) H3). }
  destruct (k ++ chr_equals :: v) as [|front rest] eqn:E; [by apply app_nil in E as [_ ?]|].
  destruct (Hout front rest eq_refl) as [-> ->]. cbn [andb]. by rewrite Hk, Hv.
Qed.

Lemma read_entries section entries data rest :
  Forall entry_ok entries ->
  fold_left read_line (getlines (concat (render_line <$> entries) ++ rest)) (section, data) =
  fold_left read_line (getlines rest) (section, fold_left (assign section) entries data).
Proof.
  intros Hall. revert data. induction Hall as [|entry entries He Hall IH]; intros data; [done|].
  cbn [fmap list_fmap concat fold_left]. rewrite <-IH. unfold render_line at 1.
  rewrite <-!app_assoc. cbn [app].
  replace (entry.1 ++ chr_equals :: entry.2 ++ chr_newline :: concat (render_line <$> entries) ++ rest)
    with ((entry.1 ++ [chr_equals] ++ entry.2) ++ chr_newline :: (concat (render_line <$> entries) ++ rest))
    by (rewrite <-!app_assoc; done).
  rewrite getlines_app.
  2:{ destruct He as [((_ & Hk) & _) [_ Hv]]. rewrite !not_elem_of_app. split_and!; [done | by apply not_elem_of_cons; split; [|apply not_elem_of_nil] | done]. }
  cbn [fold_left]. by rewrite read_entry_line.
Qed.

(** A rendered configuration is read back.  For sections and entries
    whose names and values stand in a line as they are, reading the rendered file
    assigns each value to the key of its section, in order, so that the last
    assignment of a key wins, and nothing else. *)
Theorem ini_roundtrip sections data :
  Forall section_ok sections -> read_content (render sections) data = fold_left assign_section sections data.
Proof.
  intros Hall. unfold read_content. generalize (@nil Z) as section. intros section. revert section data.
  induction Hall as [|s sections Hs Hall IH]; intros section data; [done|].
  unfold render in *. cbn [fmap list_fmap concat fold_left]. unfold render_section at 1.
  destruct s as [s entries], Hs as [Hs He]. cbn [fst snd] in *.
  replace (([chr_open] ++ s ++ [chr_close; chr_newline] ++ concat (render_line <$> entries)) ++
      concat (render_section <$> sections))
    with (([chr_open] ++ s ++ [chr_close]) ++ chr_newline ::
      (concat (render_line <$> entries) ++ concat (render_section <$> sections)))
    by (rewrite <-!app_assoc; done).
  rewrite getlines_app.
  2:{ destruct Hs as [_ Hs]. rewrite !not_elem_of_app, !list_elem_of_singleton. by split_and!. }
  cbn [fold_left]. rewrite read_section_line by done. rewrite read_entries by done. apply IH.
Qed.

Lemma ini_roundtrip_witness :
  read_content (render [(codes "meta", [(codes "ticker", codes "BTC USD"); (codes "level", codes "3")]);
    (codes "x", []); (codes "meta", [(codes "level", codes "a=b")])]) ∅ !! codes "meta.level" = Some (codes "a=b").
Proof.
  rewrite ini_roundtrip; [by vm_compute|]. apply (bool_decide_unpack _). vm_compute. exact I.
Defined.

(** ** Profiles *)

Lemma string_le_antisym a b : string_le a b = true -> string_le b a = true -> a = b.
Proof.
  revert b. induction a as [|x a IH]; intros [|y b]; try done. simpl. rewrite (Z.eqb_sym y x).
  destruct (Z.eqb_spec x y) as [->|Hne]; [intros; f_equal; by apply IH|]. intros ?%Z.ltb_lt ?%Z.ltb_lt. lia.
Qed.

#[global] Instance profile_le_total : Total profile_le.
Proof.
  intros [a va] [b vb]. unfold profile_le. cbn [fst]. clear va vb. revert b.
  induction a as [|x a IH]; intros [|y b]; simpl; auto. rewrite (Z.eqb_sym y x).
  destruct (Z.eqb_spec x y) as [->|Hne]; [apply IH|]. rewrite !Z.ltb_lt. lia.
Qed.

#[global] Instance profile_le_trans : Transitive profile_le.
Proof.
  intros [a va] [b vb] [c vc]. unfold profile_le. cbn [fst]. clear va vb vc. revert b c.
  induction a as [|x a IH]; intros [|y b] [|z c]; simpl; try done.
  destruct (Z.eqb_spec x y) as [->|], (Z.eqb_spec y z) as [->|]; [apply IH | done | |].
  - by destruct (Z.eqb_spec x z).
  - intros ?%Z.ltb_lt ?%Z.ltb_lt. destruct (Z.eqb_spec x z); [lia | apply Z.ltb_lt; lia].
Qed.

Lemma custom_profile_key e p : custom_profile e = Some p -> e = (codes "profile." ++ p.1, p.2).
Proof.
  destruct e as [k v]. unfold custom_profile, strip_prefix. cbn [fst snd].
  case_bool_decide as Ht; [|done]. cbn [mbind option_bind]. destruct (is_named_profile _); [done|]. intros [= <-].
  cbn [fst snd]. f_equal. rewrite <-Ht at 1. symmetry. apply take_drop.
Qed.

(** The profiles that a base file names, in the order of their files. *)
Definition profile_order (base : Data) : list (list Z * list Z) :=
  let name k := default [] (base !! (codes "profile." ++ k)) in
  unless_empty (codes "env") (name (codes "environment")) ++
  merge_sort profile_le (omap custom_profile (map_to_list base)) ++
  unless_empty (codes "symbol") (name (codes "symbol")) ++
  unless_empty (codes "strategy") (name (codes "strategy")).

Section Load.
Context (files : list Z -> option (list Z)) (walk : Data -> list (list Z * list Z)).
Context (walk_all : forall m, walk m ≡ₚ map_to_list m).

(** Sorting by name makes the order of the hash map irrelevant: names are unique. *)
Lemma custom_profiles_sorted base :
  merge_sort profile_le (omap custom_profile (walk base)) = merge_sort profile_le (omap custom_profile (map_to_list base)).
Proof using walk_all.
  assert (Hin : forall l p, l ≡ₚ map_to_list base -> p ∈ merge_sort profile_le (omap custom_profile l) ->
    base !! (codes "profile." ++ p.1) = Some p.2).
  { intros l p Hl Hp. rewrite merge_sort_Permutation, list_elem_of_omap in Hp. destruct Hp as (e & He & Hp).
    apply custom_profile_key in Hp as ->. rewrite Hl in He. by apply elem_of_map_to_list in He. }
  apply (StronglySorted_unique_strong profile_le).
  - intros p q Hp Hq Hpq Hqp. pose proof (string_le_antisym _ _ Hpq Hqp) as E.
    apply Hin in Hp; [|apply walk_all]. apply Hin in Hq; [|done]. rewrite E, Hq in Hp. injection Hp as Hp.
    destruct p, q. simpl in *. congruence.
  - apply StronglySorted_merge_sort; apply _.
  - apply StronglySorted_merge_sort; apply _.
  - rewrite !merge_sort_Permutation. by rewrite walk_all.
Qed.

(** The contents of the profile files that exist. *)
Definition profile_contents (base_path : list Z) (profiles : list (list Z * list Z)) : list Data :=
  (fun content => read_content content ∅) <$>
  omap (fun p => files (resolve_profile_path p.1 p.2 base_path)) profiles.

(** The value of a key in the last of several layers that has it. *)
Definition last_defined (k : list Z) (layers : list Data) : option (list Z) :=
  fold_left (fun value d => match d !! k with Some v => Some v | None => value end) layers None.

Lemma load_files_data profiles ini k :
  let ini' := fold_left (load_profile_file files) profiles ini in
  data_ ini' !! k = fold_left (fun value d => match d !! k with Some v => Some v | None => value end)
    (profile_contents (base_path_ ini) profiles) (data_ ini !! k) /\
  environment ini' = environment ini /\ symbol ini' = symbol ini /\ strategy ini' = strategy ini.
Proof.
  revert ini. induction profiles as [|p profiles IH]; intros ini; [done|]. cbn [fold_left]. cbv zeta in *.
  destruct (IH (load_profile_file files ini p)) as (-> & -> & -> & ->). unfold profile_contents, load_profile_file.
  cbn [omap list_omap]. destruct (files _) as [content|]; [|done]. cbn. split; [|done].
  rewrite lookup_union. f_equal. by destruct (read_content content ∅ !! k), (data_ ini !! k).
Qed.

(** C28: the precedence of the configuration files.  Loading a base file gives
    every key the value of the last file that sets it, in the order base file,
    environment, custom profiles sorted by name, symbol, strategy, where files
    that do not exist are skipped; the active profiles are those of the base
    file.  The order in which the hash map is walked makes no difference. *)
Theorem profile_precedence filename content ini :
  files filename = Some content ->
  exists ini', load files walk filename ini = (true, ini') /\
    let base := read_content content ∅ in
    (forall k, data_ ini' !! k =
       last_defined k (base :: profile_contents (parent_path filename) (profile_order base))) /\
    symbol ini' = default [] (base !! codes "profile.symbol") /\
    strategy ini' = default [] (base !! codes "profile.strategy") /\
    environment ini' = default [] (base !! codes "profile.environment").
Proof using walk_all.
  intros Hf. unfold load. rewrite Hf. eexists. split; [reflexivity|]. cbv zeta. unfold load_profiles.
  cbn [data_ base_path_ loaded_files_]. rewrite custom_profiles_sorted. set (base := read_content content ∅).
  match goal with |- context [fold_left _ ?ps ?i] => set (profiles := ps); set (start := i) end.
  assert (Hp : profiles = profile_order base) by done. rewrite Hp. split.
  - intros k. destruct (load_files_data (profile_order base) start k) as (-> & _). unfold last_defined. cbn [fold_left].
    unfold start. cbn. by destruct (base !! k).
  - destruct (load_files_data (profile_order base) start []) as (_ & -> & -> & ->). done.
Qed.

End Load.

(** A base file with a custom profile, a symbol and two of the three files. *)
Definition demo_files (path : list Z) : option (list Z) :=
  if bool_decide (path = codes "res/config.ini") then
    Some (render [(codes "profile", [(codes "symbol", codes "BTC"); (codes "venue", codes "spot");
      (codes "strategy", codes "maker")]); (codes "a", [(codes "x", codes "1"); (codes "y", codes "2")])])
  else if bool_decide (path = codes "res/venue/config-spot.ini") then
    Some (render [(codes "a", [(codes "x", codes "3"); (codes "y", codes "4")])])
  else if bool_decide (path = codes "res/symbol/config-BTC.ini") then
    Some (render [(codes "a", [(codes "y", codes "5")])])
  else None.

Lemma profile_precedence_witness :
  exists ini', load demo_files (fun m => reverse (map_to_list m)) (codes "res/config.ini") (mkIni ∅ [] [] [] [] []) =
      (true, ini') /\
    data_ ini' !! codes "a.x" = Some (codes "3") /\ data_ ini' !! codes "a.y" = Some (codes "5").
Proof.
  destruct (profile_precedence demo_files (fun m => reverse (map_to_list m))
    (fun m => reverse_Permutation (map_to_list m)) (codes "res/config.ini")
    (default [] (demo_files (codes "res/config.ini"))) (mkIni ∅ [] [] [] [] [])) as (ini' & Hl & Hd & _);
    [reflexivity|].
  exists ini'. split; [exact Hl|]. rewrite !Hd. split; vm_compute; reflexivity.
Defined.

(** A key outside of all sections cannot be read: the getters always put a period. *)
Lemma sectionless_key_unreachable section key k : chr_period ∉ k -> get_key section key <> full_key [] k.
Proof. intros Hk E. apply Hk. simpl in E. rewrite <-E. unfold get_key. rewrite !elem_of_app, list_elem_of_singleton. auto. Qed.

(** ** Placeholders *)

(** [r] is [l] with every placeholder, from left to right, replaced by [word]. *)
Inductive Replaced (word : list Z) : list Z -> list Z -> Prop :=
  | replaced_none l : find kPlaceholder l = None -> Replaced word l l
  | replaced_first before l r :
      find kPlaceholder (before ++ kPlaceholder ++ l) = Some (length before) -> Replaced word l r ->
      Replaced word (before ++ kPlaceholder ++ l) (before ++ word ++ r).

Lemma find_split pattern l i :
  find pattern l = Some i -> l = take i l ++ pattern ++ drop (i + length pattern) l /\ (i + length pattern <= length l)%nat.
Proof.
  assert (Hhere : forall l, take (length pattern) l = pattern ->
    l = pattern ++ drop (length pattern) l /\ (length pattern <= length l)%nat).
  { intros m E. split; [rewrite <-E at 1; symmetry; apply take_drop|].
    apply (f_equal length) in E. rewrite length_take in E. lia. }
  revert i. induction l as [|c l IH]; intros i; simpl; case_bool_decide as E; intros Hi.
  - injection Hi as <-. destruct (Hhere [] E) as [H1 H2]. split; [|simpl in *; lia]. simpl. by rewrite drop_nil in *.
  - done.
  - injection Hi as <-. destruct (Hhere (c :: l) E) as [H1 H2]. split; [exact H1 | simpl in *; lia].
  - destruct (find pattern l) as [j|] eqn:Ej; [|done]. injection Hi as <-.
    destruct (IH j eq_refl) as [H1 H2]. split; [|simpl; lia]. simpl. by rewrite <-H1.
Qed.

Lemma replace_loop_correct fuel word done_ l :
  (length l < fuel)%nat ->
  exists r, replace_loop fuel word (done_ ++ l) (length done_) = Some (done_ ++ r) /\ Replaced word l r.
Proof.
  revert done_ l. induction fuel as [|fuel IH]; intros done_ l Hf; [lia|]. cbn [replace_loop]. unfold find_from.
  rewrite drop_app_length. destruct (find kPlaceholder l) as [i|] eqn:E; cbn [fmap option_fmap option_map].
  2:{ exists l. split; [done | by constructor]. }
  destruct (find_split _ _ _ E) as [Hl Hlen]. set (before := take i l) in *. set (rest := drop (i + length kPlaceholder) l) in *.
  assert (Hb : length before = i) by (unfold before; rewrite length_take; lia).
  destruct (IH (done_ ++ before ++ word) rest) as (r & Hr & Hrep).
  { unfold rest. rewrite length_drop. change (length kPlaceholder) with 8%nat in *. lia. }
  exists (before ++ word ++ r). split.
  - rewrite <-(app_assoc done_), <-(app_assoc before) in Hr.
    rewrite take_app_add' by done. rewrite <-Nat.add_assoc, drop_app_add' by done. fold before rest.
    replace (length done_ + i + length word)%nat with (length (done_ ++ before ++ word))
      by (rewrite !length_app; lia).
    rewrite <-!app_assoc in *. exact Hr.
  - rewrite Hl. constructor; [|done]. rewrite <-Hl, Hb. done.
Qed.

(** The loop over the placeholders of a value always ends, and what it
    leaves is the value with every placeholder, from left to right, replaced by
    the symbol in lower case, even when the symbol itself contains a placeholder.
    Without a symbol the value is returned as it is. *)
Theorem placeholders_replaced section key def ini :
  exists r, get_with_symbol section key def ini = Some r /\
    let value := get section key def ini in
    match symbol ini with [] => r = value | _ => Replaced (tolower <$> symbol ini) value r end.
Proof.
  unfold get_with_symbol. set (value := get section key def ini). clearbody value.
  destruct value as [|c value], (symbol ini) as [|d sym] eqn:E; try (eexists; split; [reflexivity|]; try done).
  - by constructor.
  - rewrite <-E. destruct (replace_loop_correct (S (length (c :: value))) (tolower <$> symbol ini) [] (c :: value)) as (r & Hr & Hrep);
      [lia|]. exists r. split; [exact Hr | exact Hrep].
Qed.

(** ** Integers *)

(** An integer as it is written in a file. *)
Definition render_int (v : Z) : list Z :=
  if v <? 0 then chr_minus :: to_string_u64 (- v) else to_string_u64 v.

Lemma leading_digits_app d r : digits d -> leading_digits r = [] -> leading_digits (d ++ r) = d.
Proof.
  intros Hd Hr. induction Hd as [|c d Hc _ IH]; [done|]. simpl.
  by rewrite (proj2 (Z.leb_le chr_0 c)), (proj2 (Z.leb_le c chr_9)), IH by lia.
Qed.

Lemma leading_digits_all d : digits d -> leading_digits d = d.
Proof. intros Hd. rewrite <-(app_nil_r d) at 1. by apply leading_digits_app. Qed.

Lemma digit_no_space c : chr_0 <= c <= chr_9 -> isspace c = false.
Proof. unfold isspace, chr_0, chr_9. intros Hc. apply orb_false_iff. split; [lia|]. apply andb_false_iff. right. lia. Qed.

Lemma read_integer_digits_app d r :
  digits d -> d <> [] -> leading_digits r = [] -> read_integer (d ++ r) = Some (false, digits_value d).
Proof.
  intros Hd Hne Hr. destruct d as [|c d]; [done|]. apply Forall_cons in Hd as Hd'. destruct Hd' as [Hc _]. unfold read_integer.
  rewrite (proj2 (drop_space_id _)) by (intros c' [= <-]; by apply digit_no_space). cbn [app].
  rewrite (proj2 (Z.eqb_neq c chr_minus)), (proj2 (Z.eqb_neq c chr_plus)) by (unfold chr_0, chr_9, chr_minus, chr_plus in *; lia).
  rewrite app_comm_cons. by rewrite leading_digits_app.
Qed.

Lemma read_integer_digits d : digits d -> d <> [] -> read_integer d = Some (false, digits_value d).
Proof. intros Hd Hne. rewrite <-(app_nil_r d) at 1. by apply read_integer_digits_app. Qed.

Lemma read_integer_render v : Z.abs v < two64 -> read_integer (render_int v) = Some (v <? 0, Z.abs v).
Proof.
  intros Hv. unfold render_int. destruct (Z.ltb_spec v 0) as [Hn|Hn].
  - destruct (to_string_u64_spec (- v)) as (Hd & Hval & Hne); [lia|]. unfold read_integer. cbn [drop_space].
    change (isspace chr_minus) with false. cbv iota. rewrite Z.eqb_refl, leading_digits_all by done.
    destruct (to_string_u64 (- v)); [done|]. rewrite Hval. do 2 f_equal. lia.
  - destruct (to_string_u64_spec v) as (Hd & Hval & Hne); [lia|].
    rewrite read_integer_digits, Hval by done. do 2 f_equal. lia.
Qed.

(** The integer getters read back what is written, with separators
    anywhere: a text that without apostrophes and commas is the decimal of [v] is
    read as [v] by [get_int64] over all 64-bit integers, by [get_int] over the
    32-bit integers and with the default beyond them, and by [get_uint64_t] as
    [v] modulo 2^64, so that a negative number is not refused. *)
Theorem integers_read_back section key ini v def :
  erase_separators (get section key [] ini) = render_int v -> in_i64 v ->
  get_int64 section key def ini = v /\
  get_int section key def ini = (if (int32_min <=? v) && (v <=? int32_max) then v else def) /\
  get_uint64_t section key def ini = u64 v.
Proof.
  intros Ht Hv. unfold in_i64, int64_min, int64_max in Hv. unfold get_int64, get_int, get_uint64_t, signed, stoull.
  rewrite Ht, read_integer_render by (unfold two64; lia).
  replace (if v <? 0 then - Z.abs v else Z.abs v) with v by (destruct (Z.ltb_spec v 0); lia). split_and!.
  - by rewrite (proj2 (Z.leb_le int64_min v)), (proj2 (Z.leb_le v int64_max)) by (unfold int64_min, int64_max; lia).
  - by destruct (_ && _).
  - rewrite (proj2 (Z.ltb_lt _ two64)) by (unfold two64; lia). cbn. destruct (Z.ltb_spec v 0); [f_equal; lia|].
    rewrite Z.abs_eq by lia. symmetry. apply u64_small. unfold in_u64, two64. lia.
Qed.

Lemma integers_read_back_witness :
  let ini := mkIni {[ codes "a.x" := codes "-1'000,000" ]} [] [] [] [] [] in
  get_int64 (codes "a") (codes "x") 7 ini = -1000000 /\
  get_int (codes "a") (codes "x") 7 ini = -1000000 /\
  get_uint64_t (codes "a") (codes "x") 7 ini = 18446744073708551616.
Proof.
  intros ini. apply (integers_read_back (codes "a") (codes "x") ini (-1000000) 7); [by vm_compute|].
  unfold in_i64, int64_min, int64_max. lia.
Defined.

End IniConfig.
