(* ===== verification/Clock.v ===== *)
(** * Clock and waiting
      (src/hft/common/fast_clock.h, src/hft/common/wait_strategy.h, and
       [gen_order_id] of src/hft/src/order_manager.hpp)

    The clock of the order manager turns the cycle counter of the processor into
    nanoseconds since the epoch, in doubles, and reads the system clock again
    after a configured number of cycles.  The readings of the counter and of the
    system clock are arguments.  Order ids are readings of this clock. *)

From Stdlib Require Import QArith Qabs Lqa.
From S2P Require Import Prelude Types Binary64.

Module Clock.
Import Binary64.

(** ** The clock *)

Definition kGhz : Q := 1000000000.

Record FastClock := mkClock { recal_cycles : Z; inv_f : Q; last_cycle : Z; last_epoch : Z }.

(** [static_cast<uint64_t>(value)]: undefined outside of the range. *)
Definition to_uint64 (q : Q) : option Z :=
  if (0 <=? trunc q) && (trunc q <? 2 ^ 64) then Some (trunc q) else None.

(** The constructor, with its readings of the counter and of the system clock. *)
Definition new_clock (cpu_hz : Q) (interval_sec : Z) (cycle epoch : Z) : option FastClock :=
  recal ← to_uint64 (rnd (cpu_hz * inject_Z interval_sec));
  Some (mkClock recal (rnd (kGhz / cpu_hz)) cycle epoch).

(** [static_cast<uint64_t>(inv_f * cycle_diff)] *)
Definition dt_ns (inv_f : Q) (cycle_diff : Z) : option Z := to_uint64 (rnd (inv_f * rnd (inject_Z cycle_diff))).

(** The readings of a call: the counter, and, for a recalibration, the counter
    again and the system clock. *)
Record Reading := mkReading { current_cycle : Z; cycle_again : Z; system_now : Z }.

Definition get_timestamp (r : Reading) (c : FastClock) : option (Z * FastClock) :=
  let cycle_diff := u64 (current_cycle r - last_cycle c) in
  let '(cycle_diff, c) :=
    if recal_cycles c <=? cycle_diff
    then (0, mkClock (recal_cycles c) (inv_f c) (cycle_again r) (u64 (system_now r)))
    else (cycle_diff, c) in
  dt ← dt_ns (inv_f c) cycle_diff;
  Some (u64 (last_epoch c + dt), c).

(** [gen_order_id]: the id is the time. *)
Definition gen_order_id : Reading -> FastClock -> option (Z * FastClock) := get_timestamp.

(** A sequence of calls: the timestamps they return. *)
Fixpoint timestamps (rs : list Reading) (c : FastClock) : option (list Z * FastClock) :=
  match rs with
  | [] => Some ([], c)
  | r :: rs =>
      '(ts, c) ← get_timestamp r c;
      '(tss, c) ← timestamps rs c;
      Some (ts :: tss, c)
  end.

(** ** Waiting *)

Definition kBusySpinIters : Z := 1000.
Definition kSpinIters : Z := 16000.
Definition kYieldIters : Z := 5000.
Definition kNsShort : Z := 20000.
Definition kNsLong : Z := 1000000.

Inductive Wait := Pause | Sleep (ns : Z).

(** [++iter] on an [int]: undefined at the largest one. *)
Definition succ_int (iter : Z) : option Z := if iter <? 2 ^ 31 - 1 then Some (iter + 1) else None.

Definition idle (iter : Z) : option (Wait * Z) :=
  let wait :=
    if iter <? kBusySpinIters then Pause
    else if iter <? kBusySpinIters + kYieldIters then Sleep kNsShort
    else Sleep kNsLong in
  iter ← succ_int iter;
  Some (wait, iter).

Definition idle_hot (iter : Z) : option (Wait * Z) :=
  iter ← succ_int iter;
  Some (Pause, if kSpinIters <? iter then kSpinIters else iter).

Definition reset (iter : Z) : Z := 0.

(** The loop of the trade engine: rounds with and without work. *)
Fixpoint engine_rounds (busy : list bool) (iter : Z) : option Z :=
  match busy with
  | [] => Some iter
  | true :: busy => engine_rounds busy (reset iter)
  | false :: busy => '(_, iter) ← idle_hot iter; engine_rounds busy iter
  end.

(** The loop of the logger waits with [idle]. *)
Fixpoint logger_rounds (busy : list bool) (iter : Z) : option Z :=
  match busy with
  | [] => Some iter
  | true :: busy => logger_rounds busy (reset iter)
  | false :: busy => '(_, iter) ← idle iter; logger_rounds busy iter
  end.

(** ** What a reading is worth *)

(** The exact time of [d] cycles. *)
Definition elapsed (hz : Q) (d : Z) : Q := inject_Z d * (kGhz / hz).

Lemma ghz_pos hz : (0 < hz)%Q -> (0 < kGhz / hz)%Q.
Proof. intros H. apply Qlt_shift_div_l; [done|]. rewrite Qmult_0_l. reflexivity. Qed.

(** Three roundings lose less than an eighth of a nanosecond in a day and a half. *)
Lemma product_near hz d :
  (0 < hz)%Q -> 0 <= d -> (elapsed hz d <= inject_Z kExactRange)%Q ->
  let y := rnd (rnd (kGhz / hz) * rnd (inject_Z d)) in
  (elapsed hz d - (1 # 8) <= y)%Q /\ (y <= elapsed hz d + (1 # 8))%Q.
Proof.
  intros Hhz Hd Hr. pose proof (ghz_pos hz Hhz) as Hk.
  assert (HD : (0 <= inject_Z d)%Q) by (change 0%Q with (inject_Z 0); by rewrite <-Zle_Qle).
  unfold elapsed in *. set (k := (kGhz / hz)%Q) in *. set (D := inject_Z d) in *.
  pose proof (rnd_err k) as E1. pose proof (rnd_err D) as E2. pose proof (rnd_err (rnd k * rnd D)) as E3.
  rewrite (Qabs_pos k) in E1 by lra. rewrite (Qabs_pos D) in E2 by lra.
  apply Qabs_Qle_condition in E1, E2. unfold ulp in *. change (inject_Z kExactRange) with 140737488355328%Q in Hr.
  assert (Hp : (0 <= D * k)%Q) by (apply Qmult_le_0_compat; lra).
  assert (U1 : (rnd k * rnd D <= (k + k * (1 # 9007199254740992)) * (D + D * (1 # 9007199254740992)))%Q).
  { apply Qmult_le_compat_nonneg; split; [|lra| |lra]; apply rnd_nonneg; lra. }
  assert (L1 : ((k - k * (1 # 9007199254740992)) * (D - D * (1 # 9007199254740992)) <= rnd k * rnd D)%Q).
  { apply Qmult_le_compat_nonneg; split; lra. }
  assert (U2 : ((k + k * (1 # 9007199254740992)) * (D + D * (1 # 9007199254740992)) == D * k * (9007199254740993 # 9007199254740992) * (9007199254740993 # 9007199254740992))%Q) by ring.
  assert (L2 : ((k - k * (1 # 9007199254740992)) * (D - D * (1 # 9007199254740992)) == D * k * (9007199254740991 # 9007199254740992) * (9007199254740991 # 9007199254740992))%Q) by ring.
  assert (B : (D * k - (1 # 16) <= rnd k * rnd D)%Q /\ (rnd k * rnd D <= D * k + (1 # 16))%Q) by (split; lra).
  assert (Hn : (0 <= rnd k * rnd D)%Q) by (apply Qmult_le_0_compat; apply rnd_nonneg; lra).
  rewrite (Qabs_pos (rnd k * rnd D)) in E3 by done. apply Qabs_Qle_condition in E3. cbv zeta. split; lra.
Qed.

Section Interval.
Variable hz : Q.
Hypothesis Hhz : (0 < hz)%Q.
Variable c : FastClock.
Hypothesis Hinv : inv_f c = rnd (kGhz / hz).
Hypothesis Hepoch : 0 <= last_epoch c <= 2 ^ 63.
Hypothesis Hcycle : 0 <= last_cycle c < 2 ^ 64.

(** A reading inside of the interval between two recalibrations. *)
Definition inside (cycle : Z) : Prop :=
  last_cycle c <= cycle < 2 ^ 64 /\ cycle - last_cycle c < recal_cycles c /\
  (elapsed hz (cycle - last_cycle c) <= inject_Z kExactRange)%Q.

(** The nanoseconds since the last recalibration. *)
Definition dt_of (cycle : Z) : Z := trunc (rnd (rnd (kGhz / hz) * rnd (inject_Z (cycle - last_cycle c)))).

Lemma dt_near cycle :
  inside cycle ->
  0 <= dt_of cycle <= 2 ^ 48 /\
  (elapsed hz (cycle - last_cycle c) - (9 # 8) < inject_Z (dt_of cycle))%Q /\
  (inject_Z (dt_of cycle) <= elapsed hz (cycle - last_cycle c) + (1 # 8))%Q.
Proof.
  intros (Hc & _ & Hr). destruct (product_near hz (cycle - last_cycle c) Hhz ltac:(lia) Hr) as [L U].
  pose proof (Qlt_le_weak _ _ (ghz_pos hz Hhz)) as Hk.
  assert (HD : (0 <= inject_Z (cycle - last_cycle c))%Q) by (change 0%Q with (inject_Z 0); rewrite <-Zle_Qle; lia).
  assert (Hy : (0 <= rnd (rnd (kGhz / hz) * rnd (inject_Z (cycle - last_cycle c))))%Q).
  { apply rnd_nonneg, Qmult_le_0_compat; by apply rnd_nonneg. }
  destruct (trunc_floor _ Hy) as (T0 & T1 & T2). unfold dt_of. set (y := rnd (_ * _)) in *.
  change (inject_Z kExactRange) with 140737488355328%Q in Hr. split; [split; [done|]|split; lra].
  rewrite Zle_Qle. change (inject_Z (2 ^ 48)) with 281474976710656%Q. lra.
Qed.

Lemma get_timestamp_inside r :
  inside (current_cycle r) -> get_timestamp r c = Some (last_epoch c + dt_of (current_cycle r), c).
Proof.
  intros Hi. pose proof (dt_near _ Hi) as [Hb _]. destruct Hi as (Hc & Hn & _). unfold get_timestamp.
  rewrite u64_small by (unfold in_u64, two64; lia). rewrite (proj2 (Z.leb_gt _ _)) by lia. unfold dt_ns, to_uint64.
  rewrite Hinv. fold (dt_of (current_cycle r)).
  rewrite (proj2 (Z.leb_le _ _)), (proj2 (Z.ltb_lt _ _)) by lia. cbn. rewrite u64_small by (unfold in_u64, two64; lia). done.
Qed.

(** C40: between two readings of the system clock a timestamp follows the cycle
    counter: it is the epoch of the last reading plus the time of the cycles since
    then, cut to nanoseconds, with an error of less than nine eighths of a
    nanosecond downwards and an eighth upwards, for a day and a half. *)
Theorem timestamp_tracks_counter r :
  inside (current_cycle r) ->
  exists dt, get_timestamp r c = Some (last_epoch c + dt, c) /\
    (elapsed hz (current_cycle r - last_cycle c) - (9 # 8) < inject_Z dt)%Q /\
    (inject_Z dt <= elapsed hz (current_cycle r - last_cycle c) + (1 # 8))%Q.
Proof.
  intros Hi. exists (dt_of (current_cycle r)). split; [by apply get_timestamp_inside | apply (dt_near _ Hi)].
Qed.

(** Two orders more than a nanosecond and a quarter apart have different ids. *)
Theorem order_ids_distinct r1 r2 id1 id2 c1 c2 :
  inside (current_cycle r1) -> inside (current_cycle r2) ->
  (elapsed hz (current_cycle r1 - last_cycle c) + (5 # 4) <= elapsed hz (current_cycle r2 - last_cycle c))%Q ->
  gen_order_id r1 c = Some (id1, c1) -> gen_order_id r2 c1 = Some (id2, c2) -> id1 < id2.
Proof.
  intros H1 H2 Hap E1 E2. unfold gen_order_id in *. rewrite get_timestamp_inside in E1 by done. injection E1 as <- <-.
  rewrite get_timestamp_inside in E2 by done. injection E2 as <- <-.
  destruct (dt_near _ H1) as (_ & _ & U). destruct (dt_near _ H2) as (_ & L & _).
  enough (dt_of (current_cycle r1) < dt_of (current_cycle r2)) by lia. rewrite Zlt_Qlt. lra.
Qed.

Lemma dt_mono a b : a <= b -> dt_of a <= dt_of b.
Proof.
  intros H. unfold dt_of. apply trunc_mono, rnd_mono.
  assert (Hk : (0 <= rnd (kGhz / hz))%Q) by (apply rnd_nonneg, Qlt_le_weak, ghz_pos, Hhz).
  rewrite (Qmult_comm (rnd (kGhz / hz))), (Qmult_comm (rnd (kGhz / hz))).
  apply Qmult_le_compat_r; [|done]. apply rnd_mono. rewrite <-Zle_Qle. lia.
Qed.

(** The clock does not go backwards as long as it is not recalibrated: a
    counter that does not go backwards gives timestamps that do not, from the
    epoch of the last reading on, and every call succeeds. *)
Theorem timestamps_sorted rs :
  Forall (fun r => inside (current_cycle r)) rs -> StronglySorted Z.le (current_cycle <$> rs) ->
  exists tss, timestamps rs c = Some (tss, c) /\ StronglySorted Z.le (last_epoch c :: tss).
Proof.
  intros Hi Hs. exists ((fun r => last_epoch c + dt_of (current_cycle r)) <$> rs). split.
  - clear Hs. induction Hi as [|r rs Hr _ IH]; [done|]. cbn [timestamps]. rewrite get_timestamp_inside by done. cbn.
    by rewrite IH.
  - constructor.
    + clear Hi. induction rs as [|r rs IH]; [constructor|]. cbn in *. apply StronglySorted_inv in Hs as [Hs Hf].
      constructor; [by apply IH|]. rewrite Forall_fmap in *. eapply Forall_impl; [exact Hf|]. intros r' H. cbn in *.
      pose proof (dt_mono _ _ H). lia.
    + clear Hs. rewrite Forall_fmap. eapply Forall_impl; [exact Hi|]. intros r H. cbn. pose proof (dt_near _ H). lia.
Qed.
End Interval.

Lemma dt_zero f : dt_ns f 0 = Some 0.
Proof. unfold dt_ns, rnd. cbn [Qnum inject_Z Z.eqb]. unfold Qmult. cbn [Qnum]. by rewrite Z.mul_0_r. Qed.

(** A recalibration returns the reading of the system clock, whatever the clock
    returned before. *)
Lemma recalibration_reads_system r c :
  recal_cycles c <= u64 (current_cycle r - last_cycle c) ->
  get_timestamp r c =
  Some (u64 (system_now r), mkClock (recal_cycles c) (inv_f c) (cycle_again r) (u64 (system_now r))).
Proof.
  intros H. unfold get_timestamp. rewrite (proj2 (Z.leb_le _ _) H). cbn [inv_f last_epoch]. rewrite dt_zero. cbn.
  rewrite Z.add_0_r. by rewrite (u64_small (u64 _)) by apply u64_range.
Qed.

(** A counter that runs faster than configured makes the clock run ahead, and a
    recalibration sets it back: 3.6 GHz configured for six seconds, 3.7 GHz real. *)
Theorem recalibration_goes_back :
  (c ← new_clock 3600000000 6 0 1700000000000000000;
   fst <$> timestamps [mkReading 21590000000 0 0; mkReading 21700000000 21700000100 1700000005864864864] c) =
  Some [1700000005997222222; 1700000005864864864].
Proof. vm_compute. reflexivity. Qed.

(** Where [rdtsc] is not implemented it returns zero, and the clock stands still:
    all timestamps, and with them all order ids, are the time of the start. *)
Theorem stuck_counter_stops_clock rs c :
  Forall (fun r => current_cycle r = last_cycle c) rs -> 0 < recal_cycles c -> in_u64 (last_epoch c) ->
  timestamps rs c = Some (replicate (length rs) (last_epoch c), c).
Proof.
  intros Hr Hc He. induction Hr as [|r rs H _ IH]; [done|]. cbn [timestamps]. unfold get_timestamp.
  rewrite H, Z.sub_diag. change (u64 0) with 0. rewrite (proj2 (Z.leb_gt _ _)) by lia. rewrite dt_zero. cbn.
  rewrite Z.add_0_r, u64_small by done. by rewrite IH.
Qed.

(** ** Rounds of waiting *)

(** The counter of idle rounds of the trade engine never overflows: however
    many rounds without work there are, it stays between zero and its limit. *)
Theorem engine_rounds_bounded busy iter :
  0 <= iter <= kSpinIters -> exists iter', engine_rounds busy iter = Some iter' /\ 0 <= iter' <= kSpinIters.
Proof.
  revert iter. induction busy as [|b busy IH]; intros iter Hi; [by exists iter|]. destruct b; cbn [engine_rounds].
  - apply IH. unfold reset, kSpinIters. lia.
  - unfold kSpinIters in *. unfold idle_hot, succ_int, kSpinIters. rewrite (proj2 (Z.ltb_lt _ _)) by lia. cbn.
    apply IH. destruct (Z.ltb_spec 16000 (iter + 1)); lia.
Qed.

(** The one of the logger does, after 2^31 - 1 rounds without a message. *)
Theorem logger_rounds_overflow n :
  logger_rounds (replicate n false) 0 = if Z.of_nat n <? 2 ^ 31 then Some (Z.of_nat n) else None.
Proof.
  enough (H : forall iter, 0 <= iter < 2 ^ 31 ->
    logger_rounds (replicate n false) iter = if iter + Z.of_nat n <? 2 ^ 31 then Some (iter + Z.of_nat n) else None) by (by apply (H 0)).
  induction n as [|n IH]; intros iter Hi; cbn [replicate logger_rounds].
  - rewrite Z.add_0_r, (proj2 (Z.ltb_lt _ _)) by lia. done.
  - unfold idle, succ_int. destruct (Z.ltb_spec iter (2 ^ 31 - 1)); cbn [mbind option_bind].
    + rewrite IH by lia. by replace (iter + 1 + Z.of_nat n) with (iter + Z.of_nat (S n)) by lia.
    + rewrite (proj2 (Z.ltb_ge _ _)) by lia. done.
Qed.

(** ** A clock of 3.6 GHz *)

Definition demo_clock : FastClock := mkClock 21600000000 (rnd (kGhz / 3600000000)) 1000 1700000000000000000.
Definition demo_reading (cycle : Z) : Reading := mkReading cycle 0 0.

Lemma demo_inside cycle : 1000 <= cycle <= 10000000000 -> inside 3600000000 demo_clock cycle.
Proof.
  intros Hc. unfold inside. cbn [last_cycle recal_cycles demo_clock]. split; [lia|]. split; [lia|].
  unfold elapsed. change (kGhz / 3600000000)%Q with (1000000000 # 3600000000)%Q.
  change (inject_Z kExactRange) with 140737488355328%Q. unfold Qle. cbn [Qnum Qden Qmult inject_Z]. lia.
Qed.

Lemma timestamp_tracks_counter_witness :
  exists dt, get_timestamp (demo_reading 3600001000) demo_clock = Some (1700000000000000000 + dt, demo_clock) /\
    (elapsed 3600000000 3600000000 - (9 # 8) < inject_Z dt)%Q /\ (inject_Z dt <= elapsed 3600000000 3600000000 + (1 # 8))%Q.
Proof.
  apply (timestamp_tracks_counter 3600000000 ltac:(reflexivity) demo_clock ltac:(reflexivity) ltac:(cbn; lia) ltac:(cbn; lia)).
  apply demo_inside. cbn. lia.
Defined.

Lemma order_ids_distinct_witness : 1700000000000000000 < 1700000000000000010.
Proof.
  apply (order_ids_distinct 3600000000 ltac:(reflexivity) demo_clock ltac:(reflexivity) ltac:(cbn; lia) ltac:(cbn; lia)
    (demo_reading 1000) (demo_reading 1036) _ _ demo_clock demo_clock);
    [apply demo_inside; cbn; lia | apply demo_inside; cbn; lia | done | reflexivity | reflexivity].
Defined.

Lemma timestamps_sorted_witness :
  exists tss, timestamps (demo_reading <$> [1000; 1001; 5000]) demo_clock = Some (tss, demo_clock) /\
    StronglySorted Z.le (1700000000000000000 :: tss).
Proof.
  apply (timestamps_sorted 3600000000 ltac:(reflexivity) demo_clock ltac:(reflexivity) ltac:(cbn; lia) ltac:(cbn; lia)
    (demo_reading <$> [1000; 1001; 5000])).
  - repeat constructor; apply demo_inside; cbn; lia.
  - repeat constructor; cbn; lia.
Defined.

Lemma stuck_counter_stops_clock_witness :
  timestamps [demo_reading 1000; demo_reading 1000] demo_clock = Some (replicate 2 (last_epoch demo_clock), demo_clock).
Proof. apply (stuck_counter_stops_clock [demo_reading 1000; demo_reading 1000] demo_clock); [repeat constructor | done | done]. Defined.

Lemma engine_rounds_bounded_witness :
  exists iter', engine_rounds [false; true; false] 15999 = Some iter' /\ 0 <= iter' <= kSpinIters.
Proof. apply (engine_rounds_bounded [false; true; false] 15999). unfold kSpinIters. lia. Defined.

End Clock.
