(* ===== verification/DoubleTypes.v ===== *)
(** * Prices and quantities in doubles
      (src/hft/common/types.h: [Price], [Qty]; src/hft/common/fixed_point.hpp: the
       comparisons of [FixedPoint], with doubles and with each other)

    The program has two representations of prices and quantities, doubles and
    fixed-point integers, and compares them with each other.  The largest double
    marks an invalid value.

    The theorems: comparing a fixed-point value with the double of another is
    comparing the integers; sums and differences in doubles are those in fixed
    point. *)

From Stdlib Require Import QArith Qabs Lqa.
From S2P Require Import Prelude Types Binary64.

Module DoubleTypes.
Import Binary64.
Local Open Scope Z_scope.

(** [std::numeric_limits<double>::max()] *)
Definition double_max : Q := inject_Z ((2 ^ 53 - 1) * 2 ^ 971).

(** ** [Price] and [Qty] *)

(** Both are a [double value], invalid by default. *)
Record Price := mkPrice { p_value : Q }.
Record Qty := mkQty { q_value : Q }.

Definition kPriceInvalid : Q := double_max.
Definition kQtyInvalid : Q := double_max.
Definition Price_default : Price := mkPrice kPriceInvalid.
Definition Qty_default : Qty := mkQty kQtyInvalid.

Definition price_eq_double (p : Price) (other : Q) : bool := Qeq_bool (p_value p) other.
Definition price_ne_double (p : Price) (other : Q) : bool := negb (Qeq_bool (p_value p) other).
Definition price_lt (p other : Price) : bool := negb (Qle_bool (p_value other) (p_value p)).
Definition price_eq (p other : Price) : bool := Qeq_bool (p_value p) (p_value other).
Definition price_sub (p other : Price) : Price := mkPrice (rnd (p_value p - p_value other)).
Definition price_sub_double (p : Price) (other : Q) : Price := mkPrice (rnd (p_value p - other)).
Definition double_sub_price (lhs : Q) (rhs : Price) : Price := mkPrice (rnd (lhs - p_value rhs)).
Definition price_add (p other : Price) : Price := mkPrice (rnd (p_value p + p_value other)).
Definition price_add_double (p : Price) (other : Q) : Price := mkPrice (rnd (p_value p + other)).
Definition double_add_price (lhs : Q) (rhs : Price) : Price := mkPrice (rnd (lhs + p_value rhs)).
Definition price_is_valid (p : Price) : bool := negb (Qeq_bool (p_value p) double_max).

Definition qty_is_valid (q : Qty) : bool := negb (Qeq_bool (q_value q) double_max).
Definition qty_eq_double (q : Qty) (other : Q) : bool := Qeq_bool (q_value q) other.
Definition qty_lt (q other : Qty) : bool := negb (Qle_bool (q_value other) (q_value q)).
Definition qty_eq (q other : Qty) : bool := Qeq_bool (q_value q) (q_value other).
(** [operator+=], [operator-=] and [operator*=]; the binary operators use them. *)
Definition qty_add_assign (q : Qty) (other : Q) : Qty := mkQty (rnd (q_value q + other)).
Definition qty_sub_assign (q : Qty) (other : Q) : Qty := mkQty (rnd (q_value q - other)).
Definition qty_mul_assign (q : Qty) (other : Q) : Qty := mkQty (rnd (q_value q * other)).
Definition qty_neg (q : Qty) : Qty := mkQty (Qopp (q_value q)).
Definition qty_add (lhs rhs : Qty) : Qty := qty_add_assign lhs (q_value rhs).
Definition qty_add_double (lhs : Qty) (rhs : Q) : Qty := qty_add_assign lhs rhs.
Definition double_add_qty (lhs : Q) (rhs : Qty) : Qty := qty_add_assign rhs lhs.
Definition qty_sub (lhs rhs : Qty) : Qty := qty_sub_assign lhs (q_value rhs).
Definition qty_sub_double (lhs : Qty) (rhs : Q) : Qty := qty_sub_assign lhs rhs.
Definition double_sub_qty (lhs : Q) (rhs : Qty) : Qty := mkQty (rnd (lhs - q_value rhs)).
Definition qty_mul_double (lhs : Qty) (rhs : Q) : Qty := qty_mul_assign lhs rhs.
Definition double_mul_qty (lhs : Q) (rhs : Qty) : Qty := qty_mul_assign rhs lhs.

(** ** Comparisons of [FixedPoint] *)

Section Comparisons.
Variable scale : Z.

Definition fp_eq_double (value : Z) (other : Q) : bool :=
  if Qeq_bool other double_max then negb (is_valid value) else Qeq_bool (to_double scale value) other.
Definition fp_ne_double (value : Z) (other : Q) : bool := negb (fp_eq_double value other).
Definition fp_lt_double (value : Z) (other : Q) : bool := negb (Qle_bool other (to_double scale value)).
Definition fp_gt_double (value : Z) (other : Q) : bool := negb (Qle_bool (to_double scale value) other).

(** ** Doubles order values as the integers do *)

Hypothesis Hscale : 0 < scale.

Lemma to_double_mono v w : v <= w -> (to_double scale v <= to_double scale w)%Q.
Proof.
  intros H. unfold to_double. apply rnd_mono, Qmult_le_compat_r; [by apply rnd_mono; rewrite <-Zle_Qle|].
  apply Qinv_le_0_compat. change 0%Q with (inject_Z 0). rewrite <-Zle_Qle. lia.
Qed.

Lemma to_double_inj v w :
  Z.abs v <= kExactRange -> Z.abs w <= kExactRange -> (to_double scale v == to_double scale w)%Q -> v = w.
Proof.
  intros Hv Hw E.
  rewrite <-(from_double_stands scale (to_double scale v) v), <-(from_double_stands scale (to_double scale w) w)
    by (done || by apply to_double_near). by rewrite E.
Qed.

Lemma to_double_lt v w :
  Z.abs v <= kExactRange -> Z.abs w <= kExactRange -> (to_double scale v < to_double scale w)%Q <-> v < w.
Proof.
  intros Hv Hw. split; intros H.
  - apply Z.nle_gt. intros Hle. apply to_double_mono in Hle. by apply Qle_not_lt in Hle.
  - pose proof (to_double_mono v w ltac:(lia)) as [?|E]%Qle_lteq; [done|]. apply to_double_inj in E; [lia | done | done].
Qed.

(** A double far from the limits of the range is not the mark of an invalid value. *)
Lemma to_double_valid w : Z.abs w <= kExactRange -> ~ (to_double scale w == double_max)%Q.
Proof.
  intros Hw E. pose proof (to_double_near scale w Hscale Hw) as H. unfold stands_for in H. rewrite E in H.
  apply Qabs_Qle_condition in H as [_ H]. pose proof (range_q w Hw) as Hr. apply Qabs_Qle_condition in Hr as [_ Hr].
  assert (Hbig : (double_max <= double_max * inject_Z scale)%Q).
  { rewrite <-(Qmult_1_r double_max) at 1. unfold double_max. rewrite <-inject_Z_mult. change 1%Q with (inject_Z 1).
    rewrite <-inject_Z_mult, <-Zle_Qle. lia. }
  assert (Hm : (140737488355330 <= double_max)%Q) by (vm_compute; discriminate). lra.
Qed.

(** Comparing a fixed-point value with a double is comparing the values.  For
    values up to 2^47 units, the comparison with the double that stands for another
    value of the same scale gives what the comparison of the two integers gives. *)
Theorem compare_with_double_exact v w :
  Z.abs v <= kExactRange -> Z.abs w <= kExactRange ->
  fp_lt_double v (to_double scale w) = (v <? w) /\ fp_gt_double v (to_double scale w) = (w <? v) /\
  fp_eq_double v (to_double scale w) = (v =? w) /\ fp_ne_double v (to_double scale w) = negb (v =? w).
Proof.
  intros Hv Hw.
  assert (Hlt : forall a b, Z.abs a <= kExactRange -> Z.abs b <= kExactRange ->
    negb (Qle_bool (to_double scale b) (to_double scale a)) = (a <? b)).
  { intros a b Ha Hb. apply eq_bool_prop_intro. rewrite !Is_true_true, negb_true_iff, Z.ltb_lt, <-to_double_lt by done.
    split; [intros H; apply Qnot_le_lt; intros Hc; apply Qle_bool_iff in Hc; congruence|].
    intros H. apply not_true_is_false. intros Hc. apply Qle_bool_iff in Hc. by apply Qle_not_lt in Hc. }
  assert (Heq : fp_eq_double v (to_double scale w) = (v =? w)).
  { unfold fp_eq_double. destruct (Qeq_bool (to_double scale w) double_max) eqn:E; [apply Qeq_bool_iff in E; by apply to_double_valid in E|].
    apply eq_bool_prop_intro. rewrite !Is_true_true, Qeq_bool_iff, Z.eqb_eq. split; [by apply to_double_inj | intros ->; reflexivity]. }
  split_and!; [by apply Hlt | by apply Hlt | done | unfold fp_ne_double; by rewrite Heq].
Qed.

(** ** Arithmetic *)

Lemma sum_stands a b v w :
  Z.abs v <= kExactRange -> Z.abs w <= kExactRange -> Z.abs (v + w) <= kExactRange ->
  stands_for scale a v -> stands_for scale b w -> from_double scale (rnd (a + b)) = v + w.
Proof.
  intros Hv Hw Hs Ha Hb. apply from_double_near; [done | done|]. unfold stands_for in *. apply Qabs_Qle_condition in Ha, Hb.
  assert (Hsc : (0 < inject_Z scale)%Q) by (unfold Qlt, inject_Z; simpl; lia).
  pose proof (rnd_err (a + b)) as He. pose proof (range_q (v + w) Hs) as Hr. apply Qabs_Qle_condition in Hr.
  rewrite inject_Z_plus in *. set (x := (a + b)%Q) in *. set (S := inject_Z scale) in *.
  assert (Hx : (Qabs (x * S) <= 140737488355329)%Q) by (apply Qabs_Qle_condition; unfold x; split; nra).
  assert (E : (rnd x * S - (inject_Z v + inject_Z w) == (rnd x - x) * S + (x * S - (inject_Z v + inject_Z w)))%Q) by ring.
  rewrite E. eapply Qle_trans; [apply Qabs_triangle|].
  assert (H1 : (Qabs ((rnd x - x) * S) <= 1 # 16)%Q).
  { rewrite Qabs_Qmult, (Qabs_pos S) by lra. rewrite Qabs_Qmult, (Qabs_pos S) in Hx by lra. unfold ulp in He. nra. }
  assert (H2 : (Qabs (x * S - (inject_Z v + inject_Z w)) <= 1 # 8)%Q) by (apply Qabs_Qle_condition; unfold x; split; nra).
  lra.
Qed.

Lemma stands_opp a v : stands_for scale a v -> stands_for scale (- a) (- v).
Proof.
  unfold stands_for. intros H. assert (E : (- a * inject_Z scale - inject_Z (- v) == - (a * inject_Z scale - inject_Z v))%Q)
    by (rewrite inject_Z_opp; ring). by rewrite E, Qabs_opp.
Qed.

(** Sums and differences of doubles that stand for fixed-point values are the
    fixed-point sums and differences. *)
Theorem double_arithmetic_agrees (q1 q2 : Qty) v w :
  Z.abs v + Z.abs w <= kExactRange -> stands_for scale (q_value q1) v -> stands_for scale (q_value q2) w ->
  from_double scale (q_value (qty_add q1 q2)) = v + w /\ from_double scale (q_value (qty_sub q1 q2)) = v - w /\
  from_double scale (q_value (qty_neg q1)) = - v.
Proof.
  intros Hs H1 H2. unfold qty_add, qty_sub, qty_add_assign, qty_sub_assign, qty_neg. cbn [q_value].
  split_and!; [apply sum_stands; done || lia | | apply from_double_stands; [done | lia | by apply stands_opp]].
  apply (sum_stands _ _ v (- w)); [lia | lia | lia | done | by apply stands_opp].
Qed.

End Comparisons.

Lemma compare_with_double_exact_witness :
  fp_lt_double 1000000 2134567 (to_double 1000000 2134568) = true.
Proof.
  pose proof (compare_with_double_exact 1000000 ltac:(lia) 2134567 2134568) as H.
  unfold kExactRange in H. destruct H as [-> _]; [lia | lia | done].
Defined.

Lemma double_arithmetic_agrees_witness :
  let q1 := mkQty (to_double 1000 1) in let q2 := mkQty (to_double 1000 2) in
  from_double 1000 (q_value (qty_add q1 q2)) = 1 + 2 /\ from_double 1000 (q_value (qty_sub q1 q2)) = 1 - 2 /\
  from_double 1000 (q_value (qty_neg q1)) = - (1).
Proof.
  intros q1 q2. refine (double_arithmetic_agrees 1000 _ q1 q2 1 2 _ _ _); [lia | unfold kExactRange; lia | |];
    apply to_double_near; unfold kExactRange; lia.
Defined.

End DoubleTypes.
