(* ===== verification/SbeDecoder.v ===== *)
(** * Binary market data (src/hft/core/websocket/market_data/sbe_md_decoder.hpp and
      exchanges/binance/spot/binance_sbe_ops.h)

    The decoder of the binary spot stream: little-endian fields, repeating groups
    with a block length and a count, a symbol with a length byte.  A buffer is the
    list of its bytes; a read past its end is undefined and is [None].  Prices and
    quantities are doubles: mantissa times a power of ten, where [std::pow] is a
    parameter.

    The theorems: the depth decoders never read outside of the message, whatever
    its bytes; they decode what was encoded; the decoders of trades and of the
    best quotes read past the end of a message without its symbol. *)

From Stdlib Require Import QArith.
From S2P Require Import Prelude Types Binary64 Text.

Module Sbe.

Local Open Scope Z_scope.

Abbreviation Buf := (list Z).

(** ** Fields *)

(** The value of bytes in little-endian order, which is the order of the host. *)
Definition le_value (bytes : list Z) : Z := fold_right (fun b acc => b + 256 * acc) 0 bytes.

Definition i8 (x : Z) : Z := if x <? 128 then x else x - 256.

Definition take_bytes (n : nat) (pos : Buf) : option (list Z * Buf) :=
  if (n <=? length pos)%nat then Some (take n pos, drop n pos) else None.

Definition read_uint (n : nat) (pos : Buf) : option (Z * Buf) :=
  '(bytes, pos) ← take_bytes n pos; Some (le_value bytes, pos).

Definition read_int64 (pos : Buf) : option (Z * Buf) :=
  '(v, pos) ← read_uint 8 pos; Some (i64 v, pos).

Definition read_int8 (pos : Buf) : option (Z * Buf) :=
  '(v, pos) ← read_uint 1 pos; Some (i8 v, pos).

Record GroupSize := mkGroup { block_length : Z; num_in_group : Z }.

Definition kSizeOfGroupSize16 : Z := 4.
(** [sizeof] counts two bytes of padding; the header on the wire has six. *)
Definition kSizeOfGroupSize32 : Z := 8.

Definition parse_group_header16 (pos : Buf) : option (GroupSize * Buf) :=
  '(block, pos) ← read_uint 2 pos; '(num, pos) ← read_uint 2 pos; Some (mkGroup block num, pos).

Definition parse_group_header32 (pos : Buf) : option (GroupSize * Buf) :=
  '(block, pos) ← read_uint 2 pos; '(num, pos) ← read_uint 4 pos; Some (mkGroup block num, pos).

Definition parse_varString8 (pos : Buf) : option (list Z * Buf) :=
  '(len, pos) ← read_uint 1 pos; take_bytes (Z.to_nat len) pos.

Section Decoder.
(** [std::pow(10.0, exponent)] *)
Variable pow10f : Z -> Q.

Definition decode_mantissa (mantissa exponent : Z) : Q :=
  Binary64.rnd (Binary64.rnd (inject_Z mantissa) * pow10f exponent)%Q.

(** [decode_price_level] *)
Definition decode_price_level (price_exponent qty_exponent : Z) (pos : Buf) : option (Q * Q * Buf) :=
  '(price_mantissa, pos) ← read_int64 pos;
  '(qty_mantissa, pos) ← read_int64 pos;
  Some (decode_mantissa price_mantissa price_exponent, decode_mantissa qty_mantissa qty_exponent, pos).

(** The loop over the entries of a group: each starts a block after the other. *)
Fixpoint group_loop {A : Type} (entry : Buf -> option (A * Buf)) (block : nat) (num : nat) (pos : Buf) :
    option (list A * Buf) :=
  match num with
  | O => Some ([], pos)
  | S num' =>
      '(a, _) ← entry pos;
      '(_, next) ← take_bytes block pos;
      '(l, pos) ← group_loop entry block num' next;
      Some (a :: l, pos)
  end.

(** ** Messages *)

Record SbeDepthResponse := mkDepth {
  dr_event_time : Z;
  dr_first_book_update_id : Z;
  dr_last_book_update_id : Z;
  dr_symbol : list Z;
  dr_bids : list (Q * Q);
  dr_asks : list (Q * Q);
}.
Definition SbeDepthResponse_default : SbeDepthResponse := mkDepth 0 0 0 [] [] [].

Record SbeDepthSnapshot := mkSnap {
  ds_event_time : Z;
  ds_book_update_id : Z;
  ds_symbol : list Z;
  ds_bids : list (Q * Q);
  ds_asks : list (Q * Q);
}.
Definition SbeDepthSnapshot_default : SbeDepthSnapshot := mkSnap 0 0 [] [] [].

Record SbeTrade := mkSbeTrade { tr_id : Z; tr_price : Q; tr_qty : Q; tr_is_buyer_maker : bool; tr_is_best_match : bool }.

Record SbeTradeEvent := mkTradeEvent {
  te_event_time : Z;
  te_transact_time : Z;
  te_symbol : list Z;
  te_trades : list SbeTrade;
}.
Definition SbeTradeEvent_default : SbeTradeEvent := mkTradeEvent 0 0 [] [].

Record SbeBestBidAsk := mkBest {
  bb_event_time : Z;
  bb_book_update_id : Z;
  bb_symbol : list Z;
  bb_bid_price : Q;
  bb_bid_qty : Q;
  bb_ask_price : Q;
  bb_ask_qty : Q;
}.
Definition SbeBestBidAsk_default : SbeBestBidAsk := mkBest 0 0 [] 0 0 0 0.

Definition kLevelSize : Z := 16.
Definition kTradeEntrySize : Z := 25.

(** The two groups of levels and the symbol, which both depth messages end
    with; [remaining] is the size of the buffer from the start of the message.
    [Some None] is a message that the guards refuse. *)
Definition decode_levels_and_symbol (remaining price_exponent qty_exponent : Z) (pos : Buf) :
    option (option (list (Q * Q) * list (Q * Q) * list Z)) :=
  let consumed (pos : Buf) := remaining - zlen pos in
  let level := decode_price_level price_exponent qty_exponent in
  '(bids_group, pos) ← parse_group_header16 pos;
  let bids_total_size := block_length bids_group * num_in_group bids_group in
  if (block_length bids_group <? kLevelSize) ||
     (remaining <? consumed pos + bids_total_size + kSizeOfGroupSize16) then Some None
  else
    '(bids, pos) ← group_loop level (Z.to_nat (block_length bids_group)) (Z.to_nat (num_in_group bids_group)) pos;
    '(asks_group, pos) ← parse_group_header16 pos;
    let asks_total_size := block_length asks_group * num_in_group asks_group in
    if (block_length asks_group <? kLevelSize) || (remaining <? consumed pos + asks_total_size) then Some None
    else
      '(asks, pos) ← group_loop level (Z.to_nat (block_length asks_group)) (Z.to_nat (num_in_group asks_group)) pos;
      if remaining <? consumed pos + 1 then Some None
      else
        '(symbol_length, _) ← read_uint 1 pos;
        if remaining <? consumed pos + 1 + symbol_length then Some None
        else
          '(symbol, _) ← parse_varString8 pos;
          Some (Some (bids, asks, symbol)).

Definition decode_depth_diff (pos : Buf) : option SbeDepthResponse :=
  let remaining := zlen pos in
  if remaining <? 8 * 3 + 2 + kSizeOfGroupSize16 * 2 then Some SbeDepthResponse_default
  else
    '(event_time, pos) ← read_int64 pos;
    '(first_id, pos) ← read_int64 pos;
    '(last_id, pos) ← read_int64 pos;
    '(price_exponent, pos) ← read_int8 pos;
    '(qty_exponent, pos) ← read_int8 pos;
    rest ← decode_levels_and_symbol remaining price_exponent qty_exponent pos;
    Some match rest with
         | Some (bids, asks, symbol) => mkDepth event_time first_id last_id symbol bids asks
         | None => SbeDepthResponse_default
         end.

Definition decode_depth_snapshot (pos : Buf) : option SbeDepthSnapshot :=
  let remaining := zlen pos in
  if remaining <? 8 * 2 + 2 + kSizeOfGroupSize16 * 2 then Some SbeDepthSnapshot_default
  else
    '(event_time, pos) ← read_int64 pos;
    '(id, pos) ← read_int64 pos;
    '(price_exponent, pos) ← read_int8 pos;
    '(qty_exponent, pos) ← read_int8 pos;
    rest ← decode_levels_and_symbol remaining price_exponent qty_exponent pos;
    Some match rest with
         | Some (bids, asks, symbol) => mkSnap event_time id symbol bids asks
         | None => SbeDepthSnapshot_default
         end.

(** One entry of the group of trades. *)
Definition decode_trade (price_exponent qty_exponent : Z) (pos : Buf) : option (SbeTrade * Buf) :=
  '(id, pos) ← read_int64 pos;
  '(price_mantissa, pos) ← read_int64 pos;
  '(qty_mantissa, pos) ← read_int64 pos;
  '(is_buyer_maker, pos) ← read_uint 1 pos;
  Some (mkSbeTrade id (decode_mantissa price_mantissa price_exponent) (decode_mantissa qty_mantissa qty_exponent)
          (negb (is_buyer_maker =? 0)) true, pos).

Definition decode_trade_event (pos : Buf) : option SbeTradeEvent :=
  let remaining := zlen pos in
  let consumed (pos : Buf) := remaining - zlen pos in
  if remaining <? 8 * 2 + 2 + kSizeOfGroupSize32 then Some SbeTradeEvent_default
  else
    '(event_time, pos) ← read_int64 pos;
    '(transact_time, pos) ← read_int64 pos;
    '(price_exponent, pos) ← read_int8 pos;
    '(qty_exponent, pos) ← read_int8 pos;
    '(group_size, pos) ← parse_group_header32 pos;
    let trades_total_size := block_length group_size * num_in_group group_size in
    if (block_length group_size <? kTradeEntrySize) || (remaining <? consumed pos + trades_total_size)
    then Some SbeTradeEvent_default
    else
      '(trades, pos) ← group_loop (decode_trade price_exponent qty_exponent)
          (Z.to_nat (block_length group_size)) (Z.to_nat (num_in_group group_size)) pos;
      '(symbol, _) ← parse_varString8 pos;
      Some (mkTradeEvent event_time transact_time symbol trades).

Definition decode_best_bid_ask (pos : Buf) : option SbeBestBidAsk :=
  let remaining := zlen pos in
  if remaining <? 8 * 6 + 2 then Some SbeBestBidAsk_default
  else
    '(event_time, pos) ← read_int64 pos;
    '(id, pos) ← read_int64 pos;
    '(price_exponent, pos) ← read_int8 pos;
    '(qty_exponent, pos) ← read_int8 pos;
    '(bid_price, pos) ← read_int64 pos;
    '(bid_qty, pos) ← read_int64 pos;
    '(ask_price, pos) ← read_int64 pos;
    '(ask_qty, pos) ← read_int64 pos;
    '(symbol, _) ← parse_varString8 pos;
    Some (mkBest event_time id symbol
            (decode_mantissa bid_price price_exponent) (decode_mantissa bid_qty qty_exponent)
            (decode_mantissa ask_price price_exponent) (decode_mantissa ask_qty qty_exponent)).

Inductive WireMessage :=
| SbeMonostate
| SbeDepth (msg : SbeDepthResponse)
| SbeSnapshot (msg : SbeDepthSnapshot)
| SbeTrades (msg : SbeTradeEvent)
| SbeBest (msg : SbeBestBidAsk).

Definition kTradesStreamEventId : Z := 10000.
Definition kBestBidAskStreamEventId : Z := 10001.
Definition kDepthSnapshotStreamEventId : Z := 10002.
Definition kDepthDiffStreamEventId : Z := 10003.

(** [decode_impl]: the header is read without a look at the size. *)
Definition decode_impl (payload : Buf) : option WireMessage :=
  if bool_decide (payload = []) || bool_decide (payload = Text.codes "__CONNECTED__") then Some SbeMonostate
  else
    '(_, pos) ← read_uint 2 payload;
    '(template_id, pos) ← read_uint 2 pos;
    '(_, pos) ← read_uint 2 pos;
    '(_, pos) ← read_uint 2 pos;
    if template_id =? kTradesStreamEventId then SbeTrades <$> decode_trade_event pos
    else if template_id =? kBestBidAskStreamEventId then SbeBest <$> decode_best_bid_ask pos
    else if template_id =? kDepthSnapshotStreamEventId then SbeSnapshot <$> decode_depth_snapshot pos
    else if template_id =? kDepthDiffStreamEventId then SbeDepth <$> decode_depth_diff pos
    else Some SbeMonostate.

(** ** Reads stay in the buffer *)

Definition bytes (b : Buf) : Prop := Forall (fun x => 0 <= x < 256) b.

(** [f] consumes [n] bytes of any buffer that has them, and its result satisfies [P]. *)
Definition reads {A : Type} (n : Z) (P : A -> Prop) (f : Buf -> option (A * Buf)) : Prop :=
  forall pos, bytes pos -> n <= zlen pos ->
    exists a pos', f pos = Some (a, pos') /\ P a /\ bytes pos' /\ zlen pos' = zlen pos - n.

Lemma le_value_range b : bytes b -> 0 <= le_value b < 256 ^ zlen b.
Proof.
  induction 1 as [|x b Hx Hb IH]; [done|]. unfold zlen in *. cbn [le_value fold_right length].
  rewrite Nat2Z.inj_succ, Z.pow_succ_r by lia. fold (le_value b). lia.
Qed.

Lemma take_bytes_reads n : reads (Z.of_nat n) (fun b => bytes b /\ length b = n) (take_bytes n).
Proof.
  intros pos Hb Hn. unfold take_bytes, zlen in *. destruct (Nat.leb_spec n (length pos)); [|lia].
  eexists _, _. split; [done|]. rewrite length_take, length_drop. split_and!; [..|lia].
  - by apply Forall_take.
  - lia.
  - by apply Forall_drop.
Qed.

Lemma read_uint_reads n : reads (Z.of_nat n) (fun v => 0 <= v < 256 ^ Z.of_nat n) (read_uint n).
Proof.
  intros pos Hb Hn. destruct (take_bytes_reads n pos Hb Hn) as (b & pos' & E & [Hbb Hlen] & Hb' & Hl).
  unfold read_uint. rewrite E. eexists _, _. split; [done|]. split; [|done].
  pose proof (le_value_range b Hbb) as Hv. unfold zlen in Hv. by rewrite Hlen in Hv.
Qed.

Lemma reads_ret {A B : Type} n (P : A -> Prop) (f : Buf -> option (A * Buf)) (g : A -> B) :
  reads n P f -> reads n (fun b => exists a, P a /\ b = g a) (fun pos => '(a, pos) ← f pos; Some (g a, pos)).
Proof.
  intros Hf pos Hb Hn. destruct (Hf pos Hb Hn) as (a & pos' & E & HP & Hb' & Hl).
  exists (g a), pos'. rewrite E. cbn. eauto 10.
Qed.

Lemma reads_bind {A B : Type} n m (P : A -> Prop) (Q' : B -> Prop) (f : Buf -> option (A * Buf)) (g : A -> Buf -> option (B * Buf)) :
  0 <= n -> 0 <= m -> reads n P f -> (forall a, P a -> reads m Q' (g a)) ->
  reads (n + m) Q' (fun pos => '(a, pos) ← f pos; g a pos).
Proof.
  intros Hn0 Hm0 Hf Hg pos Hb Hn. destruct (Hf pos Hb) as (a & pos' & E & HP & Hb' & Hl); [lia|].
  destruct (Hg a HP pos' Hb') as (b & pos'' & E' & HQ & Hb'' & Hl'); [lia|].
  exists b, pos''. rewrite E. cbn. rewrite E'. split_and!; try done. lia.
Qed.

Lemma reads_weaken {A : Type} n (P Q' : A -> Prop) f : (forall a, P a -> Q' a) -> reads n P f -> reads n Q' f.
Proof. intros HPQ Hf pos Hb Hn. destruct (Hf pos Hb Hn) as (a & pos' & ? & ? & ? & ?). eauto 10. Qed.

Lemma read_int64_reads : reads 8 (fun _ => True) read_int64.
Proof. refine (reads_weaken 8 _ _ _ _ (reads_ret 8 _ _ i64 (read_uint_reads 8))). done. Qed.

Lemma read_int8_reads : reads 1 (fun _ => True) read_int8.
Proof. refine (reads_weaken 1 _ _ _ _ (reads_ret 1 _ _ i8 (read_uint_reads 1))). done. Qed.

Definition group_ok (max : Z) (g : GroupSize) : Prop := 0 <= block_length g < 65536 /\ 0 <= num_in_group g < max.

Lemma parse_group_header16_reads : reads 4 (group_ok 65536) parse_group_header16.
Proof.
  apply (reads_bind 2 2 (fun v => 0 <= v < 65536)); [lia..|apply (read_uint_reads 2)|]. intros block Hb.
  refine (reads_weaken 2 _ _ _ _ (reads_ret 2 _ _ (fun num => mkGroup block num) (read_uint_reads 2))).
  intros g (num & Hn & ->). by split.
Qed.

Lemma parse_group_header32_reads : reads 6 (group_ok 4294967296) parse_group_header32.
Proof.
  apply (reads_bind 2 4 (fun v => 0 <= v < 65536)); [lia..|apply (read_uint_reads 2)|]. intros block Hb.
  refine (reads_weaken 4 _ _ _ _ (reads_ret 4 _ _ (fun num => mkGroup block num) (read_uint_reads 4))).
  intros g (num & Hn & ->). by split.
Qed.

Lemma decode_price_level_reads pe qe : reads 16 (fun _ => True) (decode_price_level pe qe).
Proof.
  apply (reads_bind 8 8 (fun _ => True)); [lia..|apply read_int64_reads|]. intros pm _.
  refine (reads_weaken 8 _ _ _ _ (reads_ret 8 _ _ (fun qm => (decode_mantissa pm pe, decode_mantissa qm qe)) read_int64_reads)).
  done.
Qed.

Lemma decode_trade_reads pe qe : reads 25 (fun _ => True) (decode_trade pe qe).
Proof.
  apply (reads_bind 8 17 (fun _ => True)); [lia..|apply read_int64_reads|]. intros id _.
  apply (reads_bind 8 9 (fun _ => True)); [lia..|apply read_int64_reads|]. intros pm _.
  apply (reads_bind 8 1 (fun _ => True)); [lia..|apply read_int64_reads|]. intros qm _.
  refine (reads_weaken 1 _ _ _ _ (reads_ret 1 _ _ (fun m => mkSbeTrade id _ _ (negb (m =? 0)) true) (read_uint_reads 1))).
  done.
Qed.

Lemma group_loop_reads {A : Type} (entry : Buf -> option (A * Buf)) size block num :
  reads size (fun _ => True) entry -> 0 <= size <= block -> 0 <= num ->
  reads (block * num) (fun l => zlen l = num) (group_loop entry (Z.to_nat block) (Z.to_nat num)).
Proof.
  intros He Hs Hnum. destruct (Z_of_nat_complete num Hnum) as [n ->]. rewrite Nat2Z.id. clear Hnum.
  induction n as [|n IH]; intros pos Hb Hn.
  - exists [], pos. split_and!; try done. lia.
  - assert (0 <= block * Z.of_nat n) by nia. rewrite Nat2Z.inj_succ, Z.mul_succ_r in *.
    destruct (He pos Hb) as (a & p1 & E1 & _); [lia|].
    destruct (take_bytes_reads (Z.to_nat block) pos Hb) as (b & p2 & E2 & _ & Hb2 & Hl2); [lia|].
    destruct (IH p2 Hb2) as (l & p3 & E3 & Hl & Hb3 & Hl3); [lia|].
    exists (a :: l), p3. simpl. rewrite E1. cbn. rewrite E2. cbn. rewrite E3. cbn. unfold zlen in *. cbn [length].
    split_and!; auto; lia.
Qed.

Lemma parse_varString8_some pos :
  bytes pos -> 1 <= zlen pos ->
  exists len p, read_uint 1 pos = Some (len, p) /\ 0 <= len < 256 /\ zlen p = zlen pos - 1 /\
    (1 + len <= zlen pos -> is_Some (parse_varString8 pos)).
Proof.
  intros Hb Hn. destruct (read_uint_reads 1 pos Hb Hn) as (len & p & E & Hlen & Hbp & Hl).
  exists len, p. split_and!; [done|lia|lia|lia|]. intros Hle. unfold parse_varString8. rewrite E. cbn.
  destruct (take_bytes_reads (Z.to_nat len) p Hbp) as (s & p' & E' & _); [lia|]. by rewrite E'.
Qed.

(** The next reader of a chain, with what it leaves behind. *)
Ltac read_with lemma :=
  let a := fresh "a" in let p := fresh "p" in let E := fresh "E" in let Ha := fresh "Ha" in
  let Hb := fresh "Hb" in let Hl := fresh "Hl" in
  match goal with
  | [ H : bytes ?pos |- _ ] =>
      destruct (lemma pos H) as (a & p & E & Ha & Hb & Hl); [lia|]; rewrite E; cbn [mbind option_bind]; clear E H
  end.

Lemma decode_levels_and_symbol_some remaining pe qe pos :
  bytes pos -> 8 <= zlen pos -> zlen pos <= remaining -> is_Some (decode_levels_and_symbol remaining pe qe pos).
Proof.
  intros Hb Hn Hr. unfold decode_levels_and_symbol, kLevelSize, kSizeOfGroupSize16. cbv zeta.
  read_with parse_group_header16_reads. destruct a as [bb bn]. destruct Ha as [Hbb Hbn]. cbn [block_length num_in_group] in *.
  destruct (orb _ _) eqn:G1; [done|]. apply orb_false_iff in G1 as [G1 G1']. apply Z.ltb_ge in G1, G1'.
  read_with (group_loop_reads _ 16 bb bn (decode_price_level_reads pe qe) ltac:(lia) ltac:(lia)).
  read_with parse_group_header16_reads. destruct a0 as [ab an]. destruct Ha0 as [Hab Han]. cbn [block_length num_in_group] in *.
  destruct (orb _ _) eqn:G2; [done|]. apply orb_false_iff in G2 as [G2 G2']. apply Z.ltb_ge in G2, G2'.
  read_with (group_loop_reads _ 16 ab an (decode_price_level_reads pe qe) ltac:(lia) ltac:(lia)).
  destruct (Z.ltb_spec remaining (remaining - zlen p2 + 1)); [done|].
  destruct (parse_varString8_some p2) as (len & p3 & E & Hlen & Hl3 & Hs); [done|lia|]. rewrite E. cbn.
  destruct (Z.ltb_spec remaining (remaining - zlen p2 + 1 + len)); [done|].
  destruct Hs as [[s p4] ->]; [lia|]. done.
Qed.

Lemma depth_messages_in_bounds pos :
  bytes pos -> is_Some (decode_depth_diff pos) /\ is_Some (decode_depth_snapshot pos).
Proof.
  intros Hb. unfold decode_depth_diff, decode_depth_snapshot, kSizeOfGroupSize16. cbv zeta.
  split; (destruct (_ <? _) eqn:Hn; [done|]; apply Z.ltb_ge in Hn).
  - do 3 read_with read_int64_reads. do 2 read_with read_int8_reads.
    destruct (decode_levels_and_symbol_some (zlen pos) a2 a3 p3) as [r ->]; [done|lia..|]. by destruct r as [[[]]|].
  - do 2 read_with read_int64_reads. do 2 read_with read_int8_reads.
    destruct (decode_levels_and_symbol_some (zlen pos) a1 a2 p2) as [r ->]; [done|lia..|]. by destruct r as [[[]]|].
Qed.

Lemma zlen_drop (n : nat) (pos : Buf) : zlen (drop n pos) = Z.max 0 (zlen pos - Z.of_nat n).
Proof. unfold zlen. rewrite length_drop. lia. Qed.

Lemma read_uint_eq n pos : Z.of_nat n <= zlen pos -> read_uint n pos = Some (le_value (take n pos), drop n pos).
Proof. unfold read_uint, take_bytes, zlen. intros Hn. by destruct (Nat.leb_spec n (length pos)); [|lia]. Qed.

(** The template of a message: the second field of its header. *)
Definition template_of (payload : Buf) : Z := le_value (take 2 (drop 2 payload)).

(** What follows the header, once it is read. *)
Lemma decode_impl_body payload :
  bytes payload -> 8 <= zlen payload -> payload <> Text.codes "__CONNECTED__" ->
  exists pos, bytes pos /\ zlen pos = zlen payload - 8 /\
  decode_impl payload =
    (if template_of payload =? kTradesStreamEventId then SbeTrades <$> decode_trade_event pos
     else if template_of payload =? kBestBidAskStreamEventId then SbeBest <$> decode_best_bid_ask pos
     else if template_of payload =? kDepthSnapshotStreamEventId then SbeSnapshot <$> decode_depth_snapshot pos
     else if template_of payload =? kDepthDiffStreamEventId then SbeDepth <$> decode_depth_diff pos
     else Some SbeMonostate).
Proof.
  intros Hb Hn Hc. unfold decode_impl.
  rewrite !bool_decide_eq_false_2 by (done || by intros ->). cbn [orb].
  rewrite (read_uint_eq 2) by lia. cbn [mbind option_bind].
  rewrite (read_uint_eq 2) by (rewrite zlen_drop; lia). cbn [mbind option_bind]. fold (template_of payload).
  assert (Hb2 : bytes (drop 2 (drop 2 payload))) by (by do 2 apply Forall_drop).
  assert (zlen (drop 2 (drop 2 payload)) = zlen payload - 4) by (rewrite !zlen_drop; lia).
  do 2 read_with (read_uint_reads 2). exists p0. split; [done|]. split; [lia|done].
Qed.

Lemma decode_short_depth payload :
  bytes payload -> 8 <= zlen payload < 42 -> payload <> Text.codes "__CONNECTED__" ->
  template_of payload = kDepthDiffStreamEventId ->
  decode_impl payload = Some (SbeDepth SbeDepthResponse_default).
Proof.
  intros Hb Hz Hc Ht. destruct (decode_impl_body payload Hb) as (pos & _ & Hl & ->); [lia | done |].
  rewrite Ht. cbn -[decode_depth_diff]. unfold decode_depth_diff.
  by rewrite (proj2 (Z.ltb_lt _ _)) by (unfold kSizeOfGroupSize16; lia).
Qed.

(** C33: bounds.  Whatever bytes a message holds, the depth decoders read only
    inside of it: every read of the two groups, of the padding their block length
    announces and of the symbol is behind a guard.  A message on which the decoder
    reads past the end has no complete header or is a trade or best-quote
    message. *)
Theorem sbe_depth_no_overrun payload :
  bytes payload ->
  is_Some (decode_depth_diff payload) /\ is_Some (decode_depth_snapshot payload) /\
  (8 <= zlen payload -> template_of payload <> kTradesStreamEventId ->
   template_of payload <> kBestBidAskStreamEventId -> is_Some (decode_impl payload)).
Proof.
  intros Hb. destruct (depth_messages_in_bounds payload Hb) as [Hd Hs]. split_and!; [done..|].
  intros Hn Ht Hq. destruct (decide (payload = Text.codes "__CONNECTED__")) as [->|Hc]; [done|].
  destruct (decode_impl_body payload Hb Hn Hc) as (pos & Hbp & _ & ->).
  rewrite (proj2 (Z.eqb_neq _ _) Ht), (proj2 (Z.eqb_neq _ _) Hq).
  destruct (depth_messages_in_bounds pos Hbp) as [[d ->] [n ->]]. by repeat case_match.
Qed.

(** ** What was encoded is decoded *)

Fixpoint le_bytes (n : nat) (v : Z) : list Z :=
  match n with O => [] | S n' => v mod 256 :: le_bytes n' (v / 256) end.

Lemma length_le_bytes n v : length (le_bytes n v) = n.
Proof. revert v. induction n as [|n IH]; intros v; simpl; auto. Qed.

Lemma le_value_le_bytes n v : le_value (le_bytes n v) = v mod 256 ^ Z.of_nat n.
Proof.
  revert v. induction n as [|n IH]; intros v; [by rewrite Z.mod_1_r|].
  cbn [le_bytes le_value fold_right]. fold (le_value (le_bytes n (v / 256))). rewrite IH.
  rewrite Nat2Z.inj_succ, Z.pow_succ_r by lia. rewrite Z.rem_mul_r by lia. done.
Qed.

Lemma take_bytes_app b rest : take_bytes (length b) (b ++ rest) = Some (b, rest).
Proof.
  unfold take_bytes. rewrite length_app. destruct (Nat.leb_spec (length b) (length b + length rest)); [|lia].
  by rewrite take_app_length, drop_app_length.
Qed.

Lemma read_uint_le n v rest :
  read_uint n (le_bytes n v ++ rest) = Some (v mod 256 ^ Z.of_nat n, rest).
Proof.
  unfold read_uint. rewrite <-(length_le_bytes n v) at 1. rewrite take_bytes_app. cbn. by rewrite le_value_le_bytes.
Qed.

Lemma read_int64_le v rest : in_i64 v -> read_int64 (le_bytes 8 v ++ rest) = Some (v, rest).
Proof.
  intros Hv. unfold read_int64. rewrite read_uint_le. cbn [mbind option_bind]. do 2 f_equal.
  change (256 ^ Z.of_nat 8) with two64. unfold i64, in_i64, int64_min, int64_max, two63, two64 in *. zdiv.
Qed.

Lemma read_int8_le v rest : -128 <= v < 128 -> read_int8 (le_bytes 1 v ++ rest) = Some (v, rest).
Proof.
  intros Hv. unfold read_int8. rewrite read_uint_le. cbn [mbind option_bind]. do 2 f_equal.
  change (256 ^ Z.of_nat 1) with 256. unfold i8. destruct (Z.ltb_spec (v mod 256) 128); zdiv.
Qed.

(** A level on the wire: its mantissas and what the block has behind them. *)
Record WireLevel := mkWire { wl_price : Z; wl_qty : Z; wl_pad : list Z }.

Definition encode_level (l : WireLevel) : Buf := le_bytes 8 (wl_price l) ++ le_bytes 8 (wl_qty l) ++ wl_pad l.

Definition encode_group (block : Z) (levels : list WireLevel) : Buf :=
  le_bytes 2 block ++ le_bytes 2 (zlen levels) ++ concat (map encode_level levels).

Definition encode_varString8 (symbol : list Z) : Buf := zlen symbol :: symbol.

Definition encode_depth_diff (event_time first_id last_id pe qe : Z) (bb : Z) (bids : list WireLevel)
    (ab : Z) (asks : list WireLevel) (symbol : list Z) : Buf :=
  le_bytes 8 event_time ++ le_bytes 8 first_id ++ le_bytes 8 last_id ++ le_bytes 1 pe ++ le_bytes 1 qe ++
  encode_group bb bids ++ encode_group ab asks ++ encode_varString8 symbol.

Definition level_ok (block : Z) (l : WireLevel) : Prop :=
  in_i64 (wl_price l) /\ in_i64 (wl_qty l) /\ zlen (wl_pad l) = block - 16.

Definition group_fits (block : Z) (levels : list WireLevel) : Prop :=
  16 <= block < 65536 /\ zlen levels < 65536 /\ Forall (level_ok block) levels.

Definition level_value (pe qe : Z) (l : WireLevel) : Q * Q :=
  (decode_mantissa (wl_price l) pe, decode_mantissa (wl_qty l) qe).

Lemma zlen_encode_level block l : level_ok block l -> zlen (encode_level l) = block.
Proof. intros (_ & _ & Hp). unfold encode_level. rewrite !zlen_app. unfold zlen in *. rewrite !length_le_bytes. lia. Qed.

Lemma zlen_encode_levels block levels :
  Forall (level_ok block) levels -> zlen (concat (map encode_level levels)) = block * zlen levels.
Proof.
  induction 1 as [|l levels Hl Hls IH]; [unfold zlen; simpl; lia|]. cbn [map concat].
  rewrite zlen_app, IH, (zlen_encode_level block l Hl). unfold zlen. cbn [length]. lia.
Qed.

Lemma decode_price_level_encoded pe qe block l rest :
  level_ok block l ->
  decode_price_level pe qe (encode_level l ++ rest) = Some (level_value pe qe l, wl_pad l ++ rest).
Proof.
  intros (Hp & Hq & _). unfold decode_price_level, encode_level. rewrite <-!app_assoc.
  rewrite read_int64_le by done. cbn [mbind option_bind]. by rewrite read_int64_le by done.
Qed.

Lemma group_loop_encoded pe qe block levels rest :
  Forall (level_ok block) levels ->
  group_loop (decode_price_level pe qe) (Z.to_nat block) (Z.to_nat (zlen levels)) (concat (map encode_level levels) ++ rest)
  = Some (map (level_value pe qe) levels, rest).
Proof.
  unfold zlen. rewrite Nat2Z.id. induction 1 as [|l levels Hl Hls IH]; [done|].
  cbn [map concat length group_loop]. rewrite <-app_assoc.
  rewrite (decode_price_level_encoded pe qe block l) by done. cbn [mbind option_bind].
  assert (Z.to_nat block = length (encode_level l)) as ->
    by (pose proof (zlen_encode_level block l Hl) as Hz; unfold zlen in Hz; lia).
  rewrite take_bytes_app. cbn [mbind option_bind].
  assert (length (encode_level l) = Z.to_nat block) as ->
    by (pose proof (zlen_encode_level block l Hl) as Hz; unfold zlen in Hz; lia).
  by rewrite IH.
Qed.

Lemma parse_group_header16_encoded block levels rest :
  group_fits block levels ->
  parse_group_header16 (encode_group block levels ++ rest)
  = Some (mkGroup block (zlen levels), concat (map encode_level levels) ++ rest).
Proof.
  intros (Hb & Hn & _). unfold parse_group_header16, encode_group. rewrite <-!app_assoc.
  rewrite read_uint_le. cbn [mbind option_bind]. rewrite read_uint_le. cbn [mbind option_bind].
  pose proof (zlen_nonneg levels). by rewrite !Z.mod_small by (change (256 ^ Z.of_nat 2) with 65536; lia).
Qed.

Lemma zlen_encode_group block levels :
  group_fits block levels -> zlen (encode_group block levels) = 4 + block * zlen levels.
Proof.
  intros (_ & _ & Hl). unfold encode_group. rewrite !zlen_app, (zlen_encode_levels block) by done.
  unfold zlen at 1 2. rewrite !length_le_bytes. lia.
Qed.

Lemma parse_varString8_encoded symbol rest :
  zlen symbol < 256 ->
  read_uint 1 (encode_varString8 symbol ++ rest) = Some (zlen symbol, symbol ++ rest) /\
  parse_varString8 (encode_varString8 symbol ++ rest) = Some (symbol, rest).
Proof.
  intros Hs. pose proof (zlen_nonneg symbol).
  assert (E : read_uint 1 (encode_varString8 symbol ++ rest) = Some (zlen symbol, symbol ++ rest)).
  { rewrite read_uint_eq by (unfold encode_varString8, zlen; cbn; lia). cbn. by rewrite Z.add_0_r. }
  split; [done|]. unfold parse_varString8. rewrite E. cbn [mbind option_bind]. unfold zlen. rewrite Nat2Z.id.
  apply take_bytes_app.
Qed.

Lemma guard_passes block remaining need :
  16 <= block -> need <= remaining -> (block <? 16) || (remaining <? need) = false.
Proof. intros. apply orb_false_iff. rewrite !Z.ltb_ge. lia. Qed.

Lemma decode_levels_and_symbol_encoded remaining pe qe bb bids ab asks symbol rest :
  group_fits bb bids -> group_fits ab asks -> zlen symbol < 256 ->
  zlen (encode_group bb bids ++ encode_group ab asks ++ encode_varString8 symbol ++ rest) <= remaining ->
  decode_levels_and_symbol remaining pe qe
    (encode_group bb bids ++ encode_group ab asks ++ encode_varString8 symbol ++ rest)
  = Some (Some (map (level_value pe qe) bids, map (level_value pe qe) asks, symbol)).
Proof.
  intros Hb Ha Hs Hr. unfold decode_levels_and_symbol, kLevelSize, kSizeOfGroupSize16. cbv zeta.
  pose proof (zlen_nonneg rest). pose proof (zlen_nonneg symbol).
  destruct (parse_varString8_encoded symbol rest Hs) as [E1 E2].
  assert (Hv : zlen (encode_varString8 symbol) = 1 + zlen symbol) by (unfold encode_varString8, zlen; cbn; lia).
  rewrite !zlen_app, !zlen_encode_group in Hr by done.
  rewrite (parse_group_header16_encoded bb) by done. cbn [mbind option_bind block_length num_in_group].
  rewrite !zlen_app, (zlen_encode_levels bb), (zlen_encode_group ab) by (done || apply Hb).
  assert (0 <= ab * zlen asks) by (pose proof (zlen_nonneg asks); destruct Ha; nia).
  rewrite guard_passes by (try apply Hb; lia).
  rewrite group_loop_encoded by apply Hb. cbn [mbind option_bind].
  rewrite (parse_group_header16_encoded ab) by done. cbn [mbind option_bind block_length num_in_group].
  rewrite !zlen_app, (zlen_encode_levels ab) by apply Ha.
  rewrite guard_passes by (try apply Ha; lia).
  rewrite group_loop_encoded by apply Ha. cbn [mbind option_bind]. rewrite !zlen_app.
  destruct (Z.ltb_spec remaining (remaining - (zlen (encode_varString8 symbol) + zlen rest) + 1)); [lia|].
  rewrite E1. cbn [mbind option_bind].
  destruct (Z.ltb_spec remaining (remaining - (zlen (encode_varString8 symbol) + zlen rest) + 1 + zlen symbol)); [lia|].
  rewrite E2. done.
Qed.

(** Round trip.  The decoder of a depth update gives back what was encoded:
    the times and ids, every level of both groups in order (whatever the blocks
    carry behind the two mantissas), the symbol, and nothing of what follows. *)
Theorem sbe_depth_roundtrip et f l pe qe bb bids ab asks symbol rest :
  in_i64 et -> in_i64 f -> in_i64 l -> -128 <= pe < 128 -> -128 <= qe < 128 ->
  group_fits bb bids -> group_fits ab asks -> zlen symbol < 256 ->
  decode_depth_diff (encode_depth_diff et f l pe qe bb bids ab asks symbol ++ rest)
  = Some (mkDepth et f l symbol (map (level_value pe qe) bids) (map (level_value pe qe) asks)).
Proof.
  intros Het Hf Hl Hpe Hqe Hb Ha Hs. unfold decode_depth_diff, kSizeOfGroupSize16. cbv zeta.
  set (buf := encode_depth_diff _ _ _ _ _ _ _ _ _ _ ++ rest).
  set (tail := encode_group bb bids ++ encode_group ab asks ++ encode_varString8 symbol ++ rest).
  assert (Hbuf : buf = le_bytes 8 et ++ le_bytes 8 f ++ le_bytes 8 l ++ le_bytes 1 pe ++ le_bytes 1 qe ++ tail)
    by (unfold buf, encode_depth_diff, tail; by rewrite <-!app_assoc).
  assert (Htail : 8 <= zlen tail).
  { unfold tail. rewrite !zlen_app, !zlen_encode_group by done. pose proof (zlen_nonneg rest).
    pose proof (zlen_nonneg bids). pose proof (zlen_nonneg asks). pose proof (zlen_nonneg (encode_varString8 symbol)).
    destruct Hb, Ha. nia. }
  assert (Hz : zlen buf = 26 + zlen tail)
    by (rewrite Hbuf, !zlen_app; unfold zlen; rewrite !length_le_bytes; lia).
  rewrite Hz. destruct (Z.ltb_spec (26 + zlen tail) (8 * 3 + 2 + 4 * 2)); [lia|]. rewrite Hbuf.
  do 3 (rewrite read_int64_le by done; cbn [mbind option_bind]).
  do 2 (rewrite read_int8_le by done; cbn [mbind option_bind]).
  unfold tail. rewrite decode_levels_and_symbol_encoded; try done. fold tail. lia.
Qed.

(** ** The symbols without a guard *)

Lemma parse_varString8_overrun pos :
  bytes pos -> (parse_varString8 pos = None <-> zlen pos < 1 + zget pos 0).
Proof.
  intros Hb. destruct pos as [|x pos]; [by split|]. unfold parse_varString8.
  rewrite read_uint_eq by (unfold zlen; simpl; lia). apply Forall_cons in Hb as [Hx Hb].
  assert (zget (x :: pos) 0 = x) as -> by done. cbn -[take_bytes Z.to_nat]. rewrite Z.add_0_r, drop_0.
  unfold take_bytes, zlen. cbn [length]. destruct (Nat.leb_spec (Z.to_nat x) (length pos)); split; intros; first [done | exfalso; lia | lia].
Qed.

Lemma read_int64_eq pos : 8 <= zlen pos -> read_int64 pos = Some (i64 (le_value (take 8 pos)), drop 8 pos).
Proof. intros Hn. unfold read_int64. by rewrite read_uint_eq. Qed.

Lemma read_int8_eq pos : 1 <= zlen pos -> read_int8 pos = Some (i8 (le_value (take 1 pos)), drop 1 pos).
Proof. intros Hn. unfold read_int8. by rewrite read_uint_eq. Qed.

Lemma zget_drop n (pos : Buf) : zget (drop n pos) 0 = zget pos (Z.of_nat n).
Proof.
  unfold zget. rewrite lookup_drop. change (Z.to_nat 0) with O. rewrite Nat2Z.id, Nat.add_0_r.
  by rewrite !bool_decide_true by lia.
Qed.

Definition trades_block (pos : Buf) : Z := le_value (take 2 (drop 18 pos)).
Definition trades_num (pos : Buf) : Z := le_value (take 4 (drop 20 pos)).

(** Error.  The decoders of trades and of the best quotes have no guard for
    the symbol at their end.  A best-quote message is read past its end exactly
    when its fixed fields are there and its symbol is not, and a trade message
    whose bytes end with the last trade of its group always is. *)
Theorem sbe_symbol_unguarded pos :
  bytes pos ->
  (decode_best_bid_ask pos = None <-> 50 <= zlen pos < 51 + zget pos 50) /\
  (26 <= zlen pos -> kTradeEntrySize <= trades_block pos ->
   zlen pos = 24 + trades_block pos * trades_num pos -> decode_trade_event pos = None).
Proof.
  intros Hb. split.
  - unfold decode_best_bid_ask. cbv zeta. destruct (_ <? _) eqn:G; [apply Z.ltb_lt in G; split; [done|lia]|].
    apply Z.ltb_ge in G.
    do 2 (rewrite read_int64_eq by (rewrite ?zlen_drop; lia); cbn [mbind option_bind]).
    do 2 (rewrite read_int8_eq by (rewrite ?zlen_drop; lia); cbn [mbind option_bind]).
    do 4 (rewrite read_int64_eq by (rewrite ?zlen_drop; lia); cbn [mbind option_bind]).
    rewrite !drop_drop. cbn [Nat.add].
    assert (Hb' : bytes (drop 50 pos)) by (by apply Forall_drop).
    pose proof (parse_varString8_overrun _ Hb') as Hp. rewrite zlen_drop, zget_drop in Hp. change (Z.of_nat 50) with 50 in Hp.
    destruct (parse_varString8 (drop 50 pos)) as [[]|]; cbn [mbind option_bind]; split; intros Hx; try done.
    + destruct Hp as [_ Hp]. by discriminate Hp; lia.
    + destruct Hp as [Hp _]. specialize (Hp eq_refl). lia.
  - intros Hn Hk Hz. unfold decode_trade_event, kTradeEntrySize, kSizeOfGroupSize32 in *. cbv zeta.
    destruct (_ <? _) eqn:G; [apply Z.ltb_lt in G; lia|]. clear G.
    do 2 (rewrite read_int64_eq by (rewrite ?zlen_drop; lia); cbn [mbind option_bind]).
    do 2 (rewrite read_int8_eq by (rewrite ?zlen_drop; lia); cbn [mbind option_bind]).
    unfold parse_group_header32.
    do 2 (rewrite read_uint_eq by (rewrite ?zlen_drop; lia); cbn [mbind option_bind]).
    rewrite !drop_drop. cbn [Nat.add block_length num_in_group]. fold (trades_block pos) (trades_num pos).
    rewrite zlen_drop. destruct (orb _ _) eqn:G; [apply orb_true_iff in G; rewrite !Z.ltb_lt in G; lia|]. clear G.
    assert (Hb' : bytes (drop 24 pos)) by (by apply Forall_drop).
    assert (0 <= trades_num pos) by (apply le_value_range, Forall_take, Forall_drop; done).
    assert (Hz' : zlen (drop 24 pos) = trades_block pos * trades_num pos) by (rewrite zlen_drop; lia).
    match goal with |- context [group_loop (decode_trade ?pe ?qe)] =>
      read_with (group_loop_reads _ 25 (trades_block pos) (trades_num pos) (decode_trade_reads pe qe) ltac:(lia) ltac:(lia)) end.
    assert (p = []) as -> by (destruct p; [done|unfold zlen in *; simpl in *; lia]). done.
Qed.

End Decoder.

(** ** Witnesses *)

Definition demo_pow10 (e : Z) : Q := Qpower 10 e.

Lemma sbe_depth_no_overrun_witness :
  is_Some (decode_depth_diff demo_pow10 (replicate 60 255)) /\ is_Some (decode_depth_snapshot demo_pow10 (replicate 60 255)).
Proof.
  destruct (sbe_depth_no_overrun demo_pow10 (replicate 60 255)) as (H1 & H2 & _); [|by split].
  by apply Forall_replicate.
Defined.

Definition demo_bids : list WireLevel := [mkWire 500125 4 [7; 8]; mkWire 500075 20 [0; 0]].

Lemma sbe_depth_roundtrip_witness :
  decode_depth_diff demo_pow10 (encode_depth_diff 1700000000 102 105 (-2) (-1) 18 demo_bids 16 [] (Text.codes "BTCUSDT") ++ [9])
  = Some (mkDepth 1700000000 102 105 (Text.codes "BTCUSDT") (map (level_value demo_pow10 (-2) (-1)) demo_bids) []).
Proof.
  apply (sbe_depth_roundtrip demo_pow10 1700000000 102 105 (-2) (-1) 18 demo_bids 16 []);
    [done.. | | | done]; split_and!; try done; repeat constructor; done.
Defined.

Lemma sbe_symbol_unguarded_witness : decode_best_bid_ask demo_pow10 (replicate 50 0) = None.
Proof.
  apply (sbe_symbol_unguarded demo_pow10 (replicate 50 0)); [by apply Forall_replicate | by vm_compute].
Defined.

End Sbe.
