(* ===== verification/PositionKeeper.v ===== *)
(** * Positions and profit (src/hft/src/position_keeper.{h,cpp})

    [PositionInfo] with [add_fill] and [update_bbo], and the keeper's map from
    ticker to position.  [unordered] map lookups that throw are [None].  The
    theorems say that the position is the sum of the signed fills, that the
    realised profit is the cash flow of the fills up to the truncation of the
    average price, and what the two profit sources give in hedge mode. *)

From S2P Require Import Prelude Types.

Module PositionKeeper.

Record PositionInfo := mkPos {
  position_ : Z;
  long_position_raw_ : Z;
  short_position_raw_ : Z;
  long_cost_ : Z;
  short_cost_ : Z;
  long_real_pnl_ : Z;
  long_unreal_pnl_ : Z;
  short_real_pnl_ : Z;
  short_unreal_pnl_ : Z;
  real_pnl_ : Z;
  unreal_pnl_ : Z;
  total_pnl_ : Z;
  open_vwap_ : list Z;
  volume_ : Z;
  bbo_ : option BBO;
}.

Definition PositionInfo_default : PositionInfo :=
  mkPos 0 0 0 0 0 0 0 0 0 0 0 0 [0; 0] 0 None.

(** The long (or short) leg that a fill with a position side updates: raw
    position, cost and realised profit.  [opening] says whether the fill opens
    the leg; [dir] is 1 for the long leg and -1 for the short one. *)
Definition leg_fill (opening : bool) (dir price last_qty : Z) (leg : Z * Z * Z) : Z * Z * Z :=
  let '(raw, cost, real) := leg in
  if opening then (raw + last_qty, cost + price * last_qty, real)
  else
    let close_qty := Z.min last_qty raw in
    let '(cost1, real1) :=
      if (0 <? raw) && (0 <? close_qty) then
        let vwap := Z.quot cost raw in
        (cost - vwap * close_qty, real + (price - vwap) * dir * close_qty)
      else (cost, real) in
    let raw1 := raw - last_qty in
    if raw1 <? 0 then (0, 0, real1) else (raw1, cost1, real1).

(** Unrealised profit of a leg at [price]. *)
Definition leg_unreal (dir price raw cost : Z) : Z :=
  if 0 <? raw then (price - Z.quot cost raw) * dir * raw else 0.

(** The net position: [open_vwap_] and the realised profit of the fill. *)
Definition net_fill (old_position position idx sgn price last_qty : Z) (open_vwap : list Z)
    : list Z * Z :=
  let opp_side_index := oppIndex idx in
  if 0 <=? old_position * sgn then
    (zset open_vwap idx (zget open_vwap idx + price * last_qty), 0)
  else
    let opp_side_vwap := Z.quot (zget open_vwap opp_side_index) (Z.abs old_position) in
    let open1 := zset open_vwap opp_side_index (opp_side_vwap * Z.abs position) in
    let net_real_pnl_delta := Z.min last_qty (Z.abs old_position) * (opp_side_vwap - price) * sgn in
    if position * old_position <? 0
    then (zset (zset open1 idx (price * Z.abs position)) opp_side_index 0, net_real_pnl_delta)
    else (open1, net_real_pnl_delta).

(** Unrealised profit of the net position at [price]. *)
Definition net_unreal (position price : Z) (open_vwap : list Z) : Z :=
  if 0 <? position then price * Z.abs position - zget open_vwap (sideToIndex kBuy)
  else zget open_vwap (sideToIndex kSell) - price * Z.abs position.

(** [PositionInfo::add_fill(report)] *)
Definition add_fill (report : ExecutionReport) (p : PositionInfo) : PositionInfo :=
  let old_position := position_ p in
  let idx := sideToIndex (er_side report) in
  let sgn := sideToValue (er_side report) in
  let last_qty := last_qty report in
  let price := er_price report in
  let position := old_position + last_qty * sgn in
  let long :=
    let leg := (long_position_raw_ p, long_cost_ p, long_real_pnl_ p) in
    if bool_decide (er_position_side report = Some kLong)
    then leg_fill (bool_decide (er_side report = kBuy)) 1 price last_qty leg else leg in
  let short :=
    let leg := (short_position_raw_ p, short_cost_ p, short_real_pnl_ p) in
    if bool_decide (er_position_side report = Some kShort)
    then leg_fill (bool_decide (er_side report = kSell)) (-1) price last_qty leg else leg in
  let '(long_raw, long_cost, long_real) := long in
  let '(short_raw, short_cost, short_real) := short in
  let '(open1, net_real_pnl_delta) :=
    net_fill old_position position idx sgn price last_qty (open_vwap_ p) in
  let '(open2, unreal) :=
    if position =? 0 then (zset (zset open1 1 0) 0 0, 0)
    else (open1, net_unreal position price open1) in
  let real :=
    match er_position_side report with
    | Some _ => long_real + short_real
    | None => real_pnl_ p + net_real_pnl_delta
    end in
  mkPos position long_raw short_raw long_cost short_cost
    long_real (leg_unreal 1 price long_raw long_cost)
    short_real (leg_unreal (-1) price short_raw short_cost)
    real unreal (unreal + real) open2 (volume_ p + last_qty) (bbo_ p).

(** [PositionInfo::update_bbo(bbo)] *)
Definition update_bbo (b : BBO) (p : PositionInfo) : PositionInfo :=
  if (bid_price b <=? 0) || (ask_price b <=? 0) then
    mkPos (position_ p) (long_position_raw_ p) (short_position_raw_ p) (long_cost_ p)
      (short_cost_ p) (long_real_pnl_ p) (long_unreal_pnl_ p) (short_real_pnl_ p)
      (short_unreal_pnl_ p) (real_pnl_ p) (unreal_pnl_ p) (total_pnl_ p) (open_vwap_ p)
      (volume_ p) (Some b)
  else
    let mid_price := Z.quot (bid_price b + ask_price b) 2 in
    let unreal :=
      if position_ p =? 0 then unreal_pnl_ p
      else net_unreal (position_ p) mid_price (open_vwap_ p) in
    mkPos (position_ p) (long_position_raw_ p) (short_position_raw_ p) (long_cost_ p)
      (short_cost_ p) (long_real_pnl_ p)
      (leg_unreal 1 mid_price (long_position_raw_ p) (long_cost_ p))
      (short_real_pnl_ p)
      (leg_unreal (-1) mid_price (short_position_raw_ p) (short_cost_ p))
      (real_pnl_ p) unreal (unreal + real_pnl_ p) (open_vwap_ p) (volume_ p) (Some b).

(** ** The keeper *)

Definition Keeper := gmap string PositionInfo.

(** The constructor: one entry, for the configured ticker. *)
Definition new_keeper (ticker : string) : Keeper := {[ ticker := PositionInfo_default ]}.

(** [get_position_info(ticker_id)]: [at] throws on an unknown ticker. *)
Definition get_position_info (ticker_id : string) (k : Keeper) : option PositionInfo := k !! ticker_id.

Definition keeper_add_fill (report : ExecutionReport) (k : Keeper) : option Keeper :=
  p ← k !! symbol report; Some (<[symbol report := add_fill report p]> k).

Definition keeper_update_bbo (ticker_id : string) (b : BBO) (k : Keeper) : option Keeper :=
  p ← k !! ticker_id; Some (<[ticker_id := update_bbo b p]> k).

(** ** Position and volume *)

Lemma add_fill_position report p :
  position_ (add_fill report p) = position_ p + last_qty report * sideToValue (er_side report) /\
  volume_ (add_fill report p) = volume_ p + last_qty report.
Proof.
  unfold add_fill. destruct (if bool_decide (er_position_side report = Some kLong) then _ else _) as [[? ?] ?],
    (if bool_decide (er_position_side report = Some kShort) then _ else _) as [[? ?] ?],
    (net_fill _ _ _ _ _ _ _) as [? ?].
  by destruct (_ =? 0).
Qed.

Definition signed_qty (r : ExecutionReport) : Z := last_qty r * sideToValue (er_side r).

(** After any sequence of fills (with or without a position side) the net
    position is the sum of the signed quantities and the volume the sum of the
    quantities. *)
Theorem position_is_sum_of_fills reports p :
  let p' := fold_left (fun p r => add_fill r p) reports p in
  position_ p' = position_ p + zsum (signed_qty <$> reports) /\
  volume_ p' = volume_ p + zsum (last_qty <$> reports).
Proof.
  revert p. induction reports as [|r reports IH]; intros p.
  - cbn. lia.
  - cbn [fold_left]. destruct (IH (add_fill r p)) as [-> ->].
    destruct (add_fill_position r p) as [-> ->].
    change (signed_qty <$> r :: reports) with (signed_qty r :: (signed_qty <$> reports)).
    change (last_qty <$> r :: reports) with (last_qty r :: (last_qty <$> reports)).
    cbn [zsum foldr]. unfold zsum, signed_qty at 2. lia.
Qed.

(** ** Profit of the net position *)

(** The book value: realised profit less the cost of the open position. *)
Definition book_value (p : PositionInfo) : Z :=
  real_pnl_ p - zget (open_vwap_ p) 0 + zget (open_vwap_ p) 1.

(** Only the side of the open position carries a cost. *)
Record net_ok (p : PositionInfo) : Prop := {
  nk_len : zlen (open_vwap_ p) = 2;
  nk_long : position_ p <= 0 -> zget (open_vwap_ p) 0 = 0;
  nk_short : 0 <= position_ p -> zget (open_vwap_ p) 1 = 0;
  nk_pos : 0 <= zget (open_vwap_ p) 0 /\ 0 <= zget (open_vwap_ p) 1;
}.

(** A spot fill: a positive quantity at a positive price, no position side. *)
Definition net_report (r : ExecutionReport) : Prop :=
  (er_side r = kBuy \/ er_side r = kSell) /\ 0 < last_qty r /\ 0 < er_price r /\
  er_position_side r = None.

Definition cash (r : ExecutionReport) : Z := - (er_price r * signed_qty r).

(** What a reducing fill loses to the truncated average price. *)
Definition rounding (r : ExecutionReport) (p : PositionInfo) : Z :=
  if 0 <=? position_ p * sideToValue (er_side r) then 0
  else if 0 <? position_ p then Z.rem (zget (open_vwap_ p) 0) (position_ p)
  else - Z.rem (zget (open_vwap_ p) 1) (- position_ p).

Lemma rounding_bound r p : net_ok p -> Z.abs (rounding r p) <= Z.abs (position_ p).
Proof.
  intros [_ _ _ [H0 H1]]. unfold rounding. destruct (Z.leb_spec 0 (position_ p * sideToValue (er_side r))); [lia|].
  destruct (Z.ltb_spec 0 (position_ p)).
  - pose proof (Z.rem_bound_pos (zget (open_vwap_ p) 0) (position_ p)). lia.
  - destruct (decide (position_ p = 0)) as [E|]; [rewrite E in *; lia|].
    pose proof (Z.rem_bound_pos (zget (open_vwap_ p) 1) (- position_ p)). lia.
Qed.

(** The net part of [add_fill] on a two-element [open_vwap_]. *)
Lemma add_fill_net r p a b :
  net_report r -> open_vwap_ p = [a; b] ->
  let pos := position_ p + signed_qty r in
  let '(open1, delta) := net_fill (position_ p) pos (sideToIndex (er_side r))
                           (sideToValue (er_side r)) (er_price r) (last_qty r) [a; b] in
  open_vwap_ (add_fill r p) = (if pos =? 0 then zset (zset open1 1 0) 0 0 else open1) /\
  real_pnl_ (add_fill r p) = real_pnl_ p + delta /\ position_ (add_fill r p) = pos.
Proof.
  intros (Hs & Hq & Hpr & Hn) Ho pos. unfold add_fill. rewrite Hn, Ho.
  rewrite !bool_decide_false by done.
  change (position_ p + last_qty r * sideToValue (er_side r)) with pos.
  destruct (net_fill _ _ _ _ _ _ _) as [open1 delta]. by destruct (pos =? 0).
Qed.

(** The side that a reducing fill reduces, as [open_vwap_] entries: closed
    forms of [net_fill] for a buy; a sell is its mirror image. *)
Lemma net_fill_buy old q price a b :
  0 < q -> 0 < price -> (0 <= old -> b = 0) -> (old <= 0 -> a = 0) -> 0 <= a -> 0 <= b ->
  let pos := old + q in
  let '(open1, delta) := net_fill old pos 0 1 price q [a; b] in
  exists a' b', (if pos =? 0 then zset (zset open1 1 0) 0 0 else open1) = [a'; b'] /\
    (pos <= 0 -> a' = 0) /\ (0 <= pos -> b' = 0) /\ 0 <= a' /\ 0 <= b' /\
    delta - a' + b' = - a + b - price * q + (if 0 <=? old then 0 else - Z.rem b (- old)).
Proof.
  intros Hq Hp Hb Ha Ha0 Hb0 pos. unfold net_fill. change (oppIndex 0) with 1.
  change (zget [a; b] 1) with b. change (zget [a; b] 0) with a.
  replace (old * 1) with old by lia. destruct (Z.leb_spec 0 old) as [Ho|Ho].
  - exists (a + price * q), b. subst pos. rewrite (proj2 (Z.eqb_neq (old + q) 0)) by lia.
    split; [done|]. split_and!; try nia.
  - rewrite Z.abs_neq by lia. pose proof (Z.quot_rem' b (- old)) as Hqr.
    assert (Hv : 0 <= Z.quot b (- old)) by (apply Z.quot_pos; lia).
    set (v := Z.quot b (- old)) in *. set (rem := Z.rem b (- old)) in *.
    assert (a = 0) as -> by lia. destruct (Z.ltb_spec (pos * old) 0) as [Hflip|Hflip].
    + assert (0 < pos) by nia. exists (price * pos), 0.
      rewrite (proj2 (Z.eqb_neq pos 0)), Z.abs_eq, Z.min_r by lia.
      split; [done|]. split_and!; try nia.
    + assert (pos <= 0) by nia. exists 0, (v * - pos). rewrite Z.abs_neq, Z.min_l by lia.
      split; [destruct (Z.eqb_spec pos 0) as [->|]; [by rewrite Z.mul_0_r | done]|].
      split_and!; try nia.
Qed.

Lemma net_fill_sell old q price a b :
  0 < q -> 0 < price -> (0 <= old -> b = 0) -> (old <= 0 -> a = 0) -> 0 <= a -> 0 <= b ->
  let pos := old + q * -1 in
  let '(open1, delta) := net_fill old pos 1 (-1) price q [a; b] in
  exists a' b', (if pos =? 0 then zset (zset open1 1 0) 0 0 else open1) = [a'; b'] /\
    (pos <= 0 -> a' = 0) /\ (0 <= pos -> b' = 0) /\ 0 <= a' /\ 0 <= b' /\
    delta - a' + b' = - a + b + price * q + (if old <=? 0 then 0 else Z.rem a old).
Proof.
  intros Hq Hp Hb Ha Ha0 Hb0 pos. unfold net_fill. change (oppIndex 1) with 0.
  change (zget [a; b] 1) with b. change (zget [a; b] 0) with a.
  destruct (Z.leb_spec 0 (old * -1)) as [Ho|Ho]; destruct (Z.leb_spec old 0); try lia.
  - exists a, (b + price * q). subst pos. rewrite (proj2 (Z.eqb_neq (old + q * -1) 0)) by lia.
    split; [done|]. split_and!; try nia.
  - rewrite Z.abs_eq by lia. pose proof (Z.quot_rem' a old) as Hqr.
    assert (Hv : 0 <= Z.quot a old) by (apply Z.quot_pos; lia).
    set (v := Z.quot a old) in *. set (rem := Z.rem a old) in *.
    assert (b = 0) as -> by lia. destruct (Z.ltb_spec (pos * old) 0) as [Hflip|Hflip].
    + assert (pos < 0) by nia. exists 0, (price * - pos).
      rewrite (proj2 (Z.eqb_neq pos 0)), Z.abs_neq, Z.min_r by lia.
      split; [done|]. split_and!; try nia.
    + assert (0 <= pos) by nia. exists (v * pos), 0. rewrite Z.abs_eq, Z.min_l by lia.
      split; [destruct (Z.eqb_spec pos 0) as [->|]; [by rewrite Z.mul_0_r | done]|].
      split_and!; try nia.
Qed.

Lemma net_step r p :
  net_ok p -> net_report r ->
  net_ok (add_fill r p) /\
  book_value (add_fill r p) = book_value p + cash r + rounding r p.
Proof.
  intros [Hlen Hlong Hshort [Ha Hb]] Hr.
  destruct (open_vwap_ p) as [|a [|b [|? ?]]] eqn:Ho; try (unfold zlen in Hlen; simpl in Hlen; lia).
  change (zget [a; b] 0) with a in *. change (zget [a; b] 1) with b in *.
  pose proof (add_fill_net r p a b Hr Ho) as Hf. cbv zeta in Hf.
  destruct Hr as (Hs & Hq & Hpr & _).
  assert (Hfin : forall a' b', open_vwap_ (add_fill r p) = [a'; b'] ->
    (position_ (add_fill r p) <= 0 -> a' = 0) -> (0 <= position_ (add_fill r p) -> b' = 0) ->
    0 <= a' -> 0 <= b' -> real_pnl_ (add_fill r p) - a' + b' = book_value p + cash r + rounding r p ->
    net_ok (add_fill r p) /\ book_value (add_fill r p) = book_value p + cash r + rounding r p).
  { intros a' b' Ho' ? ? ? ? Hv. unfold book_value at 1. split; [split|]; rewrite Ho'; done. }
  unfold book_value, cash, rounding, signed_qty in *. rewrite Ho in Hfin |- *.
  change (zget [a; b] 0) with a in *. change (zget [a; b] 1) with b in *.
  destruct Hs as [Hs|Hs]; rewrite Hs in *; cbn [sideToIndex sideToValue] in *.
  - rewrite !Z.mul_1_r in *.
    pose proof (net_fill_buy (position_ p) (last_qty r) (er_price r) a b Hq Hpr Hshort Hlong Ha Hb) as Hn.
    cbv zeta in Hn. destruct (net_fill _ _ _ _ _ _ _) as [open1 delta].
    destruct Hn as (a' & b' & Hab & H1 & H2 & H3 & H4 & H5). destruct Hf as (Hfo & Hfr & Hfp).
    apply (Hfin a' b'); rewrite ?Hfo, ?Hfr, ?Hfp; try done.
    destruct (0 <=? position_ p) eqn:E; zb; [lia|]. rewrite (proj2 (Z.ltb_ge 0 (position_ p))) by lia. lia.
  - pose proof (net_fill_sell (position_ p) (last_qty r) (er_price r) a b Hq Hpr Hshort Hlong Ha Hb) as Hn.
    cbv zeta in Hn. destruct (net_fill _ _ _ _ _ _ _) as [open1 delta].
    destruct Hn as (a' & b' & Hab & H1 & H2 & H3 & H4 & H5). destruct Hf as (Hfo & Hfr & Hfp).
    apply (Hfin a' b'); rewrite ?Hfo, ?Hfr, ?Hfp; try done.
    destruct (Z.leb_spec (position_ p) 0), (Z.leb_spec 0 (position_ p * -1)); try lia.
    rewrite (proj2 (Z.ltb_lt 0 (position_ p))) by lia. lia.
Qed.

(** The truncations along a sequence of fills, and the positions they bound. *)
Fixpoint drift (reports : list ExecutionReport) (p : PositionInfo) : Z :=
  match reports with
  | [] => 0
  | r :: rs => rounding r p + drift rs (add_fill r p)
  end.
Fixpoint exposure (reports : list ExecutionReport) (p : PositionInfo) : Z :=
  match reports with
  | [] => 0
  | r :: rs => Z.abs (position_ p) + exposure rs (add_fill r p)
  end.

Lemma net_steps reports p :
  net_ok p -> Forall net_report reports ->
  let p' := fold_left (fun p r => add_fill r p) reports p in
  net_ok p' /\ book_value p' = book_value p + zsum (cash <$> reports) + drift reports p /\
  Z.abs (drift reports p) <= exposure reports p.
Proof.
  revert p. induction reports as [|r reports IH]; intros p Hok Hr.
  - cbn. split_and!; [done | lia | lia].
  - apply Forall_cons in Hr as [Hr Hrs]. destruct (net_step r p Hok Hr) as [Hok1 Hv].
    destruct (IH _ Hok1 Hrs) as (Hok' & Hv' & Hd). cbn [fold_left]. split; [done|].
    pose proof (rounding_bound r p Hok). rewrite Hv', Hv.
    change (cash <$> r :: reports) with (cash r :: (cash <$> reports)).
    cbn [zsum foldr drift exposure]. unfold zsum. lia.
Qed.

(** C25: for any sequence of spot fills from a flat position, when the position is
    flat again the realised profit is exactly the cash paid and received plus the
    rounding of the truncated average prices, which is bounded by the sum of the
    position sizes held along the way. *)
Theorem realised_pnl_is_cash_flow reports :
  Forall net_report reports ->
  let p := fold_left (fun p r => add_fill r p) reports PositionInfo_default in
  position_ p = 0 ->
  real_pnl_ p = zsum (cash <$> reports) + drift reports PositionInfo_default /\
  Z.abs (drift reports PositionInfo_default) <= exposure reports PositionInfo_default.
Proof.
  intros Hr p Hflat. destruct (net_steps reports PositionInfo_default) as (Hok & Hv & Hd); [|done|].
  - by split.
  - split; [|done]. fold p in Hok, Hv. destruct Hok as [_ Hl Hs _]. unfold book_value in Hv.
    rewrite Hl, Hs in Hv by lia. change (real_pnl_ PositionInfo_default) with 0 in Hv.
    change (zget (open_vwap_ PositionInfo_default) 0) with 0 in Hv.
    change (zget (open_vwap_ PositionInfo_default) 1) with 0 in Hv. lia.
Qed.

Definition demo_fill (side : Side) (price qty : Z) (ps : option PositionSide) : ExecutionReport :=
  mkReport 1 "BTCUSDC" ETTrade OSPartiallyFilled 0 qty price side ps.

Lemma realised_pnl_is_cash_flow_witness :
  let reports := [demo_fill kBuy 100 3 None; demo_fill kBuy 101 2 None; demo_fill kSell 110 5 None] in
  let p := fold_left (fun p r => add_fill r p) reports PositionInfo_default in
  real_pnl_ p = zsum (cash <$> reports) + drift reports PositionInfo_default /\
  Z.abs (drift reports PositionInfo_default) <= exposure reports PositionInfo_default.
Proof.
  apply realised_pnl_is_cash_flow; [|vm_compute; reflexivity].
  repeat constructor; try done; try (by left); by right.
Defined.

(** In hedge mode, a long leg opened at [a] and a short leg of the same size
    opened at [b] leave a flat net position: the total profit (which the risk
    check reads) is 0, while the two legs together are worth [(b - a) * q]. *)
Theorem hedge_total_pnl_ignores_legs a b q :
  0 < a -> 0 < b -> 0 < q ->
  let p := add_fill (demo_fill kSell b q (Some kShort))
             (add_fill (demo_fill kBuy a q (Some kLong)) PositionInfo_default) in
  total_pnl_ p = 0 /\ long_unreal_pnl_ p + short_unreal_pnl_ p = (b - a) * q.
Proof.
  intros Ha Hb Hq p.
  assert (E1 : add_fill (demo_fill kBuy a q (Some kLong)) PositionInfo_default =
    mkPos q q 0 (a * q) 0 0 ((a - Z.quot (a * q) q) * 1 * q) 0 0 0 (a * q - a * q) (a * q - a * q)
      [a * q; 0] q None).
  { unfold add_fill, leg_fill, leg_unreal, net_fill, net_unreal. cbn -[Z.mul Z.add Z.quot Z.sub].
    rewrite !bool_decide_true, !bool_decide_false by done.
    replace (0 + q * 1) with q by lia. replace (0 + q) with q by lia.
    replace (0 + a * q) with (a * q) by lia.
    rewrite (proj2 (Z.eqb_neq q 0)), (proj2 (Z.ltb_lt 0 q)), (Z.abs_eq q) by lia.
    change (0 <=? 0 * 1) with true. cbn -[Z.mul Z.add Z.quot Z.sub].
    change (zset [0; 0] 0 (zget [0; 0] 0 + a * q)) with [0 + a * q; 0].
    replace (0 + a * q) with (a * q) by lia. change (zget [a * q; 0] 0) with (a * q). f_equal; lia. }
  subst p. rewrite E1. unfold add_fill, leg_fill, leg_unreal, net_fill.
  cbn -[Z.mul Z.add Z.quot Z.sub].
  rewrite (bool_decide_false (Some kShort = Some kLong)), !bool_decide_true by done.
  replace (q + q * -1) with 0 by lia. replace (0 + q) with q by lia.
  replace (0 + b * q) with (b * q) by lia. rewrite !Z.quot_mul by lia.
  rewrite (proj2 (Z.ltb_lt 0 q)), (proj2 (Z.leb_gt 0 (q * -1))) by lia.
  change (0 * q <? 0) with false. cbn -[Z.mul Z.add Z.quot Z.sub]. lia.
Qed.

Lemma hedge_total_pnl_ignores_legs_witness :
  let p := add_fill (demo_fill kSell 110 1 (Some kShort))
             (add_fill (demo_fill kBuy 100 1 (Some kLong)) PositionInfo_default) in
  total_pnl_ p = 0 /\ long_unreal_pnl_ p + short_unreal_pnl_ p = (110 - 100) * 1.
Proof. apply hedge_total_pnl_ignores_legs; lia. Defined.

(** The guard of [update_bbo] only rejects non-positive prices; with one side
    of the book empty (its price is the invalid value, the largest int64) the sum
    of the two prices that it halves does not fit an int64. *)
Theorem update_bbo_invalid_side_overflows b :
  bid_price b = kInvalidValue -> 0 < ask_price b <= int64_max ->
  (bid_price b <=? 0) || (ask_price b <=? 0) = false /\ ~ in_i64 (bid_price b + ask_price b).
Proof.
  intros -> Ha. unfold kInvalidValue, in_i64, int64_max, int64_min in *. split; [|lia].
  apply orb_false_iff. split; apply Z.leb_gt; lia.
Qed.

Lemma update_bbo_invalid_side_overflows_witness :
  let b := mkBBO kInvalidValue 1000 kInvalidValue 5 in
  (bid_price b <=? 0) || (ask_price b <=? 0) = false /\ ~ in_i64 (bid_price b + ask_price b).
Proof. apply update_bbo_invalid_side_overflows; [reflexivity | unfold int64_max; simpl; lia]. Defined.
End PositionKeeper.
