(* ===== verification/RiskManager.v ===== *)
(** * Risk checks and quote skew (src/hft/src/risk_manager.{h,cpp},
      src/hft/src/inventory_model.h, src/hft/src/inventory_manager.cpp)

    The pre-trade check of an order against the limits of its ticker, and the
    linear skew of quotes with the position.  Positions come from
    [PositionKeeper]; an unknown ticker ([at] throws) is [None]. *)

From S2P Require Import Prelude Types PositionKeeper.
Import PositionKeeper.

Module RiskManager.

Inductive RiskCheckResult :=
  RCInvalid | kOrderTooLarge | kPositionTooLarge | kPositionTooSmall | kLossTooLarge | kAllowed.

#[global] Instance RiskCheckResult_eq_dec : EqDecision RiskCheckResult.
Proof. solve_decision. Defined.

Definition riskCheckResultToString (result : RiskCheckResult) : string :=
  match result with
  | RCInvalid => "INVALID"
  | kOrderTooLarge => "ORDER_TOO_LARGE"
  | kPositionTooLarge => "POSITION_TOO_LARGE"
  | kPositionTooSmall => "POSITION_TOO_Small"
  | kLossTooLarge => "LOSS_TOO_LARGE"
  | kAllowed => "ALLOWED"
  end.

(** [RiskInfo::checkPreTradeRisk(side, qty, reserved_position)] *)
Definition checkPreTradeRisk (position_info : PositionInfo) (risk_cfg : RiskCfg)
    (side : Side) (qty reserved_position : Z) : RiskCheckResult :=
  if max_order_size_ risk_cfg <? qty then kOrderTooLarge
  else
    let current_position := position_ position_info in
    let current_total_pnl := total_pnl_ position_info in
    if max_position_ risk_cfg <? current_position + reserved_position + sideToValue side * qty
    then kPositionTooLarge
    else if current_position + reserved_position + sideToValue side * qty <? min_position_ risk_cfg
    then kPositionTooSmall
    else if current_total_pnl <? max_loss_ risk_cfg then kLossTooLarge
    else kAllowed.

(** The manager keeps the limits per ticker; the constructor registers the
    configured one, with a pointer into the position keeper. *)
Definition RiskTable := gmap string RiskCfg.

Definition new_risk_manager (ticker : string) (ticker_cfg : gmap string RiskCfg) : option RiskTable :=
  cfg ← ticker_cfg !! ticker; Some {[ ticker := cfg ]}.

(** [check_pre_trade_risk(ticker_id, side, qty, reserved_qty)] *)
Definition check_pre_trade_risk (risk : RiskTable) (keeper : Keeper) (ticker_id : string)
    (side : Side) (qty reserved_qty : Z) : option RiskCheckResult :=
  cfg ← risk !! ticker_id;
  p ← get_position_info ticker_id keeper;
  Some (checkPreTradeRisk p cfg side qty reserved_qty).

(** An order is allowed exactly when its size, the position it would lead to
    together with the reserved quantity, and the profit are within the limits;
    otherwise the result names the first limit that fails, in the order size,
    upper position, lower position, loss. *)
Theorem pre_trade_risk_exact p cfg side qty reserved :
  let next := position_ p + reserved + sideToValue side * qty in
  match checkPreTradeRisk p cfg side qty reserved with
  | kAllowed => qty <= max_order_size_ cfg /\ min_position_ cfg <= next <= max_position_ cfg /\
                max_loss_ cfg <= total_pnl_ p
  | kOrderTooLarge => max_order_size_ cfg < qty
  | kPositionTooLarge => qty <= max_order_size_ cfg /\ max_position_ cfg < next
  | kPositionTooSmall => qty <= max_order_size_ cfg /\ next <= max_position_ cfg /\
                         next < min_position_ cfg
  | kLossTooLarge => qty <= max_order_size_ cfg /\ min_position_ cfg <= next <= max_position_ cfg /\
                     total_pnl_ p < max_loss_ cfg
  | RCInvalid => False
  end.
Proof.
  intros next. unfold checkPreTradeRisk. fold next.
  destruct (Z.ltb_spec (max_order_size_ cfg) qty); [done|].
  destruct (Z.ltb_spec (max_position_ cfg) next); [done|].
  destruct (Z.ltb_spec next (min_position_ cfg)); [done|].
  by destruct (Z.ltb_spec (total_pnl_ p) (max_loss_ cfg)).
Qed.

(** An allowed order that is filled completely at once, with nothing else
    reserved, leaves the position within its limits. *)
Theorem allowed_fill_keeps_limits p cfg side qty report :
  checkPreTradeRisk p cfg side qty 0 = kAllowed ->
  er_side report = side -> last_qty report = qty ->
  min_position_ cfg <= position_ (add_fill report p) <= max_position_ cfg.
Proof.
  intros Hc <- <-. destruct (add_fill_position report p) as [-> _].
  unfold checkPreTradeRisk in Hc.
  destruct (max_order_size_ cfg <? _); [done|].
  destruct (Z.ltb_spec (max_position_ cfg)
    (position_ p + 0 + sideToValue (er_side report) * last_qty report)); [done|].
  destruct (Z.ltb_spec (position_ p + 0 + sideToValue (er_side report) * last_qty report)
    (min_position_ cfg)); [done|]. lia.
Qed.

Lemma allowed_fill_keeps_limits_witness :
  min_position_ (mkRiskCfg 10 20 (-20) (-1000)) <=
    position_ (add_fill (demo_fill kBuy 100 10 None) PositionInfo_default) <=
    max_position_ (mkRiskCfg 10 20 (-20) (-1000)).
Proof.
  apply (allowed_fill_keeps_limits PositionInfo_default _ kBuy 10); vm_compute; reflexivity.
Defined.

(** ** Inventory skew *)

(** [LinearSkewModel::calculate_quote_adjustment_impl] *)
Definition calculate_quote_adjustment (cfg : FixedPointConfig) (skew_coefficient_scaled : Z)
    (side : Side) (current_position target_position : Z) : Z :=
  let position_deviation := current_position - target_position in
  let skew := Z.quot (skew_coefficient_scaled * position_deviation) (kQtyScale cfg) in
  if bool_decide (side = kBuy) then - skew else skew.

(** [InventoryManager::get_quote_adjustment(side, ticker_id)] *)
Definition get_quote_adjustment (cfg : FixedPointConfig) (coefficient target_position : Z)
    (side : Side) (ticker_id : string) (keeper : Keeper) : option Z :=
  p ← get_position_info ticker_id keeper;
  Some (calculate_quote_adjustment cfg coefficient side (position_ p) target_position).

(** The skew is zero at the target position, moves bid and ask by opposite
    amounts, never raises the bid (nor lowers the ask) of a long deviation, and
    grows with the deviation. *)
Theorem quote_skew_direction cfg coefficient pos pos' target :
  0 <= coefficient -> 0 < kQtyScale cfg -> pos <= pos' ->
  let adj side p := calculate_quote_adjustment cfg coefficient side p target in
  adj kBuy target = 0 /\ adj kSell pos = - adj kBuy pos /\
  adj kBuy pos' <= adj kBuy pos /\ (target <= pos -> adj kBuy pos <= 0).
Proof.
  intros Hc Hs Hp adj. unfold adj, calculate_quote_adjustment.
  rewrite !bool_decide_true, !bool_decide_false by done.
  assert (Hmono : Z.quot (coefficient * (pos - target)) (kQtyScale cfg) <=
    Z.quot (coefficient * (pos' - target)) (kQtyScale cfg)) by (apply Z.quot_le_mono; nia).
  split_and!.
  - rewrite Z.sub_diag, Z.mul_0_r, Z.quot_0_l; lia.
  - lia.
  - lia.
  - intros Ht. assert (0 <= Z.quot (coefficient * (pos - target)) (kQtyScale cfg)); [|lia].
    apply Z.quot_pos; nia.
Qed.

Lemma quote_skew_direction_witness :
  let adj side p := calculate_quote_adjustment BTCUSDCConfig 100 side p 0 in
  adj kBuy 0 = 0 /\ adj kSell 50 = - adj kBuy 50 /\
  adj kBuy 70 <= adj kBuy 50 /\ (0 <= 50 -> adj kBuy 50 <= 0).
Proof. apply quote_skew_direction; simpl; lia. Defined.
End RiskManager.
