(* ===== verification/LayerBook.v ===== *)
(** * Order layers (src/hft/src/orders.h, src/hft/src/layer_book.h,
      src/hft/src/reserved_position_tracker.h)

    The working orders of a side live in eight slots; a slot carries the tick of
    its price, a pending replacement and two maps from client order ids to slots.
    The book has one such record per position side and side of each ticker. *)

From S2P Require Import Prelude Types.

Module LayerBook.

Inductive OMOrderState :=
  OMInvalid | OMPendingNew | OMLive | OMPendingCancel | OMDead | OMReserved | OMCancelReserved.

#[global] Instance OMOrderState_eq_dec : EqDecision OMOrderState.
Proof. solve_decision. Defined.

Definition omState_toString (s : OMOrderState) : string :=
  match s with
  | OMPendingNew => "PENDING_NEW"
  | OMLive => "LIVE"
  | OMPendingCancel => "PENDING_CANCEL"
  | OMDead => "DEAD"
  | OMInvalid => "INVALID"
  | OMReserved => "RESERVED"
  | OMCancelReserved => "CANCEL_RESERVED"
  end.

Definition kSlotsPerSide : Z := 8.
Definition kTicksInvalid : Z := 0.

Record OrderSlot := mkSlot {
  state : OMOrderState;
  price : Z;
  qty : Z;
  last_used : Z;
  slot_cl_order_id : Z;
}.
#[global] Instance OrderSlot_dflt : Dflt OrderSlot :=
  mkSlot OMInvalid kInvalidValue kInvalidValue 0 kOrderIdInvalid.

Record PendingReplaceInfo := mkPending {
  new_price : Z;
  new_qty : Z;
  new_tick : Z;
  new_cl_order_id : Z;
  pr_last_qty : Z;
  original_cl_order_id : Z;
  original_price : Z;
  original_tick : Z;
}.

Record SideBook := mkSideBook {
  slots : list OrderSlot;
  layer_ticks : list Z;
  pending_repl : list (option PendingReplaceInfo);
  orig_id_to_layer : gmap Z Z;
  new_id_to_layer : gmap Z Z;
}.

(** [SideBook()] *)
Definition new_side_book : SideBook :=
  mkSideBook (replicate 8 dflt) (replicate 8 kTicksInvalid) (replicate 8 None) ∅ ∅.
#[global] Instance SideBook_dflt : Dflt SideBook := new_side_book.

Definition set_slot (layer : Z) (s : OrderSlot) (sb : SideBook) : SideBook :=
  mkSideBook (zset (slots sb) layer s) (layer_ticks sb) (pending_repl sb)
    (orig_id_to_layer sb) (new_id_to_layer sb).
Definition set_tick (layer tick : Z) (sb : SideBook) : SideBook :=
  mkSideBook (slots sb) (zset (layer_ticks sb) layer tick) (pending_repl sb)
    (orig_id_to_layer sb) (new_id_to_layer sb).
Definition set_pending (layer : Z) (p : option PendingReplaceInfo) (sb : SideBook) : SideBook :=
  mkSideBook (slots sb) (layer_ticks sb) (zset (pending_repl sb) layer p)
    (orig_id_to_layer sb) (new_id_to_layer sb).
Definition set_orig_ids (m : gmap Z Z) (sb : SideBook) : SideBook :=
  mkSideBook (slots sb) (layer_ticks sb) (pending_repl sb) m (new_id_to_layer sb).
Definition set_new_ids (m : gmap Z Z) (sb : SideBook) : SideBook :=
  mkSideBook (slots sb) (layer_ticks sb) (pending_repl sb) (orig_id_to_layer sb) m.
Definition with_state (st : OMOrderState) (s : OrderSlot) : OrderSlot :=
  mkSlot st (price s) (qty s) (last_used s) (slot_cl_order_id s).
Definition with_qty (q : Z) (s : OrderSlot) : OrderSlot :=
  mkSlot (state s) (price s) q (last_used s) (slot_cl_order_id s).
Definition with_last_used (t : Z) (s : OrderSlot) : OrderSlot :=
  mkSlot (state s) (price s) (qty s) t (slot_cl_order_id s).

(** ** Searches *)

(** [for (idx = 0; idx < kSlotsPerSide; ++idx) if (test(idx)) return idx; return -1;] *)
Definition find_idx (test : Z -> bool) : Z :=
  default (-1) (first_some (fun idx => if test idx then Some idx else None) (seqZ 0 kSlotsPerSide)).

Definition find_layer_by_ticks (sb : SideBook) (tick : Z) : Z :=
  find_idx (fun idx => zget (layer_ticks sb) idx =? tick).

Definition find_layer_by_id (sb : SideBook) (order_id : Z) : Z :=
  if order_id =? kOrderIdInvalid then -1
  else find_idx (fun idx => slot_cl_order_id (zget (slots sb) idx) =? order_id).

Definition find_free_layer (sb : SideBook) : Z :=
  find_idx (fun idx =>
    let st := state (zget (slots sb) idx) in
    bool_decide (st = OMInvalid) || bool_decide (st = OMDead) ||
    (zget (layer_ticks sb) idx =? kTicksInvalid)).

Definition pick_victim_layer (sb : SideBook) : Z :=
  fold_left (fun victim index =>
    if last_used (zget (slots sb) index) <? last_used (zget (slots sb) victim) then index else victim)
    (seqZ 1 (kSlotsPerSide - 1)) 0.

(** [unmap_layer(side_book, layer)] *)
Definition unmap_layer (layer : Z) (sb : SideBook) : SideBook :=
  let erase (m : gmap Z Z) := filter (fun kv : Z * Z => kv.2 <> layer) m in
  set_pending layer None
    (set_orig_ids (erase (orig_id_to_layer sb))
      (set_new_ids (erase (new_id_to_layer sb)) (set_tick layer kTicksInvalid sb))).

Record AssignPlan := mkPlan { ap_layer : Z; victim_live_layer : option Z; ap_tick : Z }.

(** [plan_layer(side_book, tick)] *)
Definition plan_layer (sb : SideBook) (tick : Z) : AssignPlan :=
  let layer := find_layer_by_ticks sb tick in
  if 0 <=? layer then mkPlan layer None tick
  else
    let layer := find_free_layer sb in
    if 0 <=? layer then mkPlan layer None tick
    else
      let vidx := pick_victim_layer sb in
      let victim :=
        if bool_decide (state (zget (slots sb) vidx) = OMLive) then Some vidx else None in
      mkPlan vidx victim tick.

(** ** The book of all tickers *)

(** [FourWay]: side books by position side and side. *)
Definition FourWay := list (list SideBook).
Definition new_four_way : FourWay := [[new_side_book; new_side_book]; [new_side_book; new_side_book]].

Abbreviation Books := (gmap string FourWay).

Definition pos_index (position_side : option PositionSide) : Z :=
  match position_side with Some ps => positionSideToIndex ps | None => 0 end.

(** [side_book(ticker, side, position_side)]: an unknown ticker gets four empty
    side books; the reference it returns is read with [side_book] and written
    back with [put_side_book]. *)
Definition side_book (ticker : string) (side : Side) (ps : option PositionSide) (b : Books) : SideBook :=
  zget (zget (default new_four_way (b !! ticker)) (pos_index ps)) (sideToIndex side).
Definition put_side_book (ticker : string) (side : Side) (ps : option PositionSide) (sb : SideBook)
    (b : Books) : Books :=
  let fw := default new_four_way (b !! ticker) in
  <[ticker := zset fw (pos_index ps) (zset (zget fw (pos_index ps)) (sideToIndex side) sb)]> b.

(** [get_last_time(symbol)]: the latest use of a live or reserved slot, for
    LONG_BUY, LONG_SELL, SHORT_BUY and SHORT_SELL. *)
Definition last_time (sb : SideBook) : Z :=
  fold_left (fun last slot =>
    if bool_decide (state slot = OMLive) || bool_decide (state slot = OMReserved)
    then Z.max last (last_used slot) else last) (slots sb) 0.

Definition get_last_time (symbol : string) (b : Books) : list Z :=
  let fw := default new_four_way (b !! symbol) in
  (fun i => last_time (zget (zget fw (i / 2)) (i mod 2))) <$> seqZ 0 4.

(** ** Reserved position *)

Definition add_reserved (side : Side) (q reserved : Z) : Z := reserved + sideToValue side * q.
Definition remove_reserved (side : Side) (q reserved : Z) : Z := reserved - sideToValue side * q.
Definition remove_partial_fill (side : Side) (filled_qty reserved : Z) : Z :=
  reserved - sideToValue side * filled_qty.

(** ** Facts *)

Definition ids_ok (m : gmap Z Z) : Prop := forall k l, m !! k = Some l -> 0 <= l < 8.

Record wf_sb (sb : SideBook) : Prop := {
  wf_slots : zlen (slots sb) = 8;
  wf_ticks : zlen (layer_ticks sb) = 8;
  wf_pending : zlen (pending_repl sb) = 8;
  wf_orig : ids_ok (orig_id_to_layer sb);
  wf_new : ids_ok (new_id_to_layer sb);
}.

(** A search returns the first slot that passes its test, or -1 when none does. *)
Lemma find_idx_spec test :
  (0 <= find_idx test < 8 /\ test (find_idx test) = true /\
     forall i, 0 <= i < find_idx test -> test i = false) \/
  (find_idx test = -1 /\ forall i, 0 <= i < 8 -> test i = false).
Proof.
  unfold find_idx. destruct (first_some _ _) as [r|] eqn:E; simpl.
  - left. apply first_some_Some in E as (l1 & x & l2 & El & Hx & Hl1).
    destruct (test x) eqn:Et; [|done]. injection Hx as <-.
    assert (Hlk : seqZ 0 8 !! length l1 = Some x)
      by (change (seqZ 0 8) with (seqZ 0 kSlotsPerSide); rewrite El; by apply list_lookup_middle).
    apply lookup_seqZ in Hlk as [Hx Hlen]. split_and!; [lia | lia | done |].
    intros i Hi. assert (Hin : i ∈ l1).
    { apply list_elem_of_lookup. exists (Z.to_nat i).
      rewrite <- (lookup_app_l l1 (x :: l2)) by lia. rewrite <- El.
      apply lookup_seqZ. unfold kSlotsPerSide. lia. }
    specialize (Hl1 i Hin). by destruct (test i).
  - right. split; [done|]. intros i Hi. rewrite first_some_None in E.
    specialize (E i). destruct (test i); [|done]. exfalso.
    assert (Some i = None); [|done]. apply E. apply elem_of_seqZ. unfold kSlotsPerSide. lia.
Qed.

Lemma find_idx_range test : -1 <= find_idx test < 8.
Proof. destruct (find_idx_spec test) as [[? _]|[-> _]]; lia. Qed.

Lemma find_idx_ext f g : (forall i, f i = g i) -> find_idx f = find_idx g.
Proof.
  intros E. unfold find_idx. f_equal. induction (seqZ 0 kSlotsPerSide) as [|i l IH]; simpl; [done|].
  rewrite E. by destruct (g i).
Qed.

Lemma find_idx_none test : find_idx test = -1 <-> forall i, 0 <= i < 8 -> test i = false.
Proof.
  destruct (find_idx_spec test) as [(Hr & Ht & _)|[E Hn]]; split; try done.
  - lia.
  - intros Hn. rewrite Hn in Ht by lia. done.
Qed.

Lemma find_idx_unique test l :
  0 <= l < 8 -> test l = true -> (forall i, 0 <= i < 8 -> test i = true -> i = l) -> find_idx test = l.
Proof.
  intros Hl Ht Hu. destruct (find_idx_spec test) as [(Hr & Hf & _)|[_ Hn]].
  - by apply Hu.
  - rewrite Hn in Ht by lia. done.
Qed.

(** The least recently used slot: no slot was used before the victim, and those
    of a lower index were used later. *)
Lemma pick_victim_fold us n v :
  let pick := fun victim index =>
    if last_used (zget us index) <? last_used (zget us victim) then index else victim in
  0 <= v < n -> (forall i, 0 <= i < n -> last_used (zget us v) <= last_used (zget us i)) ->
  (forall i, 0 <= i < v -> last_used (zget us v) < last_used (zget us i)) ->
  forall m, 0 <= m ->
  let w := fold_left pick (seqZ n m) v in
  0 <= w < n + m /\
  (forall i, 0 <= i < n + m -> last_used (zget us w) <= last_used (zget us i)) /\
  (forall i, 0 <= i < w -> last_used (zget us w) < last_used (zget us i)).
Proof.
  intros pick Hv Hmin Hfirst m Hm. revert n v Hv Hmin Hfirst.
  pattern m. apply natlike_ind; [| |done].
  - intros n v Hv Hmin Hfirst. simpl. rewrite Z.add_0_r. done.
  - clear m Hm. intros m Hm IH n v Hv Hmin Hfirst.
    rewrite seqZ_cons by lia. cbn [fold_left]. rewrite Z.pred_succ.
    replace (n + Z.succ m) with (Z.succ n + m) by lia.
    apply IH; unfold pick; clear IH; destruct (Z.ltb_spec (last_used (zget us n)) (last_used (zget us v)));
      try lia; intros i Hi.
    + destruct (Z.eq_dec i n) as [->|]; [lia|]. specialize (Hmin i ltac:(lia)). lia.
    + destruct (Z.eq_dec i n) as [->|]; [lia|]. specialize (Hmin i ltac:(lia)). lia.
    + specialize (Hmin i ltac:(lia)). lia.
    + by apply Hfirst.
Qed.

Lemma pick_victim_spec sb :
  0 <= pick_victim_layer sb < 8 /\
  (forall i, 0 <= i < 8 ->
     last_used (zget (slots sb) (pick_victim_layer sb)) <= last_used (zget (slots sb) i)) /\
  (forall i, 0 <= i < pick_victim_layer sb ->
     last_used (zget (slots sb) (pick_victim_layer sb)) < last_used (zget (slots sb) i)).
Proof.
  apply (pick_victim_fold (slots sb) 1 0); try lia; [|done].
  intros i Hi. replace i with 0 by lia. reflexivity.
Qed.

(** A slot an assignment may take without disturbing an order. *)
Definition free_layer (sb : SideBook) (i : Z) : Prop :=
  state (zget (slots sb) i) = OMInvalid \/ state (zget (slots sb) i) = OMDead \/
  zget (layer_ticks sb) i = kTicksInvalid.

Lemma free_layer_test sb i :
  (bool_decide (state (zget (slots sb) i) = OMInvalid) || bool_decide (state (zget (slots sb) i) = OMDead) ||
     (zget (layer_ticks sb) i =? kTicksInvalid)) = true <-> free_layer sb i.
Proof. unfold free_layer. rewrite !orb_true_iff, !bool_decide_eq_true, Z.eqb_eq. tauto. Qed.

Lemma plan_layer_range sb tick : 0 <= ap_layer (plan_layer sb tick) < 8.
Proof.
  unfold plan_layer.
  assert (H1 : -1 <= find_layer_by_ticks sb tick < 8) by apply find_idx_range.
  assert (H2 : -1 <= find_free_layer sb < 8) by apply find_idx_range.
  destruct (Z.leb_spec 0 (find_layer_by_ticks sb tick)); [cbn; lia|].
  destruct (Z.leb_spec 0 (find_free_layer sb)); [cbn; lia|]. apply pick_victim_spec.
Qed.

Lemma plan_layer_victim sb tick l :
  victim_live_layer (plan_layer sb tick) = Some l ->
  l = ap_layer (plan_layer sb tick) /\ state (zget (slots sb) l) = OMLive.
Proof.
  unfold plan_layer. repeat case_match; cbn; intros [= <-]; case_bool_decide; naive_solver.
Qed.

(** The assignment policy of [plan_layer], on every branch.  A layer that
    already quotes the tick is taken, the first one; else the first free layer;
    else the least recently used one, the first among equals, and it is reported
    as the victim exactly when its order is live.  Layers are always in range. *)
Theorem plan_layer_policy sb tick :
  let p := plan_layer sb tick in
  0 <= ap_layer p < 8 /\ ap_tick p = tick /\
  ((zget (layer_ticks sb) (ap_layer p) = tick /\ victim_live_layer p = None /\
    forall i, 0 <= i < ap_layer p -> zget (layer_ticks sb) i <> tick) \/
   ((forall i, 0 <= i < 8 -> zget (layer_ticks sb) i <> tick) /\
    ((free_layer sb (ap_layer p) /\ victim_live_layer p = None /\
      forall i, 0 <= i < ap_layer p -> ~ free_layer sb i) \/
     ((forall i, 0 <= i < 8 -> ~ free_layer sb i) /\
      (forall i, 0 <= i < 8 ->
         last_used (zget (slots sb) (ap_layer p)) <= last_used (zget (slots sb) i)) /\
      (victim_live_layer p = Some (ap_layer p) <-> state (zget (slots sb) (ap_layer p)) = OMLive) /\
      (victim_live_layer p = None <-> state (zget (slots sb) (ap_layer p)) <> OMLive))))).
Proof.
  cbn zeta. unfold plan_layer, find_layer_by_ticks, find_free_layer.
  destruct (find_idx_spec (fun idx => zget (layer_ticks sb) idx =? tick)) as [(Hr & Ht & Hn)|[-> Hn]].
  { rewrite (proj2 (Z.leb_le 0 _)) by lia. cbn [ap_layer ap_tick victim_live_layer].
    apply Z.eqb_eq in Ht. split_and!; try lia. left. split_and!; try done.
    intros i Hi. by apply Z.eqb_neq, Hn. }
  cbn [Z.leb Z.compare].
  pose proof (find_idx_spec (fun idx =>
    bool_decide (state (zget (slots sb) idx) = OMInvalid) ||
    bool_decide (state (zget (slots sb) idx) = OMDead) ||
    (zget (layer_ticks sb) idx =? kTicksInvalid))) as [(Hr & Ht & Hf)|[-> Hf]].
  { rewrite (proj2 (Z.leb_le 0 _)) by lia. cbn [ap_layer ap_tick victim_live_layer].
    split_and!; try lia. right. split; [intros i Hi; by apply Z.eqb_neq, Hn|]. left.
    split_and!; [by apply free_layer_test | done |].
    intros i Hi Hfree. apply free_layer_test in Hfree. rewrite Hf in Hfree by lia. done. }
  cbn [Z.leb Z.compare ap_layer ap_tick victim_live_layer].
  destruct (pick_victim_spec sb) as (Hr & Hmin & _).
  split_and!; try lia. right. split; [intros i Hi; by apply Z.eqb_neq, Hn|]. right.
  split_and!; [| done | |].
  - intros i Hi Hfree. apply free_layer_test in Hfree. rewrite Hf in Hfree by lia. done.
  - case_bool_decide; split; naive_solver.
  - case_bool_decide; split; naive_solver.
Qed.

(** [unmap_layer] on each component. *)
Lemma wf_unmap layer sb : wf_sb sb -> wf_sb (unmap_layer layer sb).
Proof.
  intros [H1 H2 H3 H4 H5]. constructor; cbn; rewrite ?zlen_zset; try done;
    intros k l [Hk _]%map_lookup_filter_Some; eauto.
Qed.

Lemma unmap_ids layer sb k l :
  (orig_id_to_layer (unmap_layer layer sb) !! k = Some l <->
     orig_id_to_layer sb !! k = Some l /\ l <> layer) /\
  (new_id_to_layer (unmap_layer layer sb) !! k = Some l <->
     new_id_to_layer sb !! k = Some l /\ l <> layer).
Proof. cbn. by rewrite !map_lookup_filter_Some. Qed.

End LayerBook.
