(* ===== verification/QuoteReconciler.v ===== *)
(** * Quote reconciliation (src/hft/src/quote_reconciler.h, src/hft/src/orders.h)

    [QuoteReconciler::diff] compares the strategy's quote intents with the
    layers of the book and lists the orders to send; [VenuePolicy] drops the
    actions that come too soon after the last order of their side and fits
    quantities to the venue's limits; [TickConverter] turns raw prices into
    ticks.  Clock readings are arguments. *)

From S2P Require Import Prelude Types LayerBook.

Module QuoteReconciler.

Import LayerBook.

(** ** Actions *)

Record ActionNew := mkNew {
  n_layer : Z; n_price : Z; n_qty : Z; n_side : Side; n_cl_order_id : Z;
  n_position_side : option PositionSide }.

Record ActionReplace := mkReplace {
  r_layer : Z; r_price : Z; r_qty : Z; r_side : Side; r_cl_order_id : Z;
  r_original_cl_order_id : Z; r_last_qty : Z; r_position_side : option PositionSide }.

Record ActionCancel := mkCancel {
  c_layer : Z; c_side : Side; c_cl_order_id : Z; c_original_cl_order_id : Z;
  c_position_side : option PositionSide }.

Record Actions := mkActions {
  news : list ActionNew; repls : list ActionReplace; cancels : list ActionCancel }.

Definition actions_empty (a : Actions) : bool :=
  bool_decide (news a = []) && bool_decide (repls a = []) && bool_decide (cancels a = []).

(** What the generic lambda [erase_if_too_recent] reads of an action. *)
Class Sided (A : Type) := { act_side : A -> Side; act_pos : A -> option PositionSide }.
#[export] Instance Sided_new : Sided ActionNew := {| act_side := n_side; act_pos := n_position_side |}.
#[export] Instance Sided_replace : Sided ActionReplace :=
  {| act_side := r_side; act_pos := r_position_side |}.
#[export] Instance Sided_cancel : Sided ActionCancel :=
  {| act_side := c_side; act_pos := c_position_side |}.

(** ** TickConverter *)

(** The constructor finds the [digit] with [tick * 10^digit = 1]; this is the
    [scale_int] it then stores. *)
Definition scale_int_of (kPriceScale digit : Z) : Z := Z.quot kPriceScale (10 ^ digit).

(** A scale of zero, which [Startup.ticks_of_raw] refuses, traps in C++. *)
Definition to_ticks_raw (scale_int price_raw : Z) : Z := u64 (Z.quot price_raw scale_int).

(** ** VenuePolicy *)

Record VenuePolicy := mkVenue {
  minimum_usdt_ : Z;
  minimum_qty_ : Z;
  maximum_qty_ : Z;
  minimum_time_gap_ : Z;
  qty_increment_ : Z;
}.

(** The constructor, from the configured integers. *)
Definition new_venue_policy (cfg : FixedPointConfig) (order_usdt order_qty max_qty time_gap : Z)
    : VenuePolicy :=
  mkVenue (order_usdt * kPriceScale cfg) (order_qty * kQtyScale cfg) (max_qty * kQtyScale cfg)
    time_gap 1.

Definition set_qty_increment (increment : Z) (v : VenuePolicy) : VenuePolicy :=
  mkVenue (minimum_usdt_ v) (minimum_qty_ v) (maximum_qty_ v) (minimum_time_gap_ v) increment.

(** An increment of zero traps in C++; the theorems about sent orders ask for a
    positive one ([lots_ok]). *)
Definition round_qty (v : VenuePolicy) (q : Z) : Z :=
  Z.quot (q + qty_increment_ v - 1) (qty_increment_ v) * qty_increment_ v.

(** The loop of [erase_if_too_recent]: a matching element is overwritten by the
    last one, which is popped; the index then stays. *)
Fixpoint erase_loop {A} (match_ : A -> bool) (fuel i : nat) (vec : list A) : list A :=
  match fuel with
  | O => vec
  | S fuel' =>
      match vec !! i with
      | None => vec
      | Some a =>
          if match_ a then erase_loop match_ fuel' i (removelast (<[i := List.last vec a]> vec))
          else erase_loop match_ fuel' (S i) vec
      end
  end.

Definition matches {A} `{Sided A} (side : Side) (pos_side : PositionSide) (a : A) : bool :=
  bool_decide (act_side a = side) && bool_decide (act_pos a = Some pos_side).

Definition erase_if_too_recent {A} `{Sided A} (v : VenuePolicy) (current_time : Z)
    (last_times : list Z) (side : Side) (pos_side : PositionSide) (time_idx : Z) (vec : list A)
    : list A :=
  if u64 (current_time - zget last_times time_idx) <? u64 (minimum_time_gap_ v)
  then erase_loop (matches side pos_side) (length vec) 0 vec
  else vec.

(** The four calls made for each of the three vectors. *)
Definition erase_four {A} `{Sided A} (v : VenuePolicy) (current_time : Z) (last_times : list Z)
    (vec : list A) : list A :=
  let erase := erase_if_too_recent v current_time last_times in
  erase kSell kShort 3 (erase kBuy kShort 2 (erase kSell kLong 1 (erase kBuy kLong 0 vec))).

(** The quantity of an action after the venue's limits. *)
Definition fit_qty (cfg : FixedPointConfig) (v : VenuePolicy) (price qty : Z) : Z :=
  let qty := if qty <? minimum_qty_ v then minimum_qty_ v else qty in
  let order_usdt := Z.quot (price * qty) (kQtyScale cfg) in
  let qty :=
    if order_usdt <? minimum_usdt_ v
    then Z.quot (minimum_usdt_ v * kQtyScale cfg) price else qty in
  let qty := if maximum_qty_ v <? qty then maximum_qty_ v else qty in
  round_qty v qty.

Definition fit_new (cfg : FixedPointConfig) (v : VenuePolicy) (a : ActionNew) : ActionNew :=
  mkNew (n_layer a) (n_price a) (fit_qty cfg v (n_price a) (n_qty a)) (n_side a) (n_cl_order_id a)
    (n_position_side a).

Definition fit_replace (cfg : FixedPointConfig) (v : VenuePolicy) (a : ActionReplace) : ActionReplace :=
  mkReplace (r_layer a) (r_price a) (fit_qty cfg v (r_price a) (r_qty a)) (r_side a)
    (r_cl_order_id a) (r_original_cl_order_id a) (round_qty v (r_last_qty a)) (r_position_side a).

Definition filter_by_venue (cfg : FixedPointConfig) (v : VenuePolicy) (symbol : string)
    (current_time : Z) (b : Books) (acts : Actions) : Actions :=
  let last_times := get_last_time symbol b in
  mkActions
    (fit_new cfg v <$> erase_four v current_time last_times (news acts))
    (fit_replace cfg v <$> erase_four v current_time last_times (repls acts))
    (erase_four v current_time last_times (cancels acts)).

(** ** QuoteReconciler *)

(** [SpotQuoteIntent] and [FuturesQuoteIntent]: a spot intent has no position side. *)
Record QuoteIntent := mkIntent {
  qi_ticker : string;
  qi_side : Side;
  qi_position_side : option PositionSide;
  qi_price : option Z;
  qi_qty : Z;
}.

Record Reconciler := mkReconciler {
  min_replace_qty_delta_ : Z;
  min_replace_tick_delta_ : Z;
  rc_scale_int : Z;
}.

(** The body of the loop over intents, for an intent of the current side. *)
Definition diff_intent (rc : Reconciler) (ticker_id : string) (b : Books) (now : Z) (side : Side)
    (acts : Actions) (intent : QuoteIntent) : Actions :=
  if negb (bool_decide (qi_side intent = side)) then acts
  else
    let pos_side := qi_position_side intent in
    let sb := side_book ticker_id side pos_side b in
    match qi_price intent with
    | None => acts
    | Some price =>
        if negb (is_valid price && (0 <? qi_qty intent)) then acts
        else
          let tick := to_ticks_raw (rc_scale_int rc) price in
          let assign := plan_layer sb tick in
          let slot := zget (slots sb) (ap_layer assign) in
          match victim_live_layer assign with
          | Some vidx =>
              let vslot := zget (slots sb) vidx in
              mkActions (news acts)
                (repls acts ++ [mkReplace vidx price (qi_qty intent) side now
                                  (slot_cl_order_id vslot) (qty vslot) pos_side])
                (cancels acts)
          | None =>
              match state slot with
              | OMInvalid | OMDead =>
                  mkActions (news acts ++ [mkNew (ap_layer assign) price (qi_qty intent) side now pos_side])
                    (repls acts) (cancels acts)
              | OMLive =>
                  let slot_tick := to_ticks_raw (rc_scale_int rc) (LayerBook.price slot) in
                  let intent_tick := to_ticks_raw (rc_scale_int rc) price in
                  let price_diff :=
                    if intent_tick <? slot_tick
                    then min_replace_tick_delta_ rc <=? u64 (slot_tick - intent_tick)
                    else min_replace_tick_delta_ rc <=? u64 (intent_tick - slot_tick) in
                  let qty_delta := qty slot - qi_qty intent in
                  let qty_diff := min_replace_qty_delta_ rc <=? Z.abs qty_delta in
                  if price_diff || qty_diff then
                    mkActions (news acts)
                      (repls acts ++ [mkReplace (ap_layer assign) price (qi_qty intent) side now
                                        (slot_cl_order_id slot) (qty slot) pos_side])
                      (cancels acts)
                  else acts
              | _ => acts
              end
          end
    end.

Definition no_actions : Actions := mkActions [] [] [].

Definition diff (rc : Reconciler) (intents : list QuoteIntent) (b : Books) (now : Z) : Actions :=
  match intents with
  | [] => no_actions
  | first :: _ =>
      fold_left (fun acts side =>
          fold_left (diff_intent rc (qi_ticker first) b now side) intents acts)
        [kBuy; kSell] no_actions
  end.

(** ** The venue filter *)

(** Swap-with-back erasure keeps the elements that do not match, in some order. *)
Lemma erase_loop_perm {A} (f : A -> bool) fuel kept rest :
  (length rest <= fuel)%nat ->
  erase_loop f fuel (length kept) (kept ++ rest) ≡ₚ kept ++ List.filter (fun a => negb (f a)) rest.
Proof.
  revert kept rest. induction fuel as [|fuel IH]; intros kept [|a rest] Hlen; simpl in Hlen;
    try lia; cbn [erase_loop].
  - done.
  - rewrite lookup_app_r, Nat.sub_diag by lia. done.
  - rewrite list_lookup_middle by done. cbn [List.filter]. destruct (f a); simpl.
    + destruct rest as [|b rest _] using rev_ind.
      * rewrite List.last_last, list_insert_id by (by apply list_lookup_middle).
        rewrite removelast_last. rewrite <- (app_nil_r kept) at 2.
        rewrite IH by (simpl; lia). done.
      * replace (kept ++ a :: rest ++ [b]) with ((kept ++ a :: rest) ++ [b])
          by (by rewrite <- app_assoc).
        rewrite List.last_last, insert_app_l by (rewrite length_app; simpl; lia).
        rewrite removelast_last. rewrite insert_app_r_alt, Nat.sub_diag by lia. simpl.
        rewrite length_app in Hlen. simpl in Hlen. rewrite IH by (simpl; lia).
        rewrite List.filter_app. simpl.
        destruct (f b); simpl; rewrite ?app_nil_r; [done|].
        by rewrite <- Permutation_cons_append.
    + replace (kept ++ a :: rest) with ((kept ++ [a]) ++ rest) by (by rewrite <- app_assoc).
      replace (S (length kept)) with (length (kept ++ [a])) by (rewrite length_app; simpl; lia).
      rewrite IH by lia. by rewrite <- app_assoc.
Qed.

(** Whether the time gap blocks an action. *)
Definition too_recent (v : VenuePolicy) (current_time : Z) (last_times : list Z) (i : Z) : bool :=
  u64 (current_time - zget last_times i) <? u64 (minimum_time_gap_ v).

Definition blocked {A} `{Sided A} (v : VenuePolicy) (current_time : Z) (last_times : list Z) (a : A)
    : bool :=
  existsb (fun '(side, ps, i) => too_recent v current_time last_times i && matches side ps a)
    [(kBuy, kLong, 0); (kSell, kLong, 1); (kBuy, kShort, 2); (kSell, kShort, 3)].

Lemma filter_filter_and {A} (f g : A -> bool) l :
  List.filter f (List.filter g l) = List.filter (fun a => g a && f a) l.
Proof.
  induction l as [|a l IH]; simpl; [done|].
  destruct (g a); simpl; [destruct (f a)|]; by rewrite ?IH.
Qed.

#[export] Instance filter_perm {A} (f : A -> bool) : Proper ((≡ₚ) ==> (≡ₚ)) (List.filter f).
Proof. induction 1; simpl; repeat case_match; eauto using Permutation. Qed.

Lemma erase_if_perm {A} `{Sided A} v t lt side ps i (vec : list A) :
  erase_if_too_recent v t lt side ps i vec ≡ₚ
  List.filter (fun a => negb (too_recent v t lt i && matches side ps a)) vec.
Proof.
  unfold erase_if_too_recent. fold (too_recent v t lt i). destruct (too_recent v t lt i); simpl.
  - apply (erase_loop_perm _ (length vec) [] vec). done.
  - induction vec; simpl; [done|by f_equiv].
Qed.

Lemma erase_four_perm {A} `{Sided A} v t lt (vec : list A) :
  erase_four v t lt vec ≡ₚ List.filter (fun a => negb (blocked v t lt a)) vec.
Proof.
  unfold erase_four. rewrite !erase_if_perm, !filter_filter_and.
  erewrite List.filter_ext; [reflexivity|]. intros a. unfold blocked. cbn [existsb].
  rewrite orb_false_r, !negb_orb. by rewrite !andb_assoc.
Qed.

(** Which actions survive the venue filter, and how.  The new orders that
    come out are, up to their order, those that the time gap of their side does
    not block, each with its quantity fitted; likewise the replacements, whose
    old quantity is rounded too; cancels are only subject to the time gap. *)
Theorem filter_by_venue_exact cfg v symbol current_time b acts :
  let out := filter_by_venue cfg v symbol current_time b acts in
  let blocks {A} `{Sided A} (a : A) := blocked v current_time (get_last_time symbol b) a in
  news out ≡ₚ fit_new cfg v <$> List.filter (fun a => negb (blocks a)) (news acts) /\
  repls out ≡ₚ fit_replace cfg v <$> List.filter (fun a => negb (blocks a)) (repls acts) /\
  cancels out ≡ₚ List.filter (fun a => negb (blocks a)) (cancels acts).
Proof. cbn. by rewrite !erase_four_perm. Qed.

(** The time gap never applies to spot orders: an action without a position
    side matches none of the four tests, whatever the clock reads. *)
Theorem spot_never_rate_limited {A} `{Sided A} v current_time last_times (vec : list A) :
  Forall (fun a => act_pos a = None) vec ->
  erase_four v current_time last_times vec ≡ₚ vec.
Proof.
  intros Hspot. rewrite erase_four_perm.
  enough (E : List.filter (fun a => negb (blocked v current_time last_times a)) vec = vec) by (by rewrite E).
  induction Hspot as [|a vec Ha _ IH]; simpl; [done|].
  assert (Hb : blocked v current_time last_times a = false); [|by rewrite Hb, IH].
  unfold blocked, matches. cbn [existsb]. rewrite Ha.
  rewrite !(bool_decide_eq_false_2 (None = Some _)) by done. by rewrite !andb_false_r.
Qed.

Definition demo_new (layer price qty : Z) (side : Side) (ps : option PositionSide) : ActionNew :=
  mkNew layer price qty side 7 ps.

Lemma spot_never_rate_limited_witness :
  let v := mkVenue 10 1 100 1000 1 in
  erase_four v 5 [4; 4; 4; 4] [demo_new 0 10 1 kBuy None] ≡ₚ [demo_new 0 10 1 kBuy None] /\
  erase_four v 5 [4; 4; 4; 4] [demo_new 0 10 1 kBuy (Some kLong)] = [].
Proof.
  split; [|by vm_compute].
  apply (spot_never_rate_limited (mkVenue 10 1 100 1000 1) 5 [4; 4; 4; 4] [demo_new 0 10 1 kBuy None]).
  by repeat constructor.
Defined.

(** ** Quantities *)

Lemma round_qty_spec v q :
  0 < qty_increment_ v -> 0 <= q ->
  (qty_increment_ v | round_qty v q) /\ q <= round_qty v q < q + qty_increment_ v.
Proof.
  intros Hinc Hq. unfold round_qty. split; [apply Z.divide_factor_r|].
  rewrite Z.quot_div_nonneg by lia. zdiv.
Qed.

Lemma round_qty_multiple v q :
  0 < qty_increment_ v -> 0 <= q -> (qty_increment_ v | q) -> round_qty v q = q.
Proof.
  intros Hinc Hq [k ->]. unfold round_qty. rewrite Z.quot_div_nonneg by lia.
  f_equal. assert (0 <= k) by nia. symmetry. apply (Z.div_unique_pos _ _ _ (qty_increment_ v - 1)); lia.
Qed.

(** What the venue filter guarantees of a quantity.  For sane limits and a
    positive price the fitted quantity is a multiple of the lot size, at least
    the venue's minimum, and less than one lot above its maximum; it is at least
    the requested quantity unless the maximum caps it; and unless the maximum
    caps it the notional is short of the venue's minimum by less than the price
    of one quantity unit (the minimum-notional quantity is rounded down). *)
Theorem fit_qty_limits cfg v price qty :
  0 < qty_increment_ v -> 0 < kQtyScale cfg -> 0 < price ->
  0 <= minimum_qty_ v <= maximum_qty_ v -> 0 <= minimum_usdt_ v ->
  let r := fit_qty cfg v price qty in
  (qty_increment_ v | r) /\
  minimum_qty_ v <= r < maximum_qty_ v + qty_increment_ v /\
  (Z.min qty (maximum_qty_ v) <= r) /\
  (r < maximum_qty_ v -> minimum_usdt_ v * kQtyScale cfg - price < price * r).
Proof.
  intros Hinc Hsc Hp Hmin Husdt. cbn zeta. unfold fit_qty.
  set (q1 := if qty <? minimum_qty_ v then minimum_qty_ v else qty).
  assert (Hq1 : minimum_qty_ v <= q1 /\ qty <= q1) by (unfold q1; destruct (Z.ltb_spec qty (minimum_qty_ v)); lia).
  set (q2 := if _ <? minimum_usdt_ v then _ else q1).
  assert (Hq2 : q1 <= q2 /\ minimum_usdt_ v * kQtyScale cfg - price < price * q2).
  { unfold q2. rewrite Z.quot_div_nonneg by nia.
    rewrite (Z.quot_div_nonneg (minimum_usdt_ v * kQtyScale cfg)) by nia.
    pose proof (Z.mul_succ_div_gt (price * q1) (kQtyScale cfg) Hsc).
    pose proof (Z.mul_div_le (price * q1) (kQtyScale cfg) Hsc).
    pose proof (Z.mul_succ_div_gt (minimum_usdt_ v * kQtyScale cfg) price Hp).
    destruct (Z.ltb_spec (price * q1 / kQtyScale cfg) (minimum_usdt_ v)); nia. }
  set (q3 := if maximum_qty_ v <? q2 then maximum_qty_ v else q2).
  assert (Hq3 : q3 = Z.min q2 (maximum_qty_ v))
    by (unfold q3; destruct (Z.ltb_spec (maximum_qty_ v) q2); lia).
  destruct (round_qty_spec v q3) as [Hd Hr]; [lia | lia |].
  split_and!; [done | lia | lia | lia |]. intros Hlt. nia.
Qed.

Lemma fit_qty_limits_witness :
  fit_qty XRPUSDCConfig (mkVenue 5000000 1000 100000 0 100) 2300000 10 = 2200 /\
  (100 | fit_qty XRPUSDCConfig (mkVenue 5000000 1000 100000 0 100) 2300000 10).
Proof.
  split; [by vm_compute|].
  apply (fit_qty_limits XRPUSDCConfig (mkVenue 5000000 1000 100000 0 100) 2300000 10); cbn; lia.
Defined.

(** ** Reconciliation *)

(** An intent that asks for an order. *)
Definition wants (intents : list QuoteIntent) (side : Side) (ps : option PositionSide) (price qty : Z)
    : Prop :=
  0 < qty /\ is_valid price = true /\
  exists intent, intent ∈ intents /\ qi_side intent = side /\ qi_position_side intent = ps /\
    qi_price intent = Some price /\ qi_qty intent = qty.

Definition new_ok (intents : list QuoteIntent) (ticker : string) (b : Books) (now : Z) (a : ActionNew)
    : Prop :=
  wants intents (n_side a) (n_position_side a) (n_price a) (n_qty a) /\
  n_cl_order_id a = now /\ 0 <= n_layer a < 8 /\
  let slot := zget (slots (side_book ticker (n_side a) (n_position_side a) b)) (n_layer a) in
  (state slot = OMInvalid \/ state slot = OMDead).

Definition replace_ok (intents : list QuoteIntent) (ticker : string) (b : Books) (now : Z)
    (a : ActionReplace) : Prop :=
  wants intents (r_side a) (r_position_side a) (r_price a) (r_qty a) /\
  r_cl_order_id a = now /\ 0 <= r_layer a < 8 /\
  let slot := zget (slots (side_book ticker (r_side a) (r_position_side a) b)) (r_layer a) in
  state slot = OMLive /\ r_original_cl_order_id a = slot_cl_order_id slot /\ r_last_qty a = qty slot.

Definition actions_ok intents ticker b now (acts : Actions) : Prop :=
  Forall (new_ok intents ticker b now) (news acts) /\
  Forall (replace_ok intents ticker b now) (repls acts) /\ cancels acts = [].

Lemma diff_intent_ok rc intents ticker b now side acts intent :
  intent ∈ intents -> actions_ok intents ticker b now acts ->
  actions_ok intents ticker b now (diff_intent rc ticker b now side acts intent).
Proof.
  intros Hin (Hn & Hr & Hc). unfold diff_intent.
  case_bool_decide as Hside; simpl; [|done].
  destruct (qi_price intent) as [price|] eqn:Hprice; [|done].
  destruct (is_valid price && (0 <? qi_qty intent)) eqn:Hact; simpl; [|done].
  apply andb_true_iff in Hact as [Hvalid Hqty%Z.ltb_lt].
  assert (Hw : wants intents side (qi_position_side intent) price (qi_qty intent))
    by (split_and!; [done|done|exists intent; naive_solver]).
  set (sb := side_book ticker side _ b). set (tick := to_ticks_raw _ price).
  pose proof (plan_layer_range sb tick) as Hrange.
  destruct (victim_live_layer (plan_layer sb tick)) as [l|] eqn:Hv.
  { apply plan_layer_victim in Hv as [-> Hlive]. split_and!; cbn; try done.
    apply Forall_app. split; [done|]. repeat constructor; try done; try apply Hw; try apply Hrange. }
  destruct (state (zget (slots sb) (ap_layer (plan_layer sb tick)))) eqn:Hst; try done.
  2: destruct (_ || _); [|done].
  all: split_and!; cbn; try done; apply Forall_app; split; [done|]; apply Forall_singleton.
  all: split_and!; cbn; auto; lia.
Qed.

Lemma diff_ok rc first rest b now :
  actions_ok (first :: rest) (qi_ticker first) b now (diff rc (first :: rest) b now).
Proof.
  set (intents := first :: rest).
  assert (Hfold : forall side l acts, (forall i, i ∈ l -> i ∈ intents) ->
    actions_ok intents (qi_ticker first) b now acts ->
    actions_ok intents (qi_ticker first) b now
      (fold_left (diff_intent rc (qi_ticker first) b now side) l acts)).
  { intros side l. induction l as [|i l IH]; intros acts Hsub Hok; [done|].
    apply IH; [intros; apply Hsub; by right|]. apply diff_intent_ok; [apply Hsub; by left|done]. }
  apply (Hfold kSell intents (fold_left (diff_intent rc (qi_ticker first) b now kBuy) intents no_actions));
    [done|]. apply Hfold; [done|]. repeat constructor.
Qed.

(** [diff] only acts on what an intent asks for and never on an order in
    flight.  Each new order and each replacement carries the price and quantity
    of an active intent of its side and the current time as its id, on a layer
    in range; a new order only takes a slot without an order, a replacement only
    a live one, naming that order's id and quantity; nothing is cancelled. *)
Theorem diff_actions_sound rc first rest b now :
  let intents := first :: rest in
  let acts := diff rc intents b now in
  let slot side ps layer := zget (slots (side_book (qi_ticker first) side ps b)) layer in
  (forall a, a ∈ news acts ->
     wants intents (n_side a) (n_position_side a) (n_price a) (n_qty a) /\
     n_cl_order_id a = now /\ 0 <= n_layer a < 8 /\
     (state (slot (n_side a) (n_position_side a) (n_layer a)) = OMInvalid \/
      state (slot (n_side a) (n_position_side a) (n_layer a)) = OMDead)) /\
  (forall a, a ∈ repls acts ->
     wants intents (r_side a) (r_position_side a) (r_price a) (r_qty a) /\
     r_cl_order_id a = now /\ 0 <= r_layer a < 8 /\
     let s := slot (r_side a) (r_position_side a) (r_layer a) in
     state s = OMLive /\ r_original_cl_order_id a = slot_cl_order_id s /\ r_last_qty a = qty s) /\
  cancels acts = [].
Proof.
  destruct (diff_ok rc first rest b now) as (Hn & Hr & Hc). rewrite Forall_forall in Hn. rewrite Forall_forall in Hr.
  cbn zeta. split_and!; [exact Hn | exact Hr | exact Hc].
Qed.

(** Two new quotes of one side collide.  On a book without orders, two
    active intents of the same side are both planned on layer 0 and both get the
    same order id, since [plan_layer] sees the book before either is placed and
    the id is the one clock reading of the call. *)
Theorem diff_new_quotes_collide rc ticker side ps p1 q1 p2 q2 now :
  side = kBuy \/ side = kSell -> (ps = None \/ ps = Some kLong \/ ps = Some kShort) ->
  is_valid p1 = true -> is_valid p2 = true -> 0 < q1 -> 0 < q2 ->
  to_ticks_raw (rc_scale_int rc) p1 <> 0 -> to_ticks_raw (rc_scale_int rc) p2 <> 0 ->
  diff rc [mkIntent ticker side ps (Some p1) q1; mkIntent ticker side ps (Some p2) q2] ∅ now =
  mkActions [mkNew 0 p1 q1 side now ps; mkNew 0 p2 q2 side now ps] [] [].
Proof.
  intros Hside Hps Hv1 Hv2 Hq1%Z.ltb_lt Hq2%Z.ltb_lt Ht1 Ht2.
  assert (Hsb : side_book ticker side ps ∅ = new_side_book)
    by (destruct Hside as [-> | ->], Hps as [->|[->| ->]]; done).
  assert (Hplan : forall t, t <> 0 -> plan_layer new_side_book t = mkPlan 0 None t).
  { intros t Ht. unfold plan_layer, find_layer_by_ticks.
    rewrite (proj2 (find_idx_none _)); [done|].
    intros i Hi. apply Z.eqb_neq. 
    change (zget (replicate 8 kTicksInvalid) i <> t). rewrite zget_replicate by (simpl; lia). done. }
  assert (Hstep : forall acts p q, is_valid p = true -> (0 <? q) = true ->
    to_ticks_raw (rc_scale_int rc) p <> 0 ->
    diff_intent rc ticker ∅ now side acts (mkIntent ticker side ps (Some p) q) =
    mkActions (news acts ++ [mkNew 0 p q side now ps]) (repls acts) (cancels acts)).
  { intros acts p q Hv Hq Ht. unfold diff_intent. cbn [qi_side qi_price qi_qty qi_position_side].
    rewrite bool_decide_eq_true_2 by done. cbn [negb]. rewrite Hv, Hq, Hsb, Hplan by done. done. }
  unfold diff. cbn [fold_left qi_ticker].
  destruct Hside as [-> | ->].
  - rewrite !Hstep by done. done.
  - unfold diff_intent at 3 4. cbn [qi_side]. rewrite bool_decide_eq_false_2 by done. cbn [negb].
    rewrite !Hstep by done. done.
Qed.

Lemma diff_new_quotes_collide_witness :
  diff (mkReconciler 1 1 1)
    [mkIntent "BTCUSDC" kBuy (Some kLong) (Some 1000) 5; mkIntent "BTCUSDC" kBuy (Some kLong) (Some 990) 5]
    ∅ 42 =
  mkActions [mkNew 0 1000 5 kBuy 42 (Some kLong); mkNew 0 990 5 kBuy 42 (Some kLong)] [] [].
Proof.
  apply (diff_new_quotes_collide (mkReconciler 1 1 1) "BTCUSDC" kBuy (Some kLong) 1000 5 990 5 42);
    (by left) || (by right; left) || done.
Defined.

End QuoteReconciler.
