(* ===== verification/OrderStateManager.v ===== *)
(** * Execution reports (src/hft/src/order_state_manager.cpp)

    [handle_execution_report] and its seven handlers, as functions of a side
    book and the reserved position (the [ReservedPositionTracker] they update).
    Log calls are left out. *)

From S2P Require Import Prelude Types LayerBook QuoteReconciler.

Module OrderStateManager.

Import LayerBook QuoteReconciler.

Section Handlers.

(** [tick_converter_.scale_int] *)
Context (scale_int : Z).

Definition St : Type := SideBook * Z.

Definition find_layer (sb : SideBook) (order_id price : Z) : Z :=
  let layer := find_layer_by_id sb order_id in
  if 0 <=? layer then layer
  else find_layer_by_ticks sb (to_ticks_raw scale_int price).

Definition report_layer (r : ExecutionReport) (sb : SideBook) : Z :=
  find_layer sb (cl_order_id r) (er_price r).

Definition slot_at (sb : SideBook) (layer : Z) : OrderSlot := zget (slots sb) layer.

Definition set_state (layer : Z) (st : OMOrderState) (sb : SideBook) : SideBook :=
  set_slot layer (with_state st (slot_at sb layer)) sb.

Definition handle_pending_new (r : ExecutionReport) (sb : SideBook) : SideBook :=
  let layer := report_layer r sb in
  if layer <? 0 then sb else set_state layer OMPendingNew sb.

(** The layer [handle_new] acts on. *)
Definition new_layer (r : ExecutionReport) (sb : SideBook) : Z :=
  let layer := default (-1) (new_id_to_layer sb !! cl_order_id r) in
  if layer <? 0 then report_layer r sb else layer.

Definition handle_new (r : ExecutionReport) (sb : SideBook) : SideBook :=
  let layer := new_layer r sb in
  if layer <? 0 then sb
  else
    let live := mkSlot OMLive (er_price r) (leaves_qty r) (last_used (slot_at sb layer)) (cl_order_id r) in
    match zget (pending_repl sb) layer with
    | Some pend =>
        let sb1 := set_pending layer None (set_slot layer live (set_tick layer (new_tick pend) sb)) in
        set_new_ids (delete (cl_order_id r) (new_id_to_layer sb1)) sb1
    | None =>
        set_slot layer live (set_tick layer (to_ticks_raw scale_int (er_price r)) sb)
    end.

Definition handle_partially_filled (now_ns : Z) (r : ExecutionReport) (s : St) : St :=
  let '(sb, reserved) := s in
  let layer := report_layer r sb in
  if layer <? 0 then s
  else
    let slot := slot_at sb layer in
    let filled_qty := qty slot - leaves_qty r in
    let reserved := remove_partial_fill (er_side r) filled_qty reserved in
    let st := if leaves_qty r <=? 0 then OMDead else OMLive in
    let slot := with_state st (with_qty (leaves_qty r) slot) in
    if bool_decide (st = OMDead)
    then (unmap_layer layer (set_slot layer slot sb), reserved)
    else (set_slot layer (with_last_used now_ns slot) sb, reserved).

Definition handle_filled (r : ExecutionReport) (s : St) : St :=
  let '(sb, reserved) := s in
  let layer := report_layer r sb in
  if layer <? 0 then s
  else
    let slot := slot_at sb layer in
    (unmap_layer layer (set_slot layer (with_state OMDead (with_qty (leaves_qty r) slot)) sb),
     remove_reserved (er_side r) (qty slot) reserved).

Definition handle_pending_cancel (r : ExecutionReport) (sb : SideBook) : SideBook :=
  let layer := report_layer r sb in
  if layer <? 0 then sb else set_state layer OMPendingCancel sb.

(** The end of an order that is not being replaced: its reservation is released,
    the slot is dead and its layer unmapped. *)
Definition release (layer : Z) (r : ExecutionReport) (s : St) : St :=
  let '(sb, reserved) := s in
  (unmap_layer layer (set_state layer OMDead sb),
   remove_reserved (er_side r) (qty (slot_at sb layer)) reserved).

Definition handle_canceled (r : ExecutionReport) (s : St) : St :=
  let '(sb, reserved) := s in
  match orig_id_to_layer sb !! cl_order_id r with
  | Some layer =>
      (set_state layer OMReserved
         (set_orig_ids (delete (cl_order_id r) (orig_id_to_layer sb)) sb), reserved)
  | None =>
      let layer := report_layer r sb in
      if layer <? 0 then s else release layer r s
  end.

(** The pending replacement a rejection refers to. *)
Definition rejected_replace (r : ExecutionReport) (sb : SideBook) : option (Z * PendingReplaceInfo) :=
  layer ← new_id_to_layer sb !! cl_order_id r;
  if 0 <=? layer then pend ← zget (pending_repl sb) layer; Some (layer, pend) else None.

Definition handle_rejected_or_expired (r : ExecutionReport) (s : St) : St :=
  let '(sb, reserved) := s in
  match rejected_replace r sb with
  | Some (layer, pend) =>
      let delta_qty := new_qty pend - pr_last_qty pend in
      let sb := set_pending layer None sb in
      let sb := set_new_ids (delete (cl_order_id r) (new_id_to_layer sb)) sb in
      let slot := mkSlot OMLive (original_price pend) (pr_last_qty pend)
                    (last_used (slot_at sb layer)) (original_cl_order_id pend) in
      let sb := set_tick layer (original_tick pend) (set_slot layer slot sb) in
      let cancel_id := u64 (cl_order_id r - 1) in
      (set_orig_ids (delete cancel_id (orig_id_to_layer sb)) sb,
       remove_reserved (er_side r) delta_qty reserved)
  | None =>
      let layer := report_layer r sb in
      if 0 <=? layer then release layer r s else s
  end.

Definition handle_execution_report (now_ns : Z) (r : ExecutionReport) (s : St) : St :=
  let '(sb, reserved) := s in
  match ord_status r with
  | OSPendingNew => (handle_pending_new r sb, reserved)
  | OSNew => (handle_new r sb, reserved)
  | OSPartiallyFilled => handle_partially_filled now_ns r s
  | OSFilled => handle_filled r s
  | OSPendingCancel => (handle_pending_cancel r sb, reserved)
  | OSCanceled => handle_canceled r s
  | OSRejected | OSExpired => handle_rejected_or_expired r s
  | OSInvalid => s
  end.

(** ** Exposure *)

Definition working (s : OrderSlot) : bool :=
  negb (bool_decide (state s = OMInvalid) || bool_decide (state s = OMDead)).

Definition slot_exposure (s : OrderSlot) : Z := if working s then qty s else 0.

(** The quantity of all working orders of a side book. *)
Definition exposure (sb : SideBook) : Z := zsum (slot_exposure <$> slots sb).

Lemma sum_insert (f : OrderSlot -> Z) l i x y :
  l !! i = Some y -> zsum (f <$> <[i := x]> l) = zsum (f <$> l) - f y + f x.
Proof.
  intros H. rewrite <- (take_drop_middle l i y H) at 2.
  apply lookup_lt_Some in H as Hlt.
  rewrite insert_take_drop by done. rewrite !fmap_app, !fmap_cons, !zsum_app. simpl. lia.
Qed.

Lemma exposure_set_slot layer s sb :
  wf_sb sb -> 0 <= layer < 8 ->
  exposure (set_slot layer s sb) = exposure sb - slot_exposure (slot_at sb layer) + slot_exposure s.
Proof.
  intros Hwf Hl. unfold exposure, set_slot, zset. cbn [slots].
  rewrite bool_decide_eq_true_2 by lia.
  apply sum_insert. apply zget_Some. rewrite (wf_slots _ Hwf). lia.
Qed.

Lemma wf_set_slot layer s sb : wf_sb sb -> wf_sb (set_slot layer s sb).
Proof. intros [????]. constructor; cbn; rewrite ?zlen_zset; eauto. Qed.
Lemma wf_set_tick layer t sb : wf_sb sb -> wf_sb (set_tick layer t sb).
Proof. intros [????]. constructor; cbn; rewrite ?zlen_zset; eauto. Qed.
Lemma wf_set_pending layer p sb : wf_sb sb -> wf_sb (set_pending layer p sb).
Proof. intros [????]. constructor; cbn; rewrite ?zlen_zset; eauto. Qed.
Lemma wf_set_new_ids m sb : wf_sb sb -> ids_ok m -> wf_sb (set_new_ids m sb).
Proof. intros [????]. constructor; cbn; eauto. Qed.
Lemma wf_set_orig_ids m sb : wf_sb sb -> ids_ok m -> wf_sb (set_orig_ids m sb).
Proof. intros [????]. constructor; cbn; eauto. Qed.
Lemma ids_ok_delete k m : ids_ok m -> ids_ok (delete k m).
Proof. intros H i l [_ Hl]%lookup_delete_Some. by eapply H. Qed.
Hint Resolve wf_set_slot wf_set_tick wf_set_pending wf_unmap wf_set_new_ids wf_set_orig_ids
  ids_ok_delete wf_orig wf_new : hft.

(** Every handler keeps the side book well formed. *)
Lemma report_wf now r sb reserved :
  wf_sb sb -> wf_sb (handle_execution_report now r (sb, reserved)).1.
Proof.
  intros H. unfold handle_execution_report, handle_pending_new, handle_new, handle_partially_filled,
    handle_filled, handle_pending_cancel, handle_canceled, handle_rejected_or_expired, release, set_state.
  destruct (ord_status r); repeat case_match; simplify_eq; simpl; eauto 10 with hft.
Qed.

(** The layer a report acts on. *)
Definition target (r : ExecutionReport) (sb : SideBook) : Z :=
  match ord_status r with
  | OSNew => new_layer r sb
  | OSCanceled => default (report_layer r sb) (orig_id_to_layer sb !! cl_order_id r)
  | OSRejected | OSExpired =>
      match rejected_replace r sb with Some (l, _) => l | None => report_layer r sb end
  | _ => report_layer r sb
  end.

Lemma report_layer_range r sb : -1 <= report_layer r sb < 8.
Proof.
  unfold report_layer, find_layer, find_layer_by_id, find_layer_by_ticks.
  repeat case_match; try apply find_idx_range; lia.
Qed.

Lemma target_range r sb : wf_sb sb -> -1 <= target r sb < 8.
Proof.
  intros H. pose proof (report_layer_range r sb) as Hr.
  unfold target, new_layer, rejected_replace. destruct (ord_status r); try done.
  - destruct (new_id_to_layer sb !! _) as [l|] eqn:E; simpl; [apply (wf_new _ H) in E|done].
    rewrite (proj2 (Z.ltb_ge l 0)); lia.
  - destruct (orig_id_to_layer sb !! _) as [l|] eqn:E; simpl; [apply (wf_orig _ H) in E; lia|done].
  - destruct (new_id_to_layer sb !! _) as [l|] eqn:E; simpl; [apply (wf_new _ H) in E|done].
    destruct (0 <=? l), (zget (pending_repl sb) l); simpl; done || lia.
  - destruct (new_id_to_layer sb !! _) as [l|] eqn:E; simpl; [apply (wf_new _ H) in E|done].
    destruct (0 <=? l), (zget (pending_repl sb) l); simpl; done || lia.
Qed.

(** A report that agrees with the slot it acts on: the slot has a working order;
    an acknowledgement leaves its whole quantity; a partial fill leaves no
    negative quantity; a rejected replacement is for the slot's quantity. *)
Definition agrees (r : ExecutionReport) (sb : SideBook) : Prop :=
  let slot := slot_at sb (target r sb) in
  working slot = true /\
  match ord_status r with
  | OSNew => leaves_qty r = qty slot
  | OSPartiallyFilled => 0 <= leaves_qty r
  | OSRejected | OSExpired =>
      match rejected_replace r sb with Some (_, p) => new_qty p = qty slot | None => True end
  | _ => True
  end.

Lemma slot_exposure_working s : working s = true -> slot_exposure s = qty s.
Proof. unfold slot_exposure. by intros ->. Qed.

Lemma slot_exposure_idle s : working s = false -> slot_exposure s = 0.
Proof. unfold slot_exposure. by intros ->. Qed.

Lemma exposure_unmap layer sb : exposure (unmap_layer layer sb) = exposure sb.
Proof. done. Qed.

Lemma slot_exposure_mk st p q u i :
  slot_exposure (mkSlot st p q u i) = match st with OMInvalid | OMDead => 0 | _ => q end.
Proof. by destruct st. Qed.

(** Evaluates the exposure of the slots in the goal. *)
Ltac expo Hw :=
  rewrite (slot_exposure_working _ Hw); unfold with_state, with_qty, with_last_used;
  rewrite slot_exposure_mk; unfold slot_at in *; cbn [state qty slots set_orig_ids]; lia.

(** One slot changes and the reservation changes by the released quantity. *)
Lemma slot_tracks layer s sb sb' side q reserved reserved' :
  wf_sb sb -> 0 <= layer < 8 ->
  slots sb' = zset (slots sb) layer s -> reserved' = reserved - sideToValue side * q ->
  slot_exposure s = slot_exposure (slot_at sb layer) - q ->
  reserved' - reserved = sideToValue side * (exposure sb' - exposure sb).
Proof.
  intros Hwf Hl Hs -> Hq. pose proof (exposure_set_slot layer s sb Hwf Hl) as E.
  unfold exposure, set_slot in *. cbn [slots] in E. rewrite Hs, E, Hq. lia.
Qed.

Lemma release_tracks layer r sb reserved :
  wf_sb sb -> 0 <= layer < 8 -> working (slot_at sb layer) = true ->
  (release layer r (sb, reserved)).2 - reserved =
  sideToValue (er_side r) * (exposure (release layer r (sb, reserved)).1 - exposure sb).
Proof.
  intros Hwf Hl Hw. eapply (slot_tracks layer); try done.
  expo Hw.
Qed.

Lemma no_change_tracks side sb reserved :
  reserved - reserved = sideToValue side * (exposure sb - exposure sb).
Proof. lia. Qed.

Lemma rejected_tracks r sb reserved :
  let tgt := match rejected_replace r sb with Some (l, _) => l | None => report_layer r sb end in
  wf_sb sb -> -1 <= tgt < 8 ->
  (0 <= tgt -> working (slot_at sb tgt) = true /\
     match rejected_replace r sb with Some (_, p) => new_qty p = qty (slot_at sb tgt) | None => True end) ->
  (handle_rejected_or_expired r (sb, reserved)).2 - reserved =
  sideToValue (er_side r) * (exposure (handle_rejected_or_expired r (sb, reserved)).1 - exposure sb).
Proof.
  intros tgt Hwf Ht Hag. subst tgt. unfold handle_rejected_or_expired.
  destruct (rejected_replace r sb) as [[l p]|] eqn:E.
  - assert (0 <= l).
    { unfold rejected_replace in E. destruct (new_id_to_layer sb !! _) as [l'|]; simpl in E; [|done].
      destruct (Z.leb_spec 0 l'); [|done]. destruct (zget (pending_repl sb) l'); naive_solver. }
    destruct Hag as [Hw Hq]; [lia|]. eapply (slot_tracks l); try done; [lia|].
    expo Hw.
  - destruct (Z.leb_spec 0 (report_layer r sb)); [|apply no_change_tracks].
    destruct Hag as [Hw _]; [lia|]. apply release_tracks; [done | lia | done].
Qed.

(** The reserved position follows the working orders.  For every report
    that agrees with the slot it acts on, and for every report that matches no
    slot, the change of the reserved position is the side's sign times the
    change of the total quantity of working orders. *)
Lemma report_tracks_exposure now r sb reserved :
  wf_sb sb -> (0 <= target r sb -> agrees r sb) ->
  (handle_execution_report now r (sb, reserved)).2 - reserved =
  sideToValue (er_side r) *
    (exposure (handle_execution_report now r (sb, reserved)).1 - exposure sb).
Proof.
  intros Hwf Hag. pose proof (target_range r sb Hwf) as Ht. unfold target, agrees, target in *.
  unfold handle_execution_report. destruct (ord_status r) eqn:Hst; cbn [fst snd].
  - apply no_change_tracks.
  - unfold handle_new. destruct (Z.ltb_spec (new_layer r sb) 0); [apply no_change_tracks|].
    destruct Hag as [Hw Hq]; [lia|].
    destruct (zget (pending_repl sb) (new_layer r sb));
      (eapply (slot_tracks (new_layer r sb) _ _ _ _ 0); try done; [lia | lia |]);
      expo Hw.
  - unfold handle_partially_filled. destruct (Z.ltb_spec (report_layer r sb) 0); [apply no_change_tracks|].
    destruct Hag as [Hw Hq]; [lia|].
    case_bool_decide as Hd; (eapply (slot_tracks (report_layer r sb)); try done; [lia|]);
      destruct (Z.leb_spec (leaves_qty r) 0); try done; expo Hw.
  - unfold handle_filled. destruct (Z.ltb_spec (report_layer r sb) 0); [apply no_change_tracks|].
    destruct Hag as [Hw _]; [lia|]. eapply (slot_tracks (report_layer r sb)); try done; [lia|].
    expo Hw.
  - unfold handle_canceled. destruct (orig_id_to_layer sb !! _) as [l|] eqn:E; cbn in Hag, Ht.
    + apply (wf_orig _ Hwf) in E. destruct Hag as [Hw _]; [lia|].
      eapply (slot_tracks l _ _ _ _ 0); try done; [cbn; lia|].
      expo Hw.
    + destruct (Z.ltb_spec (report_layer r sb) 0); [apply no_change_tracks|].
      destruct Hag as [Hw _]; [lia|]. apply release_tracks; [done | lia | done].
  - unfold handle_pending_cancel, set_state. destruct (Z.ltb_spec (report_layer r sb) 0); [apply no_change_tracks|].
    destruct Hag as [Hw _]; [lia|]. eapply (slot_tracks (report_layer r sb) _ _ _ _ 0); try done; [lia | lia |].
    expo Hw.
  - apply (rejected_tracks r sb reserved Hwf Ht Hag).
  - unfold handle_pending_new, set_state. destruct (Z.ltb_spec (report_layer r sb) 0); [apply no_change_tracks|].
    destruct Hag as [Hw _]; [lia|]. eapply (slot_tracks (report_layer r sb) _ _ _ _ 0); try done; [lia | lia |].
    expo Hw.
  - apply (rejected_tracks r sb reserved Hwf Ht Hag).
Qed.

(** The end of an order frees its layer and nothing else.  A fill, a cancel
    or a rejection that is not part of a replacement, or a partial fill that
    leaves nothing, makes the slot dead and removes the layer's tick, pending
    replacement and ids; every other slot, tick and pending replacement stays. *)
Theorem terminal_report_frees_layer now r sb reserved :
  wf_sb sb ->
  let l := report_layer r sb in
  let sb' := (handle_execution_report now r (sb, reserved)).1 in
  0 <= l ->
  (ord_status r = OSFilled \/ (ord_status r = OSPartiallyFilled /\ leaves_qty r <= 0) \/
   (ord_status r = OSCanceled /\ orig_id_to_layer sb !! cl_order_id r = None) \/
   ((ord_status r = OSRejected \/ ord_status r = OSExpired) /\ rejected_replace r sb = None)) ->
  state (slot_at sb' l) = OMDead /\ zget (layer_ticks sb') l = kTicksInvalid /\
  zget (pending_repl sb') l = None /\
  (forall k, orig_id_to_layer sb' !! k <> Some l /\ new_id_to_layer sb' !! k <> Some l) /\
  forall i, i <> l ->
    slot_at sb' i = slot_at sb i /\ zget (layer_ticks sb') i = zget (layer_ticks sb) i /\
    zget (pending_repl sb') i = zget (pending_repl sb) i.
Proof.
  intros Hwf l sb' Hl Hcase. pose proof (report_layer_range r sb) as Hr. fold l in Hr.
  assert (Hdead : exists s, state s = OMDead /\ sb' = unmap_layer l (set_slot l s sb)).
  { subst sb'. unfold handle_execution_report.
    destruct Hcase as [->|[[-> Hq]|[[-> Ho]|[Hs Hrr]]]].
    - unfold handle_filled. fold l. rewrite (proj2 (Z.ltb_ge l 0)) by lia. eexists; split; [|reflexivity]; done.
    - unfold handle_partially_filled. fold l. rewrite (proj2 (Z.ltb_ge l 0)), (proj2 (Z.leb_le _ _) Hq) by lia.
      eexists; split; [|reflexivity]; done.
    - unfold handle_canceled. rewrite Ho. fold l. rewrite (proj2 (Z.ltb_ge l 0)) by lia. eexists; split; [|reflexivity]; done.
    - assert (E : (handle_rejected_or_expired r (sb, reserved)).1 = unmap_layer l (set_state l OMDead sb)).
      { unfold handle_rejected_or_expired. rewrite Hrr. fold l. by rewrite (proj2 (Z.leb_le 0 l)). }
      destruct Hs as [-> | ->]; rewrite E; (eexists; split; [|reflexivity]; done). }
  clearbody sb'. destruct Hdead as (s & Hs & ->). clear Hcase. destruct Hwf as [H1 H2 H3 _ _].
  unfold slot_at, unmap_layer. cbn.
  rewrite !zget_zset_eq by lia. split_and!; try done.
  - intros k. split; intros [_ ?]%map_lookup_filter_Some; done.
  - intros i Hi. by rewrite !zget_zset_ne.
Qed.

(** A cancel report that arrives twice releases the reservation twice.
    Cancelling leaves the slot's id and quantity in place, so a second terminal
    report for the same order finds the dead slot again. *)
Theorem duplicate_cancel_releases_twice now1 now2 r r' sb reserved :
  wf_sb sb -> ord_status r = OSCanceled -> (ord_status r' = OSCanceled \/ ord_status r' = OSExpired) ->
  cl_order_id r' = cl_order_id r -> er_side r' = er_side r ->
  let l := find_layer_by_id sb (cl_order_id r) in
  0 <= l -> orig_id_to_layer sb !! cl_order_id r = None -> new_id_to_layer sb !! cl_order_id r = None ->
  (handle_execution_report now2 r' (handle_execution_report now1 r (sb, reserved))).2 =
  reserved - 2 * (sideToValue (er_side r) * qty (slot_at sb l)).
Proof.
  intros Hwf Hst Hst' Hid Hside l Hl Ho Hn.
  assert (Hlr : 0 <= l < 8).
  { unfold l, find_layer_by_id in *. destruct (_ =? _); [lia|].
    pose proof (find_idx_range (fun idx => slot_cl_order_id (zget (slots sb) idx) =? cl_order_id r)). lia. }
  assert (Hrl : forall x s0, cl_order_id x = cl_order_id r -> find_layer_by_id s0 (cl_order_id r) = l ->
            report_layer x s0 = l).
  { intros x s0 Hx Hs0. unfold report_layer, find_layer. rewrite Hx, Hs0, (proj2 (Z.leb_le 0 l)); lia. }
  assert (Hids : find_layer_by_id (unmap_layer l (set_state l OMDead sb)) (cl_order_id r) = l).
  { unfold l at 3, find_layer_by_id. destruct (_ =? _); [done|]. apply find_idx_ext. intros i.
    unfold unmap_layer, set_state, slot_at. cbn. destruct (decide (i = l)) as [->|].
    - by rewrite zget_zset_eq by (rewrite (wf_slots _ Hwf); lia).
    - by rewrite zget_zset_ne. }
  assert (E1 : handle_execution_report now1 r (sb, reserved) = release l r (sb, reserved)).
  { unfold handle_execution_report. rewrite Hst. unfold handle_canceled. rewrite Ho, (Hrl r sb) by done.
    by rewrite (proj2 (Z.ltb_ge l 0)) by lia. }
  rewrite E1. unfold release at 1. cbv zeta.
  set (sb1 := unmap_layer l (set_state l OMDead sb)) in *.
  assert (Ho1 : orig_id_to_layer sb1 !! cl_order_id r = None) by (apply map_lookup_filter_None; by left).
  assert (Hn1 : new_id_to_layer sb1 !! cl_order_id r = None) by (apply map_lookup_filter_None; by left).
  assert (E2 : forall res, handle_execution_report now2 r' (sb1, res) = release l r' (sb1, res)).
  { intros res. unfold handle_execution_report.
    destruct Hst' as [-> | ->]; unfold handle_canceled, handle_rejected_or_expired, rejected_replace;
      rewrite Hid, ?Ho1, ?Hn1, (Hrl r' sb1) by done; simpl.
    - by rewrite (proj2 (Z.ltb_ge l 0)) by lia.
    - by rewrite (proj2 (Z.leb_le 0 l)) by lia. }
  rewrite E2. unfold release, remove_reserved, sb1, unmap_layer, set_state, slot_at. cbn.
  rewrite zget_zset_eq by (rewrite (wf_slots _ Hwf); lia). cbn. rewrite Hside. lia.
Qed.

End Handlers.

(** ** Witnesses *)

Definition demo_slot (st : OMOrderState) (q id : Z) : OrderSlot := mkSlot st 1000 q 0 id.
Definition demo_side_book : SideBook :=
  set_tick 0 1000 (set_slot 0 (demo_slot OMLive 5 77) new_side_book).
Definition demo_report (st : OrdStatus) (leaves : Z) : ExecutionReport :=
  mkReport 77 "BTCUSDC" ETTrade st leaves 0 1000 kBuy (Some kLong).

Lemma new_side_book_wf : wf_sb new_side_book.
Proof. constructor; try done; intros k l; by rewrite lookup_empty. Qed.

Lemma demo_side_book_wf : wf_sb demo_side_book.
Proof. apply wf_set_tick, wf_set_slot, new_side_book_wf. Qed.

Lemma terminal_report_frees_layer_witness :
  state (slot_at (handle_execution_report 1 9 (demo_report OSFilled 0) (demo_side_book, 5)).1 0) = OMDead.
Proof.
  apply (terminal_report_frees_layer 1 9 (demo_report OSFilled 0) demo_side_book 5);
    [exact demo_side_book_wf | by vm_compute | by left].
Defined.

Lemma duplicate_cancel_releases_twice_witness :
  (handle_execution_report 1 10 (demo_report OSCanceled 0)
     (handle_execution_report 1 9 (demo_report OSCanceled 0) (demo_side_book, 5))).2 = -5.
Proof.
  apply (duplicate_cancel_releases_twice 1 9 10 (demo_report OSCanceled 0) (demo_report OSCanceled 0)
           demo_side_book 5);
    [exact demo_side_book_wf | done | by left | done | done | by vm_compute | done | done].
Defined.

End OrderStateManager.
