(* ===== verification/OrderExpiry.v ===== *)
(** * Order expiry (src/hft/src/order_expiry_manager.h)

    The min-heap of expiry keys.  [std::priority_queue] is kept as a list in the
    order of its pops: sorted by expiry time (the order of equal times, which
    the heap leaves open, is that of registration). *)

From S2P Require Import Prelude Types LayerBook.
From Stdlib Require Import Sorting.

Module OrderExpiry.

Import LayerBook.

Record ExpiryKey := mkKey {
  expire_ts : Z;
  k_symbol : string;
  k_side : Side;
  k_position_side : option PositionSide;
  k_layer : Z;
  k_cl_order_id : Z;
}.

Record ExpiryManager := mkExpiry {
  expiry_pq_ : list ExpiryKey;
  ttl_reserved_ns_ : Z;
  ttl_live_ns_ : Z;
}.

Definition new_expiry (ttl_reserved_ns ttl_live_ns : Z) : ExpiryManager :=
  mkExpiry [] ttl_reserved_ns ttl_live_ns.

(** [expiry_pq_.push(key)] *)
Fixpoint pq_push (key : ExpiryKey) (pq : list ExpiryKey) : list ExpiryKey :=
  match pq with
  | [] => [key]
  | k :: pq' => if expire_ts key <? expire_ts k then key :: pq else k :: pq_push key pq'
  end.

Definition register_expiry (ticker : string) (side : Side) (position_side : option PositionSide)
    (layer order_id : Z) (st : OMOrderState) (now_ns : Z) (m : ExpiryManager) : ExpiryManager :=
  let ttl :=
    if bool_decide (st = OMReserved) || bool_decide (st = OMCancelReserved)
    then ttl_reserved_ns_ m else ttl_live_ns_ m in
  mkExpiry
    (pq_push (mkKey (u64 (now_ns + ttl)) ticker side position_side (u32 layer) order_id) (expiry_pq_ m))
    (ttl_reserved_ns_ m) (ttl_live_ns_ m).

(** [while (!pq.empty() && pq.top().expire_ts <= now_ns) ...] *)
Fixpoint sweep_loop (now_ns : Z) (pq expired : list ExpiryKey) : list ExpiryKey * list ExpiryKey :=
  match pq with
  | [] => (expired, [])
  | k :: pq' =>
      if expire_ts k <=? now_ns then sweep_loop now_ns pq' (expired ++ [k]) else (expired, pq)
  end.

Definition sweep_expired (now_ns : Z) (m : ExpiryManager) : list ExpiryKey * ExpiryManager :=
  let '(expired, pq) := sweep_loop now_ns (expiry_pq_ m) [] in
  (expired, mkExpiry pq (ttl_reserved_ns_ m) (ttl_live_ns_ m)).

Definition configure_ttl (ttl_reserved_ns ttl_live_ns : Z) (m : ExpiryManager) : ExpiryManager :=
  mkExpiry (expiry_pq_ m) ttl_reserved_ns ttl_live_ns.

Definition pending_count (m : ExpiryManager) : Z := zlen (expiry_pq_ m).

(** ** Facts *)

Definition key_le (a b : ExpiryKey) : Prop := expire_ts a <= expire_ts b.
Definition pq_ok (m : ExpiryManager) : Prop := StronglySorted key_le (expiry_pq_ m).

Lemma pq_push_perm k pq : pq_push k pq ≡ₚ k :: pq.
Proof.
  induction pq as [|x pq IH]; simpl; [done|]. case_match; [done|]. rewrite IH. apply Permutation_swap.
Qed.

Lemma pq_push_sorted k pq : StronglySorted key_le pq -> StronglySorted key_le (pq_push k pq).
Proof.
  induction 1 as [|x pq Hs IH Hx]; simpl; [by repeat constructor|].
  destruct (Z.ltb_spec (expire_ts k) (expire_ts x)).
  - constructor; [by constructor|]. constructor; [unfold key_le; lia|].
    eapply Forall_impl; [exact Hx|]. unfold key_le. intros; lia.
  - constructor; [done|]. rewrite pq_push_perm. constructor; [unfold key_le; lia|done].
Qed.

Lemma sweep_loop_spec now pq acc :
  StronglySorted key_le pq ->
  sweep_loop now pq acc =
  (acc ++ List.filter (fun k => expire_ts k <=? now) pq, List.filter (fun k => negb (expire_ts k <=? now)) pq).
Proof.
  intros Hs. revert acc. induction Hs as [|x pq Hs IH Hx]; intros acc; simpl; [by rewrite app_nil_r|].
  destruct (Z.leb_spec (expire_ts x) now); simpl.
  - rewrite IH. by rewrite <- app_assoc.
  - assert (E : forall k, k ∈ pq -> (expire_ts k <=? now) = false).
    { intros k Hk. apply Z.leb_gt. rewrite Forall_forall in Hx. specialize (Hx k Hk). unfold key_le in Hx. lia. }
    clear IH Hs Hx. f_equal; [|f_equal].
    + enough (List.filter (fun k => expire_ts k <=? now) pq = []) as -> by (by rewrite app_nil_r).
      induction pq as [|y pq IH]; simpl; [done|]. rewrite (E y) by left. apply IH. intros; apply E; by right.
    + induction pq as [|y pq IH]; simpl; [done|]. rewrite (E y) by left. simpl. f_equal.
      apply IH. intros; apply E; by right.
Qed.

Lemma sweep_loop_perm now pq acc :
  (sweep_loop now pq acc).1 ++ (sweep_loop now pq acc).2 ≡ₚ acc ++ pq.
Proof.
  revert acc. induction pq as [|k pq IH]; intros acc; simpl; [done|].
  case_match; simpl; [|done]. rewrite IH. by rewrite <- app_assoc.
Qed.

Lemma register_ok ticker side ps layer id st now m :
  pq_ok m -> pq_ok (register_expiry ticker side ps layer id st now m).
Proof. apply pq_push_sorted. Qed.

Lemma filter_sorted {A} (R : A -> A -> Prop) f l : StronglySorted R l -> StronglySorted R (List.filter f l).
Proof.
  induction 1 as [|x l Hs IH Hx]; simpl; [constructor|]. destruct (f x); [|done].
  constructor; [done|]. rewrite Forall_forall in *. intros y Hy. apply Hx.
  apply list_elem_of_In in Hy. apply List.filter_In in Hy as [Hy _]. by apply list_elem_of_In.
Qed.

Lemma sweep_ok now m : pq_ok m -> pq_ok (sweep_expired now m).2.
Proof.
  intros H. unfold sweep_expired, pq_ok in *. rewrite sweep_loop_spec by done. by apply filter_sorted.
Qed.

(** A sweep after any registrations returns exactly the keys that are due,
    the earliest first, and keeps exactly the others; a later sweep at the same
    time returns nothing. *)
Theorem sweep_exact now m :
  pq_ok m ->
  let expired := (sweep_expired now m).1 in
  let m' := (sweep_expired now m).2 in
  StronglySorted key_le expired /\
  expired ++ expiry_pq_ m' ≡ₚ expiry_pq_ m /\
  Forall (fun k => expire_ts k <= now) expired /\
  Forall (fun k => now < expire_ts k) (expiry_pq_ m') /\
  pq_ok m' /\ (sweep_expired now m').1 = [].
Proof.
  intros H expired m'. pose proof (sweep_ok now m H) as Hok. subst expired m'. unfold sweep_expired in *.
  rewrite sweep_loop_spec in * by done. cbn [app fst snd expiry_pq_ ttl_reserved_ns_ ttl_live_ns_] in *.
  assert (Hlate : Forall (fun k => now < expire_ts k)
    (List.filter (fun k => negb (expire_ts k <=? now)) (expiry_pq_ m))).
  { apply Forall_forall. intros k Hk%list_elem_of_In. apply List.filter_In in Hk as [_ Hk].
    apply negb_true_iff, Z.leb_gt in Hk. done. }
  split_and!.
  - by apply filter_sorted.
  - clear. induction (expiry_pq_ m) as [|k l IH]; simpl; [done|].
    destruct (expire_ts k <=? now); simpl; [by f_equiv|]. rewrite <- Permutation_middle. by f_equiv.
  - apply Forall_forall. intros k Hk%list_elem_of_In. apply List.filter_In in Hk as [_ Hk%Z.leb_le]. done.
  - done.
  - done.
  - rewrite sweep_loop_spec by done. cbn [app fst].
    destruct (List.filter (fun k => expire_ts k <=? now) _) as [|k l] eqn:E; [done|].
    assert (Hin : k ∈ k :: l) by left. rewrite <- E in Hin. apply list_elem_of_In in Hin.
    apply List.filter_In in Hin as [Hin Hle%Z.leb_le]. rewrite Forall_forall in Hlate.
    apply list_elem_of_In in Hin. specialize (Hlate k Hin). cbn in Hlate. lia.
Qed.

Definition demo_expiry : ExpiryManager :=
  register_expiry "BTCUSDC" kBuy None 0 8 OMLive 10
    (register_expiry "BTCUSDC" kSell None 1 7 OMReserved 10 (new_expiry 50 20)).

Lemma demo_expiry_ok : pq_ok demo_expiry.
Proof. apply register_ok, register_ok. constructor. Qed.

Lemma sweep_exact_witness :
  (sweep_expired 30 demo_expiry).1 = [mkKey 30 "BTCUSDC" kBuy None 0 8] /\
  StronglySorted key_le (sweep_expired 30 demo_expiry).1.
Proof. split; [by vm_compute|]. exact (proj1 (sweep_exact 30 demo_expiry demo_expiry_ok)). Defined.

End OrderExpiry.
