(* ===== verification/OrderManager.v ===== *)
(** * Order manager (src/hft/src/order_manager.hpp)

    The owner of the layers, the reserved position, the venue policy and the
    expiry queue.  Requests handed to [TradeEngine::send_request] are appended
    to [sent]; the readings of the clock are arguments.  A risk lookup that
    throws ends the program: [None]. *)

From S2P Require Import Prelude Types PositionKeeper RiskManager LayerBook QuoteReconciler OrderStateManager OrderExpiry.

Module OrderManager.

Import PositionKeeper RiskManager LayerBook QuoteReconciler OrderStateManager OrderExpiry.

Record OM := mkOM {
  layer_book_ : Books;
  position_tracker_ : Z;
  venue_policy_ : VenuePolicy;
  expiry_manager_ : ExpiryManager;
  sent : list RequestCommon;
}.

(** The constructor: the layer book holds the configured ticker. *)
Definition new_order_manager (ticker : string) (venue : VenuePolicy) (ttl_reserved ttl_live : Z) : OM :=
  mkOM {[ ticker := new_four_way ]} 0 venue (new_expiry ttl_reserved ttl_live) [].

Definition set_books (b : Books) (m : OM) : OM :=
  mkOM b (position_tracker_ m) (venue_policy_ m) (expiry_manager_ m) (sent m).
Definition set_reserved (reserved : Z) (m : OM) : OM :=
  mkOM (layer_book_ m) reserved (venue_policy_ m) (expiry_manager_ m) (sent m).
Definition set_venue (v : VenuePolicy) (m : OM) : OM :=
  mkOM (layer_book_ m) (position_tracker_ m) v (expiry_manager_ m) (sent m).
Definition set_expiry (e : ExpiryManager) (m : OM) : OM :=
  mkOM (layer_book_ m) (position_tracker_ m) (venue_policy_ m) e (sent m).

(** [trade_engine_->send_request(request)] *)
Definition send_request (request : RequestCommon) (m : OM) : OM :=
  mkOM (layer_book_ m) (position_tracker_ m) (venue_policy_ m) (expiry_manager_ m)
    (sent m ++ [request]).

(** ** Requests *)

Definition new_order (ticker_id : string) (price : Z) (side : Side) (qty order_id : Z)
    (position_side : option PositionSide) : OM -> OM :=
  send_request (mkRequest RQNewSingleOrderData kOrderIdInvalid order_id kOrderIdInvalid ticker_id side
    qty OTLimit price TIFGoodTillCancel position_side).

Definition modify_order (cancel_and_reorder : bool) (ticker_id : string)
    (cancel_new_order_id order_id original_order_id price : Z) (side : Side) (qty : Z)
    (position_side : option PositionSide) : OM -> OM :=
  if cancel_and_reorder then
    send_request (mkRequest RQOrderCancelRequestAndNewOrderSingle cancel_new_order_id order_id
      original_order_id ticker_id side qty OTLimit price TIFGoodTillCancel position_side)
  else
    send_request (mkRequest RQOrderModify kOrderIdInvalid order_id original_order_id ticker_id side
      qty OTLimit price TIFGoodTillCancel position_side).

Definition cancel_order (ticker_id : string) (original_order_id : Z)
    (position_side : option PositionSide) : OM -> OM :=
  send_request (mkRequest RQOrderCancelRequest kOrderIdInvalid original_order_id original_order_id
    ticker_id kInvalid 0 OTInvalid 0 TIFInvalid position_side).

Section Manager.

(** [tick_converter_], [reconciler_] and [SelectedOeTraits::supports_cancel_and_reorder()]. *)
Context (cfg : FixedPointConfig) (scale_int : Z) (rc : Reconciler) (kSupportsCancelAndReorder : bool).

(** ** Reports *)

Definition register (r : ExecutionReport) (layer now : Z) (m : OM) : OM :=
  set_expiry (register_expiry (symbol r) (er_side r) (er_position_side r) layer (cl_order_id r) OMLive now
    (expiry_manager_ m)) m.

Definition on_order_updated (now : Z) (r : ExecutionReport) (m : OM) : OM :=
  let sb0 := side_book (symbol r) (er_side r) (er_position_side r) (layer_book_ m) in
  let '(sb, reserved) := handle_execution_report scale_int now r (sb0, position_tracker_ m) in
  let m := set_reserved reserved
    (set_books (put_side_book (symbol r) (er_side r) (er_position_side r) sb (layer_book_ m)) m) in
  match ord_status r with
  | OSNew =>
      let layer := find_layer_by_id sb (cl_order_id r) in
      let layer := if layer <? 0 then default layer (new_id_to_layer sb !! cl_order_id r) else layer in
      if 0 <=? layer then register r layer now m else m
  | OSPartiallyFilled =>
      let layer := find_layer_by_id sb (cl_order_id r) in
      if (0 <=? layer) && bool_decide (state (zget (slots sb) layer) = OMLive)
      then register r layer now m else m
  | _ => m
  end.

(** [on_instrument_info]: the symbols with their [min_qty_increment], already
    multiplied by the quantity scale and truncated. *)
Definition on_instrument_info (target_ticker : string) (symbols : list (string * Z)) (m : OM) : OM :=
  match List.find (fun sym => String.eqb sym.1 target_ticker) symbols with
  | Some sym => set_venue (set_qty_increment sym.2 (venue_policy_ m)) m
  | None => m
  end.

(** ** Risk *)

Section Risk.

Context (check : Side -> Z -> Z -> option RiskCheckResult).

(** The loops [allow_new] and [allow_repl]; [delta] is the quantity they check. *)
Fixpoint allow {A} `{Sided A} (delta : A -> Z) (actions : list A) (running : Z)
    : option (list A * Z) :=
  match actions with
  | [] => Some ([], running)
  | action :: actions' =>
      result ← check (act_side action) (delta action) running;
      if bool_decide (result = kAllowed) then
        '(kept, running') ← allow delta actions' (running + sideToValue (act_side action) * delta action);
        Some (action :: kept, running')
      else allow delta actions' running
  end.

Definition filter_by_risk (reserved : Z) (acts : Actions) : option Actions :=
  '(news', running) ← allow n_qty (news acts) reserved;
  '(repls', _) ← allow (fun a => r_qty a - r_last_qty a) (repls acts) running;
  Some (mkActions news' repls' (cancels acts)).

End Risk.

(** ** Sending orders *)

(** The tick an action would take is already quoted by another layer. *)
Definition tick_taken (sb : SideBook) (tick layer : Z) : bool :=
  let existing := find_layer_by_ticks sb tick in
  (0 <=? existing) && negb (existing =? layer).

Definition process_new (ticker : string) (now : Z) (s : OM * list Z) (action : ActionNew) : OM * list Z :=
  let '(m, order_ids) := s in
  let side := n_side action in
  let ps := n_position_side action in
  let layer := n_layer action in
  let sb := side_book ticker side ps (layer_book_ m) in
  let tick := to_ticks_raw scale_int (n_price action) in
  if tick_taken sb tick layer then s
  else
    let sb := set_slot layer (mkSlot OMReserved (n_price action) (n_qty action) now (n_cl_order_id action))
                (set_tick layer tick sb) in
    let m := set_books (put_side_book ticker side ps sb (layer_book_ m)) m in
    let m := new_order ticker (n_price action) side (n_qty action) (n_cl_order_id action) ps m in
    let m := set_reserved (add_reserved side (n_qty action) (position_tracker_ m)) m in
    (set_expiry (register_expiry ticker side ps layer (n_cl_order_id action) OMReserved now
       (expiry_manager_ m)) m,
     order_ids ++ [n_cl_order_id action]).

Definition process_new_orders (ticker : string) (now : Z) (acts : Actions) (m : OM) : OM * list Z :=
  fold_left (process_new ticker now) (news acts) (m, []).

(** The side book and request of a replacement. *)
Definition replace_side_book (now : Z) (action : ActionReplace) (sb : SideBook) : SideBook :=
  let layer := r_layer action in
  let tick := to_ticks_raw scale_int (r_price action) in
  let original_price := price (zget (slots sb) layer) in
  let original_tick := zget (layer_ticks sb) layer in
  let sb := set_slot layer (mkSlot OMCancelReserved (r_price action) (r_qty action) now (r_cl_order_id action))
              (set_tick layer tick sb) in
  let sb := set_new_ids (filter (fun kv : Z * Z => kv.2 <> layer) (new_id_to_layer sb)) sb in
  if kSupportsCancelAndReorder then
    let cancel_new_order_id := u64 (r_cl_order_id action - 1) in
    let sb := set_orig_ids (<[cancel_new_order_id := layer]> (orig_id_to_layer sb)) sb in
    let sb := set_new_ids (<[r_cl_order_id action := layer]> (new_id_to_layer sb)) sb in
    set_pending layer (Some (mkPending (r_price action) (r_qty action) tick (r_cl_order_id action)
      (r_last_qty action) (r_original_cl_order_id action) original_price original_tick)) sb
  else
    let sb := set_new_ids (<[r_original_cl_order_id action := layer]> (new_id_to_layer sb)) sb in
    set_pending layer (Some (mkPending (r_price action) (r_qty action) tick (r_original_cl_order_id action)
      (r_last_qty action) (r_original_cl_order_id action) original_price original_tick)) sb.

Definition process_replace (ticker : string) (now : Z) (m : OM) (action : ActionReplace) : OM :=
  let side := r_side action in
  let ps := r_position_side action in
  let layer := r_layer action in
  let sb := side_book ticker side ps (layer_book_ m) in
  let tick := to_ticks_raw scale_int (r_price action) in
  if tick_taken sb tick layer then m
  else
    let m := set_books (put_side_book ticker side ps (replace_side_book now action sb) (layer_book_ m)) m in
    let m :=
      if kSupportsCancelAndReorder
      then modify_order true ticker (u64 (r_cl_order_id action - 1)) (r_cl_order_id action)
             (r_original_cl_order_id action) (r_price action) side (r_qty action) ps m
      else modify_order false ticker (r_original_cl_order_id action) (r_original_cl_order_id action)
             (r_original_cl_order_id action) (r_price action) side (r_qty action) ps m in
    let m := set_reserved (add_reserved side (r_qty action - r_last_qty action) (position_tracker_ m)) m in
    set_expiry (register_expiry ticker side ps layer (r_cl_order_id action) OMCancelReserved now
      (expiry_manager_ m)) m.

Definition process_replace_orders (ticker : string) (now : Z) (acts : Actions) (m : OM) : OM :=
  fold_left (process_replace ticker now) (repls acts) m.

Definition process_cancel (ticker : string) (now : Z) (m : OM) (action : ActionCancel) : OM :=
  let side := c_side action in
  let ps := c_position_side action in
  let sb := side_book ticker side ps (layer_book_ m) in
  let slot := with_last_used now (with_state OMCancelReserved (zget (slots sb) (c_layer action))) in
  let m := set_books (put_side_book ticker side ps (set_slot (c_layer action) slot sb) (layer_book_ m)) m in
  cancel_order ticker (c_original_cl_order_id action) ps m.

Definition process_cancel_orders (ticker : string) (now : Z) (acts : Actions) (m : OM) : OM :=
  fold_left (process_cancel ticker now) (cancels acts) m.

(** The body of the loop of [sweep_expired_orders]. *)
Definition sweep_key (now : Z) (m : OM) (key : ExpiryKey) : OM :=
  let sb := side_book (k_symbol key) (k_side key) (k_position_side key) (layer_book_ m) in
  if zlen (slots sb) <=? k_layer key then m
  else
    let slot := zget (slots sb) (k_layer key) in
    if negb (slot_cl_order_id slot =? k_cl_order_id key) then m
    else
      match state slot with
      | OMDead | OMCancelReserved => m
      | OMLive | OMReserved =>
          let slot := with_last_used now (with_state OMCancelReserved slot) in
          let m := set_books (put_side_book (k_symbol key) (k_side key) (k_position_side key)
                     (set_slot (k_layer key) slot sb) (layer_book_ m)) m in
          cancel_order (k_symbol key) (slot_cl_order_id slot) None m
      | _ => m
      end.

Definition sweep_expired_orders (now : Z) (m : OM) : OM :=
  let '(expired, e) := sweep_expired now (expiry_manager_ m) in
  fold_left (sweep_key now) expired (set_expiry e m).

(** [apply(intents)]; [now] is its reading of the clock and [diff_now] the one
    [diff] makes. *)
Definition apply_intents (risk : RiskTable) (keeper : Keeper) (now diff_now : Z)
    (intents : list QuoteIntent) (m : OM) : option (OM * list Z) :=
  match intents with
  | [] => Some (sweep_expired_orders now m, [])
  | first :: _ =>
      let ticker := qi_ticker first in
      let actions := diff rc intents (layer_book_ m) diff_now in
      let actions := filter_by_venue cfg (venue_policy_ m) ticker now (layer_book_ m) actions in
      actions ← filter_by_risk (check_pre_trade_risk risk keeper ticker) (position_tracker_ m) actions;
      let '(m, order_ids) := process_new_orders ticker now actions m in
      let m := process_replace_orders ticker now actions m in
      let m := process_cancel_orders ticker now actions m in
      Some (sweep_expired_orders now m, order_ids)
  end.

End Manager.

End OrderManager.
