(* ===== verification/OrderManagerFacts.v ===== *)
(** * Order manager: theorems

    Risk budget of a batch of actions; agreement of the reserved position with
    the working orders over all histories of reports and applications; the
    rejection of a replacement; expiry sweeps; colliding quotes. *)

From S2P Require Import Prelude Types PositionKeeper RiskManager LayerBook QuoteReconciler OrderStateManager OrderExpiry OrderManager.

Module OrderManagerFacts.

Import PositionKeeper RiskManager LayerBook QuoteReconciler OrderStateManager OrderExpiry OrderManager.

(** ** Risk budget *)

(** The signed quantities that a list of actions adds to the reserved position. *)
Definition signed {A} `{Sided A} (delta : A -> Z) (a : A) : Z := sideToValue (act_side a) * delta a.

(** Every partial sum from [base] on stays between [lo] and [hi]. *)
Fixpoint within (lo hi base : Z) (l : list Z) : Prop :=
  match l with
  | [] => True
  | x :: l' => lo <= base + x <= hi /\ within lo hi (base + x) l'
  end.

Lemma within_app lo hi base l1 l2 :
  within lo hi base l1 -> within lo hi (base + zsum l1) l2 -> within lo hi base (l1 ++ l2).
Proof.
  revert base. induction l1 as [|x l1 IH]; intros base; simpl; [by rewrite Z.add_0_r|].
  rewrite Z.add_assoc. naive_solver.
Qed.

Lemma within_prefix lo hi base l pre x post :
  within lo hi base l -> l = pre ++ x :: post -> lo <= base + zsum (pre ++ [x]) <= hi.
Proof.
  revert base l. induction pre as [|y pre IH]; intros base l Hw ->; simpl in *.
  - rewrite Z.add_0_r. apply Hw.
  - rewrite Z.add_assoc. eapply IH; [apply Hw | done].
Qed.

Lemma allowed_bounds p cfg side qty reserved :
  checkPreTradeRisk p cfg side qty reserved = kAllowed ->
  min_position_ cfg <= position_ p + reserved + sideToValue side * qty <= max_position_ cfg.
Proof. unfold checkPreTradeRisk. repeat case_match; zb; try done; lia. Qed.

Section Allow.
Context (check : Side -> Z -> Z -> option RiskCheckResult) (p : PositionInfo) (cfg : RiskCfg).
Hypothesis Hcheck : forall s q r, check s q r = Some (checkPreTradeRisk p cfg s q r).

Lemma allow_budget {A} `{Sided A} (delta : A -> Z) acts running :
  exists kept, allow check delta acts running =
      Some (kept, running + zsum (signed delta <$> kept)) /\
    kept `sublist_of` acts /\
    within (min_position_ cfg) (max_position_ cfg) (position_ p + running) (signed delta <$> kept).
Proof.
  revert running. induction acts as [|a acts IH]; intros running; simpl.
  { exists []. simpl. by rewrite Z.add_0_r. }
  rewrite Hcheck. simpl. case_bool_decide as Hres.
  - destruct (IH (running + sideToValue (act_side a) * delta a)) as (kept & -> & Hsub & Hw).
    exists (a :: kept). simpl. apply allowed_bounds in Hres. fold (signed delta a) in *.
    rewrite !Z.add_assoc in *. split_and!; try done; try apply Hres. by constructor.
  - destruct (IH running) as (kept & -> & Hsub & Hw). exists kept. split_and!; [done | by constructor | done].
Qed.
End Allow.

(** The signed quantities of a batch, new orders first. *)
Definition batch (acts : Actions) : list Z :=
  (signed n_qty <$> news acts) ++ (signed (fun a => r_qty a - r_last_qty a) <$> repls acts).

(** C7: the orders a batch is left with keep the position within its limits
    together.  For a ticker with limits and a position, the risk filter
    succeeds, only drops actions, and the position plus the reserved quantity
    plus the signed quantities of any non-empty prefix of what it keeps lies
    between the ticker's limits. *)
Theorem risk_filter_budget risk keeper ticker cfg p reserved acts :
  risk !! ticker = Some cfg -> get_position_info ticker keeper = Some p ->
  exists acts', filter_by_risk (check_pre_trade_risk risk keeper ticker) reserved acts = Some acts' /\
    news acts' `sublist_of` news acts /\ repls acts' `sublist_of` repls acts /\
    cancels acts' = cancels acts /\
    forall pre x post, batch acts' = pre ++ x :: post ->
      min_position_ cfg <= position_ p + reserved + zsum (pre ++ [x]) <= max_position_ cfg.
Proof.
  intros Hr Hp.
  assert (Hc : forall s q r, check_pre_trade_risk risk keeper ticker s q r = Some (checkPreTradeRisk p cfg s q r))
    by (intros; unfold check_pre_trade_risk; by rewrite Hr; simpl; rewrite Hp).
  unfold filter_by_risk.
  destruct (allow_budget _ p cfg Hc n_qty (news acts) reserved) as (n1 & -> & Hs1 & H1). simpl.
  destruct (allow_budget _ p cfg Hc (fun a => r_qty a - r_last_qty a) (repls acts)
    (reserved + zsum (signed n_qty <$> n1))) as (n2 & -> & Hs2 & H2). simpl.
  eexists. split_and!; try done. intros pre x post Hsplit.
  eapply within_prefix; [|exact Hsplit]. apply within_app; [done|]. by rewrite <- Z.add_assoc.
Qed.

Definition demo_risk : RiskTable := {[ "BTCUSDC" := mkRiskCfg 100 10 (-10) (-1000) ]}.
Definition demo_keeper : Keeper := new_keeper "BTCUSDC".
Definition demo_batch : Actions :=
  mkActions [mkNew 0 1000 6 kBuy 7 None; mkNew 1 990 6 kBuy 8 None; mkNew 0 1010 6 kSell 9 None;
             mkNew 2 980 6 kBuy 10 None] [] [].

Lemma risk_filter_budget_witness :
  exists acts', filter_by_risk (check_pre_trade_risk demo_risk demo_keeper "BTCUSDC") 0 demo_batch = Some acts' /\
    n_layer <$> news acts' = [0; 0; 2].
Proof.
  destruct (risk_filter_budget demo_risk demo_keeper "BTCUSDC" (mkRiskCfg 100 10 (-10) (-1000))
    (default PositionInfo_default (get_position_info "BTCUSDC" demo_keeper)) 0 demo_batch)
    as (acts' & E & _); [done | done |].
  exists acts'. split; [exact E|]. vm_compute in E. injection E as <-. done.
Defined.

(** ** The side books of a ticker *)

(** The keys the code indexes the four-way book with. *)
Definition key_ok (side : Side) (ps : option PositionSide) : Prop :=
  (side = kBuy \/ side = kSell) /\ ps <> Some kPosInvalid.
#[export] Instance key_ok_dec side ps : Decision (key_ok side ps).
Proof. unfold key_ok. apply _. Defined.
Definition bkey (side : Side) (ps : option PositionSide) : Z * Z := (pos_index ps, sideToIndex side).

Definition wf_fw (fw : FourWay) : Prop :=
  zlen fw = 2 /\ Forall (fun pb => zlen pb = 2 /\ Forall wf_sb pb) fw.
Definition wf_books (b : Books) : Prop := forall t fw, b !! t = Some fw -> wf_fw fw.
Definition fw_of (t : string) (b : Books) : FourWay := default new_four_way (b !! t).

Definition net_of (fw : FourWay) : Z :=
  let e i j := exposure (zget (zget fw i) j) in e 0 0 - e 0 1 + (e 1 0 - e 1 1).

(** The signed quantity of all working orders of a ticker. *)
Definition net_exposure (t : string) (b : Books) : Z := net_of (fw_of t b).

Lemma new_four_way_wf : wf_fw new_four_way.
Proof. split; [done|]. repeat constructor; try done; intros k l; by rewrite lookup_empty. Qed.

Lemma wf_fw_of t b : wf_books b -> wf_fw (fw_of t b).
Proof. intros H. unfold fw_of. destruct (b !! t) eqn:E; [by eapply H | apply new_four_way_wf]. Qed.

Lemma fw_of_put t t' s p sb b :
  fw_of t' (put_side_book t s p sb b) =
  if decide (t = t') then
    zset (fw_of t b) (pos_index p) (zset (zget (fw_of t b) (pos_index p)) (sideToIndex s) sb)
  else fw_of t' b.
Proof.
  unfold put_side_book, fw_of. destruct (decide (t = t')) as [->|].
  - by rewrite lookup_insert_eq.
  - by rewrite lookup_insert_ne.
Qed.

Lemma key_ok_range s p : key_ok s p -> 0 <= pos_index p < 2 /\ 0 <= sideToIndex s < 2.
Proof. intros [[-> | ->] Hp]; destruct p as [[]|]; simpl; done || lia. Qed.

Lemma wf_fw_row fw i : wf_fw fw -> 0 <= i < 2 -> zlen (zget fw i) = 2 /\ Forall wf_sb (zget fw i).
Proof. intros [Hl Hf] Hi. rewrite Forall_forall in Hf. apply Hf, zget_elem. lia. Qed.

Lemma side_book_wf t s p b : wf_books b -> wf_sb (side_book t s p b).
Proof.
  intros H%(wf_fw_of t). unfold side_book. fold (fw_of t b).
  destruct (decide (0 <= pos_index p < 2)) as [Hi|Hi].
  - destruct (wf_fw_row _ _ H Hi) as [Hl Hf].
    destruct (decide (0 <= sideToIndex s < 2)).
    + rewrite Forall_forall in Hf. apply Hf, zget_elem. lia.
    + rewrite (zget_out (zget _ _)) by lia. apply new_side_book_wf.
  - rewrite (zget_out (fw_of t b)) by (destruct H; lia). rewrite zget_out; [apply new_side_book_wf|].
    unfold zlen. simpl. lia.
Qed.

Lemma books_put_wf t s p sb b : wf_books b -> wf_sb sb -> wf_books (put_side_book t s p sb b).
Proof.
  intros Hb Hs t' fw E. assert (Hfw : fw = fw_of t' (put_side_book t s p sb b)) by (unfold fw_of; by rewrite E).
  rewrite fw_of_put in Hfw. subst fw. destruct (decide (t = t')); [|by apply wf_fw_of].
  pose proof (wf_fw_of t b Hb) as [Hl Hf]. split; [by rewrite zlen_zset|].
  destruct (decide (0 <= pos_index p < 2)) as [Hi|Hi].
  - destruct (wf_fw_row _ _ (conj Hl Hf) Hi) as [Hl2 Hf2].
    apply Forall_zset; [done|]. rewrite zlen_zset. split; [done|]. by apply Forall_zset.
  - rewrite zset_out by lia. done.
Qed.

Lemma side_book_put_eq t s p sb b :
  wf_books b -> key_ok s p -> side_book t s p (put_side_book t s p sb b) = sb.
Proof.
  intros Hb [Hp Hs]%key_ok_range. unfold side_book. fold (fw_of t (put_side_book t s p sb b)).
  rewrite fw_of_put, decide_True by done. pose proof (wf_fw_of t b Hb) as H.
  destruct (wf_fw_row _ _ H Hp). destruct H.
  rewrite !zget_zset_eq; try done; rewrite ?zget_zset_eq; lia.
Qed.

Lemma side_book_put_ne t s p sb b s' p' :
  wf_books b -> bkey s p <> bkey s' p' ->
  side_book t s' p' (put_side_book t s p sb b) = side_book t s' p' b.
Proof.
  intros Hb Hne. unfold side_book. fold (fw_of t (put_side_book t s p sb b)) (fw_of t b).
  rewrite fw_of_put, decide_True by done. pose proof (wf_fw_of t b Hb) as [Hl _].
  destruct (decide (pos_index p = pos_index p')) as [E|].
  - rewrite E. destruct (decide (0 <= pos_index p' < 2)).
    + rewrite zget_zset_eq by lia. apply zget_zset_ne. unfold bkey in Hne. congruence.
    + rewrite zset_out by lia. done.
  - by rewrite zget_zset_ne.
Qed.

Lemma net_put t s p sb b :
  wf_books b -> key_ok s p ->
  net_exposure t (put_side_book t s p sb b) =
  net_exposure t b + sideToValue s * (exposure sb - exposure (side_book t s p b)).
Proof.
  intros Hb Hk. unfold net_exposure, side_book. fold (fw_of t b).
  rewrite fw_of_put, decide_True by done. pose proof (wf_fw_of t b Hb) as H.
  destruct (wf_fw_row _ 0 H) as [H0 _]; [lia|]. destruct (wf_fw_row _ 1 H) as [H1 _]; [lia|].
  destruct H as [Hl _]. destruct Hk as [[-> | ->] Hp]; destruct p as [[]|]; try done; unfold net_of; cbn;
    rewrite ?(zget_zset_eq (fw_of t b)), ?(zget_zset_ne (fw_of t b)) by lia;
    rewrite ?(zget_zset_eq (zget _ _)), ?(zget_zset_ne (zget _ _)) by lia; lia.
Qed.

Lemma net_put_bad t s p sb b :
  wf_books b -> ~ key_ok s p -> fw_of t (put_side_book t s p sb b) = fw_of t b.
Proof.
  intros Hb Hk. rewrite fw_of_put. destruct (decide (t = t)); [|done].
  pose proof (wf_fw_of t b Hb) as H. destruct (decide (0 <= pos_index p < 2)) as [Hi|Hi].
  - destruct (wf_fw_row _ _ H Hi) as [Hl _]. rewrite (zset_out (zget _ _)).
    + apply zset_zget. destruct H. lia.
    + intros Hs. apply Hk. split; [destruct s; simpl in Hs; auto; lia|].
      intros ->. simpl in Hi. lia.
  - apply zset_out. destruct H. lia.
Qed.

(** Writing back a side book of the same exposure. *)
Lemma net_put_same t t' s p sb b :
  wf_books b -> exposure sb = exposure (side_book t s p b) ->
  net_exposure t' (put_side_book t s p sb b) = net_exposure t' b.
Proof.
  intros Hb He. destruct (decide (t = t')) as [->|Hne].
  - destruct (decide (key_ok s p)) as [Hk|Hk].
    + rewrite net_put by done. rewrite He. lia.
    + unfold net_exposure. by rewrite net_put_bad.
  - unfold net_exposure. rewrite fw_of_put. by rewrite decide_False.
Qed.

(** ** The reserved position is the exposure of the working orders *)

Section Tracking.
Context (cfg : FixedPointConfig) (scale_int : Z) (rc : Reconciler) (reorder : bool) (ticker : string).

Definition tracks (m : OM) : Prop :=
  wf_books (layer_book_ m) /\ position_tracker_ m = net_exposure ticker (layer_book_ m).

(** The same books and reservation. *)
Lemma tracks_ext m m' :
  layer_book_ m' = layer_book_ m -> position_tracker_ m' = position_tracker_ m -> tracks m -> tracks m'.
Proof. unfold tracks. by intros -> ->. Qed.

(** One side book is written and the reservation moves with its exposure. *)
Lemma tracks_put m s p sb reserved :
  key_ok s p -> wf_sb sb -> tracks m ->
  reserved - position_tracker_ m =
    sideToValue s * (exposure sb - exposure (side_book ticker s p (layer_book_ m))) ->
  tracks (set_reserved reserved (set_books (put_side_book ticker s p sb (layer_book_ m)) m)).
Proof.
  intros Hk Hsb [Hb Ht] Hr. split; cbn; [by apply books_put_wf|]. rewrite net_put by done. lia.
Qed.

(** *** Reports *)

Lemma register_tracks r layer now m : tracks m -> tracks (register r layer now m).
Proof. by apply tracks_ext. Qed.

(** A report of the ticker that agrees with the slot it acts on, if any. *)
Definition good_report (r : ExecutionReport) (m : OM) : Prop :=
  symbol r = ticker /\ key_ok (er_side r) (er_position_side r) /\
  let sb := side_book ticker (er_side r) (er_position_side r) (layer_book_ m) in
  (0 <= target scale_int r sb -> agrees scale_int r sb).

Lemma report_step_tracks now r m :
  good_report r m -> tracks m -> tracks (on_order_updated scale_int now r m).
Proof.
  intros (Hs & Hk & Hag) Hm. unfold on_order_updated. rewrite Hs in *.
  set (sb0 := side_book _ _ _ _) in *.
  assert (Hwf : wf_sb sb0) by (apply side_book_wf, Hm).
  pose proof (report_wf scale_int now r sb0 (position_tracker_ m) Hwf) as Hwf'.
  pose proof (report_tracks_exposure scale_int now r sb0 (position_tracker_ m) Hwf Hag) as Hr.
  destruct (handle_execution_report scale_int now r _) as [sb reserved]. cbn [fst snd] in *.
  assert (Ht : tracks (set_reserved reserved
    (set_books (put_side_book ticker (er_side r) (er_position_side r) sb (layer_book_ m)) m)))
    by (by apply tracks_put).
  destruct (ord_status r); try done; case_match; try done; by apply register_tracks.
Qed.

(** *** Sweeps *)

Lemma exposure_restate st s :
  working s = true -> working (mkSlot st 0 0 0 0) = true ->
  forall t, slot_exposure (with_last_used t (with_state st s)) = slot_exposure s.
Proof.
  intros Hs Hst t. rewrite (slot_exposure_working s Hs). unfold with_last_used, with_state.
  rewrite slot_exposure_mk. by destruct st.
Qed.

Lemma sweep_key_tracks now m key : tracks m -> tracks (sweep_key now m key).
Proof.
  intros [Hb Ht]. unfold sweep_key.
  set (sb := side_book _ _ _ _).
  assert (Hwf : wf_sb sb) by (by apply side_book_wf).
  destruct (Z.leb_spec (zlen (slots sb)) (k_layer key)) as [|Hlt]; [done|].
  rewrite (wf_slots _ Hwf) in Hlt. destruct (negb _); [done|].
  assert (Hgo : working (zget (slots sb) (k_layer key)) = true ->
    forall id ps, tracks (cancel_order (k_symbol key) id ps (set_books
      (put_side_book (k_symbol key) (k_side key) (k_position_side key)
         (set_slot (k_layer key) (with_last_used now (with_state OMCancelReserved
            (zget (slots sb) (k_layer key)))) sb) (layer_book_ m)) m))).
  { intros Hw id ps. assert (0 <= k_layer key).
    { destruct (decide (0 <= k_layer key)); [done|]. exfalso. rewrite zget_out in Hw by lia. done. }
    split; cbn; [apply books_put_wf; [done|by apply wf_set_slot]|].
    rewrite net_put_same; [done | done |]. fold sb.
    rewrite exposure_set_slot by (done || lia). unfold slot_at. rewrite exposure_restate by done. lia. }
  destruct (state (zget (slots sb) (k_layer key))) eqn:Est; try done; apply Hgo; unfold working; by rewrite Est.
Qed.

Lemma sweep_tracks now m : tracks m -> tracks (sweep_expired_orders now m).
Proof.
  intros Hm. unfold sweep_expired_orders. destruct (sweep_expired now _) as [expired e].
  assert (H : tracks (set_expiry e m)) by (by eapply tracks_ext).
  clear Hm. revert H. generalize (set_expiry e m). induction expired as [|k ks IH]; intros m0 H; simpl; [done|].
  apply IH. by apply sweep_key_tracks.
Qed.

(** *** New orders and replacements *)

Definition akey {A} `{Sided A} (a : A) : Z * Z := bkey (act_side a) (act_pos a).

Definition new_ready (b : Books) (a : ActionNew) : Prop :=
  key_ok (n_side a) (n_position_side a) /\ 0 <= n_layer a < 8 /\
  working (zget (slots (side_book ticker (n_side a) (n_position_side a) b)) (n_layer a)) = false.

Definition replace_ready (b : Books) (a : ActionReplace) : Prop :=
  key_ok (r_side a) (r_position_side a) /\ 0 <= r_layer a < 8 /\
  let slot := zget (slots (side_book ticker (r_side a) (r_position_side a) b)) (r_layer a) in
  working slot = true /\ qty slot = r_last_qty a.

(** Books that agree on every side book outside of some keys. *)
Definition same_outside (keys : list (Z * Z)) (b b' : Books) : Prop :=
  forall s p, bkey s p ∉ keys -> side_book ticker s p b' = side_book ticker s p b.

Lemma process_new_tracks now m ids a :
  tracks m -> new_ready (layer_book_ m) a ->
  let m' := (process_new scale_int ticker now (m, ids) a).1 in
  tracks m' /\ same_outside [akey a] (layer_book_ m) (layer_book_ m').
Proof.
  intros Hm (Hk & Hl & Hw). unfold process_new. set (sb := side_book _ _ _ _) in *.
  destruct (tick_taken _ _ _); [split; [done|by intros ???]|]. cbn zeta.
  assert (Hwf : wf_sb sb) by (apply side_book_wf, Hm).
  split.
  - eapply (tracks_ext (set_reserved (add_reserved (n_side a) (n_qty a) (position_tracker_ m))
      (set_books (put_side_book ticker (n_side a) (n_position_side a)
         (set_slot (n_layer a) (mkSlot OMReserved (n_price a) (n_qty a) now (n_cl_order_id a))
            (set_tick (n_layer a) (to_ticks_raw scale_int (n_price a)) sb)) (layer_book_ m)) m)));
      [done..|]. apply tracks_put; [done | | done |].
    + by apply wf_set_slot, wf_set_tick.
    + fold sb. rewrite exposure_set_slot by (done || by apply wf_set_tick).
      rewrite slot_exposure_mk. cbv iota. unfold add_reserved.
      change (exposure (set_tick _ _ sb)) with (exposure sb).
      change (slot_at (set_tick _ _ sb) (n_layer a)) with (zget (slots sb) (n_layer a)).
      rewrite (slot_exposure_idle _ Hw). lia.
  - intros s p Hne. cbn. apply side_book_put_ne; [apply Hm|]. intros E. apply Hne. rewrite <- E. by left.
Qed.

Lemma wf_replace_side_book now a sb :
  0 <= r_layer a < 8 -> wf_sb sb -> wf_sb (replace_side_book scale_int reorder now a sb).
Proof.
  intros Hl Hwf. unfold replace_side_book.
  assert (Hf : ids_ok (filter (fun kv : Z * Z => kv.2 <> r_layer a) (new_id_to_layer sb)))
    by (intros k l [? _]%map_lookup_filter_Some; by eapply wf_new).
  assert (Hi : forall k m, ids_ok m -> ids_ok (<[k := r_layer a]> m))
    by (intros k m Hm i l [[_ <-]|[_ ?]]%lookup_insert_Some; [done | by eapply Hm]).
  assert (H0 := wf_orig _ Hwf).
  destruct reorder; repeat first [apply wf_set_pending | apply wf_set_new_ids | apply wf_set_orig_ids
    | apply wf_set_slot | apply wf_set_tick | apply Hi | done].
Qed.

Lemma slots_replace_side_book now a sb :
  slots (replace_side_book scale_int reorder now a sb) =
  zset (slots sb) (r_layer a) (mkSlot OMCancelReserved (r_price a) (r_qty a) now (r_cl_order_id a)).
Proof. unfold replace_side_book. by destruct reorder. Qed.

Lemma pending_replace_side_book now a sb :
  exists pend, pr_last_qty pend = r_last_qty a /\
  pending_repl (replace_side_book scale_int reorder now a sb) = zset (pending_repl sb) (r_layer a) (Some pend).
Proof. unfold replace_side_book. destruct reorder; eexists; (split; [|reflexivity]); reflexivity. Qed.

Lemma process_replace_tracks now m a :
  tracks m -> replace_ready (layer_book_ m) a ->
  let m' := process_replace scale_int reorder ticker now m a in
  tracks m' /\ same_outside [akey a] (layer_book_ m) (layer_book_ m').
Proof.
  intros Hm (Hk & Hl & Hw & Hq). unfold process_replace. set (sb := side_book _ _ _ _) in *.
  destruct (tick_taken _ _ _); [split; [done|by intros ???]|]. cbn zeta.
  assert (Hwf : wf_sb sb) by (apply side_book_wf, Hm).
  split.
  - apply (tracks_ext (set_reserved (add_reserved (r_side a) (r_qty a - r_last_qty a) (position_tracker_ m))
      (set_books (put_side_book ticker (r_side a) (r_position_side a)
         (replace_side_book scale_int reorder now a sb) (layer_book_ m)) m))); [by destruct reorder..|].
    apply tracks_put; [done | by apply wf_replace_side_book | done |]. fold sb.
    pose proof (exposure_set_slot (r_layer a)
      (mkSlot OMCancelReserved (r_price a) (r_qty a) now (r_cl_order_id a)) sb Hwf Hl) as E.
    unfold exposure at 1. rewrite slots_replace_side_book. unfold exposure at 1 in E. cbn [slots set_slot] in E.
    rewrite E, slot_exposure_mk. unfold slot_at. rewrite (slot_exposure_working _ Hw), Hq.
    unfold add_reserved. lia.
  - intros s p Hne. destruct reorder; cbn; (apply side_book_put_ne; [apply Hm|]);
      intros E; apply Hne; rewrite <- E; by left.
Qed.

Lemma same_outside_trans k1 k2 b1 b2 b3 :
  same_outside k1 b1 b2 -> same_outside k2 b2 b3 -> same_outside (k1 ++ k2) b1 b3.
Proof.
  intros H1 H2 s p Hn. rewrite not_elem_of_app in Hn. destruct Hn.
  rewrite H2 by done. by apply H1.
Qed.

Lemma new_ready_outside keys b b' a :
  same_outside keys b b' -> akey a ∉ keys -> new_ready b a -> new_ready b' a.
Proof. intros Hs Hn Hr. unfold new_ready in *.
  by rewrite (Hs (n_side a) (n_position_side a) Hn). Qed.

Lemma replace_ready_outside keys b b' a :
  same_outside keys b b' -> akey a ∉ keys -> replace_ready b a -> replace_ready b' a.
Proof. intros Hs Hn Hr. unfold replace_ready in *.
  by rewrite (Hs (r_side a) (r_position_side a) Hn). Qed.

Lemma process_news_tracks now acts m ids :
  tracks m -> NoDup (akey <$> acts) -> Forall (new_ready (layer_book_ m)) acts ->
  let m' := (fold_left (process_new scale_int ticker now) acts (m, ids)).1 in
  tracks m' /\ same_outside (akey <$> acts) (layer_book_ m) (layer_book_ m').
Proof.
  revert m ids. induction acts as [|a acts IH]; intros m ids Hm Hnd Hr; [by split|].
  rewrite fmap_cons in Hnd. apply NoDup_cons in Hnd as [Hni Hnd].
  apply Forall_cons in Hr as [Ha Hr]. cbn [fold_left].
  destruct (process_new_tracks now m ids a Hm Ha) as [Hm1 Hs1].
  destruct (process_new scale_int ticker now (m, ids) a) as [m1 ids1]. cbn [fst] in *.
  destruct (IH m1 ids1) as [Hm2 Hs2]; [done | done | |].
  - rewrite Forall_forall in *. intros x Hx. eapply new_ready_outside; [done | | by apply Hr].
    intros E%list_elem_of_singleton. apply Hni. rewrite <- E. by apply list_elem_of_fmap_2.
  - split; [done|]. eapply (same_outside_trans [akey a]); done.
Qed.

Lemma process_replaces_tracks now acts m :
  tracks m -> NoDup (akey <$> acts) -> Forall (replace_ready (layer_book_ m)) acts ->
  tracks (fold_left (process_replace scale_int reorder ticker now) acts m).
Proof.
  revert m. induction acts as [|a acts IH]; intros m Hm Hnd Hr; [done|].
  rewrite fmap_cons in Hnd. apply NoDup_cons in Hnd as [Hni Hnd].
  apply Forall_cons in Hr as [Ha Hr]. cbn [fold_left].
  destruct (process_replace_tracks now m a Hm Ha) as [Hm1 Hs1].
  apply IH; [done | done |].
  rewrite Forall_forall in *. intros x Hx. eapply replace_ready_outside; [done | | by apply Hr].
  intros E%list_elem_of_singleton. apply Hni. rewrite <- E. by apply list_elem_of_fmap_2.
Qed.

(** *** The actions of an application *)

Definition ikey (i : QuoteIntent) : Z * Z := bkey (qi_side i) (qi_position_side i).
Definition keys (acts : Actions) : list (Z * Z) := (akey <$> news acts) ++ (akey <$> repls acts).

Lemma diff_intent_keys b now side acts i :
  keys (diff_intent rc ticker b now side acts i) ⊆+
  keys acts ++ (if bool_decide (qi_side i = side) then [ikey i] else []).
Proof.
  unfold diff_intent. case_bool_decide as Hs; simpl; [|by rewrite app_nil_r].
  assert (Hk : forall l p q id, keys (mkActions (news acts ++ [mkNew l p q side id (qi_position_side i)])
    (repls acts) (cancels acts)) ⊆+ keys acts ++ [ikey i]).
  { intros. unfold keys. simpl. rewrite fmap_app. unfold ikey. rewrite Hs. simpl. solve_submseteq. }
  assert (Hr : forall l p q id o lq, keys (mkActions (news acts)
    (repls acts ++ [mkReplace l p q side id o lq (qi_position_side i)])
    (cancels acts)) ⊆+ keys acts ++ [ikey i]).
  { intros. unfold keys. simpl. rewrite fmap_app. unfold ikey. rewrite Hs. simpl. solve_submseteq. }
  assert (Hn : keys acts ⊆+ keys acts ++ [ikey i]) by solve_submseteq.
  repeat case_match; done.
Qed.

Lemma diff_fold_keys b now side l acts :
  keys (fold_left (diff_intent rc ticker b now side) l acts) ⊆+
  keys acts ++ (ikey <$> filter (fun i => qi_side i = side) l).
Proof.
  revert acts. induction l as [|i l IH]; intros acts; simpl; [by rewrite app_nil_r|].
  etrans; [apply IH|]. etrans; [apply submseteq_app; [apply diff_intent_keys | reflexivity]|].
  rewrite filter_cons. case_bool_decide as Hs.
  - rewrite decide_True by done. rewrite fmap_cons. solve_submseteq.
  - rewrite decide_False by done. by rewrite app_nil_r.
Qed.

Lemma two_sides l :
  (ikey <$> filter (fun i => qi_side i = kBuy) l) ++ (ikey <$> filter (fun i => qi_side i = kSell) l)
  ⊆+ ikey <$> l.
Proof.
  induction l as [|i l IH]; simpl; [done|]. rewrite !filter_cons.
  destruct (decide (qi_side i = kBuy)) as [E|].
  - rewrite decide_False by (rewrite E; done). rewrite fmap_cons. simpl. by apply submseteq_skip.
  - case_decide; [|by apply submseteq_cons]. rewrite fmap_cons, <- Permutation_middle. by apply submseteq_skip.
Qed.

Lemma diff_keys first rest b now :
  qi_ticker first = ticker ->
  keys (diff rc (first :: rest) b now) ⊆+ ikey <$> first :: rest.
Proof.
  intros E. set (intents := first :: rest).
  change (keys (fold_left (diff_intent rc (qi_ticker first) b now kSell) intents
    (fold_left (diff_intent rc (qi_ticker first) b now kBuy) intents no_actions)) ⊆+ ikey <$> intents).
  rewrite E. etrans; [apply diff_fold_keys|].
  etrans; [apply submseteq_app; [apply diff_fold_keys | reflexivity]|]. apply two_sides.
Qed.

Lemma allow_sublist check {A} `{Sided A} (delta : A -> Z) acts running kept running' :
  allow check delta acts running = Some (kept, running') -> kept `sublist_of` acts.
Proof.
  revert running kept. induction acts as [|a acts IH]; intros running kept; simpl; [by intros [= <- <-]|].
  destruct (check _ _ _) as [res|]; simpl; [|done]. case_bool_decide; simpl.
  - destruct (allow _ _ _ _) as [[k r]|] eqn:E; simpl; [|done]. intros [= <- <-].
    apply sublist_skip. by eapply IH.
  - intros E. apply sublist_cons. by eapply IH.
Qed.

Lemma risk_filter_sublist check reserved acts acts' :
  filter_by_risk check reserved acts = Some acts' ->
  news acts' `sublist_of` news acts /\ repls acts' `sublist_of` repls acts /\ cancels acts' = cancels acts.
Proof.
  unfold filter_by_risk. destruct (allow check n_qty _ _) as [[n1 r1]|] eqn:E1; simpl; [|done].
  destruct (allow check _ (repls acts) _) as [[n2 r2]|] eqn:E2; simpl; [|done]. intros [= <-].
  split_and!; [by eapply allow_sublist | by eapply allow_sublist | done].
Qed.

(** Intents for the ticker, at most one per side book. *)
Definition good_intents (intents : list QuoteIntent) (m : OM) : Prop :=
  match intents with
  | [] => True
  | first :: _ =>
      qi_ticker first = ticker /\ NoDup (ikey <$> intents) /\
      Forall (fun i => key_ok (qi_side i) (qi_position_side i)) intents /\
      0 < qty_increment_ (venue_policy_ m) /\
      forall s p l, key_ok s p -> 0 <= l < 8 ->
        let slot := zget (slots (side_book ticker s p (layer_book_ m))) l in
        state slot = OMLive -> 0 <= qty slot /\ (qty_increment_ (venue_policy_ m) | qty slot)
  end.

Lemma wants_key intents side ps p q :
  Forall (fun i => key_ok (qi_side i) (qi_position_side i)) intents ->
  wants intents side ps p q -> key_ok side ps.
Proof. intros H (_ & _ & i & Hi & <- & <- & _). rewrite Forall_forall in H. by apply H. Qed.

(** What survives the venue filter is ready to be sent, on distinct side books. *)
Lemma venue_ready first rest m now diff_now :
  let intents := first :: rest in
  let acts := filter_by_venue cfg (venue_policy_ m) ticker now (layer_book_ m)
                (diff rc intents (layer_book_ m) diff_now) in
  good_intents intents m ->
  NoDup (keys acts) /\ Forall (new_ready (layer_book_ m)) (news acts) /\
  Forall (replace_ready (layer_book_ m)) (repls acts) /\ cancels acts = [].
Proof.
  intros intents acts (Ht & Hnd & Hkeys & Hinc & Hlots).
  pose proof (diff_keys first rest (layer_book_ m) diff_now Ht) as Hsub.
  destruct (diff_ok rc first rest (layer_book_ m) diff_now) as (Hn & Hr & Hc).
  fold intents in Hsub, Hn, Hr, Hc. rewrite Ht in Hn, Hr. subst acts.
  set (d := diff rc intents (layer_book_ m) diff_now) in *.
  unfold filter_by_venue. set (lt := get_last_time ticker (layer_book_ m)).
  set (v := venue_policy_ m) in *. cbn [news repls cancels].
  assert (En : fit_new cfg v <$> erase_four v now lt (news d) ≡ₚ
               fit_new cfg v <$> List.filter (fun a => negb (blocked v now lt a)) (news d)) by (by rewrite erase_four_perm).
  assert (Er : fit_replace cfg v <$> erase_four v now lt (repls d) ≡ₚ
               fit_replace cfg v <$> List.filter (fun a => negb (blocked v now lt a)) (repls d)) by (by rewrite erase_four_perm).
  split_and!.
  - unfold keys. cbn [news repls]. rewrite En, Er. rewrite <- !list_fmap_compose.
    eapply submseteq_NoDup; [|exact Hnd]. etrans; [|exact Hsub].
    apply submseteq_app; apply fmap_submseteq, sublist_submseteq, filter_sublist.
  - rewrite En. apply Forall_fmap, Forall_forall. intros a Ha.
    apply list_elem_of_In, List.filter_In in Ha as [Ha%list_elem_of_In _].
    rewrite Forall_forall in Hn. destruct (Hn a Ha) as (Hw & _ & Hl & Hst).
    split; [by eapply wants_key|]. split; [exact Hl|]. cbn. unfold working. destruct Hst as [-> | ->]; done.
  - rewrite Er. apply Forall_fmap, Forall_forall. intros a Ha.
    apply list_elem_of_In, List.filter_In in Ha as [Ha%list_elem_of_In _].
    rewrite Forall_forall in Hr. destruct (Hr a Ha) as (Hw & _ & Hl & Hst & _ & Hq).
    apply (wants_key _ _ _ _ _ Hkeys) in Hw. destruct (Hlots _ _ _ Hw Hl Hst) as [Hpos Hdiv].
    split; [exact Hw|]. split; [exact Hl|]. split; cbn.
    + unfold working. by rewrite Hst.
    + rewrite Hq. symmetry. by apply round_qty_multiple.
  - rewrite Hc. apply Permutation_nil_r. by rewrite erase_four_perm.
Qed.

(** A whole number of lots of [inc]. *)
Definition whole (inc q : Z) : Prop := 0 <= q /\ (inc | q).

(** The quantity a replacement starts from is the one of a live order, in whole
    lots. *)
Lemma venue_whole first rest m now diff_now :
  let intents := first :: rest in
  good_intents intents m ->
  Forall (fun a => whole (qty_increment_ (venue_policy_ m)) (r_last_qty a))
    (repls (filter_by_venue cfg (venue_policy_ m) ticker now (layer_book_ m) (diff rc intents (layer_book_ m) diff_now))).
Proof.
  intros intents (Ht & _ & Hkeys & Hinc & Hlots).
  destruct (diff_ok rc first rest (layer_book_ m) diff_now) as (_ & Hr & _). fold intents in Hr. rewrite Ht in Hr.
  unfold filter_by_venue. cbn [repls]. rewrite erase_four_perm. apply Forall_fmap, Forall_forall. intros a Ha.
  apply list_elem_of_In, List.filter_In in Ha as [Ha%list_elem_of_In _].
  rewrite Forall_forall in Hr. destruct (Hr a Ha) as (Hw & _ & Hl & Hst & _ & Hq).
  apply (wants_key _ _ _ _ _ Hkeys) in Hw. destruct (Hlots _ _ _ Hw Hl Hst) as [Hpos Hdiv].
  cbn. rewrite Hq. by rewrite round_qty_multiple.
Qed.

Lemma apply_step_tracks risk keeper now diff_now intents m m' ids :
  good_intents intents m -> tracks m ->
  apply_intents cfg scale_int rc reorder risk keeper now diff_now intents m = Some (m', ids) ->
  tracks m'.
Proof.
  intros Hg Hm. unfold apply_intents.
  destruct intents as [|first rest]; [intros [= <- <-]; by apply sweep_tracks|].
  assert (Ht : qi_ticker first = ticker) by apply Hg. rewrite Ht.
  pose proof (venue_ready first rest m now diff_now Hg) as (Hnd & Hn & Hr & Hc).
  set (acts := filter_by_venue _ _ _ _ _ _) in *.
  destruct (filter_by_risk _ _ _) as [acts'|] eqn:E; cbn [mbind option_bind]; [|done].
  apply risk_filter_sublist in E as (Sn & Sr & Sc).
  assert (Hnd' : NoDup (keys acts')).
  { eapply submseteq_NoDup; [|exact Hnd].
    apply submseteq_app; by apply fmap_submseteq, sublist_submseteq. }
  apply NoDup_app in Hnd' as (Hnn & Hdis & Hnr).
  assert (Hn' : Forall (new_ready (layer_book_ m)) (news acts')) by (by eapply sublist_Forall).
  assert (Hr' : Forall (replace_ready (layer_book_ m)) (repls acts')) by (by eapply sublist_Forall).
  unfold process_new_orders.
  destruct (process_news_tracks now (news acts') m [] Hm Hnn Hn') as [Hm1 Hs1].
  destruct (fold_left _ (news acts') (m, [])) as [m1 ids1]. cbn [fst] in *.
  intros [= <- <-]. apply sweep_tracks. unfold process_cancel_orders. rewrite Sc, Hc. cbn [fold_left].
  apply process_replaces_tracks; [done | done |]. rewrite Forall_forall in *. intros a Ha.
  eapply replace_ready_outside; [exact Hs1 | | by apply Hr'].
  intros Hin. eapply Hdis; [exact Hin|]. by apply list_elem_of_fmap_2.
Qed.

(** The histories of an order manager: reports and applications that meet the
    conditions above, and new lot sizes. *)
Inductive reachable : OM -> Prop :=
| reach_new venue ttl_reserved ttl_live :
    reachable (new_order_manager ticker venue ttl_reserved ttl_live)
| reach_report m now r :
    reachable m -> good_report r m -> reachable (on_order_updated scale_int now r m)
| reach_instrument m symbols :
    reachable m -> reachable (on_instrument_info ticker symbols m)
| reach_apply m risk keeper now diff_now intents m' ids :
    reachable m -> good_intents intents m ->
    apply_intents cfg scale_int rc reorder risk keeper now diff_now intents m = Some (m', ids) ->
    reachable m'.

(** C2: the reserved position is the exposure of the working orders.  In every
    history of reports that agree with the slots they act on and of
    applications with at most one intent per side book and whole lots, the
    reserved position equals the signed sum of the quantities of all working
    orders, and every side book keeps its shape. *)
Theorem reserved_is_exposure m :
  reachable m ->
  wf_books (layer_book_ m) /\ position_tracker_ m = net_exposure ticker (layer_book_ m).
Proof.
  induction 1 as [v t1 t2|m now r Hm IH Hg|m symbols Hm IH|m risk keeper now dn intents m' ids Hm IH Hg Ha].
  - split; cbn.
    + intros t fw [_ <-]%lookup_singleton_Some. apply new_four_way_wf.
    + unfold net_exposure, fw_of. by rewrite lookup_singleton_eq.
  - by apply report_step_tracks.
  - unfold on_instrument_info. by case_match.
  - by eapply apply_step_tracks.
Qed.

End Tracking.

(** *** A history *)

Definition demo_cfg : FixedPointConfig := BTCUSDCConfig.
Definition demo_rc : Reconciler := mkReconciler 1 1 1.
Definition demo_om : OM := new_order_manager "BTCUSDC" (mkVenue 10 1 1000 0 1) 100 1000.
Definition demo_intent (side : Side) (price qty : Z) : QuoteIntent :=
  mkIntent "BTCUSDC" side (Some kLong) (Some price) qty.
Definition demo_apply (intents : list QuoteIntent) : option (OM * list Z) :=
  apply_intents demo_cfg 1 demo_rc true
    {[ "BTCUSDC" := mkRiskCfg 100 50 (-50) (-1000) ]} demo_keeper 9 7 intents demo_om.
Definition demo_om1 : OM :=
  default demo_om (fst <$> demo_apply [demo_intent kBuy 1000 20; demo_intent kSell 1010 30]).
Definition demo_ack : ExecutionReport :=
  mkReport 7 "BTCUSDC" ETNew OSNew 20 0 1000 kBuy (Some kLong).
Definition demo_om2 : OM := on_order_updated 1 11 demo_ack demo_om1.

Lemma fresh_side_book t s p : key_ok s p -> side_book t s p {[ t := new_four_way ]} = new_side_book.
Proof.
  unfold side_book. rewrite lookup_singleton_eq. intros [[-> | ->] Hp]; destruct p as [[]|]; done.
Qed.

Lemma demo_good_intents : good_intents "BTCUSDC" [demo_intent kBuy 1000 20; demo_intent kSell 1010 30] demo_om.
Proof.
  split_and!; [done | | repeat constructor; cbn; (by left) || (by right) || done | done |].
  - apply NoDup_cons. split; [|apply NoDup_singleton]. by intros ?%list_elem_of_singleton.
  - intros s p l Hk Hl. cbn -[zget]. rewrite fresh_side_book by done. cbn -[zget replicate].
    rewrite zget_replicate by (simpl; lia). done.
Qed.

Lemma demo_good_report : good_report 1 "BTCUSDC" demo_ack demo_om1.
Proof. split; [done|]. split; [by split; [left|]|]. by vm_compute. Qed.

Lemma demo_om_tracks : tracks "BTCUSDC" demo_om.
Proof.
  split; [|by vm_compute]. intros t fw. cbn [layer_book_ demo_om new_order_manager].
  intros [_ <-]%lookup_singleton_Some. apply new_four_way_wf.
Qed.

Lemma demo_om1_tracks : tracks "BTCUSDC" demo_om1.
Proof.
  eapply (apply_step_tracks demo_cfg 1 demo_rc true "BTCUSDC"
    {[ "BTCUSDC" := mkRiskCfg 100 50 (-50) (-1000) ]} demo_keeper 9 7);
    [exact demo_good_intents | exact demo_om_tracks | by vm_compute].
Qed.

Lemma reserved_is_exposure_witness :
  position_tracker_ demo_om2 = -10 /\
  wf_books (layer_book_ demo_om2) /\
  position_tracker_ demo_om2 = net_exposure "BTCUSDC" (layer_book_ demo_om2).
Proof.
  split; [by vm_compute|].
  apply (reserved_is_exposure demo_cfg 1 demo_rc true "BTCUSDC").
  apply reach_report; [|exact demo_good_report].
  eapply (reach_apply _ _ _ _ _ demo_om {[ "BTCUSDC" := mkRiskCfg 100 50 (-50) (-1000) ]} demo_keeper 9 7);
    [apply reach_new | exact demo_good_intents |].
  by vm_compute.
Defined.

(** ** Rejected replacements *)

(** The side book and the reserved position when a replacement has been sent. *)
Definition replacement_sent (scale_int : Z) (reorder : bool) (now : Z) (a : ActionReplace) (sb : SideBook) (reserved : Z) : St :=
  (replace_side_book scale_int reorder now a sb, add_reserved (r_side a) (r_qty a - r_last_qty a) reserved).

(** C27: a rejected replacement restores the order.  Sending a replacement of a
    live order and handling its rejection gives back the order's price,
    quantity, id and tick as a live order, the reserved position from before,
    and no pending replacement, in both request modes; no other slot changes. *)
Theorem replace_reject_restores scale_int reorder now now' a r sb reserved :
  let l := r_layer a in
  let old := zget (slots sb) l in
  let sent_state := replacement_sent scale_int reorder now a sb reserved in
  wf_sb sb -> 0 <= l < 8 ->
  r_last_qty a = qty old -> r_original_cl_order_id a = slot_cl_order_id old ->
  ord_status r = OSRejected -> er_side r = r_side a ->
  cl_order_id r = (if reorder then r_cl_order_id a else r_original_cl_order_id a) ->
  let '(sb', reserved') := handle_execution_report scale_int now' r sent_state in
  reserved' = reserved /\
  zget (slots sb') l = mkSlot OMLive (price old) (qty old) now (slot_cl_order_id old) /\
  layer_ticks sb' = layer_ticks sb /\ zget (pending_repl sb') l = None /\
  (forall k, new_id_to_layer sb' !! k <> Some l) /\
  forall i, i <> l -> zget (slots sb') i = zget (slots sb) i.
Proof.
  intros l old sent_state [H1 H2 H3 _ _] Hl Hq Hid Hst Hside Hcl.
  destruct (handle_execution_report scale_int now' r sent_state) as [sb' reserved'] eqn:E.
  unfold handle_execution_report, sent_state, replacement_sent in E. rewrite Hst in E.
  set (pend := mkPending (r_price a) (r_qty a) (to_ticks_raw scale_int (r_price a)) (cl_order_id r)
    (qty old) (slot_cl_order_id old) (price old) (zget (layer_ticks sb) l)).
  set (sb1 := replace_side_book scale_int reorder now a sb) in *.
  assert (Hp : pending_repl sb1 = zset (pending_repl sb) l (Some pend)).
  { unfold sb1, pend, replace_side_book. rewrite Hcl, Hq, Hid. destruct reorder; cbn; by rewrite ?Hid. }
  assert (Hn : new_id_to_layer sb1 =
    <[cl_order_id r := l]> (filter (fun kv : Z * Z => kv.2 <> l) (new_id_to_layer sb))).
  { unfold sb1, replace_side_book. rewrite Hcl. by destruct reorder. }
  assert (Hrr : rejected_replace r sb1 = Some (l, pend)).
  { unfold rejected_replace. rewrite Hn, lookup_insert_eq. simpl. rewrite (proj2 (Z.leb_le 0 l)) by lia.
    rewrite Hp, zget_zset_eq by lia. done. }
  assert (Hs : slots sb1 = zset (slots sb) l (mkSlot OMCancelReserved (r_price a) (r_qty a) now (r_cl_order_id a)))
    by apply slots_replace_side_book.
  assert (Ht : layer_ticks sb1 = zset (layer_ticks sb) l (to_ticks_raw scale_int (r_price a)))
    by (unfold sb1, replace_side_book; by destruct reorder).
  unfold handle_rejected_or_expired in E. rewrite Hrr in E. injection E as <- <-. cbn.
  unfold slot_at. cbn. rewrite Hs, Ht, Hp, Hn, Hside, Hq.
  unfold add_reserved, remove_reserved. rewrite !zget_zset_eq by (rewrite ?zlen_zset; lia). cbn.
  split_and!; [lia | done | | done | |].
  - unfold zset. rewrite bool_decide_eq_true_2 by lia. rewrite list_insert_insert_eq.
    apply list_insert_id, zget_Some. lia.
  - intros k. rewrite delete_insert_eq. intros [_ Hk]%lookup_delete_Some.
    apply map_lookup_filter_Some in Hk as [_ Hk]. done.
  - intros i Hi. by rewrite !zget_zset_ne.
Qed.

Definition demo_replace : ActionReplace := mkReplace 0 1005 8 kBuy 90 77 5 (Some kLong).

Lemma replace_reject_restores_witness :
  let old := zget (slots demo_side_book) 0 in
  let '(sb', reserved') :=
    handle_execution_report 1 12 (mkReport 90 "BTCUSDC" ETRejected OSRejected 0 0 1005 kBuy (Some kLong))
      (replacement_sent 1 true 11 demo_replace demo_side_book 5) in
  reserved' = 5 /\ zget (slots sb') 0 = mkSlot OMLive (price old) (qty old) 11 (slot_cl_order_id old).
Proof.
  pose proof (replace_reject_restores 1 true 11 12 demo_replace
    (mkReport 90 "BTCUSDC" ETRejected OSRejected 0 0 1005 kBuy (Some kLong)) demo_side_book 5
    demo_side_book_wf ltac:(cbn; lia) eq_refl eq_refl eq_refl eq_refl eq_refl) as H.
  cbn zeta in H.
  destruct (handle_execution_report _ _ _ _) as [sb' reserved']. exact (conj (proj1 H) (proj1 (proj2 H))).
Defined.

(** ** Colliding quotes *)

(** Two new buy quotes of one application leave a reservation behind.  Both
    orders are sent, with the same id, but the second overwrites the slot of the
    first: the reserved position counts both quantities and the layers only the
    second. *)
Theorem colliding_quotes_leak_reservation :
  exists m, demo_apply [demo_intent kBuy 1000 20; demo_intent kBuy 990 10] = Some (m, [7; 7]) /\
    (rq_price <$> sent m) = [1000; 990] /\
    position_tracker_ m = 30 /\ net_exposure "BTCUSDC" (layer_book_ m) = 10.
Proof. eexists. split; [vm_compute; reflexivity|]. by vm_compute. Qed.

(** ** Expiry *)

(** An order that a sweep may cancel. *)
Definition sweepable (k : ExpiryKey) (b : Books) : Prop :=
  let slot := zget (slots (side_book (k_symbol k) (k_side k) (k_position_side k) b)) (k_layer k) in
  slot_cl_order_id slot = k_cl_order_id k /\ (state slot = OMLive \/ state slot = OMReserved).

Definition key_in_range (k : ExpiryKey) : Prop :=
  key_ok (k_side k) (k_position_side k) /\ 0 <= k_layer k < 8.

(** Slots only move to [OMCancelReserved], keeping their ids. *)
Definition slots_advance (b b' : Books) : Prop :=
  forall t s p l,
    let old := zget (slots (side_book t s p b)) l in
    let new := zget (slots (side_book t s p b')) l in
    new = old \/ (state new = OMCancelReserved /\ slot_cl_order_id new = slot_cl_order_id old).

Lemma sweepable_advance k b b' : slots_advance b b' -> sweepable k b' -> sweepable k b.
Proof.
  intros H [Hid Hst]. destruct (H (k_symbol k) (k_side k) (k_position_side k) (k_layer k)) as [E|[E1 E2]].
  - unfold sweepable. by rewrite <- E.
  - rewrite E1 in Hst. by destruct Hst.
Qed.

Lemma slots_advance_put b t s p l slot :
  wf_books b -> state slot = OMCancelReserved ->
  slot_cl_order_id slot = slot_cl_order_id (zget (slots (side_book t s p b)) l) ->
  slots_advance b (put_side_book t s p (set_slot l slot (side_book t s p b)) b).
Proof.
  intros Hb Hst Hid t' s' p' l'. cbn zeta.
  destruct (decide (t = t')) as [<-|Hne].
  2: { left. unfold side_book, put_side_book. by rewrite lookup_insert_ne. }
  destruct (decide (bkey s p = bkey s' p')) as [E|]; [|left; by rewrite side_book_put_ne].
  assert (Hsame : forall b0, side_book t s' p' b0 = side_book t s p b0).
  { intros b0. unfold side_book. injection E as -> ->. done. }
  rewrite !Hsame. destruct (decide (key_ok s p)) as [Hk|Hk].
  - rewrite side_book_put_eq by done. cbn. destruct (decide (l = l')) as [<-|]; [|left; by rewrite zget_zset_ne].
    destruct (decide (0 <= l < zlen (slots (side_book t s p b)))).
    + rewrite zget_zset_eq by done. by right.
    + left. by rewrite zset_out.
  - left. unfold side_book at 1. fold (fw_of t (put_side_book t s p (set_slot l slot (side_book t s p b)) b)).
    rewrite net_put_bad by done. done.
Qed.

Lemma sweep_key_facts now m k :
  wf_books (layer_book_ m) ->
  let m' := sweep_key now m k in
  wf_books (layer_book_ m') /\ slots_advance (layer_book_ m) (layer_book_ m') /\
  (key_in_range k -> ~ sweepable k (layer_book_ m')) /\
  exists reqs, sent m' = sent m ++ reqs /\
    Forall (fun q => req_type q = RQOrderCancelRequest /\ rq_position_side q = None) reqs.
Proof.
  intros Hb. unfold sweep_key. set (sb := side_book _ _ _ _).
  assert (Hwf : wf_sb sb) by (by apply side_book_wf).
  assert (Hstay : (key_in_range k -> ~ sweepable k (layer_book_ m)) ->
    wf_books (layer_book_ m) /\ slots_advance (layer_book_ m) (layer_book_ m) /\
    (key_in_range k -> ~ sweepable k (layer_book_ m)) /\
    exists reqs, sent m = sent m ++ reqs /\
      Forall (fun q => req_type q = RQOrderCancelRequest /\ rq_position_side q = None) reqs).
  { intros H. split_and!; [done | by left | done |]. exists []. by rewrite app_nil_r. }
  destruct (Z.leb_spec (zlen (slots sb)) (k_layer k)) as [Hge|Hlt].
  { apply Hstay. rewrite (wf_slots _ Hwf) in Hge. intros [_ ?]. lia. }
  destruct (Z.eqb_spec (slot_cl_order_id (zget (slots sb) (k_layer k))) (k_cl_order_id k)) as [Hid|Hid];
    cbn [negb]; [|apply Hstay; intros _ [? _]; done].
  assert (Hgo : let m' := cancel_order (k_symbol k) (slot_cl_order_id (zget (slots sb) (k_layer k))) None
      (set_books (put_side_book (k_symbol k) (k_side k) (k_position_side k)
        (set_slot (k_layer k) (with_last_used now (with_state OMCancelReserved (zget (slots sb) (k_layer k)))) sb)
        (layer_book_ m)) m) in
    wf_books (layer_book_ m') /\ slots_advance (layer_book_ m) (layer_book_ m') /\
    (key_in_range k -> ~ sweepable k (layer_book_ m')) /\
    exists reqs, sent m' = sent m ++ reqs /\
      Forall (fun q => req_type q = RQOrderCancelRequest /\ rq_position_side q = None) reqs).
  { cbn zeta. split_and!; cbn.
    - apply books_put_wf; [done|]. by apply wf_set_slot.
    - by apply slots_advance_put.
    - intros [Hk Hl] [_ Hst]. rewrite side_book_put_eq in Hst by done. cbn in Hst.
      rewrite zget_zset_eq in Hst by lia. by destruct Hst.
    - eexists. split; [reflexivity|]. by repeat constructor. }
  destruct (state (zget (slots sb) (k_layer k))) eqn:Est;
    try exact Hgo; apply Hstay; intros _ [_ Hst]; fold sb in Hst; rewrite Est in Hst; by destruct Hst.
Qed.

(** After a sweep no expired key still names a live or reserved order, and
    the sweep has sent nothing but cancels, none of which names the position
    side of its order. *)
Theorem sweep_cancels_expired now m :
  wf_books (layer_book_ m) -> Forall key_in_range (expiry_pq_ (expiry_manager_ m)) ->
  let m' := sweep_expired_orders now m in
  (forall k, k ∈ (sweep_expired now (expiry_manager_ m)).1 -> ~ sweepable k (layer_book_ m')) /\
  exists reqs, sent m' = sent m ++ reqs /\
    Forall (fun q => req_type q = RQOrderCancelRequest /\ rq_position_side q = None) reqs.
Proof.
  intros Hb Hkeys. unfold sweep_expired_orders.
  assert (Hin : forall k, k ∈ (sweep_expired now (expiry_manager_ m)).1 -> key_in_range k).
  { rewrite Forall_forall in Hkeys. intros k Hk. apply Hkeys.
    unfold sweep_expired in Hk. pose proof (sweep_loop_perm now (expiry_pq_ (expiry_manager_ m)) []) as Hp.
    destruct (sweep_loop _ _ _) as [ex pq]. cbn in *. rewrite <- Hp. apply elem_of_app. by left. }
  destruct (sweep_expired now (expiry_manager_ m)) as [ks e]. cbn [fst] in *.
  assert (H : forall m0, wf_books (layer_book_ m0) ->
    let m' := fold_left (sweep_key now) ks m0 in
    slots_advance (layer_book_ m0) (layer_book_ m') /\
    (forall k, k ∈ ks -> ~ sweepable k (layer_book_ m')) /\
    exists reqs, sent m' = sent m0 ++ reqs /\
      Forall (fun q => req_type q = RQOrderCancelRequest /\ rq_position_side q = None) reqs).
  { clear Hkeys. induction ks as [|k ks IH]; intros m0 Hm0; cbn [fold_left].
    - split_and!; [by left | by intros k ?%not_elem_of_nil |]. exists []. by rewrite app_nil_r.
    - destruct (sweep_key_facts now m0 k Hm0) as (Hb1 & Ha1 & Hn1 & q1 & Hs1 & Hq1).
      destruct (IH ltac:(intros; apply Hin; by right) _ Hb1) as (Ha2 & Hn2 & q2 & Hs2 & Hq2).
      split_and!.
      + intros t s p l. cbn zeta. destruct (Ha2 t s p l) as [->|[E1 E2]]; [apply Ha1|].
        right. split; [done|]. rewrite E2. destruct (Ha1 t s p l) as [->|[_ ->]]; done.
      + intros k' [->|Hk']%elem_of_cons; [|by apply Hn2].
        intros Hsw. apply Hn1; [apply Hin; by left|]. by eapply sweepable_advance.
      + exists (q1 ++ q2). rewrite Hs2, Hs1, app_assoc. split; [done|]. by apply Forall_app. }
  destruct (H (set_expiry e m) Hb) as (_ & H1 & H2). by split.
Qed.

Lemma demo_om1_keys : Forall key_in_range (expiry_pq_ (expiry_manager_ demo_om1)).
Proof.
  apply Forall_forall. intros k Hk.
  assert (E : expiry_pq_ (expiry_manager_ demo_om1) =
    [mkKey 109 "BTCUSDC" kBuy (Some kLong) 0 7; mkKey 109 "BTCUSDC" kSell (Some kLong) 0 7]) by (by vm_compute).
  rewrite E in Hk. repeat (apply elem_of_cons in Hk as [->|Hk]; [split; [split; [(by left) || by right|done]|cbn; lia]|]).
  by apply not_elem_of_nil in Hk.
Qed.

Lemma sweep_cancels_expired_witness :
  sent (sweep_expired_orders 200 demo_om1) = sent demo_om1 ++
    [mkRequest RQOrderCancelRequest kOrderIdInvalid 7 7 "BTCUSDC" kInvalid 0 OTInvalid 0 TIFInvalid None;
     mkRequest RQOrderCancelRequest kOrderIdInvalid 7 7 "BTCUSDC" kInvalid 0 OTInvalid 0 TIFInvalid None] /\
  forall k, k ∈ (sweep_expired 200 (expiry_manager_ demo_om1)).1 ->
    ~ sweepable k (layer_book_ (sweep_expired_orders 200 demo_om1)).
Proof.
  split; [by vm_compute|].
  apply (sweep_cancels_expired 200 demo_om1).
  - exact (proj1 demo_om1_tracks).
  - apply demo_om1_keys.
Defined.

End OrderManagerFacts.
