(* ===== verification/OrderBatches.v ===== *)
(** * Small batches of quote intents

    What the order manager does with a batch of at most one intent, whichever
    strategy sends it: applications never make an order live, so the lots of the
    live orders stay whole, and the reserved position stays the exposure of the
    working orders. *)

From S2P Require Import Prelude Types PositionKeeper RiskManager LayerBook QuoteReconciler OrderStateManager OrderExpiry OrderManager OrderManagerFacts.

Module OrderBatches.

Import PositionKeeper RiskManager LayerBook QuoteReconciler OrderStateManager OrderExpiry OrderManager OrderManagerFacts.

(** ** Live orders *)

Definition slot_of (t : string) (s : Side) (p : option PositionSide) (l : Z) (b : Books) : OrderSlot :=
  zget (slots (side_book t s p b)) l.

(** Every live slot was the same live slot before. *)
Definition live_kept (b b' : Books) : Prop :=
  forall t s p l, state (slot_of t s p l b') = OMLive -> slot_of t s p l b' = slot_of t s p l b.

Lemma live_kept_refl b : live_kept b b.
Proof. done. Qed.

Lemma live_kept_trans b1 b2 b3 : live_kept b1 b2 -> live_kept b2 b3 -> live_kept b1 b3.
Proof. intros H1 H2 t s p l Hl. pose proof (H2 t s p l Hl) as E. rewrite E in Hl |- *. by apply H1. Qed.

(** Writing a slot that is not live. *)
Lemma live_kept_put b t s p sb layer slot :
  wf_books b -> state slot <> OMLive -> slots sb = zset (slots (side_book t s p b)) layer slot ->
  live_kept b (put_side_book t s p sb b).
Proof.
  intros Hb Hst Hsb t' s' p' l'. unfold slot_of. destruct (decide (t = t')) as [<-|Hne].
  2: { intros _. unfold side_book, put_side_book. by rewrite lookup_insert_ne. }
  destruct (decide (bkey s p = bkey s' p')) as [E|]; [|intros _; by rewrite side_book_put_ne].
  assert (Hsame : forall b0, side_book t s' p' b0 = side_book t s p b0).
  { intros b0. unfold side_book. injection E as -> ->. done. }
  rewrite !Hsame. destruct (decide (key_ok s p)) as [Hk|Hk].
  - rewrite side_book_put_eq, Hsb by done. destruct (decide (layer = l')) as [<-|]; [|by rewrite zget_zset_ne].
    destruct (decide (0 <= layer < zlen (slots (side_book t s p b)))).
    + rewrite zget_zset_eq by done. done.
    + by rewrite zset_out.
  - intros _. unfold side_book at 1. fold (fw_of t (put_side_book t s p sb b)). by rewrite net_put_bad.
Qed.

(** Every pending replacement was there before, or starts from whole lots. *)
Definition pend_kept (inc : Z) (b b' : Books) : Prop :=
  forall t s p l pend, zget (pending_repl (side_book t s p b')) l = Some pend ->
    zget (pending_repl (side_book t s p b)) l = Some pend \/ whole inc (pr_last_qty pend).

Lemma pend_kept_trans inc b1 b2 b3 : pend_kept inc b1 b2 -> pend_kept inc b2 b3 -> pend_kept inc b1 b3.
Proof. intros H1 H2 t s p l pend Hp. destruct (H2 _ _ _ _ _ Hp) as [H|]; [by apply H1 | by right]. Qed.

Lemma pend_kept_put inc b t s p sb :
  wf_books b ->
  (forall l pend, zget (pending_repl sb) l = Some pend ->
     zget (pending_repl (side_book t s p b)) l = Some pend \/ whole inc (pr_last_qty pend)) ->
  pend_kept inc b (put_side_book t s p sb b).
Proof.
  intros Hb Hsb t' s' p' l'. destruct (decide (t = t')) as [<-|Hne].
  2: { intros pend. unfold side_book, put_side_book. rewrite lookup_insert_ne by done. by left. }
  destruct (decide (bkey s p = bkey s' p')) as [E|]; [|intros pend; rewrite side_book_put_ne by done; by left].
  assert (Hsame : forall b0, side_book t s' p' b0 = side_book t s p b0).
  { intros b0. unfold side_book. injection E as -> ->. done. }
  rewrite !Hsame. destruct (decide (key_ok s p)) as [Hk|Hk]; [rewrite side_book_put_eq by done; apply Hsb|].
  intros pend Hp. left. rewrite <-Hp. unfold side_book at 2. fold (fw_of t (put_side_book t s p sb b)). by rewrite net_put_bad.
Qed.

(** An operation that keeps the books in shape, the venue, the live slots and the
    pending replacements. *)
Definition quiet (m m' : OM) : Prop :=
  wf_books (layer_book_ m) ->
  wf_books (layer_book_ m') /\ live_kept (layer_book_ m) (layer_book_ m') /\ venue_policy_ m' = venue_policy_ m /\
  pend_kept (qty_increment_ (venue_policy_ m)) (layer_book_ m) (layer_book_ m').

Lemma quiet_refl m : quiet m m.
Proof. intros ?. split_and!; try done. intros t s p l pend Hp. by left. Qed.

Lemma quiet_trans m1 m2 m3 : quiet m1 m2 -> quiet m2 m3 -> quiet m1 m3.
Proof.
  intros H12 H23 H1. destruct (H12 H1) as (Hb & Hl & Hv & Hp). destruct (H23 Hb) as (Hb' & Hl' & Hv' & Hp').
  rewrite Hv in Hp'. split_and!; [done | by eapply live_kept_trans | congruence | by eapply pend_kept_trans].
Qed.

Lemma quiet_fold {A} (f : OM -> A -> OM) l m : (forall m a, quiet m (f m a)) -> quiet m (fold_left f l m).
Proof.
  intros Hf. revert m. induction l as [|a l IH]; intros m; simpl; [apply quiet_refl|].
  eapply quiet_trans; [apply Hf | apply IH].
Qed.

(** Steps that do not touch the books. *)
Lemma quiet_ext m m1 m2 : layer_book_ m2 = layer_book_ m1 -> venue_policy_ m2 = venue_policy_ m1 -> quiet m m1 -> quiet m m2.
Proof. unfold quiet. by intros -> ->. Qed.

Lemma quiet_put m t s p sb layer slot :
  wf_sb sb -> state slot <> OMLive ->
  slots sb = zset (slots (side_book t s p (layer_book_ m))) layer slot ->
  (forall l pend, zget (pending_repl sb) l = Some pend ->
     zget (pending_repl (side_book t s p (layer_book_ m))) l = Some pend \/
     whole (qty_increment_ (venue_policy_ m)) (pr_last_qty pend)) ->
  quiet m (set_books (put_side_book t s p sb (layer_book_ m)) m).
Proof.
  intros Hsb Hst Hs Hp Hb.
  split_and!; cbn; [by apply books_put_wf | by eapply live_kept_put | done | by apply pend_kept_put].
Qed.

Section Applications.
Context (cfg : FixedPointConfig) (scale_int : Z) (rc : Reconciler) (reorder : bool).

Lemma process_new_quiet ticker now m ids a : quiet m (process_new scale_int ticker now (m, ids) a).1.
Proof.
  unfold process_new. destruct (tick_taken _ _ _); [apply quiet_refl|]. cbn zeta. intros Hb. revert Hb.
  set (sb := side_book _ _ _ _). intros Hb. assert (Hwf : wf_sb sb) by (by apply side_book_wf).
  revert Hb. eapply quiet_ext; [| |eapply (quiet_put m ticker (n_side a) (n_position_side a)
    (set_slot (n_layer a) (mkSlot OMReserved (n_price a) (n_qty a) now (n_cl_order_id a))
       (set_tick (n_layer a) (to_ticks_raw scale_int (n_price a)) sb)))]; try reflexivity; try done.
  - by apply wf_set_slot, wf_set_tick.
  - intros l pend Hp. by left.
Qed.

Lemma process_news_quiet ticker now acts m ids :
  quiet m (fold_left (process_new scale_int ticker now) acts (m, ids)).1.
Proof.
  revert m ids. induction acts as [|a acts IH]; intros m ids; cbn [fold_left]; [apply quiet_refl|].
  pose proof (process_new_quiet ticker now m ids a) as Hq. destruct (process_new _ _ _ (m, ids) a) as [m1 ids1].
  eapply quiet_trans; [exact Hq | apply IH].
Qed.

Lemma process_replace_quiet ticker now m a :
  0 <= r_layer a < 8 -> whole (qty_increment_ (venue_policy_ m)) (r_last_qty a) ->
  quiet m (process_replace scale_int reorder ticker now m a).
Proof.
  intros Hl Hw. unfold process_replace. destruct (tick_taken _ _ _); [apply quiet_refl|]. cbn zeta. intros Hb. revert Hb.
  set (sb := side_book _ _ _ _). intros Hb. assert (Hwf : wf_sb sb) by (by apply side_book_wf).
  revert Hb. eapply quiet_ext; [| |eapply (quiet_put m ticker (r_side a) (r_position_side a)
    (replace_side_book scale_int reorder now a sb))]; try (by destruct reorder).
  - by apply wf_replace_side_book.
  - done.
  - intros l pend. destruct (pending_replace_side_book scale_int reorder now a sb) as (new & Hn & ->).
    destruct (decide (l = r_layer a)) as [->|]; [|rewrite zget_zset_ne by done; by left].
    rewrite zget_zset_eq by (rewrite (wf_pending _ Hwf); lia). intros [= <-]. right. by rewrite Hn.
Qed.

Lemma process_replaces_quiet ticker now acts m :
  Forall (fun a => 0 <= r_layer a < 8) acts -> Forall (fun a => whole (qty_increment_ (venue_policy_ m)) (r_last_qty a)) acts ->
  quiet m (fold_left (process_replace scale_int reorder ticker now) acts m).
Proof.
  intros Hall. revert m. induction Hall as [|a l Ha Hall IH]; intros m Hw; cbn [fold_left]; [apply quiet_refl|].
  apply Forall_cons in Hw as [Hwa Hw]. pose proof (process_replace_quiet ticker now m a Ha Hwa) as Hq.
  assert (Hv : venue_policy_ (process_replace scale_int reorder ticker now m a) = venue_policy_ m)
    by (unfold process_replace; destruct (tick_taken _ _ _), reorder; done).
  eapply quiet_trans; [exact Hq|]. apply IH. by rewrite Hv.
Qed.

Lemma sweep_key_quiet now m k : quiet m (sweep_key now m k).
Proof.
  intros Hb. destruct (sweep_key_facts now m k Hb) as (H1 & H2 & _). split_and!; [done | | |].
  - intros t s p l Hl. destruct (H2 t s p l) as [E|[E _]]; [exact E|]. unfold slot_of in Hl. congruence.
  - unfold sweep_key. repeat case_match; done.
  - unfold sweep_key. repeat case_match; try (intros t s p l pend Hp; by left);
      (apply pend_kept_put; [done|]; intros l pend Hp; by left).
Qed.

Lemma sweep_quiet now m : quiet m (sweep_expired_orders now m).
Proof.
  unfold sweep_expired_orders. destruct (sweep_expired now (expiry_manager_ m)) as [expired e].
  eapply quiet_trans; [|apply quiet_fold; intros; apply sweep_key_quiet]. by eapply quiet_ext; [| |apply quiet_refl].
Qed.

(** Orders of the ticker that are live have whole lots, and so do the orders that
    are being replaced. *)
Definition lots_ok (ticker : string) (m : OM) : Prop :=
  let inc := qty_increment_ (venue_policy_ m) in
  0 < inc /\
  (forall s p l, key_ok s p -> 0 <= l < 8 ->
    let slot := slot_of ticker s p l (layer_book_ m) in state slot = OMLive -> whole inc (qty slot)) /\
  (forall s p l pend, key_ok s p -> zget (pending_repl (side_book ticker s p (layer_book_ m))) l = Some pend ->
    whole inc (pr_last_qty pend)).

Lemma lots_quiet ticker m m' : wf_books (layer_book_ m) -> quiet m m' -> lots_ok ticker m -> lots_ok ticker m'.
Proof.
  intros Hb Hq (Hi & Hl & Hp). destruct (Hq Hb) as (_ & Hk & Hv & Hpk). unfold lots_ok. rewrite Hv. split_and!; [done | |].
  - intros s p l Hkey Hr Hst. pose proof (Hk _ _ _ _ Hst) as E. rewrite E in *. by apply Hl.
  - intros s p l pend Hkey Hpd. destruct (Hpk _ _ _ _ _ Hpd) as [H|H]; [by eapply Hp | done].
Qed.

(** ** Reports *)

(** What a report leaves of an order is in whole lots. *)
Definition whole_report (inc : Z) (r : ExecutionReport) : Prop :=
  match ord_status r with OSNew | OSPartiallyFilled => whole inc (leaves_qty r) | _ => True end.

#[export] Instance divide_dec (a b : Z) : Decision (a | b).
Proof.
  destruct (decide (a = 0)) as [->|Ha].
  - destruct (decide (b = 0)) as [->|]; [left; apply Z.divide_0_r | right; by intros ?%Z.divide_0_l].
  - destruct (decide (b mod a = 0)); [left; by apply Z.mod_divide | right; by rewrite <-Z.mod_divide].
Defined.
#[export] Instance whole_dec inc q : Decision (whole inc q).
Proof. unfold whole. apply _. Defined.
#[export] Instance whole_report_dec inc r : Decision (whole_report inc r).
Proof. unfold whole_report. destruct (ord_status r); apply _. Defined.
#[export] Instance agrees_dec r sb : Decision (agrees scale_int r sb).
Proof. unfold agrees. destruct (ord_status r), (rejected_replace r sb) as [[? ?]|]; apply _. Defined.
#[export] Instance good_report_dec ticker r m : Decision (good_report scale_int ticker r m).
Proof. unfold good_report, key_ok. apply _. Defined.

(** The live slots and the pending replacements of a side book. *)
Definition sb_lots (inc : Z) (sb : SideBook) : Prop :=
  (forall l, state (zget (slots sb) l) = OMLive -> whole inc (qty (zget (slots sb) l))) /\
  (forall l pend, zget (pending_repl sb) l = Some pend -> whole inc (pr_last_qty pend)).

Lemma sb_lots_slot inc layer slot sb sb' :
  sb_lots inc sb -> (state slot = OMLive -> whole inc (qty slot)) ->
  slots sb' = zset (slots sb) layer slot ->
  (forall l pend, zget (pending_repl sb') l = Some pend -> zget (pending_repl sb) l = Some pend) -> sb_lots inc sb'.
Proof.
  intros [Hs Hp] Hslot E Hpend. split; [|intros l pend H; by eapply Hp, Hpend].
  intros l. rewrite E. destruct (decide (layer = l)) as [<-|]; [|rewrite zget_zset_ne by done; apply Hs].
  destruct (decide (0 <= layer < zlen (slots sb))); [by rewrite zget_zset_eq | rewrite zset_out by done; apply Hs].
Qed.

Lemma pend_none layer (l : list (option PendingReplaceInfo)) i pend :
  zget (zset l layer None) i = Some pend -> zget l i = Some pend.
Proof.
  destruct (decide (layer = i)) as [<-|]; [|by rewrite zget_zset_ne].
  destruct (decide (0 <= layer < zlen l)); [by rewrite zget_zset_eq | by rewrite zset_out].
Qed.

(** One slot is written, and it is not live. *)
Ltac not_live Hs :=
  eapply sb_lots_slot; [exact Hs | | reflexivity | first [by intros | intros ? ?; apply pend_none]]; cbn; let E := fresh in intros E; discriminate E.

Lemma rejected_sb_lots inc r sb reserved :
  sb_lots inc sb -> sb_lots inc (handle_rejected_or_expired scale_int r (sb, reserved)).1.
Proof.
  intros Hs. unfold handle_rejected_or_expired. destruct (rejected_replace r sb) as [[layer pend]|] eqn:E.
  - assert (Hp : zget (pending_repl sb) layer = Some pend).
    { unfold rejected_replace in E. apply bind_Some in E as (l & _ & E). destruct (0 <=? l); [|done].
      apply bind_Some in E as (p & Hp & [= <- <-]). done. }
    eapply sb_lots_slot; [exact Hs | | reflexivity | intros i p; apply pend_none].
    intros _. cbn. by apply (proj2 Hs layer).
  - unfold release, set_state. case_match; [|done]. not_live Hs.
Qed.

Lemma report_sb_lots inc now r sb reserved :
  whole_report inc r -> sb_lots inc sb -> sb_lots inc (handle_execution_report scale_int now r (sb, reserved)).1.
Proof.
  intros Hr Hs. unfold handle_execution_report, whole_report in *. destruct (ord_status r); try done.
  - unfold handle_new. case_match; [done|]. case_match; (eapply sb_lots_slot; [exact Hs | | reflexivity|]); try (by intros _); [|by intros].
    intros ? ?. apply pend_none.
  - unfold handle_partially_filled. case_match; [done|].
    case_match; (eapply sb_lots_slot; [exact Hs | | reflexivity | first [by intros | intros ? ?; apply pend_none]]); by intros _.
  - unfold handle_filled. case_match; [done|]. not_live Hs.
  - unfold handle_canceled, release, set_state. case_match; [not_live Hs|]. case_match; [done|]. not_live Hs.
  - unfold handle_pending_cancel, set_state. case_match; [done|]. not_live Hs.
  - by apply rejected_sb_lots.
  - unfold handle_pending_new, set_state. case_match; [done|]. not_live Hs.
  - by apply rejected_sb_lots.
Qed.

Lemma side_book_key t s p s' p' : bkey s p = bkey s' p' -> forall b, side_book t s' p' b = side_book t s p b.
Proof. intros E b. unfold side_book. injection E as -> ->. done. Qed.

Lemma report_lots ticker now r m :
  symbol r = ticker -> key_ok (er_side r) (er_position_side r) -> wf_books (layer_book_ m) ->
  whole_report (qty_increment_ (venue_policy_ m)) r -> lots_ok ticker m ->
  lots_ok ticker (OrderManager.on_order_updated scale_int now r m).
Proof.
  intros <- Hk Hb Hr (Hi & Hl & Hp). unfold OrderManager.on_order_updated.
  set (sb0 := side_book _ _ _ _). assert (Hwf : wf_sb sb0) by (by apply side_book_wf).
  assert (H0 : sb_lots (qty_increment_ (venue_policy_ m)) sb0).
  { split; [|by intros; eapply Hp]. intros l. destruct (decide (0 <= l < 8)); [by apply Hl|].
    rewrite zget_out by (rewrite (wf_slots _ Hwf); lia). done. }
  pose proof (report_sb_lots _ now r sb0 (position_tracker_ m) Hr H0) as [H1 H2].
  destruct (handle_execution_report scale_int now r (sb0, position_tracker_ m)) as [sb reserved]. cbn [fst] in H1, H2.
  set (m1 := set_reserved reserved _).
  assert (Hm1 : lots_ok (symbol r) m1).
  { split_and!; [done | |]; cbn [layer_book_ m1 set_reserved set_books venue_policy_].
    - intros s p l Hkey Hr8. unfold slot_of. destruct (decide (bkey (er_side r) (er_position_side r) = bkey s p)) as [E|].
      + rewrite (side_book_key _ _ _ _ _ E), side_book_put_eq by done. apply H1.
      + rewrite side_book_put_ne by done. by apply Hl.
    - intros s p l pend Hkey. destruct (decide (bkey (er_side r) (er_position_side r) = bkey s p)) as [E|].
      + rewrite (side_book_key _ _ _ _ _ E), side_book_put_eq by done. apply H2.
      + rewrite side_book_put_ne by done. by apply Hp. }
  destruct (ord_status r); try done; case_match; done.
Qed.

(** A report that agrees with its slot and leaves whole lots keeps the reservation
    exact and the lots whole. *)
Lemma report_step_exact ticker now r m :
  good_report scale_int ticker r m -> whole_report (qty_increment_ (venue_policy_ m)) r ->
  tracks ticker m -> lots_ok ticker m ->
  tracks ticker (OrderManager.on_order_updated scale_int now r m) /\
  lots_ok ticker (OrderManager.on_order_updated scale_int now r m).
Proof.
  intros Hg Hw Ht Hl. split; [by apply report_step_tracks|]. destruct Hg as (Hs & Hk & _).
  apply report_lots; try done. apply Ht.
Qed.

(** ** Single intents *)

Definition good_intent (ticker : string) (i : QuoteIntent) : Prop :=
  qi_ticker i = ticker /\ key_ok (qi_side i) (qi_position_side i).

Definition small_batch (ticker : string) (batch : list QuoteIntent) : Prop :=
  batch = [] \/ exists i, batch = [i] /\ good_intent ticker i.

Lemma small_good ticker batch m : small_batch ticker batch -> lots_ok ticker m -> good_intents ticker batch m.
Proof.
  intros [-> | (i & -> & Ht & Hk)] (Hi & Hl & _); [done|]. split_and!; try done; [apply NoDup_singleton | by apply Forall_singleton].
Qed.

(** A batch of at most one intent keeps the reservation exact and the lots whole. *)
Lemma apply_small ticker risk keeper now diff_now batch m m' ids :
  small_batch ticker batch -> tracks ticker m -> lots_ok ticker m ->
  apply_intents cfg scale_int rc reorder risk keeper now diff_now batch m = Some (m', ids) ->
  tracks ticker m' /\ lots_ok ticker m'.
Proof.
  intros Hs Ht Hl Ha. pose proof (small_good ticker batch m Hs Hl) as Hg.
  split; [by eapply apply_step_tracks|]. assert (Hb : wf_books (layer_book_ m)) by apply Ht.
  eapply lots_quiet; [exact Hb | | exact Hl]. unfold apply_intents in Ha.
  destruct batch as [|first rest]; [injection Ha as <- _; apply sweep_quiet|].
  assert (Hft : qi_ticker first = ticker) by apply Hg. rewrite Hft in Ha.
  destruct (venue_ready cfg rc ticker first rest m now diff_now Hg) as (_ & _ & Hr & Hc).
  set (acts := filter_by_venue _ _ _ _ _ _) in *.
  destruct (filter_by_risk _ _ _) as [acts'|] eqn:E; cbn [mbind option_bind] in Ha; [|done].
  apply risk_filter_sublist in E as (_ & Sr & Sc).
  assert (Hr' : Forall (fun a => 0 <= r_layer a < 8) (repls acts')).
  { eapply Forall_impl; [by eapply sublist_Forall|]. intros a (_ & ? & _). done. }
  pose proof (venue_whole cfg rc ticker first rest m now diff_now Hg) as Hw. fold acts in Hw.
  assert (Hw' : Forall (fun a => whole (qty_increment_ (venue_policy_ m)) (r_last_qty a)) (repls acts')) by (by eapply sublist_Forall).
  unfold process_new_orders in Ha. pose proof (process_news_quiet ticker now (news acts') m []) as Hn.
  destruct (fold_left _ (news acts') (m, [])) as [m1 ids1]. cbn [fst] in Hn. injection Ha as <- _.
  eapply quiet_trans; [exact Hn|]. eapply quiet_trans; [|apply sweep_quiet].
  unfold process_cancel_orders. rewrite Sc, Hc. cbn [fold_left]. unfold process_replace_orders.
  apply process_replaces_quiet; [done|]. by rewrite (proj1 (proj2 (proj2 (Hn Hb)))).
Qed.

Context (risk : RiskTable) (keeper : Keeper).

(** [order_manager_->apply(intents)] with its two readings of the clock. *)
Definition om_apply (clk : Z * Z) (batch : list QuoteIntent) (m : OM) : option (OM * list Z) :=
  apply_intents cfg scale_int rc reorder risk keeper clk.1 clk.2 batch m.

(** The order manager answers.  Its only failure is a risk check of a ticker that
    the table of limits or the positions do not have. *)
Definition known (ticker : string) : Prop := is_Some (risk !! ticker) /\ is_Some (keeper !! ticker).

Lemma allow_total {A} `{Sided A} ticker (delta : A -> Z) actions :
  known ticker -> forall running, is_Some (allow (check_pre_trade_risk risk keeper ticker) delta actions running).
Proof.
  intros [[limits Hl] [info Hi]]. induction actions as [|action actions IH]; intros running; [by eexists|]. cbn [allow].
  assert (E : check_pre_trade_risk risk keeper ticker (act_side action) (delta action) running =
    Some (checkPreTradeRisk info limits (act_side action) (delta action) running))
    by (unfold check_pre_trade_risk, get_position_info; by rewrite Hl, Hi).
  rewrite E. cbn [mbind option_bind]. case_bool_decide; [|apply IH]. destruct (IH (running + sideToValue (act_side action) * delta action)) as [[kept r] ->].
  by eexists.
Qed.

Lemma om_apply_answers clk batch m :
  Forall (fun i => known (qi_ticker i)) batch -> is_Some (om_apply clk batch m).
Proof.
  intros Hb. unfold om_apply, apply_intents. destruct batch as [|first rest]; [by eexists|].
  apply Forall_cons in Hb as [Hk _]. set (acts := filter_by_venue _ _ _ _ _ _). unfold filter_by_risk.
  destruct (allow_total _ n_qty (news acts) Hk (position_tracker_ m)) as [[news' running] ->]. cbn [mbind option_bind].
  destruct (allow_total _ (fun a => r_qty a - r_last_qty a) (repls acts) Hk running) as [[repls' r] ->]. cbn [mbind option_bind].
  destruct (process_new_orders _ _ _ _ _) as [m1 ids]. by eexists.
Qed.

End Applications.

Lemma fresh_lots_ok ticker venue t1 t2 : 0 < qty_increment_ venue -> lots_ok ticker (new_order_manager ticker venue t1 t2).
Proof.
  intros Hi. split_and!; [done | |].
  2:{ intros s p l pend Hk. cbn [layer_book_ new_order_manager]. rewrite fresh_side_book by done. unfold new_side_book. cbn [pending_repl].
      destruct (decide (0 <= l < 8)) as [Hl|Hl]; [by rewrite zget_replicate | by rewrite zget_out]. }
  intros s p l Hk Hl slot. unfold slot, slot_of. cbn [layer_book_ new_order_manager].
  rewrite fresh_side_book by done. unfold new_side_book. cbn [slots].
  intros Hst. exfalso. revert Hst. assert (l = 0 \/ l = 1 \/ l = 2 \/ l = 3 \/ l = 4 \/ l = 5 \/ l = 6 \/ l = 7) as Hc by lia.
  destruct_or! Hc; subst l; done.
Qed.

End OrderBatches.
