(* ===== verification/OrderEntry.v ===== *)
(** * Order entry (src/hft/core/websocket/order_entry, src/hft/src/order_gateway.hpp)

    The way of a request to the exchange and of the answer back: the gateway
    builds the message and posts the request to [WsOrderManager], which keeps
    it until the exchange answers; the dispatch router turns error answers into
    synthetic execution reports; the mapper makes execution reports of them,
    and the gateway hands them to the trade engine.  One flag chooses between
    the spot and the futures traits.  JSON is read and written by a library;
    what is modelled are the structs on its two sides.

    The theorems: the id of a request is recovered from the spot ids and never
    from the futures ids; a rejected spot order comes back as a rejection of
    the same order, and its reservation is released; a rejected futures order
    is never reported; an error of the API ends the process. *)

From S2P Require Import Prelude Types FixedPoint Text LayerBook QuoteReconciler OrderStateManager OrderManager OrderManagerFacts LevelParser OnepassDecoder Binary64.

Module OrderEntry.
Import FixedPoint Text LevelParser Onepass.

(** ** Request ids *)

(** [std::from_chars] for [uint64_t]: [None] without a digit or out of range,
    otherwise the value and the unread rest. *)
Fixpoint from_chars_loop (val : Z) (l : list Z) : option (Z * list Z) :=
  match l with
  | c :: rest =>
      if (chr_0 <=? c) && (c <=? chr_9) then
        let val' := val * 10 + (c - chr_0) in
        if val' <? two64 then from_chars_loop val' rest else None
      else Some (val, l)
  | [] => Some (val, [])
  end.
Definition from_chars (l : list Z) : option (Z * list Z) :=
  match l with
  | c :: _ => if (chr_0 <=? c) && (c <=? chr_9) then from_chars_loop 0 l else None
  | [] => None
  end.

(** [request_id.substr(request_id.find('_') + 1)] *)
Fixpoint after_first_underscore (id : list Z) : option (list Z) :=
  match id with
  | [] => None
  | c :: rest => if c =? 95 then Some rest else after_first_underscore rest
  end.

Definition extract_client_order_id (request_id : list Z) : option Z :=
  numeric_part ← after_first_underscore request_id;
  match numeric_part with
  | [] => None
  | _ =>
      '(result, ptr) ← from_chars numeric_part;
      match ptr with [] => Some result | _ => None end
  end.

(** The ids that the encoders give their requests: a word and an underscore
    for spot, one letter ([oe_id_constants.h]) for futures. *)
Inductive RequestKind := PlaceId | CancelId | ReplaceId | ModifyId | CancelAllId.

Definition kOrderPlace : Z := 112.
Definition kOrderCancel : Z := 99.
Definition kOrderReplace : Z := 114.
Definition kOrderModify : Z := 109.

Definition spot_prefix (kind : RequestKind) : list Z :=
  match kind with
  | PlaceId => codes "orderplace_"
  | CancelId => codes "ordercancel_"
  | ReplaceId | ModifyId => codes "orderreplace_"
  | CancelAllId => codes "ordercancelAll_"
  end.

Definition futures_letter (kind : RequestKind) : Z :=
  match kind with
  | PlaceId => kOrderPlace
  | CancelId | CancelAllId => kOrderCancel
  | ReplaceId => kOrderReplace
  | ModifyId => kOrderModify
  end.

Definition request_id (futures : bool) (kind : RequestKind) (client_order_id : Z) : list Z :=
  if futures then futures_letter kind :: to_string_u64 client_order_id
  else spot_prefix kind ++ to_string_u64 client_order_id.

(** ** The structs of the wire *)

(** The fields of an execution report event that the mapper and the router
    read; quantities and prices are doubles. *)
Record OrderEvent := mkEvent {
  ev_client_order_id : Z;
  ev_symbol : string;
  ev_side : string;
  ev_execution_type : string;
  ev_order_status : string;
  ev_reject_reason : string;
  ev_order_price : QArith_base.Q;
  ev_order_quantity : QArith_base.Q;
  ev_cumulative_filled_quantity : QArith_base.Q;
  ev_last_executed_quantity : QArith_base.Q;
  ev_position_side : string;
}.

(** The error of an answer; [data] holds the results of the two halves of a
    cancel-and-replace. *)
Record ErrorInfo := mkError {
  err_code : Z;
  err_message : string;
  err_data : option (string * string);
}.

Record ApiResponse := mkApi {
  rs_id : list Z;
  rs_status : Z;
  rs_error : option ErrorInfo;
}.

Inductive WireMessage :=
| OeMonostate
| OeExecutionReport (event : OrderEvent)
| OeSessionLogon (response : ApiResponse)
| OeUserSubscription (response : ApiResponse)
| OeCancelAndReorder (response : ApiResponse)
| OeModifyOrder (response : ApiResponse)
| OeCancelAll (response : ApiResponse)
| OePlaceOrder (response : ApiResponse)
| OeCancelOrder (response : ApiResponse)
| OeApi (response : ApiResponse)
| OeAccount.

(** ** Requests *)

Record PendingOrderRequest := mkPendingRequest {
  pd_client_order_id : Z;
  pd_symbol : string;
  pd_side : Side;
  pd_price : Z;
  pd_order_qty : Z;
  pd_ord_type : OrderType;
  pd_time_in_force : TimeInForce;
  pd_position_side : option PositionSide;
}.

(** What the gateway hands to the trade engine; a null report is [None]. *)
Inductive ResponseCommon :=
| RExecutionReport (report : option ExecutionReport)
| ROrderCancelReject (reject : option (Z * string)).

Record App := mkApp {
  pending_requests_ : gmap Z PendingOrderRequest;
  cancel_reorder_pairs_ : gmap Z Z;
  session_ready_ : bool;
  (** ids of the order requests given to the transport *)
  outbox : list (list Z);
  (** the response queue of the trade engine and its free slots *)
  response_queue_ : list ResponseCommon;
  room : Z;
}.

Definition new_app (capacity : Z) : App := mkApp ∅ ∅ false [] [] capacity.

Definition set_requests (p : gmap Z PendingOrderRequest) (a : App) : App :=
  mkApp p (cancel_reorder_pairs_ a) (session_ready_ a) (outbox a) (response_queue_ a) (room a).
Definition set_pairs (p : gmap Z Z) (a : App) : App :=
  mkApp (pending_requests_ a) p (session_ready_ a) (outbox a) (response_queue_ a) (room a).
Definition set_session_ready (a : App) : App :=
  mkApp (pending_requests_ a) (cancel_reorder_pairs_ a) true (outbox a) (response_queue_ a) (room a).
Definition put_outbox (id : list Z) (a : App) : App :=
  mkApp (pending_requests_ a) (cancel_reorder_pairs_ a) (session_ready_ a) (outbox a ++ [id])
    (response_queue_ a) (room a).
(** [enqueue_response_fn_(res)]: a full queue loses the response. *)
Definition enqueue_response (res : ResponseCommon) (a : App) : App :=
  if 0 <? room a then
    mkApp (pending_requests_ a) (cancel_reorder_pairs_ a) (session_ready_ a) (outbox a)
      (response_queue_ a ++ [res]) (room a - 1)
  else a.

(** ** WsOrderManager *)

Definition register_pending_request (request : PendingOrderRequest) (a : App) : App :=
  set_requests (<[pd_client_order_id request := request]> (pending_requests_ a)) a.

Definition remove_pending_request (request_id : Z) (a : App) : App :=
  set_requests (delete request_id (pending_requests_ a)) a.

Definition register_cancel_and_reorder_pair (new_order_id original_order_id : Z) (a : App) : App :=
  set_pairs (<[new_order_id := original_order_id]> (cancel_reorder_pairs_ a)) a.

Definition get_original_order_id (new_order_id : Z) (a : App) : option Z :=
  cancel_reorder_pairs_ a !! new_order_id.

Definition remove_cancel_and_reorder_pair (new_order_id : Z) (a : App) : App :=
  set_pairs (delete new_order_id (cancel_reorder_pairs_ a)) a.

Section Exchange.
(** [requires_listen_key()], the scales of the build and
    [INI_CONFIG.get("meta", "ticker")]. *)
Variables (futures : bool) (cfg : FixedPointConfig) (ticker : string).

(** The report for a request that the manager still knows or not. *)
Definition synthetic_event (client_order_id : Z) (error_message : string)
    (pending : option PendingOrderRequest) : OrderEvent :=
  match pending with
  | Some p =>
      mkEvent client_order_id (pd_symbol p) (side_toString (pd_side p)) "REJECTED" "REJECTED" error_message
        (Binary64.to_double (kPriceScale cfg) (pd_price p))
        (Binary64.to_double (kQtyScale cfg) (pd_order_qty p)) (QArith_base.inject_Z 0) (QArith_base.inject_Z 0)
        (if futures then
           match pd_position_side p with Some s => positionSide_toString s | None => "BOTH" end
         else "")
  | None =>
      mkEvent client_order_id ticker "UNKNOWN" "REJECTED" "REJECTED" error_message
        (QArith_base.inject_Z 0) (QArith_base.inject_Z 0) (QArith_base.inject_Z 0) (QArith_base.inject_Z 0)
        (if futures then "BOTH" else "")
  end.

(** [create_synthetic_execution_report]: the entry is erased. *)
Definition create_synthetic_execution_report (request_id : list Z) (error_message : string) (a : App) :
    option OrderEvent * App :=
  match extract_client_order_id request_id with
  | None => (None, a)
  | Some client_order_id =>
      (Some (synthetic_event client_order_id error_message (pending_requests_ a !! client_order_id)),
       remove_pending_request client_order_id a)
  end.

(** ** The mapper; [allocated] is whether the pool of reports has a node *)

Definition to_execution_report (allocated : bool) (event : OrderEvent) : option ExecutionReport :=
  if allocated then
    Some (mkReport (ev_client_order_id event) (ev_symbol event) (toType (ev_execution_type event))
      (toOrderStatus (ev_order_status event))
      (Binary64.from_double (kQtyScale cfg)
         (Binary64.max0_sub (ev_order_quantity event) (ev_cumulative_filled_quantity event)))
      (Binary64.from_double (kQtyScale cfg) (ev_last_executed_quantity event))
      (Binary64.from_double (kPriceScale cfg) (ev_order_price event))
      (toSide (ev_side event))
      (if futures && negb (String.eqb (ev_position_side event) "")
       then Some (toPositionSide (ev_position_side event)) else None))
  else None.

Definition to_cancel_reject (allocated : bool) (event : OrderEvent) : option (Z * string) :=
  if allocated then Some (ev_client_order_id event, ev_symbol event) else None.

(** ** The gateway *)

Definition on_execution_report (allocated : bool) (event : OrderEvent) (a : App) : App :=
  enqueue_response (RExecutionReport (to_execution_report allocated event)) a.

Definition on_order_cancel_reject (allocated : bool) (event : OrderEvent) (a : App) : App :=
  enqueue_response (ROrderCancelReject (to_cancel_reject allocated event)) a.

(** [dispatch(type, message)] with the callbacks of the gateway.  A typed
    callback takes its alternative out of the message with [std::get], which
    throws when the message holds another one; nothing catches it ([None]). *)
Definition dispatch (allocated : bool) (type : string) (message : WireMessage) (a : App) : option App :=
  if String.eqb type "A" then Some (set_session_ready a)
  else if String.eqb type "8" then
    match message with OeExecutionReport event => Some (on_execution_report allocated event a) | _ => None end
  else if String.eqb type "9" then
    match message with OeExecutionReport event => Some (on_order_cancel_reject allocated event a) | _ => None end
  else Some a.

(** [app_->send(msg)]: an empty message is refused; [connected] is whether the
    transport takes it. *)
Definition send (connected : bool) (id : list Z) (a : App) : App :=
  if connected then put_outbox id a else a.

Definition post_new_order (request : RequestCommon) (a : App) : App :=
  register_pending_request (mkPendingRequest (rq_cl_order_id request) (rq_symbol request)
    (to_common_side (from_common_side (rq_side request))) (rq_price request) (rq_order_qty request)
    (rq_ord_type request) (rq_time_in_force request) (rq_position_side request)) a.

Definition post_cancel_order (request : RequestCommon) (a : App) : App :=
  register_pending_request (mkPendingRequest (rq_cl_order_id request) (rq_symbol request) kInvalid 0 0
    OTInvalid TIFInvalid (rq_position_side request)) a.

(** [post_cancel_and_reorder] registers under the id of the new order. *)
Definition post_cancel_and_reorder (request : RequestCommon) (a : App) : App := post_new_order request a.

Definition post_modify_order (request : RequestCommon) (a : App) : App :=
  register_pending_request (mkPendingRequest (rq_orig_cl_order_id request) (rq_symbol request)
    (to_common_side (from_common_side (rq_side request))) (rq_price request) (rq_order_qty request)
    OTLimit TIFGoodTillCancel (rq_position_side request)) a.

Definition post_mass_cancel_order (request : RequestCommon) (a : App) : App :=
  register_pending_request (mkPendingRequest (rq_cl_order_id request) (rq_symbol request) kInvalid 0 0
    OTInvalid TIFInvalid None) a.

(** [order_request] of the websocket build: the message is sent and the
    request is posted whether or not the send worked.  The futures encoder makes
    an empty message of a mass cancel. *)
Definition order_request (connected : bool) (request : RequestCommon) (a : App) : App :=
  match req_type request with
  | RQNewSingleOrderData =>
      post_new_order request (send connected (request_id futures PlaceId (rq_cl_order_id request)) a)
  | RQOrderCancelRequest =>
      post_cancel_order request (send connected (request_id futures CancelId (rq_cl_order_id request)) a)
  | RQOrderCancelRequestAndNewOrderSingle =>
      post_cancel_and_reorder request
        (send connected (request_id futures ReplaceId (rq_cl_order_id request)) a)
  | RQOrderModify =>
      post_modify_order request
        (send connected (request_id futures ModifyId (rq_orig_cl_order_id request)) a)
  | RQOrderMassCancelRequest =>
      post_mass_cancel_order request
        (if futures then a else send connected (request_id false CancelAllId (rq_cl_order_id request)) a)
  | RQInvalid => a
  end.

(** ** The dispatch router *)

Definition kHttpOK : Z := 200.

(** [response.status != kHttpOK && response.error.has_value()] *)
Definition failed (response : ApiResponse) : option ErrorInfo :=
  if rs_status response =? kHttpOK then None else rs_error response.

(** Sends a synthetic report to the gateway, when there is one. *)
Definition report_failure (allocated : bool) (id : list Z) (error : ErrorInfo) (a : App) : option App :=
  let '(event, a) := create_synthetic_execution_report id (err_message error) a in
  match event with
  | Some event => dispatch allocated "8" (OeExecutionReport event) a
  | None => Some a
  end.

(** The reason that marks a cancel as not rejected: the empty expiry reason of
    futures, the default of spot. *)
Definition no_reason : string := if futures then "0" else "NONE".

Definition handle_execution_report (allocated : bool) (event : OrderEvent) (a : App) : option App :=
  let type := if String.eqb (ev_execution_type event) "CANCELED" &&
                 negb (String.eqb (ev_reject_reason event) no_reason) then "9"%string else "8"%string in
  a ← dispatch allocated type (OeExecutionReport event) a;
  Some (remove_cancel_and_reorder_pair (ev_client_order_id event)
          (remove_pending_request (ev_client_order_id event) a)).

Definition handle_session_logon (allocated : bool) (response : ApiResponse) (a : App) : option App :=
  dispatch allocated "A" (OeSessionLogon response) a.

(** The spot handler of the connection marks the session ready; the futures
    one starts the stream, which marks it when it connects. *)
Definition handle_user_subscription (response : ApiResponse) (a : App) : App :=
  if (rs_status response =? kHttpOK) && negb futures then set_session_ready a else a.

Definition handle_api_response (allocated : bool) (response : ApiResponse) (a : App) : option App :=
  match failed response with
  | Some _ => dispatch allocated "8" (OeApi response) a
  | None => Some a
  end.

(** [handle_place_order_response], [handle_modify_order_response] and
    [handle_cancel_all_response] have the same body. *)
Definition handle_order_response (allocated : bool) (response : ApiResponse) (a : App) : option App :=
  match failed response with
  | Some error => report_failure allocated (rs_id response) error a
  | None => Some a
  end.

Definition handle_cancel_and_reorder_response (allocated : bool) (response : ApiResponse) (a : App) :
    option App :=
  match failed response with
  | None => Some a
  | Some error =>
      match err_data error, extract_client_order_id (rs_id response) with
      | Some (cancel_result, new_order_result), Some new_order_id =>
          match get_original_order_id new_order_id a with
          | None => report_failure allocated (rs_id response) error a
          | Some original_order_id =>
              let new_failed := negb (String.eqb new_order_result "SUCCESS") in
              a ← (if new_failed then report_failure allocated (rs_id response) error a else Some a);
              a ← (if String.eqb cancel_result "FAILURE" && new_failed
                   then report_failure allocated (spot_prefix CancelId ++ to_string_u64 original_order_id) error a
                   else Some a);
              Some (remove_cancel_and_reorder_pair new_order_id
                      (remove_pending_request original_order_id (remove_pending_request new_order_id a)))
          end
      | _, _ => Some a
      end
  end.

(** Futures only: the request of a cancel is forgotten, whatever the answer. *)
Definition handle_cancel_order_response (response : ApiResponse) (a : App) : App :=
  match extract_client_order_id (rs_id response) with
  | Some client_order_id => remove_pending_request client_order_id a
  | None => a
  end.

(** [process_message].  A type that the traits set to [std::monostate] has no
    handler: modifications for spot, cancel-and-replace and mass cancels for
    futures.  Messages that only concern the streams of the session and the
    account do not touch this state. *)
Definition process_message (allocated : bool) (message : WireMessage) (a : App) : option App :=
  match message with
  | OeExecutionReport event => handle_execution_report allocated event a
  | OeSessionLogon response => handle_session_logon allocated response a
  | OeCancelAndReorder response =>
      if futures then Some a else handle_cancel_and_reorder_response allocated response a
  | OeModifyOrder response => if futures then handle_order_response allocated response a else Some a
  | OeCancelAll response => if futures then Some a else handle_order_response allocated response a
  | OePlaceOrder response => handle_order_response allocated response a
  | OeCancelOrder response => Some (if futures then handle_cancel_order_response response a else a)
  | OeApi response => handle_api_response allocated response a
  | OeUserSubscription response => Some (handle_user_subscription response a)
  | OeMonostate | OeAccount => Some a
  end.

End Exchange.

(** ** Recovering the id of a request *)

Lemma from_chars_loop_digits d v :
  digits d -> 0 <= v -> fold_left (fun val c => val * 10 + (c - chr_0)) d v < two64 ->
  from_chars_loop v d = Some (fold_left (fun val c => val * 10 + (c - chr_0)) d v, []).
Proof.
  intros Hd. revert v. induction Hd as [|c d Hc Hd IH]; intros v Hv Hlt; simpl in *; [done|].
  pose proof (fold_digits_ge d (v * 10 + (c - chr_0)) Hd). unfold chr_0, chr_9 in *.
  rewrite (proj2 (Z.leb_le 48 c)), (proj2 (Z.leb_le c 57)) by lia. simpl.
  rewrite (proj2 (Z.ltb_lt _ two64)) by lia. apply IH; [lia | done].
Qed.

Lemma from_chars_digits d :
  digits d -> d <> [] -> digits_value d < two64 -> from_chars d = Some (digits_value d, []).
Proof.
  intros Hd Hne Hlt. destruct d as [|c d]; [done|]. unfold from_chars.
  inversion Hd as [|? ? Hc _]. rewrite (proj2 (Z.leb_le chr_0 c)), (proj2 (Z.leb_le c chr_9)) by lia.
  by apply from_chars_loop_digits.
Qed.

Lemma no_underscore d : digits d -> after_first_underscore d = None.
Proof.
  induction 1 as [|c d Hc _ IH]; [done|]. simpl. unfold chr_0, chr_9 in Hc.
  by rewrite (proj2 (Z.eqb_neq c 95)) by lia.
Qed.

Lemma extract_spot kind id : 0 <= id < two64 -> extract_client_order_id (request_id false kind id) = Some id.
Proof.
  intros Hid. destruct (to_string_u64_spec id Hid) as (Hd & Hv & Hne).
  assert (E : after_first_underscore (request_id false kind id) = Some (to_string_u64 id)) by (destruct kind; reflexivity).
  unfold extract_client_order_id. rewrite E. simpl. rewrite from_chars_digits by (done || (rewrite Hv; lia)).
  rewrite Hv. simpl. by destruct (to_string_u64 id).
Qed.

Lemma extract_futures kind id : 0 <= id < two64 -> extract_client_order_id (request_id true kind id) = None.
Proof.
  intros Hid. destruct (to_string_u64_spec id Hid) as (Hd & _ & _).
  assert (E : after_first_underscore (request_id true kind id) = None)
    by (destruct kind; simpl; by rewrite no_underscore).
  unfold extract_client_order_id. by rewrite E.
Qed.

(** The client order id is recovered from every request id that the spot
    encoder makes, for all 64-bit ids, and from none that the futures encoder
    makes: those have no underscore. *)
Theorem request_id_roundtrip kind id :
  0 <= id < two64 ->
  extract_client_order_id (request_id false kind id) = Some id /\
  extract_client_order_id (request_id true kind id) = None.
Proof. intros Hid. split; [by apply extract_spot | by apply extract_futures]. Qed.

Lemma request_id_roundtrip_witness :
  extract_client_order_id (codes "orderplace_18446744073709551615") = Some 18446744073709551615 /\
  extract_client_order_id (codes "p18446744073709551615") = None.
Proof. apply (request_id_roundtrip PlaceId 18446744073709551615). done. Defined.

(** ** Rejected orders *)

(** The quantities and the price of a request that doubles carry exactly. *)
Definition exact_order (cfg : FixedPointConfig) (qty price : Z) : Prop :=
  0 < kPriceScale cfg /\ 0 < kQtyScale cfg /\
  0 <= qty <= Binary64.kExactRange /\ Z.abs price <= Binary64.kExactRange.

(** The request of a new order and the rejection of it. *)
Definition order_of (symbol : string) (side : Side) (qty price id : Z)
    (position_side : option PositionSide) : RequestCommon :=
  mkRequest RQNewSingleOrderData kOrderIdInvalid id kOrderIdInvalid symbol side qty OTLimit price
    TIFGoodTillCancel position_side.

Definition rejection (symbol : string) (side : Side) (qty price id : Z) : ExecutionReport :=
  mkReport id symbol ETRejected OSRejected qty 0 price side None.

Lemma synthetic_rejection cfg ticker id message symbol side qty price ot tif ps :
  exact_order cfg qty price -> side = kBuy \/ side = kSell ->
  to_execution_report false cfg true
    (synthetic_event false cfg ticker id message
       (Some (mkPendingRequest id symbol (to_common_side (from_common_side side)) price qty ot tif ps))) =
  Some (rejection symbol side qty price id).
Proof.
  intros (Hp & Hq & Hqr & Hpr) Hside. unfold to_execution_report, synthetic_event, rejection.
  cbn [ev_client_order_id ev_symbol ev_side ev_execution_type ev_order_status ev_order_price
    ev_order_quantity ev_cumulative_filled_quantity ev_last_executed_quantity ev_position_side
    pd_symbol pd_side pd_price pd_order_qty andb]. rewrite to_from_common_side by done.
  rewrite toSide_toString.
  rewrite (Binary64.max0_sub_exact _ _ _ qty 0) by (done || unfold Binary64.kExactRange; lia ||
    apply Binary64.to_double_near; lia || apply Binary64.zero_stands).
  rewrite (Binary64.from_double_stands (kQtyScale cfg) _ 0) by (done || apply Binary64.zero_stands).
  rewrite (Binary64.from_double_stands (kPriceScale cfg) _ price) by (done || by apply Binary64.to_double_near).
  by rewrite Z.sub_0_r, Z.max_r by lia.
Qed.

Lemma rejected_place cfg ticker connected symbol side qty price id ps status error a :
  exact_order cfg qty price -> side = kBuy \/ side = kSell -> 0 <= id < two64 -> 0 < room a ->
  status <> kHttpOK ->
  exists a', process_message false cfg ticker true
      (OePlaceOrder (mkApi (request_id false PlaceId id) status (Some error)))
      (order_request false connected (order_of symbol side qty price id ps) a) = Some a' /\
    response_queue_ a' = response_queue_ a ++ [RExecutionReport (Some (rejection symbol side qty price id))] /\
    pending_requests_ a' = delete id (pending_requests_ a).
Proof.
  intros He Hside Hid Hroom Hst. set (a1 := order_request _ _ _ _).
  assert (Hpend : pending_requests_ a1 = <[id := mkPendingRequest id symbol
    (to_common_side (from_common_side side)) price qty OTLimit TIFGoodTillCancel ps]> (pending_requests_ a))
    by (unfold a1; by destruct connected).
  assert (Hq : response_queue_ a1 = response_queue_ a /\ room a1 = room a) by (unfold a1; by destruct connected).
  destruct Hq as [Hq Hr]. clearbody a1. unfold process_message, handle_order_response, failed. cbn [rs_status rs_error rs_id].
  rewrite (proj2 (Z.eqb_neq _ _) Hst). unfold report_failure, create_synthetic_execution_report.
  rewrite extract_spot by done. rewrite Hpend, lookup_insert_eq. unfold dispatch. simpl String.eqb. cbv iota.
  eexists. split; [reflexivity|]. unfold on_execution_report. rewrite synthetic_rejection by done.
  unfold enqueue_response. change (room (remove_pending_request id a1)) with (room a1).
  rewrite Hr, (proj2 (Z.ltb_lt 0 _) Hroom). simpl. rewrite Hq, Hpend. split; [done|].
  by rewrite delete_insert_eq.
Qed.

Import LayerBook QuoteReconciler OrderStateManager OrderManager OrderManagerFacts.

(** A new order that the order manager takes: its layer is free, its tick is
    not quoted and its id is new to the side book. *)
Definition takes_order (scale_int : Z) (ticker : string) (m : OM) (act : ActionNew) : Prop :=
  wf_books (layer_book_ m) /\ key_ok (n_side act) (n_position_side act) /\ 0 <= n_layer act < 8 /\
  n_cl_order_id act <> kOrderIdInvalid /\
  let sb := side_book ticker (n_side act) (n_position_side act) (layer_book_ m) in
  tick_taken sb (to_ticks_raw scale_int (n_price act)) (n_layer act) = false /\
  new_id_to_layer sb !! n_cl_order_id act = None /\
  forall l, 0 <= l < 8 -> l <> n_layer act -> slot_cl_order_id (zget (slots sb) l) <> n_cl_order_id act.

(** The order manager after a rejection of an order it has just sent. *)
Lemma rejection_releases scale_int ticker now now' m ids act :
  takes_order scale_int ticker m act -> n_position_side act = None ->
  let m1 := (process_new scale_int ticker now (m, ids) act).1 in
  let r := rejection ticker (n_side act) (n_qty act) (n_price act) (n_cl_order_id act) in
  let m2 := on_order_updated scale_int now' r m1 in
  sent m1 = sent m ++ [order_of ticker (n_side act) (n_qty act) (n_price act) (n_cl_order_id act)
    (n_position_side act)] /\
  position_tracker_ m2 = position_tracker_ m /\
  state (zget (slots (side_book ticker (n_side act) None (layer_book_ m2))) (n_layer act)) = OMDead.
Proof.
  intros (Hb & Hk & Hl & Hid & Ht & Hnew & Huniq) Hps m1 r m2. rewrite Hps in *.
  set (sb := side_book _ _ _ _) in *.
  set (slot := mkSlot OMReserved (n_price act) (n_qty act) now (n_cl_order_id act)).
  set (sb1 := set_slot (n_layer act) slot (set_tick (n_layer act) (to_ticks_raw scale_int (n_price act)) sb)).
  assert (Hm1 : layer_book_ m1 = put_side_book ticker (n_side act) None sb1 (layer_book_ m) /\
    position_tracker_ m1 = add_reserved (n_side act) (n_qty act) (position_tracker_ m) /\
    sent m1 = sent m ++ [order_of ticker (n_side act) (n_qty act) (n_price act) (n_cl_order_id act) None]).
  { unfold m1, process_new. rewrite Hps. fold sb. rewrite Ht. done. }
  destruct Hm1 as (Hbook & Hpos & Hsent).
  assert (Hwf : wf_sb sb) by (by apply side_book_wf).
  assert (Hslot : zget (slots sb1) (n_layer act) = slot).
  { unfold sb1. cbn. apply zget_zset_eq. rewrite (wf_slots _ Hwf). lia. }
  assert (Hlayer : report_layer scale_int r sb1 = n_layer act).
  { unfold report_layer, find_layer, find_layer_by_id. cbn [cl_order_id r rejection].
    rewrite (proj2 (Z.eqb_neq _ _) Hid). rewrite (find_idx_unique _ (n_layer act)); [|done| |].
    - by rewrite (proj2 (Z.leb_le 0 _)) by lia.
    - rewrite Hslot. apply Z.eqb_refl.
    - intros i Hi Hs. destruct (decide (i = n_layer act)) as [|Hne]; [done|]. exfalso.
      apply Z.eqb_eq in Hs. revert Hs. unfold sb1. cbn. rewrite zget_zset_ne by done. by apply Huniq. }
  assert (Hhandled : handle_execution_report scale_int now' r (sb1, position_tracker_ m1) =
    (unmap_layer (n_layer act) (set_state (n_layer act) OMDead sb1), position_tracker_ m)).
  { unfold handle_execution_report. change (ord_status r) with OSRejected. cbv iota beta.
    unfold handle_rejected_or_expired, rejected_replace.
    change (new_id_to_layer sb1 !! cl_order_id r) with (new_id_to_layer sb !! n_cl_order_id act).
    rewrite Hnew. cbn [mbind option_bind]. rewrite Hlayer, (proj2 (Z.leb_le 0 _)) by lia.
    unfold release, slot_at. rewrite Hslot, Hpos. f_equal.
    unfold remove_reserved, add_reserved. simpl. lia. }
  clearbody m1. split; [done|]. unfold m2, on_order_updated.
  change (er_side r) with (n_side act). change (symbol r) with ticker. change (er_position_side r) with (@None PositionSide).
  change (ord_status r) with OSRejected.
  rewrite Hbook, side_book_put_eq, Hhandled by done. split; [done|]. cbn [layer_book_ set_reserved set_books].
  rewrite side_book_put_eq; [|by apply books_put_wf, wf_set_slot, wf_set_tick | done].
  cbn [slots unmap_layer set_pending set_orig_ids set_new_ids set_tick set_state set_slot].
  rewrite zget_zset_eq; [done|].
  unfold sb1. cbn [slots set_slot set_tick]. rewrite ?zlen_zset, (wf_slots _ Hwf). lia.
Qed.

(** The life of a rejected spot order, from the order manager through the
    gateway to the exchange and back: the request that the order manager sends
    is answered with an error; exactly one report reaches the queue of the trade
    engine, a rejection of the same order with its side, price and quantity; the
    request is no longer pending; and the order manager that handles the report
    has the reserved position from before and a dead slot. *)
Theorem rejected_spot_order_released cfg ini_ticker scale_int ticker now now' m ids act connected status error app :
  takes_order scale_int ticker m act -> n_position_side act = None ->
  exact_order cfg (n_qty act) (n_price act) -> 0 <= n_cl_order_id act < two64 ->
  0 < room app -> status <> kHttpOK ->
  let m1 := (process_new scale_int ticker now (m, ids) act).1 in
  exists request report app',
    sent m1 = sent m ++ [request] /\
    process_message false cfg ini_ticker true
      (OePlaceOrder (mkApi (request_id false PlaceId (n_cl_order_id act)) status (Some error)))
      (order_request false connected request app) = Some app' /\
    response_queue_ app' = response_queue_ app ++ [RExecutionReport (Some report)] /\
    pending_requests_ app' = delete (n_cl_order_id act) (pending_requests_ app) /\
    let m2 := on_order_updated scale_int now' report m1 in
    position_tracker_ m2 = position_tracker_ m /\
    state (zget (slots (side_book ticker (n_side act) None (layer_book_ m2))) (n_layer act)) = OMDead.
Proof.
  intros Hact Hps Hex Hid Hroom Hst m1.
  destruct (rejection_releases scale_int ticker now now' m ids act Hact Hps) as (Hsent & Hpos & Hdead).
  destruct (rejected_place cfg ini_ticker connected ticker (n_side act) (n_qty act) (n_price act)
    (n_cl_order_id act) (n_position_side act) status error app Hex) as (app' & Hp & Hq & Hpend); [|done..|].
  { destruct Hact as (_ & Hk & _). exact (proj1 Hk). }
  exists (order_of ticker (n_side act) (n_qty act) (n_price act) (n_cl_order_id act) (n_position_side act)).
  eexists _, app'. exact (conj Hsent (conj Hp (conj Hq (conj Hpend (conj Hpos Hdead))))).
Qed.

Definition demo_order : ActionNew := mkNew 0 1000 20 kBuy 7 None.
Definition demo_error : ErrorInfo := mkError (-1013) "Filter failure" None.

Lemma demo_takes_order : takes_order 1 "BTCUSDC" demo_om demo_order.
Proof.
  unfold takes_order. split; [by apply demo_om_tracks|]. split; [by split; [left|]|]. split; [done|]. split; [done|].
  split; [by vm_compute|]. split; [by vm_compute|].
  intros l Hl _.
  assert (l = 0 \/ l = 1 \/ l = 2 \/ l = 3 \/ l = 4 \/ l = 5 \/ l = 6 \/ l = 7) as Hc by lia.
  repeat destruct Hc as [Hc | Hc]; subst l; by vm_compute.
Qed.

Lemma rejected_spot_order_released_witness :
  let m1 := (process_new 1 "BTCUSDC" 9 (demo_om, []) demo_order).1 in
  exists request report app',
    sent m1 = sent demo_om ++ [request] /\
    process_message false BTCUSDCConfig "BTCUSDC" true
      (OePlaceOrder (mkApi (request_id false PlaceId 7) 400 (Some demo_error)))
      (order_request false true request (new_app 64)) = Some app' /\
    response_queue_ app' = [RExecutionReport (Some report)] /\
    pending_requests_ app' = delete 7 (pending_requests_ (new_app 64)) /\
    let m2 := on_order_updated 1 11 report m1 in
    position_tracker_ m2 = position_tracker_ demo_om /\
    state (zget (slots (side_book "BTCUSDC" kBuy None (layer_book_ m2))) 0) = OMDead.
Proof.
  apply (rejected_spot_order_released BTCUSDCConfig "BTCUSDC" 1 "BTCUSDC" 9 11 demo_om [] demo_order
    true 400 demo_error (new_app 64)); [exact demo_takes_order | reflexivity | | | reflexivity | done].
  - unfold exact_order, Binary64.kExactRange. cbn. lia.
  - cbn. unfold two64. lia.
Defined.

(** A futures order that the exchange rejects is never reported.  For
    every request of the futures gateway and every error, the answer to it
    leaves the application as it was: no report is queued and the request stays
    pending, so that the order manager keeps its reservation. *)
Theorem rejected_futures_order_silent cfg ticker allocated kind id status error (app : App) :
  0 <= id < two64 ->
  process_message true cfg ticker allocated
    (OePlaceOrder (mkApi (request_id true kind id) status (Some error))) app = Some app /\
  process_message true cfg ticker allocated
    (OeModifyOrder (mkApi (request_id true kind id) status (Some error))) app = Some app /\
  process_message true cfg ticker allocated
    (OeCancelOrder (mkApi (request_id true kind id) status (Some error))) app = Some app.
Proof.
  intros Hid. unfold process_message, handle_order_response, handle_cancel_order_response, report_failure,
    create_synthetic_execution_report, failed. cbn [rs_id rs_status rs_error].
  rewrite extract_futures by done. split_and!; [by destruct (status =? kHttpOK).. | done].
Qed.

Lemma rejected_futures_order_silent_witness :
  let app := order_request true true (order_of "BTCUSDC" kBuy 20 1000 7 None) (new_app 64) in
  process_message true BTCUSDCConfig "BTCUSDC" true
    (OePlaceOrder (mkApi (request_id true PlaceId 7) 400 (Some demo_error))) app = Some app.
Proof.
  intros app. apply (rejected_futures_order_silent BTCUSDCConfig "BTCUSDC" true PlaceId 7 400 demo_error app).
  unfold two64. lia.
Defined.

(** An error of the API that belongs to no request, such as one with an
    unknown id, ends the process: the router dispatches it as an execution
    report, and the gateway takes an execution report out of a message that
    holds none. *)
Theorem api_error_ends_process futures cfg ticker allocated id status error (app : App) :
  status <> kHttpOK ->
  process_message futures cfg ticker allocated (OeApi (mkApi id status (Some error))) app = None.
Proof.
  intros Hst. unfold process_message, handle_api_response, failed. simpl.
  by rewrite (proj2 (Z.eqb_neq _ _) Hst).
Qed.

Lemma api_error_ends_process_witness :
  process_message true BTCUSDCConfig "BTCUSDC" true (OeApi (mkApi (codes "x1") 400 (Some demo_error))) (new_app 64) = None.
Proof. apply api_error_ends_process. done. Defined.

(** A failed login marks the session ready: the router dispatches the answer
    as a login whatever its status. *)
Theorem failed_logon_marks_ready futures cfg ticker allocated id status error (app : App) :
  exists app', process_message futures cfg ticker allocated
    (OeSessionLogon (mkApi id status (Some error))) app = Some app' /\ session_ready_ app' = true.
Proof. by eexists. Qed.

End OrderEntry.
