(* ===== verification/SpotOrderEntry.v ===== *)
(** * The spot router and mapper of order entry
      (src/hft/core/websocket/order_entry/exchanges/binance/spot/:
       binance_spot_oe_dispatcher.hpp, binance_spot_oe_mapper.tpp,
       binance_spot_oe_connection_handler.h; the remaining handlers of
       src/hft/src/order_gateway.hpp)

    [OrderEntry] has one router for both exchanges, with a flag; here the spot
    router is translated from its own file, with the requests its connection
    handler sends, and the mapper with all fields of a report.

    The theorems: the spot router is the router of [OrderEntry] for spot; the type
    a message is announced with is the type it is dispatched with; the quantities
    of a report add up. *)

From Stdlib Require Import QArith Qabs.
From S2P Require Import Prelude Types FixedPoint Text Binary64 OrderEntry.

Module SpotOrderEntry.
Import Text Binary64 OrderEntry.
Local Open Scope Z_scope.

(** ** The mapper *)

(** The fields of [ExecutionReportData] besides those of [OrderEvent]. *)
Record SpotEvent := mkSpotEvent {
  event : OrderEvent;
  order_id : Z;
  last_executed_price : Q;
  commission_amount : Q;
  commission_asset : option string;
  trade_id : Z;
  is_maker_side : bool;
}.

(** The members of [trading::ExecutionReport] that the mapper sets. *)
Record SpotReport := mkSpotReport {
  report : ExecutionReport;
  cum_qty : Z;
  text : string;
  error_code : Z;
  is_maker : bool;
  last_price : Q;
  commission : Q;
  report_asset : option string;
  report_trade_id : Z;
  exchange_order_id : Z;
}.

Section Spot.
Variables (cfg : FixedPointConfig) (ticker : string).

(** [allocated] is whether the pool has a node; a null pointer is [None]. *)
Definition spot_execution_report (allocated : bool) (msg : SpotEvent) : option SpotReport :=
  if allocated then
    let e := event msg in
    Some (mkSpotReport
      (mkReport (ev_client_order_id e) (ev_symbol e) (toType (ev_execution_type e)) (toOrderStatus (ev_order_status e))
        (from_double (kQtyScale cfg) (max0_sub (ev_order_quantity e) (ev_cumulative_filled_quantity e)))
        (from_double (kQtyScale cfg) (ev_last_executed_quantity e))
        (from_double (kPriceScale cfg) (ev_order_price e)) (toSide (ev_side e)) None)
      (from_double (kQtyScale cfg) (ev_cumulative_filled_quantity e))
      (ev_reject_reason e) 0 (is_maker_side msg) (last_executed_price msg) (commission_amount msg) (commission_asset msg)
      (trade_id msg) (u64 (order_id msg)))
  else None.

Record OrderCancelReject := mkCancelReject { cr_cl_order_id : Z; cr_symbol : string; cr_error_code : Z; cr_text : string }.
Definition spot_cancel_reject (allocated : bool) (msg : SpotEvent) : option OrderCancelReject :=
  if allocated then
    Some (mkCancelReject (ev_client_order_id (event msg)) (ev_symbol (event msg)) 0 (ev_reject_reason (event msg)))
  else None.

Inductive MassCancelResponse := kCancelRequestRejected | kCancelSymbolOrders.
Record OrderMassCancelReport := mkMassCancel {
  mc_cl_order_id : Z; mc_symbol : string; mass_cancel_request_type : Z; mass_cancel_response : MassCancelResponse;
  total_affected_orders : Z; mc_error_code : Z; mc_text : string;
}.
Definition spot_mass_cancel_report (allocated : bool) (msg : SpotEvent) : option OrderMassCancelReport :=
  if allocated then
    Some (mkMassCancel (u64 (ev_client_order_id (event msg))) (ev_symbol (event msg)) 55 kCancelSymbolOrders 0 0
      (ev_reject_reason (event msg)))
  else None.

Record OrderReject := mkOrderReject {
  session_reject_reason : string; rejected_message_type : Z; error_message : string; rj_error_code : Z;
}.
Definition spot_reject (response : ApiResponse) : OrderReject :=
  match rs_error response with
  | Some error => mkOrderReject "WebSocket" 0 (err_message error) (err_code error)
  | None => mkOrderReject "WebSocket" 0 "" (-1)
  end.

(** [on_rejected]: whether the gateway stops its application. *)
Definition on_rejected_stops (reject : OrderReject) : bool := String.eqb (session_reject_reason reject) "A".

(** ** The announced type *)

Definition get_dispatch_type (message : WireMessage) : option string :=
  match message with
  | OeExecutionReport e =>
      if String.eqb (ev_execution_type e) "CANCELED" && negb (String.eqb (ev_reject_reason e) "NONE")
      then Some "9"%string else Some "8"%string
  | OeSessionLogon _ => Some "A"%string
  | OeApi response => if negb (rs_status response =? kHttpOK) then Some "8"%string else None
  | _ => None
  end.

(** ** The router *)

(** The application, and the requests of the session it has sent. *)
Record Session := mkSession { app : App; sent : list (list Z) }.
Definition with_app (a : App) (s : Session) : Session := mkSession a (sent s).

(** [create_user_data_stream_subscribe()] *)
Variable subscribe_message : list Z.

Definition dispatch_to (allocated : bool) (type : string) (message : WireMessage) (s : Session) : option Session :=
  a ← dispatch false cfg allocated type message (app s); Some (with_app a s).

(** [ConnectionHandler::on_session_logon] and [on_user_subscription] *)
Definition on_session_logon (response : ApiResponse) (s : Session) : Session :=
  if rs_status response =? kHttpOK then mkSession (app s) (sent s ++ [subscribe_message]) else s.
Definition on_user_subscription (response : ApiResponse) (s : Session) : Session :=
  if rs_status response =? kHttpOK then with_app (set_session_ready (app s)) s else s.

Definition spot_handle_execution_report (allocated : bool) (e : OrderEvent) (s : Session) : option Session :=
  let dispatch_type :=
    if String.eqb (ev_execution_type e) "CANCELED" && negb (String.eqb (ev_reject_reason e) "NONE")
    then "9"%string else "8"%string in
  s ← dispatch_to allocated dispatch_type (OeExecutionReport e) s;
  let s := with_app (remove_pending_request (ev_client_order_id e) (app s)) s in
  Some (with_app (remove_cancel_and_reorder_pair (ev_client_order_id e) (app s)) s).

Definition spot_handle_session_logon (allocated : bool) (response : ApiResponse) (s : Session) : option Session :=
  let s := if rs_status response =? kHttpOK then on_session_logon response s else s in
  dispatch_to allocated "A" (OeSessionLogon response) s.

Definition spot_handle_user_subscription (response : ApiResponse) (s : Session) : Session :=
  if negb (rs_status response =? kHttpOK) then s else on_user_subscription response s.

Definition spot_handle_api_response (allocated : bool) (response : ApiResponse) (s : Session) : option Session :=
  if negb (rs_status response =? kHttpOK) then
    match rs_error response with
    | Some _ => dispatch_to allocated "8" (OeApi response) s
    | None => Some s
    end
  else Some s.

(** [create_synthetic_execution_report] and the dispatch of its result. *)
Definition synthesize (allocated : bool) (id : list Z) (error : ErrorInfo) (s : Session) : option Session :=
  let '(e, a) := create_synthetic_execution_report false cfg ticker id (err_message error) (app s) in
  let s := with_app a s in
  match e with
  | Some e => dispatch_to allocated "8" (OeExecutionReport e) s
  | None => Some s
  end.

Definition spot_handle_cancel_and_reorder_response (allocated : bool) (response : ApiResponse) (s : Session) :
    option Session :=
  match (if rs_status response =? kHttpOK then None else rs_error response) with
  | None => Some s
  | Some error =>
      match err_data error with
      | None => Some s
      | Some (cancel_result, new_order_result) =>
          match extract_client_order_id (rs_id response) with
          | None => Some s
          | Some new_order_id =>
              match get_original_order_id new_order_id (app s) with
              | None => synthesize allocated (rs_id response) error s
              | Some original_order_id =>
                  s ← (if negb (String.eqb new_order_result "SUCCESS")
                       then synthesize allocated (rs_id response) error s else Some s);
                  s ← (if String.eqb cancel_result "FAILURE" && negb (String.eqb new_order_result "SUCCESS")
                       then synthesize allocated (codes "ordercancel_" ++ to_string_u64 original_order_id) error s
                       else Some s);
                  let s := with_app (remove_pending_request new_order_id (app s)) s in
                  let s := with_app (remove_pending_request original_order_id (app s)) s in
                  Some (with_app (remove_cancel_and_reorder_pair new_order_id (app s)) s)
              end
          end
      end
  end.

Definition spot_handle_cancel_all_response (allocated : bool) (response : ApiResponse) (s : Session) : option Session :=
  match (if rs_status response =? kHttpOK then None else rs_error response) with
  | Some error => synthesize allocated (rs_id response) error s
  | None => Some s
  end.

Definition spot_handle_place_order_response (allocated : bool) (response : ApiResponse) (s : Session) : option Session :=
  match (if rs_status response =? kHttpOK then None else rs_error response) with
  | Some error => synthesize allocated (rs_id response) error s
  | None => Some s
  end.

(** The traits of spot have no answer to modifications: the branch without body. *)
Definition spot_handle_modify_order_response (s : Session) : Session := s.
Definition spot_handle_balance_update (s : Session) : Session := s.
Definition spot_handle_account_updated (s : Session) : Session := s.

(** [process_message]: a cancel answer is not a type of spot, it is warned about. *)
Definition spot_process_message (allocated : bool) (message : WireMessage) (s : Session) : option Session :=
  match message with
  | OeExecutionReport e => spot_handle_execution_report allocated e s
  | OeSessionLogon response => spot_handle_session_logon allocated response s
  | OeUserSubscription response => Some (spot_handle_user_subscription response s)
  | OeCancelAndReorder response => spot_handle_cancel_and_reorder_response allocated response s
  | OeModifyOrder _ => Some (spot_handle_modify_order_response s)
  | OeCancelAll response => spot_handle_cancel_all_response allocated response s
  | OePlaceOrder response => spot_handle_place_order_response allocated response s
  | OeApi response => spot_handle_api_response allocated response s
  | OeAccount => Some (spot_handle_account_updated (spot_handle_balance_update s))
  | OeCancelOrder _ | OeMonostate => Some s
  end.

(** ** The router is the router of [OrderEntry] *)

Lemma dispatch_to_app allocated type message s :
  dispatch_to allocated type message s = (fun a => with_app a s) <$> dispatch false cfg allocated type message (app s).
Proof. by unfold dispatch_to; destruct (dispatch _ _ _ _ _ _). Qed.

Lemma synthesize_app allocated id error s :
  synthesize allocated id error s = (fun a => with_app a s) <$> report_failure false cfg ticker allocated id error (app s).
Proof.
  unfold synthesize, report_failure. destruct (create_synthetic_execution_report _ _ _ _ _ _) as [[e|] a]; [|done].
  rewrite dispatch_to_app. done.
Qed.

Lemma with_app_same s : with_app (app s) s = s.
Proof. by destruct s. Qed.

(** The spot router does what the shared model of the routers does for spot: for
    every message and every state it fails exactly when the other does, leaves the
    same pending requests, pairs, readiness and responses, and the one thing it adds
    is the subscription to the user data that it sends after a successful logon. *)
Theorem spot_router_is_router allocated message s :
  spot_process_message allocated message s =
  (fun a => mkSession a (sent s ++
     match message with
     | OeSessionLogon response => if rs_status response =? kHttpOK then [subscribe_message] else []
     | _ => []
     end)) <$> process_message false cfg ticker allocated message (app s).
Proof.
  destruct message as [|e|r|r|r|r|r|r|r|r|]; cbn [spot_process_message process_message]; rewrite ?app_nil_r.
  - by destruct s.
  - unfold spot_handle_execution_report, handle_execution_report. rewrite dispatch_to_app.
    by destruct (dispatch _ _ _ _ _ _).
  - unfold spot_handle_session_logon, handle_session_logon, on_session_logon. rewrite dispatch_to_app.
    destruct (rs_status r =? kHttpOK); [done | by rewrite app_nil_r].
  - unfold spot_handle_user_subscription, handle_user_subscription, on_user_subscription.
    destruct (rs_status r =? kHttpOK); [done | by destruct s].
  - unfold spot_handle_cancel_and_reorder_response, handle_cancel_and_reorder_response, failed.
    destruct (if rs_status r =? kHttpOK then None else rs_error r) as [error|]; [|by destruct s].
    destruct (err_data error) as [[cancel_result new_order_result]|]; [|by destruct s].
    destruct (extract_client_order_id (rs_id r)) as [new_id|]; [|by destruct s].
    destruct (get_original_order_id new_id (app s)) as [orig|]; [|by rewrite synthesize_app].
    destruct (negb (String.eqb new_order_result "SUCCESS")); rewrite ?andb_false_r; [|done].
    rewrite synthesize_app. destruct (report_failure _ _ _ _ _ _ _) as [a|]; [|done]. cbn [fmap option_fmap option_map mbind option_bind].
    rewrite andb_true_r. destruct (String.eqb cancel_result "FAILURE"); [|done].
    change (codes "ordercancel_") with (spot_prefix CancelId).
    rewrite synthesize_app. cbn [app with_app]. by destruct (report_failure _ _ _ _ _ _ _).
  - by destruct s.
  - unfold spot_handle_cancel_all_response, handle_order_response, failed.
    destruct (if rs_status r =? kHttpOK then None else rs_error r); [by rewrite synthesize_app | by destruct s].
  - unfold spot_handle_place_order_response, handle_order_response, failed.
    destruct (if rs_status r =? kHttpOK then None else rs_error r); [by rewrite synthesize_app | by destruct s].
  - by destruct s.
  - unfold spot_handle_api_response, handle_api_response, failed.
    destruct (rs_status r =? kHttpOK); cbn [negb]; [by destruct s|].
    destruct (rs_error r); [by rewrite dispatch_to_app | by destruct s].
  - by destruct s.
Qed.

(** The type that a report or a logon is announced with is the one its handler
    dispatches it with. *)
Lemma announced_type_dispatched allocated message s type :
  match message with OeExecutionReport _ | OeSessionLogon _ => True | _ => False end ->
  get_dispatch_type message = Some type ->
  is_Some (dispatch false cfg allocated type message (app s)) /\ is_Some (spot_process_message allocated message s).
Proof.
  destruct message as [|e|r|r|r|r|r|r|r|r|]; intros Hm; try done; cbn [get_dispatch_type spot_process_message].
  - unfold spot_handle_execution_report. rewrite dispatch_to_app.
    destruct (String.eqb (ev_execution_type e) "CANCELED" && _); intros [= <-]; split; by eexists.
  - intros [= <-]. unfold spot_handle_session_logon. rewrite dispatch_to_app. split; by eexists.
Qed.

(** C34: what a report says is filled and what it says is left add up to the order.  For
    quantities that the doubles of the message stand for, the filled quantity, the
    rest and the last fill come out exactly, and the rest is never negative. *)
Theorem report_quantities_add msg q z l r :
  0 < kQtyScale cfg -> 0 <= z <= q -> q <= kExactRange -> 0 <= l <= kExactRange ->
  stands_for (kQtyScale cfg) (ev_order_quantity (event msg)) q ->
  stands_for (kQtyScale cfg) (ev_cumulative_filled_quantity (event msg)) z ->
  stands_for (kQtyScale cfg) (ev_last_executed_quantity (event msg)) l ->
  spot_execution_report true msg = Some r ->
  cum_qty r = z /\ leaves_qty (report r) = q - z /\ last_qty (report r) = l.
Proof.
  intros Hs Hz Hq Hl Eq Ez El [= <-]. cbn [cum_qty report leaves_qty last_qty].
  rewrite (max0_sub_exact _ _ _ q z), (from_double_stands _ _ z), (from_double_stands _ _ l) by (done || lia). lia.
Qed.

End Spot.

Definition demo_event : SpotEvent :=
  mkSpotEvent (mkEvent 7 "BTCUSDC" "BUY" "TRADE" "PARTIALLY_FILLED" "NONE" (to_double 10 905583) (to_double 1000 250)
    (to_double 1000 100) (to_double 1000 40) "") 9 (to_double 10 905583) 0 None 3 true.

Lemma report_quantities_add_witness :
  exists r, spot_execution_report BTCUSDCConfig true demo_event = Some r /\
    cum_qty r = 100 /\ leaves_qty (report r) = 250 - 100 /\ last_qty (report r) = 40.
Proof.
  eexists. split; [reflexivity|].
  apply (report_quantities_add BTCUSDCConfig demo_event 250 100 40); [done | lia | unfold kExactRange; lia | unfold kExactRange; lia | | | | reflexivity];
    apply to_double_near; [done | unfold kExactRange; lia | done | unfold kExactRange; lia | done | unfold kExactRange; lia].
Defined.

End SpotOrderEntry.
