(* ===== verification/SpscQueue.v ===== *)
(** * Single-producer single-consumer queue (src/hft/common/spsc_queue.h)

    A ring of [Capacity] (a power of two) slots with free-running 64-bit
    counters.  [enqueue] and [dequeue] are given as executable functions and,
    for two threads, as the steps between their shared accesses: a thread loads
    the other side's counter, then copies the item, then publishes its own
    counter.  Loads see the latest store: the acquire/release pairs order the
    copy of an item with the counter that publishes it. *)

From S2P Require Import Prelude.

Module SpscQueue.

Section Queue.

Context {A : Type} `{Dflt A} (Capacity : Z).

Definition kMask : Z := Capacity - 1.

Record SPSCQueue := mkQueue { buffer_ : list A; head : Z; tail : Z }.

Definition new_queue : SPSCQueue := mkQueue (replicate (Z.to_nat Capacity) dflt) 0 0.

(** [buffer_[head & kMask] = item] and [producer_.head.store(head + 1)]. *)
Definition store_item (item : A) (q : SPSCQueue) : SPSCQueue :=
  mkQueue (zset (buffer_ q) (Z.land (head q) kMask) item) (head q) (tail q).
Definition store_head (q : SPSCQueue) : SPSCQueue :=
  mkQueue (buffer_ q) (u64 (head q + 1)) (tail q).

(** [item = buffer_[tail & kMask]] and [consumer_.tail.store(tail + 1)]. *)
Definition load_item (q : SPSCQueue) : A := zget (buffer_ q) (Z.land (tail q) kMask).
Definition store_tail (q : SPSCQueue) : SPSCQueue :=
  mkQueue (buffer_ q) (head q) (u64 (tail q + 1)).

Definition full (q : SPSCQueue) : bool := u64 (head q - tail q) =? Capacity.
Definition empty (q : SPSCQueue) : bool := head q =? tail q.

Definition enqueue (item : A) (q : SPSCQueue) : SPSCQueue * bool :=
  if full q then (q, false) else (store_head (store_item item q), true).

Definition dequeue (q : SPSCQueue) : SPSCQueue * option A :=
  if empty q then (q, None) else (store_tail q, Some (load_item q)).

(** ** Two threads *)

(** Where the producer is: outside [enqueue], past the test for room, past the
    copy; [enqueue_spin] repeats the test, so it adds no state. *)
Inductive PState := PIdle | PReady (item : A) | PWritten (item : A).
(** Where the consumer is: outside [dequeue], past the test, past the copy. *)
Inductive CState := CIdle | CReady | CRead (item : A).

(** The shared queue, both threads, and the items whose [enqueue] and [dequeue]
    have returned [true], in order. *)
Record Sys := mkSys {
  queue : SPSCQueue; pst : PState; cst : CState; enqueued : list A; dequeued : list A }.

Definition new_sys : Sys := mkSys new_queue PIdle CIdle [] [].

Inductive step : Sys -> Sys -> Prop :=
| step_enqueue_full q c e d (Hfull : full q = true) :
    step (mkSys q PIdle c e d) (mkSys q PIdle c e d)
| step_enqueue_load q c e d item (Hroom : full q = false) :
    step (mkSys q PIdle c e d) (mkSys q (PReady item) c e d)
| step_enqueue_copy q c e d item :
    step (mkSys q (PReady item) c e d) (mkSys (store_item item q) (PWritten item) c e d)
| step_enqueue_publish q c e d item :
    step (mkSys q (PWritten item) c e d) (mkSys (store_head q) PIdle c (e ++ [item]) d)
| step_dequeue_empty q p e d (Hempty : empty q = true) :
    step (mkSys q p CIdle e d) (mkSys q p CIdle e d)
| step_dequeue_load q p e d (Hitem : empty q = false) :
    step (mkSys q p CIdle e d) (mkSys q p CReady e d)
| step_dequeue_copy q p e d :
    step (mkSys q p CReady e d) (mkSys q p (CRead (load_item q)) e d)
| step_dequeue_publish q p e d item :
    step (mkSys q p (CRead item) e d) (mkSys (store_tail q) p CIdle e (d ++ [item])).

Definition reachable : Sys -> Prop := rtc step new_sys.

(** ** Invariant *)

(** [Capacity] is a power of two that a [size_t] array can have. *)
Context (k : Z) (Hk : 1 <= k <= 62) (Hcap : Capacity = 2 ^ k).

Lemma cap_pos : 2 <= Capacity <= 2 ^ 62.
Proof using Hk Hcap.
  subst Capacity. split; [change 2 with (2 ^ 1) at 1|]; apply Z.pow_le_mono_r; lia.
Qed.

Lemma land_mask n : 0 <= n -> Z.land (u64 n) kMask = n mod Capacity.
Proof using Hk Hcap.
  intros Hn. unfold kMask. rewrite Hcap. replace (2 ^ k - 1) with (Z.ones k) by (rewrite Z.ones_equiv; lia).
  rewrite Z.land_ones by lia. unfold u64, two64. change 18446744073709551616 with (2 ^ 64).
  replace (2 ^ 64) with (2 ^ k * 2 ^ (64 - k)) by (rewrite <- Z.pow_add_r by lia; f_equal; lia).
  assert (0 < 2 ^ k) by lia. assert (0 < 2 ^ (64 - k)) by lia.
  rewrite Z.rem_mul_r by lia. rewrite Z.mul_comm, Z_mod_plus_full. by rewrite Z.mod_mod by lia.
Qed.

(** The counters are the numbers of completed operations, modulo [2^64]. *)
Record inv (s : Sys) : Prop := {
  inv_len : zlen (buffer_ (queue s)) = Capacity;
  inv_head : head (queue s) = u64 (zlen (enqueued s));
  inv_tail : tail (queue s) = u64 (zlen (dequeued s));
  inv_size : zlen (dequeued s) <= zlen (enqueued s) <= zlen (dequeued s) + Capacity;
  inv_fifo : dequeued s `prefix_of` enqueued s;
  inv_items i : zlen (dequeued s) <= i < zlen (enqueued s) ->
    zget (buffer_ (queue s)) (i mod Capacity) = zget (enqueued s) i;
  inv_producer :
    match pst s with
    | PIdle => True
    | PReady _ => zlen (enqueued s) < zlen (dequeued s) + Capacity
    | PWritten item => zlen (enqueued s) < zlen (dequeued s) + Capacity /\
        zget (buffer_ (queue s)) (zlen (enqueued s) mod Capacity) = item
    end;
  inv_consumer :
    match cst s with
    | CIdle => True
    | CReady => zlen (dequeued s) < zlen (enqueued s)
    | CRead item => zlen (dequeued s) < zlen (enqueued s) /\ item = zget (enqueued s) (zlen (dequeued s))
    end;
}.

Lemma u64_sub a b : u64 (u64 a - u64 b) = u64 (a - b).
Proof. unfold u64. by rewrite <- Zminus_mod. Qed.

Lemma u64_succ a : u64 (u64 a + 1) = u64 (a + 1).
Proof. unfold u64. by rewrite Zplus_mod_idemp_l. Qed.

Lemma full_spec s : inv s -> full (queue s) = (zlen (enqueued s) - zlen (dequeued s) =? Capacity).
Proof using Hk Hcap.
  intros I. pose proof cap_pos as Hc. pose proof (inv_size _ I). unfold full.
  rewrite (inv_head _ I), (inv_tail _ I), u64_sub, u64_small; [done|]. unfold in_u64, two64. lia.
Qed.

Lemma empty_spec s : inv s -> empty (queue s) = (zlen (enqueued s) =? zlen (dequeued s)).
Proof using Hk Hcap.
  intros I. pose proof cap_pos as Hc. pose proof (inv_size _ I). unfold empty.
  assert (E : u64 (head (queue s) - tail (queue s)) = zlen (enqueued s) - zlen (dequeued s)).
  { rewrite (inv_head _ I), (inv_tail _ I), u64_sub, u64_small; [done|]. unfold in_u64, two64. lia. }
  rewrite (inv_head _ I), (inv_tail _ I) in *.
  destruct (Z.eqb_spec (zlen (enqueued s)) (zlen (dequeued s))) as [->|Hne]; [apply Z.eqb_refl|].
  apply Z.eqb_neq. intros Heq. rewrite Heq, Z.sub_diag in E. change (u64 0) with 0 in E. lia.
Qed.

Lemma new_sys_inv : inv new_sys.
Proof using Hk Hcap.
  pose proof cap_pos as Hc. constructor; cbn; try done.
  - rewrite zlen_replicate. lia.
  - unfold zlen. simpl. lia.
  - unfold zlen. simpl. lia.
Qed.

(** Two positions less than a full turn apart are different slots. *)
Lemma slot_ne i j : i < j < i + Capacity -> i mod Capacity <> j mod Capacity.
Proof using Hk Hcap.
  pose proof cap_pos as Hc. intros Hij E.
  assert (H0 : (j - i) mod Capacity = 0) by (rewrite Zminus_mod, E, Z.sub_diag; apply Z.mod_0_l; lia).
  rewrite Z.mod_small in H0 by lia. lia.
Qed.

Lemma zget_app_l (l1 l2 : list A) i : i < zlen l1 -> zget (l1 ++ l2) i = zget l1 i.
Proof.
  intros Hi. unfold zget, zlen in *. case_bool_decide; [|done]. by rewrite lookup_app_l by lia.
Qed.

Lemma zget_snoc (l : list A) x : zget (l ++ [x]) (zlen l) = x.
Proof.
  unfold zget, zlen. rewrite bool_decide_eq_true_2, Nat2Z.id by lia. by rewrite list_lookup_middle.
Qed.

Lemma copy_inv q c e d item :
  inv (mkSys q (PReady item) c e d) -> inv (mkSys (store_item item q) (PWritten item) c e d).
Proof using Hk Hcap.
  intros [Hlen Hh Ht Hs Hf Hi Hp Hc]. cbn in *. pose proof cap_pos as Hcp.
  assert (Hslot : Z.land (head q) kMask = zlen e mod Capacity).
  { rewrite Hh. apply land_mask, zlen_nonneg. }
  pose proof (Z.mod_pos_bound (zlen e) Capacity ltac:(lia)).
  constructor; cbn; try done; rewrite ?zlen_zset, ?Hslot; try done.
  - intros i Hr. rewrite zget_zset_ne; [by apply Hi|]. intros E. symmetry in E. revert E.
    apply slot_ne. lia.
  - split; [done|]. rewrite zget_zset_eq by lia. done.
Qed.

Lemma publish_inv q c e d item :
  inv (mkSys q (PWritten item) c e d) -> inv (mkSys (store_head q) PIdle c (e ++ [item]) d).
Proof using Hk Hcap.
  intros [Hlen Hh Ht Hs Hf Hi Hp Hc]. cbn in *.
  assert (He : zlen (e ++ [item]) = zlen e + 1) by (rewrite zlen_app; done).
  destruct Hp as [Hp Hw]. constructor; cbn; rewrite ?He; try done.
  - rewrite Hh. apply u64_succ.
  - lia.
  - by apply prefix_app_r.
  - intros i Hr. destruct (decide (i = zlen e)) as [->|]; [by rewrite zget_snoc|].
    rewrite zget_app_l by lia. apply Hi. lia.
  - destruct c; [done | lia |]. destruct Hc as [Hc ->]. split; [lia|]. by rewrite zget_app_l.
Qed.

Lemma take_inv q p e d item :
  inv (mkSys q p (CRead item) e d) -> inv (mkSys (store_tail q) p CIdle e (d ++ [item])).
Proof using Hk Hcap.
  intros [Hlen Hh Ht Hs Hf Hi Hp Hc]. cbn in *.
  assert (Hd : zlen (d ++ [item]) = zlen d + 1) by (rewrite zlen_app; done).
  destruct Hc as [Hc Hx]. constructor; cbn; rewrite ?Hd; try done.
  - rewrite Ht. apply u64_succ.
  - lia.
  - destruct Hf as [[|x r] ->]; [rewrite app_nil_r in Hc; lia|].
    exists r. rewrite <- app_assoc. simpl. subst item.
    rewrite (cons_middle x d r), app_assoc, zget_app_l by (rewrite zlen_app; unfold zlen; simpl; lia).
    by rewrite zget_snoc, <- app_assoc.
  - intros i Hr. apply Hi. lia.
  - destruct p; [done | lia |]. destruct Hp. split; [lia | done].
Qed.

Lemma step_inv s s' : step s s' -> inv s -> inv s'.
Proof using Hk Hcap.
  intros Hstep I. destruct Hstep; [done | | by apply copy_inv | by apply publish_inv | done | | |
    by apply take_inv].
  - pose proof (full_spec _ I) as Hf. cbn in Hf. rewrite Hroom in Hf. symmetry in Hf. apply Z.eqb_neq in Hf.
    destruct I as [????? ??]. cbn in *. constructor; cbn; try done. lia.
  - pose proof (empty_spec _ I) as Hf. cbn in Hf. rewrite Hitem in Hf. symmetry in Hf. apply Z.eqb_neq in Hf.
    destruct I as [????? ??]. cbn in *. constructor; cbn; try done. lia.
  - destruct I as [Hlen Hh Ht Hs Hf Hi Hp Hc]. cbn in *. constructor; cbn; try done. split; [done|].
    unfold load_item. rewrite Ht, land_mask by apply zlen_nonneg. apply Hi. lia.
Qed.

(** C6: the queue is a bounded FIFO for every interleaving of its two threads.
    In every reachable state the dequeued items are the first of the enqueued
    ones, the rest lie in the ring in order, there are at most [Capacity] of
    them, [full] holds exactly at [Capacity] and [empty] exactly at none; the
    64-bit counters may wrap. *)
Theorem spsc_fifo s :
  reachable s ->
  exists rest, enqueued s = dequeued s ++ rest /\ zlen rest <= Capacity /\
    (forall i, 0 <= i < zlen rest ->
       zget (buffer_ (queue s)) ((zlen (dequeued s) + i) mod Capacity) = zget rest i) /\
    (full (queue s) = true <-> zlen rest = Capacity) /\
    (empty (queue s) = true <-> rest = []).
Proof using Hk Hcap.
  intros Hreach. assert (I : inv s).
  { revert Hreach. unfold reachable. generalize new_sys_inv. generalize new_sys.
    intros s0 H0. induction 1 as [|x y z Hstep _ IH]; [done|]. apply IH. by eapply step_inv. }
  pose proof (full_spec _ I) as Hfull. pose proof (empty_spec _ I) as Hempty.
  destruct (inv_fifo _ I) as [rest Hr]. exists rest.
  pose proof (inv_size _ I) as Hs. rewrite Hr, zlen_app in Hs, Hfull, Hempty.
  split_and!; [done | lia | | |].
  - intros i Hi. rewrite (inv_items _ I) by (rewrite Hr, zlen_app; lia). rewrite Hr.
    unfold zget, zlen in *. rewrite !bool_decide_eq_true_2 by lia.
    rewrite lookup_app_r by lia. do 2 f_equal. lia.
  - rewrite Hfull, Z.eqb_eq. lia.
  - rewrite Hempty, Z.eqb_eq. unfold zlen. destruct rest; simpl; split; intros; done || lia.
Qed.

(** The functions are the steps of one thread in a row. *)
Lemma enqueue_steps item q c e d :
  rtc step (mkSys q PIdle c e d)
    (mkSys (enqueue item q).1 PIdle c (if (enqueue item q).2 then e ++ [item] else e) d).
Proof.
  unfold enqueue. destruct (full q) eqn:E; cbn; [done|].
  eapply rtc_l; [by apply (step_enqueue_load _ _ _ _ item)|].
  eapply rtc_l; [apply step_enqueue_copy|]. apply rtc_once, step_enqueue_publish.
Qed.

Lemma dequeue_steps q p e d :
  rtc step (mkSys q p CIdle e d)
    (mkSys (dequeue q).1 p CIdle e (match (dequeue q).2 with Some x => d ++ [x] | None => d end)).
Proof.
  unfold dequeue. destruct (empty q) eqn:E; cbn; [done|].
  eapply rtc_l; [by apply step_dequeue_load|].
  eapply rtc_l; [apply step_dequeue_copy|]. apply rtc_once, step_dequeue_publish.
Qed.

End Queue.

(** A run in which the consumer reads while the producer is between its copy and
    its publication. *)
Definition demo_sys : Sys :=
  mkSys (mkQueue [30; 20] 2 1) (PWritten 30) CIdle [10; 20] [10].

Lemma demo_sys_reachable : reachable 2 demo_sys.
Proof.
  unfold reachable.
  etrans; [apply (enqueue_steps 2 10)|]. cbn.
  etrans; [apply (enqueue_steps 2 20)|]. cbn.
  eapply rtc_l; [by apply (step_dequeue_load 2)|].
  eapply rtc_l; [apply step_dequeue_copy|]. eapply rtc_l; [apply step_dequeue_publish|].
  eapply rtc_l; [by apply (step_enqueue_load 2 _ _ _ _ 30)|].
  apply rtc_once. vm_compute. exact (step_enqueue_copy 2 (mkQueue [10; 20] 2 1) CIdle [10; 20] [10] 30).
Qed.

Lemma spsc_fifo_witness :
  exists rest, enqueued demo_sys = dequeued demo_sys ++ rest /\ rest = [20].
Proof.
  destruct (spsc_fifo 2 1 ltac:(lia) eq_refl demo_sys demo_sys_reachable) as (rest & E & _).
  exists rest. split; [exact E|]. cbn in E. by injection E.
Defined.

End SpscQueue.
