(* ===== verification/MpscQueue.v ===== *)
(** * Multi-producer single-consumer queue (src/hft/common/mpsc_queue_cas.hpp)

    A linked list of chunks.  A producer takes a reference on the chunk at the
    tail, reserves a slot with a fetch-add, constructs the item and publishes it;
    when the chunk is full it links a new one and swings the tail.  The consumer
    walks the chunks, retires the ones it leaves and frees retired chunks that
    have no reference.

    [enqueue] and [dequeue] are given as their steps between shared accesses, for
    any number of producers and one consumer.  The chunks are the list of those
    ever linked, so that the successor of a chunk is the next of the list; an
    access to a freed chunk is [None].  The counter of a chunk is exact (2^64
    attempts on one chunk do not happen), its references are 32 bits wide.  Loads
    see the latest store.

    The theorems: for every interleaving the dequeued items are a prefix of the
    items in the order of their reservations, none is lost; and the reference
    count does not protect the chunks, since a producer touches a chunk before it
    holds a reference, and a failed swing releases a chunk it never held. *)

From S2P Require Import Prelude.

Module MpscQueue.

Section Queue.
Context {A : Type} (ChunkSize : nat).

(** ** State *)

Record Slot := mkSlot { ready : bool; storage : option A }.

(** [reserved] is ghost: the items of the reserved slots, in order. *)
Record Chunk := mkChunk {
  idx : nat;
  refs : Z;
  slots : list Slot;
  freed : bool;
  reserved : list A;
}.

Definition new_chunk (r : Z) : Chunk := mkChunk 0 r (replicate ChunkSize (mkSlot false None)) false [].

Record Queue := mkQueue { chunks : list Chunk; tail_ : nat }.

(** Where a producer is in [enqueue(input)], named after its next access. *)
Inductive PState :=
| PIdle
| PLoadTail (input : A)
| PAddRef (input : A) (cur : nat)
| PRecheck (input : A) (cur : nat)
| PBackOff (input : A) (cur : nat)
| PReserve (input : A) (cur : nat)
| PConstruct (input : A) (cur pos : nat)
| PPublish (input : A) (cur pos : nat)
| PReturn (cur : nat)
| PLoadNext (input : A) (cur : nat)
| PLinkNext (input : A) (cur : nat)
| PSwingTail (input : A) (cur next : nat)
| PAddNextRef (input : A) (cur next : nat)
| PDropTailRef (input : A) (cur : nat)
| PDropRef (input : A) (cur : nat).

(** Where the consumer is in [dequeue]; going round its loop is calling it again. *)
Inductive CState :=
| CIdle
| CTake
| CLoadNext
| CMove (next : nat)
| CRetire (old : nat)
| CReclaim
| CScan (list keep : list nat).

Record Sys := mkSys {
  queue : Queue;
  head_ : nat;
  head_pos_ : nat;
  (** the chunks of the retired nodes, the last retired first *)
  retired : list nat;
  retired_count_ : Z;
  producers : list PState;
  consumer : CState;
  (** ghost: the items [dequeue] has moved out *)
  dequeued : list A;
}.

Definition kScanThreshold : Z := 64.

(** The constructor: the dummy chunk is referenced by the head and the tail. *)
Definition new_sys (threads : nat) : Sys :=
  mkSys (mkQueue [new_chunk 2] 0) 0 0 [] 0 (replicate threads PIdle) CIdle [].

(** ** Accesses to a chunk *)

Definition live (c : nat) (q : Queue) : option Chunk :=
  ch ← chunks q !! c; if freed ch then None else Some ch.

Definition upd (c : nat) (f : Chunk -> Chunk) (q : Queue) : option Queue :=
  ch ← live c q; Some (mkQueue (<[c := f ch]> (chunks q)) (tail_ q)).

Definition add_refs (d : Z) (ch : Chunk) : Chunk :=
  mkChunk (idx ch) (u32 (refs ch + d)) (slots ch) (freed ch) (reserved ch).
Definition set_slot (pos : nat) (s : Slot) (ch : Chunk) : Chunk :=
  mkChunk (idx ch) (refs ch) (<[pos := s]> (slots ch)) (freed ch) (reserved ch).
Definition publish (pos : nat) (ch : Chunk) : Chunk :=
  mkChunk (idx ch) (refs ch) (alter (fun s => mkSlot true (storage s)) pos (slots ch)) (freed ch) (reserved ch).
Definition reserve (input : A) (ch : Chunk) : Chunk :=
  mkChunk (S (idx ch)) (refs ch) (slots ch) (freed ch)
    (if (idx ch <? ChunkSize)%nat then reserved ch ++ [input] else reserved ch).
Definition free_chunk (ch : Chunk) : Chunk := mkChunk (idx ch) (refs ch) (slots ch) true (reserved ch).

(** [cur->next] *)
Definition next_of (c : nat) (q : Queue) : option nat :=
  if (S c <? length (chunks q))%nat then Some (S c) else None.

(** ** [enqueue] *)

Definition producer_step (q : Queue) (p : PState) : option (Queue * PState) :=
  match p with
  | PIdle => Some (q, PIdle)
  | PLoadTail v => Some (q, PAddRef v (tail_ q))
  | PAddRef v cur => q ← upd cur (add_refs 1) q; Some (q, PRecheck v cur)
  | PRecheck v cur => Some (q, if (cur =? tail_ q)%nat then PReserve v cur else PBackOff v cur)
  | PBackOff v cur => q ← upd cur (add_refs (-1)) q; Some (q, PLoadTail v)
  | PReserve v cur =>
      ch ← live cur q;
      q ← upd cur (reserve v) q;
      Some (q, if (idx ch <? ChunkSize)%nat then PConstruct v cur (idx ch) else PLoadNext v cur)
  | PConstruct v cur pos => q ← upd cur (set_slot pos (mkSlot false (Some v))) q; Some (q, PPublish v cur pos)
  | PPublish v cur pos => q ← upd cur (publish pos) q; Some (q, PReturn cur)
  | PReturn cur => q ← upd cur (add_refs (-1)) q; Some (q, PIdle)
  | PLoadNext v cur =>
      _ ← live cur q;
      Some (q, match next_of cur q with Some n => PSwingTail v cur n | None => PLinkNext v cur end)
  | PLinkNext v cur =>
      (* a failed exchange loads the successor that is there *)
      _ ← live cur q;
      Some match next_of cur q with
           | Some n => (q, PSwingTail v cur n)
           | None => (mkQueue (chunks q ++ [new_chunk 0]) (tail_ q), PSwingTail v cur (S cur))
           end
  | PSwingTail v cur next =>
      (* a failed exchange loads the tail into cur *)
      Some (if (tail_ q =? cur)%nat then (mkQueue (chunks q) next, PAddNextRef v cur next)
            else (q, PDropRef v (tail_ q)))
  | PAddNextRef v cur next => q ← upd next (add_refs 1) q; Some (q, PDropTailRef v cur)
  | PDropTailRef v cur => q ← upd cur (add_refs (-1)) q; Some (q, PDropRef v cur)
  | PDropRef v cur => q ← upd cur (add_refs (-1)) q; Some (q, PLoadTail v)
  end.

(** ** [dequeue] *)

Definition slot_at (c pos : nat) (q : Queue) : option Slot := ch ← live c q; slots ch !! pos.

(** The system after a step of the consumer. *)
Definition set_consumer (q : Queue) (head pos : nat) (ret : list nat) (count : Z) (c : CState) (out : list A) (s : Sys) : Sys :=
  mkSys q head pos ret count (producers s) c out.

Definition goto (c : CState) (s : Sys) : Sys :=
  set_consumer (queue s) (head_ s) (head_pos_ s) (retired s) (retired_count_ s) c (dequeued s) s.

Definition retire_chunk (chunk : nat) (s : Sys) : option Sys :=
  q ← upd chunk (add_refs (-1)) (queue s);
  Some (set_consumer q (head_ s) (head_pos_ s) (chunk :: retired s) (retired_count_ s + 1) CReclaim (dequeued s) s).

(** [try_reclaim] takes the whole list and walks it; what has references is kept. *)
Definition try_reclaim (s : Sys) : Sys :=
  if retired_count_ s <? kScanThreshold then goto CIdle s
  else set_consumer (queue s) (head_ s) (head_pos_ s) [] 0 (CScan (retired s) []) (dequeued s) s.

Definition scan (list keep : list nat) (s : Sys) : option Sys :=
  match list with
  | [] =>
      Some (set_consumer (queue s) (head_ s) (head_pos_ s) (keep ++ retired s) (retired_count_ s) CIdle (dequeued s) s)
  | node :: list =>
      ch ← live node (queue s);
      if refs ch =? 0 then
        q ← upd node free_chunk (queue s);
        Some (set_consumer q (head_ s) (head_pos_ s) (retired s) (retired_count_ s) (CScan list keep) (dequeued s) s)
      else
        Some (set_consumer (queue s) (head_ s) (head_pos_ s) (retired s) (retired_count_ s + 1)
                (CScan list (node :: keep)) (dequeued s) s)
  end.

Definition consumer_step (s : Sys) : option Sys :=
  match consumer s with
  | CIdle =>
      if (head_pos_ s <? ChunkSize)%nat then
        slot ← slot_at (head_ s) (head_pos_ s) (queue s);
        Some (goto (if ready slot then CTake else CIdle) s)
      else Some (goto CLoadNext s)
  | CTake =>
      slot ← slot_at (head_ s) (head_pos_ s) (queue s);
      out ← storage slot;
      q ← upd (head_ s) (set_slot (head_pos_ s) (mkSlot false None)) (queue s);
      Some (set_consumer q (head_ s) (S (head_pos_ s)) (retired s) (retired_count_ s)
              (if (S (head_pos_ s) =? ChunkSize)%nat then CLoadNext else CIdle) (dequeued s ++ [out]) s)
  | CLoadNext =>
      _ ← live (head_ s) (queue s);
      Some (goto (match next_of (head_ s) (queue s) with Some n => CMove n | None => CIdle end) s)
  | CMove next =>
      q ← upd next (add_refs 1) (queue s);
      Some (set_consumer q next 0%nat (retired s) (retired_count_ s) (CRetire (head_ s)) (dequeued s) s)
  | CRetire old => retire_chunk old s
  | CReclaim => Some (try_reclaim s)
  | CScan list keep => scan list keep s
  end.

Definition empty (s : Sys) : option bool :=
  if (head_pos_ s <? ChunkSize)%nat then negb ∘ ready <$> slot_at (head_ s) (head_pos_ s) (queue s)
  else _ ← live (head_ s) (queue s); Some (bool_decide (next_of (head_ s) (queue s) = None)).

(** ** Interleavings *)

Inductive Action := Call (t : nat) (input : A) | Producer (t : nat) | Consumer.

Definition set_producer (q : Queue) (t : nat) (p : PState) (s : Sys) : Sys :=
  mkSys q (head_ s) (head_pos_ s) (retired s) (retired_count_ s) (<[t := p]> (producers s)) (consumer s) (dequeued s).

Definition act (a : Action) (s : Sys) : option Sys :=
  match a with
  | Call t v =>
      p ← producers s !! t;
      match p with PIdle => Some (set_producer (queue s) t (PLoadTail v) s) | _ => Some s end
  | Producer t =>
      p ← producers s !! t;
      '(q, p) ← producer_step (queue s) p;
      Some (set_producer q t p s)
  | Consumer => consumer_step s
  end.

Inductive reachable : Sys -> Prop :=
| reach_new threads : reachable (new_sys threads)
| reach_act s a s' : reachable s -> act a s = Some s' -> reachable s'.

Fixpoint run (l : list Action) (s : Sys) : option Sys :=
  match l with [] => Some s | a :: l' => s ← act a s; run l' s end.

(** The items in the order in which their slots were reserved. *)
Definition order (s : Sys) : list A := concat (map reserved (chunks (queue s))).

(** ** Invariant

    References and reclamation do not touch what the queue holds: the counter,
    the slots and the reservations of each chunk. *)

Record Data := mkData { d_idx : nat; d_slots : list Slot; d_res : list A }.
Definition data (ch : Chunk) : Data := mkData (idx ch) (slots ch) (reserved ch).
Definition view (q : Queue) : list Data := map data (chunks q).

Definition consumed (hd pos i p : nat) : Prop := (i < hd)%nat \/ (i = hd /\ (p < pos)%nat).

(** The producer that has reserved slot [p] of chunk [c] and not published it. *)
Definition owns (st : PState) (c p : nat) (v : A) : Prop :=
  st = PConstruct v c p \/ st = PPublish v c p.

(** *** The slots

    [cell] and [resv] are the slot and the reservation at a place. *)
Record Places (cell : nat -> nat -> option Slot) (resv : nat -> nat -> option A) (hd pos : nat)
    (ps : list PState) (c : CState) : Prop := {
  pl_ready i p sl : cell i p = Some sl -> ready sl = true ->
    exists v, storage sl = Some v /\ resv i p = Some v /\ ~ consumed hd pos i p;
  pl_owner t st i p v : ps !! t = Some st -> owns st i p v ->
    exists x, cell i p = Some (mkSlot false x) /\ (st = PPublish v i p -> x = Some v) /\
      resv i p = Some v /\ ~ consumed hd pos i p;
  pl_unique t t' st st' i p v v' : ps !! t = Some st -> ps !! t' = Some st' ->
    owns st i p v -> owns st' i p v' -> t = t';
  pl_kept i p v : resv i p = Some v -> ~ consumed hd pos i p ->
    (exists sl, cell i p = Some sl /\ ready sl = true) \/ (exists t st, ps !! t = Some st /\ owns st i p v);
  pl_take : c = CTake -> exists sl, cell hd pos = Some sl /\ ready sl = true;
}.

Definition cell (V : list Data) (i p : nat) : option Slot := d ← V !! i; d_slots d !! p.
Definition resv (V : list Data) (i p : nat) : option A := d ← V !! i; d_res d !! p.

(** *** The chunks *)
Definition producer_ok (V : list Data) (st : PState) : Prop :=
  match st with
  | PLoadNext _ cur | PLinkNext _ cur => exists d, V !! cur = Some d /\ (ChunkSize <= d_idx d)%nat
  | _ => True
  end.

Record Shape (V : list Data) (hd pos : nat) (ps : list PState) (c : CState) (out : list A) : Prop := {
  sh_len i d : V !! i = Some d ->
    length (d_slots d) = ChunkSize /\ length (d_res d) = Nat.min (d_idx d) ChunkSize;
  sh_full i d : V !! i = Some d -> (S i < length V)%nat -> (ChunkSize <= d_idx d)%nat;
  sh_out : exists d, V !! hd = Some d /\ (pos <= length (d_res d))%nat /\
    out = concat (map d_res (take hd V)) ++ take pos (d_res d);
  sh_producers t st : ps !! t = Some st -> producer_ok V st;
  sh_consumer :
    match c with
    | CLoadNext => pos = ChunkSize
    | CMove next => pos = ChunkSize /\ next = S hd /\ (S hd < length V)%nat
    | _ => True
    end;
}.

Definition inv (s : Sys) : Prop :=
  let V := view (queue s) in
  Places (cell V) (resv V) (head_ s) (head_pos_ s) (producers s) (consumer s) /\
  Shape V (head_ s) (head_pos_ s) (producers s) (consumer s) (dequeued s).

Lemma upd_view c f q q' :
  upd c f q = Some q' ->
  exists ch, chunks q !! c = Some ch /\ view q' = <[c := data (f ch)]> (view q) /\ tail_ q' = tail_ q.
Proof.
  unfold upd, live. destruct (chunks q !! c) as [ch|] eqn:E; [|done]. simpl. destruct (freed ch); [done|].
  simpl. intros [= <-]. exists ch. split; [done|]. unfold view. simpl. by rewrite <-list_fmap_insert.
Qed.

Lemma upd_same c f q q' :
  (forall ch, data (f ch) = data ch) -> upd c f q = Some q' -> view q' = view q.
Proof.
  intros Hf E. destruct (upd_view c f q q' E) as (ch & Hc & -> & _). rewrite Hf.
  apply list_insert_id. unfold view. by rewrite list_lookup_fmap, Hc.
Qed.

(** What a lookup in an updated list can be. *)
Ltac at_insert H :=
  apply list_lookup_insert_Some in H as [(<- & <- & _) | (? & H)].

Lemma owns_inj st c p v c' p' v' : owns st c p v -> owns st c' p' v' -> c = c' /\ p = p' /\ v = v'.
Proof. by intros [-> | ->] [[=]|[=]]. Qed.

Section Places.
Variables (ce ce' : nat -> nat -> option Slot) (re re' : nat -> nat -> option A).
Variables (hd pos : nat) (ps : list PState) (c : CState).
Hypothesis HP : Places ce re hd pos ps c.

(** A producer moves on and keeps its slot, if it has one. *)
Lemma Places_producer t st st' :
  ps !! t = Some st -> (forall i p v, owns st' i p v <-> owns st i p v) ->
  (forall i p v, st' = PPublish v i p -> st = st') -> Places ce re hd pos (<[t := st']> ps) c.
Proof.
  intros Ht Ho Hpub.
  assert (Hback : forall t' x i p v, <[t := st']> ps !! t' = Some x -> owns x i p v ->
    exists x0, ps !! t' = Some x0 /\ owns x0 i p v /\ (x = PPublish v i p -> x0 = x)).
  { intros t' x i p v Hx Hox. at_insert Hx; [|by exists x]. exists st. split_and!; [done | by apply Ho | apply Hpub]. }
  split; try apply HP.
  - intros t' x i p v Hx Hox. destruct (Hback _ _ _ _ _ Hx Hox) as (x0 & H1 & H2 & H3).
    destruct (pl_owner _ _ _ _ _ _ HP t' x0 i p v H1 H2) as (y & E1 & E2 & E3). exists y.
    split_and!; [done | | apply E3 | apply E3]. intros Hx'. apply E2. by rewrite H3.
  - intros t1 t2 x1 x2 i p v1 v2 H1 H2 O1 O2.
    destruct (Hback _ _ _ _ _ H1 O1) as (y1 & E1 & F1 & _). destruct (Hback _ _ _ _ _ H2 O2) as (y2 & E2 & F2 & _).
    by apply (pl_unique _ _ _ _ _ _ HP t1 t2 y1 y2 i p v1 v2).
  - intros i p v Hr Hc. destruct (pl_kept _ _ _ _ _ _ HP i p v Hr Hc) as [|(t' & x & Hx & Hox)]; [by left|].
    right. exists t'. destruct (decide (t' = t)) as [->|Hne].
    + exists st'. rewrite Ht in Hx. injection Hx as <-. split; [|by apply Ho].
      apply list_lookup_insert_eq. by eapply lookup_lt_Some.
    + exists x. by rewrite list_lookup_insert_ne.
Qed.

(** A fetch-add reserves a slot that nobody has reserved. *)
Lemma Places_reserve t v i p :
  ps !! t = Some (PReserve v i) ->
  (forall j q, re' j q = if decide (j = i /\ q = p) then Some v else re j q) ->
  re i p = None -> (exists sl, ce i p = Some sl) -> ~ consumed hd pos i p ->
  Places ce re' hd pos (<[t := PConstruct v i p]> ps) c.
Proof.
  intros Ht Hre Hnone [sl Hsl] Hc.
  assert (Hkeep : forall j q w, re j q = Some w -> re' j q = Some w).
  { intros j q w Hw. rewrite Hre. case_decide as Hd; [|done]. destruct Hd as [-> ->]. congruence. }
  assert (Hfree : forall t' x w, ps !! t' = Some x -> ~ owns x i p w).
  { intros t' x w Hx Hox. destruct (pl_owner _ _ _ _ _ _ HP t' x i p w Hx Hox) as (? & _ & _ & H & _). congruence. }
  assert (Hlt : (t < length ps)%nat) by (by eapply lookup_lt_Some).
  split; [| | | |apply HP].
  - intros j q s' Hs Hr. destruct (pl_ready _ _ _ _ _ _ HP j q s' Hs Hr) as (w & ? & ? & ?). eauto 6.
  - intros t' x j q w Hx Hox. at_insert Hx.
    + destruct (owns_inj _ _ _ _ i p v Hox ltac:(by left)) as (-> & -> & ->). destruct sl as [[] x].
      { destruct (pl_ready _ _ _ _ _ _ HP i p _ Hsl eq_refl) as (? & _ & H & _). congruence. }
      exists x. rewrite Hre, decide_True by done. split_and!; done.
    + destruct (pl_owner _ _ _ _ _ _ HP t' x j q w Hx Hox) as (y & E1 & E2 & E3 & E4). eauto 7.
  - intros t1 t2 x1 x2 j q v1 v2 H1 H2 O1 O2. at_insert H1; at_insert H2; try done.
    + destruct (owns_inj _ _ _ _ i p v O1 ltac:(by left)) as (-> & -> & _). by edestruct Hfree.
    + destruct (owns_inj _ _ _ _ i p v O2 ltac:(by left)) as (-> & -> & _). by edestruct Hfree.
    + by apply (pl_unique _ _ _ _ _ _ HP t1 t2 x1 x2 j q v1 v2).
  - intros j q w Hr Hcj. rewrite Hre in Hr. case_decide as Hd.
    + destruct Hd as [-> ->]. injection Hr as <-. right. exists t, (PConstruct v i p).
      rewrite list_lookup_insert_eq by done. split; [done | by left].
    + destruct (pl_kept _ _ _ _ _ _ HP j q w Hr Hcj) as [|(t' & x & Hx & Hox)]; [by left|].
      right. exists t', x. split; [|done]. rewrite list_lookup_insert_ne; [done|].
      intros <-. rewrite Ht in Hx. injection Hx as <-. by destruct Hox.
Qed.

(** The owner of a slot writes it; it stays the owner, or publishes. *)
Lemma Places_write t st st' v i p (pub : bool) :
  ps !! t = Some st -> owns st i p v ->
  (forall j q, ce' j q = if decide (j = i /\ q = p) then Some (mkSlot pub (Some v)) else ce j q) ->
  (forall j q w, owns st' j q w <-> pub = false /\ j = i /\ q = p /\ w = v) ->
  Places ce' re hd pos (<[t := st']> ps) c.
Proof.
  intros Ht Hown Hce Hst'. destruct (pl_owner _ _ _ _ _ _ HP t st i p v Ht Hown) as (x0 & Hcell & _ & Hres & Hnc).
  assert (Hlt : (t < length ps)%nat) by (by eapply lookup_lt_Some).
  assert (Hother : forall t' x j q w, t' <> t -> ps !! t' = Some x -> owns x j q w -> ~ (j = i /\ q = p)).
  { intros t' x j q w Hne Hx Hox [-> ->]. by apply Hne, (pl_unique _ _ _ _ _ _ HP t' t x st i p w v). }
  split.
  - intros j q sl Hs Hr. rewrite Hce in Hs. case_decide as Hd.
    + destruct Hd as [-> ->]. injection Hs as <-. by exists v.
    + by apply (pl_ready _ _ _ _ _ _ HP j q).
  - intros t' x j q w Hx Hox. at_insert Hx.
    + apply Hst' in Hox as (-> & -> & -> & ->). exists (Some v). rewrite Hce, decide_True by done. by split_and!.
    + rewrite Hce, decide_False by (eapply Hother; eauto). by apply (pl_owner _ _ _ _ _ _ HP t' x).
  - intros t1 t2 x1 x2 j q v1 v2 H1 H2 O1 O2. at_insert H1; at_insert H2; try done.
    + apply Hst' in O1 as (_ & -> & -> & _). by edestruct Hother; eauto.
    + apply Hst' in O2 as (_ & -> & -> & _). by edestruct Hother; eauto.
    + by apply (pl_unique _ _ _ _ _ _ HP t1 t2 x1 x2 j q v1 v2).
  - intros j q w Hr Hc. destruct (decide (j = i /\ q = p)) as [[-> ->]|Hd].
    + rewrite Hres in Hr. injection Hr as <-. destruct pub.
      * left. exists (mkSlot true (Some v)). by rewrite Hce, decide_True.
      * right. exists t, st'. rewrite list_lookup_insert_eq by done. split; [done | by apply Hst'].
    + destruct (pl_kept _ _ _ _ _ _ HP j q w Hr Hc) as [(sl & Hs & Hr')|(t' & x & Hx & Hox)].
      * left. exists sl. by rewrite Hce, decide_False.
      * right. exists t', x. split; [|done]. rewrite list_lookup_insert_ne; [done|]. intros <-.
        rewrite Ht in Hx. injection Hx as <-. by destruct (owns_inj _ _ _ _ _ _ _ Hox Hown) as (-> & -> & _); destruct Hd.
  - intros Hc. destruct (pl_take _ _ _ _ _ _ HP Hc) as (sl & Hs & Hr). exists sl.
    rewrite Hce, decide_False; [done|]. intros [<- <-]. rewrite Hcell in Hs. injection Hs as <-. done.
Qed.

(** The consumer empties the slot at the head and steps over it. *)
Lemma Places_take c' :
  c = CTake -> c' <> CTake ->
  (forall j q, ce' j q = if decide (j = hd /\ q = pos) then Some (mkSlot false None) else ce j q) ->
  Places ce' re hd (S pos) ps c'.
Proof.
  intros Hc Hc' Hce. destruct (pl_take _ _ _ _ _ _ HP Hc) as (sl & Hsl & Hrdy).
  assert (Hstep : forall j q, ~ consumed hd (S pos) j q <-> ~ consumed hd pos j q /\ ~ (j = hd /\ q = pos))
    by (unfold consumed; lia).
  assert (Hfree : forall t x w, ps !! t = Some x -> ~ owns x hd pos w).
  { intros t x w Hx Hox. destruct (pl_owner _ _ _ _ _ _ HP t x hd pos w Hx Hox) as (y & E & _). rewrite Hsl in E.
    injection E as ->. done. }
  split; [| |apply HP | |done].
  - intros j q s' Hs Hr. rewrite Hce in Hs. case_decide as Hd; [by injection Hs as <-|].
    destruct (pl_ready _ _ _ _ _ _ HP j q s' Hs Hr) as (v & ? & ? & ?). exists v. rewrite Hstep. by split_and!.
  - intros t x j q w Hx Hox. assert (Hd : ~ (j = hd /\ q = pos)) by (intros [-> ->]; by eapply Hfree).
    rewrite Hce, decide_False by done.
    destruct (pl_owner _ _ _ _ _ _ HP t x j q w Hx Hox) as (y & ? & ? & ? & ?). exists y. rewrite Hstep. by split_and!.
  - intros j q w Hr Hn. apply Hstep in Hn as [Hn Hd]. rewrite Hce, decide_False by done. by apply (pl_kept _ _ _ _ _ _ HP).
Qed.

(** The consumer leaves a chunk that it has emptied. *)
Lemma Places_move c' :
  (forall p sl, ce hd p = Some sl -> (p < pos)%nat) -> c' <> CTake -> Places ce re (S hd) 0 ps c'.
Proof.
  intros Hend Hc'.
  assert (Hmono : forall j q, ~ consumed (S hd) 0 j q -> ~ consumed hd pos j q) by (unfold consumed; lia).
  assert (Hback : forall j q sl, ce j q = Some sl -> ~ consumed hd pos j q -> ~ consumed (S hd) 0 j q).
  { intros j q sl Hs Hn Hx. apply Hn. destruct (decide (j = hd)) as [->|]; [right; by eauto|]. unfold consumed in *. lia. }
  split; [| |apply HP | |done].
  - intros j q sl Hs Hr. destruct (pl_ready _ _ _ _ _ _ HP j q sl Hs Hr) as (v & ? & ? & ?). eauto 7.
  - intros t x j q w Hx Hox. destruct (pl_owner _ _ _ _ _ _ HP t x j q w Hx Hox) as (y & ? & ? & ? & ?). eauto 7.
  - intros j q w Hr Hn. apply (pl_kept _ _ _ _ _ _ HP); auto.
Qed.

(** The same slots, up to fresh ones. *)
Lemma Places_ext :
  (forall j q sl, ce j q = Some sl -> ce' j q = Some sl) ->
  (forall j q sl, ce' j q = Some sl -> ready sl = true -> ce j q = Some sl) ->
  (forall j q, re' j q = re j q) -> Places ce' re' hd pos ps c.
Proof.
  intros H1 H2 Hr. split; [| |apply HP | |].
  - intros j q sl Hs Hrd. rewrite Hr. apply (pl_ready _ _ _ _ _ _ HP j q sl); auto.
  - intros t x j q w Hx Hox. rewrite Hr.
    destruct (pl_owner _ _ _ _ _ _ HP t x j q w Hx Hox) as (y & ? & ? & ? & ?). eauto 7.
  - intros j q w Hw Hn. rewrite Hr in Hw.
    destruct (pl_kept _ _ _ _ _ _ HP j q w Hw Hn) as [(sl & ? & ?)|?]; [left; eauto | by right].
  - intros Hc. destruct (pl_take _ _ _ _ _ _ HP Hc) as (sl & ? & ?). eauto.
Qed.

(** The consumer moves on otherwise. *)
Lemma Places_consumer c' :
  (c' = CTake -> exists sl, ce hd pos = Some sl /\ ready sl = true) -> Places ce re hd pos ps c'.
Proof. intros Hc'. split; [apply HP.. | done]. Qed.
End Places.

(** *** Updates of a chunk *)

Section Update.
Variables (V : list Data) (i : nat) (d d' : Data).
Hypothesis Hi : V !! i = Some d.

Lemma cell_insert j q : cell (<[i := d']> V) j q = if decide (j = i) then d_slots d' !! q else cell V j q.
Proof using Hi.
  unfold cell. case_decide as E; [subst|by rewrite list_lookup_insert_ne].
  by rewrite list_lookup_insert_eq by (by eapply lookup_lt_Some).
Qed.

Lemma resv_insert j q : resv (<[i := d']> V) j q = if decide (j = i) then d_res d' !! q else resv V j q.
Proof using Hi.
  unfold resv. case_decide as E; [subst|by rewrite list_lookup_insert_ne].
  by rewrite list_lookup_insert_eq by (by eapply lookup_lt_Some).
Qed.

Lemma cell_here q : cell V i q = d_slots d !! q.
Proof using Hi. unfold cell. by rewrite Hi. Qed.

Lemma resv_here q : resv V i q = d_res d !! q.
Proof using Hi. unfold resv. by rewrite Hi. Qed.

Lemma same_res : d_res d' = d_res d -> map d_res (<[i := d']> V) = map d_res V.
Proof using Hi.
  intros E. change (map d_res) with (fmap (M := list) d_res). rewrite list_fmap_insert, E.
  apply list_insert_id. by rewrite list_lookup_fmap, Hi.
Qed.

Lemma Shape_insert hd pos ps c out :
  Shape V hd pos ps c out -> length (d_slots d') = ChunkSize -> length (d_res d') = Nat.min (d_idx d') ChunkSize ->
  (d_idx d <= d_idx d')%nat -> d_res d `prefix_of` d_res d' -> (d_res d' = d_res d \/ (hd <= i)%nat) ->
  Shape (<[i := d']> V) hd pos ps c out.
Proof using Hi.
  intros H Hs Hr Hle [ext Hext] Hch. assert (Hil : (i < length V)%nat) by (by eapply lookup_lt_Some). split.
  - intros j e Hj. at_insert Hj; [done|]. by apply (sh_len _ _ _ _ _ _ H j).
  - intros j e Hj Hl. rewrite length_insert in Hl. at_insert Hj; [|by apply (sh_full _ _ _ _ _ _ H j)].
    pose proof (sh_full _ _ _ _ _ _ H i d Hi Hl). lia.
  - destruct (sh_out _ _ _ _ _ _ H) as (e & He & Hp & ->).
    assert (E : map d_res (take hd (<[i := d']> V)) = map d_res (take hd V)).
    { destruct Hch as [Hd|Hd]; [|by rewrite take_insert_ge by lia].
      change (map d_res) with (fmap (M := list) d_res). rewrite !fmap_take. f_equal. by apply same_res. }
    rewrite E. destruct (decide (hd = i)) as [->|Hne].
    + rewrite Hi in He. injection He as <-. exists d'. rewrite list_lookup_insert_eq by done. split; [done|].
      rewrite Hext, length_app, take_app_le by lia. split; [lia | done].
    + exists e. by rewrite list_lookup_insert_ne.
  - intros t st Ht. pose proof (sh_producers _ _ _ _ _ _ H t st Ht) as Hok.
    assert (Hm : forall cur, (exists e, V !! cur = Some e /\ (ChunkSize <= d_idx e)%nat) ->
      exists e, <[i := d']> V !! cur = Some e /\ (ChunkSize <= d_idx e)%nat).
    { intros cur (e & He & Hc). destruct (decide (cur = i)) as [->|Hne].
      - rewrite Hi in He. injection He as <-. exists d'. rewrite list_lookup_insert_eq by done. split; [done | lia].
      - exists e. by rewrite list_lookup_insert_ne. }
    destruct st; simpl in *; auto.
  - pose proof (sh_consumer _ _ _ _ _ _ H). destruct c; simpl in *; rewrite ?length_insert; done.
Qed.
End Update.

(** A chunk with a free slot is the last one. *)
Lemma last_chunk V hd pos ps c out i d :
  Shape V hd pos ps c out -> V !! i = Some d -> (d_idx d < ChunkSize)%nat -> S i = length V /\ (hd <= i)%nat.
Proof.
  intros H Hd Hlt. pose proof (lookup_lt_Some _ _ _ Hd).
  assert (S i = length V).
  { destruct (decide (S i < length V)%nat) as [Hl|]; [|lia]. pose proof (sh_full _ _ _ _ _ _ H i d Hd Hl). lia. }
  split; [done|]. destruct (sh_out _ _ _ _ _ _ H) as (d' & Hh & _). apply lookup_lt_Some in Hh. lia.
Qed.

Lemma Shape_producer V hd pos ps c out t st' :
  Shape V hd pos ps c out -> producer_ok V st' -> Shape V hd pos (<[t := st']> ps) c out.
Proof.
  intros H Hok. split; try apply H. intros t' x Hx. at_insert Hx; [done|]. by apply (sh_producers _ _ _ _ _ _ H t').
Qed.

Lemma Shape_link V hd pos ps c out cur d n :
  Shape V hd pos ps c out -> V !! cur = Some d -> (ChunkSize <= d_idx d)%nat -> S cur = length V ->
  data n = mkData 0 (replicate ChunkSize (mkSlot false None)) [] ->
  Shape (V ++ [data n]) hd pos ps c out.
Proof.
  intros H Hd Hf Hlast ->. split.
  - intros i e He. apply lookup_app_Some in He as [He|[_ He]]; [by apply (sh_len _ _ _ _ _ _ H i)|].
    apply list_lookup_singleton_Some in He as [_ <-]. simpl. by rewrite length_replicate.
  - intros i e He Hl. rewrite length_app in Hl. simpl in Hl. apply lookup_app_Some in He as [He|[Hge _]]; [|lia].
    destruct (decide (i = cur)) as [->|Hne]; [by rewrite Hd in He; injection He as <-|].
    apply (sh_full _ _ _ _ _ _ H i e He). lia.
  - destruct (sh_out _ _ _ _ _ _ H) as (e & He & Hp & ->). exists e. pose proof (lookup_lt_Some _ _ _ He).
    rewrite lookup_app_l, take_app_le by lia. done.
  - intros t st Ht. pose proof (sh_producers _ _ _ _ _ _ H t st Ht) as Hok.
    destruct st; simpl in *; try done; destruct Hok as (e & He & Hc); exists e; by rewrite (lookup_app_l_Some _ _ _ _ He).
  - pose proof (sh_consumer _ _ _ _ _ _ H). destruct c; simpl in *; rewrite ?length_app; try done. simpl. lia.
Qed.

(** *** Steps *)

Lemma live_view c q ch : live c q = Some ch -> view q !! c = Some (data ch).
Proof.
  unfold live, view. destruct (chunks q !! c) as [x|] eqn:E; [|done]. simpl. destruct (freed x); [done|].
  intros [= ->]. by rewrite list_lookup_fmap, E.
Qed.

Lemma upd_insert c f q q' :
  upd c f q = Some q' ->
  exists ch, live c q = Some ch /\ view q !! c = Some (data ch) /\ view q' = <[c := data (f ch)]> (view q).
Proof.
  intros E. destruct (upd_view c f q q' E) as (ch & Hc & Hv & _). exists ch.
  assert (Hl : live c q = Some ch).
  { unfold upd in E. destruct (live c q) as [x|] eqn:El; [|done]. pose proof (live_view c q x El) as Hx.
    unfold live in El. rewrite Hc in El. simpl in El. by destruct (freed ch). }
  split_and!; [done | by apply live_view | done].
Qed.

(** A step that leaves the slots and the reservations alone. *)
Lemma inv_move s t st st' q :
  inv s -> producers s !! t = Some st -> view q = view (queue s) ->
  (forall i p v, owns st' i p v <-> owns st i p v) -> (forall i p v, st' = PPublish v i p -> st = st') ->
  producer_ok (view q) st' -> inv (set_producer q t st' s).
Proof.
  intros [HP HS] Ht Hq Ho Hp Hok. unfold inv. cbn. rewrite Hq in *.
  split; [by eapply Places_producer | by apply Shape_producer].
Qed.

Lemma no_owner (st : PState) :
  match st with PConstruct _ _ _ | PPublish _ _ _ => False | _ => True end -> forall i p v, ~ owns st i p v.
Proof. intros H i p v [-> | ->]; done. Qed.

Lemma inv_free_move s t st st' q :
  inv s -> producers s !! t = Some st -> view q = view (queue s) ->
  match st with PConstruct _ _ _ | PPublish _ _ _ => False | _ => True end ->
  match st' with PConstruct _ _ _ | PPublish _ _ _ => False | _ => True end ->
  producer_ok (view q) st' -> inv (set_producer q t st' s).
Proof.
  intros Hi Ht Hq H1 H2 Hok. eapply inv_move; try done.
  - intros i p v. pose proof (no_owner st H1 i p v). pose proof (no_owner st' H2 i p v). tauto.
  - intros i p v ->. done.
Qed.

Lemma Shape_head V hd pos ps c out : Shape V hd pos ps c out -> (hd < length V)%nat.
Proof. intros H. destruct (sh_out _ _ _ _ _ _ H) as (d & Hd & _). by eapply lookup_lt_Some. Qed.

Lemma reserve_inv s t v cur ch q :
  inv s -> producers s !! t = Some (PReserve v cur) -> live cur (queue s) = Some ch ->
  upd cur (reserve v) (queue s) = Some q ->
  inv (set_producer q t (if (idx ch <? ChunkSize)%nat then PConstruct v cur (idx ch) else PLoadNext v cur) s).
Proof.
  intros [HP HS] Ht Hl E. destruct (upd_insert _ _ _ _ E) as (x & Hl' & Hv & Hq). rewrite Hl in Hl'. injection Hl' as <-.
  set (V := view (queue s)) in *. set (d' := data (reserve v ch)) in *.
  destruct (sh_len _ _ _ _ _ _ HS _ _ Hv) as [Hsl Hres]. simpl in Hsl, Hres.
  pose proof (Shape_head _ _ _ _ _ _ HS) as Hhd.
  assert (Hcell : forall j p, cell (<[cur := d']> V) j p = cell V j p).
  { intros j p. rewrite (cell_insert _ _ _ _ Hv). case_decide as Ed; [subst|done]. by rewrite (cell_here _ _ _ Hv). }
  destruct (Nat.ltb_spec (idx ch) ChunkSize) as [Hlt|Hge]; unfold inv; cbn; rewrite Hq; split.
  - destruct (last_chunk _ _ _ _ _ _ _ _ HS Hv Hlt) as [Hlast Hle]. rewrite Nat.min_l in Hres by lia.
    eapply (Places_ext _ _ _ (resv (<[cur := d']> V))); [|by intros; rewrite Hcell | by intros j p sl; rewrite Hcell | done].
    eapply (Places_reserve _ _ _ _ _ _ _ HP t v cur (idx ch)); try done.
    + intros j p. rewrite (resv_insert _ _ _ _ Hv). unfold d'. simpl. rewrite (proj2 (Nat.ltb_lt _ _) Hlt).
      destruct (decide (j = cur)) as [->|Hne]; [|by rewrite decide_False by tauto]. rewrite (resv_here _ _ _ Hv). simpl.
      destruct (decide (cur = cur /\ p = idx ch)) as [[_ ->]|Hp].
      * by rewrite lookup_app_r, Hres, Nat.sub_diag by lia.
      * destruct (decide (p < idx ch)%nat); [by rewrite lookup_app_l by lia|].
        rewrite !lookup_ge_None_2; [done | lia | rewrite length_app; simpl; lia].
    + rewrite (resv_here _ _ _ Hv). apply lookup_ge_None_2. simpl. lia.
    + rewrite (cell_here _ _ _ Hv). apply lookup_lt_is_Some_2. simpl. lia.
    + intros [?|[-> ?]]; [lia|]. destruct (sh_out _ _ _ _ _ _ HS) as (e & He & Hp & _).
      rewrite Hv in He. injection He as <-. simpl in Hp. lia.
  - destruct (last_chunk _ _ _ _ _ _ _ _ HS Hv Hlt) as [Hlast Hle]. apply Shape_producer; [|done].
    assert (Hd' : d' = mkData (S (idx ch)) (slots ch) (reserved ch ++ [v]))
      by (unfold d', reserve, data; simpl; by rewrite (proj2 (Nat.ltb_lt _ _) Hlt)).
    rewrite Hd'. apply (Shape_insert _ _ _ _ Hv); cbn [d_slots d_res d_idx data]; [done | done | | lia | by apply prefix_app_r | by right].
    rewrite length_app. cbn [length]. lia.
  - eapply Places_producer; [|done | by intros i p w; split; intros [?|?] | done].
    eapply Places_ext; [done | by intros j p sl; rewrite Hcell | by intros j p sl; rewrite Hcell |].
    intros j p. rewrite (resv_insert _ _ _ _ Hv). unfold d'. simpl. rewrite (proj2 (Nat.ltb_ge _ _) Hge).
    case_decide as Ed; [subst|done]. by rewrite (resv_here _ _ _ Hv).
  - apply Shape_producer.
    + assert (Hd' : d' = mkData (S (idx ch)) (slots ch) (reserved ch))
        by (unfold d', reserve, data; simpl; by rewrite (proj2 (Nat.ltb_ge _ _) Hge)).
      rewrite Hd'. apply (Shape_insert _ _ _ _ Hv); cbn [d_slots d_res d_idx data]; [done | done | lia | lia | done | by left].
    + simpl. exists d'. rewrite list_lookup_insert_eq by (by eapply lookup_lt_Some). split; [done|]. unfold d'. simpl. lia.
Qed.

(** The owner of a slot writes it ([f] is the construction or the publication). *)
Lemma write_inv s t st st' v cur p f q (pub : bool) :
  inv s -> producers s !! t = Some st -> owns st cur p v -> upd cur f (queue s) = Some q ->
  (forall ch x, slots ch !! p = Some (mkSlot false x) -> (st = PPublish v cur p -> x = Some v) ->
     data (f ch) = mkData (idx ch) (<[p := mkSlot pub (Some v)]> (slots ch)) (reserved ch)) ->
  (forall j r w, owns st' j r w <-> pub = false /\ j = cur /\ r = p /\ w = v) -> producer_ok (view q) st' ->
  inv (set_producer q t st' s).
Proof.
  intros [HP HS] Ht Hown E Hf Hst' Hok. destruct (upd_insert _ _ _ _ E) as (ch & _ & Hv & Hq).
  destruct (pl_owner _ _ _ _ _ _ HP t st cur p v Ht Hown) as (x & Hc & Hx & _).
  rewrite (cell_here _ _ _ Hv) in Hc. simpl in Hc. rewrite (Hf ch x Hc Hx) in Hq.
  unfold inv. cbn. rewrite Hq in *. split.
  - eapply (Places_ext (fun j r => if decide (j = cur /\ r = p) then Some (mkSlot pub (Some v)) else cell (view (queue s)) j r) _ (resv (view (queue s)))).
    + eapply Places_write; try done.
    + intros j r sl. rewrite (cell_insert _ _ _ _ Hv). simpl. destruct (decide (j = cur)) as [->|Hne]; [|by rewrite decide_False by tauto].
      rewrite (cell_here _ _ _ Hv). simpl. destruct (decide (cur = cur /\ r = p)) as [[_ ->]|Hr].
      * intros [= <-]. apply list_lookup_insert_eq. by eapply lookup_lt_Some.
      * rewrite list_lookup_insert_ne by (intros ->; tauto). done.
    + intros j r sl. rewrite (cell_insert _ _ _ _ Hv). simpl. destruct (decide (j = cur)) as [->|Hne]; [|by rewrite decide_False by tauto].
      rewrite (cell_here _ _ _ Hv). simpl. destruct (decide (cur = cur /\ r = p)) as [[_ ->]|Hr].
      * rewrite list_lookup_insert_eq by (by eapply lookup_lt_Some). done.
      * rewrite list_lookup_insert_ne by (intros ->; tauto). done.
    + intros j r. rewrite (resv_insert _ _ _ _ Hv). simpl. case_decide as Ej; [subst|done]. by rewrite (resv_here _ _ _ Hv).
  - destruct (sh_len _ _ _ _ _ _ HS _ _ Hv) as [Hsl Hres]. apply Shape_producer; [|done].
    apply (Shape_insert _ _ _ _ Hv); cbn [d_slots d_res d_idx data] in *; [done | by rewrite length_insert | done | done | done | by left].
Qed.

Lemma link_inv s t v cur :
  inv s -> producers s !! t = Some (PLinkNext v cur) -> next_of cur (queue s) = None ->
  inv (set_producer (mkQueue (chunks (queue s) ++ [new_chunk 0]) (tail_ (queue s))) t (PSwingTail v cur (S cur)) s).
Proof.
  intros [HP HS] Ht Hn. destruct (sh_producers _ _ _ _ _ _ HS t _ Ht) as (d & Hd & Hf).
  assert (Hlast : S cur = length (view (queue s))).
  { pose proof (lookup_lt_Some _ _ _ Hd). unfold next_of, view in *. rewrite length_map in *.
    destruct (Nat.ltb_spec (S cur) (length (chunks (queue s)))); [done | lia]. }
  assert (Hv : view (mkQueue (chunks (queue s) ++ [new_chunk 0]) (tail_ (queue s))) = view (queue s) ++ [data (new_chunk 0)])
    by (unfold view; cbn [chunks]; by rewrite map_app).
  unfold inv. cbn [queue set_producer head_ head_pos_ producers consumer dequeued]. rewrite Hv. split.
  - eapply Places_producer; [|done | by intros i p w; split; intros [?|?] | done].
    eapply Places_ext; [done | | |]; unfold cell, resv.
    + intros j p sl H. destruct (view (queue s) !! j) as [e|] eqn:E; [|done]. by rewrite (lookup_app_l_Some _ _ _ _ E).
    + intros j p sl H Hr. destruct ((view (queue s) ++ _) !! j) as [e|] eqn:E; [|done].
      apply lookup_app_Some in E as [->|[_ E]]; [done|]. apply list_lookup_singleton_Some in E as [_ <-].
      simpl in H. apply lookup_replicate in H as [-> _]. done.
    + intros j p. destruct (decide (j < length (view (queue s)))%nat); [by rewrite lookup_app_l|].
      rewrite lookup_app_r by lia. rewrite (lookup_ge_None_2 (view (queue s))) by lia.
      destruct (j - length (view (queue s)))%nat as [|k]; [done | by destruct k].
  - apply Shape_producer; [|done]. by eapply Shape_link.
Qed.

Lemma producer_inv s t st q st' :
  inv s -> producers s !! t = Some st -> producer_step (queue s) st = Some (q, st') -> inv (set_producer q t st' s).
Proof.
  intros Hi Ht Hs. assert (Hold := sh_producers _ _ _ _ _ _ (proj2 Hi) t st Ht).
  assert (Hrefs : forall cur k q', upd cur (add_refs k) (queue s) = Some q' -> view q' = view (queue s))
    by (intros cur k q' Hu; by apply (upd_same cur (add_refs k) (queue s) q')).
  destruct st; simpl in Hs;
    try (repeat (apply bind_Some in Hs as (? & ? & Hs)); repeat case_match; simplify_eq;
         solve [eapply inv_free_move; eauto; done]).
  - apply bind_Some in Hs as (ch & Hl & Hs). apply bind_Some in Hs as (q' & Hu & Hs). simplify_eq. by apply reserve_inv.
  - apply bind_Some in Hs as (q' & Hu & Hs). simplify_eq.
    eapply (write_inv s t _ _ input cur pos _ _ false Hi Ht ltac:(by left) Hu); [done | | done].
    intros j r w. split; [intros [|] | intros (_ & -> & -> & ->); by right]; by simplify_eq.
  - apply bind_Some in Hs as (q' & Hu & Hs). simplify_eq.
    eapply (write_inv s t _ _ input cur pos _ _ true Hi Ht ltac:(by right) Hu); [| | done].
    + intros ch x Hx Hst. specialize (Hst eq_refl). subst x. unfold data, publish. simpl. f_equal.
      rewrite list_insert_alter. apply list_alter_ext; [|done]. intros y Hy. rewrite Hx in Hy. by injection Hy as <-.
    + intros j r w. split; [intros [Hx|Hx] | intros [Hx _]]; discriminate Hx.
  - apply bind_Some in Hs as (ch & Hl & Hs). destruct (next_of cur (queue s)) as [n|] eqn:En; simplify_eq.
    + by eapply inv_free_move.
    + by apply link_inv.
Qed.

(** *** The consumer *)

Lemma Shape_consumer V hd pos ps c c' out :
  Shape V hd pos ps c out ->
  match c' with
  | CLoadNext => pos = ChunkSize
  | CMove next => pos = ChunkSize /\ next = S hd /\ (S hd < length V)%nat
  | _ => True
  end -> Shape V hd pos ps c' out.
Proof. intros H Hc'. split; [apply H.. | done]. Qed.

Lemma Shape_pos V hd pos ps c out d :
  Shape V hd pos ps c out -> V !! hd = Some d -> (pos <= length (d_res d) <= ChunkSize)%nat.
Proof.
  intros H Hd. destruct (sh_out _ _ _ _ _ _ H) as (e & He & Hp & _). rewrite Hd in He. injection He as <-.
  destruct (sh_len _ _ _ _ _ _ H hd d Hd) as [_ Hl]. lia.
Qed.

(** A consumer step that leaves the slots alone. *)
Lemma consumer_move s q ret count c' :
  inv s -> view q = view (queue s) ->
  (c' = CTake -> exists sl, cell (view (queue s)) (head_ s) (head_pos_ s) = Some sl /\ ready sl = true) ->
  match c' with
  | CLoadNext => head_pos_ s = ChunkSize
  | CMove next => head_pos_ s = ChunkSize /\ next = S (head_ s) /\ (S (head_ s) < length (view (queue s)))%nat
  | _ => True
  end ->
  inv (mkSys q (head_ s) (head_pos_ s) ret count (producers s) c' (dequeued s)).
Proof.
  intros [HP HS] Hq Ht Hc. unfold inv. cbn. rewrite Hq.
  split; [by eapply Places_consumer | by eapply Shape_consumer].
Qed.

Lemma slot_cell c p q sl : slot_at c p q = Some sl -> cell (view q) c p = Some sl.
Proof.
  unfold slot_at. intros Hs. apply bind_Some in Hs as (ch & Hl & Hs). unfold cell. by rewrite (live_view _ _ _ Hl).
Qed.

Lemma mpsc_take_inv s q sl out c' :
  inv s -> consumer s = CTake -> slot_at (head_ s) (head_pos_ s) (queue s) = Some sl -> storage sl = Some out ->
  upd (head_ s) (set_slot (head_pos_ s) (mkSlot false None)) (queue s) = Some q ->
  c' = (if (S (head_pos_ s) =? ChunkSize)%nat then CLoadNext else CIdle) ->
  inv (mkSys q (head_ s) (S (head_pos_ s)) (retired s) (retired_count_ s) (producers s) c' (dequeued s ++ [out])).
Proof.
  intros [HP HS] Hc Hsl Hst E ->. apply slot_cell in Hsl. destruct (upd_insert _ _ _ _ E) as (ch & _ & Hv & Hq).
  assert (Hsl' := Hsl). rewrite (cell_here _ _ _ Hv) in Hsl'. simpl in Hsl'.
  destruct (pl_take _ _ _ _ _ _ HP Hc) as (sl' & Hsl2 & Hr). rewrite Hsl in Hsl2. injection Hsl2 as <-.
  destruct (pl_ready _ _ _ _ _ _ HP _ _ _ Hsl Hr) as (v & Hv1 & Hres & _). rewrite Hst in Hv1. injection Hv1 as <-.
  rewrite (resv_here _ _ _ Hv) in Hres. simpl in Hres. unfold inv. cbn [queue head_ head_pos_ producers consumer dequeued].
  rewrite Hq. split.
  - eapply (Places_ext (fun j r => if decide (j = head_ s /\ r = head_pos_ s) then Some (mkSlot false None) else cell (view (queue s)) j r) _ (resv (view (queue s)))).
    + eapply Places_take; [done | done | by case_match | done].
    + intros j r x. rewrite (cell_insert _ _ _ _ Hv). destruct (decide (j = head_ s)) as [->|Hne]; [|by rewrite decide_False by tauto].
      rewrite (cell_here _ _ _ Hv). cbn. destruct (decide (head_ s = head_ s /\ r = head_pos_ s)) as [[_ ->]|Hn].
      * intros [= <-]. apply list_lookup_insert_eq. by eapply lookup_lt_Some.
      * by rewrite list_lookup_insert_ne by (intros <-; tauto).
    + intros j r x. rewrite (cell_insert _ _ _ _ Hv). destruct (decide (j = head_ s)) as [->|Hne]; [|by rewrite decide_False by tauto].
      rewrite (cell_here _ _ _ Hv). cbn. destruct (decide (head_ s = head_ s /\ r = head_pos_ s)) as [[_ ->]|Hn].
      * rewrite list_lookup_insert_eq by (by eapply lookup_lt_Some). done.
      * by rewrite list_lookup_insert_ne by (intros <-; tauto).
    + intros j r. rewrite (resv_insert _ _ _ _ Hv). simpl. case_decide as Ej; [subst|done]. by rewrite (resv_here _ _ _ Hv).
  - destruct (sh_len _ _ _ _ _ _ HS _ _ Hv) as [Hls Hlr].
    assert (HS' : Shape (<[head_ s := data (set_slot (head_pos_ s) (mkSlot false None) ch)]> (view (queue s)))
      (head_ s) (head_pos_ s) (producers s) (consumer s) (dequeued s)).
    { apply (Shape_insert _ _ _ _ Hv); cbn [d_slots d_res d_idx data set_slot slots idx reserved] in *;
        [done | by rewrite length_insert | done | done | done | by left]. }
    split; try apply HS'.
    + destruct (sh_out _ _ _ _ _ _ HS') as (d & Hd & Hp & ->). exists d. split; [done|].
      rewrite list_lookup_insert_eq in Hd by (by eapply lookup_lt_Some). injection Hd as <-. cbn in *.
      pose proof (lookup_lt_Some _ _ _ Hres). split; [lia|]. by rewrite (take_S_r _ _ _ Hres), app_assoc.
    + destruct (Nat.eqb_spec (S (head_pos_ s)) ChunkSize); done.
Qed.

Lemma move_inv s q next ret count c' :
  inv s -> consumer s = CMove next -> view q = view (queue s) ->
  match c' with CTake | CLoadNext | CMove _ => False | _ => True end ->
  inv (mkSys q next 0 ret count (producers s) c' (dequeued s)).
Proof.
  intros [HP HS] Hc Hq Hc'. pose proof (sh_consumer _ _ _ _ _ _ HS) as Hok. rewrite Hc in Hok.
  destruct Hok as (Hpos & -> & Hlen). unfold inv. cbn. rewrite Hq. split.
  - eapply Places_move; [done | | by intros ->]. intros p sl Hs. rewrite Hpos. unfold cell in Hs.
    destruct (view (queue s) !! head_ s) as [d|] eqn:E; [|done]. destruct (sh_len _ _ _ _ _ _ HS _ _ E) as [<- _].
    by eapply lookup_lt_Some.
  - destruct (sh_out _ _ _ _ _ _ HS) as (d & Hd & Hp & Hout). pose proof (Shape_pos _ _ _ _ _ _ _ HS Hd).
    destruct (lookup_lt_is_Some_2 _ _ Hlen) as [d' Hd'].
    split; try apply HS; [|by destruct c'].
    exists d'. split; [done|]. split; [lia|]. rewrite (take_S_r _ _ _ Hd), map_app, concat_app, Hout. simpl.
    rewrite (take_ge (d_res d)) by lia. by rewrite !app_nil_r.
Qed.

Lemma consumer_inv s s' : inv s -> consumer_step s = Some s' -> inv s'.
Proof.
  intros Hi. unfold consumer_step, retire_chunk, try_reclaim, scan, goto, set_consumer. destruct (consumer s) as [| | | | | | [|node l] keep] eqn:Ec; intros Hs.
  - destruct (Nat.ltb_spec (head_pos_ s) ChunkSize) as [Hlt|Hge].
    + apply bind_Some in Hs as (sl & Hsl & [= <-]). apply slot_cell in Hsl.
      apply consumer_move; [done | done | | by destruct (ready sl)]. intros H. exists sl. split; [done | by destruct (ready sl)].
    + injection Hs as <-. destruct Hi as [HP HS]. destruct (sh_out _ _ _ _ _ _ HS) as (d & Hd & _).
      pose proof (Shape_pos _ _ _ _ _ _ _ HS Hd). apply consumer_move; [done.. | lia].
  - apply bind_Some in Hs as (sl & Hsl & Hs). apply bind_Some in Hs as (out & Hst & Hs).
    apply bind_Some in Hs as (q & Hq & [= <-]). by eapply mpsc_take_inv.
  - apply bind_Some in Hs as (ch & Hl & [= <-]). apply consumer_move; [done | done | by destruct (next_of _ _)|].
    unfold next_of. destruct (Nat.ltb_spec (S (head_ s)) (length (chunks (queue s)))); [|done].
    pose proof (sh_consumer _ _ _ _ _ _ (proj2 Hi)) as Hok. rewrite Ec in Hok.
    unfold view. by rewrite length_map.
  - apply bind_Some in Hs as (q & Hq & [= <-]). eapply move_inv; [done | done | | done].
    by apply (upd_same next (add_refs 1) (queue s) q).
  - apply bind_Some in Hs as (q & Hq & [= <-]). apply consumer_move; [done | | done | done].
    by apply (upd_same old (add_refs (-1)) (queue s) q).
  - injection Hs as <-. case_match; by apply consumer_move.
  - injection Hs as <-. by apply consumer_move.
  - apply bind_Some in Hs as (ch & Hl & Hs). destruct (refs ch =? 0).
    + apply bind_Some in Hs as (q & Hq & [= <-]). apply consumer_move; [done | | done | done].
      by apply (upd_same node free_chunk (queue s) q).
    + injection Hs as <-. by apply consumer_move.
Qed.

Lemma new_inv threads : inv (new_sys threads).
Proof.
  assert (Hcell : forall i p sl, cell [data (new_chunk 2)] i p = Some sl -> sl = mkSlot false None).
  { intros i p sl H. unfold cell in H. destruct i as [|i]; [|done]. simpl in H. by apply lookup_replicate in H as [-> _]. }
  assert (Hresv : forall i p, resv [data (new_chunk 2)] i p = None) by (intros [|i] p; done).
  assert (Hidle : forall t st, replicate threads PIdle !! t = Some st -> st = PIdle)
    by (intros t st H; by apply lookup_replicate in H as [-> _]).
  split; split; simpl.
  - intros i p sl H Hr. apply Hcell in H as ->. done.
  - intros t st i p v H Ho. apply Hidle in H as ->. by destruct Ho.
  - intros t t' st st' i p v v' H _ Ho. apply Hidle in H as ->. by destruct Ho.
  - intros i p v H. by rewrite Hresv in H.
  - done.
  - intros i d H. apply list_lookup_singleton_Some in H as [_ <-]. simpl. by rewrite length_replicate.
  - intros i d H Hl. simpl in Hl. lia.
  - by exists (data (new_chunk 2)).
  - intros t st H. by apply Hidle in H as ->.
  - done.
Qed.

Lemma act_inv a s s' : inv s -> act a s = Some s' -> inv s'.
Proof.
  intros Hi. destruct a as [t v|t|]; simpl; [| |by apply consumer_inv]; intros Hs.
  - apply bind_Some in Hs as (p & Hp & Hs). destruct p; simplify_eq; try done. by eapply inv_free_move.
  - apply bind_Some in Hs as (p & Hp & Hs). apply bind_Some in Hs as ([q p'] & Hst & [= <-]). by eapply producer_inv.
Qed.

Lemma reachable_inv s : reachable s -> inv s.
Proof. induction 1; [apply new_inv | by eapply act_inv]. Qed.

(** *** Order *)

Lemma order_view s : order s = concat (map d_res (view (queue s))).
Proof. unfold order, view. by rewrite map_map. Qed.

Lemma order_split s d :
  view (queue s) !! head_ s = Some d ->
  order s = concat (map d_res (take (head_ s) (view (queue s)))) ++ d_res d ++
            concat (map d_res (drop (S (head_ s)) (view (queue s)))).
Proof.
  intros Hd. rewrite order_view. rewrite <-(take_drop_middle _ _ _ Hd) at 1. by rewrite map_app, concat_app.
Qed.

Lemma producer_order s t st q st' :
  inv s -> producers s !! t = Some st -> producer_step (queue s) st = Some (q, st') ->
  order (set_producer q t st' s) = order s \/
  exists v cur, st = PReserve v cur /\ order (set_producer q t st' s) = order s ++ [v].
Proof.
  intros [HP HS] Ht Hs. rewrite !order_view. cbn [queue set_producer].
  assert (Hsame : forall q', map d_res (view q') = map d_res (view (queue s)) ->
    concat (map d_res (view q')) = concat (map d_res (view (queue s)))) by congruence.
  assert (Hupd : forall cur f q', (forall ch, reserved (f ch) = reserved ch) -> upd cur f (queue s) = Some q' ->
    map d_res (view q') = map d_res (view (queue s))).
  { intros cur f q' Hf Hu. destruct (upd_insert _ _ _ _ Hu) as (ch & _ & Hv & ->). apply (same_res _ _ _ _ Hv). apply Hf. }
  destruct st; simpl in Hs;
    try (left; apply Hsame; repeat (apply bind_Some in Hs as (? & ? & Hs)); repeat case_match; simplify_eq;
         solve [done | eapply Hupd; [|done]; done]).
  - apply bind_Some in Hs as (ch & Hl & Hs). apply bind_Some in Hs as (q' & Hu & Hs). simplify_eq.
    destruct (upd_insert _ _ _ _ Hu) as (x & Hl' & Hv & Hq). rewrite Hl in Hl'. injection Hl' as <-. rewrite Hq.
    destruct (Nat.ltb_spec (idx ch) ChunkSize) as [Hlt|Hge].
    + right. exists input, cur. split; [done|]. destruct (last_chunk _ _ _ _ _ _ _ _ HS Hv Hlt) as [Hlast _].
      rewrite insert_take_drop by lia. rewrite <-(take_drop_middle _ _ _ Hv) at 3. rewrite !drop_ge by lia.
      rewrite !map_app, !concat_app. simpl. rewrite (proj2 (Nat.ltb_lt _ _) Hlt). by rewrite !app_nil_r, app_assoc.
    + left. f_equal. apply (same_res _ _ _ _ Hv). simpl. by rewrite (proj2 (Nat.ltb_ge _ _) Hge).
  - left. apply bind_Some in Hs as (ch & Hl & Hs). destruct (next_of cur (queue s)); simplify_eq; [done|].
    unfold view. cbn [chunks]. rewrite !map_app, concat_app. simpl. by rewrite app_nil_r.
Qed.

Lemma consumer_order s s' : consumer_step s = Some s' -> order s' = order s.
Proof.
  assert (Hupd : forall cur f q', (forall ch, reserved (f ch) = reserved ch) -> upd cur f (queue s) = Some q' ->
    concat (map d_res (view q')) = concat (map d_res (view (queue s)))).
  { intros cur f q' Hf Hu. destruct (upd_insert _ _ _ _ Hu) as (ch & _ & Hv & ->). f_equal. apply (same_res _ _ _ _ Hv). apply Hf. }
  rewrite !order_view. unfold consumer_step, retire_chunk, try_reclaim, scan, goto, set_consumer.
  destruct (consumer s) as [| | | | | | [|node l] keep]; intros Hs;
    repeat (apply bind_Some in Hs as (? & ? & Hs)); repeat case_match; simplify_eq; try done;
    repeat (apply bind_Some in Hs as (? & ? & Hs)); simplify_eq; try done;
    by (eapply Hupd; [|done]).
Qed.

(** C11: refinement.  The queue is first in, first out, for every interleaving
    of any number of producers with the consumer: what has been dequeued is a
    prefix of the items in the order in which their slots were reserved, and
    this order only grows at its end, by the item of a producer that reserves. *)
Theorem mpsc_fifo s :
  reachable s ->
  dequeued s `prefix_of` order s /\
  forall a s', act a s = Some s' ->
    order s' = order s \/
    exists t v cur, a = Producer t /\ producers s !! t = Some (PReserve v cur) /\ order s' = order s ++ [v].
Proof.
  intros Hr. apply reachable_inv in Hr as Hi. split.
  - destruct (sh_out _ _ _ _ _ _ (proj2 Hi)) as (d & Hd & Hp & ->). rewrite (order_split s d Hd).
    apply prefix_app. eexists. rewrite <-(take_drop (head_pos_ s) (d_res d)) at 1. by rewrite <-app_assoc.
  - intros [t v|t|] s' Hs; simpl in Hs.
    + left. apply bind_Some in Hs as (p & Hp & Hs). by destruct p; simplify_eq.
    + apply bind_Some in Hs as (p & Hp & Hs). apply bind_Some in Hs as ([q p'] & Hst & [= <-]).
      destruct (producer_order s t p q p' Hi Hp Hst) as [?|(v & cur & -> & ?)]; [by left | right; eauto 7].
    + left. by apply consumer_order.
Qed.

(** No item is lost: when no producer is between its reservation and its
    publication, the next item in the order is published at the head, or is in
    the chunk after it. *)
Theorem mpsc_nothing_lost s v rest :
  reachable s -> (forall t st i p w, producers s !! t = Some st -> ~ owns st i p w) ->
  order s = dequeued s ++ v :: rest ->
  (exists ch, chunks (queue s) !! head_ s = Some ch /\
     slots ch !! head_pos_ s = Some (mkSlot true (Some v))) \/
  (head_pos_ s = ChunkSize /\ (S (head_ s) < length (chunks (queue s)))%nat).
Proof.
  intros Hr Hq Ho. apply reachable_inv in Hr as [HP HS].
  destruct (sh_out _ _ _ _ _ _ HS) as (d & Hd & Hp & Hout). destruct (Shape_pos _ _ _ _ _ _ _ HS Hd) as [_ Hc].
  rewrite (order_split s d Hd), Hout, <-app_assoc in Ho. apply app_inv_head in Ho.
  rewrite <-(take_drop (head_pos_ s) (d_res d)) in Ho at 1. rewrite <-app_assoc in Ho. apply app_inv_head in Ho.
  assert (Hch : exists ch, chunks (queue s) !! head_ s = Some ch /\ d = data ch).
  { unfold view in Hd. apply list_lookup_fmap_Some in Hd as (ch & -> & Hch). eauto. }
  destruct (drop (head_pos_ s) (d_res d)) as [|w l] eqn:E.
  - right. assert (Hlen : (S (head_ s) < length (view (queue s)))%nat).
    { destruct (decide (S (head_ s) < length (view (queue s)))%nat); [done|]. rewrite drop_ge in Ho by lia. done. }
    pose proof (sh_full _ _ _ _ _ _ HS _ _ Hd Hlen). destruct (sh_len _ _ _ _ _ _ HS _ _ Hd) as [_ Hl].
    apply (f_equal length) in E. rewrite length_drop in E. simpl in E. unfold view in Hlen. rewrite length_map in Hlen. lia.
  - left. injection Ho as <- _. destruct Hch as (ch & Hch & ->). exists ch. split; [done|].
    assert (Hw : resv (view (queue s)) (head_ s) (head_pos_ s) = Some w).
    { assert (Hw := f_equal (lookup 0%nat) E). rewrite lookup_drop, Nat.add_0_r in Hw. unfold resv. by rewrite Hd. }
    destruct (pl_kept _ _ _ _ _ _ HP _ _ _ Hw) as [(sl & Hs & Hrd)|(t & st & Ht & Hown)]; [unfold consumed; lia | | by edestruct Hq].
    destruct (pl_ready _ _ _ _ _ _ HP _ _ _ Hs Hrd) as (w' & Hst & Hw' & _). rewrite Hw in Hw'. injection Hw' as <-.
    unfold cell in Hs. rewrite Hd in Hs. cbn in Hs. rewrite Hs. f_equal. destruct sl as [[] x]; simpl in *; by subst.
Qed.

Lemma run_reachable l s s' : reachable s -> run l s = Some s' -> reachable s'.
Proof.
  revert s. induction l as [|a l IH]; intros s Hr Hs; simpl in Hs; [by injection Hs as <-|].
  apply bind_Some in Hs as (s1 & Ha & Hs). eapply IH; [|done]. by eapply reach_act.
Qed.

(** A failed swing: the exchange has overwritten [cur] with the tail, so
    that the reference released is one of the tail chunk, and the producer's own
    reference on the full chunk stays for ever. *)
Lemma failed_swing_releases_tail q v cur next :
  tail_ q <> cur ->
  producer_step q (PSwingTail v cur next) = Some (q, PDropRef v (tail_ q)) /\
  producer_step q (PDropRef v (tail_ q)) = q' ← upd (tail_ q) (add_refs (-1)) q; Some (q', PLoadTail v).
Proof. intros Hne. split; [|done]. simpl. by rewrite (proj2 (Nat.eqb_neq _ _) Hne). Qed.

End Queue.

(** ** Runs *)

(** [n] items, each enqueued by producer 0 and then dequeued. *)
Fixpoint pump (n : nat) : list (@Action Z) :=
  match n with
  | O => []
  | S n' => Call 0 (Z.of_nat n) :: replicate 20 (Producer 0) ++ replicate 12 Consumer ++ pump n'
  end.

(** Producer 1 loads the tail and is preempted; then 66 items go through and
    the consumer reclaims what it has retired. *)
Definition stale_tail : list (@Action Z) := [Call 1 7; Producer 1] ++ pump 66 ++ replicate 80 Consumer.

(** A producer uses freed memory.  It takes its reference after it has loaded
    the tail, and nothing keeps the chunk in between: it can be filled, emptied,
    retired and freed, and the increment of its reference count is an access to
    freed memory.  (Chunks of one slot, so that 66 items pass 65 chunks.) *)
Theorem mpsc_use_after_free :
  exists s, reachable 1 s /\ producers s !! 1%nat = Some (PAddRef 7 0) /\
    freed <$> chunks (queue s) !! 0%nat = Some true /\ act 1 (Producer 1) s = None.
Proof.
  destruct (run 1 stale_tail (new_sys 1 2)) as [s|] eqn:E; [|by vm_compute in E].
  exists s. split; [eapply run_reachable; [constructor | exact E]|].
  vm_compute in E. injection E as <-. by vm_compute.
Qed.

(** Two producers find the chunk full; the second loses the swing of the tail. *)
Definition lost_swing : list (@Action Z) :=
  Call 0 1 :: replicate 7 (Producer 0) ++ [Call 0 2; Call 1 3] ++ replicate 6 (Producer 0) ++ replicate 5 (Producer 1) ++
  replicate 4 (Producer 0) ++ replicate 2 (Producer 1).

(** After a lost swing the reference counts are wrong although no producer
    holds a chunk: the tail chunk has no reference, and the chunk at the head has
    one that nobody releases. *)
Theorem mpsc_lost_swing_miscounts :
  exists s, reachable 1 s /\ producers s = [PLoadTail 2; PLoadTail 3] /\ tail_ (queue s) = 1%nat /\ head_ s = 0%nat /\
    refs <$> chunks (queue s) = [2; 0].
Proof.
  destruct (run 1 lost_swing (new_sys 1 2)) as [s|] eqn:E; [|by vm_compute in E].
  exists s. split; [eapply run_reachable; [constructor | exact E]|].
  vm_compute in E. injection E as <-. by vm_compute.
Qed.

(** ** Witnesses *)

Definition demo_run : list (@Action Z) :=
  [Call 0 1; Call 1 2] ++ replicate 5 (Producer 1) ++ replicate 20 (Producer 0) ++ replicate 20 (Producer 1) ++ replicate 20 Consumer.
Definition demo_sys : Sys := default (new_sys 2 2) (run 2 demo_run (new_sys 2 2)).

Lemma demo_reachable : reachable 2 demo_sys.
Proof. apply (run_reachable 2 demo_run (new_sys 2 2)); [constructor | by vm_compute]. Qed.

(** Producer 1 reserved first although producer 0 published first. *)
Lemma mpsc_fifo_witness : dequeued demo_sys `prefix_of` order demo_sys /\ dequeued demo_sys = [2; 1].
Proof.
  split; [|by vm_compute]. exact (proj1 (mpsc_fifo 2 demo_sys demo_reachable)).
Defined.

End MpscQueue.
