(* ===== verification/MpscDestroy.v ===== *)
(** * The end of the multi-producer queue
      (src/hft/common/mpsc_queue_cas.hpp, the destructor of [MPSCSegQueue])

    The destructor runs when no thread uses the queue: it dequeues what is left,
    destroys what is still in the slots, retires the chunks from the head on and
    frees the retired ones that have no reference.

    The theorem: the last chunk keeps the reference of the tail, which nobody
    releases, and is never freed. *)

From S2P Require Import Prelude MpscQueue.

Module MpscDestroy.
Import MpscQueue.

Section Destroy.
Context {A : Type} (ChunkSize : nat).
Abbreviation Sys := (@Sys A).

(** The rest of a call of [dequeue], up to its return; [None] is undefined or out
    of fuel. *)
Fixpoint finish (fuel : nat) (s : Sys) : option Sys :=
  match fuel with
  | O => None
  | S fuel =>
      match consumer s with
      | CIdle => Some s
      | _ => s ← consumer_step ChunkSize s; finish fuel s
      end
  end.

(** A whole call, with its result. *)
Fixpoint dequeue_call (fuel : nat) (s : Sys) : option (bool * Sys) :=
  match fuel with
  | O => None
  | S fuel' =>
      if (head_pos_ s <? ChunkSize)%nat then
        slot ← slot_at (head_ s) (head_pos_ s) (queue s);
        if ready slot then s ← finish fuel (goto CTake s); Some (true, s) else Some (false, s)
      else
        _ ← live (head_ s) (queue s);
        match next_of (head_ s) (queue s) with
        | None => Some (false, s)
        | Some _ => s ← finish fuel (goto CLoadNext s); dequeue_call fuel' s
        end
  end.

(** [while (dequeue(tmp)) {}] *)
Fixpoint drain (fuel : nat) (s : Sys) : option Sys :=
  match fuel with
  | O => None
  | S fuel' => '(taken, s) ← dequeue_call fuel s; if (taken : bool) then drain fuel' s else Some s
  end.

(** The loop over the slots of a chunk: the items it destroys. *)
Fixpoint destroy_slots (indices : list nat) (ch : Chunk) : list A * Chunk :=
  match indices with
  | [] => ([], ch)
  | i :: indices =>
      match slots ch !! i with
      | Some (mkSlot true (Some item)) =>
          let '(items, ch) := destroy_slots indices (set_slot i (mkSlot false None) ch) in (item :: items, ch)
      | _ => destroy_slots indices ch
      end
  end.

Definition set_queue (q : Queue) (s : Sys) : Sys :=
  set_consumer q (head_ s) (head_pos_ s) (retired s) (retired_count_ s) (consumer s) (dequeued s) s.

(** The loop over the chunks from [chunk] on. *)
Fixpoint destroy_chunks (rounds chunk begin : nat) (s : Sys) : option (list A * Sys) :=
  match rounds with
  | O => Some ([], s)
  | S rounds =>
      ch ← live chunk (queue s);
      let limit := Nat.min (idx ch) ChunkSize in
      let '(items, ch') := destroy_slots (seq begin (limit - begin)) ch in
      q ← upd chunk (fun _ => ch') (queue s);
      let next := next_of chunk (queue s) in
      s ← retire_chunk chunk (set_queue q s);
      match next with
      | Some next => '(rest, s) ← destroy_chunks rounds next 0 s; Some (items ++ rest, s)
      | None => Some (items, s)
      end
  end.

(** The last walk over the retired nodes: chunks with references stay. *)
Fixpoint free_retired (nodes : list nat) (q : Queue (A := A)) : option Queue :=
  match nodes with
  | [] => Some q
  | node :: nodes =>
      ch ← live node q;
      q ← (if refs ch =? 0 then upd node free_chunk q else Some q);
      free_retired nodes q
  end.

(** The destructor: the items it destroys and the queue it leaves. *)
Definition destroy (fuel : nat) (s : Sys) : option (list A * Queue) :=
  s ← drain fuel s;
  '(items, s) ← destroy_chunks (length (chunks (queue s))) (head_ s) (head_pos_ s) s;
  s ← finish fuel (goto CReclaim s);
  q ← free_retired (retired s) (queue s);
  Some (items, q).

(** ** A queue that was emptied *)

(** Head and tail are the last chunk, which has a reference of each, nothing is
    ready and nothing is retired. *)
Record emptied (s : Sys) (ch : Chunk) : Prop := {
  em_chunk : chunks (queue s) !! head_ s = Some ch;
  em_last : S (head_ s) = length (chunks (queue s));
  em_live : freed ch = false;
  em_refs : refs ch = 2;
  em_slots : forall p sl, slots ch !! p = Some sl -> ready sl = false;
  em_length : length (slots ch) = ChunkSize;
  em_retired : retired s = [];
  em_count : retired_count_ s = 0;
  em_idle : consumer s = CIdle;
}.

Lemma destroy_slots_none indices ch :
  (forall p sl, slots ch !! p = Some sl -> ready sl = false) -> destroy_slots indices ch = ([], ch).
Proof.
  intros H. induction indices as [|i indices IH]; [done|]. cbn [destroy_slots].
  destruct (slots ch !! i) as [[[] x]|] eqn:E; [apply H in E; done | done | done].
Qed.

Lemma emptied_live s ch : emptied s ch -> live (head_ s) (queue s) = Some ch.
Proof. intros []. unfold live. rewrite em_chunk0. cbn. by rewrite em_live0. Qed.

Lemma emptied_next s ch : emptied s ch -> next_of (head_ s) (queue s) = None.
Proof. intros []. unfold next_of. rewrite (proj2 (Nat.ltb_ge _ _)); [done | lia]. Qed.

Lemma emptied_drain fuel s ch : emptied s ch -> drain (S fuel) s = Some s.
Proof.
  intros He. cbn [drain dequeue_call]. destruct (Nat.ltb_spec (head_pos_ s) ChunkSize) as [Hp|Hp].
  - unfold slot_at. rewrite (emptied_live _ _ He). cbn [mbind option_bind].
    destruct (lookup_lt_is_Some_2 (slots ch) (head_pos_ s)) as [sl Hsl]; [by rewrite (em_length _ _ He)|].
    rewrite Hsl. cbn [mbind option_bind]. by rewrite (em_slots _ _ He _ _ Hsl).
  - rewrite (emptied_live _ _ He). cbn [mbind option_bind]. by rewrite (emptied_next _ _ He).
Qed.

(** The destructor leaks the last chunk.  On a queue whose consumer has caught up,
    the constructor's references of head and tail are on the same chunk; the
    destructor drops the one of the head only, so that the chunk still has a
    reference when the retired chunks are freed, and stays allocated. *)
Theorem destructor_leaks_last_chunk fuel s ch :
  emptied s ch ->
  exists q ch', destroy (S (S fuel)) s = Some ([], q) /\ chunks q !! head_ s = Some ch' /\ freed ch' = false /\ refs ch' = 1.
Proof.
  intros He. unfold destroy. rewrite (emptied_drain _ _ _ He). cbn [mbind option_bind]. destruct He.
  destruct s as [[chs tl] hd pos ret cnt ps c out]. cbn [queue chunks head_ retired retired_count_ consumer] in *. subst.
  pose proof (lookup_lt_Some _ _ _ em_chunk0) as Hlt.
  assert (Hl : forall tl', live hd (mkQueue chs tl') = Some ch) by (intros tl'; unfold live; cbn; rewrite em_chunk0; cbn; by rewrite em_live0).
  rewrite <-em_last0. cbn [destroy_chunks head_ head_pos_ queue]. rewrite Hl. cbn [mbind option_bind].
  rewrite destroy_slots_none by done. unfold upd at 1. rewrite Hl. cbn [mbind option_bind chunks tail_]. rewrite list_insert_id by done.
  unfold retire_chunk, set_queue, set_consumer, upd. cbn [queue]. rewrite Hl. cbn [mbind option_bind queue chunks tail_ retired retired_count_].
  unfold next_of. cbn [chunks]. rewrite (proj2 (Nat.ltb_ge _ _)) by lia. cbn [mbind option_bind].
  unfold goto, set_consumer. cbn [finish consumer consumer_step queue head_ head_pos_ retired retired_count_ dequeued].
  unfold try_reclaim. cbn [retired_count_]. change (0 + 1 <? kScanThreshold) with true. cbv iota.
  cbn [mbind option_bind goto set_consumer finish consumer retired queue free_retired].
  unfold live. cbn [chunks]. rewrite list_lookup_insert_eq by done.
  assert (Hr : refs (add_refs (-1) ch) = 1) by (cbn [refs add_refs]; by rewrite em_refs0).
  assert (Hf : freed (add_refs (-1) ch) = false) by done.
  cbn [mbind option_bind]. rewrite Hf. cbn [mbind option_bind]. rewrite Hr. cbn [Z.eqb mbind option_bind].
  eexists _, _. split; [reflexivity|]. cbn [chunks]. rewrite list_lookup_insert_eq by done.
  by split.
Qed.

End Destroy.

Lemma new_queue_emptied : emptied (A := Z) 4 (new_sys 4 1) (new_chunk 4 2).
Proof.
  constructor; try done. intros p sl H. change (slots (new_chunk 4 2)) with (replicate 4 (mkSlot (A := Z) false None)) in H. apply lookup_replicate in H as [-> _]. done.
Qed.

Lemma destructor_leaks_last_chunk_witness :
  exists q ch', destroy (A := Z) 4 2 (new_sys 4 1) = Some ([], q) /\ chunks q !! 0%nat = Some ch' /\ freed ch' = false /\ refs ch' = 1.
Proof. apply (destructor_leaks_last_chunk 4 0 (new_sys 4 1) (new_chunk 4 2)), new_queue_emptied. Defined.

End MpscDestroy.
