(* ===== verification/Threads.v ===== *)
(** * Threads (src/hft/common/thread.hpp)

    [Thread] and [ThreadContext] over the POSIX calls, which are an interface with
    the laws that their manual states.  A function of a thread returns nothing, a
    pointer or an integer; the integer comes back in allocated memory.

    The theorems: what a function returns is what [join] returns, except that a
    function without a result is reported as a failure; a thread that was pinned
    to a processor is found on it. *)

From S2P Require Import Prelude.

Module Threads.

(** What a function of a thread returns, and the [void*] made of it. *)
Inductive Result := RVoid | RPointer (p : option Z) | RInt (v : Z).
Inductive Pointer := Null | NewInt (v : Z) | Other (p : Z).

(** [ThreadContext::entry] *)
Definition entry (f : Result) : Pointer :=
  match f with
  | RVoid => Null
  | RPointer None => Null
  | RPointer (Some p) => Other p
  | RInt v => NewInt v
  end.

(** A set of processors, [cpu_set_t]: the bits that are set. *)
Definition CPU_SETSIZE : nat := 1024.
Definition CpuSet := list Z.

(** The calls on threads; an error is a number other than zero. *)
Class Pthreads (K : Type) := {
  pthread_create : Result -> K -> Z * Z * K;
  pthread_join : Z -> K -> Z * Pointer * K;
  pthread_detach : Z -> K -> Z * K;
  pthread_setname_np : Z -> list Z -> K -> Z * K;
  pthread_getname_np : Z -> K -> list Z;
  pthread_getschedparam : Z -> K -> Z * Z;
  pthread_setaffinity_np : Z -> CpuSet -> K -> Z * K;
  pthread_getaffinity_np : Z -> K -> Z * CpuSet;
  (** a created thread has an id, and joining it gives what its routine returned *)
  create_join f k tid k' name r k'' :
    pthread_create f k = (0, tid, k') -> pthread_setname_np tid name k' = (r, k'') ->
    tid <> 0 /\ exists k3, pthread_join tid k'' = (0, entry f, k3);
  (** the affinity is what was set *)
  affinity_set tid set k k' : pthread_setaffinity_np tid set k = (0, k') -> pthread_getaffinity_np tid k' = (0, set);
}.

Section Thread.
Context {K : Type} `{Pthreads K}.
(** The template argument. *)
Variable Name : list Z.

(** [tid_] is zero before a start. *)
Record Thread := mkThread { tid_ : Z }.

Definition set_thread_name (name : list Z) (t : Thread) (k : K) : Z * K :=
  if tid_ t =? 0 then (-1, k) else pthread_setname_np (tid_ t) name k.

(** [start]: true is a failure, after which [tid_] has no defined value ([None]). *)
Definition start (f : Result) (k : K) : bool * option Thread * K :=
  let '(err, tid, k) := pthread_create f k in
  if negb (err =? 0) then (true, None, k)
  else
    let t := mkThread tid in
    (false, Some t, (set_thread_name Name t k).2).

(** [join]: reading an integer through a pointer that is none is [None]. *)
Definition join (t : Thread) (k : K) : option Z * K :=
  let '(err, ret, k) := if negb (tid_ t =? 0) then pthread_join (tid_ t) k else (0, Null, k) in
  if negb (err =? 0) then (Some (-1), k)
  else match ret with Null => (Some (-1), k) | NewInt v => (Some v, k) | Other _ => (None, k) end.

Definition detach (t : Thread) (k : K) : Z * K := if tid_ t =? 0 then (-1, k) else pthread_detach (tid_ t) k.

Definition get_priority_level (t : Thread) (k : K) : Z :=
  let '(err, priority) := pthread_getschedparam (tid_ t) k in if negb (err =? 0) then -1 else priority.

Definition get_thread_name (t : Thread) (k : K) : list Z := if tid_ t =? 0 then [] else pthread_getname_np (tid_ t) k.

(** The loop over the bits: the first that is set. *)
Fixpoint first_cpu (rounds : nat) (i : Z) (set : CpuSet) : Z :=
  match rounds with
  | O => -1
  | S rounds => if bool_decide (i ∈ set) then i else first_cpu rounds (i + 1) set
  end.

Definition get_cpu_id (t : Thread) (k : K) : Z :=
  let '(err, set) := pthread_getaffinity_np (tid_ t) k in
  if negb (err =? 0) then -1 else first_cpu CPU_SETSIZE 0 set.

(** [CPU_SET] of one processor. *)
Definition set_affinity (cpu_id : Z) (t : Thread) (k : K) : Z * K :=
  if tid_ t =? 0 then (-1, k) else pthread_setaffinity_np (tid_ t) [cpu_id] k.

(** ** Results *)

(** A thread that was started can be joined, and an integer its function returns
    is the result of the join.  A function without a result gives -1, which is also
    what a failed join gives; a function that returns a pointer makes [join] read an
    integer through it. *)
Theorem join_returns_result f k t k' :
  start f k = (false, Some t, k') ->
  fst (join t k') = match f with RInt v => Some v | RPointer (Some _) => None | _ => Some (-1) end.
Proof.
  unfold start. destruct (pthread_create f k) as [[err tid] k1] eqn:Ec. destruct (Z.eqb_spec err 0) as [->|]; cbn [negb]; [|done].
  intros [= <- <-]. unfold set_thread_name. cbn [tid_].
  destruct (pthread_setname_np tid Name k1) as [r k2] eqn:En. destruct (create_join _ _ _ _ _ _ _ Ec En) as (Ht & k3 & Hj).
  rewrite (proj2 (Z.eqb_neq tid 0)) by done. cbn [snd]. unfold join. cbn [tid_].
  rewrite (proj2 (Z.eqb_neq tid 0)) by done. cbn [negb]. rewrite Hj. by destruct f as [|[p|]|v].
Qed.

Lemma first_cpu_found rounds i cpu : i <= cpu < i + Z.of_nat rounds -> first_cpu rounds i [cpu] = cpu.
Proof.
  revert i. induction rounds as [|rounds IH]; intros i Hi; [lia|]. cbn [first_cpu].
  case_bool_decide as E; [apply list_elem_of_singleton in E; lia|].
  apply IH. assert (i <> cpu) by (intros ->; apply E; apply list_elem_of_singleton; done). lia.
Qed.

(** A pinned thread is found on its processor. *)
Theorem pinned_thread_found cpu t k k' :
  0 <= cpu < Z.of_nat CPU_SETSIZE -> set_affinity cpu t k = (0, k') -> get_cpu_id t k' = cpu.
Proof.
  unfold set_affinity. intros Hc Hs. destruct (tid_ t =? 0); [done|]. unfold get_cpu_id. rewrite (affinity_set _ _ _ _ Hs).
  cbn [negb Z.eqb]. apply first_cpu_found. lia.
Qed.

End Thread.

(** ** A kernel with one thread *)

Definition OneThread := (Result * CpuSet)%type.

#[refine] Instance one_thread : Pthreads OneThread := {|
  pthread_create f k := (0, 1, (f, snd k));
  pthread_join _ k := (0, entry (fst k), k);
  pthread_detach _ k := (0, k);
  pthread_setname_np _ _ k := (0, k);
  pthread_getname_np _ _ := [];
  pthread_getschedparam _ _ := (0, 0);
  pthread_setaffinity_np _ set k := (0, (fst k, set));
  pthread_getaffinity_np _ k := (0, snd k);
|}.
Proof.
  - intros f k tid k' name r k'' [= <- <-] [= <- <-]. split; [done | by eexists].
  - by intros tid set k k' [= <-].
Defined.

Lemma join_returns_result_witness :
  fst (join (K := OneThread) (mkThread 1) (RInt 7, [])) = Some 7.
Proof. apply (join_returns_result (K := OneThread) [] (RInt 7) (RVoid, [])). reflexivity. Defined.

Lemma pinned_thread_found_witness : get_cpu_id (K := OneThread) (mkThread 1) (RVoid, [3]) = 3.
Proof.
  apply (pinned_thread_found (K := OneThread) 3 (mkThread 1) (RVoid, []) (RVoid, [3])); [unfold CPU_SETSIZE; lia | reflexivity].
Defined.

End Threads.
