(* ===== verification/MarketConsumer.v ===== *)
(** * Market data consumer (src/hft/src/market_consumer.hpp,
      market_consumer_recovery.hpp, market_data_protocol_policy.h,
      depth_validator.h, stream_state.h)

    The websocket consumer: buffering while a snapshot is fetched, applying the
    snapshot and the buffered depth events, then the live stream with its gap
    detection.  Messages reach the consumer decoded (the futures
    path is in [FuturesFeed]); the queue of the trade engine is its number of free slots;
    an exhausted pool is an argument.  Ghost lists record what was handed to the
    trade engine, what its full queue refused and what was returned to the pools. *)

From S2P Require Import Prelude Types.

Module MarketConsumer.

(** ** Depth validation *)

Inductive MarketType := kSpot | kFutures.

Record DepthValidationResult := mkValidation { valid : bool; new_update_index : Z }.

Definition validate_first_depth_after_snapshot (ty : MarketType)
    (start_idx end_idx snapshot_update_id : Z) : DepthValidationResult :=
  if match ty with
     | kSpot => end_idx <=? snapshot_update_id
     | kFutures => end_idx <? snapshot_update_id
     end
  then mkValidation false snapshot_update_id
  else
    let overlaps := (start_idx <=? snapshot_update_id) && (snapshot_update_id <=? end_idx) in
    let immediately_follows := start_idx =? u64 (snapshot_update_id + 1) in
    let ok := overlaps || immediately_follows in
    mkValidation ok (if ok then end_idx else snapshot_update_id).

Definition validate_continuous_depth (ty : MarketType)
    (start_idx end_idx prev_end_idx current_update_index : Z) : DepthValidationResult :=
  let ok :=
    if current_update_index =? 0 then true
    else
      match ty with
      | kFutures => prev_end_idx =? current_update_index
      | kSpot => start_idx =? u64 (current_update_index + 1)
      end in
  mkValidation ok (if ok then end_idx else current_update_index).

Definition to_market_type (market_type_str : string) : MarketType :=
  if String.eqb market_type_str "Futures" then kFutures else kSpot.

(** ** State *)

Inductive StreamState := kRunning | kAwaitingSnapshot | kApplyingSnapshot | kBuffering.

#[global] Instance StreamState_eq_dec : EqDecision StreamState.
Proof. solve_decision. Defined.

(** [MarketUpdateData] *)
Record Event := mkEvent {
  start_idx : Z; end_idx : Z; prev_end_idx : Z; type : MarketDataType; data : list MarketData }.

Inductive Item := Snapshot (e : Event) | Update (e : Event).

Record Consumer := mkConsumer {
  state_ : StreamState;
  update_index_ : Z;
  retry_count_ : Z;
  buffered_events_ : list Event;
  first_buffered_update_id_ : Z;
  first_depth_after_snapshot_ : bool;
  (** free slots of the trade engine's queue *)
  room : Z;
  (** handed over, refused by the full queue, returned to the pools *)
  log : list Item;
  dropped : list Item;
  freed : list Event;
  (** snapshot requests sent, and whether the process was ended *)
  requests : Z;
  stopped : bool;
}.

Definition new_consumer (capacity : Z) : Consumer :=
  mkConsumer kAwaitingSnapshot 0 0 [] 0 false capacity [] [] [] 0 false.

Definition set_state (s : StreamState) (m : Consumer) : Consumer :=
  mkConsumer s (update_index_ m) (retry_count_ m) (buffered_events_ m) (first_buffered_update_id_ m)
    (first_depth_after_snapshot_ m) (room m) (log m) (dropped m) (freed m) (requests m) (stopped m).
Definition set_index (i : Z) (m : Consumer) : Consumer :=
  mkConsumer (state_ m) i (retry_count_ m) (buffered_events_ m) (first_buffered_update_id_ m)
    (first_depth_after_snapshot_ m) (room m) (log m) (dropped m) (freed m) (requests m) (stopped m).
Definition set_retry (n : Z) (m : Consumer) : Consumer :=
  mkConsumer (state_ m) (update_index_ m) n (buffered_events_ m) (first_buffered_update_id_ m)
    (first_depth_after_snapshot_ m) (room m) (log m) (dropped m) (freed m) (requests m) (stopped m).
Definition set_buffer (b : list Event) (first : Z) (m : Consumer) : Consumer :=
  mkConsumer (state_ m) (update_index_ m) (retry_count_ m) b first
    (first_depth_after_snapshot_ m) (room m) (log m) (dropped m) (freed m) (requests m) (stopped m).
Definition set_first_depth (b : bool) (m : Consumer) : Consumer :=
  mkConsumer (state_ m) (update_index_ m) (retry_count_ m) (buffered_events_ m) (first_buffered_update_id_ m)
    b (room m) (log m) (dropped m) (freed m) (requests m) (stopped m).
(** Return of an event and its entries to the pools. *)
Definition deallocate (es : list Event) (m : Consumer) : Consumer :=
  mkConsumer (state_ m) (update_index_ m) (retry_count_ m) (buffered_events_ m) (first_buffered_update_id_ m)
    (first_depth_after_snapshot_ m) (room m) (log m) (dropped m) (freed m ++ es) (requests m) (stopped m).
Definition send_snapshot_request (m : Consumer) : Consumer :=
  mkConsumer (state_ m) (update_index_ m) (retry_count_ m) (buffered_events_ m) (first_buffered_update_id_ m)
    (first_depth_after_snapshot_ m) (room m) (log m) (dropped m) (freed m) (requests m + 1) (stopped m).
(** [app_->stop(); std::exit(1);] *)
Definition exit_process (m : Consumer) : Consumer :=
  mkConsumer (state_ m) (update_index_ m) (retry_count_ m) (buffered_events_ m) (first_buffered_update_id_ m)
    (first_depth_after_snapshot_ m) (room m) (log m) (dropped m) (freed m) (requests m) true.

(** [on_market_data_fn_(data)]: [TradeEngine::on_market_data_updated], which
    enqueues unless the queue is full. *)
Definition on_market_data_fn (i : Item) (m : Consumer) : Consumer :=
  if 0 <? room m then
    mkConsumer (state_ m) (update_index_ m) (retry_count_ m) (buffered_events_ m)
      (first_buffered_update_id_ m) (first_depth_after_snapshot_ m) (room m - 1) (log m ++ [i])
      (dropped m) (freed m) (requests m) (stopped m)
  else
    mkConsumer (state_ m) (update_index_ m) (retry_count_ m) (buffered_events_ m)
      (first_buffered_update_id_ m) (first_depth_after_snapshot_ m) (room m) (log m)
      (dropped m ++ [i]) (freed m) (requests m) (stopped m).

(** The trade engine takes [n] messages from its queue. *)
Definition drain (n : Z) (m : Consumer) : Consumer :=
  mkConsumer (state_ m) (update_index_ m) (retry_count_ m) (buffered_events_ m) (first_buffered_update_id_ m)
    (first_depth_after_snapshot_ m) (room m + n) (log m) (dropped m) (freed m) (requests m) (stopped m).

(** ** Handlers *)

Section Consumer.

Context (ty : MarketType).

Definition kMaxRetries : Z := 3.
Definition kMaxBufferedEvents : Z := 10.

Definition on_login (m : Consumer) : Consumer :=
  set_buffer [] 0 (set_state kBuffering (send_snapshot_request m)).

Definition recover_from_gap (m : Consumer) : Consumer :=
  if bool_decide (state_ m = kBuffering) then m
  else send_snapshot_request (set_buffer [] 0 (set_state kBuffering m)).

(** [erase_buffer_lower_than_snapshot_impl]: pops from the front. *)
Fixpoint erase_buffer (snapshot_update_id : Z) (events : list Event) : list Event * list Event :=
  match events with
  | [] => ([], [])
  | event :: events' =>
      if end_idx event <=? snapshot_update_id then
        let '(erased, kept) := erase_buffer snapshot_update_id events' in (event :: erased, kept)
      else ([], events)
  end.

Definition erase_buffer_lower_than_snapshot (snapshot_update_id : Z) (m : Consumer) : Consumer :=
  let '(erased, kept) := erase_buffer snapshot_update_id (buffered_events_ m) in
  set_buffer kept (first_buffered_update_id_ m) (deallocate erased m).

(** Count a failed attempt; [Some] unless it was the last one allowed. *)
Definition retry (m : Consumer) : Consumer * bool :=
  let m := set_retry (retry_count_ m + 1) m in
  if kMaxRetries <=? retry_count_ m then (exit_process m, false) else (m, true).

(** The loop over the buffered events after a snapshot. *)
Fixpoint apply_buffered (first_buffered : bool) (events : list Event) (m : Consumer) : Consumer * bool :=
  match events with
  | [] => (m, true)
  | buffered :: events' =>
      let result :=
        if first_buffered
        then validate_first_depth_after_snapshot ty (start_idx buffered) (end_idx buffered) (update_index_ m)
        else validate_continuous_depth ty (start_idx buffered) (end_idx buffered) (prev_end_idx buffered)
               (update_index_ m) in
      if valid result then
        apply_buffered false events'
          (on_market_data_fn (Update buffered) (set_index (new_update_index result) m))
      else
        let m := set_buffer [] (first_buffered_update_id_ m) m in
        let '(m, again) := retry m in
        (if again then recover_from_gap m else m, false)
  end.

(** The part of [on_snapshot] after the tests of the buffering state. *)
Definition apply_snapshot (snapshot_data : Event) (m : Consumer) : Consumer :=
  let m := set_index (end_idx snapshot_data) (set_state kApplyingSnapshot m) in
  let m := on_market_data_fn (Snapshot snapshot_data) m in
  let '(m, ok) := apply_buffered true (buffered_events_ m) m in
  if ok then
    set_state kRunning (set_first_depth true (set_retry 0 (set_buffer [] (first_buffered_update_id_ m) m)))
  else m.

(** [allocated] is whether the pool had a node for the message. *)
Definition on_snapshot (allocated : bool) (snapshot_data : Event) (m : Consumer) : Consumer :=
  if negb allocated then
    let m := set_buffer [] 0 (deallocate (buffered_events_ m) m) in
    let '(m, again) := retry m in
    if again then send_snapshot_request m else m
  else
    let snapshot_update_id := end_idx snapshot_data in
    if bool_decide (state_ m = kBuffering) then
      if snapshot_update_id <? first_buffered_update_id_ m then
        let '(m, again) := retry m in
        if again then send_snapshot_request m else m
      else
        apply_snapshot snapshot_data
          (erase_buffer_lower_than_snapshot snapshot_update_id (set_retry 0 m))
    else apply_snapshot snapshot_data m.

(** [WebSocketMarketDataPolicy::handle_subscribe] in the buffering state. *)
Definition buffer_event (data : Event) (m : Consumer) : Consumer :=
  if negb (bool_decide (type data = MDMarket)) then deallocate [data] m
  else
    let m :=
      if first_buffered_update_id_ m =? 0 then set_buffer (buffered_events_ m) (start_idx data) m else m in
    let m :=
      if kMaxBufferedEvents <=? zlen (buffered_events_ m) then
        match buffered_events_ m with
        | [] => m
        | oldest :: rest =>
            let m := set_buffer rest (first_buffered_update_id_ m) (deallocate [oldest] m) in
            match rest with
            | [] => m
            | e :: _ => set_buffer rest (start_idx e) m
            end
        end
      else m in
    set_buffer (buffered_events_ m ++ [data]) (first_buffered_update_id_ m) m.

(** [on_subscribe]; [None] when the pool is exhausted: the null pointer is
    dereferenced. *)
Definition on_subscribe (allocated : bool) (data : Event) (m : Consumer) : option Consumer :=
  if negb allocated then None
  else if bool_decide (state_ m = kBuffering) then Some (buffer_event data m)
  else if bool_decide (type data = MDMarket) then
    let result :=
      if first_depth_after_snapshot_ m
      then validate_first_depth_after_snapshot ty (start_idx data) (end_idx data) (update_index_ m)
      else validate_continuous_depth ty (start_idx data) (end_idx data) (prev_end_idx data) (update_index_ m) in
    let m := set_first_depth false m in
    if negb (valid result) then Some (deallocate [data] (recover_from_gap m))
    else Some (on_market_data_fn (Update data) (set_index (new_update_index result) m))
  else Some (on_market_data_fn (Update data) m).

(** ** The delivered stream *)

(** An event continues a stream that is at [prev]. *)
Definition linked (prev : Z) (e : Event) : bool :=
  (prev =? 0) ||
  match ty with
  | kSpot => (start_idx e <=? prev + 1) && (prev <? end_idx e)
  | kFutures => (prev_end_idx e =? prev) || ((start_idx e <=? prev + 1) && (prev <=? end_idx e))
  end.

(** The update index after a list of deliveries, [None] on a gap. *)
Fixpoint follow (prev : Z) (items : list Item) : option Z :=
  match items with
  | [] => Some prev
  | Snapshot e :: items' => follow (end_idx e) items'
  | Update e :: items' =>
      if bool_decide (type e = MDMarket) then
        if linked prev e then follow (end_idx e) items' else None
      else follow prev items'
  end.

Definition wf_event (e : Event) : Prop := 0 <= start_idx e <= end_idx e /\ end_idx e < uint64_max.

Lemma follow_app prev l1 l2 : follow prev (l1 ++ l2) = follow prev l1 ≫= fun p => follow p l2.
Proof.
  revert prev. induction l1 as [|[e|e] l1 IH]; intros prev; simpl; [done | apply IH |].
  repeat case_match; try done; apply IH.
Qed.

(** The deliveries form a stream that ends at the consumer's update index. *)
Definition in_step (m : Consumer) : Prop :=
  0 <= update_index_ m < uint64_max /\ (dropped m = [] -> follow 0 (log m) = Some (update_index_ m)).

Lemma in_step_ext m m' :
  update_index_ m' = update_index_ m -> log m' = log m -> dropped m' = dropped m -> in_step m -> in_step m'.
Proof. unfold in_step. by intros -> -> ->. Qed.

(** A delivery that moves the index as the stream does. *)
Lemma deliver_in_step item idx m :
  in_step m -> 0 <= idx < uint64_max -> follow (update_index_ m) [item] = Some idx ->
  in_step (on_market_data_fn item (set_index idx m)).
Proof.
  intros [Hr Hf] Hi Hitem. unfold on_market_data_fn. cbn. destruct (0 <? room m); split; cbn; try done.
  - intros Hd. rewrite follow_app, Hf by done. exact Hitem.
  - intros Hd. by apply app_nil in Hd as [_ ?].
Qed.

Lemma first_linked e idx :
  wf_event e -> 0 <= idx < uint64_max ->
  let r := validate_first_depth_after_snapshot ty (start_idx e) (end_idx e) idx in
  valid r = true -> linked idx e = true /\ new_update_index r = end_idx e.
Proof.
  intros [He Hm] Hi r. subst r. unfold validate_first_depth_after_snapshot, linked.
  rewrite u64_small by (unfold in_u64, two64, uint64_max in *; lia).
  destruct ty; case_match; cbn; try done; intros E; rewrite E; (split; [|done]); zprop; lia.
Qed.

Lemma continuous_linked e idx :
  wf_event e -> 0 <= idx < uint64_max ->
  let r := validate_continuous_depth ty (start_idx e) (end_idx e) (prev_end_idx e) idx in
  valid r = true -> linked idx e = true /\ new_update_index r = end_idx e.
Proof.
  intros [He Hm] Hi r. subst r. unfold validate_continuous_depth, linked.
  rewrite u64_small by (unfold in_u64, two64, uint64_max in *; lia).
  destruct ty; cbn; destruct (idx =? 0); cbn; try done; intros E; rewrite E; (split; [|done]); zprop; lia.
Qed.

(** Every handler keeps the deliveries in step; buffered events are depth events. *)
Definition buffered_ok (m : Consumer) : Prop :=
  Forall (fun e => wf_event e /\ type e = MDMarket) (buffered_events_ m).

Definition ok (m : Consumer) : Prop := in_step m /\ buffered_ok m.

Lemma ok_ext m m' :
  update_index_ m' = update_index_ m -> log m' = log m -> dropped m' = dropped m ->
  buffered_events_ m' = buffered_events_ m \/ buffered_events_ m' = [] -> ok m -> ok m'.
Proof.
  intros H1 H2 H3 H4 [Hs Hb]. split; [by eapply in_step_ext|].
  unfold buffered_ok. destruct H4 as [-> | ->]; [done | constructor].
Qed.

Lemma recover_ok m : ok m -> ok (recover_from_gap m).
Proof. unfold recover_from_gap. case_bool_decide; [done|]. apply ok_ext; auto. Qed.

Lemma retry_ok m : ok m -> ok (retry m).1.
Proof. unfold retry. case_match; cbn; apply ok_ext; auto. Qed.

Lemma update_ok e idx m :
  ok m -> wf_event e -> type e = MDMarket -> linked (update_index_ m) e = true -> idx = end_idx e ->
  ok (on_market_data_fn (Update e) (set_index idx m)).
Proof.
  intros [Hs Hb] [He Hm] Ht Hl ->. split.
  - apply deliver_in_step; [done | lia |]. cbn. by rewrite bool_decide_eq_true_2, Hl.
  - unfold buffered_ok, on_market_data_fn. by case_match.
Qed.

Lemma apply_buffered_ok first events m :
  Forall (fun e => wf_event e /\ type e = MDMarket) events -> ok m ->
  ok (apply_buffered first events m).1.
Proof.
  intros Hev. revert first m. induction Hev as [|e events [He Ht] _ IH]; intros first m Hok; [done|].
  cbn [apply_buffered]. set (r := if first then _ else _).
  assert (Hr : valid r = true -> linked (update_index_ m) e = true /\ new_update_index r = end_idx e).
  { assert (0 <= update_index_ m < uint64_max) by apply Hok. unfold r.
    destruct first; [by apply first_linked | by apply continuous_linked]. }
  destruct (valid r).
  - destruct Hr as [Hl Hi]; [done|]. apply IH. by apply update_ok.
  - set (m1 := set_buffer [] _ m). assert (H1 : ok m1) by (by eapply ok_ext; [..|exact Hok]; auto).
    pose proof (retry_ok m1 H1) as H2. destruct (retry m1) as [m2 again]. cbn [fst] in *.
    destruct again; [by apply recover_ok | done].
Qed.

Lemma apply_snapshot_ok e m : wf_event e -> ok m -> ok (apply_snapshot e m).
Proof.
  intros [He Hm] [Hs Hb]. unfold apply_snapshot.
  set (m1 := on_market_data_fn (Snapshot e) _).
  assert (H1 : ok m1).
  { split.
    - apply deliver_in_step; [by eapply in_step_ext; [..|exact Hs] | lia | done].
    - unfold buffered_ok, m1, on_market_data_fn. by case_match. }
  pose proof (apply_buffered_ok true (buffered_events_ m1) m1 (proj2 H1) H1) as H2.
  destruct (apply_buffered true _ m1) as [m2 good]. cbn [fst] in H2.
  destruct good; [|done]. eapply ok_ext; [..|exact H2]; auto.
Qed.

Lemma erase_buffer_kept id events : exists erased, events = erased ++ (erase_buffer id events).2.
Proof.
  induction events as [|e events [er IH]]; simpl; [by exists []|].
  destruct (end_idx e <=? id); [|by exists []].
  destruct (erase_buffer id events) as [x y]. simpl in *. exists (e :: er). by rewrite IH at 1.
Qed.

Lemma erase_ok id m : ok m -> ok (erase_buffer_lower_than_snapshot id m).
Proof.
  intros [Hs Hb]. unfold erase_buffer_lower_than_snapshot.
  destruct (erase_buffer_kept id (buffered_events_ m)) as [er E].
  destruct (erase_buffer id (buffered_events_ m)) as [x kept]. simpl in E.
  split; [by eapply in_step_ext; [..|exact Hs]|].
  unfold buffered_ok in *. cbn. rewrite E in Hb. by apply Forall_app in Hb as [_ ?].
Qed.

Lemma on_snapshot_ok allocated e m : wf_event e -> ok m -> ok (on_snapshot allocated e m).
Proof.
  intros He Hok. unfold on_snapshot. destruct allocated; cbn [negb].
  - case_bool_decide; [|by apply apply_snapshot_ok]. case_match.
    + pose proof (retry_ok m Hok) as H2. destruct (retry m) as [m2 []]; cbn in *; [|done].
      eapply ok_ext; [..|exact H2]; auto.
    + apply apply_snapshot_ok; [done|]. apply erase_ok. eapply ok_ext; [..|exact Hok]; auto.
  - set (m1 := set_buffer [] 0 _). assert (H1 : ok m1) by (eapply ok_ext; [..|exact Hok]; auto).
    pose proof (retry_ok m1 H1) as H2. destruct (retry m1) as [m2 []]; cbn in *; [|done].
    eapply ok_ext; [..|exact H2]; auto.
Qed.

Lemma buffer_event_ok e m : wf_event e -> ok m -> ok (buffer_event e m).
Proof.
  intros He [Hs Hb]. unfold buffer_event.
  case_bool_decide as Ht; cbn [negb]; [|eapply ok_ext; [..|exact (conj Hs Hb)]; auto].
  set (m1 := if first_buffered_update_id_ m =? 0 then _ else m).
  set (m2 := if kMaxBufferedEvents <=? _ then _ else m1).
  assert (H1 : ok m1) by (unfold m1; case_match; [eapply ok_ext; [..|exact (conj Hs Hb)]; auto | done]).
  assert (H2 : ok m2).
  { unfold m2. case_match; [|done]. destruct (buffered_events_ m1) as [|o rest] eqn:E; [done|].
    destruct H1 as [Hs1 Hb1]. unfold buffered_ok in Hb1. rewrite E in Hb1. apply Forall_cons in Hb1 as [_ Hb1].
    destruct rest; (split; [by eapply in_step_ext; [..|exact Hs1] | done]). }
  destruct H2 as [Hs2 Hb2]. split; [by eapply in_step_ext; [..|exact Hs2]|].
  unfold buffered_ok. cbn. apply Forall_app. split; [done|]. by apply Forall_singleton.
Qed.

Lemma on_subscribe_ok allocated e m m' :
  wf_event e -> ok m -> on_subscribe allocated e m = Some m' -> ok m'.
Proof.
  intros He Hok. unfold on_subscribe. destruct allocated; cbn [negb]; [|done].
  case_bool_decide; [intros [= <-]; by apply buffer_event_ok|].
  case_bool_decide as Ht.
  - set (r := if first_depth_after_snapshot_ m then _ else _).
    assert (Hr : valid r = true -> linked (update_index_ m) e = true /\ new_update_index r = end_idx e).
    { assert (0 <= update_index_ m < uint64_max) by apply Hok. unfold r.
      destruct (first_depth_after_snapshot_ m); [by apply first_linked | by apply continuous_linked]. }
    assert (H1 : ok (set_first_depth false m)) by (eapply ok_ext; [..|exact Hok]; auto).
    destruct (valid r); cbn [negb]; intros [= <-].
    + destruct Hr as [Hl Hi]; [done|]. by apply update_ok.
    + eapply ok_ext; [..|exact (recover_ok _ H1)]; auto.
  - intros [= <-]. destruct Hok as [Hs Hb]. split.
    + unfold on_market_data_fn. destruct Hs as [Hr Hf]. case_match; split; cbn; try done.
      * intros Hd. rewrite follow_app, Hf by done. cbn. by rewrite bool_decide_eq_false_2.
      * intros Hd. by apply app_nil in Hd as [_ ?].
    + unfold buffered_ok, on_market_data_fn. by case_match.
Qed.

(** The histories of a consumer. *)
Inductive reachable : Consumer -> Prop :=
| reach_new capacity : reachable (new_consumer capacity)
| reach_login m : reachable m -> stopped m = false -> reachable (on_login m)
| reach_snapshot m allocated e :
    reachable m -> stopped m = false -> wf_event e -> reachable (on_snapshot allocated e m)
| reach_subscribe m allocated e m' :
    reachable m -> stopped m = false -> wf_event e -> on_subscribe allocated e m = Some m' -> reachable m'
| reach_drain m n : reachable m -> 0 <= n -> reachable (drain n m).

Lemma reachable_ok m : reachable m -> ok m.
Proof.
  induction 1; [by repeat constructor | | by apply on_snapshot_ok | by eapply on_subscribe_ok |].
  - eapply ok_ext; [..|exact IHreachable]; auto.
  - eapply ok_ext; [..|exact IHreachable]; auto.
Qed.

(** C5: the depth stream handed to the trade engine has no gap.  In every history
    of logins, snapshots, depth events and pool failures, as long as the trade
    engine's queue refused nothing, each delivered depth event continues the
    snapshot or event before it (for spot: it starts at or before the next
    update and goes beyond the previous one), and the update index is where the
    stream ends. *)
Theorem depth_stream_gap_free m :
  reachable m -> dropped m = [] -> follow 0 (log m) = Some (update_index_ m).
Proof. intros [[_ H] _]%reachable_ok. exact H. Qed.

(** An update refused by the full queue goes unnoticed.  A live depth event
    that continues the stream while the queue is full is lost, yet the update
    index moves past it and the consumer stays as it was, so the next event
    passes the gap test. *)
Theorem full_queue_drop_unnoticed m e :
  wf_event e -> state_ m <> kBuffering -> type e = MDMarket -> first_depth_after_snapshot_ m = false ->
  0 <= update_index_ m < uint64_max ->
  valid (validate_continuous_depth ty (start_idx e) (end_idx e) (prev_end_idx e) (update_index_ m)) = true ->
  room m = 0 ->
  exists m', on_subscribe true e m = Some m' /\ log m' = log m /\ freed m' = freed m /\
    update_index_ m' = end_idx e /\ state_ m' = state_ m /\ requests m' = requests m /\
    dropped m' = dropped m ++ [Update e].
Proof.
  intros He Hst Ht Hfd Hi Hv Hroom. unfold on_subscribe. cbn [negb].
  rewrite bool_decide_eq_false_2, bool_decide_eq_true_2, Hfd by done.
  destruct (continuous_linked e _ He Hi Hv) as [_ Hn].
  rewrite Hv, Hn. cbn [negb]. eexists. split; [done|]. unfold on_market_data_fn. cbn. by rewrite Hroom.
Qed.

End Consumer.

(** On the futures stream the first live event after a recovery may be
    refused although it continues the stream.  Right after a snapshot and its
    buffered events the consumer applies the snapshot rule to the next live
    event: one that names the current update as its predecessor but whose first
    update is not the next number is taken for a gap, dropped, and a new
    snapshot is requested. *)
Theorem futures_first_event_refused m e :
  state_ m = kRunning -> first_depth_after_snapshot_ m = true -> type e = MDMarket ->
  0 < update_index_ m -> prev_end_idx e = update_index_ m ->
  update_index_ m + 1 < start_idx e <= end_idx e -> end_idx e < uint64_max ->
  valid (validate_continuous_depth kFutures (start_idx e) (end_idx e) (prev_end_idx e) (update_index_ m)) = true /\
  exists m', on_subscribe kFutures true e m = Some m' /\
    state_ m' = kBuffering /\ requests m' = requests m + 1 /\ log m' = log m /\ freed m' = freed m ++ [e].
Proof.
  intros Hst Hfd Ht Hpos Hp Hs Hm. split.
  { unfold validate_continuous_depth. cbn. rewrite Hp, Z.eqb_refl. by case_match. }
  unfold on_subscribe. cbn [negb]. rewrite Hst, Hfd.
  rewrite bool_decide_eq_false_2, bool_decide_eq_true_2 by done.
  assert (Hv : valid (validate_first_depth_after_snapshot kFutures (start_idx e) (end_idx e) (update_index_ m)) = false).
  { unfold validate_first_depth_after_snapshot.
    rewrite u64_small by (unfold in_u64, two64, uint64_max in *; lia).
    case_match; cbn; [done|]. zb. lia. }
  rewrite Hv. cbn [negb]. eexists. split; [done|]. unfold recover_from_gap. cbn. rewrite Hst.
  rewrite bool_decide_eq_false_2 by done. done.
Qed.

(** ** Witnesses *)

Definition demo_depth (s e pu : Z) : Event := mkEvent s e pu MDMarket [].
Definition demo_login : Consumer := on_login (new_consumer 128).
Definition demo_buffered : Consumer :=
  default demo_login (on_subscribe kSpot true (demo_depth 98 101 97) demo_login).
Definition demo_running : Consumer := on_snapshot kSpot true (demo_depth 0 100 0) demo_buffered.

Lemma demo_running_reachable : reachable kSpot demo_running.
Proof.
  apply reach_snapshot; [|done|by split].
  apply (reach_subscribe kSpot demo_login true (demo_depth 98 101 97)); [|done|by split|done].
  apply reach_login; [constructor | done].
Qed.

Lemma depth_stream_gap_free_witness :
  log demo_running = [Snapshot (demo_depth 0 100 0); Update (demo_depth 98 101 97)] /\
  follow kSpot 0 (log demo_running) = Some (update_index_ demo_running).
Proof.
  split; [by vm_compute|].
  exact (depth_stream_gap_free kSpot demo_running demo_running_reachable eq_refl).
Defined.

Definition demo_full : Consumer :=
  mkConsumer kRunning 101 0 [] 0 false 0 [] [] [] 0 false.

Lemma full_queue_drop_unnoticed_witness :
  exists m', on_subscribe kSpot true (demo_depth 102 105 101) demo_full = Some m' /\ update_index_ m' = 105.
Proof.
  destruct (full_queue_drop_unnoticed kSpot demo_full (demo_depth 102 105 101)) as (m' & E & _ & _ & Hi & _);
    [by split | done | done | done | done | done | done |].
  exists m'. split; [exact E | exact Hi].
Defined.

Lemma futures_first_event_refused_witness :
  exists m', on_subscribe kFutures true (demo_depth 120 130 101) demo_running = Some m' /\
    state_ m' = kBuffering.
Proof.
  destruct (futures_first_event_refused demo_running (demo_depth 120 130 101)) as (_ & m' & E & Hs & _);
    [done | done | done | done | done | by vm_compute | done |].
  exists m'. split; [exact E | exact Hs].
Defined.

End MarketConsumer.
