(* ===== verification/FuturesFeed.v ===== *)
(** * From bytes to the order book (the futures market data path)

    [binance_future_domain_converter.hpp] turns decoded messages into
    [MarketUpdateData] with entries from the pool of market data,
    [binance_futures_dispatcher.h] routes them, [ws_md_app.hpp] hands them to
    the callbacks of the consumer.  The file composes the decoder, the
    converter, the router and the consumer ([handle_payload]), and the
    converter with the order book.

    The theorems: the bytes of a depth message reach the consumer as one event
    with its levels, and change the ladders of the book as the exchange means
    them; a snapshot only overlays the book; an exhausted pool puts null
    pointers into the event. *)

From S2P Require Import Prelude BitScan Types MemoryPool OrderBook OrderBookFacts OrderBookRefine FixedPoint Text LevelParser OnepassDecoder MarketConsumer.

Module FuturesFeed.
Import FixedPoint Text Onepass.

(** The characters of a text as a [std::string]. *)
Definition of_codes (l : list Z) : string :=
  String.string_of_list_ascii (map (fun c => Ascii.ascii_of_N (Z.to_N c)) l).

(** ** Domain conversion *)

(** [MarketUpdateData]: the type is uninitialised ([None]) in a default
    constructed one; an entry is null ([None]) when the pool was exhausted. *)
Record MarketUpdateData := mkUpdate {
  mu_start_idx : Z;
  mu_end_idx : Z;
  mu_prev_end_idx : Z;
  mu_type : option MarketDataType;
  mu_data : list (option MarketData);
}.

Definition MarketUpdateData_default : MarketUpdateData := mkUpdate 0 0 0 None [].

Section Converter.
Context {P : Type} `{NodePool P}.

(** [pool->allocate(...)] *)
Definition allocate (md : MarketData) (pool : P) : option MarketData * P :=
  match np_alloc pool with
  | Some (_, pool') => (Some md, pool')
  | None => (None, pool)
  end.

(** [make_entry], and the method of the snapshot visitor with the same body. *)
Definition make_entry (symbol : string) (side : Side) (price qty : Z) (update_type : MarketUpdateType)
    (pool : P) : option MarketData * P :=
  let update := if qty <=? 0 then MUCancel else update_type in
  allocate (mkMarketData update 0 symbol side price qty) pool.

(** The loop over the levels of a side; null entries are pushed too. *)
Fixpoint side_entries (symbol : string) (side : Side) (levels : list (Z * Z)) (pool : P) :
    list (option MarketData) * P :=
  match levels with
  | [] => ([], pool)
  | (price, qty) :: levels' =>
      let '(entry, pool) := make_entry symbol side price qty MUAdd pool in
      let '(entries, pool) := side_entries symbol side levels' pool in
      (entry :: entries, pool)
  end.

(** The operator of [MarketDataVisitor] for a depth message. *)
Definition visit_depth (msg : DepthData) (pool : P) : MarketUpdateData * P :=
  let symbol := of_codes (dd_symbol msg) in
  let '(bids, pool) := side_entries symbol kBuy (dd_bids msg) pool in
  let '(asks, pool) := side_entries symbol kSell (dd_asks msg) pool in
  (mkUpdate (dd_start_update_id msg) (dd_end_update_id msg)
     (dd_final_update_id_in_last_stream msg) (Some MDMarket) (bids ++ asks), pool).

(** [if (entry) entries.push_back(entry);] *)
Definition push_entry (entry : option MarketData) : list (option MarketData) :=
  match entry with Some _ => [entry] | None => [] end.

Definition visit_trade (msg : AggregateTrade) (pool : P) : MarketUpdateData * P :=
  let side := if td_is_buyer_market_maker msg then kSell else kBuy in
  let '(entry, pool) :=
    make_entry (of_codes (td_symbol msg)) side (td_price msg) (td_quantity msg) MUTrade pool in
  (mkUpdate (u64 (-1)) (u64 (-1)) 0 (Some MDTrade) (push_entry entry), pool).

Definition visit_book_ticker (msg : BookTickerData) (pool : P) : MarketUpdateData * P :=
  let symbol := of_codes (bt_symbol msg) in
  let '(bid_entry, pool) :=
    make_entry symbol kBuy (bt_best_bid_price msg) (bt_best_bid_qty msg) MUBookTicker pool in
  let '(ask_entry, pool) :=
    make_entry symbol kSell (bt_best_ask_price msg) (bt_best_ask_qty msg) MUBookTicker pool in
  (mkUpdate (u64 (i64 (bt_update_id msg))) (u64 (i64 (bt_update_id msg))) 0 (Some MDBookTicker)
     (push_entry bid_entry ++ push_entry ask_entry), pool).

(** A snapshot starts with a clear that carries no price and no id. *)
Definition clear_entry (symbol : string) : MarketData := mkMarketData MUClear kOrderIdInvalid symbol kInvalid 0 0.

Definition visit_snapshot_as (symbol : string) (msg : DepthSnapshot) (pool : P) : MarketUpdateData * P :=
  let '(clear, pool) := allocate (clear_entry symbol) pool in
  let '(bids, pool) := side_entries symbol kBuy (sn_bids msg) pool in
  let '(asks, pool) := side_entries symbol kSell (sn_asks msg) pool in
  (mkUpdate (sn_book_update_id msg) (sn_book_update_id msg) 0 (Some MDMarket)
     (clear :: bids ++ asks), pool).

(** What follows the first underscore of the id of a snapshot request. *)
Fixpoint after_underscore (id : list Z) : list Z :=
  match id with
  | [] => []
  | c :: rest => if c =? 95 then rest else after_underscore rest
  end.

Section Ticker.
(** [INI_CONFIG.get("meta", "ticker")] *)
Variable ticker : string.
Context {Api Info : Type}.

Definition snapshot_symbol (id : list Z) : string :=
  match after_underscore id with [] => ticker | symbol => of_codes symbol end.

(** [to_market_data]: the visit with [MarketDataVisitor]. *)
Definition to_market_data (msg : WireMessage Api Info) (pool : P) : MarketUpdateData * P :=
  match msg with
  | Depth data => visit_depth data pool
  | TradeEvent data => visit_trade data pool
  | BookTicker data => visit_book_ticker data pool
  | Snapshot data => visit_snapshot_as ticker data pool
  | Monostate | ApiResponse _ | ExchangeInfo _ => (MarketUpdateData_default, pool)
  end.

(** [to_snapshot_data]: the visit with [SnapshotVisitor]. *)
Definition to_snapshot_data (msg : WireMessage Api Info) (pool : P) : MarketUpdateData * P :=
  match msg with
  | Snapshot data => visit_snapshot_as (snapshot_symbol (sn_id data)) data pool
  | _ => (MarketUpdateData_default, pool)
  end.

(** ** Routing *)

Definition get_dispatch_type (msg : WireMessage Api Info) : option string :=
  match msg with
  | Snapshot _ => Some "W"%string
  | Depth _ | TradeEvent _ | BookTicker _ => Some "X"%string
  | Monostate | ApiResponse _ | ExchangeInfo _ => None
  end.

(** The event that the consumer keeps.  A null entry is dereferenced by the
    trade engine and an uninitialised type is read: undefined. *)
Definition to_event (u : MarketUpdateData) : option MarketConsumer.Event :=
  type ← mu_type u;
  data ← mapM id (mu_data u);
  Some (MarketConsumer.mkEvent (mu_start_idx u) (mu_end_idx u) (mu_prev_end_idx u) type data).

Variables PriceScale QtyScale : Z.
Variable read_api : list Z -> option Api.
Variable read_info : list Z -> option Info.

Abbreviation State := (MarketConsumer.Consumer * P)%type.

(** [dispatch(type, message)] with the callbacks that the consumer registers;
    [allocated] is whether the pool of messages has a node. *)
Definition dispatch (allocated : bool) (type : string) (msg : WireMessage Api Info) (s : State) :
    option State :=
  let '(m, pool) := s in
  if String.eqb type "A" then Some (MarketConsumer.on_login m, pool)
  else if String.eqb type "W" then
    let '(u, pool) := to_snapshot_data msg pool in
    e ← to_event u;
    Some (MarketConsumer.on_snapshot MarketConsumer.kFutures allocated e m, pool)
  else if String.eqb type "X" then
    let '(u, pool) := to_market_data msg pool in
    e ← to_event u;
    m ← MarketConsumer.on_subscribe MarketConsumer.kFutures allocated e m;
    Some (m, pool)
  else Some (m, pool).

Definition connected : list Z := codes "__CONNECTED__".

(** [handle_stream_payload] and [handle_api_payload]. *)
Definition handle_payload (allocated : bool) (payload : list Z) (s : State) : option State :=
  match payload with
  | [] => Some s
  | _ =>
      if bool_decide (payload = connected) then dispatch allocated "A" Monostate s
      else
        msg ← decode PriceScale QtyScale read_api read_info payload;
        match get_dispatch_type msg with
        | Some type => dispatch allocated type msg s
        | None => Some s
        end
  end.
End Ticker.

(** ** Entries of a pool that holds them *)

Definition entry_of (symbol : string) (side : Side) (level : Z * Z) : MarketData :=
  mkMarketData (if level.2 <=? 0 then MUCancel else MUAdd) 0 symbol side level.1 level.2.

Lemma allocate_free md pool :
  np_ok pool -> (0 < length (np_free pool))%nat ->
  exists pool', allocate md pool = (Some md, pool') /\ np_ok pool' /\
    length (np_free pool) = S (length (np_free pool')).
Proof.
  intros Hok Hf. unfold allocate. destruct (np_alloc pool) as [[n pool']|] eqn:E.
  - destruct (np_alloc_Some pool n pool' Hok E) as (Hok' & Hfr & _ & _).
    exists pool'. split; [done|]. split; [done|]. by rewrite Hfr.
  - apply np_alloc_None in E; [|done]. rewrite E in Hf. simpl in Hf. lia.
Qed.

Lemma side_entries_free symbol side levels pool :
  np_ok pool -> (length levels <= length (np_free pool))%nat ->
  exists pool', side_entries symbol side levels pool =
    (Some <$> map (entry_of symbol side) levels, pool') /\ np_ok pool' /\
    length (np_free pool) = (length levels + length (np_free pool'))%nat.
Proof.
  revert pool. induction levels as [|[price qty] levels IH]; intros pool Hok Hf; simpl in *.
  { by exists pool. }
  unfold make_entry.
  destruct (allocate_free (mkMarketData (if qty <=? 0 then MUCancel else MUAdd) 0 symbol side price qty)
    pool Hok ltac:(lia)) as (p1 & -> & Hok1 & Hl1).
  destruct (IH p1 Hok1 ltac:(lia)) as (p2 & -> & Hok2 & Hl2).
  exists p2. split; [done|]. split; [done|]. lia.
Qed.

(** The entries of a depth message and of a snapshot. *)
Definition level_entries (symbol : string) (bids asks : list (Z * Z)) : list MarketData :=
  map (entry_of symbol kBuy) bids ++ map (entry_of symbol kSell) asks.

Lemma both_sides_free symbol bids asks pool :
  np_ok pool -> (length bids + length asks <= length (np_free pool))%nat ->
  exists p1 p2, side_entries symbol kBuy bids pool = (Some <$> map (entry_of symbol kBuy) bids, p1) /\
    side_entries symbol kSell asks p1 = (Some <$> map (entry_of symbol kSell) asks, p2) /\ np_ok p2 /\
    length (np_free pool) = (length bids + length asks + length (np_free p2))%nat.
Proof.
  intros Hok Hf.
  destruct (side_entries_free symbol kBuy bids pool Hok ltac:(lia)) as (p1 & -> & Hok1 & Hl1).
  destruct (side_entries_free symbol kSell asks p1 Hok1 ltac:(lia)) as (p2 & E & Hok2 & Hl2).
  exists p1, p2. split_and!; done || lia.
Qed.

Lemma mapM_Some {A} (l : list A) : mapM id (Some <$> l) = Some l.
Proof. apply mapM_Some_2. induction l; constructor; done. Qed.

(** The event of a rendered depth message. *)
Definition depth_event (n m : nat) (r : RawDepth) : MarketConsumer.Event :=
  let d := depth_of n m r in
  MarketConsumer.mkEvent (dd_start_update_id d) (dd_end_update_id d)
    (dd_final_update_id_in_last_stream d) MDMarket
    (level_entries (of_codes (dd_symbol d)) (dd_bids d) (dd_asks d)).

Definition snapshot_event (n m : nat) (ticker : string) (r : RawSnapshot) : MarketConsumer.Event :=
  let d := snapshot_of n m r in
  let symbol := snapshot_symbol ticker (sn_id d) in
  MarketConsumer.mkEvent (sn_book_update_id d) (sn_book_update_id d) 0 MDMarket
    (clear_entry symbol :: level_entries symbol (sn_bids d) (sn_asks d)).

(** ** Bytes to events *)

Section Bytes.
Variables (n m : nat) (ticker : string).
Context {Api Info : Type}.
Variable read_api : list Z -> option Api.
Variable read_info : list Z -> option Info.
Abbreviation handle := (handle_payload ticker (pow10 n) (pow10 m) read_api read_info).

Lemma handle_decoded allocated payload msg (s : MarketConsumer.Consumer * P) :
  head payload = Some 123 ->
  decode (pow10 n) (pow10 m) read_api read_info payload = Some msg ->
  handle allocated payload s =
  match get_dispatch_type msg with
  | Some type => dispatch ticker allocated type msg s
  | None => Some s
  end.
Proof.
  intros Hh Hd. destruct payload as [|c payload]; [done|]. injection Hh as ->.
  unfold handle_payload. rewrite bool_decide_eq_false_2 by done. by rewrite Hd.
Qed.

Lemma handle_depth r pool :
  depth_ok n m r -> np_ok pool -> (length (rd_b r) + length (rd_a r) <= length (np_free pool))%nat ->
  exists pool', np_ok pool' /\
    length (np_free pool) = (length (rd_b r) + length (rd_a r) + length (np_free pool'))%nat /\
    forall allocated c, handle allocated (render_depth r) (c, pool) =
    c' ← MarketConsumer.on_subscribe MarketConsumer.kFutures allocated (depth_event n m r) c;
    Some (c', pool').
Proof.
  intros Hr Hok Hf. set (d := depth_of n m r).
  destruct (both_sides_free (of_codes (dd_symbol d)) (dd_bids d) (dd_asks d) pool Hok) as (p1 & p2 & E1 & E2 & Hok2 & Hl2).
  { simpl. by rewrite !length_map. }
  exists p2. split; [done|]. split; [simpl in Hl2; by rewrite !length_map in Hl2|]. intros allocated c.
  rewrite (handle_decoded _ _ (Depth d)) by (done || by apply decode_depth_message).
  cbn -[visit_depth]. unfold visit_depth. rewrite E1, E2. unfold to_event. cbn -[mapM].
  by rewrite <-fmap_app, mapM_Some.
Qed.

Lemma handle_snapshot r pool :
  snapshot_ok n m r -> np_ok pool ->
  (S (length (rs_bids r) + length (rs_asks r)) <= length (np_free pool))%nat ->
  exists pool', np_ok pool' /\ forall allocated c,
    handle allocated (render_snapshot r) (c, pool) =
    Some (MarketConsumer.on_snapshot MarketConsumer.kFutures allocated (snapshot_event n m ticker r) c, pool').
Proof.
  intros Hr Hok Hf. set (d := snapshot_of n m r). set (symbol := snapshot_symbol ticker (sn_id d)).
  destruct (allocate_free (clear_entry symbol) pool Hok ltac:(lia)) as (p0 & E0 & Hok0 & Hl0).
  destruct (both_sides_free symbol (sn_bids d) (sn_asks d) p0 Hok0) as (p1 & p2 & E1 & E2 & Hok2 & _).
  { simpl. rewrite !length_map. lia. }
  exists p2. split; [done|]. intros allocated c.
  rewrite (handle_decoded _ _ (Snapshot d)) by (done || by apply decode_snapshot_message).
  cbn -[visit_snapshot_as snapshot_symbol sn_id]. unfold visit_snapshot_as. fold symbol. rewrite E0, E1, E2.
  rewrite <-fmap_app, <-fmap_cons. unfold to_event. cbn -[mapM fmap].
  by rewrite mapM_Some.
Qed.
End Bytes.

(** ** Events to ladders *)

(** What the exchange means by a level of a side: the quantity resting at the
    price, none when it is zero.  Prices outside of the configured range have
    no place in the book. *)
Definition set_level (cfg : OrderBookConfig) (is_bid : bool) (l : Ladders) (level : Z * Z) : Ladders :=
  let '(price, qty) := level in
  if (max_price_int cfg <? price) || (price <? min_price_int cfg) then l
  else
    let set (side : ladder) := if 0 <? qty then <[price := qty]> side else delete price side in
    if is_bid then mkLadders (set (bids l)) (asks l) else mkLadders (bids l) (set (asks l)).

Definition set_levels (cfg : OrderBookConfig) (bid_levels ask_levels : list (Z * Z)) (l : Ladders) : Ladders :=
  fold_left (set_level cfg false) ask_levels (fold_left (set_level cfg true) bid_levels l).

Lemma apply_entry cfg symbol (is_bid : bool) l level :
  spec_apply cfg l (entry_of symbol (if is_bid then kBuy else kSell) level) = set_level cfg is_bid l level.
Proof.
  destruct level as [price qty]. unfold spec_apply, set_level, entry_of. simpl.
  destruct ((max_price_int cfg <? price) || (price <? min_price_int cfg)); [done|].
  unfold spec_side, spec_update, is_active.
  destruct (Z.leb_spec qty 0), is_bid; simpl;
    rewrite ?(proj2 (Z.ltb_ge 0 qty)), ?(proj2 (Z.ltb_lt 0 qty)) by lia; done.
Qed.

Lemma apply_entries cfg symbol (is_bid : bool) levels l :
  fold_left (spec_apply cfg) (map (entry_of symbol (if is_bid then kBuy else kSell)) levels) l =
  fold_left (set_level cfg is_bid) levels l.
Proof.
  revert l. induction levels as [|level levels IH]; intros l; [done|]. simpl. by rewrite apply_entry, IH.
Qed.

Lemma apply_level_entries cfg symbol bid_levels ask_levels l :
  fold_left (spec_apply cfg) (level_entries symbol bid_levels ask_levels) l =
  set_levels cfg bid_levels ask_levels l.
Proof.
  unfold level_entries, set_levels. rewrite fold_left_app.
  by rewrite (apply_entries _ _ true), (apply_entries _ _ false).
Qed.

Lemma level_entries_msgs cfg symbol bid_levels ask_levels :
  Forall (level_msg cfg) (level_entries symbol bid_levels ask_levels).
Proof.
  apply Forall_app; split; apply Forall_map, Forall_true; intros [price qty]; unfold level_msg, entry_of;
    simpl; destruct (Z.leb_spec qty 0); done.
Qed.

(** Feeding the entries of a message to a book. *)
Lemma feed_levels (bk : Book P) symbol bid_levels ask_levels :
  book_ok bk ->
  follows bk (fst <$> feed (level_entries symbol bid_levels ask_levels) bk)
    (set_levels (config bk) bid_levels ask_levels).
Proof.
  intros Hok. pose proof (feed_steps _ bk Hok (level_entries_msgs (config bk) symbol bid_levels ask_levels)) as Hs.
  unfold follows in *. destruct (feed _ _) as [[bk' notes]|]; [|done]. simpl in *.
  destruct Hs as (H1 & H2 & H3). split_and!; [done..|]. intros l Hl.
  rewrite <-(apply_level_entries _ symbol). by apply H3.
Qed.

(** A clear without a price is dropped when the range starts above zero. *)
Lemma feed_clear (bk : Book P) symbol entries :
  0 < min_price_int (config bk) ->
  fst <$> feed (clear_entry symbol :: entries) bk = fst <$> feed entries bk.
Proof.
  intros Hmin. cbn [feed]. unfold on_market_data_updated at 1. cbn [md_price clear_entry].
  rewrite (proj2 (Z.ltb_lt 0 _) Hmin), orb_true_r. by destruct (feed entries bk) as [[? ?]|].
Qed.

Lemma set_level_bids cfg is_bid l level price :
  (is_bid = true -> price <> level.1) ->
  bids (set_level cfg is_bid l level) !! price = bids l !! price.
Proof.
  destruct level as [p q]. unfold set_level. simpl. intros Hne.
  destruct (_ || _); [done|]. destruct is_bid; [|done]. specialize (Hne eq_refl). simpl.
  destruct (0 <? q); [by rewrite lookup_insert_ne | by rewrite lookup_delete_ne].
Qed.

Lemma set_levels_bids cfg bid_levels ask_levels l price :
  price ∉ map fst bid_levels ->
  bids (set_levels cfg bid_levels ask_levels l) !! price = bids l !! price.
Proof.
  intros Hb. unfold set_levels. transitivity (bids (fold_left (set_level cfg true) bid_levels l) !! price).
  - generalize (fold_left (set_level cfg true) bid_levels l). induction ask_levels as [|a levels IH]; intros l'; [done|].
    simpl. rewrite IH. by apply set_level_bids.
  - revert l. induction bid_levels as [|b levels IH]; intros l; [done|]. simpl in *.
    apply not_elem_of_cons in Hb as [Hb Hbs]. rewrite IH by done. by apply set_level_bids.
Qed.

Lemma side_entries_exhausted symbol side levels (pool : P) entries pool' :
  np_ok pool -> side_entries symbol side levels pool = (entries, pool') ->
  np_ok pool' /\
  ((length levels <= length (np_free pool))%nat /\
    length (np_free pool) = (length levels + length (np_free pool'))%nat \/
   (length (np_free pool) < length levels)%nat /\ None ∈ entries).
Proof.
  revert pool entries pool'. induction levels as [|[price qty] levels IH]; intros pool entries pool' Hok E; simpl in *.
  { injection E as <- <-. split; [done|]. left. lia. }
  unfold make_entry, allocate in E. destruct (np_alloc pool) as [[k p1]|] eqn:Ea.
  - destruct (np_alloc_Some pool k p1 Hok Ea) as (Hok1 & Hfr & _ & _).
    destruct (side_entries symbol side levels p1) as [rest p2] eqn:Er. injection E as <- <-.
    destruct (IH p1 rest p2 Hok1 Er) as (Hok2 & [[Hle Hl]|[Hlt Hin]]); split; try done; rewrite Hfr; simpl.
    + left. lia.
    + right. split; [lia|]. apply elem_of_cons; by right.
  - destruct (side_entries symbol side levels pool) as [rest p2] eqn:Er. injection E as <- <-.
    destruct (IH pool rest p2 Hok Er) as (Hok2 & _). split; [done|].
    apply np_alloc_None in Ea; [|done]. rewrite Ea. right. split; [simpl; lia|]. apply elem_of_cons; by left.
Qed.

Lemma null_entry_undefined (entries : list (option MarketData)) : None ∈ entries -> mapM id entries = None.
Proof.
  intros Hin. destruct (mapM id entries) as [l|] eqn:E; [|done].
  apply mapM_Some_1 in E. exfalso. induction E as [|x y entries l Hx _ IH]; [by apply elem_of_nil in Hin|].
  apply elem_of_cons in Hin as [<-|Hin]; [done | by apply IH].
Qed.

End Converter.

(** C12: the bytes of a depth message, from the wire to the order book.  For
    every message in the documented format and a pool that holds its levels,
    the application hands the consumer exactly one event with the ids of the
    message, and the entries of this event move a book that shows two ladders
    to a book that shows the ladders with every level of the message set to its
    quantity, or removed when the quantity is zero.  The book fails only when a
    level of the message is in a new bucket and the bucket pool of its side is
    empty, which takes a price range of more than 256 buckets. *)
Theorem depth_bytes_update_ladders {P Q} `{NodePool P, NodePool Q} n m ticker {Api Info}
    (read_api : list Z -> option Api) (read_info : list Z -> option Info) r (pool : P) (bk : Book Q) l :
  depth_ok n m r -> np_ok pool -> (length (rd_b r) + length (rd_a r) <= length (np_free pool))%nat ->
  book_ok bk -> book_represents bk l ->
  let event := depth_event n m r in
  (exists pool', np_ok pool' /\ forall allocated c,
     handle_payload ticker (pow10 n) (pow10 m) read_api read_info allocated (render_depth r) (c, pool) =
     c' ← MarketConsumer.on_subscribe MarketConsumer.kFutures allocated event c; Some (c', pool')) /\
  match feed (MarketConsumer.data event) bk with
  | Some (bk', _) => book_ok bk' /\ book_represents bk'
      (set_levels (config bk) (map (level_of n m) (rd_b r)) (map (level_of n m) (rd_a r)) l)
  | None => overflows (config bk) (MarketConsumer.data event) l = true /\
      kMaxBucketPoolSize < bucket_count (config bk)
  end.
Proof.
  intros Hr Hok Hf Hbk Hl event. split.
  { destruct (handle_depth n m ticker read_api read_info r pool Hr Hok Hf) as (pool' & ? & _ & ?). by exists pool'. }
  pose proof (feed_levels bk (of_codes (rd_s r)) (map (level_of n m) (rd_b r)) (map (level_of n m) (rd_a r)) Hbk) as Hs.
  pose proof (feed_fails _ bk l Hbk (level_entries_msgs (config bk) (of_codes (rd_s r))
    (map (level_of n m) (rd_b r)) (map (level_of n m) (rd_a r))) Hl) as Hfail.
  unfold follows in Hs. simpl. destruct (feed _ _) as [[bk' notes]|]; [|split; [by apply Hfail | done]].
  destruct Hs as (H1 & _ & H3). split; [done | by apply H3].
Qed.

Definition wire_depth : RawDepth :=
  mkRawDepth (json "xrpusdc@depth") (json "depthUpdate") (json "1700000000123") (json "1700000000120")
    (json "XRPUSDC") (json "1000") (json "1005") (json "999")
    [(json "50.01", json "17.5"); (json "50.00", json "0")] [(json "50.20", json "3.25")].

Lemma wire_depth_ok : depth_ok 2 3 wire_depth.
Proof.
  unfold depth_ok, stream_ok, name, digits, id_ok, level_ok, decimal, decimal_text.
  split_and!; try decided.
  exists 120, (json "rpusdc"), (json "epth"). split; [done | decided].
Qed.

Definition no_message (_ : list Z) : option unit := None.

Lemma demo_pool_ok : np_ok (MemoryPool.create 16) /\ length (np_free (MemoryPool.create 16)) = 16%nat.
Proof. destruct (create_fresh 16) as (H1 & H2 & _); [done|]. split; [done|]. unfold zlen in H2. lia. Qed.

Lemma depth_bytes_update_ladders_witness :
  match feed (MarketConsumer.data (depth_event 2 3 wire_depth)) demo_book with
  | Some (bk', _) => book_ok bk' /\ book_represents bk'
      (set_levels demo_cfg [(5001, 17500); (5000, 0)] [(5020, 3250)] (mkLadders ∅ ∅))
  | None => overflows demo_cfg (MarketConsumer.data (depth_event 2 3 wire_depth)) (mkLadders ∅ ∅) = true /\
      kMaxBucketPoolSize < bucket_count demo_cfg
  end.
Proof.
  destruct (new_book_ok demo_cfg (MemoryPool.create 2) (MemoryPool.create 2)) as [Hok Hrep];
    [by apply from_ini_ok | apply create_fresh; done.. |].
  apply (depth_bytes_update_ladders 2 3 "XRPUSDC" no_message no_message wire_depth (MemoryPool.create 16)
    demo_book (mkLadders ∅ ∅) wire_depth_ok (proj1 demo_pool_ok)); [|done..].
  rewrite (proj2 demo_pool_ok). simpl. lia.
Defined.

(** A snapshot does not replace the book.  Its clear entry carries the
    price 0, which the book drops when its price range starts above zero, so
    that the levels of the snapshot are laid over the old ones and a level that
    the snapshot no longer has stays in the book. *)
Theorem snapshot_bytes_keep_old_levels {P Q} `{NodePool P, NodePool Q} n m ticker {Api Info}
    (read_api : list Z -> option Api) (read_info : list Z -> option Info) r (pool : P) (bk : Book Q) l :
  snapshot_ok n m r -> np_ok pool ->
  (S (length (rs_bids r) + length (rs_asks r)) <= length (np_free pool))%nat ->
  book_ok bk -> book_represents bk l -> 0 < min_price_int (config bk) ->
  let event := snapshot_event n m ticker r in
  let snapshot_bids := map (level_of n m) (rs_bids r) in
  let after := set_levels (config bk) snapshot_bids (map (level_of n m) (rs_asks r)) l in
  (exists pool', np_ok pool' /\ forall allocated c,
     handle_payload ticker (pow10 n) (pow10 m) read_api read_info allocated (render_snapshot r) (c, pool) =
     Some (MarketConsumer.on_snapshot MarketConsumer.kFutures allocated event c, pool')) /\
  match feed (MarketConsumer.data event) bk with
  | Some (bk', _) => book_represents bk' after
  | None => kMaxBucketPoolSize < bucket_count (config bk)
  end /\
  forall price qty, bids l !! price = Some qty -> price ∉ map fst snapshot_bids ->
    bids after !! price = Some qty.
Proof.
  intros Hr Hok Hf Hbk Hl Hmin event sb after. split_and!; [by apply handle_snapshot| |].
  - pose proof (feed_levels bk (snapshot_symbol ticker (rs_id r)) sb (map (level_of n m) (rs_asks r)) Hbk) as Hs.
    rewrite <-(feed_clear bk (snapshot_symbol ticker (rs_id r))) in Hs by done.
    unfold follows in Hs. simpl MarketConsumer.data. fold sb.
    destruct (feed (_ :: _) bk) as [[bk' notes]|]; [|done]. destruct Hs as (_ & _ & H3). by apply H3.
  - intros price qty Hp Hn. unfold after. by rewrite set_levels_bids.
Qed.

Definition wire_snapshot : RawSnapshot :=
  mkRawSnapshot (json "snapshot_XRPUSDC") (json "200") (json "1005") (json "1700000000123")
    (json "1700000000120") [(json "50.01", json "17.5")] [(json "50.20", json "3.25")].

Lemma snapshot_bytes_keep_old_levels_witness :
  exists bk l, book_represents bk l /\ bids l !! 5000 = Some 3 /\
  let after := set_levels demo_cfg [(5001, 17500)] [(5020, 3250)] l in
  match feed (MarketConsumer.data (snapshot_event 2 3 "XRPUSDC" wire_snapshot)) bk with
  | Some (bk', _) => book_represents bk' after
  | None => kMaxBucketPoolSize < bucket_count demo_cfg
  end /\ bids after !! 5000 = Some 3.
Proof.
  destruct (new_book_ok demo_cfg (MemoryPool.create 2) (MemoryPool.create 2)) as [Hok Hrep];
    [by apply from_ini_ok | apply create_fresh; done.. |].
  pose proof (feed_levels _ "XRPUSDC" [(5000, 3)] [] Hok) as Hf. unfold follows in Hf.
  destruct (feed _ _) as [[bk notes]|] eqn:E; [|by vm_compute in E].
  destruct Hf as (Hbk & Hcfg & Hl). simpl in Hcfg.
  exists bk, (set_levels demo_cfg [(5000, 3)] [] (mkLadders ∅ ∅)).
  split; [by apply Hl|]. split; [done|].
  destruct (snapshot_bytes_keep_old_levels 2 3 "XRPUSDC" no_message no_message wire_snapshot
    (MemoryPool.create 16) bk (set_levels demo_cfg [(5000, 3)] [] (mkLadders ∅ ∅))) as (_ & H2 & H3).
  - unfold snapshot_ok, name, digits, id_ok, level_ok, decimal, decimal_text. split_and!; decided.
  - apply demo_pool_ok.
  - rewrite (proj2 demo_pool_ok). simpl. lia.
  - done.
  - by apply Hl.
  - by rewrite Hcfg.
  - rewrite Hcfg in *. split; [done|]. apply H3; [done | decided].
Defined.

(** A depth message with more levels than the pool of market data has
    nodes gives an event with a null entry, which the trade engine dereferences:
    the converter pushes the result of the allocation without looking at it. *)
Theorem exhausted_pool_null_entry {P} `{NodePool P} msg (pool : P) :
  np_ok pool -> (length (np_free pool) < length (dd_bids msg) + length (dd_asks msg))%nat ->
  None ∈ mu_data (visit_depth msg pool).1 /\ to_event (visit_depth msg pool).1 = None.
Proof.
  intros Hok Hlt. unfold visit_depth.
  destruct (side_entries _ kBuy (dd_bids msg) pool) as [eb p1] eqn:E1.
  destruct (side_entries _ kSell (dd_asks msg) p1) as [ea p2] eqn:E2. simpl.
  destruct (side_entries_exhausted _ _ _ _ _ _ Hok E1) as (Hok1 & C1).
  destruct (side_entries_exhausted _ _ _ _ _ _ Hok1 E2) as (_ & C2).
  assert (Hin : None ∈ eb ++ ea).
  { apply elem_of_app. destruct C1 as [[? ?]|[? ?]]; [|by left].
    destruct C2 as [[? ?]|[? ?]]; [lia | by right]. }
  split; [done|]. unfold to_event. simpl. by rewrite null_entry_undefined.
Qed.

Lemma exhausted_pool_null_entry_witness :
  None ∈ mu_data (visit_depth (depth_of 2 3 wire_depth) (MemoryPool.create 2)).1 /\
  to_event (visit_depth (depth_of 2 3 wire_depth) (MemoryPool.create 2)).1 = None.
Proof.
  destruct (create_fresh 2) as (H1 & H2 & _); [done|].
  apply exhausted_pool_null_entry; [done|]. unfold zlen in H2. simpl length at 2 3. lia.
Defined.

End FuturesFeed.
