(* ===== verification/SpotFeed.v ===== *)
(** * The spot market data path
      (src/hft/core/websocket/market_data/exchanges/binance/spot/binance_spot_domain_converter.h,
      binance_spot_dispatcher.h, json_binance_spot_md_decoder.hpp, ws_md_app.hpp)

    The text decoder (the JSON reader is a parameter), the domain converter for
    texts and for the binary messages of [SbeDecoder], the router and the
    application dispatch.  Decoded prices and quantities are doubles; the
    converter hands them to [int64_t] parameters, which truncates, and a value
    that does not fit is undefined ([None]).

    The theorems: the scale of the build is never applied, so that prices lose
    their fraction and a level with less than one unit becomes a cancellation;
    a best-quote message, and a depth message the decoder refuses, restart the
    recovery of a running consumer. *)

From Stdlib Require Import QArith.
From S2P Require Import Prelude Types Binary64 MemoryPool OrderBook OrderBookFacts OrderBookRefine FixedPoint Text SbeDecoder MarketConsumer FuturesFeed.

Module SpotFeed.
Import Text FuturesFeed.
Local Open Scope Z_scope.

(** ** Decoded texts

    The fields that the converter reads. *)

Abbreviation Level := (Q * Q)%type.

Record DepthData := mkDepthData {
  dd_symbol : list Z;
  dd_start_update_id : Z;
  dd_end_update_id : Z;
  dd_bids : list Level;
  dd_asks : list Level;
}.

Record TradeData := mkTradeData {
  td_symbol : list Z;
  td_price : Q;
  td_quantity : Q;
  td_is_buyer_market_maker : bool;
}.

(** [DepthSnapshot] with its [DepthSnapshotResult]. *)
Record DepthSnapshot := mkDepthSnapshot {
  sn_id : list Z;
  sn_last_update_id : Z;
  sn_bids : list Level;
  sn_asks : list Level;
}.

(** The alternatives of the two decoders. *)
Inductive WireMessage {Api Info : Type} :=
| Monostate
| Depth (msg : DepthData)
| Snapshot (msg : DepthSnapshot)
| TradeEvent (msg : TradeData)
| ApiResponse (msg : Api)
| ExchangeInfo (msg : Info)
| SbeDepth (msg : Sbe.SbeDepthResponse)
| SbeSnapshot (msg : Sbe.SbeDepthSnapshot)
| SbeTrades (msg : Sbe.SbeTradeEvent)
| SbeBest (msg : Sbe.SbeBestBidAsk).
Arguments WireMessage : clear implicits.

(** [payload.contains(text)] and [stream.ends_with(text)] *)
Fixpoint contains (text payload : list Z) : bool :=
  bool_decide (text `prefix_of` payload) ||
  match payload with [] => false | _ :: rest => contains text rest end.

Definition ends_with (text stream : list Z) : bool := bool_decide (text `suffix_of` stream).

Section Decoder.
Context {Api Info : Type}.
(** [glz::read_json] of each type, and the header with the name of the stream. *)
Variable read_snapshot : list Z -> option DepthSnapshot.
Variable read_info : list Z -> option Info.
Variable read_header : list Z -> option (list Z).
Variable read_api : list Z -> option Api.
Variable read_depth : list Z -> option DepthData.
Variable read_trade : list Z -> option TradeData.

Definition decode_or_log {A : Type} (read : list Z -> option A) (inject : A -> WireMessage Api Info) (payload : list Z) :
    WireMessage Api Info :=
  match read payload with Some parsed => inject parsed | None => Monostate end.

Definition decode (payload : list Z) : WireMessage Api Info :=
  if bool_decide (payload = []) || bool_decide (payload = codes "__CONNECTED__") then Monostate
  else if contains (codes "snapshot") payload then decode_or_log read_snapshot Snapshot payload
  else if contains (codes "exchangeInfo") payload then decode_or_log read_info ExchangeInfo payload
  else
    match read_header payload with
    | None => decode_or_log read_api ApiResponse payload
    | Some stream =>
        if ends_with (codes "@depth@100ms") stream then decode_or_log read_depth Depth payload
        else if ends_with (codes "@trade") stream then decode_or_log read_trade TradeEvent payload
        else decode_or_log read_api ApiResponse payload
    end.
End Decoder.

(** The binary decoder's alternatives. *)
Definition of_sbe {Api Info : Type} (msg : Sbe.WireMessage) : WireMessage Api Info :=
  match msg with
  | Sbe.SbeMonostate => Monostate
  | Sbe.SbeDepth m => SbeDepth m
  | Sbe.SbeSnapshot m => SbeSnapshot m
  | Sbe.SbeTrades m => SbeTrades m
  | Sbe.SbeBest m => SbeBest m
  end.

(** ** Domain conversion *)

(** The conversion of a double to the [int64_t] parameters of [make_entry]. *)
Definition to_int64 (q : Q) : option Z :=
  let v := Binary64.trunc q in
  if (int64_min <=? v) && (v <=? int64_max) then Some v else None.

Definition raw_level (level : Level) : option (Z * Z) :=
  price ← to_int64 level.1; qty ← to_int64 level.2; Some (price, qty).

Definition raw_levels (levels : list Level) : option (list (Z * Z)) := mapM raw_level levels.

Section Converter.
Context {P : Type} `{NodePool P}.

(** The two loops over the levels; null entries are pushed too. *)
Definition book_entries (symbol : string) (bids asks : list Level) (pool : P) :
    option (list (option MarketData) * P) :=
  raw_bids ← raw_levels bids;
  raw_asks ← raw_levels asks;
  let '(bid_entries, pool) := side_entries symbol kBuy raw_bids pool in
  let '(ask_entries, pool) := side_entries symbol kSell raw_asks pool in
  Some (bid_entries ++ ask_entries, pool).

(** The operators for [DepthResponse] and [SbeDepthResponse]. *)
Definition visit_levels (start_id end_id : Z) (symbol : list Z) (bids asks : list Level) (pool : P) :
    option (MarketUpdateData * P) :=
  '(entries, pool) ← book_entries (of_codes symbol) bids asks pool;
  Some (mkUpdate start_id end_id 0 (Some MDMarket) entries, pool).

(** The operators for snapshots, of either visitor. *)
Definition visit_snapshot (symbol : string) (id : Z) (bids asks : list Level) (pool : P) :
    option (MarketUpdateData * P) :=
  let '(clear, pool) := allocate (clear_entry symbol) pool in
  '(entries, pool) ← book_entries symbol bids asks pool;
  Some (mkUpdate id id 0 (Some MDMarket) (clear :: entries), pool).

(** An entry of a trade, pushed when the pool has a node. *)
Definition trade_entry (symbol : list Z) (is_buyer_maker : bool) (price qty : Q) (pool : P) :
    option (list (option MarketData) * P) :=
  price ← to_int64 price;
  qty ← to_int64 qty;
  let '(entry, pool) := make_entry (of_codes symbol) (if is_buyer_maker then kSell else kBuy) price qty MUTrade pool in
  Some (push_entry entry, pool).

Fixpoint trade_entries (symbol : list Z) (trades : list Sbe.SbeTrade) (pool : P) :
    option (list (option MarketData) * P) :=
  match trades with
  | [] => Some ([], pool)
  | trade :: trades' =>
      '(entry, pool) ← trade_entry symbol (Sbe.tr_is_buyer_maker trade) (Sbe.tr_price trade) (Sbe.tr_qty trade) pool;
      '(entries, pool) ← trade_entries symbol trades' pool;
      Some (entry ++ entries, pool)
  end.

Definition trade_update (entries : list (option MarketData)) : MarketUpdateData :=
  mkUpdate (u64 (-1)) (u64 (-1)) 0 (Some MDTrade) entries.

Section Ticker.
Variable ticker : string.
Context {Api Info : Type}.

(** [MarketDataVisitor] *)
Definition to_market_data (msg : WireMessage Api Info) (pool : P) : option (MarketUpdateData * P) :=
  match msg with
  | Depth m => visit_levels (dd_start_update_id m) (dd_end_update_id m) (dd_symbol m) (dd_bids m) (dd_asks m) pool
  | TradeEvent m =>
      '(entries, pool) ← trade_entry (td_symbol m) (td_is_buyer_market_maker m) (td_price m) (td_quantity m) pool;
      Some (trade_update entries, pool)
  | SbeDepth m =>
      visit_levels (u64 (Sbe.dr_first_book_update_id m)) (u64 (Sbe.dr_last_book_update_id m)) (Sbe.dr_symbol m)
        (Sbe.dr_bids m) (Sbe.dr_asks m) pool
  | SbeTrades m =>
      '(entries, pool) ← trade_entries (Sbe.te_symbol m) (Sbe.te_trades m) pool;
      Some (trade_update entries, pool)
  | SbeSnapshot m =>
      visit_snapshot (of_codes (Sbe.ds_symbol m)) (u64 (Sbe.ds_book_update_id m)) (Sbe.ds_bids m) (Sbe.ds_asks m) pool
  | SbeBest m =>
      visit_levels (u64 (Sbe.bb_book_update_id m)) (u64 (Sbe.bb_book_update_id m)) (Sbe.bb_symbol m)
        [(Sbe.bb_bid_price m, Sbe.bb_bid_qty m)] [(Sbe.bb_ask_price m, Sbe.bb_ask_qty m)] pool
  | Monostate | Snapshot _ | ApiResponse _ | ExchangeInfo _ => Some (MarketUpdateData_default, pool)
  end.

(** [SnapshotVisitor] *)
Definition to_snapshot_data (msg : WireMessage Api Info) (pool : P) : option (MarketUpdateData * P) :=
  match msg with
  | Snapshot m => visit_snapshot (snapshot_symbol ticker (sn_id m)) (sn_last_update_id m) (sn_bids m) (sn_asks m) pool
  | SbeSnapshot m =>
      visit_snapshot (of_codes (Sbe.ds_symbol m)) (u64 (Sbe.ds_book_update_id m)) (Sbe.ds_bids m) (Sbe.ds_asks m) pool
  | _ => Some (MarketUpdateData_default, pool)
  end.

(** ** Routing *)

Definition get_dispatch_type (msg : WireMessage Api Info) : option string :=
  match msg with
  | Snapshot _ | SbeSnapshot _ => Some "W"%string
  | Depth _ | TradeEvent _ | SbeDepth _ | SbeTrades _ | SbeBest _ => Some "X"%string
  | ExchangeInfo _ => Some "y"%string
  | Monostate | ApiResponse _ => None
  end.

Abbreviation State := (MarketConsumer.Consumer * P)%type.

(** [dispatch(type, message)]; the callback of "y" hands an instrument list
    to the trade engine and leaves the consumer as it is. *)
Definition dispatch (allocated : bool) (type : string) (msg : WireMessage Api Info) (s : State) : option State :=
  let '(m, pool) := s in
  if String.eqb type "A" then Some (MarketConsumer.on_login m, pool)
  else if String.eqb type "W" then
    '(u, pool) ← to_snapshot_data msg pool;
    e ← to_event u;
    Some (MarketConsumer.on_snapshot MarketConsumer.kSpot allocated e m, pool)
  else if String.eqb type "X" then
    '(u, pool) ← to_market_data msg pool;
    e ← to_event u;
    m ← MarketConsumer.on_subscribe MarketConsumer.kSpot allocated e m;
    Some (m, pool)
  else Some (m, pool).

(** [handle_stream_payload] and [handle_api_payload]; the decoder is the text
    decoder, or the binary one in a build with it. *)
Definition handle_payload (decoder : list Z -> option (WireMessage Api Info)) (allocated : bool) (payload : list Z)
    (s : State) : option State :=
  match payload with
  | [] => Some s
  | _ =>
      if bool_decide (payload = codes "__CONNECTED__") then dispatch allocated "A" Monostate s
      else
        msg ← decoder payload;
        match get_dispatch_type msg with
        | Some type => dispatch allocated type msg s
        | None => Some s
        end
  end.

Definition sbe_decoder (pow10f : Z -> Q) (payload : list Z) : option (WireMessage Api Info) :=
  of_sbe <$> Sbe.decode_impl pow10f payload.

End Ticker.

(** ** Levels lose their fraction *)

Definition fits (level : Level) : Prop := in_i64 (Binary64.trunc level.1) /\ in_i64 (Binary64.trunc level.2).
Definition trunc_level (level : Level) : Z * Z := (Binary64.trunc level.1, Binary64.trunc level.2).

Lemma to_int64_fits q : in_i64 (Binary64.trunc q) -> to_int64 q = Some (Binary64.trunc q).
Proof.
  unfold in_i64, to_int64. intros [H1 H2]. by rewrite (proj2 (Z.leb_le _ _) H1), (proj2 (Z.leb_le _ _) H2).
Qed.

Lemma raw_levels_fit levels : Forall fits levels -> raw_levels levels = Some (map trunc_level levels).
Proof.
  intros Hf. apply mapM_Some_2. induction Hf as [|l levels [H1 H2] _ IH]; [done|].
  constructor; [|done]. unfold raw_level. by rewrite (to_int64_fits _ H1), (to_int64_fits _ H2).
Qed.

Lemma trunc_fraction q : (0 <= q)%Q -> (q < 1)%Q -> Binary64.trunc q = 0.
Proof. intros H0 H1. by apply Binary64.trunc_between. Qed.

(** The messages that set levels: ids, symbol and the two sides. *)
Definition levels_of {Api Info : Type} (msg : WireMessage Api Info) :
    option (Z * Z * list Z * list Level * list Level) :=
  match msg with
  | Depth m => Some (dd_start_update_id m, dd_end_update_id m, dd_symbol m, dd_bids m, dd_asks m)
  | SbeDepth m => Some (u64 (Sbe.dr_first_book_update_id m), u64 (Sbe.dr_last_book_update_id m), Sbe.dr_symbol m,
      Sbe.dr_bids m, Sbe.dr_asks m)
  | SbeBest m => Some (u64 (Sbe.bb_book_update_id m), u64 (Sbe.bb_book_update_id m), Sbe.bb_symbol m,
      [(Sbe.bb_bid_price m, Sbe.bb_bid_qty m)], [(Sbe.bb_ask_price m, Sbe.bb_ask_qty m)])
  | _ => None
  end.

Definition spot_event (start_id end_id : Z) (symbol : list Z) (bids asks : list Level) : MarketConsumer.Event :=
  MarketConsumer.mkEvent start_id end_id 0 MDMarket
    (level_entries (of_codes symbol) (map trunc_level bids) (map trunc_level asks)).

Lemma dispatch_levels {Api Info : Type} ticker (msg : WireMessage Api Info) start_id end_id symbol bids asks (pool : P) :
  levels_of msg = Some (start_id, end_id, symbol, bids, asks) ->
  Forall fits bids -> Forall fits asks ->
  np_ok pool -> (length bids + length asks <= length (np_free pool))%nat ->
  exists pool', np_ok pool' /\ forall allocated m,
    dispatch ticker allocated "X" msg (m, pool) =
    m' ← MarketConsumer.on_subscribe MarketConsumer.kSpot allocated (spot_event start_id end_id symbol bids asks) m;
    Some (m', pool').
Proof.
  intros Hmsg Hb Ha Hok Hf.
  destruct (both_sides_free (of_codes symbol) (map trunc_level bids) (map trunc_level asks) pool Hok) as (p1 & p2 & E1 & E2 & Hok2 & _).
  { by rewrite !length_map. }
  exists p2. split; [done|]. intros allocated m.
  assert (Hv : to_market_data msg pool = visit_levels start_id end_id symbol bids asks pool)
    by (destruct msg; try discriminate Hmsg; by injection Hmsg as <- <- <- <- <-).
  unfold dispatch. cbn [String.eqb Ascii.eqb Bool.eqb]. rewrite Hv. unfold visit_levels, book_entries.
  rewrite (raw_levels_fit bids), (raw_levels_fit asks) by done. cbn [mbind option_bind]. rewrite E1, E2.
  cbn [mbind option_bind]. unfold to_event. cbn -[mapM]. by rewrite <-fmap_app, mapM_Some.
Qed.

Lemma ask_levels_keep_bids cfg levels l : bids (fold_left (set_level cfg false) levels l) = bids l.
Proof.
  revert l. induction levels as [|[p q] levels IH]; intros l; [done|]. simpl. rewrite IH.
  by destruct (_ || _).
Qed.

End Converter.

(** Error.  Spot levels lose their fraction.  A depth or best-quote
    message, text or binary, gives the consumer one event whose prices and
    quantities are the decoded numbers without their fraction: the scale of the
    build is not applied.  The book is set to these levels, and a bid with less
    than one unit removes the price it names. *)
Theorem spot_levels_truncated {P R} `{NodePool P, NodePool R} {Api Info} ticker decoder
    (msg : WireMessage Api Info) payload start_id end_id symbol bid_levels ask_levels (pool : P) (bk : Book R) l :
  payload <> [] -> payload <> codes "__CONNECTED__" -> decoder payload = Some msg ->
  levels_of msg = Some (start_id, end_id, symbol, bid_levels, ask_levels) ->
  Forall fits bid_levels -> Forall fits ask_levels ->
  np_ok pool -> (length bid_levels + length ask_levels <= length (np_free pool))%nat ->
  book_ok bk -> book_represents bk l ->
  let event := spot_event start_id end_id symbol bid_levels ask_levels in
  let after := set_levels (config bk) (map trunc_level bid_levels) (map trunc_level ask_levels) l in
  (exists pool', np_ok pool' /\ forall allocated m,
     handle_payload ticker decoder allocated payload (m, pool) =
     m' ← MarketConsumer.on_subscribe MarketConsumer.kSpot allocated event m; Some (m', pool')) /\
  match feed (MarketConsumer.data event) bk with
  | Some (bk', _) => book_represents bk' after
  | None => kMaxBucketPoolSize < bucket_count (config bk)
  end /\
  forall others price qty, bid_levels = others ++ [(price, qty)] -> (0 <= qty)%Q -> (qty < 1)%Q ->
    min_price_int (config bk) <= Binary64.trunc price <= max_price_int (config bk) ->
    bids after !! Binary64.trunc price = None.
Proof.
  intros Hne Hc Hd Hmsg Hb Ha Hok Hf Hbk Hl event after. split_and!.
  - destruct (dispatch_levels ticker msg _ _ _ _ _ pool Hmsg Hb Ha Hok Hf) as (pool' & Hok' & E).
    exists pool'. split; [done|]. intros allocated m. rewrite <-E. destruct payload as [|c payload]; [done|].
    unfold handle_payload. rewrite bool_decide_eq_false_2, Hd by done. cbn [mbind option_bind].
    by destruct msg; try discriminate Hmsg.
  - pose proof (feed_levels bk (of_codes symbol) (map trunc_level bid_levels) (map trunc_level ask_levels) Hbk) as Hs.
    unfold follows in Hs. unfold event. cbn [MarketConsumer.data spot_event].
    destruct (feed _ _) as [[bk' notes]|]; [|done]. destruct Hs as (_ & _ & H3). by apply H3.
  - intros others price qty -> Hq0 Hq1 Hr. unfold after, set_levels. rewrite ask_levels_keep_bids, map_app, fold_left_app.
    simpl. unfold trunc_level. simpl. rewrite (trunc_fraction qty Hq0 Hq1).
    rewrite (proj2 (Z.ltb_ge _ _) (proj2 Hr)), (proj2 (Z.ltb_ge _ _) (proj1 Hr)). simpl. apply lookup_delete_eq.
Qed.

(** 49.75 and 0.4 units at the best bid, from a binary depth message. *)
Definition exact_pow10 (e : Z) : Q := Qpower 10 e.

Definition demo_wire : list Z :=
  Sbe.le_bytes 2 26 ++ Sbe.le_bytes 2 Sbe.kDepthDiffStreamEventId ++ Sbe.le_bytes 2 1 ++ Sbe.le_bytes 2 0 ++
  Sbe.encode_depth_diff 1700000000 102 105 (-2) (-1) 16 [Sbe.mkWire 500075 4 []] 16 [] (codes "BTCUSDT").

Definition demo_msg : Sbe.SbeDepthResponse :=
  match Sbe.decode_impl exact_pow10 demo_wire with
  | Some (Sbe.SbeDepth m) => m
  | _ => Sbe.SbeDepthResponse_default
  end.

Lemma demo_msg_bids : Sbe.dr_bids demo_msg = [Sbe.level_value exact_pow10 (-2) (-1) (Sbe.mkWire 500075 4 [])].
Proof. by vm_compute. Qed.

Lemma spot_levels_truncated_witness :
  map trunc_level (Sbe.dr_bids demo_msg) = [(5000, 0)] /\
  exists (bk : Book MemoryPool.pool) l, book_represents bk l /\ bids l !! 5000 = Some 3 /\
    bids (set_levels demo_cfg (map trunc_level (Sbe.dr_bids demo_msg)) [] l) !! 5000 = None.
Proof.
  split; [by vm_compute|].
  destruct (new_book_ok demo_cfg (MemoryPool.create 2) (MemoryPool.create 2)) as [Hok Hrep];
    [by apply from_ini_ok | apply create_fresh; done.. |].
  pose proof (feed_levels _ "BTCUSDT" [(5000, 3)] [] Hok) as Hf. unfold follows in Hf.
  destruct (feed _ _) as [[bk notes]|] eqn:E; [|by vm_compute in E].
  destruct Hf as (Hbk & Hcfg & Hl). simpl in Hcfg.
  exists bk, (set_levels demo_cfg [(5000, 3)] [] (mkLadders ∅ ∅)).
  split; [by apply Hl|]. split; [done|].
  destruct (spot_levels_truncated "BTCUSDT" (sbe_decoder (Api:=unit) (Info:=unit) exact_pow10) (SbeDepth demo_msg) demo_wire
    (u64 (Sbe.dr_first_book_update_id demo_msg)) (u64 (Sbe.dr_last_book_update_id demo_msg)) (Sbe.dr_symbol demo_msg)
    (Sbe.dr_bids demo_msg) (Sbe.dr_asks demo_msg) (MemoryPool.create 16) bk (set_levels demo_cfg [(5000, 3)] [] (mkLadders ∅ ∅)))
    as (_ & _ & H3); [done | by vm_compute | by vm_compute | done | | | apply demo_pool_ok | | done | by apply Hl |].
  - rewrite demo_msg_bids. repeat constructor; vm_compute; done.
  - assert (Sbe.dr_asks demo_msg = []) as -> by (by vm_compute). constructor.
  - rewrite (proj2 demo_pool_ok). by apply Nat.leb_le; vm_compute.
  - assert (Ha : Sbe.dr_asks demo_msg = []) by (by vm_compute). rewrite Hcfg, Ha in H3. simpl map in H3.
    rewrite demo_msg_bids in *.
    apply (H3 [] (Sbe.level_value exact_pow10 (-2) (-1) (Sbe.mkWire 500075 4 [])).1
      (Sbe.level_value exact_pow10 (-2) (-1) (Sbe.mkWire 500075 4 [])).2); [done | vm_compute; done ..].
Defined.

(** ** Messages that restart the recovery *)

Definition recovered (m m' : MarketConsumer.Consumer) : Prop :=
  MarketConsumer.state_ m' = MarketConsumer.kBuffering /\
  MarketConsumer.requests m' = MarketConsumer.requests m + 1 /\
  MarketConsumer.log m' = MarketConsumer.log m /\ MarketConsumer.buffered_events_ m' = [].

(** A depth event of a running consumer that is not the next one. *)
Lemma spot_gap_recovers e m :
  MarketConsumer.state_ m = MarketConsumer.kRunning -> MarketConsumer.type e = MDMarket ->
  0 < MarketConsumer.update_index_ m < uint64_max ->
  MarketConsumer.start_idx e <> MarketConsumer.update_index_ m + 1 ->
  (MarketConsumer.first_depth_after_snapshot_ m = true -> MarketConsumer.end_idx e <= MarketConsumer.update_index_ m) ->
  exists m', MarketConsumer.on_subscribe MarketConsumer.kSpot true e m = Some m' /\ recovered m m'.
Proof.
  intros Hst Ht Hi Hs Hf. unfold MarketConsumer.on_subscribe. cbn [negb].
  rewrite Hst, bool_decide_eq_false_2, bool_decide_eq_true_2 by done.
  set (r := if MarketConsumer.first_depth_after_snapshot_ m then _ else _).
  assert (MarketConsumer.valid r = false) as ->.
  { unfold r. destruct (MarketConsumer.first_depth_after_snapshot_ m).
    - unfold MarketConsumer.validate_first_depth_after_snapshot. by rewrite (proj2 (Z.leb_le _ _) (Hf eq_refl)).
    - unfold MarketConsumer.validate_continuous_depth. cbn [MarketConsumer.valid].
      rewrite (proj2 (Z.eqb_neq _ 0)) by lia.
      rewrite u64_small by (unfold in_u64, two64, uint64_max in *; lia). by apply Z.eqb_neq. }
  cbn [negb]. eexists. split; [done|]. unfold recovered, MarketConsumer.recover_from_gap. cbn. rewrite Hst.
  by rewrite bool_decide_eq_false_2.
Qed.

(** A best-quote message is dispatched as a depth event with the id of the
    quote on both ends: unless this id is the next update of the depth stream,
    it drops a running consumer into recovery. *)
Theorem best_quote_restarts_recovery {P} `{NodePool P} {Api Info} ticker decoder payload msg (pool : P) m :
  payload <> [] -> payload <> codes "__CONNECTED__" ->
  decoder payload = Some (SbeBest msg : WireMessage Api Info) ->
  fits (Sbe.bb_bid_price msg, Sbe.bb_bid_qty msg) -> fits (Sbe.bb_ask_price msg, Sbe.bb_ask_qty msg) ->
  np_ok pool -> (2 <= length (np_free pool))%nat ->
  MarketConsumer.state_ m = MarketConsumer.kRunning -> MarketConsumer.first_depth_after_snapshot_ m = false ->
  0 < MarketConsumer.update_index_ m < uint64_max ->
  u64 (Sbe.bb_book_update_id msg) <> MarketConsumer.update_index_ m + 1 ->
  exists m' pool', handle_payload ticker decoder true payload (m, pool) = Some (m', pool') /\ recovered m m'.
Proof.
  intros Hne Hc Hd Hb Ha Hok Hf Hst Hfd Hi Hid.
  destruct (dispatch_levels ticker (SbeBest msg : WireMessage Api Info) _ _ _ _ _ pool eq_refl) as (pool' & _ & E);
    [by constructor.. | done | done |].
  destruct (spot_gap_recovers (spot_event (u64 (Sbe.bb_book_update_id msg)) (u64 (Sbe.bb_book_update_id msg)) (Sbe.bb_symbol msg)
    [(Sbe.bb_bid_price msg, Sbe.bb_bid_qty msg)] [(Sbe.bb_ask_price msg, Sbe.bb_ask_qty msg)]) m) as (m' & Es & Hr);
    [done | done | done | done | by rewrite Hfd |].
  exists m', pool'. split; [|done]. destruct payload as [|c payload]; [done|]. unfold handle_payload.
  rewrite bool_decide_eq_false_2, Hd by done. cbn [mbind option_bind get_dispatch_type]. by rewrite E, Es.
Qed.

(** A depth message that the decoder refuses becomes an empty event with the
    ids 0, which is dispatched too: it drops a running consumer into recovery. *)
Theorem refused_depth_restarts_recovery {P} `{NodePool P} {Api Info} ticker pow10f payload (pool : P) m :
  Sbe.bytes payload -> 8 <= zlen payload < 42 -> payload <> codes "__CONNECTED__" ->
  Sbe.template_of payload = Sbe.kDepthDiffStreamEventId ->
  MarketConsumer.state_ m = MarketConsumer.kRunning -> 0 < MarketConsumer.update_index_ m < uint64_max ->
  exists m', handle_payload (Api:=Api) (Info:=Info) ticker (sbe_decoder pow10f) true payload (m, pool) = Some (m', pool) /\
    recovered m m'.
Proof.
  intros Hb Hz Hc Ht Hst Hi.
  destruct (spot_gap_recovers (spot_event 0 0 [] [] []) m) as (m' & Es & Hr); [done | done | done | simpl; lia | simpl; lia |].
  exists m'. split; [|done].
  assert (Hd : Sbe.decode_impl pow10f payload = Some (Sbe.SbeDepth Sbe.SbeDepthResponse_default)).
  { by apply Sbe.decode_short_depth. }
  destruct payload as [|c payload]; [unfold zlen in Hz; simpl in Hz; lia|]. unfold handle_payload.
  rewrite bool_decide_eq_false_2 by done. unfold sbe_decoder. rewrite Hd. cbn -[MarketConsumer.on_subscribe].
  change (MarketConsumer.mkEvent _ _ _ _ _) with (spot_event 0 0 [] [] []). by rewrite Es.
Qed.

Definition demo_quote : Sbe.SbeBestBidAsk := Sbe.mkBest 0 105 (codes "BTCUSDT") (50 # 1) (2 # 1) (51 # 1) (1 # 2).
Definition demo_live : MarketConsumer.Consumer := MarketConsumer.mkConsumer MarketConsumer.kRunning 105 0 [] 0 false 8 [] [] [] 0 false.

Lemma best_quote_restarts_recovery_witness :
  exists m' pool', handle_payload (Api:=unit) (Info:=unit) "BTCUSDT" (fun _ => Some (SbeBest demo_quote)) true [1]
    (demo_live, MemoryPool.create 16) = Some (m', pool') /\ recovered demo_live m'.
Proof.
  apply (best_quote_restarts_recovery "BTCUSDT" _ [1] demo_quote);
    [done | by vm_compute | done | by vm_compute | by vm_compute | apply demo_pool_ok | | done | done | by vm_compute | by vm_compute].
  rewrite (proj2 demo_pool_ok). lia.
Defined.

Lemma refused_depth_restarts_recovery_witness :
  exists m', handle_payload (Api:=unit) (Info:=unit) "BTCUSDT" (sbe_decoder exact_pow10) true (take 30 demo_wire)
    (demo_live, MemoryPool.create 16) = Some (m', MemoryPool.create 16) /\ recovered demo_live m'.
Proof.
  apply (refused_depth_restarts_recovery "BTCUSDT");
    [|by vm_compute | by vm_compute | by vm_compute | done | by vm_compute].
  apply Forall_forall. intros x Hx. by (repeat (apply elem_of_cons in Hx as [->|Hx]; [vm_compute; done|]); apply elem_of_nil in Hx).
Defined.

End SpotFeed.
