(* ===== verification/FixSession.v ===== *)
(** * FIX sessions (src/hft/core/fix/fix_app.cpp, fix_app.h,
      fix_sequence_counter.cpp)

    [FixApp]: the framing of messages in the byte stream of the socket, the
    reader with the callbacks by message type, the queue of outgoing messages
    with its writer, login and logout.  FIX8's decoder, the socket and the
    signature are parameters; a message without a decoder result is a null
    pointer that the code follows ([None]).

    The theorems: however the socket cuts the stream, the reader hands over the
    framed messages, each once, in order, and skips what lies between them; what
    a length field with a sign does; what a writer does with a socket that asks
    to be called again. *)

From S2P Require Import Prelude Types FixedPoint Text IniConfig.

Module FixSession.
Import FixedPoint Text IniConfig.

(** ** Framing *)

Definition SOH : Z := 1.
Definition kFixSignature : list Z := codes "8=FIX".

(** [strip_to_header]: its result and the buffer it leaves. *)
Definition strip_to_header (buffer : list Z) : bool * list Z :=
  match find kFixSignature buffer with
  | None =>
      (false, if bool_decide (length kFixSignature - 1 < length buffer)%nat
              then drop (length buffer - (length kFixSignature - 1)) buffer else buffer)
  | Some pos => (true, drop pos buffer)
  end.

(** What [peek_full_message_len] finds: [std::stoi] throws, the message is not
    complete, or its length. *)
Inductive Peek := Throws | Incomplete | Complete (msg_len : Z).

(** [std::stoi] *)
Definition stoi (text : list Z) : option Z := signed int32_min int32_max text.

Definition kTrailer : Z := 7.

Definition peek_full_message_len (buffer : list Z) : Peek :=
  match find (codes "9=") buffer with
  | None => Incomplete
  | Some body_start =>
      match find_from [SOH] buffer body_start with
      | None => Incomplete
      | Some body_end =>
          match stoi (take (body_end - (body_start + 2)) (drop (body_start + 2) buffer)) with
          | None => Throws
          | Some body_len =>
              let header_len := Z.of_nat body_end + 1 in
              let msg_len := u64 (header_len + body_len + kTrailer) in
              if msg_len <=? zlen buffer then Complete msg_len else Incomplete
          end
      end
  end.

Inductive Extract := ExtractThrows | NoMessage (buffer : list Z) | Message (msg buffer : list Z).

Definition extract_next_message (buffer : list Z) : Extract :=
  match strip_to_header buffer with
  | (false, buffer) => NoMessage buffer
  | (true, buffer) =>
      match peek_full_message_len buffer with
      | Throws => ExtractThrows
      | Incomplete => NoMessage buffer
      | Complete msg_len => Message (take (Z.to_nat msg_len) buffer) (drop (Z.to_nat msg_len) buffer)
      end
  end.

(** ** The session *)

Section Session.
(** The message of FIX8, and the state that the callbacks act on. *)
Context {Msg St : Type}.
(** [Derived::decode], with null as [None], and [get_msgtype]. *)
Variable decode : list Z -> option Msg.
Variable get_msgtype : Msg -> list Z.

Record App := mkApp {
  callbacks_ : gmap (list Z) (Msg -> St -> option St);
  thread_running_ : bool;
  log_on_ : bool;
  logout_ack_ : bool;
  client : St;
}.

Definition set_running (b : bool) (a : App) : App := mkApp (callbacks_ a) b (log_on_ a) (logout_ack_ a) (client a).
Definition set_log_on (b : bool) (a : App) : App := mkApp (callbacks_ a) (thread_running_ a) b (logout_ack_ a) (client a).
Definition set_logout_ack (b : bool) (a : App) : App := mkApp (callbacks_ a) (thread_running_ a) (log_on_ a) b (client a).
Definition set_client (s : St) (a : App) : App := mkApp (callbacks_ a) (thread_running_ a) (log_on_ a) (logout_ack_ a) s.

(** The constructor, after it has started its threads. *)
Definition new_app (s : St) : App := mkApp ∅ true false false s.

Definition register_callback (type : list Z) (callback : Msg -> St -> option St) (a : App) : App :=
  match callbacks_ a !! type with
  | None => mkApp (<[type := callback]> (callbacks_ a)) (thread_running_ a) (log_on_ a) (logout_ack_ a) (client a)
  | Some _ => a
  end.

Definition prepare_stop_after_logout (a : App) : App := set_logout_ack false a.
Definition note_logout_ack (a : App) : App := set_logout_ack true a.

Definition process_message (raw_msg : list Z) (a : App) : option App :=
  msg ← decode raw_msg;
  let type := get_msgtype msg in
  let a :=
    if bool_decide (type = codes "A") then set_log_on true a
    else if bool_decide (type = codes "5") then set_logout_ack true (set_log_on false a)
    else a in
  match callbacks_ a !! type with
  | Some callback => s ← callback msg (client a); Some (set_client s a)
  | None => Some a
  end.

(** The inner loop of [read_loop]: every message that is complete is processed.
    [None]: a message is null or its callback fails, [std::stoi] throws, or the
    fuel is out. *)
Fixpoint process_buffer (fuel : nat) (buffer : list Z) (a : App) : option (list Z * App) :=
  match fuel with
  | O => None
  | S fuel' =>
      match extract_next_message buffer with
      | ExtractThrows => None
      | NoMessage buffer => Some (buffer, a)
      | Message raw_msg buffer => a ← process_message raw_msg a; process_buffer fuel' buffer a
      end
  end.

(** [read_loop] on the results of successive reads, the empty text for a result
    that is not positive; the loop also ends when another thread has cleared
    [thread_running_], and goes on waiting when there is no more result. *)
Fixpoint read_loop (reads : list (list Z)) (received_buffer : list Z) (a : App) : option (list Z * App) :=
  match reads with
  | [] => Some (received_buffer, a)
  | buf :: reads =>
      if thread_running_ a then
        match buf with
        | [] => Some (received_buffer, set_running false a)
        | _ =>
            let buffer := received_buffer ++ buf in
            '(buffer, a) ← process_buffer (S (length buffer)) buffer a; read_loop reads buffer a
        end
      else Some (received_buffer, a)
  end.

(** The messages one after the other, as the callbacks see them. *)
Definition process_all (msgs : list (list Z)) (a : App) : option App :=
  foldl (fun o raw_msg => a ← o; process_message raw_msg a) (Some a) msgs.
End Session.

(** ** Outgoing messages *)

Definition kQueueSize : Z := 64.

(** The queue between the callers of [send] and the writer, by its contents; the
    texts that the socket has taken; whether [write_loop] has returned. *)
Record Writer := mkWriter {
  fix_write_queue_ : list (list Z);
  written : list (list Z);
  running : bool;
  returned : bool;
}.

Definition new_writer : Writer := mkWriter [] [] true false.

Definition send (msg : list Z) (w : Writer) : Writer * bool :=
  if zlen (fix_write_queue_ w) <? kQueueSize
  then (mkWriter (fix_write_queue_ w ++ [msg]) (written w) (running w) (returned w), true)
  else (w, false).

(** The result of [transport_.write]: not negative; negative with [EAGAIN] or
    [EWOULDBLOCK]; any other failure. *)
Inductive WriteResult := Wrote | WouldBlock | WriteFailed.

(** The inner loop of [write_loop], with the results of its calls of the socket;
    without a result the call has not returned. *)
Fixpoint write_queue (results : list WriteResult) (w : Writer) : Writer :=
  match fix_write_queue_ w, results with
  | [], _ => w
  | [] :: queue, _ => mkWriter queue (written w) (running w) true
  | _ :: _, [] => w
  | msg :: queue, Wrote :: results => write_queue results (mkWriter queue (written w ++ [msg]) (running w) (returned w))
  | msg :: queue, WouldBlock :: _ => (send msg (mkWriter queue (written w) (running w) (returned w))).1
  | _ :: queue, WriteFailed :: _ => mkWriter queue (written w) false (returned w)
  end.

(** One round of [write_loop], up to its sleep. *)
Definition write_loop (results : list WriteResult) (w : Writer) : Writer :=
  if returned w then w
  else if running w then write_queue results w
  else mkWriter (fix_write_queue_ w) (written w) (running w) true.

(** [wait_logout_and_halt_io], after the acknowledgement or the five seconds. *)
Definition wait_logout_and_halt_io (w : Writer) : Writer :=
  (send [] (mkWriter (fix_write_queue_ w) (written w) false (returned w))).1.

(** [start] and [stop], with the messages that the derived class renders. *)
Definition start (log_on : list Z) (w : Writer) : Writer * bool := send log_on w.
Definition stop (log_out : list Z) (w : Writer) : Writer := wait_logout_and_halt_io (send log_out w).1.

(** The text that [get_signature_base64] signs. *)
Definition signature_payload (sender_id target_id timestamp : list Z) : list Z :=
  codes "A" ++ [SOH] ++ sender_id ++ [SOH] ++ target_id ++ [SOH] ++ codes "1" ++ [SOH] ++ timestamp.

(** ** Sequence numbers of a stream ([FixSequenceCounter])

    The second argument of [substr] is a position and not a count, so the text
    goes on after the field; [std::stoull] stops at its end.  [None]: it throws. *)
Definition kMessageSequenceStartKeyword : list Z := codes "34=".
Definition kIdxGap : nat := 3.

Definition is_valid (message : list Z) (current_sequence : Z) : option (bool * Z) :=
  match find kMessageSequenceStartKeyword message with
  | None => Some (false, current_sequence)
  | Some first_idx =>
      let text := drop (first_idx + kIdxGap) message in
      let text := match find_from [SOH] message first_idx with Some last_idx => take last_idx text | None => text end in
      next_candidate ← stoull text;
      Some (next_candidate =? u64 (current_sequence + 1), next_candidate)
  end.

(** ** Searching *)

Section Find.
Implicit Types (p l r : list Z).

Lemma find_app p l r i : find p l = Some i -> find p (l ++ r) = Some i.
Proof.
  revert i. induction l as [|c l IH]; intros i Hi.
  - destruct p; [|done]. injection Hi as <-. by destruct r.
  - apply find_split in Hi as Hlen. destruct Hlen as [_ Hlen].
    simpl in Hi |- *. rewrite app_comm_cons, take_app_le by lia. case_bool_decide; [done|].
    destruct (find p l) as [j|]; [|done]. by rewrite (IH j).
Qed.

Lemma find_short p l r i : find p (l ++ r) = Some i -> (length l < i + length p)%nat -> find p l = None.
Proof.
  intros Hi Hlen. destruct (find p l) as [j|] eqn:E; [|done].
  rewrite (find_app _ _ r _ E) in Hi. injection Hi as ->. apply find_split in E as [_ ?]. lia.
Qed.

Lemma find_drop p l k i : find p l = Some i -> (k <= i)%nat -> find p (drop k l) = Some (i - k)%nat.
Proof.
  revert l i. induction k as [|k IH]; intros l i Hi Hk; [by rewrite drop_0, Nat.sub_0_r|].
  destruct i as [|i]; [lia|]. destruct l as [|c l]; simpl in Hi; case_bool_decide; try done.
  destruct (find p l) as [j|] eqn:E; [|done]. injection Hi as <-. simpl. apply IH; [done|lia].
Qed.

Lemma find_char c l r : c ∉ l -> find [c] (l ++ c :: r) = Some (length l).
Proof.
  induction l as [|d l IH]; intros Hc; simpl; [by rewrite bool_decide_true|].
  apply not_elem_of_cons in Hc as [Hne Hc]. rewrite bool_decide_false by (intros [= ->]; done).
  by rewrite IH.
Qed.

Lemma find_from_app p l r k i : (k <= length l)%nat -> find_from p l k = Some i -> find_from p (l ++ r) k = Some i.
Proof.
  intros Hk. unfold find_from. rewrite drop_app_le by done. destruct (find p (drop k l)) as [j|] eqn:E; [|done].
  by rewrite (find_app _ _ _ _ E).
Qed.
End Find.

Lemma digits_no_SOH d : digits d -> SOH ∉ d.
Proof. intros Hd Hin. unfold digits in Hd. rewrite Forall_forall in Hd. specialize (Hd _ Hin). unfold chr_0, SOH in Hd. lia. Qed.

(** ** Frames *)

(** A message on the wire, with what lies before it: [8=FIX.4.4], the length of
    the body in digits, the body, and the seven characters of the checksum. *)
Record Frame := mkFrame {
  noise : list Z;
  body_length : list Z;
  body : list Z;
  trailer : list Z;
}.

Definition kBegin : list Z := codes "8=FIX.4.4" ++ [SOH].
Definition frame_message (f : Frame) : list Z :=
  kBegin ++ codes "9=" ++ body_length f ++ [SOH] ++ body f ++ trailer f.
Definition frame_bytes (f : Frame) : list Z := noise f ++ frame_message f.
Definition stream (frames : list Frame) : list Z := concat (frame_bytes <$> frames).

(** Noise: no header starts in it, also not one that goes on after it. *)
Definition noise_ok (g : list Z) : Prop := find kFixSignature (g ++ kFixSignature) = Some (length g).

Definition frame_ok (f : Frame) : Prop :=
  noise_ok (noise f) /\ digits (body_length f) /\ body_length f <> [] /\
  digits_value (body_length f) = zlen (body f) /\ zlen (body f) <= int32_max /\
  zlen (trailer f) = kTrailer /\ zlen (frame_message f) < two64.

Lemma noise_ok_nil : noise_ok [].
Proof. reflexivity. Qed.

Lemma noise_ok_drop g k : noise_ok g -> (k <= length g)%nat -> noise_ok (drop k g).
Proof.
  unfold noise_ok. intros Hg Hk. rewrite <-drop_app_le by done. rewrite (find_drop _ _ _ _ Hg Hk), length_drop. done.
Qed.

Lemma find_header g f r : noise_ok g -> find kFixSignature (g ++ frame_message f ++ r) = Some (length g).
Proof.
  intros Hg. unfold frame_message, kBegin. change (codes "8=FIX.4.4") with (kFixSignature ++ codes ".4.4").
  rewrite <-!app_assoc. rewrite app_assoc. by apply find_app.
Qed.

Lemma peek_prefix b r n : peek_full_message_len (b ++ r) = Complete n -> zlen b < n -> peek_full_message_len b = Incomplete.
Proof.
  unfold peek_full_message_len. destruct (find (codes "9=") b) as [i|] eqn:Ei; [|done].
  rewrite (find_app _ _ r _ Ei). apply find_split in Ei as [_ Hi]. change (length (codes "9=")) with 2%nat in Hi.
  destruct (find_from [SOH] b i) as [j|] eqn:Ej; [|done].
  rewrite (find_from_app _ _ r i j) by (done || lia).
  unfold find_from in Ej. destruct (find [SOH] (drop i b)) as [k|] eqn:Ek; [|done]. injection Ej as <-.
  apply find_split in Ek as [_ Hk]. rewrite length_drop in Hk. simpl in Hk.
  rewrite drop_app_le, take_app_le by (rewrite ?length_drop; lia).
  destruct (stoi _); [|done]. case_match; [|done]. intros [= <-] Hlt. rewrite (proj2 (Z.leb_gt _ _)) by lia. done.
Qed.

Lemma stoi_digits d : digits d -> d <> [] -> digits_value d <= int32_max -> stoi d = Some (digits_value d).
Proof.
  intros Hd Hne Hmax. unfold stoi, signed. rewrite read_integer_digits by done. cbv beta iota.
  assert (0 <= digits_value d) by (apply (fold_digits_ge d 0); [done|lia]).
  rewrite (proj2 (Z.leb_le int32_min _)), (proj2 (Z.leb_le _ int32_max)) by (unfold int32_min in *; lia). done.
Qed.

Lemma peek_frame f r : frame_ok f -> peek_full_message_len (frame_message f ++ r) = Complete (zlen (frame_message f)).
Proof.
  intros (_ & Hd & Hne & Hval & Hmax & Htr & Hlen). unfold peek_full_message_len.
  set (rest := body f ++ trailer f ++ r).
  assert (Hm : frame_message f ++ r = kBegin ++ codes "9=" ++ body_length f ++ SOH :: rest).
  { unfold frame_message, rest. rewrite <-!app_assoc. done. }
  rewrite Hm. replace (find (codes "9=") _) with (Some 10%nat) by (symmetry; rewrite app_assoc; by apply find_app).
  unfold find_from. replace (drop 10 _) with ((codes "9=" ++ body_length f) ++ SOH :: rest) by (rewrite <-app_assoc; done).
  rewrite find_char. 2:{ intros [Hin|Hin]%elem_of_app; [|by apply (digits_no_SOH _ Hd)].
    apply list_elem_of_In in Hin. simpl in Hin. unfold SOH in Hin. lia. }
  cbn [fmap option_fmap option_map]. rewrite length_app. change (length (codes "9=")) with 2%nat.
  replace (10 + (2 + length (body_length f)) - (10 + 2))%nat with (length (body_length f)) by lia.
  replace (drop (10 + 2) _) with (body_length f ++ SOH :: rest) by done. rewrite take_app_length.
  rewrite stoi_digits by (done || lia). rewrite Hval. rewrite <-Hm.
  replace (Z.of_nat (10 + (2 + length (body_length f))) + 1 + zlen (body f) + kTrailer) with (zlen (frame_message f)).
  - rewrite u64_small by (split; [apply zlen_nonneg | done]). rewrite zlen_app, (proj2 (Z.leb_le _ _)); [done|].
    pose proof (zlen_nonneg r). lia.
  - unfold frame_message. rewrite !zlen_app, Htr. change (zlen kBegin) with 10. change (zlen (codes "9=")) with 2.
    change (zlen [SOH]) with 1. unfold zlen. lia.
Qed.

Lemma extract_frame f r : frame_ok f -> extract_next_message (frame_bytes f ++ r) = Message (frame_message f) r.
Proof.
  intros Hf. unfold extract_next_message, strip_to_header, frame_bytes. rewrite <-app_assoc.
  rewrite find_header by apply Hf. rewrite drop_app_length, peek_frame by done. unfold zlen. rewrite Nat2Z.id.
  by rewrite take_app_length, drop_app_length.
Qed.

(** A buffer that ends inside of a frame yields nothing, and what is left of it
    still begins the same message, after less noise. *)
Lemma extract_partial f b u r :
  frame_ok f -> b ++ u = frame_bytes f ++ r -> (length b < length (frame_bytes f))%nat ->
  exists b' g', extract_next_message b = NoMessage b' /\ noise_ok g' /\
    b' ++ u = (g' ++ frame_message f) ++ r /\ (length b' < length (g' ++ frame_message f))%nat.
Proof.
  intros Hf Heq Hlen. pose proof (proj1 Hf) as Hn. unfold noise_ok, frame_bytes in *.
  assert (Hfind : find kFixSignature (b ++ u) = Some (length (noise f)))
    by (rewrite Heq, <-app_assoc; apply find_header; apply Hf).
  unfold extract_next_message, strip_to_header. destruct (find kFixSignature b) as [pos|] eqn:E.
  - rewrite (find_app _ _ u _ E) in Hfind. injection Hfind as ->.
    destruct (find_split _ _ _ E) as [_ Hb].
    assert (Hm : drop (length (noise f)) b ++ u = frame_message f ++ r).
    { rewrite <-drop_app_le, Heq, <-app_assoc by lia. apply drop_app_length. }
    rewrite length_app in Hlen. exists (drop (length (noise f)) b), []. split_and!; [|done|exact Hm|].
    + rewrite (peek_prefix _ u (zlen (frame_message f))); [done| |].
      * rewrite Hm. by apply peek_frame.
      * unfold zlen. rewrite length_drop. lia.
    + rewrite length_drop, app_nil_l. lia.
  - assert (Hshort : (length b < length (noise f) + 5)%nat).
    { destruct (decide (length b < length (noise f) + 5)%nat) as [|Hge]; [done|]. exfalso.
      rewrite <-(take_drop (length (noise f) + 5) b) in E.
      replace (take (length (noise f) + 5) b) with (noise f ++ kFixSignature) in E; [by rewrite (find_app _ _ _ _ Hn) in E|].
      transitivity (take (length (noise f) + 5) (b ++ u)); [|by rewrite take_app_le by lia].
      rewrite Heq. unfold frame_message, kBegin. change (codes "8=FIX.4.4") with (kFixSignature ++ codes ".4.4").
      rewrite <-!app_assoc, take_app_add. done. }
    change (length kFixSignature - 1)%nat with 4%nat. case_bool_decide as Hk.
    + exists (drop (length b - 4) b), (drop (length b - 4) (noise f)).
      rewrite length_app in Hlen. split_and!; [done | apply noise_ok_drop; [done|lia] | |].
      * rewrite <-(drop_app_le b u), Heq by lia. by rewrite <-!app_assoc, drop_app_le by lia.
      * rewrite length_app, !length_drop. unfold frame_message, kBegin. rewrite !length_app. simpl. lia.
    + exists b, (noise f). done.
Qed.

(** ** The reader *)

Section Reader.
Context {Msg St : Type} (decode : list Z -> option Msg) (get_msgtype : Msg -> list Z).
Implicit Types (a : App (Msg := Msg) (St := St)) (frames : list Frame).
Abbreviation process_message := (process_message (St := St) decode get_msgtype).
Abbreviation process_buffer := (process_buffer (St := St) decode get_msgtype).
Abbreviation process_all := (process_all (St := St) decode get_msgtype).
Abbreviation read_loop := (read_loop (St := St) decode get_msgtype).

(** The buffer does not reach to the end of the next frame. *)
Definition short (b : list Z) frames : Prop :=
  match frames with [] => True | f :: _ => (length b < length (frame_bytes f))%nat end.

Lemma short_nil frames : short [] frames.
Proof.
  destruct frames as [|f frames]; [done|]. unfold short, frame_bytes, frame_message, kBegin. rewrite !length_app. simpl. lia.
Qed.

Lemma process_all_None msgs : foldl (fun o raw_msg => a ← o; process_message raw_msg a) None msgs = None.
Proof. induction msgs; simpl; done. Qed.

Lemma process_all_cons m msgs a : process_all (m :: msgs) a = a ← process_message m a; process_all msgs a.
Proof. unfold FixSession.process_all. simpl. destruct (process_message m a); [done|]. apply process_all_None. Qed.

Lemma process_all_app msgs1 msgs2 a : process_all (msgs1 ++ msgs2) a = a ← process_all msgs1 a; process_all msgs2 a.
Proof.
  unfold FixSession.process_all. rewrite foldl_app. destruct (foldl _ (Some a) msgs1); [done|]. apply process_all_None.
Qed.

Lemma process_message_running m a a' : process_message m a = Some a' -> thread_running_ a' = thread_running_ a.
Proof.
  unfold FixSession.process_message. intros (msg & _ & H)%bind_Some.
  set (a1 := if bool_decide _ then _ else _) in H.
  assert (Ha : thread_running_ a1 = thread_running_ a) by (unfold a1; repeat case_bool_decide; done).
  destruct (callbacks_ a1 !! _); [|by injection H as <-]. apply bind_Some in H as (s & _ & [= <-]). done.
Qed.

Lemma process_all_running msgs a a' : process_all msgs a = Some a' -> thread_running_ a' = thread_running_ a.
Proof.
  revert a. induction msgs as [|m msgs IH]; intros a; [by intros [= <-]|].
  rewrite process_all_cons. intros (a1 & H1 & H2)%bind_Some. apply IH in H2. apply process_message_running in H1. congruence.
Qed.

Lemma process_buffer_frames fuel frames b u a :
  Forall frame_ok frames -> b ++ u = stream frames -> (length b < fuel)%nat ->
  exists msgs rest b', frame_message <$> frames = msgs ++ (frame_message <$> rest) /\ Forall frame_ok rest /\
    b' ++ u = stream rest /\ short b' rest /\
    process_buffer fuel b a = a ← process_all msgs a; Some (b', a).
Proof.
  revert frames b a. induction fuel as [|fuel IH]; intros frames b a Hok Heq Hf; [lia|].
  destruct frames as [|f frames].
  - apply app_nil in Heq as [-> ->]. exists [], [], []. done.
  - apply Forall_cons in Hok as Hok'. destruct Hok' as [Hfr Hrest]. unfold stream in Heq. cbn in Heq.
    fold (stream frames) in Heq. cbn [FixSession.process_buffer].
    destruct (decide (length b < length (frame_bytes f))%nat) as [Hlt|Hge].
    + destruct (extract_partial _ _ _ _ Hfr Heq Hlt) as (b' & g' & -> & Hg & Hb & Hs).
      exists [], (mkFrame g' (body_length f) (body f) (trailer f) :: frames), b'. split_and!; try done.
      constructor; [|done]. destruct Hfr as (_ & Hfr). split; done.
    + assert (exists b1, b = frame_bytes f ++ b1) as [b1 ->].
      { exists (drop (length (frame_bytes f)) b). rewrite <-(take_drop (length (frame_bytes f)) b) at 1. f_equal.
        rewrite <-(take_app_le b u), Heq by lia. apply take_app_length. }
      rewrite <-app_assoc in Heq. apply app_inv_head in Heq. rewrite extract_frame by done.
      assert (Hpos : (0 < length (frame_bytes f))%nat) by (unfold frame_bytes, frame_message, kBegin; rewrite !length_app; simpl; lia).
      rewrite length_app in Hf. destruct (process_message (frame_message f) a) as [a1|] eqn:Ea.
      * destruct (IH frames b1 a1) as (msgs & rest & b' & H1 & H2 & H3 & H4 & H5); [done|done|lia|].
        exists (frame_message f :: msgs), rest, b'. split_and!; try done; [by cbn; rewrite H1|].
        rewrite process_all_cons, Ea. exact H5.
      * destruct (IH frames b1 a) as (msgs & rest & b' & H1 & H2 & H3 & H4 & H5); [done|done|lia|].
        exists (frame_message f :: msgs), rest, b'. split_and!; try done; [by cbn; rewrite H1|].
        rewrite process_all_cons, Ea. done.
Qed.

Lemma read_loop_frames reads b frames a :
  Forall frame_ok frames -> Forall (.≠ []) reads -> b ++ concat reads = stream frames -> short b frames ->
  thread_running_ a = true ->
  read_loop reads b a = a ← process_all (frame_message <$> frames) a; Some ([], a).
Proof.
  revert b frames a. induction reads as [|buf reads IH]; intros b frames a Hok Hne Heq Hs Hrun.
  - cbn in Heq. rewrite app_nil_r in Heq. destruct frames as [|f frames]; [by subst|].
    subst. exfalso. unfold short, stream in Hs. cbn in Hs. rewrite length_app in Hs. lia.
  - apply Forall_cons in Hne as [Hb Hne]. cbn [FixSession.read_loop]. rewrite Hrun. destruct buf as [|c buf]; [done|].
    cbn [concat] in Heq. rewrite app_assoc in Heq.
    destruct (process_buffer_frames (S (length (b ++ c :: buf))) frames (b ++ c :: buf) (concat reads) a)
      as (msgs & rest & b' & H1 & H2 & H3 & H4 & ->); [done|done|lia|].
    rewrite H1, process_all_app. destruct (process_all msgs a) as [a1|] eqn:Ea; cbn; [|done].
    apply IH; try done. by rewrite (process_all_running _ _ _ Ea).
Qed.

(** C13: the reader's work does not depend on how the socket cuts the stream.  For
    any sequence of framed messages with arbitrary noise between them, delivered
    in any non-empty pieces whatsoever, the read loop processes exactly those
    messages, each once and in order, and has nothing left in its buffer; it
    fails only where processing one of these messages fails. *)
Theorem framing_independent_of_cuts frames reads a :
  Forall frame_ok frames -> Forall (.≠ []) reads -> concat reads = stream frames -> thread_running_ a = true ->
  read_loop reads [] a = a ← process_all (frame_message <$> frames) a; Some ([], a).
Proof.
  intros Hok Hne Heq Hrun. apply read_loop_frames; try done. apply short_nil.
Qed.
End Reader.

(** FIX8 for the examples: a message is its text, with the type after [35=]. *)
Definition demo_type (msg : list Z) : list Z :=
  match find (codes "35=") msg with Some i => take 1 (drop (i + 3) msg) | None => [] end.
Definition demo_frame (noise body : string) : Frame :=
  mkFrame (codes noise) (to_string_u64 (zlen (codes body ++ [SOH]))) (codes body ++ [SOH]) (codes "10=123" ++ [SOH]).
Definition demo_frames : list Frame := [demo_frame "8=8=FI" "35=A"; demo_frame "" "35=W 8=FIX"].
Definition demo_app : App (Msg := list Z) (St := list (list Z)) :=
  register_callback (codes "W") (fun msg s => Some (s ++ [msg])) (new_app []).
(** The stream, cut inside of a signature, of a length and of a trailer. *)
Definition demo_reads : list (list Z) :=
  let bytes := stream demo_frames in
  [take 9 bytes; take 9 (drop 9 bytes); take 26 (drop 18 bytes); drop 44 bytes].

Lemma framing_independent_of_cuts_witness :
  (fun r => (r.1, log_on_ r.2, client r.2)) <$> read_loop Some demo_type demo_reads [] demo_app =
  Some ([], true, [frame_message (demo_frame "" "35=W 8=FIX")]).
Proof.
  rewrite (framing_independent_of_cuts Some demo_type demo_frames); [by vm_compute| | |by vm_compute|done].
  - repeat apply Forall_cons_2; [..|apply Forall_nil_2];
      (split_and!; [by vm_compute | repeat constructor; by vm_compute | done | by vm_compute | by vm_compute | done | by vm_compute]).
  - repeat apply Forall_cons_2; try done.
Defined.

(** A length field with a sign is taken as it is.  Whatever follows it, a
    header whose length is minus its own size leaves a message of length zero,
    which is taken from the buffer again and again: no number of rounds of the
    inner loop ends. *)
Theorem negative_length_stalls {Msg St : Type} (decode : list Z -> option Msg) (get_msgtype : Msg -> list Z)
    fuel r (a : App (Msg := Msg) (St := St)) :
  let buffer := kBegin ++ codes "9=-23" ++ [SOH] ++ r in
  extract_next_message buffer = Message [] buffer /\ process_buffer decode get_msgtype fuel buffer a = None.
Proof.
  intros buffer. assert (Hx : extract_next_message buffer = Message [] buffer).
  { unfold extract_next_message, strip_to_header, buffer. rewrite !app_assoc.
    rewrite (find_app _ _ r 0) by (by vm_compute). rewrite drop_0. unfold peek_full_message_len.
    rewrite (find_app _ _ r 10) by (by vm_compute). rewrite (find_from_app _ _ r 10 15) by (vm_compute; done || lia).
    change (take (15 - _) _) with (codes "-23"). replace (stoi (codes "-23")) with (Some (-23)) by (by vm_compute). cbv beta iota zeta.
    replace (u64 _) with 0 by (by vm_compute). rewrite (proj2 (Z.leb_le 0 _)) by apply zlen_nonneg.
    by rewrite <-!app_assoc. }
  split; [done|]. revert a. induction fuel as [|fuel IH]; intros a; [done|]. cbn [process_buffer]. rewrite Hx.
  destruct (process_message _ _ _ a); [apply IH | done].
Qed.

(** A length that is not a number ends the reader with an exception. *)
Lemma malformed_length_throws {Msg St : Type} (decode : list Z -> option Msg) (get_msgtype : Msg -> list Z)
    fuel r (a : App (Msg := Msg) (St := St)) :
  process_buffer decode get_msgtype fuel (kBegin ++ codes "9=x" ++ [SOH] ++ r) a = None.
Proof.
  destruct fuel; [done|]. cbn [process_buffer]. unfold extract_next_message, strip_to_header. rewrite !app_assoc.
  rewrite (find_app _ _ r 0) by (by vm_compute). rewrite drop_0. unfold peek_full_message_len.
  rewrite (find_app _ _ r 10) by (by vm_compute). rewrite (find_from_app _ _ r 10 13) by (vm_compute; done || lia).
  by change (take (13 - _) _) with (codes "x").
Qed.

(** ** The writer *)

Lemma write_queue_wrote results w :
  Forall (.≠ []) (fix_write_queue_ w) -> Forall (eq Wrote) results ->
  let n := (length results `min` length (fix_write_queue_ w))%nat in
  write_queue results w =
    mkWriter (drop n (fix_write_queue_ w)) (written w ++ take n (fix_write_queue_ w)) (running w) (returned w).
Proof.
  intros Hq Hr. revert w Hq. induction Hr as [|res results <- Hr IH]; intros [q wr rn rt] Hq; cbn [fix_write_queue_ written running returned] in *.
  - destruct q as [|[|c m] q]; cbn; [by rewrite app_nil_r | by inversion Hq | by rewrite app_nil_r].
  - destruct q as [|m q]; cbn; [by rewrite app_nil_r|]. apply Forall_cons in Hq as [Hm Hq]. destruct m as [|c m]; [done|].
    rewrite IH by done. cbn. by rewrite <-app_assoc.
Qed.

(** A socket that takes every message gets them in the order of [send]. *)
Lemma writes_in_order results w :
  running w = true -> returned w = false -> Forall (.≠ []) (fix_write_queue_ w) -> Forall (eq Wrote) results ->
  written (write_loop results w) ++ fix_write_queue_ (write_loop results w) = written w ++ fix_write_queue_ w.
Proof.
  intros Hrun Hret Hq Hr. unfold write_loop. rewrite Hret, Hrun, write_queue_wrote by done. cbn.
  by rewrite <-app_assoc, take_drop.
Qed.

(** A message that the socket could not take at once is overtaken by every
    message behind it.  When the first write of a round asks to be called again
    and all later writes succeed, the first message goes out last, although the
    messages carry consecutive sequence numbers. *)
Theorem retried_message_overtaken msg queue w :
  fix_write_queue_ w = msg :: queue -> Forall (.≠ []) (msg :: queue) -> zlen queue < kQueueSize ->
  running w = true -> returned w = false ->
  write_loop (replicate (S (length queue)) Wrote) (write_loop [WouldBlock] w) =
    mkWriter [] (written w ++ queue ++ [msg]) true false.
Proof.
  intros Hw Hne Hlen Hrun Hret. apply Forall_cons in Hne as Hne'. destruct Hne' as [Hm Hq]. destruct msg as [|c msg]; [done|].
  unfold write_loop at 2. rewrite Hret, Hrun. cbn [write_queue]. rewrite Hw. unfold send. cbn [fix_write_queue_].
  rewrite (proj2 (Z.ltb_lt _ _)) by done. cbn [fst written running returned]. unfold write_loop. cbn [running returned].
  rewrite Hret, Hrun, write_queue_wrote; cbn [fix_write_queue_ written running returned];
    [|by apply Forall_app_2; [done|apply Forall_singleton]|by apply Forall_replicate].
  rewrite length_replicate, length_app. cbn [length]. replace (S (length queue) `min` (length queue + 1))%nat with (length (queue ++ [c :: msg])) by (rewrite length_app; change (length [c :: msg]) with 1%nat; lia).
  by rewrite drop_all, take_ge.
Qed.

Lemma retried_message_overtaken_witness :
  let w := (send (codes "34=8") (send (codes "34=7") new_writer).1).1 in
  written (write_loop [Wrote; Wrote] (write_loop [WouldBlock] w)) = [codes "34=8"; codes "34=7"].
Proof.
  intros w. change [Wrote; Wrote] with (replicate (S (length [codes "34=8"])) Wrote).
  rewrite (retried_message_overtaken (codes "34=7") [codes "34=8"] w); try done. by repeat constructor.
Defined.

(** ** Sequence numbers *)

(** The counter accepts exactly the successor of the last number and
    remembers the number it has seen, for every message with the field. *)
Theorem sequence_number_checked before d after_ current :
  find kMessageSequenceStartKeyword (before ++ kMessageSequenceStartKeyword) = Some (length before) ->
  digits d -> d <> [] -> digits_value d < two64 ->
  is_valid (before ++ kMessageSequenceStartKeyword ++ d ++ SOH :: after_) current =
    Some (digits_value d =? u64 (current + 1), digits_value d).
Proof.
  intros Hf Hd Hne Hv. unfold is_valid. rewrite app_assoc, (find_app _ _ _ _ Hf). unfold find_from.
  rewrite <-app_assoc, drop_app_length, app_assoc, find_char.
  2:{ intros [Hin|Hin]%elem_of_app; [|by apply (digits_no_SOH _ Hd)].
      apply list_elem_of_In in Hin. simpl in Hin. unfold SOH in Hin. lia. }
  cbn [fmap option_fmap option_map]. rewrite <-app_assoc, drop_app_add. change (drop kIdxGap _) with (d ++ SOH :: after_).
  rewrite length_app. replace (length before + (_ + length d))%nat with (length d + S (length before + 2))%nat by (cbn; lia).
  rewrite take_app_add. cbn [take]. unfold stoull. rewrite read_integer_digits_app by done.
  rewrite (proj2 (Z.ltb_lt _ _)) by done. done.
Qed.

Lemma sequence_number_checked_witness :
  is_valid (codes "8=FIX.4.4 " ++ kMessageSequenceStartKeyword ++ codes "42" ++ SOH :: codes "99 52=x") 41 = Some (true, 42).
Proof.
  rewrite (sequence_number_checked (codes "8=FIX.4.4 ") (codes "42") (codes "99 52=x") 41); try done.
  repeat constructor; vm_compute; congruence.
Defined.

End FixSession.
