(* ===== verification/FixMessage.v ===== *)
(** * FIX messages as the code builds and reads them
      (src/hft/core/fix/fix_md_core.cpp, fix_oe_core.cpp)

    A message of FIX8 is a header and a list of fields by tag, some with groups.
    The code adds fields, looks fields up, changes the precision of a field and
    encodes; the encoder itself is FIX8's and not modelled.  A field that is
    looked up and is not there is a null pointer: following it is [None].

    The sessions number their messages: the lemmas show that any sequence of
    built messages carries consecutive numbers. *)

From Stdlib Require Import QArith.
From S2P Require Import Prelude Text.

Module Fix.
Import Text.
Local Open Scope Z_scope.

(** ** Fields *)

(** The value of a field; a number with a fraction has the precision that it was
    given, if any. *)
Inductive Field :=
| FText (text : list Z)
| FChar (c : Z)
| FInt (n : Z)
| FBool (b : bool)
| FDouble (q : Q) (precision : option Z).

(** The fields the code uses, as the generated dictionaries name them. *)
Inductive Tag :=
| ClOrdID | OrderQty | OrdType | OrigClOrdID | Price | Side | Symbol | TimeInForce | RawDataLength | RawData
| EncryptMethod | HeartBtInt | TestReqID | ResetSeqNumFlag | NoRelatedSym | MDReqID | SubscriptionRequestType | MarketDepth
| AggregatedBook | NoMDEntryTypes | MDEntryType | InstrumentReqID | MassCancelRequestType | Username | InstrumentListRequestType
| DropCopyFlag | SelfTradePreventionMode | OrderCancelRequestAndNewOrderSingleMode | CancelClOrdID | MessageHandling | ResponseMode.

#[global] Instance Tag_eq_dec : EqDecision Tag.
Proof. solve_decision. Defined.

Abbreviation Fields := (list (Tag * Field))%type.

Record Message := mkMessage {
  msg_type : list Z;
  sender_comp_id : list Z;
  target_comp_id : list Z;
  msg_seq_num : Z;
  (** the time given, or none for the time of the construction *)
  sending_time : option (list Z);
  fields : Fields;
  groups : list (Tag * list Fields);
}.

Definition add_field (tag : Tag) (f : Field) (m : Message) : Message :=
  mkMessage (msg_type m) (sender_comp_id m) (target_comp_id m) (msg_seq_num m) (sending_time m)
    (fields m ++ [(tag, f)]) (groups m).

Definition add_group (tag : Tag) (g : list Fields) (m : Message) : Message :=
  mkMessage (msg_type m) (sender_comp_id m) (target_comp_id m) (msg_seq_num m) (sending_time m)
    (fields m) (groups m ++ [(tag, g)]).

(** [request << new A(...) << new B(...)] *)
Definition add_fields (fs : Fields) (m : Message) : Message :=
  mkMessage (msg_type m) (sender_comp_id m) (target_comp_id m) (msg_seq_num m) (sending_time m)
    (fields m ++ fs) (groups m).

Fixpoint lookup_field (tag : Tag) (fs : Fields) : option Field :=
  match fs with
  | [] => None
  | (t, f) :: fs => if decide (t = tag) then Some f else lookup_field tag fs
  end.

Definition get_field (tag : Tag) (m : Message) : option Field := lookup_field tag (fields m).

Definition with_precision (precision : Z) (f : Field) : Field :=
  match f with FDouble q _ => FDouble q (Some precision) | _ => f end.

Fixpoint change_field (tag : Tag) (g : Field -> Field) (fs : Fields) : Fields :=
  match fs with
  | [] => []
  | (t, f) :: fs => if decide (t = tag) then (t, g f) :: fs else (t, f) :: change_field tag g fs
  end.

(** [static_cast<OrderQty*>(request.get_field(tag))->set_precision(precision)] *)
Definition set_precision (tag : Tag) (precision : Z) (m : Message) : option Message :=
  _ ← get_field tag m;
  Some (mkMessage (msg_type m) (sender_comp_id m) (target_comp_id m) (msg_seq_num m) (sending_time m)
          (change_field tag (with_precision precision) (fields m)) (groups m)).

(** ** The numbering of a session *)

Record Core := mkCore {
  sequence_ : Z;
  sender_comp_id_ : list Z;
  target_comp_id_ : list Z;
}.

Definition new_core (sender target : list Z) : Core := mkCore 1 sender target.

Definition increment (c : Core) : Core := mkCore (sequence_ c + 1) (sender_comp_id_ c) (target_comp_id_ c).

(** [populate_standard_header] on a request of a type. *)
Definition populate_standard_header (type : list Z) (timestamp : option (list Z)) (c : Core) : Message * Core :=
  (mkMessage type (sender_comp_id_ c) (target_comp_id_ c) (sequence_ c) timestamp [] [], increment c).

(** What a step of a session builds: its messages and the core after it. *)
Definition numbered (msgs : list Message) (c c' : Core) : Prop :=
  map msg_seq_num msgs = seqZ (sequence_ c) (zlen msgs) /\ sequence_ c' = sequence_ c + zlen msgs.

Lemma numbered_one m c : msg_seq_num m = sequence_ c -> numbered [m] c (increment c).
Proof. intros H. split; [|done]. simpl. by rewrite H. Qed.

Lemma numbered_nil c : numbered [] c c.
Proof. split; [done|]. unfold zlen. simpl. lia. Qed.

Lemma numbered_app ms1 ms2 c1 c2 c3 : numbered ms1 c1 c2 -> numbered ms2 c2 c3 -> numbered (ms1 ++ ms2) c1 c3.
Proof.
  intros [H1 E1] [H2 E2]. split.
  - rewrite map_app, H1, H2, zlen_app, seqZ_app by apply zlen_nonneg. by rewrite E1.
  - rewrite zlen_app. lia.
Qed.

(** ** Lookups *)

Lemma lookup_field_app tag fs1 fs2 :
  lookup_field tag (fs1 ++ fs2) = match lookup_field tag fs1 with Some f => Some f | None => lookup_field tag fs2 end.
Proof. induction fs1 as [|[t f] fs1 IH]; simpl; [done|]. by case_decide. Qed.

Lemma lookup_change tag tag' g fs :
  lookup_field tag (change_field tag' g fs) = (if decide (tag' = tag) then g else id) <$> lookup_field tag fs.
Proof.
  induction fs as [|[t f] fs IH]; simpl; [done|].
  destruct (decide (t = tag')) as [<-|Hne]; simpl.
  - destruct (decide (t = tag)) as [<-|]; simpl; [done|]. by destruct (lookup_field tag fs).
  - destruct (decide (t = tag)) as [<-|]; simpl; [|done]. by rewrite decide_False.
Qed.

End Fix.
