(* ===== verification/FixFeed.v ===== *)
(** * The FIX market data path (src/hft/core/fix/fix_md_core.cpp, and the FIX
      branches of src/hft/src/market_consumer.hpp, market_consumer_recovery.hpp
      and market_data_protocol_policy.h)

    [FixMdCore]: the requests it builds and the events it makes of decoded
    messages; the consumer of the FIX build with its policy and its recovery.
    A decoded message of FIX8 is the record of the fields the code reads, each
    present or not; prices and quantities are doubles.

    The theorems: a depth message moves the ladders of the book as it says; the
    events handed over continue each other; but an event of trades switches the
    check off, and what arrives before the snapshot is never given back to the
    pool. *)

From Stdlib Require Import QArith.
From S2P Require Import Prelude Types Binary64 MemoryPool OrderBook OrderBookFacts OrderBookRefine FixedPoint Text IniConfig MarketConsumer FuturesFeed FixSession FixMessage.

Module FixFeed.
Import Text IniConfig FuturesFeed.
Local Open Scope Z_scope.

(** ** Decoded messages *)

(** An element of the group of entries. *)
Record Entry := mkEntry {
  e_Symbol : option (list Z);
  e_TradeID : option (list Z);
  e_FirstBookUpdateID : option (list Z);
  e_LastBookUpdateID : option (list Z);
  e_MDEntryType : option Z;
  e_MDEntryPx : option Q;
  e_MDEntrySize : option Q;
  e_MDUpdateAction : option Z;
}.

(** The group of entries is null when the message has none; an element may be null. *)
Record MdMessage := mkMdMessage {
  m_entries : option (list (option Entry));
  m_Symbol : option (list Z);
  m_LastBookUpdateID : option (list Z);
  m_TestReqID : option (list Z);
  m_RefMsgType : option (list Z);
  m_SessionRejectReason : option Z;
  m_Text : option (list Z);
  m_ErrorCode : option Z;
}.

Definition get_element (entries : list (option Entry)) (i : nat) : option Entry := mjoin (entries !! i).

Section Core.
Context {P : Type} `{NodePool P}.
Variables PriceScale QtyScale : Z.

Definition entry_qty (qty : option Q) : Z :=
  match qty with None => 0 | Some q => Binary64.from_double QtyScale q end.

(** [allocate_with_retry]: the loop goes on until the pool has a node.  [None]: it
    has none, and the caller waits until another thread returns one. *)
Definition allocate_with_retry (type : MarketUpdateType) (symbol : list Z) (side : Z) (price : Q) (qty : option Q)
    (pool : P) : option (MarketData * P) :=
  match np_alloc pool with
  | Some (_, pool) =>
      Some (mkMarketData type kOrderIdInvalid (of_codes symbol) (charToSide side)
              (Binary64.from_double PriceScale price) (entry_qty qty), pool)
  | None => None
  end.

(** The first entry and the loop over the others; a null element is skipped. *)
Fixpoint push_entries (type_of : Entry -> option MarketUpdateType) (symbol : list Z) (entries : list (option Entry))
    (pool : P) : option (list MarketData * P) :=
  match entries with
  | [] => Some ([], pool)
  | None :: entries => push_entries type_of symbol entries pool
  | Some entry :: entries =>
      type ← type_of entry;
      side ← e_MDEntryType entry;
      price ← e_MDEntryPx entry;
      '(md, pool) ← allocate_with_retry type symbol side price (e_MDEntrySize entry) pool;
      '(mds, pool) ← push_entries type_of symbol entries pool;
      Some (md :: mds, pool)
  end.

Definition action_type (entry : Entry) : option MarketUpdateType := charToMarketUpdateType <$> e_MDUpdateAction entry.

(** [create_market_data_message] and [create_trade_data_message] on the group; the
    first element, [entry], is not null. *)
Definition create_depth_data (entry : Entry) (entries : list (option Entry)) (pool : P) :
    option (MarketUpdateData * P) :=
  match e_FirstBookUpdateID entry, e_LastBookUpdateID entry with
  | Some first_book_update_id, Some last_book_update_id =>
      symbol ← e_Symbol entry;
      '(data, pool) ← push_entries action_type symbol entries pool;
      start_idx ← stoull first_book_update_id;
      end_idx ← stoull last_book_update_id;
      Some (mkUpdate start_idx end_idx 0 (Some MDMarket) (Some <$> data), pool)
  | _, _ => Some (mkUpdate 0 0 0 (Some MDMarket) [], pool)
  end.

Definition create_trade_data (entry : Entry) (entries : list (option Entry)) (pool : P) :
    option (MarketUpdateData * P) :=
  symbol ← e_Symbol entry;
  '(data, pool) ← push_entries (fun _ => Some MUTrade) symbol entries pool;
  Some (mkUpdate 0 0 0 (Some MDTrade) (Some <$> data), pool).

Definition create_market_data_message (msg : MdMessage) (pool : P) : option (MarketUpdateData * P) :=
  entries ← m_entries msg;
  match get_element entries 0 with
  | None => Some (mkUpdate 0 0 0 (Some MDNone) (replicate (length entries) None), pool)
  | Some entry =>
      match e_TradeID entry with
      | Some _ => create_trade_data entry entries pool
      | None => create_depth_data entry entries pool
      end
  end.

(** The loop of a snapshot, which allocates once; null entries are pushed too. *)
Fixpoint push_snapshot (symbol : list Z) (entries : list (option Entry)) (pool : P) :
    option (list (option MarketData) * P) :=
  match entries with
  | [] => Some ([], pool)
  | None :: entries => push_snapshot symbol entries pool
  | Some entry :: entries =>
      side ← e_MDEntryType entry;
      price ← e_MDEntryPx entry;
      qty ← e_MDEntrySize entry;
      let '(md, pool) :=
        allocate (mkMarketData MUAdd kOrderIdInvalid (of_codes symbol) (charToSide side)
          (Binary64.from_double PriceScale price) (Binary64.from_double QtyScale qty)) pool in
      '(mds, pool) ← push_snapshot symbol entries pool;
      Some (md :: mds, pool)
  end.

Definition create_snapshot_data_message (msg : MdMessage) (pool : P) : option (MarketUpdateData * P) :=
  entries ← m_entries msg;
  symbol ← m_Symbol msg;
  let '(clear, pool) := allocate (clear_entry (of_codes symbol)) pool in
  last_book_update_id ← m_LastBookUpdateID msg;
  '(data, pool) ← push_snapshot symbol entries pool;
  end_idx ← stoull last_book_update_id;
  Some (mkUpdate 0 end_idx 0 (Some MDMarket) (clear :: data), pool).
End Core.

(** [MarketDataReject]; the two reasons are filled from each other's fields. *)
Record MarketDataReject := mkReject {
  session_reject_reason : list Z;
  rejected_message_type : Z;
  error_message : list Z;
  error_code : Z;
}.

Definition create_reject_message (msg : MdMessage) : MarketDataReject :=
  mkReject (default (codes "NO REASON") (m_RefMsgType msg)) (default (-1) (m_SessionRejectReason msg))
    (default (codes "NO ERROR MESSAGE") (m_Text msg)) (default (-1) (m_ErrorCode msg)).

(** The list of instruments: an element of the group, and what is made of it. *)
Record WireSymbol := mkWireSymbol {
  g_Symbol : option (list Z); g_Currency : option (list Z);
  g_MinTradeVol : option Q; g_MaxTradeVol : option Q; g_MinQtyIncrement : option Q;
  g_MarketMinTradeVol : option Q; g_MarketMaxTradeVol : option Q; g_MarketMinQtyIncrement : option Q;
  g_MinPriceIncrement : option Q;
}.

Record RelatedSymT := mkRelatedSym {
  symbol : list Z; currency : list Z;
  min_trade_vol : Q; max_trade_vol : Q; min_qty_increment : Q;
  market_min_trade_vol : Q; market_max_trade_vol : Q; market_min_qty_increment : Q;
  min_price_increment : Q;
}.

(** [no_related_sym] keeps its default. *)
Record InstrumentInfo := mkInstrumentInfo { instrument_req_id : list Z; no_related_sym : Z; symbols : list RelatedSymT }.

Definition related_symbol (g : WireSymbol) : RelatedSymT :=
  let number := default 0%Q in
  mkRelatedSym (default [] (g_Symbol g)) (default [] (g_Currency g)) (number (g_MinTradeVol g)) (number (g_MaxTradeVol g))
    (number (g_MinQtyIncrement g)) (number (g_MarketMinTradeVol g)) (number (g_MarketMaxTradeVol g))
    (number (g_MarketMinQtyIncrement g)) (number (g_MinPriceIncrement g)).

(** A null message, a null group and null elements are passed over. *)
Definition create_instrument_list_message (msg : option (option (list Z) * option (list (option WireSymbol)))) : InstrumentInfo :=
  match msg with
  | None => mkInstrumentInfo [] 0 []
  | Some (req_id, group) =>
      mkInstrumentInfo (default [] req_id) 0 (match group with Some g => related_symbol <$> omap id g | None => [] end)
  end.

(** ** Requests *)

Section Requests.
Import Fix.

(** [api_key] is the user name of the authorization. *)
Definition create_log_on_message (api_key sig_b64 timestamp : list Z) (c : Core) : Message * Core :=
  let '(request, c) := populate_standard_header (codes "A") (Some timestamp) c in
  (add_fields [(EncryptMethod, FInt 0); (HeartBtInt, FInt 30); (ResetSeqNumFlag, FBool true);
     (RawDataLength, FInt (i32 (zlen sig_b64))); (RawData, FText sig_b64); (Username, FText api_key);
     (MessageHandling, FInt 2)] request, c).

Definition create_log_out_message (c : Core) : Message * Core := populate_standard_header (codes "5") None c.

Definition create_heartbeat_message (msg : MdMessage) (c : Core) : option (Message * Core) :=
  let '(request, c) := populate_standard_header (codes "0") None c in
  test_req_id ← m_TestReqID msg;
  Some (add_fields [(TestReqID, FText test_req_id)] request, c).

Definition add_md_entry_types (types : list Z) (request : Message) : Message :=
  add_group NoMDEntryTypes ((fun t => [(MDEntryType, FChar t)]) <$> types)
    (add_field NoMDEntryTypes (FInt (zlen types)) request).

Definition add_symbol_group (symbol : list Z) (request : Message) : Message :=
  add_group NoRelatedSym [[(Symbol, FText symbol)]] (add_field NoRelatedSym (FInt 1) request).

Definition create_market_data_subscription_message (request_id level symbol : list Z) (subscribe : bool) (c : Core) :
    Message * Core :=
  let '(request, c) := populate_standard_header (codes "V") None c in
  (add_fields [(MDReqID, FText request_id); (SubscriptionRequestType, FChar (if subscribe then 49 else 50));
     (MarketDepth, FText level); (AggregatedBook, FBool true)]
     (add_symbol_group symbol (add_md_entry_types [48; 49; 50] request)), c).

Definition create_trade_data_subscription_message (request_id level symbol : list Z) (subscribe : bool) (c : Core) :
    Message * Core :=
  let '(request, c) := populate_standard_header (codes "V") None c in
  (add_fields [(MDReqID, FText request_id); (SubscriptionRequestType, FChar 49);
     (MarketDepth, FText level); (AggregatedBook, FBool true)]
     (add_symbol_group symbol (add_md_entry_types [50] request)), c).

Definition create_instrument_list_request_message (symbol : list Z) (c : Core) : Message * Core :=
  let '(request, c) := populate_standard_header (codes "x") None c in
  match symbol with
  | [] => (add_fields [(InstrumentReqID, FText symbol); (InstrumentListRequestType, FInt 4)] request, c)
  | _ => (add_fields [(InstrumentReqID, FText symbol); (InstrumentListRequestType, FInt 0); (Symbol, FText symbol)] request, c)
  end.
End Requests.

(** ** The consumer of the FIX build *)

Record Consumer := mkConsumer {
  state_ : MarketConsumer.StreamState;
  update_index_ : Z;
  generation_ : Z;
  current_generation_ : Z;
  core : Fix.Core;
  (** requests given to [send] *)
  outbox : list Fix.Message;
  (** free slots of the trade engine's queue; handed over, refused by the full
      queue, returned to the pools, and neither *)
  room : Z;
  log : list MarketConsumer.Item;
  dropped : list MarketConsumer.Item;
  freed : list MarketUpdateData;
  leaked : list MarketUpdateData;
  (** [stop] was called; the process was ended *)
  stopped : bool;
  exited : bool;
}.

(** The core is given: in the program it has sent the logon before. *)
Definition new_consumer (capacity : Z) (c : Fix.Core) : Consumer :=
  mkConsumer MarketConsumer.kAwaitingSnapshot 0 0 0 c [] capacity [] [] [] [] false false.

Definition set_stream (state : MarketConsumer.StreamState) (index : Z) (m : Consumer) : Consumer :=
  mkConsumer state index (generation_ m) (current_generation_ m) (core m) (outbox m) (room m) (log m) (dropped m)
    (freed m) (leaked m) (stopped m) (exited m).

Definition set_generations (generation current : Z) (m : Consumer) : Consumer :=
  mkConsumer (state_ m) (update_index_ m) generation current (core m) (outbox m) (room m) (log m) (dropped m)
    (freed m) (leaked m) (stopped m) (exited m).

Definition send (request : Fix.Message * Fix.Core) (m : Consumer) : Consumer :=
  mkConsumer (state_ m) (update_index_ m) (generation_ m) (current_generation_ m) request.2 (outbox m ++ [request.1])
    (room m) (log m) (dropped m) (freed m) (leaked m) (stopped m) (exited m).

Definition deallocate (data : MarketUpdateData) (m : Consumer) : Consumer :=
  mkConsumer (state_ m) (update_index_ m) (generation_ m) (current_generation_ m) (core m) (outbox m) (room m) (log m)
    (dropped m) (freed m ++ [data]) (leaked m) (stopped m) (exited m).

Definition leak (data : MarketUpdateData) (m : Consumer) : Consumer :=
  mkConsumer (state_ m) (update_index_ m) (generation_ m) (current_generation_ m) (core m) (outbox m) (room m) (log m)
    (dropped m) (freed m) (leaked m ++ [data]) (stopped m) (exited m).

(** [app.stop(); exit(1);] of the release build, or only [app.stop()]. *)
Definition stop_app (exits : bool) (m : Consumer) : Consumer :=
  mkConsumer (state_ m) (update_index_ m) (generation_ m) (current_generation_ m) (core m) (outbox m) (room m) (log m)
    (dropped m) (freed m) (leaked m) true (exits || exited m).

(** [on_market_data_fn_(data)] *)
Definition on_market_data_fn (i : MarketConsumer.Item) (m : Consumer) : Consumer :=
  if 0 <? room m then
    mkConsumer (state_ m) (update_index_ m) (generation_ m) (current_generation_ m) (core m) (outbox m) (room m - 1)
      (log m ++ [i]) (dropped m) (freed m) (leaked m) (stopped m) (exited m)
  else
    mkConsumer (state_ m) (update_index_ m) (generation_ m) (current_generation_ m) (core m) (outbox m) (room m)
      (log m) (dropped m ++ [i]) (freed m) (leaked m) (stopped m) (exited m).

Section Consumer.
(** [INI_CONFIG.get("meta", ...)], and whether the list of instruments comes over HTTP. *)
Variables level ticker : list Z.
Variable uses_http_exchange_info : bool.

Definition subscription (subscribe : bool) (m : Consumer) : Fix.Message * Fix.Core :=
  create_market_data_subscription_message (codes "DEPTH_STREAM") level ticker subscribe (core m).

Definition handle_login (m : Consumer) : Consumer :=
  let m := send (subscription true m) m in
  if uses_http_exchange_info then m else send (create_instrument_list_request_message ticker (core m)) m.

Definition unsubscribe_and_resubscribe (m : Consumer) : Consumer :=
  let m := send (subscription false m) m in
  send (subscription true m) m.

Definition recover_from_gap (m : Consumer) : Consumer :=
  let m := set_generations (generation_ m) (u64 (current_generation_ m + 1)) m in
  set_stream MarketConsumer.kAwaitingSnapshot 0 (unsubscribe_and_resubscribe m).

Definition resubscribe (m : Consumer) : Consumer :=
  let generation := u64 (generation_ m + 1) in
  let m := unsubscribe_and_resubscribe (set_generations generation generation m) in
  set_stream MarketConsumer.kAwaitingSnapshot 0 (set_generations (u64 (generation_ m + 1)) (current_generation_ m) m).

(** [FixMarketDataPolicy::handle_subscribe]; [allocated] is whether the pool of
    events has a node.  [None]: a null entry, which the trade engine follows. *)
Definition handle_subscribe (allocated : bool) (data : MarketUpdateData) (m : Consumer) : option Consumer :=
  if negb allocated then Some (stop_app true m)
  else if bool_decide (state_ m = MarketConsumer.kAwaitingSnapshot) then Some (leak data m)
  else if bool_decide (mu_type data = Some MDNone) ||
          (bool_decide (mu_type data = Some MDMarket) && negb (mu_start_idx data =? u64 (update_index_ m + 1)) &&
           negb (update_index_ m =? 0))
  then Some (deallocate data (resubscribe m))
  else
    e ← to_event data;
    Some (on_market_data_fn (MarketConsumer.Update e) (set_stream (state_ m) (mu_end_idx data) m)).

(** The handler of the consumer for snapshots, without the websocket branches. *)
Definition on_snapshot (allocated : bool) (data : MarketUpdateData) (m : Consumer) : option Consumer :=
  if negb allocated then Some m
  else
    e ← to_event data;
    let m := set_stream MarketConsumer.kApplyingSnapshot (mu_end_idx data) m in
    let m := on_market_data_fn (MarketConsumer.Snapshot e) m in
    Some (set_stream MarketConsumer.kRunning (update_index_ m) m).

Definition on_reject (msg : MdMessage) (m : Consumer) : Consumer :=
  if bool_decide (session_reject_reason (create_reject_message msg) = codes "A") then stop_app false m else m.

Definition on_heartbeat (msg : MdMessage) (m : Consumer) : option Consumer :=
  request ← create_heartbeat_message msg (core m);
  Some (send request m).

(** The handlers that the constructor registers, by message type. *)
Section Handlers.
Context {P : Type} `{NodePool P} (PriceScale QtyScale : Z).

Definition handle (allocated : bool) (type : list Z) (msg : MdMessage) (s : Consumer * P) : option (Consumer * P) :=
  let '(m, pool) := s in
  if bool_decide (type = codes "A") then Some (handle_login m, pool)
  else if bool_decide (type = codes "W") then
    '(data, pool) ← create_snapshot_data_message PriceScale QtyScale msg pool;
    m ← on_snapshot allocated data m; Some (m, pool)
  else if bool_decide (type = codes "X") then
    '(data, pool) ← create_market_data_message PriceScale QtyScale msg pool;
    m ← handle_subscribe allocated data m; Some (m, pool)
  else if bool_decide (type = codes "1") then m ← on_heartbeat msg m; Some (m, pool)
  else if bool_decide (type = codes "3") then Some (on_reject msg m, pool)
  else Some (m, pool).

(** A run of the session: allocations of events, types and messages. *)
Fixpoint run (inputs : list (bool * list Z * MdMessage)) (s : Consumer * P) : option (Consumer * P) :=
  match inputs with
  | [] => Some s
  | (allocated, type, msg) :: inputs => s ← handle allocated type msg s; run inputs s
  end.
End Handlers.
End Consumer.

(** ** The delivered stream *)

(** An event of depth starts one after the last index, unless that is zero. *)
Definition linked (prev : Z) (e : MarketConsumer.Event) : Prop :=
  MarketConsumer.type e = MDMarket -> prev = 0 \/ MarketConsumer.start_idx e = u64 (prev + 1).

(** [follows prev items last]: the items continue each other from [prev] on. *)
Inductive continues : Z -> list MarketConsumer.Item -> Z -> Prop :=
| continues_nil prev : continues prev [] prev
| continues_snapshot prev e items last :
    continues (MarketConsumer.end_idx e) items last -> continues prev (MarketConsumer.Snapshot e :: items) last
| continues_update prev e items last :
    linked prev e -> continues (MarketConsumer.end_idx e) items last ->
    continues prev (MarketConsumer.Update e :: items) last.

Lemma continues_snoc_update prev items last e :
  continues prev items last -> linked last e ->
  continues prev (items ++ [MarketConsumer.Update e]) (MarketConsumer.end_idx e).
Proof. induction 1; intros Hl; simpl; constructor; auto. constructor. Qed.

Lemma continues_snoc_snapshot prev items last e :
  continues prev items last -> continues prev (items ++ [MarketConsumer.Snapshot e]) (MarketConsumer.end_idx e).
Proof. induction 1; simpl; constructor; auto. constructor. Qed.

(** What the handlers keep: the items continue each other as long as no item was
    refused, up to the update index while the stream runs; the requests are
    numbered without a hole. *)
Record consumer_ok (m : Consumer) : Prop := {
  ok_stream : dropped m = [] -> exists last, continues 0 (log m) last /\
    (state_ m <> MarketConsumer.kAwaitingSnapshot -> last = update_index_ m);
  ok_numbers : exists c0, Fix.sequence_ c0 = 1 /\ Fix.numbered (outbox m) c0 (core m);
}.

Lemma new_consumer_ok capacity sender target : consumer_ok (new_consumer capacity (Fix.new_core sender target)).
Proof.
  constructor; simpl.
  - intros _. exists 0. split; [constructor | done].
  - exists (Fix.new_core sender target). split; [done | apply Fix.numbered_nil].
Qed.

(** Changes that touch neither the stream nor the requests. *)
Definition same_stream (m m' : Consumer) : Prop :=
  log m' = log m /\ dropped m' = dropped m /\ outbox m' = outbox m /\ core m' = core m /\
  state_ m' = state_ m /\ update_index_ m' = update_index_ m.

Lemma same_stream_ok m m' : same_stream m m' -> consumer_ok m -> consumer_ok m'.
Proof. intros (H1 & H2 & H3 & H4 & H5 & H6) [Hs Hn]. constructor; rewrite ?H1, ?H2, ?H3, ?H4, ?H5, ?H6; done. Qed.

Lemma awaiting_ok index m : consumer_ok m -> consumer_ok (set_stream MarketConsumer.kAwaitingSnapshot index m).
Proof.
  intros [Hs Hn]. constructor; [|done]. simpl. intros Hd. destruct (Hs Hd) as (last & Hc & _). exists last. done.
Qed.

Lemma send_ok request m :
  Fix.msg_seq_num request.1 = Fix.sequence_ (core m) -> request.2 = Fix.increment (core m) ->
  consumer_ok m -> consumer_ok (send request m).
Proof.
  intros H1 H2 [Hs (c0 & Hc & Hn)]. constructor; [done|]. exists c0. split; [done|]. simpl. rewrite H2.
  eapply Fix.numbered_app; [exact Hn|]. by apply Fix.numbered_one.
Qed.

Section ConsumerFacts.
Variables level ticker : list Z.
Variable uses_http : bool.

Lemma resubscribe_both_ok m : consumer_ok m -> consumer_ok (unsubscribe_and_resubscribe level ticker m).
Proof. intros Hm. unfold unsubscribe_and_resubscribe. do 2 (apply send_ok; [done|done|]). done. Qed.

Lemma resubscribe_ok m : consumer_ok m -> consumer_ok (resubscribe level ticker m).
Proof.
  intros Hm. unfold resubscribe. apply awaiting_ok.
  eapply same_stream_ok; [|apply resubscribe_both_ok; eapply same_stream_ok; [|exact Hm]]; done.
Qed.

Lemma handle_login_ok m : consumer_ok m -> consumer_ok (handle_login level ticker uses_http m).
Proof.
  intros Hm. unfold handle_login. destruct uses_http; [by apply send_ok|].
  apply send_ok; [by destruct ticker | by destruct ticker |]. by apply send_ok.
Qed.

(** Handing an item over that continues the stream. *)
Lemma hand_over_ok item index e m :
  (item = MarketConsumer.Snapshot e \/
   item = MarketConsumer.Update e /\ state_ m <> MarketConsumer.kAwaitingSnapshot /\ linked (update_index_ m) e) ->
  index = MarketConsumer.end_idx e -> forall state, consumer_ok m ->
  consumer_ok (on_market_data_fn item (set_stream state index m)).
Proof.
  intros Hitem -> state [Hs Hn]. unfold on_market_data_fn. simpl. destruct (0 <? room m); constructor; simpl; try done.
  2: { intros Hd. by apply app_nil in Hd as [_ ?]. }
  intros Hd. destruct (Hs Hd) as (last & Hc & Hl). exists (MarketConsumer.end_idx e). split; [|done].
  destruct Hitem as [-> | (-> & Hst & Hlk)]; [by eapply continues_snoc_snapshot|].
  eapply continues_snoc_update; [exact Hc|]. by rewrite (Hl Hst).
Qed.

Lemma to_event_fields data e :
  to_event data = Some e -> MarketConsumer.start_idx e = mu_start_idx data /\ MarketConsumer.end_idx e = mu_end_idx data /\
    mu_type data = Some (MarketConsumer.type e).
Proof.
  unfold to_event. intros (t & Ht & H)%bind_Some. apply bind_Some in H as (l & _ & [= <-]). done.
Qed.

Lemma handle_subscribe_ok allocated data m m' :
  handle_subscribe level ticker allocated data m = Some m' -> consumer_ok m -> consumer_ok m'.
Proof.
  unfold handle_subscribe. intros H Hm. destruct allocated; simpl in H; [|injection H as <-; by apply (same_stream_ok m)].
  case_bool_decide as Hst; [injection H as <-; by apply (same_stream_ok m)|].
  destruct (_ || _) eqn:Eg; [injection H as <-; eapply same_stream_ok; [|by apply resubscribe_ok]; done|].
  apply bind_Some in H as (e & He & [= <-]). destruct (to_event_fields _ _ He) as (Hs & Hend & Ht).
  apply (hand_over_ok _ _ e); [right|done|done]. split_and!; [done|done|]. intros Hty.
  apply orb_false_iff in Eg as [_ Eg]. rewrite Ht, Hty, bool_decide_true in Eg by done. rewrite Hs.
  destruct (Z.eqb_spec (update_index_ m) 0); [by left|]. right. simpl in Eg. rewrite andb_true_r in Eg. lia.
Qed.

Lemma fix_on_snapshot_ok allocated data m m' :
  on_snapshot allocated data m = Some m' -> consumer_ok m -> consumer_ok m'.
Proof.
  unfold on_snapshot. intros H Hm. destruct allocated; simpl in H; [|by injection H as <-].
  apply bind_Some in H as (e & He & [= <-]). destruct (to_event_fields _ _ He) as (_ & Hend & _).
  assert (Hok : consumer_ok (on_market_data_fn (MarketConsumer.Snapshot e)
    (set_stream MarketConsumer.kApplyingSnapshot (mu_end_idx data) m))) by (apply (hand_over_ok _ _ e); [by left|done|done]).
  destruct Hok as [Hs Hn]. constructor; [|exact Hn]. intros Hd. destruct (Hs Hd) as (last & Hc & Hl). exists last. split; [exact Hc|].
  intros _. apply Hl. unfold on_market_data_fn. by destruct (_ <? _).
Qed.

Section Runs.
Context {P : Type} `{NodePool P} (PriceScale QtyScale : Z).

Lemma handle_ok allocated type msg m (pool : P) m' pool' :
  handle level ticker uses_http PriceScale QtyScale allocated type msg (m, pool) = Some (m', pool') ->
  consumer_ok m -> consumer_ok m'.
Proof.
  unfold handle. intros Hh Hm. repeat case_bool_decide; try (injection Hh as <- <-; done).
  - injection Hh as <- <-. by apply handle_login_ok.
  - apply bind_Some in Hh as ([data p1] & _ & Hh). apply bind_Some in Hh as (m1 & Hs & [= <- <-]). by eapply fix_on_snapshot_ok.
  - apply bind_Some in Hh as ([data p1] & _ & Hh). apply bind_Some in Hh as (m1 & Hs & [= <- <-]). by eapply handle_subscribe_ok.
  - apply bind_Some in Hh as (m1 & Hs & [= <- <-]). unfold on_heartbeat in Hs. apply bind_Some in Hs as (r & Hr & [= <-]).
    unfold create_heartbeat_message in Hr. simpl in Hr. apply bind_Some in Hr as (t & _ & [= <-]). by apply send_ok.
  - injection Hh as <- <-. unfold on_reject. case_bool_decide; [by apply (same_stream_ok m) | done].
Qed.

Lemma fix_run_ok inputs m (pool : P) m' pool' :
  run level ticker uses_http PriceScale QtyScale inputs (m, pool) = Some (m', pool') -> consumer_ok m -> consumer_ok m'.
Proof.
  revert m pool. induction inputs as [|[[allocated type] msg] inputs IH]; intros m pool; [by intros [= -> ->]|].
  cbn [run]. intros ([m1 p1] & H1 & H2)%bind_Some Hm. eapply IH; [exact H2|]. by eapply handle_ok.
Qed.
End Runs.
End ConsumerFacts.

(** C15: the stream of a FIX session.  In every run of the handlers, from the
    start of the session and for any messages, the events handed to the trade
    engine continue each other as long as its queue refused none: after a
    snapshot or an event of depth that ends at an index other than zero, the next
    event of depth starts one above it.  The requests that were sent carry the
    numbers 1, 2, 3, ... without a hole. *)
Theorem fix_stream_continues {P : Type} `{NodePool P} level ticker uses_http PriceScale QtyScale capacity sender target
    inputs (pool : P) m pool' :
  run level ticker uses_http PriceScale QtyScale inputs (new_consumer capacity (Fix.new_core sender target), pool) =
    Some (m, pool') ->
  (dropped m = [] -> exists last, continues 0 (log m) last) /\
  map Fix.msg_seq_num (outbox m) = seqZ 1 (zlen (outbox m)).
Proof.
  intros Hr. destruct (fix_run_ok _ _ _ _ _ _ _ _ _ _ Hr) as [Hs (c0 & Hc & Hn & _)]; [apply new_consumer_ok|].
  split; [intros Hd; destruct (Hs Hd) as (last & Hl & _); by exists last | by rewrite Hn, Hc].
Qed.

(** ** From messages to the book *)

Section Depth.
Context {P : Type} `{NodePool P}.
Variables PriceScale QtyScale : Z.
Hypothesis scales : 0 < PriceScale /\ 0 < QtyScale.

(** An entry that says that [qty] rests at [price], none when it is zero. *)
Definition says (entry : Entry) (level : bool * (Z * Z)) : Prop :=
  let '(is_bid, (price, qty)) := level in
  e_MDEntryType entry = Some (if is_bid then 48 else 49) /\
  (exists px, e_MDEntryPx entry = Some px /\ Z.abs price <= Binary64.kExactRange /\ Binary64.stands_for PriceScale px price) /\
  (qty = 0 /\ e_MDUpdateAction entry = Some 50 \/
   0 < qty <= Binary64.kExactRange /\ (e_MDUpdateAction entry = Some 48 \/ e_MDUpdateAction entry = Some 49) /\
   exists size, e_MDEntrySize entry = Some size /\ Binary64.stands_for QtyScale size qty).

(** What the message means for the ladders, entry by entry. *)
Definition set_entries (cfg : OrderBookConfig) (levels : list (bool * (Z * Z))) (l : Ladders) : Ladders :=
  fold_left (fun l level => set_level cfg level.1 l level.2) levels l.

(** The market data of such an entry: a message of a level. *)
Definition depth_md (symbol : list Z) (entry : Entry) (level : bool * (Z * Z)) (md : MarketData) : Prop :=
  forall cfg l, level_msg cfg md /\ spec_apply cfg l md = set_level cfg level.1 l level.2.

Lemma entry_md symbol entry level (pool : P) :
  says entry level -> np_ok pool -> (0 < length (np_free pool))%nat ->
  exists type side price md pool',
    action_type entry = Some type /\ e_MDEntryType entry = Some side /\ e_MDEntryPx entry = Some price /\
    allocate_with_retry PriceScale QtyScale type symbol side price (e_MDEntrySize entry) pool = Some (md, pool') /\
    depth_md symbol entry level md /\ np_ok pool' /\ length (np_free pool) = S (length (np_free pool')).
Proof.
  destruct level as [is_bid [price qty]]. intros (Hside & (px & Hpx & Hr & Hst) & Hqty) Hok Hfree.
  unfold allocate_with_retry, action_type. destruct (np_alloc pool) as [[n pool']|] eqn:Ea.
  2: { apply np_alloc_None in Ea; [|done]. rewrite Ea in Hfree. simpl in Hfree. lia. }
  destruct (np_alloc_Some _ _ _ Hok Ea) as (Hok' & Hfr & _).
  pose proof (Binary64.from_double_stands _ _ _ (proj1 scales) Hr Hst) as Hpr. subst price.
  destruct Hqty as [[-> ->] | (Hq & Ha & size & -> & Hsz)].
  - eexists MUCancel, _, px, _, pool'. split_and!; try done; [|by rewrite Hfr].
    intros cfg l. split; [done|]. unfold spec_apply, set_level. simpl. destruct (_ || _); [done|]. by destruct is_bid.
  - pose proof (Binary64.from_double_stands QtyScale size qty (proj2 scales) ltac:(lia) Hsz) as Hqr. subst qty.
    cbn [entry_qty]. set (q := Binary64.from_double QtyScale size) in *.
    exists (if bool_decide (e_MDUpdateAction entry = Some 48) then MUAdd else MUModify).
    eexists _, px, _, pool'. split_and!; try done; [by destruct Ha as [-> | ->] | |by rewrite Hfr].
    intros cfg l. destruct (bool_decide _); (split; [exact (proj1 Hq)|]); unfold spec_apply, set_level; simpl;
      (destruct (_ || _); [done|]); destruct is_bid; simpl; unfold spec_side, spec_update, is_active; simpl;
      rewrite (proj2 (Z.ltb_lt 0 q)) by lia; done.
Qed.

Lemma push_entries_says symbol entries levels (pool : P) :
  Forall2 says entries levels -> np_ok pool -> (length entries <= length (np_free pool))%nat ->
  exists mds pool', push_entries PriceScale QtyScale action_type symbol (Some <$> entries) pool = Some (mds, pool') /\
    np_ok pool' /\ forall cfg, Forall (level_msg cfg) mds /\ forall l, fold_left (spec_apply cfg) mds l = set_entries cfg levels l.
Proof.
  intros Hs. revert pool. induction Hs as [|entry level entries levels Hl _ IH]; intros pool Hok Hf.
  { by exists [], pool. }
  simpl in Hf. destruct (entry_md symbol entry level pool Hl Hok ltac:(lia)) as (type & side & price & md & p1 & H1 & H2 & H3 & H4 & H5 & H6 & H7).
  destruct (IH p1 H6 ltac:(lia)) as (mds & p2 & H8 & H9 & H10).
  exists (md :: mds), p2. split_and!; [|done|].
  - rewrite fmap_cons. cbn [push_entries]. rewrite H1. cbn [mbind option_bind]. rewrite H2. cbn [mbind option_bind]. rewrite H3.
    cbn [mbind option_bind]. rewrite H4. cbn [mbind option_bind]. by rewrite H8.
  - intros cfg. destruct (H10 cfg) as [Hm Hsp]. split.
    + constructor; [by apply (H5 cfg (mkLadders ∅ ∅)) | done].
    + intros l. cbn [fold_left]. rewrite (proj2 (H5 cfg l)). by rewrite Hsp.
Qed.
End Depth.

(** C14: a depth message of a FIX session, from its decoded fields to the book.
    For every message whose entries state levels in doubles that stand for
    fixed-point prices and quantities, and a pool that holds them, the core makes
    one event with the ids of the message, and its entries move a book that shows
    two ladders to a book that shows the ladders with each level set to its
    quantity, or removed, in the order of the entries.  The book fails only when
    a level is in a new bucket and the bucket pool of its side is empty, which
    takes a price range of more than 256 buckets. *)
Theorem fix_depth_updates_ladders {P B : Type} `{NodePool P, NodePool B} PriceScale QtyScale msg first entries levels
    symbol first_id last_id (pool : P) (bk : Book B) l :
  0 < PriceScale -> 0 < QtyScale ->
  m_entries msg = Some (Some <$> first :: entries) -> e_TradeID first = None -> e_Symbol first = Some symbol ->
  e_FirstBookUpdateID first = Some (to_string_u64 first_id) -> e_LastBookUpdateID first = Some (to_string_u64 last_id) ->
  0 <= first_id < two64 -> 0 <= last_id < two64 ->
  Forall2 (says PriceScale QtyScale) (first :: entries) levels ->
  np_ok pool -> (length (first :: entries) <= length (np_free pool))%nat ->
  book_ok bk -> book_represents bk l ->
  exists data pool' e, create_market_data_message PriceScale QtyScale msg pool = Some (data, pool') /\
    to_event data = Some e /\ MarketConsumer.start_idx e = first_id /\ MarketConsumer.end_idx e = last_id /\
    match feed (MarketConsumer.data e) bk with
    | Some (bk', _) => book_ok bk' /\ book_represents bk' (set_entries (config bk) levels l)
    | None => overflows (config bk) (MarketConsumer.data e) l = true /\
        kMaxBucketPoolSize < bucket_count (config bk)
    end.
Proof.
  intros HP HQ He Ht Hsy Hf Hl Hfr Hlr Hs Hok Hfree Hbk Hrep.
  destruct (push_entries_says PriceScale QtyScale (conj HP HQ) symbol _ _ pool Hs Hok Hfree) as (mds & p' & Hp & _ & Hsp).
  destruct (Hsp (config bk)) as [Hm Hspec].
  assert (Hread : forall n, 0 <= n < two64 -> stoull (to_string_u64 n) = Some n).
  { intros n Hn. destruct (to_string_u64_spec n Hn) as (Hd & Hv & Hne). unfold stoull.
    rewrite read_integer_digits, Hv by done. by rewrite (proj2 (Z.ltb_lt _ _)) by lia. }
  exists (mkUpdate first_id last_id 0 (Some MDMarket) (Some <$> mds)), p',
    (MarketConsumer.mkEvent first_id last_id 0 MDMarket mds).
  split_and!; try done.
  - unfold create_market_data_message. rewrite He. cbn [mbind option_bind]. unfold get_element. cbn [fmap list_fmap lookup list_lookup mjoin option_join].
    rewrite Ht. unfold create_depth_data. rewrite Hf, Hl, Hsy. cbn [mbind option_bind].
    cbn [fmap list_fmap] in Hp. unfold fmap in Hp |- *. rewrite Hp. cbn [mbind option_bind]. rewrite !Hread by done. done.
  - unfold to_event. cbn [mu_type mu_data mbind option_bind]. by rewrite mapM_Some.
  - cbn [MarketConsumer.data]. pose proof (feed_steps _ bk Hbk Hm) as Hfd. unfold follows in Hfd.
    pose proof (feed_fails _ bk l Hbk Hm Hrep) as Hfail.
    destruct (feed mds bk) as [[bk' notes]|]; [|split; [by apply Hfail | done]]. simpl in Hfd. destruct Hfd as (H1 & _ & H3). split; [done|].
    rewrite <-Hspec. by apply H3.
Qed.

(** ** Trades, and messages before the snapshot *)

Lemma trade_data_indices {P : Type} `{NodePool P} PriceScale QtyScale msg (pool : P) data pool' entries entry id :
  create_market_data_message PriceScale QtyScale msg pool = Some (data, pool') ->
  m_entries msg = Some entries -> get_element entries 0 = Some entry -> e_TradeID entry = Some id ->
  exists mds, data = mkUpdate 0 0 0 (Some MDTrade) (Some <$> mds).
Proof.
  unfold create_market_data_message, create_trade_data. intros Hc He Hg Ht. rewrite He in Hc. cbn [mbind option_bind] in Hc.
  rewrite Hg, Ht in Hc. apply bind_Some in Hc as (sy & _ & Hc). apply bind_Some in Hc as ([mds p] & _ & [= <- <-]). by exists mds.
Qed.

(** An event of trades switches the gap check off.  Trades carry no ids, and
    the policy takes their end, zero, as the new update index, at which every
    event of depth is accepted: whatever was missed before it is not noticed and
    no new snapshot is asked for. *)
Theorem trade_disables_gap_check {P : Type} `{NodePool P} level ticker PriceScale QtyScale msg (pool : P) data pool'
    entries entry id m depth e :
  create_market_data_message PriceScale QtyScale msg pool = Some (data, pool') ->
  m_entries msg = Some entries -> get_element entries 0 = Some entry -> e_TradeID entry = Some id ->
  state_ m = MarketConsumer.kRunning -> 2 <= room m ->
  mu_type depth = Some MDMarket -> to_event depth = Some e ->
  exists trades m1 m2, handle_subscribe level ticker true data m = Some m1 /\
    handle_subscribe level ticker true depth m1 = Some m2 /\
    log m2 = log m ++ [MarketConsumer.Update trades; MarketConsumer.Update e] /\ outbox m2 = outbox m.
Proof.
  intros Hc He Hg Ht Hst Hroom Hty Hev. destruct (trade_data_indices _ _ _ _ _ _ _ _ _ Hc He Hg Ht) as [mds ->].
  set (trades := MarketConsumer.mkEvent 0 0 0 MDTrade mds).
  assert (H1 : handle_subscribe level ticker true (mkUpdate 0 0 0 (Some MDTrade) (Some <$> mds)) m =
    Some (on_market_data_fn (MarketConsumer.Update trades) (set_stream MarketConsumer.kRunning 0 m))).
  { unfold handle_subscribe. rewrite Hst. cbn [negb mu_type mu_end_idx bool_decide]. rewrite !bool_decide_false by done. cbn [orb andb].
    unfold to_event. cbn [mu_type mu_data mbind option_bind]. rewrite mapM_Some. done. }
  unfold on_market_data_fn in H1. cbn [room set_stream] in H1. rewrite (proj2 (Z.ltb_lt 0 (room m))) in H1 by lia.
  eexists trades, _, _. split; [exact H1|]. split.
  - unfold handle_subscribe. cbn [negb state_ update_index_]. rewrite Hty, !bool_decide_false, bool_decide_true by done.
    cbn [Z.eqb negb]. rewrite andb_false_r. cbn [orb]. rewrite Hev. cbn [mbind option_bind]. reflexivity.
  - unfold on_market_data_fn. cbn [room set_stream]. rewrite (proj2 (Z.ltb_lt 0 _)) by lia. cbn. by rewrite <-app_assoc.
Qed.

(** The nodes that a message of the stream takes from the pool. *)
Definition nodes (msg : MdMessage) : nat :=
  match m_entries msg with
  | None => 0
  | Some entries =>
      match get_element entries 0 with
      | None => 0
      | Some entry =>
          match e_TradeID entry, e_FirstBookUpdateID entry, e_LastBookUpdateID entry with
          | None, None, _ | None, _, None => 0
          | _, _, _ => length (omap id entries)
          end
      end
  end.

Section Leak.
Context {P : Type} `{NodePool P} (PriceScale QtyScale : Z).

Lemma push_entries_nodes type_of symbol entries (pool : P) mds pool' :
  push_entries PriceScale QtyScale type_of symbol entries pool = Some (mds, pool') -> np_ok pool ->
  np_ok pool' /\ length (np_free pool) = (length (omap id entries) + length (np_free pool'))%nat.
Proof.
  revert pool mds. induction entries as [|[entry|] entries IH]; intros pool mds Hp Hok; cbn [push_entries] in Hp.
  - by injection Hp as <- <-.
  - apply bind_Some in Hp as (type & _ & Hp). apply bind_Some in Hp as (side & _ & Hp). apply bind_Some in Hp as (price & _ & Hp).
    apply bind_Some in Hp as ([md p1] & Ha & Hp). apply bind_Some in Hp as ([rest p2] & Hr & [= <- <-]).
    unfold allocate_with_retry in Ha. destruct (np_alloc pool) as [[n p]|] eqn:En; [|done]. injection Ha as <- <-.
    destruct (np_alloc_Some _ _ _ Hok En) as (Hok1 & Hfr & _). destruct (IH _ _ Hr Hok1) as [Hok2 Hl].
    split; [done|]. rewrite Hfr. change (omap id (Some entry :: entries)) with (entry :: omap id entries). cbn [length]. lia.
  - by apply (IH pool mds).
Qed.

Lemma create_nodes msg (pool : P) data pool' :
  create_market_data_message PriceScale QtyScale msg pool = Some (data, pool') -> np_ok pool ->
  np_ok pool' /\ length (np_free pool) = (nodes msg + length (np_free pool'))%nat.
Proof.
  unfold create_market_data_message, nodes. intros Hc Hok. destruct (m_entries msg) as [entries|]; [|done].
  cbn [mbind option_bind] in Hc. destruct (get_element entries 0) as [entry|]; [|by injection Hc as <- <-].
  unfold create_trade_data, create_depth_data in Hc. destruct (e_TradeID entry) as [id|].
  - apply bind_Some in Hc as (sy & _ & Hc). apply bind_Some in Hc as ([mds p] & Hp & [= <- <-]).
    destruct (push_entries_nodes _ _ _ _ _ _ Hp Hok). destruct (e_FirstBookUpdateID entry); destruct (e_LastBookUpdateID entry); done.
  - destruct (e_FirstBookUpdateID entry) as [f|]; [|by injection Hc as <- <-].
    destruct (e_LastBookUpdateID entry) as [la|]; [|by injection Hc as <- <-].
    apply bind_Some in Hc as (sy & _ & Hc). apply bind_Some in Hc as ([mds p] & Hp & Hc).
    apply bind_Some in Hc as (a & _ & Hc). apply bind_Some in Hc as (b & _ & [= <- <-]).
    by eapply push_entries_nodes.
Qed.

(** Messages of the stream before the snapshot: nothing is handed over, nothing is
    returned, and the pool has lost their nodes. *)
Lemma awaiting_run level ticker uses_http msgs m (pool : P) m' pool' :
  run level ticker uses_http PriceScale QtyScale ((fun msg => (true, codes "X", msg)) <$> msgs) (m, pool) = Some (m', pool') ->
  np_ok pool -> state_ m = MarketConsumer.kAwaitingSnapshot ->
  log m' = log m /\ freed m' = freed m /\ length (np_free pool) = (sum_list (nodes <$> msgs) + length (np_free pool'))%nat.
Proof.
  revert m pool. induction msgs as [|msg msgs IH]; intros m pool Hr Hok Hst; [by injection Hr as <- <-|].
  cbn [fmap list_fmap run] in Hr. apply bind_Some in Hr as ([m1 p1] & Hh & Hr). unfold handle in Hh.
  rewrite !(bool_decide_false (codes "X" = _)) in Hh by done. rewrite bool_decide_true in Hh by done.
  apply bind_Some in Hh as ([data p] & Hc & Hh). apply bind_Some in Hh as (m2 & Hs & [= <- <-]).
  unfold handle_subscribe in Hs. rewrite Hst in Hs. cbn [negb] in Hs. rewrite bool_decide_true in Hs by done. injection Hs as <-.
  destruct (create_nodes _ _ _ _ Hc Hok) as [Hok1 Hl].
  destruct (IH (leak data m) p Hr Hok1 Hst) as (H1 & H2 & H3). split_and!; [done|done|]. rewrite fmap_cons. change (sum_list (nodes msg :: (nodes <$> msgs))) with (nodes msg + sum_list (nodes <$> msgs))%nat. lia.
Qed.

(** Messages that arrive while the session waits for its snapshot block it.
    The policy drops them without returning their entries to the pool; once they
    have taken all nodes, the next message waits for a node that nobody holds:
    the reader, which would also have to read the snapshot, never returns. *)
Theorem awaiting_snapshot_blocks level ticker uses_http msgs m (pool : P) :
  np_ok pool -> state_ m = MarketConsumer.kAwaitingSnapshot ->
  (length (np_free pool) < sum_list (nodes <$> msgs))%nat ->
  run level ticker uses_http PriceScale QtyScale ((fun msg => (true, codes "X", msg)) <$> msgs) (m, pool) = None.
Proof.
  intros Hok Hst Hlt. destruct (run _ _ _ _ _ _ _) as [[m' p']|] eqn:E; [|done].
  destruct (awaiting_run _ _ _ _ _ _ _ _ E Hok Hst) as (_ & _ & Hl). lia.
Qed.
End Leak.

(** ** From the bytes of the socket to the handlers *)

Section Session.
Context {P : Type} `{NodePool P}.
Variables (level ticker : list Z) (uses_http : bool) (PriceScale QtyScale : Z).
(** FIX8's decoder. *)
Variable decode : list Z -> option MdMessage.
Variable get_msgtype : MdMessage -> list Z.
Abbreviation State := (Consumer * P)%type.
Abbreviation App := (FixSession.App (Msg := MdMessage) (St := State)).
Abbreviation handler := (handle (P := P) level ticker uses_http PriceScale QtyScale true).

(** The types that the constructor registers; the handlers of lists of
    instruments and of logouts leave the state as it is. *)
Definition kTypes : list (list Z) := [codes "A"; codes "W"; codes "X"; codes "1"; codes "y"; codes "3"; codes "5"].

Definition new_session (s : State) : App :=
  foldl (fun a type => FixSession.register_callback type (handler type) a) (FixSession.new_app s) kTypes.

Definition registered (a : App) : Prop :=
  forall type, FixSession.callbacks_ a !! type = if bool_decide (type ∈ kTypes) then Some (handler type) else None.

Lemma register_all types (a : App) :
  (forall t, FixSession.callbacks_ a !! t = None \/ FixSession.callbacks_ a !! t = Some (handler t)) ->
  let a' := foldl (fun a type => FixSession.register_callback type (handler type) a) a types in
  (forall t, FixSession.callbacks_ a' !! t = if bool_decide (t ∈ types) then Some (handler t) else FixSession.callbacks_ a !! t) /\
  FixSession.client a' = FixSession.client a /\ FixSession.thread_running_ a' = FixSession.thread_running_ a.
Proof.
  revert a. induction types as [|type types IH]; intros a Ha; [done|]. cbn [foldl].
  set (a1 := FixSession.register_callback type (handler type) a).
  assert (H1 : forall t, FixSession.callbacks_ a1 !! t = if bool_decide (t = type) then Some (handler t) else FixSession.callbacks_ a !! t).
  { intros t. unfold a1, FixSession.register_callback. destruct (Ha type) as [E|E]; rewrite E; cbn.
    - case_bool_decide as Ht; [subst; by rewrite lookup_insert_eq | by rewrite lookup_insert_ne].
    - case_bool_decide as Ht; [by subst | done]. }
  destruct (IH a1) as (H2 & H3 & H4).
  { intros t. rewrite H1. case_bool_decide; [by right | apply Ha]. }
  split_and!.
  - intros t. rewrite H2, H1. repeat case_bool_decide; try done; set_solver.
  - rewrite H3. unfold a1, FixSession.register_callback. by destruct (FixSession.callbacks_ a !! type).
  - rewrite H4. unfold a1, FixSession.register_callback. by destruct (FixSession.callbacks_ a !! type).
Qed.

Lemma new_session_registered s :
  registered (new_session s) /\ FixSession.client (new_session s) = s /\ FixSession.thread_running_ (new_session s) = true.
Proof.
  destruct (register_all kTypes (FixSession.new_app s)) as (H1 & H2 & H3); [by left|]. split; [exact H1 | by split].
Qed.

Lemma unregistered_ignored type msg s : type ∉ kTypes -> handler type msg s = Some s.
Proof.
  unfold kTypes. rewrite !not_elem_of_cons. intros (?&?&?&?&?&?&?&_). destruct s as [m pool].
  unfold handle. by rewrite !bool_decide_false by done.
Qed.

Lemma process_registered raw a :
  registered a ->
  match decode raw with
  | None => FixSession.process_message decode get_msgtype raw a = None
  | Some msg =>
      match handler (get_msgtype msg) msg (FixSession.client a) with
      | None => FixSession.process_message decode get_msgtype raw a = None
      | Some s => exists a', FixSession.process_message decode get_msgtype raw a = Some a' /\ registered a' /\ FixSession.client a' = s
      end
  end.
Proof.
  intros Ha. unfold FixSession.process_message. destruct (decode raw) as [msg|]; [|done]. cbn [mbind option_bind].
  set (type := get_msgtype msg). set (a1 := if bool_decide (type = codes "A") then _ else _).
  assert (H1 : FixSession.callbacks_ a1 = FixSession.callbacks_ a /\ FixSession.client a1 = FixSession.client a)
    by (unfold a1; repeat case_bool_decide; done).
  destruct H1 as [Hc Hs]. clearbody a1. rewrite Hc, (Ha type), Hs. case_bool_decide as Hin.
  - destruct (handler type msg (FixSession.client a)) as [s|]; [|done]. eexists. split; [reflexivity|]. split; [|done].
    intros t. cbn. rewrite Hc. apply Ha.
  - rewrite unregistered_ignored by done. exists a1. split_and!; [done | | done]. intros t. rewrite Hc. apply Ha.
Qed.

Lemma process_all_run raws a :
  registered a ->
  FixSession.client <$> FixSession.process_all decode get_msgtype raws a =
  msgs ← mapM decode raws; run level ticker uses_http PriceScale QtyScale ((fun msg => (true, get_msgtype msg, msg)) <$> msgs) (FixSession.client a).
Proof.
  revert a. induction raws as [|raw raws IH]; intros a Ha; [done|].
  rewrite FixSession.process_all_cons. cbn [mapM]. pose proof (process_registered raw a Ha) as Hp.
  destruct (decode raw) as [msg|]; [|by rewrite Hp]. cbn [mbind option_bind].
  destruct (handler (get_msgtype msg) msg (FixSession.client a)) as [s|] eqn:Eh.
  - destruct Hp as (a' & -> & Ha' & <-). cbn [mbind option_bind]. rewrite IH by done.
    destruct (mapM decode raws) as [msgs|]; cbn [mbind option_bind]; [|done].
    cbn [mret option_ret mbind option_bind]. rewrite fmap_cons. cbn [run]. by rewrite Eh.
  - rewrite Hp. destruct (mapM decode raws) as [msgs|]; cbn [mbind option_bind]; [|done].
    cbn [mret option_ret mbind option_bind]. rewrite fmap_cons. cbn [run]. by rewrite Eh.
Qed.

(** The session and its handlers.  Whatever pieces the socket delivers the
    framed messages in, the state of the consumer after the reader is that of its
    handlers run on the decoded messages, in order. *)
Theorem fix_bytes_run_handlers frames reads s :
  Forall FixSession.frame_ok frames -> Forall (.≠ []) reads -> concat reads = FixSession.stream frames ->
  FixSession.client ∘ snd <$> FixSession.read_loop decode get_msgtype reads [] (new_session s) =
  msgs ← mapM decode (FixSession.frame_message <$> frames);
  run level ticker uses_http PriceScale QtyScale ((fun msg => (true, get_msgtype msg, msg)) <$> msgs) s.
Proof.
  intros Hf Hne Heq. destruct (new_session_registered s) as (Hr & Hc & Hrun).
  rewrite (FixSession.read_loop_frames decode get_msgtype reads [] frames) by (done || by apply FixSession.short_nil).
  transitivity (FixSession.client <$> FixSession.process_all decode get_msgtype (FixSession.frame_message <$> frames) (new_session s)); [|by rewrite process_all_run, Hc]. by destruct (FixSession.process_all _ _ _ _).
Qed.
End Session.

(** ** Examples *)

Definition demo_entry (side action : Z) (price qty : Q) (ids : option (Z * Z)) (trade : option (list Z)) : Entry :=
  mkEntry (Some (codes "XRPUSDC")) trade (to_string_u64 ∘ fst <$> ids) (to_string_u64 ∘ snd <$> ids) (Some side)
    (Some price) (Some qty) (Some action).
Definition demo_message (entries : list Entry) : MdMessage :=
  mkMdMessage (Some (Some <$> entries)) (Some (codes "XRPUSDC")) (Some (codes "1000")) None None None None None.

Definition demo_first : Entry := demo_entry 48 48 (5001 # 100) (35 # 2) (Some (1001, 1003)) None.
Definition demo_others : list Entry := [demo_entry 48 50 (50 # 1) 0 None None; demo_entry 49 49 (251 # 5) (13 # 4) None None].
Definition demo_depth : MdMessage := demo_message (demo_first :: demo_others).
Definition demo_trade : MdMessage := demo_message [demo_entry 50 48 (5001 # 100) (1 # 1) None (Some (codes "77"))].
Definition demo_inputs : list (bool * list Z * MdMessage) :=
  [(true, codes "A", demo_depth); (true, codes "W", demo_message demo_others);
   (true, codes "X", demo_depth); (true, codes "X", demo_trade)].
Definition demo_levels : list (bool * (Z * Z)) := [(true, (5001, 17500)); (true, (5000, 0)); (false, (5020, 3250))].

Lemma demo_says : Forall2 (says 100 1000) (demo_first :: demo_others) demo_levels.
Proof.
  assert (Hin : forall scale q v, bool_decide (Z.abs (Qnum (q * inject_Z scale - inject_Z v) * 16) <= Zpos (Qden (q * inject_Z scale - inject_Z v))) = true ->
    Binary64.stands_for scale q v).
  { intros scale q v Hd. apply bool_decide_eq_true in Hd. unfold Binary64.stands_for, Qle, Qabs.Qabs.
    destruct (q * inject_Z scale - inject_Z v)%Q as [n d]. simpl in *. lia. }
  assert (Hpx : forall q v, Z.abs v <= Binary64.kExactRange -> Binary64.stands_for 100 q v ->
    exists px, Some q = Some px /\ Z.abs v <= Binary64.kExactRange /\ Binary64.stands_for 100 px v) by (intros q v; by exists q).
  unfold demo_levels, demo_others. apply Forall2_cons; split; [|apply Forall2_cons; split; [|apply Forall2_cons; split; [|constructor]]];
    (split; [done|]; split; [apply Hpx; [by vm_compute | apply Hin; by vm_compute]|]);
    [right | left; done | right]; (split; [by vm_compute|]; split; [by (left + right) | eexists; split; [reflexivity | apply Hin; by vm_compute]]).
Qed.

Lemma fix_stream_continues_witness :
  exists m pool', run (codes "20") (codes "XRPUSDC") false 100 1000 demo_inputs
      (new_consumer 8 (Fix.new_core (codes "BMDWATCH") (codes "SPOT")), MemoryPool.create 16) = Some (m, pool') /\
    length (log m) = 3%nat /\ (exists last, continues 0 (log m) last) /\ map Fix.msg_seq_num (outbox m) = [1; 2].
Proof.
  destruct (run _ _ _ _ _ _ _) as [[m pool']|] eqn:E; [|by vm_compute in E].
  assert (Hf : (fun s => (length (log s.1), dropped s.1, zlen (outbox s.1))) <$> Some (m, pool') = Some (3%nat, [], 2))
    by (rewrite <-E; by vm_compute).
  injection Hf as Hl Hd Ho. apply fix_stream_continues in E as [H1 H2]. exists m, pool'. rewrite H2, Ho.
  split_and!; [done | done | by apply H1 | done].
Defined.

Lemma fix_depth_updates_ladders_witness :
  exists data pool' e, create_market_data_message 100 1000 demo_depth (MemoryPool.create 16) = Some (data, pool') /\
    to_event data = Some e /\ MarketConsumer.start_idx e = 1001 /\ MarketConsumer.end_idx e = 1003 /\
    match feed (MarketConsumer.data e) demo_book with
    | Some (bk', _) => book_ok bk' /\ book_represents bk' (set_entries demo_cfg demo_levels (mkLadders ∅ ∅))
    | None => overflows demo_cfg (MarketConsumer.data e) (mkLadders ∅ ∅) = true /\
        kMaxBucketPoolSize < bucket_count demo_cfg
    end.
Proof.
  destruct (new_book_ok demo_cfg (MemoryPool.create 2) (MemoryPool.create 2)) as [Hok Hrep];
    [by apply from_ini_ok | apply create_fresh; done.. |].
  apply (fix_depth_updates_ladders 100 1000 demo_depth demo_first demo_others demo_levels (codes "XRPUSDC") 1001 1003
    (MemoryPool.create 16) demo_book (mkLadders ∅ ∅));
    [lia | lia | reflexivity.. | unfold two64; lia | unfold two64; lia | exact demo_says | apply demo_pool_ok | | exact Hok | exact Hrep].
  rewrite (proj2 demo_pool_ok). simpl. lia.
Defined.

Lemma trade_disables_gap_check_witness :
  let m := mkConsumer MarketConsumer.kRunning 1000 0 0 (Fix.new_core [] []) [] 8 [] [] [] [] false false in
  let late := MarketConsumer.mkEvent 5000 5001 0 MDMarket [] in
  exists trades m1 m2 data pool',
    create_market_data_message 100 1000 demo_trade (MemoryPool.create 16) = Some (data, pool') /\
    handle_subscribe [] [] true data m = Some m1 /\
    handle_subscribe [] [] true (mkUpdate 5000 5001 0 (Some MDMarket) []) m1 = Some m2 /\
    log m2 = [MarketConsumer.Update trades; MarketConsumer.Update late] /\ outbox m2 = [].
Proof.
  intros m late. destruct (create_market_data_message 100 1000 demo_trade (MemoryPool.create 16)) as [[data pool']|] eqn:E;
    [|by vm_compute in E].
  destruct (trade_disables_gap_check [] [] 100 1000 demo_trade (MemoryPool.create 16) data pool'
    [Some (demo_entry 50 48 (5001 # 100) (1 # 1) None (Some (codes "77")))]
    (demo_entry 50 48 (5001 # 100) (1 # 1) None (Some (codes "77"))) (codes "77") m
    (mkUpdate 5000 5001 0 (Some MDMarket) []) late) as (trades & m1 & m2 & H1 & H2 & H3 & H4); try done.
  exists trades, m1, m2, data, pool'. done.
Defined.

Lemma awaiting_snapshot_blocks_witness :
  run [] [] false 100 1000 ((fun msg => (true, codes "X", msg)) <$> replicate 6 demo_depth)
    (new_consumer 8 (Fix.new_core [] []), MemoryPool.create 16) = None.
Proof.
  apply (awaiting_snapshot_blocks 100 1000 [] [] false (replicate 6 demo_depth)); [apply demo_pool_ok | done|].
  rewrite (proj2 demo_pool_ok). by vm_compute; lia.
Defined.

(** A decoder for the example: the type from the text, the fields of the depth message. *)
Definition demo_decode (raw : list Z) : option MdMessage :=
  Some (mkMdMessage (m_entries demo_depth) (m_Symbol demo_depth) (m_LastBookUpdateID demo_depth) None
    (Some (FixSession.demo_type raw)) None None None).
Definition demo_msgtype (msg : MdMessage) : list Z := default [] (m_RefMsgType msg).
Definition demo_frames : list FixSession.Frame :=
  [FixSession.demo_frame "" "35=A"; FixSession.demo_frame "noise 8=" "35=W"; FixSession.demo_frame "" "35=X"].
Definition demo_reads : list (list Z) :=
  let bytes := FixSession.stream demo_frames in [take 7 bytes; take 40 (drop 7 bytes); drop 47 bytes].

Lemma fix_bytes_run_handlers_witness :
  (fun s => (length (log s.1), update_index_ s.1, length (outbox s.1))) <$>
    (FixSession.client ∘ snd <$> FixSession.read_loop demo_decode demo_msgtype demo_reads []
      (new_session (codes "20") (codes "XRPUSDC") false 100 1000
        (new_consumer 8 (Fix.new_core [] []), MemoryPool.create 16))) = Some (2%nat, 1003, 2%nat).
Proof.
  rewrite (fix_bytes_run_handlers (codes "20") (codes "XRPUSDC") false 100 1000 demo_decode demo_msgtype demo_frames);
    [by vm_compute | | |by vm_compute].
  - repeat apply Forall_cons_2; [..|apply Forall_nil_2];
      (split_and!; [by vm_compute | repeat constructor; by vm_compute | done | by vm_compute | by vm_compute | done | by vm_compute]).
  - repeat apply Forall_cons_2; try done.
Defined.

End FixFeed.
