(* ===== verification/FixOrderEntry.v ===== *)
(** * The FIX order entry (src/hft/core/fix/fix_oe_core.cpp, fix_oe_app.cpp,
      core/response_manager.cpp, and src/order_gateway.hpp in the FIX build)

    [FixOeCore]: the requests it builds and the reports it makes of decoded
    messages; the response manager with its three pools; the gateway over both.
    A decoded report is the record of the fields the code reads, each present or
    not; a field the code follows without looking must be there ([None]).

    The theorems: what a limit order says comes back in the report that echoes
    it; the gateway sends one numbered message for every new order, cancel and
    mass cancel and none for replacements, and an order that is not a limit order
    ends it; the nodes of the reports are accounted for. *)

From Stdlib Require Import QArith Qabs Lqa.
From S2P Require Import Prelude Types Binary64 MemoryPool OrderBook OrderBookFacts OrderBookRefine FixedPoint Text IniConfig FixMessage.

Module FixOrderEntry.
Import Text IniConfig Fix.
Local Open Scope Z_scope.

(** ** Characters of the enumerations ([to_char] and back) *)

Definition side_char (side : OrderSide) : Z := match side with OSideNone => 48 | OSideBuy => 49 | OSideSell => 50 end.
Definition ord_type_char (type : OrderType) : Z :=
  match type with OTInvalid => 48 | OTMarket => 49 | OTLimit => 50 | OTStopLoss => 51 | OTStopLimit => 52 end.
Definition time_in_force_char (tif : Types.TimeInForce) : Z :=
  match tif with TIFInvalid => 48 | TIFGoodTillCancel => 49 | TIFImmediateOrCancel => 51 | TIFFillOrKill => 52 end.

(** [SelfTradePreventionMode::kExpireTaker], which every request keeps. *)
Definition kExpireTaker : Z := 50.

(** A character that is no enumerator is a value outside of the enumeration. *)
Definition exec_type_from_char (c : Z) : option ExecType :=
  if c =? 48 then Some ETNew else if c =? 52 then Some ETCanceled else if c =? 53 then Some ETReplaced
  else if c =? 56 then Some ETRejected else if c =? 57 then Some ETSuspended else if c =? 70 then Some ETTrade
  else if c =? 67 then Some ETExpired else None.

Definition ord_status_from_char (c : Z) : option OrdStatus :=
  if c =? 0 then Some OSInvalid else if c =? 48 then Some OSNew else if c =? 49 then Some OSPartiallyFilled
  else if c =? 50 then Some OSFilled else if c =? 52 then Some OSCanceled else if c =? 54 then Some OSPendingCancel
  else if c =? 56 then Some OSRejected else if c =? 65 then Some OSPendingNew else if c =? 67 then Some OSExpired else None.

(** ** Requests *)

Record NewSingleOrderData := mkOrder {
  nd_cl_order_id : Z;
  nd_symbol : list Z;
  nd_side : OrderSide;
  nd_order_qty : Z;
  nd_ord_type : OrderType;
  nd_price : Z;
  nd_time_in_force : Types.TimeInForce;
}.

Record OrderCancelRequest := mkCancel { cr_cl_order_id : Z; cr_orig_cl_order_id : Z; cr_symbol : list Z }.

Record OrderCancelAndNewOrderSingle := mkReorder {
  cn_mode : Z;
  cn_cancel_new_order_id : Z;
  cn_cl_new_order_id : Z;
  cn_cl_origin_order_id : Z;
  cn_symbol : list Z;
  cn_side : OrderSide;
  cn_order_qty : Z;
  cn_ord_type : OrderType;
  cn_price : Z;
  cn_time_in_force : Types.TimeInForce;
}.

Section OeCore.
Variables PriceScale QtyScale : Z.
(** [INI_CONFIG.get_int("meta", ...)] *)
Variables qty_precision price_precision : Z.

Definition create_log_on_message (api_key sig_b64 timestamp : list Z) (c : Core) : Message * Core :=
  let '(request, c) := populate_standard_header (codes "A") (Some timestamp) c in
  (add_fields [(EncryptMethod, FInt 0); (HeartBtInt, FInt 30); (ResetSeqNumFlag, FBool true); (ResponseMode, FInt 1);
     (DropCopyFlag, FBool false); (RawDataLength, FInt (i32 (zlen sig_b64))); (RawData, FText sig_b64);
     (Username, FText api_key); (MessageHandling, FInt 2)] request, c).

Definition create_log_out_message (c : Core) : Message * Core := populate_standard_header (codes "5") None c.

(** The test request id of the message that is answered. *)
Definition create_heartbeat_message (test_req_id : option (list Z)) (c : Core) : option (Message * Core) :=
  let '(request, c) := populate_standard_header (codes "0") None c in
  id ← test_req_id;
  Some (add_fields [(TestReqID, FText id)] request, c).

(** The fields of a limit order only. *)
Definition limit_fields (type : OrderType) (price : Z) (tif : Types.TimeInForce) : Fields :=
  match type with
  | OTLimit => [(Price, FDouble (Binary64.to_double PriceScale price) None); (TimeInForce, FChar (time_in_force_char tif))]
  | _ => []
  end.

(** Both precisions are set, whatever the type of the order. *)
Definition create_order_message (order : NewSingleOrderData) (c : Core) : option (Message * Core) :=
  let '(request, c) := populate_standard_header (codes "D") None c in
  let request := add_fields ([(ClOrdID, FText (to_string_u64 (nd_cl_order_id order))); (Symbol, FText (nd_symbol order));
     (Side, FChar (side_char (nd_side order))); (OrdType, FChar (ord_type_char (nd_ord_type order)));
     (OrderQty, FDouble (Binary64.to_double QtyScale (nd_order_qty order)) None);
     (SelfTradePreventionMode, FChar kExpireTaker)] ++
     limit_fields (nd_ord_type order) (nd_price order) (nd_time_in_force order)) request in
  request ← set_precision OrderQty qty_precision request;
  request ← set_precision Price price_precision request;
  Some (request, c).

Definition create_cancel_order_message (cancel : OrderCancelRequest) (c : Core) : Message * Core :=
  let '(request, c) := populate_standard_header (codes "F") None c in
  (add_fields [(ClOrdID, FText (to_string_u64 (cr_cl_order_id cancel)));
     (OrigClOrdID, FText (to_string_u64 (cr_orig_cl_order_id cancel))); (Symbol, FText (cr_symbol cancel))] request, c).

(** Here the price's precision is set under the condition. *)
Definition create_cancel_and_reorder_message (order : OrderCancelAndNewOrderSingle) (c : Core) : option (Message * Core) :=
  let '(request, c) := populate_standard_header (codes "XCN") None c in
  let request := add_fields ([(OrigClOrdID, FText (to_string_u64 (cn_cl_origin_order_id order)));
     (CancelClOrdID, FText (to_string_u64 (cn_cancel_new_order_id order)));
     (ClOrdID, FText (to_string_u64 (cn_cl_new_order_id order))); (Symbol, FText (cn_symbol order));
     (Side, FChar (side_char (cn_side order))); (OrdType, FChar (ord_type_char (cn_ord_type order)));
     (OrderQty, FDouble (Binary64.to_double QtyScale (cn_order_qty order)) None);
     (SelfTradePreventionMode, FChar kExpireTaker);
     (OrderCancelRequestAndNewOrderSingleMode, FInt (cn_mode order))] ++
     limit_fields (cn_ord_type order) (cn_price order) (cn_time_in_force order)) request in
  request ← match cn_ord_type order with
            | OTLimit => set_precision Price price_precision request
            | _ => Some request
            end;
  request ← set_precision OrderQty qty_precision request;
  Some (request, c).

Definition create_order_all_cancel (cl_order_id : Z) (symbol : list Z) (mass_cancel_request_type : Z) (c : Core) :
    Message * Core :=
  let '(request, c) := populate_standard_header (codes "q") None c in
  (add_fields [(ClOrdID, FText (to_string_u64 cl_order_id)); (Symbol, FText symbol);
     (MassCancelRequestType, FChar mass_cancel_request_type)] request, c).

(** ** Reports *)

(** The decoded execution report. *)
Record WireReport := mkWire {
  w_ClOrdID : option (list Z);
  w_Symbol : option (list Z);
  w_ExecType : option Z;
  w_OrdStatus : option Z;
  w_CumQty : option Q;
  w_LeavesQty : option Q;
  w_LastQty : option Q;
  w_Price : option Q;
  w_ErrorCode : option Z;
  w_Text : option (list Z);
  w_Side : option Z;
}.

(** [ExecutionReport]: an error code that is not set is not initialised. *)
Record ExecutionReport := mkReport {
  er_cl_order_id : Z;
  er_symbol : list Z;
  er_exec_type : option ExecType;
  er_ord_status : option OrdStatus;
  er_cum_qty : Z;
  er_leaves_qty : Z;
  er_last_qty : Z;
  er_error_code : option Z;
  er_price : Z;
  er_side : Types.Side;
  er_text : list Z;
}.

(** [report]: the node of the response manager, null when there is none.  [None]:
    a null field or report, or [std::stoull] throws. *)
Definition create_execution_report_message (report : bool) (msg : WireReport) : option ExecutionReport :=
  if report then
    symbol ← w_Symbol msg;
    id_text ← w_ClOrdID msg;
    id ← stoull id_text;
    cum ← w_CumQty msg;
    exec_type ← w_ExecType msg;
    last ← w_LastQty msg;
    status ← w_OrdStatus msg;
    side ← w_Side msg;
    Some (mkReport id symbol (exec_type_from_char exec_type) (ord_status_from_char status)
      (Binary64.from_double QtyScale cum)
      (match w_LeavesQty msg with Some q => Binary64.from_double QtyScale q | None => 0 end)
      (Binary64.from_double QtyScale last) (w_ErrorCode msg)
      (match w_Price msg with Some p => Binary64.from_double PriceScale p | None => 0 end)
      (charToSide (side - 1)) (default [] (w_Text msg)))
  else None.
End OeCore.

Record CancelReject := mkCancelReject { cj_cl_order_id : Z; cj_symbol : list Z; cj_error_code : option Z; cj_text : list Z }.

Definition create_order_cancel_reject_message (report : bool) (id_text symbol text : option (list Z)) (error : option Z) :
    option CancelReject :=
  if report then
    id_text ← id_text; id ← stoull id_text; symbol ← symbol;
    Some (mkCancelReject id symbol error (default [] text))
  else None.

Record MassCancelReport := mkMassCancelReport {
  mc_cl_order_id : Z; mc_symbol : list Z; mc_request_type : Z; mc_response : Z;
  mc_total_affected_orders : option Z; mc_error_code : option Z; mc_text : list Z }.

Definition create_order_mass_cancel_report_message (report : bool) (id_text symbol text : option (list Z))
    (response request_type total error : option Z) : option MassCancelReport :=
  if report then
    id_text ← id_text; id ← stoull id_text; symbol ← symbol; response ← response; request_type ← request_type;
    Some (mkMassCancelReport id symbol request_type response total error (default [] text))
  else None.

Record OrderReject := mkOrderReject {
  oj_session_reject_reason : list Z; oj_rejected_message_type : Z; oj_error_message : list Z; oj_error_code : Z }.

(** Unlike the core of the market data, this one follows every field. *)
Definition create_reject_message (msg_type : option (list Z)) (rejected_type : option Z) (text : option (list Z))
    (error_code : option Z) : option OrderReject :=
  msg_type ← msg_type; rejected_type ← rejected_type; text ← text; error_code ← error_code;
  Some (mkOrderReject msg_type rejected_type text error_code).

(** ** The response manager *)

Record ResponseManager (P : Type) := mkManager {
  execution_report_pool_ : P;
  order_cancel_reject_pool_ : P;
  order_mass_cancel_report_pool_ : P;
}.
Arguments mkManager {P}.
Arguments execution_report_pool_ {P}.
Arguments order_cancel_reject_pool_ {P}.
Arguments order_mass_cancel_report_pool_ {P}.

Inductive Response := ExecutionReports | CancelRejects | MassCancelReports.

#[global] Instance Response_eq_dec : EqDecision Response.
Proof. solve_decision. Defined.

Section Manager.
Context {P : Type} `{NodePool P}.

Definition get_pool (r : Response) (m : ResponseManager P) : P :=
  match r with
  | ExecutionReports => execution_report_pool_ m
  | CancelRejects => order_cancel_reject_pool_ m
  | MassCancelReports => order_mass_cancel_report_pool_ m
  end.

Definition set_pool (r : Response) (p : P) (m : ResponseManager P) : ResponseManager P :=
  match r with
  | ExecutionReports => mkManager p (order_cancel_reject_pool_ m) (order_mass_cancel_report_pool_ m)
  | CancelRejects => mkManager (execution_report_pool_ m) p (order_mass_cancel_report_pool_ m)
  | MassCancelReports => mkManager (execution_report_pool_ m) (order_cancel_reject_pool_ m) p
  end.

(** The three allocations and the three deallocations. *)
Definition response_allocate (r : Response) (m : ResponseManager P) : option Z * ResponseManager P :=
  match np_alloc (get_pool r m) with
  | Some (n, p) => (Some n, set_pool r p m)
  | None => (None, m)
  end.

Definition response_deallocate (r : Response) (n : Z) (m : ResponseManager P) : ResponseManager P :=
  set_pool r (np_dealloc n (get_pool r m)) m.
End Manager.

(** ** The gateway of the FIX build *)

Record Gateway := mkGateway {
  core : Core;
  outbox : list Message;
  session_ready_ : bool;
  stopped : bool;
}.

Definition send (request : Message * Core) (g : Gateway) : Gateway :=
  mkGateway request.2 (outbox g ++ [request.1]) (session_ready_ g) (stopped g).

Definition text_of (s : string) : list Z := codes s.

Section Gateway.
Variables PriceScale QtyScale qty_precision price_precision : Z.

Definition new_single_order_data (request : RequestCommon) (g : Gateway) : option Gateway :=
  msg ← create_order_message PriceScale QtyScale qty_precision price_precision
    (mkOrder (rq_cl_order_id request) (text_of (rq_symbol request)) (from_common_side (rq_side request))
       (rq_order_qty request) (rq_ord_type request) (rq_price request) (rq_time_in_force request)) (core g);
  Some (send msg g).

Definition order_cancel_request (request : RequestCommon) (g : Gateway) : Gateway :=
  send (create_cancel_order_message
    (mkCancel (rq_cl_order_id request) (rq_orig_cl_order_id request) (text_of (rq_symbol request))) (core g)) g.

(** ['1']: all orders of the symbol. *)
Definition order_mass_cancel_request (request : RequestCommon) (g : Gateway) : Gateway :=
  send (create_order_all_cancel (rq_cl_order_id request) (text_of (rq_symbol request)) 49 (core g)) g.

(** Replacements and modifications are cases of the websocket build only; the
    posts after a send are empty. *)
Definition order_request (request : RequestCommon) (g : Gateway) : option Gateway :=
  match req_type request with
  | RQNewSingleOrderData => new_single_order_data request g
  | RQOrderCancelRequest => Some (order_cancel_request request g)
  | RQOrderMassCancelRequest => Some (order_mass_cancel_request request g)
  | _ => Some g
  end.

Fixpoint order_requests (requests : list RequestCommon) (g : Gateway) : option Gateway :=
  match requests with
  | [] => Some g
  | request :: requests => g ← order_request request g; order_requests requests g
  end.
End Gateway.

(** The handlers of the session. *)
Definition on_login (g : Gateway) : Gateway := mkGateway (core g) (outbox g) true (stopped g).
Definition on_logout (g : Gateway) : Gateway := send (create_log_out_message (core g)) g.
Definition on_heartbeat (test_req_id : option (list Z)) (g : Gateway) : option Gateway :=
  request ← create_heartbeat_message test_req_id (core g); Some (send request g).
Definition on_rejected (reject : option OrderReject) (g : Gateway) : option Gateway :=
  reject ← reject;
  Some (if bool_decide (oj_session_reject_reason reject = codes "A")
        then mkGateway (core g) (outbox g) (session_ready_ g) true else g).

(** ** Limit orders *)

Section Orders.
Variables PriceScale QtyScale qty_precision price_precision : Z.
Abbreviation order_message := (create_order_message PriceScale QtyScale qty_precision price_precision).

(** The message of a limit order. *)
Definition limit_message (order : NewSingleOrderData) (c : Core) : Message :=
  mkMessage (codes "D") (sender_comp_id_ c) (target_comp_id_ c) (sequence_ c) None
    [(ClOrdID, FText (to_string_u64 (nd_cl_order_id order))); (Symbol, FText (nd_symbol order));
     (Side, FChar (side_char (nd_side order))); (OrdType, FChar 50);
     (OrderQty, FDouble (Binary64.to_double QtyScale (nd_order_qty order)) (Some qty_precision));
     (SelfTradePreventionMode, FChar kExpireTaker);
     (Price, FDouble (Binary64.to_double PriceScale (nd_price order)) (Some price_precision));
     (TimeInForce, FChar (time_in_force_char (nd_time_in_force order)))] [].

Lemma limit_order_message order c :
  nd_ord_type order = OTLimit -> order_message order c = Some (limit_message order c, increment c).
Proof. intros Ht. unfold create_order_message, limit_fields. rewrite Ht. reflexivity. Qed.

(** Any other order has no price to set the precision of. *)
Lemma other_order_message order c : nd_ord_type order <> OTLimit -> order_message order c = None.
Proof. intros Ht. unfold create_order_message, limit_fields. by destruct (nd_ord_type order). Qed.

(** What the venue reads and echoes: texts and characters as they are, numbers
    after they were printed with their precision and read again. *)
Variable wire : Q -> Z -> Q.

Definition text_field (tag : Tag) (m : Message) : option (list Z) :=
  match get_field tag m with Some (FText t) => Some t | _ => None end.
Definition char_field (tag : Tag) (m : Message) : option Z :=
  match get_field tag m with Some (FChar c) => Some c | _ => None end.
Definition double_field (tag : Tag) (m : Message) : option Q :=
  match get_field tag m with Some (FDouble q (Some precision)) => Some (wire q precision) | _ => None end.

(** The report that a new order rests in the book. *)
Definition echo (m : Message) : WireReport :=
  mkWire (text_field ClOrdID m) (text_field Symbol m) (Some 48) (Some 48) (Some (inject_Z 0)) (double_field OrderQty m)
    (Some (inject_Z 0)) (double_field Price m) None None (char_field Side m).
End Orders.

Lemma stoull_to_string n : 0 <= n < two64 -> stoull (to_string_u64 n) = Some n.
Proof.
  intros Hn. destruct (to_string_u64_spec n Hn) as (Hd & Hv & Hne). unfold stoull.
  rewrite read_integer_digits, Hv by done. by rewrite (proj2 (Z.ltb_lt _ _)) by lia.
Qed.

(** ** Printed numbers *)

(** What the code relies on of the encoder and the decoder of the FIX library:
    a number below 2^31 that is printed with up to nine decimals is printed as a
    nearest decimal of that length, and the decimal is read as a double that is
    off by at most four units of the last place. *)
Definition wire_prints (wire : Q -> Z -> Q) : Prop :=
  forall q p, 0 <= p <= 9 -> (Qabs q <= 2147483647)%Q ->
  exists v, (Qabs (q * inject_Z (10 ^ p) - inject_Z v) <= 1 # 2)%Q /\
    (Qabs (wire q p * inject_Z (10 ^ p) - inject_Z v) <= Qabs (inject_Z v) * (1 # 2251799813685248))%Q.

(** [x'] is [x], at a scale of [k] digits, after [p] decimals of it were printed. *)
Definition printed_as (k p x x' : Z) : Prop :=
  2 * Z.abs (x' - x) <= 10 ^ (k - p) /\ (p <= k -> (10 ^ (k - p) | x')) /\
  (k <= p \/ (10 ^ (k - p) | x) -> x' = x).

Lemma inject_pos n : 0 < n -> (0 < inject_Z n)%Q.
Proof. intros. unfold Qlt, inject_Z; simpl; lia. Qed.

Lemma inject_sub a b : (inject_Z (a - b) == inject_Z a - inject_Z b)%Q.
Proof. unfold Z.sub, Qminus. by rewrite inject_Z_plus, inject_Z_opp. Qed.

(** An integer bound from a bound that is not off by one. *)
Lemma inject_bound a b : (inject_Z a < inject_Z b + 1)%Q -> a <= b.
Proof. intros H. change 1%Q with (inject_Z 1) in H. rewrite <-inject_Z_plus, <-Zlt_Qlt in H. lia. Qed.

Lemma nearest_multiple_exact g x x' : 0 < g -> (g | x) -> (g | x') -> 2 * Z.abs (x' - x) <= g -> x' = x.
Proof. intros Hg [a ->] [b ->] H. assert (a = b) as ->; nia. Qed.

(** Coarser than the scale: the printed decimal is a multiple of [g]. *)
Lemma printed_coarse g P q w x v :
  0 < g -> 0 < P -> Z.abs x + g <= Binary64.kExactRange -> Binary64.stands_for (g * P) q x ->
  (Qabs (q * inject_Z P - inject_Z v) <= 1 # 2)%Q ->
  (Qabs (w * inject_Z P - inject_Z v) <= Qabs (inject_Z v) * (1 # 2251799813685248))%Q ->
  2 * Z.abs (v * g - x) <= g /\ Binary64.from_double (g * P) w = v * g.
Proof.
  intros Hg HP Hx Hq Hv Hw. unfold Binary64.stands_for in Hq. pose proof (inject_pos g Hg) as Hg'.
  rewrite inject_Z_mult in Hq. apply Qabs_Qle_condition in Hq, Hv.
  assert (Hb : 2 * Z.abs (v * g - x) <= g).
  { assert (Ha : (inject_Z (2 * (v * g - x)) < inject_Z g + 1)%Q /\ (inject_Z (2 * (x - v * g)) < inject_Z g + 1)%Q).
    { rewrite !inject_Z_mult, !inject_sub, !inject_Z_mult. change (inject_Z 2) with 2%Q. split; nra. }
    destruct Ha as [H1%inject_bound H2%inject_bound]. lia. }
  split; [done|]. assert (Hr : Z.abs (v * g) <= Binary64.kExactRange) by lia.
  apply Binary64.from_double_near; [nia | done |].
  pose proof (Binary64.range_q _ Hr) as Hrq. rewrite inject_Z_mult, Qabs_Qmult, (Qabs_pos (inject_Z g)) in Hrq by lra.
  assert (E : (w * inject_Z (g * P) - inject_Z (v * g) == (w * inject_Z P - inject_Z v) * inject_Z g)%Q)
    by (rewrite !inject_Z_mult; ring).
  rewrite E, Qabs_Qmult, (Qabs_pos (inject_Z g)) by lra.
  eapply Qle_trans; [apply Qmult_le_compat_r; [exact Hw | lra]|]. lra.
Qed.

(** Finer than the scale, by ten or more: the value comes back. *)
Lemma printed_fine h K q w x v :
  10 <= h -> 0 < K -> Z.abs x <= Binary64.kExactRange -> Binary64.stands_for K q x ->
  (Qabs (q * inject_Z (K * h) - inject_Z v) <= 1 # 2)%Q ->
  (Qabs (w * inject_Z (K * h) - inject_Z v) <= Qabs (inject_Z v) * (1 # 2251799813685248))%Q ->
  Binary64.from_double K w = x.
Proof.
  intros Hh HK Hx Hq Hv Hw. unfold Binary64.stands_for in Hq. apply Binary64.from_double_near; [done..|].
  pose proof (Binary64.range_q _ Hx) as Hr.
  assert (Hh' : (10 <= inject_Z h)%Q) by (unfold Qle, inject_Z; simpl; lia).
  rewrite !inject_Z_mult in *. set (H := inject_Z h) in *. set (k := inject_Z K) in *. set (X := inject_Z x) in *.
  set (V := inject_Z v) in *. apply Qabs_Qle_condition in Hq, Hv, Hr.
  assert (Hav : (Qabs V <= 140737488355329 * H)%Q) by (apply Qabs_Qle_condition; split; nra).
  apply Qabs_Qle_condition in Hw.
  apply Qabs_Qle_condition. split; nra.
Qed.

Lemma printed_back wire k p x :
  wire_prints wire -> 0 <= k -> 0 <= p <= 9 -> Z.abs x < 2147483647 * 10 ^ k ->
  Z.abs x + 10 ^ (k - p) <= Binary64.kExactRange ->
  exists x', Binary64.from_double (10 ^ k) (wire (Binary64.to_double (10 ^ k) x) p) = x' /\ printed_as k p x x'.
Proof.
  intros Hw Hk Hp Hx Hr.
  assert (Hk' : 0 < 10 ^ k) by (apply Z.pow_pos_nonneg; lia).
  pose proof (Z.pow_nonneg 10 (k - p) ltac:(lia)) as Hnn.
  pose proof (Binary64.to_double_near (10 ^ k) x Hk' ltac:(lia)) as Hq. set (q := Binary64.to_double _ _) in *.
  destruct (Hw q p Hp) as (v & Hv & Hwv).
  { unfold Binary64.stands_for in Hq. apply Qabs_Qle_condition in Hq. pose proof (inject_pos _ Hk') as Hpos.
    assert (H1 : (inject_Z (Z.abs x + 1) <= 2147483647 * inject_Z (10 ^ k))%Q).
    { change 2147483647%Q with (inject_Z 2147483647). rewrite <-inject_Z_mult, <-Zle_Qle. lia. }
    assert (H2 : (inject_Z (x + 1) <= inject_Z (Z.abs x + 1))%Q /\ (inject_Z (1 - x) <= inject_Z (Z.abs x + 1))%Q)
      by (split; rewrite <-Zle_Qle; lia).
    rewrite inject_sub, inject_Z_plus in H2. change (inject_Z 1) with 1%Q in H2. destruct H2 as [H2 H3].
    apply Qabs_Qle_condition. split; nra. }
  destruct (Z.le_gt_cases p k) as [Hle|Hgt].
  - set (g := 10 ^ (k - p)) in *. assert (Hg : 0 < g) by (apply Z.pow_pos_nonneg; lia).
    assert (Ek : 10 ^ k = g * 10 ^ p) by (unfold g; rewrite <-Z.pow_add_r by lia; f_equal; lia).
    rewrite Ek in *. assert (HP : 0 < 10 ^ p) by (apply Z.pow_pos_nonneg; lia).
    destruct (printed_coarse g (10 ^ p) q (wire q p) x v Hg HP Hr Hq Hv Hwv) as [Hb ->].
    exists (v * g). split; [done|]. unfold printed_as. fold g. split_and!; [done | intros _; by exists v |].
    intros Hd. apply (nearest_multiple_exact g); [done | | by exists v | done].
    destruct Hd as [Hd|?]; [|done]. replace g with 1 by (unfold g; by replace (k - p) with 0 by lia). apply Z.divide_1_l.
  - assert (Eh : 10 ^ p = 10 ^ k * 10 ^ (p - k)) by (rewrite <-Z.pow_add_r by lia; f_equal; lia). rewrite Eh in Hv, Hwv.
    exists x. split; [|unfold printed_as; split_and!; [rewrite Z.sub_diag; lia | lia | done]].
    apply (printed_fine (10 ^ (p - k)) _ q _ x v); try done; [|lia].
    change 10 with (10 ^ 1) at 1. apply Z.pow_le_mono_r; lia.
Qed.

(** C16: what a limit order says comes back.  The message of a limit order, echoed
    by the venue as a resting order, is read as a report with the same id, symbol
    and side, nothing filled.  The price and the quantity are turned into doubles,
    printed with the configured number of decimals, read and turned back: they
    come back as the nearest multiples of the last printed decimal, within half a
    step of it, and exactly when they are such multiples or when no digit of the
    scale is left out.  The scales [10 ^ k] and the numbers of decimals are
    independent, as in the code (10^6 and 4 for the price of the shipped XRPUSDC
    configuration); the hypothesis on the FIX library is [wire_prints]. *)
Theorem limit_order_echoed (wire : Q -> Z -> Q) kp kq qty_precision price_precision order c :
  wire_prints wire -> 0 <= kp -> 0 <= kq -> 0 <= qty_precision <= 9 -> 0 <= price_precision <= 9 ->
  nd_ord_type order = OTLimit -> 0 <= nd_cl_order_id order < two64 ->
  Z.abs (nd_price order) < 2147483647 * 10 ^ kp ->
  Z.abs (nd_price order) + 10 ^ (kp - price_precision) <= Binary64.kExactRange ->
  Z.abs (nd_order_qty order) < 2147483647 * 10 ^ kq ->
  Z.abs (nd_order_qty order) + 10 ^ (kq - qty_precision) <= Binary64.kExactRange ->
  exists m price qty,
    create_order_message (10 ^ kp) (10 ^ kq) qty_precision price_precision order c = Some (m, increment c) /\
    msg_seq_num m = sequence_ c /\
    create_execution_report_message (10 ^ kp) (10 ^ kq) true (echo wire m) =
      Some (mkReport (nd_cl_order_id order) (nd_symbol order) (Some ETNew) (Some OSNew) 0 qty 0 None
              price (to_common_side (nd_side order)) []) /\
    printed_as kp price_precision (nd_price order) price /\
    printed_as kq qty_precision (nd_order_qty order) qty.
Proof.
  intros Hw Hkp Hkq Hqp Hpp Ht Hid Hp1 Hp2 Hq1 Hq2.
  destruct (printed_back wire kp price_precision _ Hw Hkp Hpp Hp1 Hp2) as (price & Ep & Hprice).
  destruct (printed_back wire kq qty_precision _ Hw Hkq Hqp Hq1 Hq2) as (qty & Eq & Hqty).
  assert (Hqs : 0 < 10 ^ kq) by (apply Z.pow_pos_nonneg; lia).
  exists (limit_message (10 ^ kp) (10 ^ kq) qty_precision price_precision order c), price, qty.
  split_and!; [by apply limit_order_message | done | | done | done].
  set (m := limit_message _ _ _ _ _ _).
  assert (H1 : get_field ClOrdID m = Some (FText (to_string_u64 (nd_cl_order_id order)))) by reflexivity.
  assert (H2 : get_field Symbol m = Some (FText (nd_symbol order))) by reflexivity.
  assert (H3 : get_field Side m = Some (FChar (side_char (nd_side order)))) by reflexivity.
  assert (H4 : get_field OrderQty m = Some (FDouble (Binary64.to_double (10 ^ kq) (nd_order_qty order)) (Some qty_precision))) by reflexivity.
  assert (H5 : get_field Price m = Some (FDouble (Binary64.to_double (10 ^ kp) (nd_price order)) (Some price_precision))) by reflexivity.
  clearbody m. unfold create_execution_report_message, echo, text_field, char_field, double_field. rewrite H1, H2, H3, H4, H5.
  cbn [w_Symbol w_ClOrdID w_CumQty w_ExecType w_LastQty w_OrdStatus w_Side w_LeavesQty w_Price w_ErrorCode w_Text mbind option_bind].
  rewrite stoull_to_string by done. cbn [mbind option_bind]. rewrite Ep, Eq.
  rewrite !(Binary64.from_double_stands (10 ^ kq) (inject_Z 0) 0) by (done || apply Binary64.zero_stands).
  by destruct (nd_side order).
Qed.

(** A library that prints the nearest decimal and reads the nearest double. *)
Definition nearest_wire (q : Q) (p : Z) : Q :=
  Binary64.rnd (inject_Z (Binary64.nearest_even (Qnum q * 10 ^ p) (Zpos (Qden q))) / inject_Z (10 ^ p)).

Lemma nearest_wire_prints : wire_prints nearest_wire.
Proof.
  intros q p Hp _. set (v := Binary64.nearest_even (Qnum q * 10 ^ p) (Zpos (Qden q))). exists v.
  assert (HP : 0 < 10 ^ p) by (apply Z.pow_pos_nonneg; lia). pose proof (inject_pos _ HP) as HP'. split.
  - pose proof (Binary64.nearest_even_err (Qnum q * 10 ^ p) (Zpos (Qden q)) ltac:(lia)) as He. fold v in He.
    destruct q as [n d]. cbn [Qnum Qden] in *. apply Qabs_Qle_condition.
    split; unfold Qle, Qminus, Qplus, Qmult, Qopp, inject_Z; cbn [Qnum Qden]; rewrite ?Pos.mul_1_r; lia.
  - unfold nearest_wire. fold v. set (x := (inject_Z v / inject_Z (10 ^ p))%Q).
    pose proof (Binary64.rnd_err x) as He. pose proof (Binary64.scale_cancel (inject_Z v) _ HP) as Hc. fold x in Hc.
    assert (Ex : (Binary64.rnd x * inject_Z (10 ^ p) - inject_Z v == (Binary64.rnd x - x) * inject_Z (10 ^ p))%Q) by (rewrite <-Hc; ring).
    rewrite Ex, Qabs_Qmult, (Qabs_pos (inject_Z (10 ^ p))) by lra.
    assert (Ha : (Qabs (inject_Z v) == Qabs x * inject_Z (10 ^ p))%Q) by (by rewrite <-Hc, Qabs_Qmult, (Qabs_pos (inject_Z (10 ^ p))) by lra).
    rewrite Ha. unfold Binary64.ulp in He. pose proof (Qabs_nonneg x). nra.
Qed.

(** The scales and decimals of the shipped XRPUSDC configuration: a price and a
    quantity that are printed in full, and a price that is not. *)
Lemma limit_order_echoed_witness :
  let order price := mkOrder 42 (codes "XRPUSDC") OSideSell 17500 OTLimit price TIFGoodTillCancel in
  let report price := mkReport 42 (codes "XRPUSDC") (Some ETNew) (Some OSNew) 0 17500 0 None price kSell [] in
  (exists m, create_order_message (10 ^ 6) (10 ^ 3) 1 4 (order 2134500) (new_core [] []) = Some (m, increment (new_core [] [])) /\
     create_execution_report_message (10 ^ 6) (10 ^ 3) true (echo nearest_wire m) = Some (report 2134500)) /\
  (exists m, create_order_message (10 ^ 6) (10 ^ 3) 1 4 (order 2134567) (new_core [] []) = Some (m, increment (new_core [] [])) /\
     create_execution_report_message (10 ^ 6) (10 ^ 3) true (echo nearest_wire m) = Some (report 2134600)).
Proof.
  intros order report. split.
  - destruct (limit_order_echoed nearest_wire 6 3 1 4 (order 2134500) (new_core [] [])) as (m & price & qty & H1 & _ & H3 & Hp & Hq);
      [exact nearest_wire_prints | done..|].
    exists m. split; [done|]. rewrite H3. destruct Hp as (_ & _ & Hp). destruct Hq as (_ & _ & Hq).
    rewrite Hp by (right; by exists 21345). rewrite Hq by (right; by exists 175). done.
  - destruct (limit_order_echoed nearest_wire 6 3 1 4 (order 2134567) (new_core [] [])) as (m & price & qty & H1 & _ & H3 & Hp & Hq);
      [exact nearest_wire_prints | done..|].
    exists m. split; [done|]. rewrite H3. destruct Hq as (_ & _ & Hq). rewrite Hq by (right; by exists 175).
    destruct Hp as (Hp & Hd & _). destruct (Hd ltac:(lia)) as [n ->].
    change (10 ^ (6 - 4)) with 100 in *. change (nd_price (order 2134567)) with 2134567 in Hp.
    replace n with 21346 by lia. done.
Defined.

(** ** The gateway *)

(** The message type of the requests that the FIX build sends. *)
Definition sent_type (request : RequestCommon) : option (list Z) :=
  match req_type request with
  | RQNewSingleOrderData => Some (codes "D")
  | RQOrderCancelRequest => Some (codes "F")
  | RQOrderMassCancelRequest => Some (codes "q")
  | _ => None
  end.

Definition sendable (request : RequestCommon) : Prop :=
  req_type request = RQNewSingleOrderData -> rq_ord_type request = OTLimit.

Section GatewayFacts.
Variables PriceScale QtyScale qty_precision price_precision : Z.
Abbreviation order_request := (order_request PriceScale QtyScale qty_precision price_precision).
Abbreviation order_requests := (order_requests PriceScale QtyScale qty_precision price_precision).

Lemma order_request_sent request g :
  sendable request ->
  exists ms g', order_request request g = Some g' /\ outbox g' = outbox g ++ ms /\ session_ready_ g' = session_ready_ g /\
    map msg_type ms = match sent_type request with Some t => [t] | None => [] end /\ numbered ms (core g) (core g').
Proof.
  intros Hs. unfold sendable in Hs. unfold FixOrderEntry.order_request, sent_type. destruct (req_type request); cycle 1.
  - unfold new_single_order_data. rewrite limit_order_message by (by apply Hs). cbn [mbind option_bind].
    eexists [_], _. split_and!; [reflexivity..|]. by apply numbered_one.
  - eexists [_], _. split_and!; [reflexivity..|]. by apply numbered_one.
  - exists [], g. rewrite app_nil_r. split_and!; try done. apply numbered_nil.
  - exists [], g. rewrite app_nil_r. split_and!; try done. apply numbered_nil.
  - eexists [_], _. split_and!; [reflexivity..|]. by apply numbered_one.
  - exists [], g. rewrite app_nil_r. split_and!; try done. apply numbered_nil.
Qed.

(** What the gateway of the FIX build sends.  For any list of requests whose
    new orders are limit orders, the session sends one message for every new
    order, cancel and mass cancel, in the order of the requests and with
    consecutive numbers, and nothing for a replacement or a modification: those
    requests disappear without an answer to the order manager. *)
Theorem fix_gateway_exact requests g :
  Forall sendable requests ->
  exists ms g', order_requests requests g = Some g' /\ outbox g' = outbox g ++ ms /\
    map msg_type ms = omap sent_type requests /\ numbered ms (core g) (core g').
Proof.
  intros Hs. revert g. induction Hs as [|request requests Hr _ IH]; intros g.
  { exists [], g. rewrite app_nil_r. split_and!; try done. apply numbered_nil. }
  destruct (order_request_sent request g Hr) as (m1 & g1 & H1 & H2 & _ & H3 & H4).
  destruct (IH g1) as (m2 & g2 & H5 & H6 & H7 & H8).
  exists (m1 ++ m2), g2. cbn [FixOrderEntry.order_requests]. rewrite H1. split_and!; [done | | |].
  - by rewrite H6, H2, app_assoc.
  - rewrite map_app, H3, H7. cbn. by destruct (sent_type request).
  - by eapply numbered_app.
Qed.

(** A new order that is not a limit order: the field of the price is null and is
    followed. *)
Lemma market_order_undefined request g :
  req_type request = RQNewSingleOrderData -> rq_ord_type request <> OTLimit -> order_request request g = None.
Proof.
  intros Hr Ht. unfold FixOrderEntry.order_request, new_single_order_data. rewrite Hr. by rewrite other_order_message.
Qed.
End GatewayFacts.

Lemma fix_gateway_exact_witness :
  let request type := mkRequest type kOrderIdInvalid 7 6 "XRPUSDC" kBuy 17500 OTLimit 5001 TIFGoodTillCancel None in
  let requests := [request RQNewSingleOrderData; request RQOrderCancelRequestAndNewOrderSingle; request RQOrderCancelRequest] in
  exists ms g', order_requests 100 1000 3 2 requests (mkGateway (new_core [] []) [] true false) = Some g' /\ outbox g' = ms /\
    map msg_type ms = [codes "D"; codes "F"] /\ map msg_seq_num ms = [1; 2].
Proof.
  intros request requests.
  destruct (fix_gateway_exact 100 1000 3 2 requests (mkGateway (new_core [] []) [] true false)) as (ms & g' & H1 & H2 & H3 & H4 & _);
    [by repeat constructor|].
  exists ms, g'. split_and!; [done | done | done |]. rewrite H4. assert (Hl : zlen ms = zlen (map msg_type ms)) by (unfold zlen; by rewrite length_map).
  by rewrite Hl, H3.
Defined.

(** ** The response manager *)

Section ManagerFacts.
Context {P : Type} `{NodePool P}.
Implicit Types (m : ResponseManager P) (r : Response).

Definition manager_ok m : Prop := forall r, np_ok (get_pool r m).

Lemma get_set_pool r r' p m : get_pool r' (set_pool r p m) = if decide (r = r') then p else get_pool r' m.
Proof. by destruct r, r'. Qed.

(** A report that is returned is free again, and the other pools are as they were. *)
Theorem response_returned r n m m' :
  manager_ok m -> response_allocate r m = (Some n, m') ->
  manager_ok m' /\ np_used (get_pool r m') n /\
  manager_ok (response_deallocate r n m') /\
  forall r', np_free (get_pool r' (response_deallocate r n m')) = np_free (get_pool r' m).
Proof.
  intros Hok. unfold response_allocate. destruct (np_alloc (get_pool r m)) as [[k p]|] eqn:E; [|done]. intros [= -> <-].
  destruct (np_alloc_Some _ _ _ (Hok r) E) as (Hp & Hfr & _ & Hused).
  assert (Hn : np_used p n) by (apply Hused; by left).
  destruct (np_dealloc_used p n Hp Hn) as (Hp' & Hfr' & _).
  assert (Hpool : get_pool r (set_pool r p m) = p) by (rewrite get_set_pool; by rewrite decide_True).
  unfold response_deallocate. rewrite Hpool. split_and!; [|done| |].
  - intros r'. rewrite get_set_pool. case_decide; [done | apply Hok].
  - intros r'. rewrite !get_set_pool. case_decide; [done|]. apply Hok.
  - intros r'. rewrite !get_set_pool. destruct (decide (r = r')) as [<-|]; [by rewrite Hfr', Hfr | done].
Qed.
End ManagerFacts.

Lemma response_returned_witness :
  let m := mkManager (MemoryPool.create 2) (MemoryPool.create 2) (MemoryPool.create 2) in
  exists n m', response_allocate CancelRejects m = (Some n, m') /\
    np_free (get_pool CancelRejects (response_deallocate CancelRejects n m')) = np_free (MemoryPool.create 2).
Proof.
  intros m. assert (Hok : manager_ok m) by (intros r; destruct r; by apply create_fresh).
  destruct (response_allocate CancelRejects m) as [[n|] m'] eqn:E; [|by vm_compute in E].
  destruct (response_returned CancelRejects n m m' Hok E) as (_ & _ & _ & Hf). exists n, m'. split; [done|]. apply Hf.
Defined.

End FixOrderEntry.
