(* ===== verification/OeEncoder.v ===== *)
(** * Order entry encoders
      (src/hft/core/websocket/order_entry/exchanges/binance/spot/binance_spot_oe_encoder.tpp,
      binance/futures/binance_futures_oe_encoder.hpp, [to_fixed] of common/types.h)

    The structs that the two encoders fill for the JSON writer, which is a
    library; the texts of login and logout; and [to_fixed], which prints a double
    into a buffer of sixteen bytes.

    The theorems: a price or quantity on the grid of the exchange survives the
    cut to the grid, the double, the printing and the reading; the printed text
    is exact as long as it has fifteen characters; a futures order without a
    price sends whatever the struct held. *)

From Stdlib Require Import QArith.
From S2P Require Import Prelude Types Binary64 FixedPoint Text IniConfig LevelParser OnepassDecoder OrderEntry FixOrderEntry.

Module OeEncoder.
Import FixedPoint Text IniConfig OrderEntry FixOrderEntry.
Local Open Scope Z_scope.

(** ** Printing doubles *)

(** [printf("%.*f", precision, data)]: the decimal of that many digits that is
    nearest to the double, ties to even. *)
Definition fixed_text (precision : nat) (data : Q) : list Z :=
  let n := Binary64.nearest_even (Z.abs (Qnum data) * pow10 precision) (Zpos (Qden data)) in
  reverse (frac_chars precision (n mod pow10 precision) ++ int_chars (n / pow10 precision) ++
           (if Qnum data <? 0 then [chr_minus] else [])).

Definition kPrecisionBufferSize : nat := 16.

(** [snprintf] keeps what fits before the terminator. *)
Definition to_fixed (data : Q) (precision : nat) : list Z := take (kPrecisionBufferSize - 1) (fixed_text precision data).

(** [qty_to_actual_double] and [price_to_actual_double] *)
Definition qty_to_actual_double (cfg : FixedPointConfig) (qty : Z) : Q :=
  Binary64.to_double (kQtyScale cfg) (qty_to_actual cfg qty).
Definition price_to_actual_double (cfg : FixedPointConfig) (price : Z) : Q :=
  Binary64.to_double (kPriceScale cfg) (price_to_actual cfg price).

(** ** Names of the enumerations *)

Definition orderSide_toString (side : OrderSide) : string :=
  match side with OSideBuy => "BUY" | OSideSell => "SELL" | OSideNone => "UNKNOWN" end.
Definition orderType_toString (type : OrderType) : string :=
  match type with
  | OTMarket => "MARKET" | OTLimit => "LIMIT" | OTStopLoss => "STOP_LOSS" | OTStopLimit => "STOP_LIMIT" | OTInvalid => "UNKNOWN"
  end.
Definition timeInForce_toString (tif : TimeInForce) : string :=
  match tif with TIFGoodTillCancel => "GTC" | TIFImmediateOrCancel => "IOC" | TIFFillOrKill => "FOK" | TIFInvalid => "UNKNOWN" end.
(** [toString(SelfTradePreventionMode::kExpireTaker)] *)
Definition stp_toString : string := "EXPIRE_TAKER".

Definition limit_only {A : Type} (type : OrderType) (a : A) : option A := match type with OTLimit => Some a | _ => None end.

(** ** Spot *)

Module Spot.
Record OrderPlaceRequest := mkPlace {
  id : list Z; method : string; symbol : list Z; new_client_order_id : list Z; side : string; type : string;
  quantity : list Z; time_in_force : option string; price : option (list Z);
  self_trade_prevention_mode : string; timestamp : Z }.

Record CancelRequest := mkCancelRequest {
  c_id : list Z; c_method : string; c_symbol : list Z; c_new_client_order_id : list Z; c_orig_client_order_id : list Z;
  c_timestamp : Z }.

Record OrderCancelReplaceRequest := mkReplace {
  r_id : list Z; r_method : string; r_mode : string; r_symbol : list Z; r_side : string; r_type : string;
  r_cancel_orig_client_order_id : list Z; r_cancel_new_client_order_id : list Z; r_new_client_order_id : list Z;
  r_quantity : list Z; r_time_in_force : option string; r_price : option (list Z);
  r_self_trade_prevention_mode : string; r_timestamp : Z }.

Record OpenOrdersCancelAllRequest := mkCancelAll { a_id : list Z; a_symbol : list Z; a_timestamp : Z }.

Section Encoder.
Variable cfg : FixedPointConfig.
Variables price_precision_ qty_precision_ : nat.

(** [now] is the time of the call in milliseconds. *)
Definition create_order_message (order : NewSingleOrderData) (now : Z) : OrderPlaceRequest :=
  let type := nd_ord_type order in
  mkPlace (request_id false PlaceId (nd_cl_order_id order)) "order.place" (nd_symbol order)
    (to_string_u64 (nd_cl_order_id order)) (orderSide_toString (nd_side order)) (orderType_toString type)
    (to_fixed (qty_to_actual_double cfg (nd_order_qty order)) qty_precision_)
    (limit_only type (timeInForce_toString (nd_time_in_force order)))
    (limit_only type (to_fixed (price_to_actual_double cfg (nd_price order)) price_precision_)) stp_toString now.

Definition create_cancel_order_message (cancel : OrderCancelRequest) (now : Z) : CancelRequest :=
  mkCancelRequest (request_id false CancelId (cr_cl_order_id cancel)) "order.cancel" (cr_symbol cancel)
    (to_string_u64 (cr_cl_order_id cancel)) (to_string_u64 (cr_orig_cl_order_id cancel)) now.

Definition create_cancel_and_reorder_message (replace : OrderCancelAndNewOrderSingle) (now : Z) : OrderCancelReplaceRequest :=
  let type := cn_ord_type replace in
  mkReplace (request_id false ReplaceId (cn_cl_new_order_id replace)) "order.cancelReplace" "STOP_ON_FAILURE"
    (cn_symbol replace) (orderSide_toString (cn_side replace)) (orderType_toString type)
    (to_string_u64 (cn_cl_origin_order_id replace)) (to_string_u64 (cn_cancel_new_order_id replace))
    (to_string_u64 (cn_cl_new_order_id replace))
    (to_fixed (qty_to_actual_double cfg (cn_order_qty replace)) qty_precision_)
    (limit_only type (timeInForce_toString (cn_time_in_force replace)))
    (limit_only type (to_fixed (price_to_actual_double cfg (cn_price replace)) price_precision_)) stp_toString now.

Definition create_order_all_cancel (cl_order_id : Z) (symbol : list Z) (now : Z) : OpenOrdersCancelAllRequest :=
  mkCancelAll (request_id false CancelAllId cl_order_id) symbol now.

(** A timestamp that is no number is replaced by the time. *)
Definition logon_timestamp (timestamp : list Z) (now : Z) : Z :=
  match timestamp with [] => now | _ => default now (signed int64_min int64_max timestamp) end.

Definition log_on_text (prefix api_key signature : list Z) (ts : Z) : list Z :=
  Onepass.json "{'id':'" ++ prefix ++ render_int ts ++ Onepass.json "','method':'session.logon','params':{'apiKey':'" ++ api_key ++
  Onepass.json "','signature':'" ++ signature ++ Onepass.json "','timestamp':" ++ render_int ts ++ Onepass.json "}}".

Definition create_log_on_message (api_key signature timestamp : list Z) (now : Z) : list Z :=
  log_on_text (codes "login_") api_key signature (logon_timestamp timestamp now).

Definition log_out_text (prefix : list Z) (now : Z) : list Z :=
  Onepass.json "{'id':'" ++ prefix ++ render_int now ++ Onepass.json "','method':'session.logout','params':{}}".

Definition create_log_out_message (now : Z) : list Z := log_out_text (codes "logout_") now.
End Encoder.
End Spot.

(** ** Futures *)

Module Futures.
(** [None] for a number: the member of the struct is not initialised, and the
    writer, for which it is not optional, writes it. *)
Record FuturesPlaceRequest := mkPlace {
  id : list Z; method : string; symbol : list Z; new_client_order_id : list Z; side : string; type : string;
  quantity : Q; time_in_force : option string; price : option Q;
  self_trade_prevention_mode : string; position_side : option string; timestamp : Z }.

Record FuturesCancelRequest := mkCancelRequest {
  c_id : list Z; c_method : string; c_symbol : list Z; c_client_order_id : list Z; c_position_side : option string; c_timestamp : Z }.

Record OrderModifyRequest := mkModify {
  m_id : list Z; m_method : string; m_symbol : list Z; m_side : string; m_origin_client_order_id : Z;
  m_quantity : Q; m_price : option Q; m_position_side : option string; m_timestamp : Z }.

(** [trading::OrderModifyRequest] *)
Record ModifyData := mkModifyData {
  md_orig_client_order_id : Z; md_symbol : list Z; md_side : OrderSide; md_price : Z; md_order_qty : Z }.

Section Encoder.
Variable cfg : FixedPointConfig.
Abbreviation position := (option_map positionSide_toString).

Definition futures_create_order_message (order : NewSingleOrderData) (ps : option PositionSide) (now : Z) : FuturesPlaceRequest :=
  let type := nd_ord_type order in
  mkPlace (request_id true PlaceId (nd_cl_order_id order)) "order.place" (nd_symbol order)
    (to_string_u64 (nd_cl_order_id order)) (orderSide_toString (nd_side order)) (orderType_toString type)
    (qty_to_actual_double cfg (nd_order_qty order))
    (limit_only type (timeInForce_toString (nd_time_in_force order)))
    (limit_only type (price_to_actual_double cfg (nd_price order))) stp_toString (position ps) now.

Definition futures_create_cancel_order_message (cancel : OrderCancelRequest) (ps : option PositionSide) (now : Z) : FuturesCancelRequest :=
  mkCancelRequest (request_id true CancelId (cr_cl_order_id cancel)) "order.cancel" (cr_symbol cancel)
    (to_string_u64 (cr_orig_cl_order_id cancel)) (position ps) now.

(** A replacement is a modification of the original order, under the id of the new one. *)
Definition futures_create_cancel_and_reorder_message (replace : OrderCancelAndNewOrderSingle) (ps : option PositionSide) (now : Z) :
    OrderModifyRequest :=
  mkModify (request_id true ReplaceId (cn_cl_new_order_id replace)) "order.modify" (cn_symbol replace)
    (orderSide_toString (cn_side replace)) (cn_cl_origin_order_id replace)
    (qty_to_actual_double cfg (cn_order_qty replace))
    (limit_only (cn_ord_type replace) (price_to_actual_double cfg (cn_price replace))) (position ps) now.

Definition create_modify_order_message (modify : ModifyData) (ps : option PositionSide) (now : Z) : OrderModifyRequest :=
  mkModify (request_id true ModifyId (md_orig_client_order_id modify)) "order.modify" (md_symbol modify)
    (orderSide_toString (md_side modify)) (md_orig_client_order_id modify) (qty_to_actual_double cfg (md_order_qty modify))
    (Some (price_to_actual_double cfg (md_price modify))) (position ps) now.

(** ['l'] and ['o'] *)
Definition futures_create_log_on_message (api_key signature timestamp : list Z) (now : Z) : list Z :=
  Spot.log_on_text (codes "l") api_key signature (Spot.logon_timestamp timestamp now).
Definition futures_create_log_out_message (now : Z) : list Z := Spot.log_out_text (codes "o") now.
End Encoder.
End Futures.

(** ** Reading back *)

Lemma nearest_even_near num den m : 0 < den -> 2 * Z.abs (m * den - num) < den -> Binary64.nearest_even num den = m.
Proof. intros Hd Hm. pose proof (Binary64.nearest_even_err num den Hd). nia. Qed.

Lemma pow10_split n p : (p <= n)%nat -> pow10 n = pow10 p * pow10 (n - p).
Proof. intros Hp. rewrite !pow10_eq, <-Z.pow_add_r by lia. f_equal. lia. Qed.

Definition fixed_chars (p : nat) (m : Z) : list Z := reverse (frac_chars p (m mod pow10 p) ++ int_chars (m / pow10 p)).

Lemma fixed_chars_value n p m :
  (p <= n)%nat -> 0 <= m <= int64_max -> string_to_fixed (pow10 n) (fixed_chars p m) = m * pow10 (n - p).
Proof.
  intros Hp Hm. pose proof (pow10_pos p) as Hpos. unfold fixed_chars, string_to_fixed. rewrite reverse_app, fold_left_app.
  assert (Hint : 0 <= m / pow10 p <= int64_max)
    by (split; [apply Z.div_pos; lia | apply Z.div_le_upper_bound; unfold int64_max in *; nia]).
  rewrite int_chars_parse by done. cbn [frac_part frac_digits negative].
  destruct (frac_chars_parse p (m mod pow10 p) (mkParse (m / pow10 p) 0 0 false false)) as (-> & -> & -> & ->);
    [apply Z.mod_pos_bound; lia | done..|]. cbn [integer_part negative].
  rewrite (pow10_split n p Hp). replace (m mod pow10 p * (pow10 p * pow10 (n - p))) with (m mod pow10 p * pow10 (n - p) * pow10 p) by ring.
  rewrite Z.quot_mul by lia. rewrite (Z.div_mod m (pow10 p)) at 3 by lia. ring.
Qed.

Lemma fixed_chars_length p m j :
  0 <= m -> (1 <= j)%nat -> m < pow10 j * pow10 p -> (length (fixed_chars p m) <= j + p + 1)%nat.
Proof.
  intros Hm Hj Hlt. pose proof (pow10_pos p). unfold fixed_chars. rewrite length_reverse, length_app.
  assert (Hi : (length (int_chars (m / pow10 p)) <= j)%nat).
  { unfold int_chars. destruct (_ =? 0); [simpl; lia|]. apply push_int_length. apply Z.div_lt_upper_bound; lia. }
  unfold frac_chars. destruct (0 <? p)%nat; [rewrite length_app, push_frac_length|]; simpl; lia.
Qed.

(** A double that stands for [v] units prints as the decimal of [v]. *)
Lemma fixed_text_stands n p q m :
  (p <= n)%nat -> 0 <= m -> 0 <= Qnum q -> Binary64.stands_for (pow10 n) q (m * pow10 (n - p)) ->
  fixed_text p q = fixed_chars p m.
Proof.
  intros Hp Hm Hq Hs. unfold fixed_text. rewrite (proj2 (Z.ltb_ge _ _)) by done. rewrite app_nil_r.
  rewrite (nearest_even_near _ _ m); [done | done|]. unfold Binary64.stands_for in Hs.
  rewrite (pow10_split n p Hp) in Hs. pose proof (pow10_pos p). pose proof (pow10_pos (n - p)).
  set (P := pow10 p) in *. set (T := pow10 (n - p)) in *. clearbody P T. destruct q as [a d]. cbn [Qnum Qden] in *.
  unfold Qle, Qabs.Qabs, Qminus, Qopp, Qplus, Qmult, inject_Z in Hs. cbn [Qnum Qden] in Hs.
  rewrite !Pos.mul_1_r in Hs. rewrite (Z.abs_eq a) by done.
  assert (Hd : 16 * Z.abs (T * (a * P - m * Zpos d)) <= Zpos d).
  { replace (T * (a * P - m * Zpos d)) with (a * (P * T) * 1 + - (m * T) * Zpos d) by ring. lia. }
  rewrite Z.abs_mul in Hd. replace (m * Zpos d - a * P) with (- (a * P - m * Zpos d)) by ring. rewrite Z.abs_opp. nia.
Qed.

Lemma to_double_nonneg scale v : 0 < scale -> 0 <= v <= Binary64.kExactRange -> 0 <= Qnum (Binary64.to_double scale v).
Proof.
  intros Hs Hv. destruct (Z.eq_dec v 0) as [->|Hne].
  - unfold Binary64.to_double, Binary64.rnd, inject_Z. cbn [Qnum Z.eqb]. unfold Qdiv, Qmult. cbn [Qnum]. by rewrite Z.mul_0_l.
  - pose proof (Binary64.to_double_near scale v Hs ltac:(lia)) as Hn. unfold Binary64.stands_for in Hn.
    destruct (Binary64.to_double scale v) as [a d]. unfold Qle, Qabs.Qabs, Qminus, Qopp, Qplus, Qmult, inject_Z in Hn.
    cbn [Qnum Qden] in *. nia.
Qed.

(** The text of a value cut to the grid of the exchange. *)
Lemma actual_text n a p scale_actual v :
  (a <= p <= n)%nat -> scale_actual = pow10 a -> 0 <= v <= Binary64.kExactRange ->
  let cut := truncate_to (Z.quot (pow10 n) scale_actual) v in
  0 <= cut <= v /\ fixed_text p (Binary64.to_double (pow10 n) cut) = fixed_chars p (cut / pow10 (n - p)) /\
  string_to_fixed (pow10 n) (fixed_text p (Binary64.to_double (pow10 n) cut)) = cut.
Proof.
  intros Hap -> Hv cut. pose proof (pow10_pos n) as Hn. pose proof (pow10_pos a) as Ha. pose proof (pow10_pos (n - p)) as Hnp.
  assert (Hr : Z.quot (pow10 n) (pow10 a) = pow10 (n - p) * pow10 (p - a)).
  { rewrite (pow10_split n a) by lia. rewrite Z.mul_comm, Z.quot_mul by lia.
    rewrite !pow10_eq, <-Z.pow_add_r by lia. f_equal. lia. }
  set (m := Z.quot v (Z.quot (pow10 n) (pow10 a)) * pow10 (p - a)).
  assert (Hcut : cut = m * pow10 (n - p)) by (unfold cut, truncate_to, m; rewrite Hr; ring).
  pose proof (pow10_pos (p - a)) as Hpa.
  assert (Hle : 0 <= cut <= v).
  { unfold cut, truncate_to. rewrite Hr, Z.quot_div_nonneg by nia.
    pose proof (Z.mul_div_le v (pow10 (n - p) * pow10 (p - a))). pose proof (Z.div_pos v (pow10 (n - p) * pow10 (p - a))). nia. }
  assert (Hm : 0 <= m <= cut) by nia.
  assert (Htext : fixed_text p (Binary64.to_double (pow10 n) cut) = fixed_chars p m).
  { apply (fixed_text_stands n); [lia | lia | apply to_double_nonneg; lia |]. rewrite <-Hcut. apply Binary64.to_double_near; lia. }
  split; [done|]. rewrite Htext. replace (cut / pow10 (n - p)) with m by (rewrite Hcut, Z.div_mul; lia). split; [done|].
  rewrite fixed_chars_value; [done | lia|]. unfold Binary64.kExactRange, int64_max in *. lia.
Qed.

(** A build whose scales are powers of ten, and the configured precisions between
    the grid of the exchange and the scale of the build. *)
Definition scale_ok (scale scale_actual : Z) (precision : nat) : Prop :=
  exists n a, scale = pow10 n /\ scale_actual = pow10 a /\ (a <= precision <= n)%nat /\ (precision <= 13)%nat.

Lemma actual_to_fixed scale scale_actual precision v :
  scale_ok scale scale_actual precision -> 0 <= v <= Binary64.kExactRange -> v < pow10 (14 - precision) * scale ->
  let cut := truncate_to (Z.quot scale scale_actual) v in
  string_to_fixed scale (to_fixed (Binary64.to_double scale cut) precision) = cut.
Proof.
  intros (n & a & -> & Ha & Hap & Hp) Hv Hlt cut. destruct (actual_text n a precision scale_actual v Hap Ha Hv) as (Hle & Ht & Hs).
  fold cut in Hle, Ht, Hs. unfold to_fixed. rewrite take_ge; [done|]. rewrite Ht.
  pose proof (pow10_pos (n - precision)). change (kPrecisionBufferSize - 1)%nat with 15%nat.
  transitivity (14 - precision + precision + 1)%nat; [|lia]. apply fixed_chars_length; [apply Z.div_pos; lia | lia|].
  apply Z.div_lt_upper_bound; [lia|]. rewrite (pow10_split n precision) in Hlt by lia.
  replace (pow10 (n - precision) * (pow10 (14 - precision) * pow10 precision)) with (pow10 (14 - precision) * (pow10 precision * pow10 (n - precision))) by ring.
  lia.
Qed.

(** C21: what a spot order says.  For every limit order of a build with decimal
    scales, the quantity and price that the encoder writes are, read as
    decimals, those of the order cut to the grid of the exchange, and its client
    id is the id of the order; the cut, the division in doubles, the printing and
    its buffer of sixteen bytes lose nothing else, up to amounts of ten to the
    power of fourteen less the printed decimals. *)
Theorem spot_order_written cfg price_precision qty_precision order now :
  scale_ok (kPriceScale cfg) (kPriceScaleActual cfg) price_precision ->
  scale_ok (kQtyScale cfg) (kQtyScaleActual cfg) qty_precision ->
  0 <= nd_cl_order_id order < two64 ->
  0 <= nd_price order <= Binary64.kExactRange -> nd_price order < pow10 (14 - price_precision) * kPriceScale cfg ->
  0 <= nd_order_qty order <= Binary64.kExactRange -> nd_order_qty order < pow10 (14 - qty_precision) * kQtyScale cfg ->
  let msg := Spot.create_order_message cfg price_precision qty_precision order now in
  stoull (Spot.new_client_order_id msg) = Some (nd_cl_order_id order) /\
  string_to_fixed (kQtyScale cfg) (Spot.quantity msg) = qty_to_actual cfg (nd_order_qty order) /\
  string_to_fixed (kPriceScale cfg) <$> Spot.price msg =
    match nd_ord_type order with OTLimit => Some (price_to_actual cfg (nd_price order)) | _ => None end.
Proof.
  intros Hps Hqs Hid Hp Hpl Hq Hql msg. split_and!; [by apply stoull_to_string | by apply actual_to_fixed |].
  cbn [Spot.price msg Spot.create_order_message]. unfold limit_only. destruct (nd_ord_type order); try done.
  cbn [fmap option_fmap option_map]. f_equal. by apply actual_to_fixed.
Qed.

Lemma spot_order_written_witness :
  let order := mkOrder 42 (codes "XRPUSDC") OSideBuy 17512 OTLimit 2134567 TIFGoodTillCancel in
  let msg := Spot.create_order_message XRPUSDCConfig 4 1 order 0 in
  Spot.price msg = Some (codes "2.1345") /\ Spot.quantity msg = codes "17.5" /\
  string_to_fixed 1000000 <$> Spot.price msg = Some 2134500.
Proof.
  intros order msg. split_and!; [by vm_compute | by vm_compute |].
  assert (H1 : scale_ok 1000000 10000 4) by (exists 6%nat, 4%nat; split_and!; (reflexivity || lia)).
  assert (H2 : scale_ok 1000 10 1) by (exists 3%nat, 1%nat; split_and!; (reflexivity || lia)).
  apply (spot_order_written XRPUSDCConfig 4 1 order 0 H1 H2); by vm_compute.
Defined.

(** The futures encoder hands the double to the writer; read back, it is the
    value on the grid.  An order without a price has no price to write: the
    member is not initialised. *)
Theorem futures_order_written cfg order ps now :
  0 < kPriceScale cfg -> 0 < kQtyScale cfg ->
  Z.abs (price_to_actual cfg (nd_price order)) <= Binary64.kExactRange ->
  Z.abs (qty_to_actual cfg (nd_order_qty order)) <= Binary64.kExactRange ->
  let msg := Futures.futures_create_order_message cfg order ps now in
  Binary64.from_double (kQtyScale cfg) (Futures.quantity msg) = qty_to_actual cfg (nd_order_qty order) /\
  Binary64.from_double (kPriceScale cfg) <$> Futures.price msg =
    match nd_ord_type order with OTLimit => Some (price_to_actual cfg (nd_price order)) | _ => None end.
Proof.
  intros HP HQ Hp Hq msg. split; [apply Binary64.from_double_stands; [done..|]; by apply Binary64.to_double_near|].
  cbn [Futures.price msg Futures.futures_create_order_message]. unfold limit_only. destruct (nd_ord_type order); try done.
  cbn [fmap option_fmap option_map]. f_equal. apply Binary64.from_double_stands; [done..|]. by apply Binary64.to_double_near.
Qed.

Lemma futures_order_written_witness :
  let order := mkOrder 42 (codes "XRPUSDC") OSideBuy 17500 OTMarket 0 TIFInvalid in
  let msg := Futures.futures_create_order_message XRPUSDCConfig order None 0 in
  Binary64.from_double 1000 (Futures.quantity msg) = 17500 /\ Futures.price msg = None.
Proof.
  intros order msg. split; [|done]. apply (futures_order_written XRPUSDCConfig order None 0); by vm_compute.
Defined.

(** More than fifteen characters are cut: here the last two decimals. *)
Example long_amount_cut : to_fixed (123456789012345678 # 10000000000) 8 = codes "12345678.901234".
Proof. by vm_compute. Qed.

End OeEncoder.
