(* ===== verification/FileTransport.v ===== *)
(** * The replay transport (src/hft/core/transport/file_transport.h)

    [FileTransport] stands in for the socket: it replays recorded messages by
    their timestamps, delivers queued ones, records what is sent, and simulates
    the answers to orders.  The callback is a ghost list of what it was given;
    file contents are arguments; the order in which [std::priority_queue] hands
    out messages of equal timestamps is left open by a class of which only the
    law of a priority queue is known.  Threads and locks are not modelled: a
    round of the simulator is a step at a time of the steady clock.

    The theorems: a replay ends and delivers every recorded message once, by
    timestamp, but messages of one timestamp in no particular order; the
    timestamp of a recorded depth or trade message is its event time; an order
    that is written to the simulator is answered by one report with its id,
    side and amounts, and one that the simulator cannot read stops the writer. *)

From Stdlib Require Import QArith Lqa.
From S2P Require Import Prelude Types Binary64 FixedPoint Text IniConfig LevelParser OnepassDecoder FixSession OeEncoder.

Module FileTransport.
Import FixedPoint Text LevelParser IniConfig.
Local Open Scope Z_scope.

(** ** Timestamps *)

Definition kDecimalBase : Z := 10.

(** [while (e_pos < size && payload[e_pos] == ' ') ++e_pos;] *)
Fixpoint skip_blanks (l : list Z) : list Z :=
  match l with
  | c :: rest => if c =? 32 then skip_blanks rest else l
  | [] => []
  end.

Fixpoint read_u64 (result : Z) (l : list Z) : Z :=
  match l with
  | c :: rest =>
      if (chr_0 <=? c) && (c <=? chr_9) then read_u64 (u64 (result * kDecimalBase + (c - chr_0))) rest else result
  | [] => result
  end.

Definition extract_timestamp (payload : list Z) : Z :=
  let data_pos := default 0%nat (find (Onepass.json "'data'") payload) in
  match find_from (Onepass.json "'E':") payload data_pos with
  | None => 0
  | Some e_pos => read_u64 0 (skip_blanks (drop (e_pos + 4) payload))
  end.

Record TimedMessage := mkTimed { timestamp : Z; payload : list Z }.

(** An order that was read from a message, and when it is due. *)
Record ParsedOrderRequest := mkParsed {
  client_order_id : list Z;
  symbol : list Z;
  side : list Z;
  position_side : list Z;
  price : Q;
  quantity : Q;
  is_cancel : bool;
  valid : bool;
}.

Record PendingOrder := mkPending { request : ParsedOrderRequest; execute_time : Z }.

(** ** Priority queues *)

(** The time by which a queue is ordered, and the comparison of the two queues. *)
Class Timed (A : Type) := time_of : A -> Z.
#[global] Instance timed_message : Timed TimedMessage := timestamp.
#[global] Instance timed_order : Timed PendingOrder := execute_time.
Definition later {A} `{Timed A} (lhs rhs : A) : bool := time_of rhs <? time_of lhs.

(** [top] and [pop] of a [std::priority_queue] over its contents: some element
    that no other is earlier than. *)
Class PriorityQueue (A : Type) `{Timed A} := {
  pop : list A -> option (A * list A);
  pop_nil : pop [] = None;
  pop_cons x l : is_Some (pop (x :: l));
  pop_law l x rest : pop l = Some (x, rest) -> l ≡ₚ x :: rest /\ Forall (fun y => later x y = false) rest;
}.

(** ** The transport *)

Inductive ReplayMode := kInstant | kRealtime.

Definition empty_request : ParsedOrderRequest := mkParsed [] [] [] [] 0 0 false false.

Record Transport := mkTransport {
  callback_ : bool;
  (** what the callback was given *)
  delivered : list (list Z);
  notify_connected_ : bool;
  connected_ : bool;
  interrupted_ : bool;
  sent_messages_ : list (list Z);
  queue_ : list (list Z);
  replay_queue_ : list TimedMessage;
  last_timestamp_ : Z;
  enabled : bool;
  delay : Z;
  auto_fill : bool;
  pending_orders_ : list PendingOrder;
}.

Definition new_transport (notify : bool) : Transport := mkTransport false [] notify false false [] [] [] 0 false 1 true [].

Definition set_flags (notify connected interrupted : bool) (t : Transport) : Transport :=
  mkTransport (callback_ t) (delivered t) notify connected interrupted (sent_messages_ t) (queue_ t) (replay_queue_ t)
    (last_timestamp_ t) (enabled t) (delay t) (auto_fill t) (pending_orders_ t).
Definition set_replay (q : list TimedMessage) (last : Z) (t : Transport) : Transport :=
  mkTransport (callback_ t) (delivered t) (notify_connected_ t) (connected_ t) (interrupted_ t) (sent_messages_ t)
    (queue_ t) q last (enabled t) (delay t) (auto_fill t) (pending_orders_ t).
Definition set_queue (q : list (list Z)) (t : Transport) : Transport :=
  mkTransport (callback_ t) (delivered t) (notify_connected_ t) (connected_ t) (interrupted_ t) (sent_messages_ t)
    q (replay_queue_ t) (last_timestamp_ t) (enabled t) (delay t) (auto_fill t) (pending_orders_ t).
Definition set_sent (m : list (list Z)) (t : Transport) : Transport :=
  mkTransport (callback_ t) (delivered t) (notify_connected_ t) (connected_ t) (interrupted_ t) m
    (queue_ t) (replay_queue_ t) (last_timestamp_ t) (enabled t) (delay t) (auto_fill t) (pending_orders_ t).
Definition set_simulator (e : bool) (wait : Z) (fill : bool) (p : list PendingOrder) (t : Transport) : Transport :=
  mkTransport (callback_ t) (delivered t) (notify_connected_ t) (connected_ t) (interrupted_ t) (sent_messages_ t)
    (queue_ t) (replay_queue_ t) (last_timestamp_ t) e wait fill p.

(** [if (callback_) callback_(payload);] *)
Definition inject_message (payload : list Z) (t : Transport) : Transport :=
  if callback_ t then
    mkTransport true (delivered t ++ [payload]) (notify_connected_ t) (connected_ t) (interrupted_ t) (sent_messages_ t)
      (queue_ t) (replay_queue_ t) (last_timestamp_ t) (enabled t) (delay t) (auto_fill t) (pending_orders_ t)
  else t.

Definition connected_text : list Z := codes "__CONNECTED__".

Definition initialize (notify_connected : bool) (t : Transport) : Transport :=
  let t := set_flags notify_connected true (interrupted_ t) t in
  if notify_connected_ t then inject_message connected_text t else t.

Definition register_message_callback (t : Transport) : Transport :=
  let t := mkTransport true (delivered t) (notify_connected_ t) (connected_ t) (interrupted_ t) (sent_messages_ t)
    (queue_ t) (replay_queue_ t) (last_timestamp_ t) (enabled t) (delay t) (auto_fill t) (pending_orders_ t) in
  if notify_connected_ t && connected_ t then inject_message connected_text t else t.

Definition interrupt (t : Transport) : Transport := set_flags (notify_connected_ t) false true t.

Definition simulate_connect (t : Transport) : Transport :=
  let t := set_flags (notify_connected_ t) true false t in
  if notify_connected_ t then inject_message connected_text t else t.
Definition simulate_disconnect (t : Transport) : Transport := set_flags (notify_connected_ t) false (interrupted_ t) t.
Definition is_connected (t : Transport) : bool := connected_ t && negb (interrupted_ t).

(** ** Recordings *)

Definition add_message (payload : list Z) (t : Transport) : Transport :=
  set_replay (mkTimed (extract_timestamp payload) payload :: replay_queue_ t) (last_timestamp_ t) t.

(** [load_file] and [load_jsonl] of a file with its contents, [None] when it
    cannot be opened. *)
Definition load_file (content : option (list Z)) (t : Transport) : Transport * bool :=
  match content with
  | None | Some [] => (t, false)
  | Some text => (add_message text t, true)
  end.

Definition chr_comment : Z := 35.
Definition recorded (line : list Z) : bool := match line with [] => false | c :: _ => negb (c =? chr_comment) end.

Definition load_jsonl (content : option (list Z)) (t : Transport) : Transport * bool :=
  match content with
  | None => (t, false)
  | Some text => (fold_left (fun t line => if recorded line then add_message line t else t) (getlines text) t, true)
  end.

(** [path.extension()]: from the last dot on, unless the name starts with it. *)
Fixpoint last_dot (l : list Z) : option (list Z) :=
  match l with
  | [] => None
  | c :: rest => match last_dot rest with Some e => Some e | None => if c =? chr_dot then Some l else None end
  end.
Definition extension (name : list Z) : list Z := match name with [] => [] | _ :: rest => default [] (last_dot rest) end.

Abbreviation File := (list Z * option (list Z))%type.

Definition is_recording (f : File) : bool :=
  bool_decide (extension f.1 = codes ".json") || bool_decide (extension f.1 = codes ".jsonl").

Definition load_one (t : Transport) (f : File) : Transport :=
  if bool_decide (extension f.1 = codes ".jsonl") then (load_jsonl f.2 t).1 else (load_file f.2 t).1.

Definition file_le (a b : File) : Prop := string_le a.1 b.1 = true.
#[global] Instance file_le_dec a b : Decision (file_le a b).
Proof. unfold file_le. apply _. Defined.

(** The files of the directory, as the iterator lists them. *)
Definition load_directory (entries : option (list File)) (t : Transport) : Transport * bool :=
  match entries with
  | None => (t, false)
  | Some entries =>
      let files := merge_sort file_le (List.filter is_recording entries) in
      (fold_left load_one files t, negb (bool_decide (files = [])))
  end.

(** ** Replay *)

(** The sleep before a message, in milliseconds; [speed] is a double. *)
Definition replay_delay (mode : ReplayMode) (speed : Q) (last ts : Z) : Z :=
  match mode with
  | kInstant => 0
  | kRealtime =>
      if (0 <? last) && negb (Qle_bool speed 0)
      then Binary64.trunc (Binary64.rnd (Binary64.rnd (inject_Z (u64 (ts - last))) / speed)) else 0
  end.

Section Replay.
Context {PQ : PriorityQueue TimedMessage}.

Definition replay_next (t : Transport) : option Transport :=
  '(msg, rest) ← pop (replay_queue_ t);
  Some (inject_message (payload msg) (set_replay rest (timestamp msg) t)).

(** [while (replay_next()) {}] *)
Fixpoint replay_loop (fuel : nat) (t : Transport) : option Transport :=
  match fuel with
  | O => None
  | S fuel => match replay_next t with Some t => replay_loop fuel t | None => Some t end
  end.

Definition replay_all (t : Transport) : option Transport := replay_loop (S (length (replay_queue_ t))) t.
End Replay.

Definition queue_message (payload : list Z) (t : Transport) : Transport := set_queue (queue_ t ++ [payload]) t.

Definition deliver_next (t : Transport) : option Transport :=
  match queue_ t with
  | [] => None
  | msg :: rest => Some (inject_message msg (set_queue rest t))
  end.

Fixpoint deliver_loop (fuel : nat) (t : Transport) : option Transport :=
  match fuel with
  | O => None
  | S fuel => match deliver_next t with Some t => deliver_loop fuel t | None => Some t end
  end.

Definition deliver_all (t : Transport) : option Transport := deliver_loop (S (length (queue_ t))) t.

(** ** Simulated orders *)

Definition key_pattern (field : string) (tail : string) : list Z := Onepass.json "'" ++ codes field ++ Onepass.json tail.

Definition extract_string_field (msg : list Z) (field : string) : list Z :=
  let pattern := key_pattern field "':'" in
  match find pattern msg with
  | None => []
  | Some pos =>
      let rest := drop (pos + length pattern) msg in
      match find [chr_quote] rest with None => [] | Some n => take n rest end
  end.

Fixpoint skip_quotes (l : list Z) : list Z :=
  match l with
  | c :: rest => if (c =? 32) || (c =? chr_quote) then skip_quotes rest else l
  | [] => []
  end.

Fixpoint number_chars (l : list Z) : list Z :=
  match l with
  | c :: rest =>
      if ((chr_0 <=? c) && (c <=? chr_9)) || (c =? chr_dot) || (c =? chr_minus) then c :: number_chars rest else []
  | [] => []
  end.

(** [std::stod] on such characters: a sign, digits with a fraction, the rest is
    not read; [None] when it throws. *)
Definition stod (l : list Z) : option Q :=
  let '(negative, l) :=
    match l with c :: rest => if c =? chr_minus then (true, rest) else (false, l) | [] => (false, []) end in
  let whole := leading_digits l in
  let frac := match drop (length whole) l with c :: rest => if c =? chr_dot then leading_digits rest else [] | [] => [] end in
  match whole ++ frac with
  | [] => None
  | ds =>
      let v := digits_value ds in
      Some (Binary64.rnd ((if negative then - v else v) # Z.to_pos (pow10 (length frac))))
  end.

(** [None]: [std::stod] throws, through [write]. *)
Definition extract_double_field (msg : list Z) (field : string) : option Q :=
  let pattern := key_pattern field "':" in
  match find pattern msg with
  | None => Some 0%Q
  | Some pos =>
      match number_chars (skip_quotes (drop (pos + length pattern) msg)) with
      | [] => Some 0%Q
      | num_str => stod num_str
      end
  end.

Definition contains (pattern msg : list Z) : bool := bool_decide (is_Some (find pattern msg)).

Definition parse_order_request (msg : list Z) : option ParsedOrderRequest :=
  let is_place := contains (Onepass.json "'order.place'") msg in
  let is_cancel := contains (Onepass.json "'order.cancel'") msg in
  if negb (contains (Onepass.json "'method':") msg) || (negb is_place && negb is_cancel) then Some empty_request
  else
    let new_id := extract_string_field msg "newClientOrderId" in
    let id := match new_id with [] => extract_string_field msg "origClientOrderId" | _ => new_id end in
    let symbol := extract_string_field msg "symbol" in
    price ← extract_double_field msg "price";
    quantity ← extract_double_field msg "quantity";
    Some (mkParsed id symbol (extract_string_field msg "side") (extract_string_field msg "positionSide") price quantity
      is_cancel (negb (bool_decide (id = [])) && negb (bool_decide (symbol = [])))).

(** [clock]: the steady clock. *)
Definition schedule_execution_report (clock : Z) (order_msg : list Z) (t : Transport) : option Transport :=
  req ← parse_order_request order_msg;
  Some (if valid req
        then set_simulator (enabled t) (delay t) (auto_fill t) (pending_orders_ t ++ [mkPending req (clock + delay t)]) t
        else t).

(** [write]: the result, -1 when it is refused. *)
Definition write (clock : Z) (buffer : list Z) (t : Transport) : option (Transport * Z) :=
  if negb (connected_ t) || interrupted_ t then Some (t, -1)
  else
    let t := set_sent (sent_messages_ t ++ [buffer]) t in
    t ← (if enabled t then schedule_execution_report clock buffer t else Some t);
    Some (t, i32 (zlen buffer)).

(** The fields of a simulated report that depend on the order. *)
Record SimReport := mkSim { s_x : string; s_X : string; s_q : list Z; s_p : list Z; s_l : list Z; s_z : list Z }.

Definition kPricePrecision : nat := 8.
(** [std::to_string(double)] *)
Definition to_string_double (q : Q) : list Z := OeEncoder.fixed_text 6 q.

Definition sim_report (fill : bool) (req : ParsedOrderRequest) : SimReport :=
  let exec_type : string := if is_cancel req then "CANCELED" else if fill then "TRADE" else "NEW" in
  let ord_status : string := if is_cancel req then "CANCELED" else if fill then "FILLED" else "NEW" in
  let filled_qty := if fill then to_string_double (quantity req) else codes "0" in
  mkSim exec_type ord_status (OeEncoder.fixed_text kPricePrecision (quantity req))
    (OeEncoder.fixed_text kPricePrecision (price req)) filled_qty filled_qty.

Definition generate_execution_report (fill : bool) (now : Z) (req : ParsedOrderRequest) : list Z :=
  let r := sim_report fill req in
  let now_ms := render_int now in
  Onepass.json "{'e':'ORDER_TRADE_UPDATE','T':" ++ now_ms ++ Onepass.json ",'E':" ++ now_ms ++ Onepass.json ",'o':{'s':'" ++
  symbol req ++ Onepass.json "','c':'" ++ client_order_id req ++ Onepass.json "','S':'" ++ side req ++
  Onepass.json "','o':'LIMIT','f':'GTC','q':'" ++ s_q r ++ Onepass.json "','p':'" ++ s_p r ++ Onepass.json "','ap':'" ++ s_p r ++
  Onepass.json "','sp':'0','x':'" ++ codes (s_x r) ++ Onepass.json "','X':'" ++ codes (s_X r) ++ Onepass.json "','i':" ++ now_ms ++
  Onepass.json ",'l':'" ++ s_l r ++ Onepass.json "','z':'" ++ s_z r ++ Onepass.json "','L':'" ++ s_p r ++
  Onepass.json "','n':'0','N':'USDC','T':" ++ now_ms ++ Onepass.json ",'t':" ++ now_ms ++
  Onepass.json ",'b':'0','a':'0','m':false,'R':false,'wt':'CONTRACT_PRICE','ot':'LIMIT','ps':'" ++ position_side req ++
  Onepass.json "','cp':false,'rp':'0','pP':false,'si':0,'ss':0,'V':'EXPIRE_TAKER','pm':'NONE','gtd':0,'er':'0'}}".

Definition enable_order_simulator (wait : Z) (fill : bool) (t : Transport) : Transport :=
  set_simulator true wait fill (pending_orders_ t) t.

(** One round of [simulator_loop]: nothing while no order is pending or due;
    [now] is the clock of the report. *)
Definition simulator_step {PQ : PriorityQueue PendingOrder} (clock now : Z) (t : Transport) : Transport :=
  match pop (pending_orders_ t) with
  | None => t
  | Some (order, rest) =>
      if clock <? execute_time order then t
      else inject_message (generate_execution_report (auto_fill t) now (request order))
             (set_simulator (enabled t) (delay t) (auto_fill t) rest t)
  end.
Definition stop_simulator (t : Transport) : Transport := set_simulator false (delay t) (auto_fill t) (pending_orders_ t) t.

Definition clear_sent_messages (t : Transport) : Transport := set_sent [] t.

(** [inject_from_file]; [None]: the file cannot be opened and the call throws. *)
Definition inject_from_file (content : option (list Z)) (t : Transport) : option Transport :=
  (fun c => inject_message c t) <$> content.

Definition reset (t : Transport) : Transport :=
  set_flags false false false (set_replay [] 0 (set_queue [] (set_sent [] (stop_simulator t)))).

(** ** Replay *)

Definition earlier (x y : TimedMessage) : Prop := timestamp x <= timestamp y.

Lemma inject_delivered msg t : callback_ t = true ->
  delivered (inject_message msg t) = delivered t ++ [msg] /\ callback_ (inject_message msg t) = true /\
  replay_queue_ (inject_message msg t) = replay_queue_ t /\ last_timestamp_ (inject_message msg t) = last_timestamp_ t.
Proof. intros H. unfold inject_message. by rewrite H. Qed.

Lemma replay_loop_sorted {PQ : PriorityQueue TimedMessage} fuel t :
  callback_ t = true -> (length (replay_queue_ t) < fuel)%nat ->
  exists t' msgs, replay_loop fuel t = Some t' /\ replay_queue_ t' = [] /\ msgs ≡ₚ replay_queue_ t /\
    StronglySorted earlier msgs /\ delivered t' = delivered t ++ map payload msgs /\
    last_timestamp_ t' = default (last_timestamp_ t) (timestamp <$> last msgs).
Proof.
  revert t. induction fuel as [|fuel IH]; intros t Hcb Hf; [lia|]. cbn [replay_loop]. unfold replay_next.
  destruct (replay_queue_ t) as [|x0 l] eqn:Eq.
  { rewrite pop_nil. exists t, []. rewrite app_nil_r. split_and!; try done. constructor. }
  destruct (pop_cons x0 l) as [[msg rest] Hp]. rewrite Hp. cbn [mbind option_bind].
  destruct (pop_law _ _ _ Hp) as [Hperm Hmin].
  set (t1 := inject_message (payload msg) (set_replay rest (timestamp msg) t)).
  destruct (inject_delivered (payload msg) (set_replay rest (timestamp msg) t) Hcb) as (H1 & H2 & H3 & H4).
  fold t1 in H1, H2, H3, H4. cbn [replay_queue_ delivered last_timestamp_ set_replay] in H1, H3, H4.
  destruct (IH t1 H2) as (t' & msgs & Hl & Hq & Hm & Hs & Hd & Hlast).
  { rewrite H3. apply Permutation_length in Hperm. simpl in Hperm, Hf. lia. }
  exists t', (msg :: msgs). split_and!; [done | done | | | |].
  - rewrite Hperm, Hm, H3. done.
  - constructor; [done|]. rewrite Hm, H3. eapply Forall_impl; [exact Hmin|]. intros y Hy. unfold later, time_of, timed_message in Hy. unfold earlier. lia.
  - by rewrite Hd, H1, <-app_assoc.
  - rewrite Hlast, H4. destruct msgs as [|m2 msgs]; [done|]. rewrite !last_cons. by destruct (last msgs).
Qed.

(** C22: a replay ends, and it delivers what was recorded.  Whatever messages were
    loaded, in whatever order, and however the priority queue breaks ties,
    replaying all of them returns with an empty queue after the callback has
    been given every message exactly once, by ascending timestamp. *)
Theorem replay_all_sorted {PQ : PriorityQueue TimedMessage} t :
  callback_ t = true ->
  exists t' msgs, replay_all t = Some t' /\ replay_queue_ t' = [] /\ msgs ≡ₚ replay_queue_ t /\
    StronglySorted earlier msgs /\ delivered t' = delivered t ++ map payload msgs.
Proof.
  intros Hcb. destruct (replay_loop_sorted (S (length (replay_queue_ t))) t Hcb) as (t' & msgs & H1 & H2 & H3 & H4 & H5 & _); [lia|].
  by exists t', msgs.
Qed.

(** Two priority queues: ties in favour of the front or of the back of the list. *)
Section TakeMin.
Context {A : Type} `{Timed A}.

Fixpoint take_min (back : bool) (l : list A) : option (A * list A) :=
  match l with
  | [] => None
  | x :: l' =>
      match take_min back l' with
      | None => Some (x, l')
      | Some (y, r) =>
          if (if back then time_of y <=? time_of x else time_of y <? time_of x) then Some (y, x :: r) else Some (x, l')
      end
  end.

Lemma take_min_law back l x rest :
  take_min back l = Some (x, rest) -> l ≡ₚ x :: rest /\ Forall (fun y => later x y = false) rest.
Proof.
  revert x rest. induction l as [|z l IH]; intros x rest; cbn [take_min]; [done|].
  destruct (take_min back l) as [[y r]|] eqn:E.
  - destruct (IH y r eq_refl) as [Hp Hf]. destruct (if back then _ else _) eqn:Eb; intros [= <- <-].
    + split; [by rewrite Hp, perm_swap|]. constructor; [|done]. unfold later. destruct back; lia.
    + split; [done|]. rewrite Hp. assert (time_of z <= time_of y) by (destruct back; lia).
      constructor; [unfold later; lia|]. eapply Forall_impl; [exact Hf|]. unfold later. intros w Hw. cbn in Hw. lia.
  - intros [= <- <-]. split; [done|]. destruct l as [|w l]; [constructor|]. cbn [take_min] in E.
    destruct (take_min back l) as [[? ?]|]; [destruct (if back then _ else _)|]; done.
Qed.

#[refine] Instance take_min_queue (back : bool) : PriorityQueue A := {| pop := take_min back |}.
Proof.
  - done.
  - intros x l. cbn [take_min]. destruct (take_min back l) as [[y r]|]; [|by eexists]. by destruct (if back then _ else _); eexists.
  - apply take_min_law.
Defined.
End TakeMin.

(** Messages of one timestamp, among them all that carry none, may come in
    either order: a priority queue does not keep the order of the recording. *)
Theorem ties_in_any_order p1 p2 t :
  extract_timestamp p1 = extract_timestamp p2 -> callback_ t = true -> replay_queue_ t = [] ->
  let t0 := add_message p2 (add_message p1 t) in
  exists Q1 Q2 : PriorityQueue TimedMessage,
    (exists t1, replay_all (PQ := Q1) t0 = Some t1 /\ delivered t1 = delivered t ++ [p1; p2]) /\
    (exists t2, replay_all (PQ := Q2) t0 = Some t2 /\ delivered t2 = delivered t ++ [p2; p1]).
Proof.
  intros Hts Hcb Hq t0. exists (take_min_queue true), (take_min_queue false).
  unfold t0, replay_all, add_message, inject_message, set_replay.
  split; eexists; cbn; rewrite ?Hq; cbn; rewrite ?Hts, ?Z.leb_refl, ?Z.ltb_irrefl; cbn;
    unfold inject_message; cbn; rewrite ?Hcb; cbn; rewrite ?Hcb; (split; [reflexivity|]); cbn; by rewrite <-app_assoc.
Qed.

Definition demo_recording (stream event time : string) : list Z :=
  Onepass.render_header (codes stream) (codes event) (Onepass.json "','E':" ++ codes time ++ Onepass.json ",'T':1}}").
Definition demo_transport : Transport :=
  let first := demo_recording "xrpusdc@depth" "depthUpdate" "1700000000100" in
  let second := demo_recording "xrpusdc@aggTrade" "aggTrade" "1700000000050" in
  add_message second (add_message first (register_message_callback (new_transport false))).

Lemma replay_all_sorted_witness :
  exists t', replay_all (PQ := take_min_queue true) demo_transport = Some t' /\ replay_queue_ t' = [] /\
    delivered t' = [demo_recording "xrpusdc@aggTrade" "aggTrade" "1700000000050";
                    demo_recording "xrpusdc@depth" "depthUpdate" "1700000000100"].
Proof.
  destruct (replay_all_sorted (PQ := take_min_queue true) demo_transport eq_refl) as (t' & msgs & H1 & H2 & H3 & H4 & H5).
  exists t'. split_and!; [done | done |]. vm_compute in H1. injection H1 as <-. by vm_compute.
Defined.

Lemma ties_in_any_order_witness :
  let t := register_message_callback (new_transport false) in
  exists Q1 Q2 : PriorityQueue TimedMessage,
    (exists t1, replay_all (PQ := Q1) (add_message (codes "b") (add_message (codes "a") t)) = Some t1 /\ delivered t1 = [codes "a"; codes "b"]) /\
    (exists t2, replay_all (PQ := Q2) (add_message (codes "b") (add_message (codes "a") t)) = Some t2 /\ delivered t2 = [codes "b"; codes "a"]).
Proof. intros t. by apply (ties_in_any_order (codes "a") (codes "b") t). Defined.

(** A message that is added after a later one was replayed: the difference of the
    times wraps, and the replay in real time sleeps for ages. *)
Lemma replay_back_in_time_waits last ts :
  0 < last -> 0 <= ts < last -> last - ts <= 2 ^ 60 -> 2 ^ 62 < replay_delay kRealtime 1 last ts.
Proof.
  intros Hl Hts Hd. unfold replay_delay. rewrite (proj2 (Z.ltb_lt 0 last)) by lia. change (negb (Qle_bool 1 0)) with true. cbn [andb].
  assert (Hu : u64 (ts - last) = two64 - (last - ts)).
  { unfold u64. symmetry. apply (Z.mod_unique _ _ (-1)); unfold two64; lia. }
  rewrite Hu. set (v := two64 - (last - ts)). assert (Hv : 2 ^ 63 < v <= two64) by (unfold v, two64; lia).
  set (q := Binary64.rnd (inject_Z v)). set (r := Binary64.rnd (q / 1)).
  pose proof (Binary64.rnd_err (inject_Z v)) as H1. fold q in H1. pose proof (Binary64.rnd_err (q / 1)) as H2. fold r in H2.
  assert (Hvq : (9223372036854775808 <= inject_Z v <= 18446744073709551616)%Q)
    by (unfold two64 in Hv; split; unfold Qle, inject_Z; simpl; lia).
  rewrite (Qabs.Qabs_pos (inject_Z v)) in H1 by lra. apply Qabs.Qabs_Qle_condition in H1. unfold Binary64.ulp in *.
  assert (Hq : (9223372036854770000 <= q <= 18446744073709560000)%Q) by (split; lra).
  assert (Eq : (q / 1 == q)%Q) by (field). rewrite (Qabs.Qabs_pos (q / 1)) in H2 by (rewrite Eq; lra).
  apply Qabs.Qabs_Qle_condition in H2. rewrite Eq in H2.
  assert (Hr : (9223372036854000000 <= r)%Q) by lra.
  destruct r as [a d]. unfold Binary64.trunc. cbn [Qnum Qden]. unfold Qle in Hr. cbn [Qnum Qden] in Hr.
  rewrite Z.quot_div_nonneg by lia. apply (Z.lt_le_trans _ 9223372036854000000); [lia|]. apply Z.div_le_lower_bound; lia.
Qed.

(** ** Timestamps *)

Section Keys.
Abbreviation q := chr_quote.

Lemma find_skip key seg r :
  q ∉ seg -> find (q :: key) (seg ++ r) = (fun i => (length seg + i)%nat) <$> find (q :: key) r.
Proof.
  induction seg as [|c seg IH]; intros Hq; [cbn [app length]; by destruct (find (q :: key) r)|]. apply not_elem_of_cons in Hq as [Hc Hq].
  cbn [app find length]. rewrite bool_decide_false by (intros Hx; cbn in Hx; congruence). rewrite IH by done.
  by destruct (find (q :: key) r).
Qed.

Lemma find_miss p c r : take (length p) (c :: r) <> p -> find p (c :: r) = S <$> find p r.
Proof. intros Hne. cbn [find]. by rewrite bool_decide_false. Qed.

Lemma find_hit p r : find p (p ++ r) = Some 0%nat.
Proof. unfold find. destruct (p ++ r) eqn:E; rewrite bool_decide_true; rewrite <-?E; rewrite ?take_app_length; done. Qed.

(** A quoted value that is not followed by a colon is no key. *)
Lemma value_no_key key v c r :
  q ∉ key -> q ∉ v -> c <> 58 -> take (length (q :: key ++ [q; 58])) (q :: v ++ q :: c :: r) <> q :: key ++ [q; 58].
Proof.
  intros Hk Hv Hc He. cbn [length take] in He. injection He as He. revert v Hv He.
  induction key as [|k key IH]; intros v Hv He; destruct v as [|x v]; cbn in He.
  - injection He as He. destruct r; cbn in He; congruence.
  - injection He as -> _. apply Hv. by left.
  - injection He as <- _. apply Hk. by left.
  - injection He as <- He. apply (IH (fun H => Hk (list_elem_of_further _ _ _ H)) v (fun H => Hv (list_elem_of_further _ _ _ H))). exact He.
Qed.

Lemma read_u64_digits d r v :
  digits d -> leading_digits r = [] -> 0 <= v -> fold_left (fun val c => val * 10 + (c - chr_0)) d v < two64 ->
  read_u64 v (d ++ r) = fold_left (fun val c => val * 10 + (c - chr_0)) d v.
Proof.
  intros Hd Hr. revert v. induction Hd as [|c d Hc Hd IH]; intros v Hv Hlt; cbn [app fold_left read_u64] in *.
  - destruct r as [|c r]; [done|]. cbn [leading_digits read_u64] in *. by destruct (_ && _).
  - rewrite (proj2 (Z.leb_le chr_0 c)), (proj2 (Z.leb_le c chr_9)) by lia. cbn [andb]. unfold kDecimalBase.
    assert (0 <= v * 10 + (c - chr_0)) by lia.
    rewrite u64_small; [by apply IH|]. split; [done|]. eapply Z.le_lt_trans; [|exact Hlt]. by apply fold_digits_ge.
Qed.

(** A key [E] is not met in a quoted value, nor in the literal parts of a header. *)
Abbreviation event_key := [q; 69; q; 58].

Lemma event_value v c r :
  q ∉ v -> c <> 58 -> find event_key (q :: v ++ q :: c :: r) = (fun i => S (length v + i)) <$> find event_key (q :: c :: r).
Proof.
  intros Hv Hc. rewrite find_miss by (apply (value_no_key [69]); [intros ?%list_elem_of_singleton; done | done | done]).
  rewrite find_skip by done. by destruct (find event_key (q :: c :: r)).
Qed.

Lemma event_literal v r :
  forallb (fun c => negb (c =? q)) v = true -> take 4 (q :: v ++ r) <> event_key ->
  find event_key (q :: v ++ r) = (fun i => S (length v + i)) <$> find event_key r.
Proof.
  intros Hv Hm. rewrite find_miss by done. rewrite find_skip; [by destruct (find event_key r)|].
  intros Hin. rewrite forallb_forall in Hv. apply list_elem_of_In, Hv in Hin. by rewrite Z.eqb_refl in Hin.
Qed.

Lemma event_char c r : c <> 69 -> c <> q -> find event_key (q :: c :: r) = (fun i => S (S i)) <$> find event_key r.
Proof.
  intros H1 H2. rewrite find_miss by (cbn; congruence). rewrite find_miss by (cbn; congruence). by destruct (find event_key r).
Qed.

(** The header up to the key [E]. *)
Definition header_text (stream event : list Z) : list Z :=
  [123] ++ q :: codes "stream" ++ q :: [58] ++ q :: stream ++ q :: [44] ++ q :: codes "data" ++
    q :: [58; 123] ++ q :: codes "e" ++ q :: [58] ++ q :: event ++ [q; 44].

Lemma header_text_eq stream event r :
  Onepass.render_header stream event (Onepass.json "','E':" ++ r) = header_text stream event ++ event_key ++ r.
Proof.
  unfold Onepass.render_header, header_text. change (Onepass.json "','E':") with ([q; 44] ++ event_key).
  rewrite <-?app_assoc. cbn [app]. rewrite <-?app_assoc. cbn. rewrite <-?app_assoc. cbn. by rewrite <-?app_assoc.
Qed.

Lemma event_key_found stream event r :
  q ∉ stream -> q ∉ event -> find event_key (header_text stream event ++ event_key ++ r) = Some (length (header_text stream event)).
Proof.
  intros Hs He. unfold header_text. rewrite <-app_assoc, find_skip by (intros ?%list_elem_of_singleton; done).
  cbn [app]. rewrite <-!app_assoc. cbn [app]. rewrite <-!app_assoc. cbn [app]. rewrite <-!app_assoc. cbn [app]. rewrite <-!app_assoc. cbn [app].
  rewrite (event_literal (codes "stream")), event_char, event_value, event_char, (event_literal (codes "data")), event_char by (done || (cbn; congruence) || (cbn; unfold chr_quote; lia)).
  rewrite find_miss by (cbn; congruence). rewrite (event_literal (codes "e")) by done. rewrite event_char by done.
  rewrite <-app_assoc. cbn [app]. rewrite event_value by done. rewrite event_char by done.
  rewrite (find_hit event_key r : find event_key (q :: 69 :: q :: 58 :: r) = _). cbn [fmap option_fmap option_map]. f_equal.
  cbn [length]. rewrite !length_app. cbn [length]. rewrite !length_app. cbn [length]. rewrite !length_app. cbn [length]. rewrite !length_app. cbn [length].
  rewrite !length_app. cbn [length]. lia.
Qed.

Lemma find_le p a b : exists j, find p (a ++ p ++ b) = Some j /\ (j <= length a)%nat.
Proof.
  induction a as [|c a (j & Hj & Hle)]; cbn [app].
  - exists 0%nat. by rewrite find_hit.
  - cbn [find]. destruct (bool_decide _); [exists 0%nat; split; [done|cbn; lia]|]. rewrite Hj. exists (S j). split; [done|cbn; lia].
Qed.

(** The time of a recorded message is its event time: for depth and trade
    messages in the documented format, of any stream and event name, the search
    through the text finds the number of the key [E], whatever follows. *)
Theorem recorded_time_is_event_time stream event time rest :
  q ∉ stream -> q ∉ event -> digits time -> time <> [] -> digits_value time < two64 -> leading_digits rest = [] ->
  extract_timestamp (Onepass.render_header stream event (Onepass.json "','E':" ++ time ++ rest)) = digits_value time.
Proof.
  intros Hs He Hd Hne Hv Hr. rewrite header_text_eq. unfold extract_timestamp.
  set (text := header_text stream event ++ event_key ++ time ++ rest).
  assert (Hdata : exists d, find (Onepass.json "'data'") text = Some d /\ (d <= length (header_text stream event))%nat).
  { set (a := [123] ++ q :: codes "stream" ++ q :: [58] ++ q :: stream ++ q :: [44]).
    set (b := [58; 123] ++ q :: codes "e" ++ q :: [58] ++ q :: event ++ [q; 44]).
    assert (Eh : header_text stream event = a ++ Onepass.json "'data'" ++ b).
    { unfold header_text, a, b. cbn [app]. rewrite <-!app_assoc. cbn [app]. by rewrite <-!app_assoc. }
    unfold text. rewrite Eh, <-!app_assoc. destruct (find_le (Onepass.json "'data'") a (b ++ event_key ++ time ++ rest)) as (j & Hj & Hle).
    exists j. split; [done|]. rewrite length_app. lia. }
  destruct Hdata as (d & -> & Hle). cbn [default]. unfold find_from. change (Onepass.json "'E':") with event_key.
  change (id d) with d. unfold text at 1. rewrite (FixSession.find_drop _ _ _ _ (event_key_found stream event (time ++ rest) Hs He) Hle). cbn [fmap option_fmap option_map].
  replace (d + (length (header_text stream event) - d) + 4)%nat with (length (header_text stream event) + 4)%nat by lia.
  unfold text. rewrite app_assoc, drop_app_length' by (rewrite length_app; cbn; lia).
  destruct time as [|c time]; [done|]. assert (skip_blanks ((c :: time) ++ rest) = (c :: time) ++ rest) as ->.
  { cbn. apply Forall_cons in Hd as [Hc _]. destruct (Z.eqb_spec c 32); [|done]. unfold chr_0 in Hc. lia. }
  by apply read_u64_digits.
Qed.
End Keys.

Lemma recorded_time_is_event_time_witness :
  extract_timestamp (Onepass.render_header (codes "xrpusdc@depth") (codes "depthUpdate")
    (Onepass.json "','E':" ++ codes "1700000000100" ++ Onepass.json ",'T':1700000000095,'U':1}}")) = 1700000000100.
Proof.
  apply (recorded_time_is_event_time (codes "xrpusdc@depth") (codes "depthUpdate") (codes "1700000000100")
    (Onepass.json ",'T':1700000000095,'U':1}}")).
  - by apply (bool_decide_unpack _); vm_compute.
  - by apply (bool_decide_unpack _); vm_compute.
  - by apply (bool_decide_unpack _); vm_compute.
  - done.
  - by vm_compute.
  - by vm_compute.
Defined.

(** ** The simulator *)

(** A value is read from the first place where its key stands. *)
Lemma extract_string_field_found field msg pre v rest :
  msg = pre ++ key_pattern field "':'" ++ v ++ chr_quote :: rest ->
  find (key_pattern field "':'") msg = Some (length pre) -> chr_quote ∉ v -> extract_string_field msg field = v.
Proof.
  intros -> Hf Hv. unfold extract_string_field. rewrite Hf.
  rewrite app_assoc, drop_app_length' by (by rewrite length_app).
  rewrite FixSession.find_char by done. by rewrite take_app_length.
Qed.

Lemma pop_single {PQ : PriorityQueue PendingOrder} o : pop [o] = Some (o, []).
Proof.
  destruct (pop_cons o []) as [[x rest] Hp]. destruct (pop_law _ _ _ Hp) as [Hperm _].
  apply Permutation_singleton_l in Hperm. injection Hperm as Hx Hr. by subst.
Qed.

(** A written order is answered once: the simulator queues it, and the first round
    in which it is due hands the report of this order to the callback; before
    that and after that a round does nothing. *)
Theorem written_order_answered {PQ : PriorityQueue PendingOrder} msg req clock t :
  connected_ t = true -> interrupted_ t = false -> enabled t = true -> callback_ t = true -> pending_orders_ t = [] ->
  parse_order_request msg = Some req -> valid req = true -> zlen msg < 2 ^ 31 ->
  exists t', write clock msg t = Some (t', zlen msg) /\ sent_messages_ t' = sent_messages_ t ++ [msg] /\
    delivered t' = delivered t /\
    (forall clock' now, clock' < clock + delay t -> simulator_step clock' now t' = t') /\
    (forall clock' now, clock + delay t <= clock' ->
      let t'' := simulator_step clock' now t' in
      delivered t'' = delivered t ++ [generate_execution_report (auto_fill t) now req] /\
      forall clock2 now2, simulator_step clock2 now2 t'' = t'').
Proof.
  intros Hc Hi He Hcb Hp Hreq Hv Hlen. unfold write. rewrite Hc, Hi. cbn [negb orb].
  set (o := mkPending req (clock + delay t)).
  exists (set_simulator true (delay t) (auto_fill t) [o] (set_sent (sent_messages_ t ++ [msg]) t)).
  unfold schedule_execution_report. cbn [set_sent enabled]. rewrite He, Hreq. cbn [mbind option_bind]. rewrite Hv.
  rewrite i32_small by (unfold zlen in *; lia). cbn [auto_fill delay pending_orders_ set_sent enabled]. rewrite Hp.
  split_and!; [done.. | |]; intros clock' now Hclock; unfold simulator_step; cbn [pending_orders_ set_simulator set_sent];
    rewrite pop_single; cbn [execute_time o].
  - by rewrite (proj2 (Z.ltb_lt _ _)).
  - rewrite (proj2 (Z.ltb_ge _ _)) by lia. unfold inject_message. cbn [callback_ set_simulator set_sent]. rewrite Hcb.
    split; [done|]. intros clock2 now2. cbn [pending_orders_ set_simulator set_sent]. by rewrite pop_nil.
Qed.

Definition demo_order : list Z :=
  Onepass.json "{'id':'pf1','method':'order.place','params':{'symbol':'XRPUSDC','newClientOrderId':'42','side':'BUY',"
  ++ Onepass.json "'positionSide':'LONG','price':'2.1345','quantity':'17.5','timestamp':1}}".
Definition simulating : Transport :=
  enable_order_simulator 1 true (simulate_connect (register_message_callback (new_transport false))).

Lemma written_order_answered_witness :
  exists t', write 0 demo_order simulating = Some (t', zlen demo_order) /\
    exists report, delivered (simulator_step (PQ := take_min_queue true) 1 7 t') = delivered simulating ++ [report] /\
      extract_string_field report "c" = codes "42" /\ extract_string_field report "X" = codes "FILLED" /\
      extract_string_field report "l" = codes "17.500000" /\ extract_string_field report "L" = codes "2.13450000".
Proof.
  destruct (parse_order_request demo_order) as [req|] eqn:E; [|by vm_compute in E].
  destruct (written_order_answered (PQ := take_min_queue true) demo_order req 0 simulating) as (t' & H1 & _ & _ & _ & H4);
    [by vm_compute.. | done | vm_compute in E; by injection E as <- | by vm_compute |].
  exists t'. split; [done|]. eexists. split; [exact (proj1 (H4 1 7 ltac:(done)))|]. vm_compute in E. injection E as <-. by vm_compute.
Defined.

(** A price of a lone sign: [std::stod] throws, and the exception leaves [write]. *)
Example lone_sign_throws : write 0 (Onepass.json "{'method':'order.place','price':'-'}") simulating = None.
Proof. by vm_compute. Qed.

End FileTransport.
