(* ===== verification/WsTransport.v ===== *)
(** * The websocket transport (src/hft/core/websocket/ws_transport.tpp)

    [WebSocketTransport] sits between the applications and libwebsockets: callers
    of [write] put payloads into a queue and wake the service thread, whose
    callback takes them out, puts fragments of incoming messages together and
    tells the application when the connection is made.  The library is not
    modelled: its calls of [handle_callback] are events, what it answers is part
    of the event, and a run is any sequence of events and of calls of the
    transport.  The two requests that the transport makes to the library
    ([lws_cancel_service], [lws_callback_on_writable]) are flags.

    The theorems: messages are put together from their fragments, however events
    interleave; what is written leaves in order and no write is forgotten by the
    wake-ups; and where the code does not do what it means to: a message that ends
    in an empty fragment, a full queue, and a connection that was closed once. *)

From S2P Require Import Prelude Types Text.

Module WsTransport.
Import Text.
Local Open Scope Z_scope.

Definition kConnectedSignalString : list Z := codes "__CONNECTED__".
Definition kQueueSize : Z := 32768.

Record Transport := mkTransport {
  host_ : list Z;
  path_ : list Z;
  port_ : Z;
  use_ssl_ : bool;
  notify_connected_ : bool;
  api_key_ : list Z;
  context_ : bool;
  connected_ : bool;
  interrupted_ : bool;
  ready_ : bool;
  (** null before the connection is set up *)
  queue_ : option (list (list Z));
  message_callback_ : bool;
  fragment_buffer_ : list Z;
  (** requests to the library that it has not answered *)
  service_cancelled : bool;
  writable_wanted : bool;
  (** what the callback was given, what [write] has queued and what the library
      was given to send *)
  received : list (list Z);
  accepted : list (list Z);
  taken : list (list Z);
}.

Definition set_link (connected interrupted : bool) (t : Transport) : Transport :=
  mkTransport (host_ t) (path_ t) (port_ t) (use_ssl_ t) (notify_connected_ t) (api_key_ t) (context_ t) connected interrupted
    (ready_ t) (queue_ t) (message_callback_ t) (fragment_buffer_ t) (service_cancelled t) (writable_wanted t) (received t)
    (accepted t) (taken t).
Definition set_wakeups (cancelled wanted : bool) (t : Transport) : Transport :=
  mkTransport (host_ t) (path_ t) (port_ t) (use_ssl_ t) (notify_connected_ t) (api_key_ t) (context_ t) (connected_ t)
    (interrupted_ t) (ready_ t) (queue_ t) (message_callback_ t) (fragment_buffer_ t) cancelled wanted (received t)
    (accepted t) (taken t).
Definition set_fragments (buffer : list Z) (msgs : list (list Z)) (t : Transport) : Transport :=
  mkTransport (host_ t) (path_ t) (port_ t) (use_ssl_ t) (notify_connected_ t) (api_key_ t) (context_ t) (connected_ t)
    (interrupted_ t) (ready_ t) (queue_ t) (message_callback_ t) buffer (service_cancelled t) (writable_wanted t) msgs
    (accepted t) (taken t).
Definition set_out (q acc tk : list (list Z)) (t : Transport) : Transport :=
  mkTransport (host_ t) (path_ t) (port_ t) (use_ssl_ t) (notify_connected_ t) (api_key_ t) (context_ t) (connected_ t)
    (interrupted_ t) (ready_ t) (Some q) (message_callback_ t) (fragment_buffer_ t) (service_cancelled t) (writable_wanted t)
    (received t) acc tk.

(** The default constructor starts the service thread only; the members of
    built-in types that it does not set are given as arguments. *)
Definition uninitialized (port : Z) (use_ssl notify : bool) : Transport :=
  mkTransport [] [] port use_ssl notify [] false false false false None false [] false false [] [] [].

(** What the library answers to the calls that set up a connection. *)
Inductive Setup := NoContext | NoConnection | Connecting.

(** [initialize]; [None]: it throws.  The flags of the link and the fragments of
    a former connection stay. *)
Definition initialize (host : list Z) (port : Z) (path : list Z) (use_ssl notify : bool) (api_key : list Z) (answer : Setup)
    (t : Transport) : option Transport :=
  match answer with
  | NoContext | NoConnection => None
  | Connecting =>
      Some (mkTransport host path port use_ssl notify api_key true (connected_ t) (interrupted_ t) true (Some [])
              (message_callback_ t) (fragment_buffer_ t) (service_cancelled t) (writable_wanted t) (received t) (accepted t)
              (taken t))
  end.

(** The constructor with an address is the same on a fresh object. *)
Definition new_transport (host : list Z) (port : Z) (path : list Z) (use_ssl notify : bool) (api_key : list Z) (answer : Setup) :
    option Transport :=
  initialize host port path use_ssl notify api_key answer (uninitialized port use_ssl notify).

Definition register_message_callback (t : Transport) : Transport :=
  mkTransport (host_ t) (path_ t) (port_ t) (use_ssl_ t) (notify_connected_ t) (api_key_ t) (context_ t) (connected_ t)
    (interrupted_ t) (ready_ t) (queue_ t) true (fragment_buffer_ t) (service_cancelled t) (writable_wanted t) (received t)
    (accepted t) (taken t).

(** [lws_cancel_service(context_)], when there is a context. *)
Definition cancel_service (t : Transport) : Transport :=
  if context_ t then set_wakeups true (writable_wanted t) t else t.

Definition interrupt (t : Transport) : Transport := cancel_service (set_link (connected_ t) true t).

Section Lws.
(** The room that the library wants before a payload. *)
Variable LWS_PRE : nat.

(** [write]: the result of the call; the result of [enqueue] is not looked at.
    [None]: the queue is null. *)
Definition write (buffer : list Z) (t : Transport) : option (Transport * Z) :=
  if negb (connected_ t) || interrupted_ t then Some (t, -1)
  else
    let payload := replicate LWS_PRE 0 ++ buffer in
    queue ← queue_ t;
    let t :=
      if zlen queue <? kQueueSize then set_out (queue ++ [payload]) (accepted t ++ [buffer]) (taken t) t else t in
    Some (cancel_service t, i32 (zlen buffer)).

(** The reasons of [lws_callback_reasons] that the callback looks at, with what
    the library says about them. *)
Inductive Reason :=
| Established
| AppendHandshakeHeader (added : bool)
| Receive (data : list Z) (is_final no_remaining : bool)
| Writeable (result : Z)
| WaitCancelled
| ConnectionError
| Closed
| Other.

(** [handle_callback]: the message that is handed to the callback, and the result.
    [None]: an empty [std::function] is called, or the queue is null.  The callback
    runs before the buffer is cleared and touches neither. *)
Definition handle_callback (reason : Reason) (t : Transport) : option (Transport * option (list Z) * Z) :=
  match reason with
  | Established =>
      let t := set_link true (interrupted_ t) t in
      if notify_connected_ t
      then (if message_callback_ t then Some (t, Some kConnectedSignalString, 0) else None)
      else Some (t, None, 0)
  | AppendHandshakeHeader added =>
      Some (t, None, match api_key_ t with [] => 0 | _ => if added then 0 else -1 end)
  | Receive data is_final no_remaining =>
      match data with
      | [] => Some (t, None, 0)
      | _ =>
          let buffer := fragment_buffer_ t ++ data in
          if is_final && no_remaining then
            if message_callback_ t
            then Some (set_fragments [] (received t ++ [buffer]) t, Some buffer, 0)
            else Some (set_fragments [] (received t) t, None, 0)
          else Some (set_fragments buffer (received t) t, None, 0)
      end
  | Writeable result =>
      queue ← queue_ t;
      match queue with
      | [] => Some (set_wakeups (service_cancelled t) false t, None, 0)
      | item :: rest =>
          let t := set_out rest (accepted t) (taken t ++ [drop LWS_PRE item]) t in
          let t := if result <? 0 then set_link false true t else t in
          Some (set_wakeups (service_cancelled t) (negb (bool_decide (rest = []))) t, None, 0)
      end
  | WaitCancelled =>
      queue ← queue_ t;
      Some (set_wakeups false (writable_wanted t || negb (bool_decide (queue = []))) t, None, 0)
  | ConnectionError | Closed => Some (set_link false true t, None, 0)
  | Other => Some (t, None, 0)
  end.

(** ** Runs *)

Inductive Step :=
| Event (reason : Reason)
| Write (buffer : list Z)
| Interrupt
| Initialize (host : list Z) (port : Z) (path : list Z) (use_ssl notify : bool) (api_key : list Z).

Definition step (s : Step) (t : Transport) : option Transport :=
  match s with
  | Event reason => fst ∘ fst <$> handle_callback reason t
  | Write buffer => fst <$> write buffer t
  | Interrupt => Some (interrupt t)
  | Initialize host port path use_ssl notify api_key => initialize host port path use_ssl notify api_key Connecting t
  end.

Fixpoint run (steps : list Step) (t : Transport) : option Transport :=
  match steps with [] => Some t | s :: steps => t ← step s t; run steps t end.

(** A transport whose constructor and registration have returned. *)
Definition usable (t : Transport) : Prop := message_callback_ t = true /\ is_Some (queue_ t) /\ context_ t = true.

(** ** Fragments *)

(** The events by which a message arrives: any pieces, empty ones too, only the
    last of them marked as the end of the message. *)
Inductive pieces : list Z -> list Reason -> Prop :=
| pieces_last c : pieces c [Receive c true true]
| pieces_more c is_final no_remaining msg events :
    is_final && no_remaining = false -> pieces msg events ->
    pieces (c ++ msg) (Receive c is_final no_remaining :: events).

(** The last of the pieces is not empty. *)
Definition ends_full (events : list Reason) : bool :=
  match last events with Some (Receive (_ :: _) _ _) => true | _ => false end.

Definition cut (msg : list Z) (events : list Reason) : Prop := pieces msg events /\ ends_full events = true.

(** What the transport makes of messages, each with whether its last piece was
    full, when [buf] has arrived before: a message with an empty last piece is
    put in front of the next one.  The second result is what is left over. *)
Fixpoint glue (buf : list Z) (msgs : list (list Z * bool)) : list (list Z) * list Z :=
  match msgs with
  | [] => ([], buf)
  | (msg, true) :: msgs => let '(whole, rest) := glue [] msgs in ((buf ++ msg) :: whole, rest)
  | (msg, false) :: msgs => glue (buf ++ msg) msgs
  end.

Lemma cut_last c : c <> [] -> cut c [Receive c true true].
Proof. intros Hc. split; [apply pieces_last | by destruct c]. Qed.

Lemma cut_more c is_final no_remaining msg events :
  is_final && no_remaining = false -> cut msg events -> cut (c ++ msg) (Receive c is_final no_remaining :: events).
Proof. intros Hf [Hp He]. split; [by apply pieces_more|]. unfold ends_full in *. by destruct Hp. Qed.

Lemma glue_full msgs rs :
  Forall2 cut msgs rs -> glue [] (zip msgs (ends_full <$> rs)) = (msgs, []).
Proof. induction 1 as [|msg r msgs rs [_ Hr] _ IH]; [done|]. cbn. by rewrite Hr, IH. Qed.

Definition receipt (s : Step) : option Reason :=
  match s with Event (Receive data f r) => Some (Receive data f r) | _ => None end.

(** A step keeps the transport usable, and only a receipt touches the fragments. *)
Lemma step_usable s t :
  usable t -> exists t', step s t = Some t' /\ usable t' /\
    (receipt s = None -> fragment_buffer_ t' = fragment_buffer_ t /\ received t' = received t).
Proof.
  intros (Hcb & [queue Hq] & Hctx).
  assert (Hu : usable t) by (split_and!; [done | by rewrite Hq | done]).
  destruct s as [reason|buffer| |host port path use_ssl notify api_key]; cbn [step receipt].
  - destruct reason as [|added|[|c data] f r|result| | | |]; cbn [handle_callback]; rewrite ?Hcb, ?Hq; cbn [mbind option_bind].
    + destruct (notify_connected_ _); cbn; rewrite ?Hcb; by eexists.
    + by eexists.
    + by eexists.
    + destruct (f && r); by eexists.
    + destruct queue as [|item rest]; [by eexists|]. destruct (result <? 0); eexists; (split; [reflexivity|]); done.
    + eexists; (split; [reflexivity|]). done.
    + by eexists.
    + by eexists.
    + by eexists.
  - unfold write. destruct (_ || _); [by eexists|]. rewrite Hq. cbn [mbind option_bind].
    destruct (_ <? _); unfold cancel_service; cbn; rewrite Hctx; by eexists.
  - unfold interrupt, cancel_service. cbn. rewrite Hctx. by eexists.
  - by eexists.
Qed.

(** Receipts that complete [msgs] and leave [rest] when [buf] has arrived before. *)
Inductive arriving : list Z -> list (list Z) -> list Z -> list Reason -> Prop :=
| arriving_nil buf : arriving buf [] buf []
| arriving_more buf c is_final no_remaining msgs rest events :
    is_final && no_remaining = false \/ c = [] -> arriving (buf ++ c) msgs rest events ->
    arriving buf msgs rest (Receive c is_final no_remaining :: events)
| arriving_last buf c msgs rest events :
    c <> [] -> arriving [] msgs rest events -> arriving buf ((buf ++ c) :: msgs) rest (Receive c true true :: events).

Lemma ends_full_cons r events : events <> [] -> ends_full (r :: events) = ends_full events.
Proof. unfold ends_full. by destruct events. Qed.

Lemma pieces_arriving msg r : pieces msg r -> forall buf msgs rest events,
  if ends_full r then arriving [] msgs rest events -> arriving buf ((buf ++ msg) :: msgs) rest (r ++ events)
  else arriving (buf ++ msg) msgs rest events -> arriving buf msgs rest (r ++ events).
Proof.
  induction 1 as [c|c f n msg r Hf Hr IH]; intros buf msgs rest events; cbn [app].
  - destruct c as [|x c]; cbn; intros Ha; [apply arriving_more; [by right | done] | by apply arriving_last].
  - rewrite ends_full_cons by (by destruct Hr). specialize (IH (buf ++ c) msgs rest events).
    rewrite <-app_assoc in IH. destruct (ends_full r); intros Ha; (apply arriving_more; [by left | by apply IH]).
Qed.

Lemma pieces_glue msgs rs : Forall2 pieces msgs rs -> forall buf,
  let '(whole, rest) := glue buf (zip msgs (ends_full <$> rs)) in arriving buf whole rest (concat rs).
Proof.
  induction 1 as [|msg r msgs rs Hp _ IH]; intros buf; [constructor|]. cbn.
  pose proof (pieces_arriving msg r Hp buf) as Ha. destruct (ends_full r).
  - specialize (IH []). destruct (glue [] _) as [whole rest]. by apply Ha.
  - specialize (IH (buf ++ msg)). destruct (glue (buf ++ msg) _) as [whole rest]. by apply Ha.
Qed.

Lemma cuts_arriving msgs rs : Forall2 cut msgs rs -> arriving [] msgs [] (concat rs).
Proof.
  intros Hc. assert (Hp : Forall2 pieces msgs rs) by (eapply Forall2_impl; [exact Hc|]; by intros ? ? []).
  pose proof (pieces_glue _ _ Hp []) as Ha. by rewrite glue_full in Ha.
Qed.

Lemma run_arriving steps : forall t msgs rest,
  usable t -> arriving (fragment_buffer_ t) msgs rest (omap receipt steps) ->
  exists t', run steps t = Some t' /\ received t' = received t ++ msgs /\ fragment_buffer_ t' = rest /\ usable t'.
Proof.
  induction steps as [|s steps IH]; intros t msgs rest Hu Ha.
  { cbn in Ha. inversion Ha; subst. exists t. by rewrite app_nil_r. }
  cbn [run]. destruct (step_usable s t Hu) as (t1 & Hs & Hu1 & Hr). rewrite Hs. cbn [mbind option_bind].
  change (omap receipt (s :: steps)) with (match receipt s with Some r => r :: omap receipt steps | None => omap receipt steps end) in Ha.
  destruct (receipt s) as [r|] eqn:Er.
  2:{ destruct (Hr eq_refl) as [Hb Hrec]. rewrite <-Hb in Ha. destruct (IH t1 msgs rest Hu1 Ha) as (t' & H1 & H2 & H3 & H4).
      exists t'. by rewrite H2, Hrec. }
  assert (Hs' : s = Event r) by (destruct s as [[]| | |]; naive_solver). subst s.
  destruct Hu as (Hcb & _). inversion Ha as [|buf c f n msgs' rest' events Hf Ha' Hb|buf c msgs' rest' events Hc Ha' Hb]; subst.
  - destruct c as [|x c]; cbn in Hs.
    + injection Hs as <-. rewrite app_nil_r in Ha'. exact (IH _ msgs rest Hu1 Ha').
    + destruct Hf as [Hf|]; [|done]. rewrite Hf in Hs. injection Hs as <-. exact (IH _ msgs rest Hu1 Ha').
  - destruct c as [|x c]; [done|]. cbn in Hs. rewrite Hcb in Hs. injection Hs as <-.
    destruct (IH _ msgs' rest Hu1 Ha') as (t' & H1 & H2 & H3). exists t'. split; [done|]. split; [|done].
    rewrite H2. cbn. by rewrite <-app_assoc.
Qed.

(** C17: messages arrive whole.  Whatever pieces the library delivers messages
    in, and however these events interleave with connection events, writes and
    wake-ups, a transport with a registered callback never fails, hands every
    message whose last piece is not empty to the callback exactly once, in order,
    and keeps nothing else; a message whose last piece is empty (the code ignores
    that event, end mark and all) is put in front of the next one, and left in the
    buffer when there is none.  So when no last piece is empty the messages that
    are handed over are exactly those that were sent. *)
Theorem fragments_reassembled steps t msgs rs :
  usable t -> fragment_buffer_ t = [] -> Forall2 pieces msgs rs -> omap receipt steps = concat rs ->
  exists t', run steps t = Some t' /\
    (let '(whole, rest) := glue [] (zip msgs (ends_full <$> rs)) in
     received t' = received t ++ whole /\ fragment_buffer_ t' = rest) /\
    (Forall (fun r => ends_full r = true) rs -> received t' = received t ++ msgs /\ fragment_buffer_ t' = []).
Proof.
  intros Hu Hb Hp Hs. pose proof (pieces_glue _ _ Hp []) as Ha. rewrite <-Hs in Ha.
  destruct (glue [] _) as [whole rest] eqn:Hg.
  destruct (run_arriving steps t whole rest Hu) as (t' & H1 & H2 & H3 & _); [by rewrite Hb|].
  exists t'. split; [done|]. split; [done|]. intros Hfull. rewrite glue_full in Hg; [by injection Hg as <- <-|].
  clear -Hp Hfull. induction Hp; [constructor|]. apply Forall_cons in Hfull as [? ?]. constructor; [done | auto].
Qed.

(** A message whose last fragment is empty is not handed over; it is glued to the
    front of the next one. *)
Theorem empty_final_fragment_glues t first second :
  usable t -> fragment_buffer_ t = [] -> first <> [] -> second <> [] ->
  exists t', run [Event (Receive first false true); Event (Receive [] true true); Event (Receive second true true)] t = Some t' /\
    received t' = received t ++ [first ++ second].
Proof.
  intros Hu Hb H1 H2.
  destruct (run_arriving [Event (Receive first false true); Event (Receive second true true)] t [first ++ second] [] Hu)
    as (t' & Hr & Hrec & _).
  { rewrite Hb. apply arriving_more; [by left|]. apply arriving_last; [done|]. constructor. }
  exists t'. split; [|done]. rewrite <-Hr. destruct first as [|x first]; [done|]. reflexivity.
Qed.

(** A connection that is made before the callback is registered, which the
    constructor allows since it starts the service thread: an empty function is
    called. *)
Lemma connected_before_registration host port path use_ssl api_key t :
  new_transport host port path use_ssl true api_key Connecting = Some t -> step (Event Established) t = None.
Proof. by intros [= <-]. Qed.

(** ** What is written *)

Definition queued (t : Transport) : list (list Z) := default [] (queue_ t).

(** What was queued is what was taken and what waits, and whatever waits has a
    wake-up on its way. *)
Definition out_ok (t : Transport) : Prop :=
  accepted t = taken t ++ (drop LWS_PRE <$> queued t) /\
  (queued t = [] \/ service_cancelled t = true \/ writable_wanted t = true).

Lemma drop_payload buffer : drop LWS_PRE (replicate LWS_PRE 0 ++ buffer) = buffer.
Proof. by rewrite drop_app_length' by (by rewrite length_replicate). Qed.


Definition keeps_queue (s : Step) : bool := match s with Initialize _ _ _ _ _ _ => false | _ => true end.

Lemma step_out s t t' : usable t -> keeps_queue s = true -> out_ok t -> step s t = Some t' -> out_ok t'.
Proof.
  intros (Hcb & [queue Hq] & Hctx) Hk [Ha Hw] Hs. unfold out_ok, queued in *. rewrite Hq in Ha, Hw. cbn [default id] in Ha, Hw.
  destruct s as [reason|buffer| |host port path use_ssl notify api_key]; cbn [step] in Hs; [| | |done].
  - destruct reason as [|added|[|c data] f r|result| | | |]; cbn [handle_callback] in Hs; rewrite ?Hcb, ?Hq in Hs;
      cbn [mbind option_bind] in Hs.
    + destruct (notify_connected_ _); cbn in Hs; rewrite ?Hcb in Hs; injection Hs as <-; cbn; by rewrite Hq.
    + injection Hs as <-. by rewrite Hq.
    + injection Hs as <-. by rewrite Hq.
    + destruct (f && r); injection Hs as <-; cbn; by rewrite Hq.
    + destruct queue as [|item rest]; [injection Hs as <-; cbn; rewrite Hq; by split; [|left]|].
      injection Hs as <-. destruct (result <? 0); cbn; rewrite Ha, <-app_assoc; (split; [done|]);
        (destruct (decide (rest = [])); [by left | right; right; by rewrite bool_decide_false]).
    + injection Hs as <-. cbn. rewrite Hq. split; [done|]. destruct (decide (queue = [])); [by left|].
      right; right. rewrite bool_decide_false by done. by rewrite orb_true_r.
    + injection Hs as <-. cbn. by rewrite Hq.
    + injection Hs as <-. cbn. by rewrite Hq.
    + injection Hs as <-. by rewrite Hq.
  - unfold write in Hs. destruct (_ || _); [injection Hs as <-; by rewrite Hq|]. rewrite Hq in Hs. cbn [mbind option_bind] in Hs.
    destruct (_ <? _); unfold cancel_service in Hs; cbn in Hs; rewrite Hctx in Hs; injection Hs as <-; cbn; rewrite ?Hq.
    + rewrite fmap_app, app_assoc, <-Ha. cbn. rewrite drop_payload. split; [done|]. right; by left.
    + split; [done|]. right; by left.
  - unfold interrupt, cancel_service in Hs. cbn in Hs. rewrite Hctx in Hs. injection Hs as <-. cbn. rewrite Hq.
    split; [done|]. right; by left.
Qed.

Lemma run_out steps : forall t t',
  usable t -> Forall (fun s => keeps_queue s = true) steps -> out_ok t -> run steps t = Some t' -> out_ok t' /\ usable t'.
Proof.
  induction steps as [|s steps IH]; intros t t' Hu Hk Ho Hr; [by injection Hr as <-|].
  apply Forall_cons in Hk as [Hk Hks]. cbn [run] in Hr. destruct (step_usable s t Hu) as (t1 & Hs & Hu1 & _).
  rewrite Hs in Hr. eapply IH; [exact Hu1 | done | | exact Hr]. exact (step_out _ _ _ Hu Hk Ho Hs).
Qed.

(** The library answers: it is writable as often as something waits. *)
Lemma writeable_drains n : forall t queue,
  usable t -> queue_ t = Some queue -> length queue = n ->
  exists t', run (replicate n (Event (Writeable 0))) t = Some t' /\ queue_ t' = Some [] /\
    accepted t' = accepted t /\ taken t' = taken t ++ (drop LWS_PRE <$> queue).
Proof.
  induction n as [|n IH]; intros t queue Hu Hq Hn.
  { apply nil_length_inv in Hn as ->. exists t. by rewrite app_nil_r. }
  destruct queue as [|item rest]; [done|]. cbn [replicate run]. unfold step at 1. cbn [handle_callback]. rewrite Hq.
  cbn [mbind option_bind fmap option_fmap option_map compose fst Z.ltb Z.compare]. injection Hn as Hn.
  destruct (IH (set_wakeups (service_cancelled t) (negb (bool_decide (rest = [])))
    (set_out rest (accepted t) (taken t ++ [drop LWS_PRE item]) t)) rest) as (t' & H1 & H2 & H3 & H4);
    [by destruct Hu as (? & ? & ?) | done | done |].
  exists t'. split_and!; [exact H1 | done | done |]. rewrite H4. cbn. by rewrite <-app_assoc.
Qed.

(** C18: nothing that is written is forgotten.  In every run of a new transport,
    what [write] has queued is what the library was given followed by what waits,
    in order; whenever something waits the transport has asked the library to
    come back; and when the library then does, all of it is given to it. *)
Theorem writes_leave_in_order host port path use_ssl notify api_key t0 steps t :
  new_transport host port path use_ssl notify api_key Connecting = Some t0 ->
  Forall (fun s => keeps_queue s = true) steps ->
  run steps (register_message_callback t0) = Some t ->
  accepted t = taken t ++ (drop LWS_PRE <$> queued t) /\
  (queued t = [] \/ service_cancelled t = true \/ writable_wanted t = true) /\
  exists t', run (Event WaitCancelled :: replicate (length (queued t)) (Event (Writeable 0))) t = Some t' /\
    queued t' = [] /\ taken t' = accepted t.
Proof.
  intros [= <-] Hk Hr.
  match type of Hr with run _ ?t0 = _ => assert (Hu0 : usable t0) by (split_and!; [done | by eexists | done]) end.
  destruct (run_out _ _ _ Hu0 Hk (conj eq_refl (or_introl eq_refl)) Hr) as [[Ha Hw] Hu].
  split; [done|]. split; [done|]. destruct (step_usable (Event WaitCancelled) t Hu) as (t1 & Hs & Hu1 & _).
  cbn [run]. rewrite Hs. cbn [mbind option_bind]. destruct Hu as (_ & [queue Hq] & _). cbn in Hs. rewrite Hq in Hs. cbn in Hs.
  injection Hs as <-. unfold queued in *. rewrite Hq in Ha. rewrite Hq. cbn [default id] in *.
  destruct (writeable_drains (length queue) _ queue Hu1) as (t' & H1 & H2 & H3 & H4); [done | done |].
  exists t'. split_and!; [exact H1 | by rewrite H2 | by rewrite H4, Ha].
Qed.

Lemma write_queued t buffer queue :
  connected_ t = true -> interrupted_ t = false -> context_ t = true -> queue_ t = Some queue -> zlen queue < kQueueSize ->
  exists t', write buffer t = Some (t', i32 (zlen buffer)) /\ accepted t' = accepted t ++ [buffer] /\
    queue_ t' = Some (queue ++ [replicate LWS_PRE 0 ++ buffer]) /\ connected_ t' = true /\ interrupted_ t' = false /\
    context_ t' = true /\ message_callback_ t' = message_callback_ t /\ fragment_buffer_ t' = fragment_buffer_ t.
Proof.
  intros Hc Hi Hx Hq Hl. unfold write. rewrite Hc, Hi, Hq. cbn [negb orb mbind option_bind].
  rewrite (proj2 (Z.ltb_lt _ _)) by done. unfold cancel_service. cbn. rewrite Hx. by eexists.
Qed.

(** A write into a full queue is lost and reported as sent. *)
Theorem full_queue_write_reported t buffer queue :
  connected_ t = true -> interrupted_ t = false -> queue_ t = Some queue -> kQueueSize <= zlen queue -> zlen buffer < 2 ^ 31 ->
  exists t', write buffer t = Some (t', zlen buffer) /\ queue_ t' = Some queue /\ accepted t' = accepted t.
Proof.
  intros Hc Hi Hq Hf Hb. unfold write. rewrite Hc, Hi, Hq. cbn [negb orb mbind option_bind].
  rewrite (proj2 (Z.ltb_ge _ _)) by done. rewrite i32_small by (unfold zlen in *; lia). unfold cancel_service.
  destruct (context_ t); by eexists.
Qed.

(** Writing has nothing to do with the fragments. *)
Lemma write_fragments b m t buffer :
  write buffer (set_fragments b m t) = (fun '(t, r) => (set_fragments b m t, r)) <$> write buffer t.
Proof.
  unfold write. cbn. destruct (_ || _); [done|]. destruct (queue_ t) as [queue|]; [|done]. cbn. unfold cancel_service. cbn.
  destruct (_ <? _); cbn; by destruct (context_ t).
Qed.

(** ** Connections that were closed *)

Lemma step_interrupted s t t' :
  interrupted_ t = true -> step s t = Some t' -> interrupted_ t' = true /\ accepted t' = accepted t.
Proof.
  intros Hi Hs. destruct s as [reason|buffer| |host port path use_ssl notify api_key]; cbn [step] in Hs.
  - destruct reason as [|added|[|c data] f r|result| | | |]; cbn [handle_callback] in Hs.
    + destruct (notify_connected_ _); [destruct (message_callback_ _)|]; by simplify_eq/=.
    + by simplify_eq/=.
    + by simplify_eq/=.
    + destruct (f && r); [destruct (message_callback_ t)|]; by simplify_eq/=.
    + destruct (queue_ t) as [[|item rest]|]; cbn in Hs; [by simplify_eq/= | | done].
      injection Hs as <-. by destruct (result <? 0).
    + destruct (queue_ t) as [queue|]; cbn in Hs; by simplify_eq/=.
    + by simplify_eq/=.
    + by simplify_eq/=.
    + by simplify_eq/=.
  - unfold write in Hs. rewrite Hi, orb_true_r in Hs. by simplify_eq/=.
  - unfold interrupt, cancel_service in Hs. injection Hs as <-. by destruct (context_ _).
  - by simplify_eq/=.
Qed.

(** A connection that was closed once never sends again.  After the close or
    error event, through any further events, reconnections and a new
    [initialize], every write is refused and nothing is queued. *)
Theorem closed_never_sends t t1 steps t2 buffer :
  step (Event Closed) t = Some t1 -> run steps t1 = Some t2 ->
  accepted t2 = accepted t /\ write buffer t2 = Some (t2, -1).
Proof.
  intros [= <-] Hr. assert (H : interrupted_ (set_link false true t) = true) by done.
  assert (Ha : accepted (set_link false true t) = accepted t) by done. revert H Ha Hr. generalize (set_link false true t).
  induction steps as [|s steps IH]; intros t1 Hi Ha Hr.
  - injection Hr as <-. split; [done|]. unfold write. by rewrite Hi, orb_true_r.
  - cbn [run] in Hr. destruct (step s t1) as [t1'|] eqn:Es; [|done]. destruct (step_interrupted _ _ _ Hi Es) as [Hi' Ha'].
    apply (IH t1' Hi'); [by rewrite Ha' | done].
Qed.

End Lws.
(** ** Examples *)

Definition demo_transport : Transport :=
  mkTransport (codes "localhost") (codes "/ws") 443 true true [] true false false true (Some []) true [] false false [] [] [].

(** Two messages with full last pieces, one of them with an empty piece inside;
    then one with an empty last piece. *)
Lemma fragments_reassembled_witness :
  (exists t', run 16 [Event Established; Event (Receive (codes "ab") false true); Write (codes "x"); Event (Receive [] false true);
                      Event (Receive (codes "c") true true); Event WaitCancelled; Event (Receive (codes "d") true true);
                      Event (Writeable 1)] demo_transport = Some t' /\
     received t' = [codes "abc"; codes "d"] /\ fragment_buffer_ t' = []) /\
  (exists t', run 16 [Event (Receive (codes "a") false true); Event (Receive [] true true); Event (Receive (codes "b") true true)]
     demo_transport = Some t' /\ received t' = [codes "ab"] /\ fragment_buffer_ t' = []).
Proof.
  assert (Hu : usable demo_transport) by (split_and!; [done | by eexists | done]). split.
  - destruct (fragments_reassembled 16 [Event Established; Event (Receive (codes "ab") false true); Write (codes "x");
      Event (Receive [] false true); Event (Receive (codes "c") true true); Event WaitCancelled;
      Event (Receive (codes "d") true true); Event (Writeable 1)] demo_transport [codes "abc"; codes "d"]
      [[Receive (codes "ab") false true; Receive [] false true; Receive (codes "c") true true]; [Receive (codes "d") true true]])
      as (t' & H1 & _ & H2); [done | done | | done |].
    + constructor; [|constructor; [apply pieces_last | constructor]].
      apply (pieces_more (codes "ab") false true (codes "c")); [done|]. apply (pieces_more [] false true (codes "c")); [done|].
      apply pieces_last.
    + exists t'. split; [done|]. apply H2. repeat constructor.
  - destruct (fragments_reassembled 16 [Event (Receive (codes "a") false true); Event (Receive [] true true);
      Event (Receive (codes "b") true true)] demo_transport [codes "a"; codes "b"]
      [[Receive (codes "a") false true; Receive [] true true]; [Receive (codes "b") true true]])
      as (t' & H1 & H2 & _); [done | done | | done |].
    + constructor; [|constructor; [apply pieces_last | constructor]].
      apply (pieces_more (codes "a") false true []); [done|]. apply pieces_last.
    + by exists t'.
Defined.

Lemma empty_final_fragment_glues_witness :
  exists t', run 16 [Event (Receive (codes "a") false true); Event (Receive [] true true); Event (Receive (codes "b") true true)]
    demo_transport = Some t' /\ received t' = [codes "ab"].
Proof. apply (empty_final_fragment_glues 16 demo_transport (codes "a") (codes "b")); [split_and!; [done | by eexists | done] | done..]. Defined.

Lemma writes_leave_in_order_witness :
  exists t0 t t', new_transport (codes "localhost") 443 (codes "/ws") true true [] Connecting = Some t0 /\
    run 16 [Event Established; Write (codes "a"); Write (codes "b"); Event WaitCancelled; Event (Writeable 1)]
      (register_message_callback t0) = Some t /\
    accepted t = [codes "a"; codes "b"] /\ taken t = [codes "a"] /\
    run 16 (Event WaitCancelled :: replicate (length (queued t)) (Event (Writeable 0))) t = Some t' /\
    taken t' = [codes "a"; codes "b"].
Proof.
  destruct (new_transport (codes "localhost") 443 (codes "/ws") true true [] Connecting) as [t0|] eqn:E0; [|done].
  destruct (run 16 [Event Established; Write (codes "a"); Write (codes "b"); Event WaitCancelled; Event (Writeable 1)]
    (register_message_callback t0)) as [t|] eqn:Er; [|injection E0 as <-; by vm_compute in Er].
  destruct (fun H => writes_leave_in_order 16 _ _ _ _ _ _ _ _ _ E0 H Er) as (H1 & _ & t' & H3 & _ & H4); [by repeat constructor|].
  exists t0, t, t'. injection E0 as <-. vm_compute in Er. injection Er as <-. split_and!; try done.
Defined.

Lemma closed_never_sends_witness :
  exists t1 t2, step 16 (Event Closed) demo_transport = Some t1 /\ run 16 [Event Established; Write (codes "a")] t1 = Some t2 /\
    write 16 (codes "b") t2 = Some (t2, -1).
Proof.
  eexists _, _. split; [reflexivity|]. split; [reflexivity|].
  by eapply (closed_never_sends 16 demo_transport _ [Event Established; Write (codes "a")]).
Defined.

End WsTransport.
