(* ===== verification/WsOeSession.v ===== *)
(** * The order entry session (src/hft/core/websocket/order_entry/ws_oe_app.hpp)

    [WsOrderEntryAppT] over its two transports: logon, the user data stream with
    its listen key and keepalive, decoding of payloads by their ids
    ([spot_ws_oe_decoder.h], [futures_ws_oe_decoder.h]), the connection handlers
    and the part of the dispatch routers that concerns the session; answers to
    orders go on to [OrderEntry].  JSON readers and writers and the signature are
    parameters.

    The theorems: answers are read as the type of the request that has their id;
    the logon sequence sends what it should; the bytes of the socket run the
    handlers of their messages; and where the code does not do what it means to:
    answers to futures modifications are dropped, and the keepalive of the listen
    key never starts. *)

From S2P Require Import Prelude Types FixedPoint Text OrderManager IniConfig LevelParser OnepassDecoder OrderEntry OeEncoder WsTransport.

Module WsOeSession.
Import FixedPoint Text IniConfig OrderEntry WsTransport.
Local Open Scope Z_scope.

(** ** Signed queries ([Util::build_canonical_query]) *)

Definition param_le (lhs rhs : list Z * list Z) : Prop := string_le lhs.1 rhs.1 = true.
#[global] Instance param_le_dec p q : Decision (param_le p q).
Proof. unfold param_le. apply _. Defined.

Fixpoint join_params (params : list (list Z * list Z)) : list Z :=
  match params with
  | [] => []
  | [(k, v)] => k ++ codes "=" ++ v
  | (k, v) :: rest => k ++ codes "=" ++ v ++ codes "&" ++ join_params rest
  end.
Definition build_canonical_query (params : list (list Z * list Z)) : list Z := join_params (merge_sort param_le params).

(** ** What the decoders find *)

(** The types that the answers are read as. *)
Inductive Kind := KLogon | KPlace | KCancel | KReplace | KCancelAll | KApi.

Definition response_message (kind : Kind) (response : ApiResponse) : WireMessage :=
  match kind with
  | KLogon => OeSessionLogon response
  | KPlace => OePlaceOrder response
  | KCancel => OeCancelOrder response
  | KReplace => OeCancelAndReorder response
  | KCancelAll => OeCancelAll response
  | KApi => OeApi response
  end.

(** A message of the session, or one for the router of orders. *)
Inductive Decoded :=
| Message (message : WireMessage)
| Subscription (response : ApiResponse) (listen_key : option (list Z))
| Unsubscription
| ListenKeyExpired.

Definition Nothing : Decoded := Message OeMonostate.

(** The readers of the JSON library: [None] when they fail. *)
Record Json := mkJson {
  read_header : list Z -> option (list Z);
  read_report : list Z -> option OrderEvent;
  read_response : Kind -> list Z -> option ApiResponse;
  read_subscription : list Z -> option (ApiResponse * option (list Z));
  read_unsubscription : list Z -> bool;
  read_account : list Z -> bool;
  read_expired : list Z -> bool;
}.

Section Decoders.
Variable json : Json.

Definition decode_report (payload : list Z) : Decoded :=
  match read_report json payload with Some event => Message (OeExecutionReport event) | None => Nothing end.
Definition decode_response (kind : Kind) (payload : list Z) : Decoded :=
  match read_response json kind payload with Some response => Message (response_message kind response) | None => Nothing end.
Definition decode_subscription (payload : list Z) : Decoded :=
  match read_subscription json payload with Some (response, key) => Subscription response key | None => Nothing end.
Definition decode_unsubscription (payload : list Z) : Decoded :=
  if read_unsubscription json payload then Unsubscription else Nothing.
Definition decode_account (payload : list Z) : Decoded := if read_account json payload then Message OeAccount else Nothing.

Definition payload_contains (word : string) (payload : list Z) : bool := bool_decide (is_Some (find (codes word) payload)).
Definition starts_with (word : string) (id : list Z) : bool := bool_decide (take (length (codes word)) id = codes word).

(** [SpotWsOeDecoder::decode_impl] *)
Definition spot_decode (payload : list Z) : Decoded :=
  match payload with
  | [] => Nothing
  | _ =>
      if payload_contains "executionReport" payload then decode_report payload
      else if payload_contains "outboundAccountPosition" payload then decode_account payload
      else if payload_contains "balanceUpdate" payload then decode_account payload
      else
        match read_header json payload with
        | None => Nothing
        | Some id =>
            if starts_with "login_" id then decode_response KLogon payload
            else if starts_with "subscribe" id then decode_subscription payload
            else if starts_with "unsubscribe" id then decode_unsubscription payload
            else if starts_with "order" id then
              if starts_with "orderreplace" id then decode_response KReplace payload
              else if starts_with "ordercancelAll" id then decode_response KCancelAll payload
              else if starts_with "ordercancel" id then decode_response KCancel payload
              else decode_response KPlace payload
            else decode_response KApi payload
        end
  end.

Definition kEventTypeOffset : nat := 6.
Definition kIdOffset : nat := 7.
Definition kMinPayloadLen : Z := 8.
Definition kLogin : Z := 108.
Definition kSubscribe : Z := 115.
Definition kUnsubscribe : Z := 117.

(** [FuturesWsOeDecoder::decode_id_response].  The type of the answers to
    replacements and modifications is [std::monostate], so the message is empty
    whether it is read or not. *)
Definition decode_id_response (payload : list Z) : Decoded :=
  match nth_error payload kIdOffset with
  | None => Nothing
  | Some c =>
      if c =? kSubscribe then decode_subscription payload
      else if c =? kUnsubscribe then decode_unsubscription payload
      else if c =? kLogin then decode_response KLogon payload
      else if c =? kOrderPlace then decode_response KPlace payload
      else if c =? kOrderCancel then decode_response KCancel payload
      else if c =? kOrderReplace then Nothing
      else if c =? kOrderModify then Nothing
      else decode_response KApi payload
  end.

(** [FuturesWsOeDecoder::decode_impl] *)
Definition futures_decode (payload : list Z) : Decoded :=
  if zlen payload <? kMinPayloadLen then Nothing
  else
    let event_char := nth kEventTypeOffset payload 0 in
    if event_char =? 79 then decode_report payload
    else if event_char =? 84 then Nothing
    else if event_char =? 65 then decode_account payload
    else if event_char =? 108 then (if read_expired json payload then ListenKeyExpired else Nothing)
    else if nth 2 payload 0 =? 105 then decode_id_response payload
    else decode_response KApi payload.
End Decoders.

(** ** The session *)

Record Session := mkSession {
  app : App;
  api_transport_ : option Transport;
  stream_transport_ : Transport;
  running_ : bool;
  listen_key_ : list Z;
  keepalive_running_ : bool;
  (** [elapsed_ms] of the keepalive thread *)
  elapsed_ms : Z;
}.

Definition set_app (a : App) (s : Session) : Session :=
  mkSession a (api_transport_ s) (stream_transport_ s) (running_ s) (listen_key_ s) (keepalive_running_ s) (elapsed_ms s).
Definition set_api (t : option Transport) (s : Session) : Session :=
  mkSession (app s) t (stream_transport_ s) (running_ s) (listen_key_ s) (keepalive_running_ s) (elapsed_ms s).
Definition set_stream (t : Transport) (key : list Z) (s : Session) : Session :=
  mkSession (app s) (api_transport_ s) t (running_ s) key (keepalive_running_ s) (elapsed_ms s).
Definition set_running (running : bool) (s : Session) : Session :=
  mkSession (app s) (api_transport_ s) (stream_transport_ s) running (listen_key_ s) (keepalive_running_ s) (elapsed_ms s).
Definition set_keepalive (running : bool) (elapsed : Z) (s : Session) : Session :=
  mkSession (app s) (api_transport_ s) (stream_transport_ s) (running_ s) (listen_key_ s) running elapsed.

(** The traits and the configuration of the build. *)
Record Endpoint := mkEndpoint { ep_host : list Z; ep_port : Z; ep_path : list Z }.

(** The texts that the application sends besides orders, by the time they are
    made at; [sign] is the signature of a text. *)
Record Texts := mkTexts {
  sign : list Z -> list Z;
  subscribe_text : Z -> list Z;
  ping_text : Z -> list Z;
  order_text : RequestCommon -> Z -> list Z;
}.

Section App.
Variables (futures : bool) (cfg : FixedPointConfig) (ticker : string) (LWS_PRE : nat).
Variables (json : Json) (texts : Texts) (api_key : list Z).
Variables (api stream : Endpoint) (use_ssl : bool) (keepalive_interval_ms : Z).

(** [start]: [false] when it runs already; [answer] is what the library answers to
    the connection, [None] that the constructor throws. *)
Definition start (answer : Setup) (s : Session) : option (Session * bool) :=
  if running_ s then Some (s, false)
  else
    t ← new_transport (ep_host api) (ep_port api) (ep_path api) use_ssl true [] answer;
    Some (set_api (Some (register_message_callback t)) (set_running true s), true).

Definition stop_keepalive (s : Session) : Session :=
  if keepalive_running_ s then set_keepalive false (elapsed_ms s) s else s.

Definition stop (s : Session) : Session :=
  if running_ s then
    let s := stop_keepalive (set_running false s) in
    let s := if futures then set_stream (interrupt (stream_transport_ s)) (listen_key_ s) s else s in
    set_api None s
  else s.

(** [api_transport_->write(msg)] *)
Definition api_write (msg : list Z) (s : Session) : option (Session * Z) :=
  t ← api_transport_ s;
  '(t, r) ← write LWS_PRE msg t;
  Some (set_api (Some t) s, r).

Definition send (msg : list Z) (s : Session) : option (Session * bool) :=
  match api_transport_ s, msg with
  | None, _ | _, [] => Some (s, false)
  | Some _, _ => '(s, r) ← api_write msg s; Some (s, 0 <=? r)
  end.

(** [get_signature_base64_impl(timestamp, 0)]: no window in the query. *)
Definition logon_signature (timestamp : list Z) : list Z :=
  sign texts (build_canonical_query [(codes "apiKey", api_key); (codes "timestamp", timestamp)]).

Definition logon_text (now : Z) : list Z :=
  let ts := render_int now in
  if futures then OeEncoder.Futures.futures_create_log_on_message api_key (logon_signature ts) ts now
  else OeEncoder.Spot.create_log_on_message api_key (logon_signature ts) ts now.

Definition initiate_session_logon (now : Z) (s : Session) : option Session := fst <$> api_write (logon_text now) s.

(** [start_keepalive_impl] *)
Definition start_listen_key_keepalive (s : Session) : Session :=
  if keepalive_running_ s then s else set_keepalive true 0 s.

Inductive TransportId := kApi | kStream.

(** The connection handlers of the two exchanges. *)
Definition on_connected (tid : TransportId) (now : Z) (s : Session) : option Session :=
  match tid with
  | kApi => initiate_session_logon now s
  | kStream => Some (if futures then set_app (set_session_ready (app s)) (start_listen_key_keepalive s) else s)
  end.

(** [start_stream_transport_impl]: the stream is set up without a notification. *)
Definition handle_listen_key_response (listen_key : list Z) (answer : Setup) (s : Session) : option Session :=
  t ← initialize (ep_host stream) (ep_port stream) (ep_path stream ++ codes "/" ++ listen_key) use_ssl false [] answer
        (register_message_callback (stream_transport_ s));
  Some (set_stream t listen_key s).

(** What happens at the time of an event: the clock, what the library answers to
    a connection, whether the pool of reports has a node. *)
Record Env := mkEnv { now : Z; answer : Setup; allocated : bool }.

(** The dispatch routers, with [on_session_logon] and [on_user_subscription] of
    the connection handlers. *)
Definition process_decoded (env : Env) (message : Decoded) (s : Session) : option Session :=
  match message with
  | Message (OeSessionLogon response) =>
      s ← (if rs_status response =? kHttpOK then fst <$> send (subscribe_text texts (now env)) s else Some s);
      a ← handle_session_logon futures cfg (allocated env) response (app s);
      Some (set_app a s)
  | Message message =>
      a ← process_message futures cfg ticker (allocated env) message (app s);
      Some (set_app a s)
  | Subscription response listen_key =>
      if negb (rs_status response =? kHttpOK) then Some s
      else if futures then
        match listen_key with
        | None | Some [] => Some s
        | Some key => handle_listen_key_response key (answer env) s
        end
      else Some (set_app (set_session_ready (app s)) s)
  | Unsubscription => Some s
  | ListenKeyExpired => if futures then fst <$> send (subscribe_text texts (now env)) s else Some s
  end.

Definition decode (payload : list Z) : Decoded := if futures then futures_decode json payload else spot_decode json payload.

Definition handle_api_payload (env : Env) (payload : list Z) (s : Session) : option Session :=
  match payload with
  | [] => Some s
  | _ =>
      if bool_decide (payload = kConnectedSignalString) then on_connected kApi (now env) s
      else process_decoded env (decode payload) s
  end.

(** Only futures have a stream transport. *)
Definition handle_stream_payload (env : Env) (payload : list Z) (s : Session) : option Session :=
  if futures then
    match payload with
    | [] => Some s
    | _ =>
        if bool_decide (payload = kConnectedSignalString) then on_connected kStream (now env) s
        else process_decoded env (decode payload) s
    end
  else Some s.

Definition kSleepIntervalMs : Z := 1000.

(** One round of [keepalive_loop], after its sleep. *)
Definition keepalive_round (now : Z) (s : Session) : option Session :=
  if keepalive_running_ s then
    let elapsed := elapsed_ms s + kSleepIntervalMs in
    if keepalive_interval_ms <=? elapsed then
      let s := set_keepalive true 0 s in
      match api_transport_ s, ping_text texts now with
      | None, _ | _, [] => Some s
      | Some _, ping => fst <$> api_write ping s
      end
    else Some (set_keepalive true elapsed s)
  else Some s.

(** The gateway: the message is sent and the request is posted. *)
Definition order_request (env : Env) (request : RequestCommon) (s : Session) : option Session :=
  '(s, sent) ← send (order_text texts request (now env)) s;
  Some (set_app (OrderEntry.order_request futures sent request (app s)) s).

(** ** Runs *)

Inductive Event :=
| Start
| Stop
| ApiEvent (reason : Reason)
| StreamEvent (reason : Reason)
| KeepaliveRound
| OrderRequest (request : RequestCommon).

(** An event of a transport that does not exist, or has no connection yet, does
    not occur. *)
Definition step (env : Env) (e : Event) (s : Session) : option Session :=
  match e with
  | Start => fst <$> start (answer env) s
  | Stop => Some (stop s)
  | ApiEvent reason =>
      match api_transport_ s with
      | None => Some s
      | Some t =>
          '(t, msg, _) ← handle_callback LWS_PRE reason t;
          let s := set_api (Some t) s in
          match msg with Some payload => handle_api_payload env payload s | None => Some s end
      end
  | StreamEvent reason =>
      if ready_ (stream_transport_ s) then
        '(t, msg, _) ← handle_callback LWS_PRE reason (stream_transport_ s);
        let s := set_stream t (listen_key_ s) s in
        match msg with Some payload => handle_stream_payload env payload s | None => Some s end
      else Some s
  | KeepaliveRound => keepalive_round (now env) s
  | OrderRequest request => order_request env request s
  end.

Fixpoint run (events : list (Env * Event)) (s : Session) : option Session :=
  match events with [] => Some s | (env, e) :: events => s ← step env e s; run events s end.
End App.

(** The application as constructed; [notify] is a member that the default
    constructor of the stream transport does not set. *)
Definition new_session (capacity : Z) (notify : bool) : Session :=
  mkSession (new_app capacity) None (uninitialized 0 false notify) false [] false 0.

(** ** Answers and their requests *)

(** The type that the answer to a request is read as; [None]: it is not read. *)
Definition spot_kind (kind : RequestKind) : Kind :=
  match kind with PlaceId => KPlace | CancelId => KCancel | ReplaceId | ModifyId => KReplace | CancelAllId => KCancelAll end.
Definition futures_kind (kind : RequestKind) : option Kind :=
  match kind with PlaceId => Some KPlace | CancelId | CancelAllId => Some KCancel | ReplaceId | ModifyId => None end.

Lemma spot_order_id json payload kind id :
  payload <> [] -> payload_contains "executionReport" payload = false ->
  payload_contains "outboundAccountPosition" payload = false -> payload_contains "balanceUpdate" payload = false ->
  read_header json payload = Some (request_id false kind id) -> spot_decode json payload = decode_response json (spot_kind kind) payload.
Proof.
  intros Hne H1 H2 H3 Hh. destruct payload as [|c payload]; [done|]. unfold spot_decode. rewrite H1, H2, H3, Hh.
  unfold request_id, starts_with. generalize (to_string_u64 id). intros digits.
  by destruct kind; repeat (first [rewrite bool_decide_true by reflexivity | rewrite bool_decide_false by (cbn; discriminate)]).
Qed.

Definition id_payload (id rest : list Z) : list Z := Onepass.json "{'id':'" ++ id ++ rest.

Lemma futures_order_id json kind id rest :
  let payload := id_payload (request_id true kind id) rest in
  futures_decode json payload = match futures_kind kind with Some k => decode_response json k payload | None => Nothing end.
Proof.
  intros payload. unfold futures_decode.
  assert (Hlen : (zlen payload <? kMinPayloadLen) = false).
  { apply Z.ltb_ge. unfold zlen, kMinPayloadLen.
    change payload with (Onepass.json "{'id':'" ++ futures_letter kind :: to_string_u64 id ++ rest).
    rewrite length_app. change (length (Onepass.json "{'id':'")) with 7%nat. cbn [length]. lia. }
  rewrite Hlen. change (nth kEventTypeOffset payload 0) with 34. change (nth 2 payload 0) with 105. cbn [Z.eqb Pos.eqb].
  unfold decode_id_response. change (nth_error payload kIdOffset) with (Some (futures_letter kind)). by destruct kind.
Qed.

(** An answer is read as the answer to its request.  For every request id of
    the encoders, the spot decoder reads the answer with this id as the type of
    the answers to such requests, and the futures decoder does so for orders and
    cancels; answers to futures replacements and modifications are not read at
    all. *)
Theorem answers_read_by_kind json kind id :
  (forall payload, payload <> [] -> payload_contains "executionReport" payload = false ->
     payload_contains "outboundAccountPosition" payload = false -> payload_contains "balanceUpdate" payload = false ->
     read_header json payload = Some (request_id false kind id) ->
     spot_decode json payload = decode_response json (spot_kind kind) payload) /\
  (forall rest, let payload := id_payload (request_id true kind id) rest in
     futures_decode json payload = match futures_kind kind with Some k => decode_response json k payload | None => Nothing end).
Proof. split; [intros payload; by apply spot_order_id | intros rest; apply futures_order_id]. Qed.

Section AppFacts.
Variables (futures : bool) (cfg : FixedPointConfig) (ticker : string) (LWS_PRE : nat).
Variables (json : Json) (texts : Texts) (api_key : list Z).
Variables (api stream : Endpoint) (use_ssl : bool) (keepalive_interval_ms : Z).

Abbreviation handle_api_payload := (handle_api_payload futures cfg ticker LWS_PRE json texts api_key stream use_ssl).
Abbreviation handle_stream_payload := (handle_stream_payload futures cfg ticker LWS_PRE json texts api_key stream use_ssl).
Abbreviation process_decoded := (process_decoded futures cfg ticker LWS_PRE texts stream use_ssl).
Abbreviation step := (step futures cfg ticker LWS_PRE json texts api_key api stream use_ssl keepalive_interval_ms).
Abbreviation run := (run futures cfg ticker LWS_PRE json texts api_key api stream use_ssl keepalive_interval_ms).

Lemma process_nothing env s : process_decoded env Nothing s = Some s.
Proof. by destruct s. Qed.

(** The answer to a modification changes nothing: a rejected one is not reported,
    and its request stays pending. *)
Theorem modification_answer_dropped env kind id rest s :
  futures = true -> futures_kind kind = None ->
  handle_api_payload env (id_payload (request_id true kind id) rest) s = Some s.
Proof.
  intros Hf Hk. unfold WsOeSession.handle_api_payload, id_payload.
  change (Onepass.json "{'id':'" ++ request_id true kind id ++ rest) with (123 :: drop 1 (id_payload (request_id true kind id) rest)).
  cbv iota. rewrite bool_decide_false by done. unfold decode. rewrite Hf.
  change (123 :: drop 1 (id_payload (request_id true kind id) rest)) with (id_payload (request_id true kind id) rest).
  rewrite futures_order_id, Hk. rewrite <-Hf. apply process_nothing.
Qed.

Lemma run_app events1 events2 s : run (events1 ++ events2) s = s ← run events1 s; run events2 s.
Proof.
  revert s. induction events1 as [|[env e] events1 IH]; intros s; [done|]. cbn [Datatypes.app WsOeSession.run].
  destruct (step env e s) as [s1|]; [apply IH | done].
Qed.

(** ** The keepalive *)

(** The stream has not asked to be told about its connection. *)
Definition silent (t : Transport) : Prop := ready_ t = true -> notify_connected_ t = false.

(** What an operation on the api side does to the other side of the session. *)
Record same_stream (s s' : Session) : Prop := mkSame {
  same_keepalive : keepalive_running_ s' = keepalive_running_ s;
  same_received : received (stream_transport_ s') = received (stream_transport_ s);
  same_silent : silent (stream_transport_ s) -> silent (stream_transport_ s');
}.

#[global] Instance same_stream_refl : Reflexive same_stream.
Proof. by constructor. Qed.
#[global] Instance same_stream_trans : Transitive same_stream.
Proof. intros a b c [? ? ?] [? ? ?]. constructor; [congruence | congruence | auto]. Qed.

Lemma api_write_same msg s s' r : api_write LWS_PRE msg s = Some (s', r) -> same_stream s s'.
Proof.
  unfold api_write. intros H. apply bind_Some in H as (t & _ & H). apply bind_Some in H as ([t' r'] & _ & [= <- <-]). by constructor.
Qed.

Lemma send_same msg s s' b : send LWS_PRE msg s = Some (s', b) -> same_stream s s'.
Proof.
  unfold send. destruct (api_transport_ s), msg; try (intros [= <- <-]; done).
  intros H. apply bind_Some in H as ([s1 r] & H & [= <- <-]). by eapply api_write_same.
Qed.

Lemma set_app_same a s : same_stream s (set_app a s).
Proof. by constructor. Qed.

Lemma listen_key_same key ans s s' : handle_listen_key_response stream use_ssl key ans s = Some s' -> same_stream s s'.
Proof. unfold handle_listen_key_response. destruct ans; [done..|]. intros [= <-]. by constructor. Qed.

Lemma process_decoded_same env m s s' : process_decoded env m s = Some s' -> same_stream s s'.
Proof.
  assert (Hsend : forall msg s s', fst <$> send LWS_PRE msg s = Some s' -> same_stream s s').
  { intros msg s0 s1 H. apply fmap_Some in H as ([s2 b] & H & ->). by eapply send_same. }
  assert (Hmsg : forall message s s', (a ← process_message futures cfg ticker (allocated env) message (app s); Some (set_app a s)) = Some s' ->
    same_stream s s').
  { intros message s0 s1 H. apply bind_Some in H as (a & _ & [= <-]). apply set_app_same. }
  intros H. destruct m as [[]|response key| |]; cbn [WsOeSession.process_decoded] in H; try by apply Hmsg in H.
  - apply bind_Some in H as (s1 & H1 & H). apply bind_Some in H as (a & _ & [= <-]).
    transitivity s1; [|apply set_app_same]. destruct (_ =? _); [by eapply Hsend | by injection H1 as <-].
  - destruct (negb _); [by injection H as <-|]. destruct futures; [|injection H as <-; apply set_app_same].
    destruct key as [[|c key]|]; try (by injection H as <-). by eapply listen_key_same.
  - by injection H as <-.
  - destruct futures; [by eapply Hsend | by injection H as <-].
Qed.

(** An event of the stream: without a notification the only payloads are those
    that were received. *)
Lemma stream_event_payload reason t t' msg r :
  handle_callback LWS_PRE reason t = Some (t', msg, r) ->
  received t `prefix_of` received t' /\ ready_ t' = ready_ t /\ notify_connected_ t' = notify_connected_ t /\
  (notify_connected_ t = false -> forall payload, msg = Some payload -> payload ∈ received t').
Proof.
  intros H. destruct reason as [|added|[|c data] f n|result| | | |]; cbn [handle_callback] in H.
  - cbn in H. destruct (notify_connected_ t) eqn:Hn; [destruct (message_callback_ t)|]; simplify_eq/=; by rewrite ?Hn.
  - by simplify_eq.
  - by simplify_eq.
  - destruct (f && n); [destruct (message_callback_ t)|]; simplify_eq/=; split_and!; try done.
    + by apply prefix_app_r.
    + intros _ payload [= <-]. apply elem_of_app. right. by apply list_elem_of_singleton.
  - destruct (queue_ t) as [[|item rest]|]; cbn in H; [by simplify_eq/= | | done]. injection H as <- <- _.
    destruct (result <? 0); done.
  - destruct (queue_ t); cbn in H; by simplify_eq/=.
  - by simplify_eq.
  - by simplify_eq.
  - by simplify_eq.
Qed.

Lemma api_payload_same env payload s s' : handle_api_payload env payload s = Some s' -> same_stream s s'.
Proof.
  unfold WsOeSession.handle_api_payload. destruct payload as [|c payload]; [by intros [= <-]|].
  destruct (bool_decide _); intros H; [|by eapply process_decoded_same].
  cbn in H. apply fmap_Some in H as ([s1 r] & H & ->). by eapply api_write_same.
Qed.

Lemma stream_payload_same env payload s s' :
  handle_stream_payload env payload s = Some s' ->
  received (stream_transport_ s') = received (stream_transport_ s) /\ (payload <> kConnectedSignalString -> same_stream s s').
Proof.
  unfold WsOeSession.handle_stream_payload. intros Hs. pose proof (process_decoded_same env) as Hpd.
  destruct futures; [|by injection Hs as <-].
  destruct payload as [|c payload]; [by injection Hs as <-|]. case_bool_decide as E.
  - split; [|done]. injection Hs as <-. unfold start_listen_key_keepalive. by destruct (keepalive_running_ s).
  - apply Hpd in Hs as Hsame. split; [apply Hsame | done].
Qed.

Definition no_keepalive (s : Session) : Prop := keepalive_running_ s = false /\ silent (stream_transport_ s).

Lemma same_no_keepalive s s' : same_stream s s' -> no_keepalive s -> no_keepalive s'.
Proof. intros [H1 _ H3] [Hk Hs]. split; [congruence | auto]. Qed.

(** An event other than one of the stream, and a round that runs, leaves the
    stream alone. *)
Lemma step_other env e s s' :
  step env e s = Some s' ->
  match e with
  | StreamEvent _ => True
  | Stop | KeepaliveRound => received (stream_transport_ s') = received (stream_transport_ s) /\ (no_keepalive s -> no_keepalive s')
  | _ => same_stream s s'
  end.
Proof.
  intros Hs. destruct e as [| |reason|reason| |request]; cbn [WsOeSession.step] in Hs.
  - unfold start in Hs. destruct (running_ s); [by injection Hs as <-|].
    destruct (answer env); cbn in Hs; try done. injection Hs as <-. by constructor.
  - injection Hs as <-. unfold stop, stop_keepalive, interrupt, cancel_service, no_keepalive, silent.
    destruct (running_ s); [|done]. cbn. destruct (keepalive_running_ s) eqn:Hk, futures; cbn;
      try destruct (context_ (stream_transport_ s)); (split; [done|]); intros [? ?]; by rewrite ?Hk.
  - destruct (api_transport_ s) as [t|]; [|by injection Hs as <-].
    apply bind_Some in Hs as ([[t1 msg] r] & _ & Hs). destruct msg as [payload|]; [|injection Hs as <-; by constructor].
    apply api_payload_same in Hs as [H1 H2 H3]. by constructor.
  - done.
  - unfold keepalive_round in Hs. destruct (keepalive_running_ s) eqn:Hk; [|by injection Hs as <-]. unfold no_keepalive. rewrite Hk.
    split; [|by intros []]. destruct (_ <=? _); [|by injection Hs as <-]. cbv zeta in Hs.
    destruct (api_transport_ (set_keepalive true 0 s)), (ping_text texts (now env)); try by injection Hs as <-.
    apply fmap_Some in Hs as ([s1 r] & Hs & ->). exact (same_received _ _ (api_write_same _ _ _ _ Hs)).
  - unfold order_request in Hs. apply bind_Some in Hs as ([s1 b] & Hs1 & [= <-]).
    transitivity s1; [by eapply send_same | apply set_app_same].
Qed.

Lemma step_no_keepalive env e s s' :
  step env e s = Some s' ->
  received (stream_transport_ s) `prefix_of` received (stream_transport_ s') /\
  (kConnectedSignalString ∉ received (stream_transport_ s') -> no_keepalive s -> no_keepalive s').
Proof.
  intros Hs. pose proof (step_other _ _ _ _ Hs) as Ho.
  assert (Hsame : same_stream s s' -> received (stream_transport_ s) `prefix_of` received (stream_transport_ s') /\
    (kConnectedSignalString ∉ received (stream_transport_ s') -> no_keepalive s -> no_keepalive s')).
  { intros H. split; [by rewrite (same_received _ _ H) | intros _; by apply same_no_keepalive]. }
  destruct e as [| |reason|reason| |request]; [by apply Hsame | by destruct Ho as [-> Hn] | by apply Hsame | |
    by destruct Ho as [-> Hn] | by apply Hsame].
  cbn [WsOeSession.step] in Hs. destruct (ready_ (stream_transport_ s)) eqn:Hr; [|by injection Hs as <-].
  apply bind_Some in Hs as ([[t1 msg] r] & Hh & Hs). destruct (stream_event_payload _ _ _ _ _ Hh) as (Hp & Hr1 & Hn1 & Hin).
  set (s1 := set_stream t1 (listen_key_ s) s) in *.
  assert (Hk1 : no_keepalive s -> no_keepalive s1) by (intros [Hk Hsil]; split; [done|]; intros _; cbn; rewrite Hn1; by apply Hsil).
  destruct msg as [payload|]; [|by injection Hs as <-]. destruct (stream_payload_same _ _ _ _ Hs) as [Hrec Hpay]. rewrite Hrec.
  split; [done|]. intros Hout Hk. apply (same_no_keepalive s1); [|auto]. apply Hpay. intros ->. apply Hout.
  apply Hin; [|done]. by apply (proj2 Hk).
Qed.

Lemma run_no_keepalive events : forall s0 s,
  run events s0 = Some s -> received (stream_transport_ s0) `prefix_of` received (stream_transport_ s) /\
  (kConnectedSignalString ∉ received (stream_transport_ s) -> no_keepalive s0 -> no_keepalive s).
Proof.
  induction events as [|[env e] events IH]; intros s0 s Hr; [by injection Hr as <-|].
  cbn [WsOeSession.run] in Hr. apply bind_Some in Hr as (s1 & H1 & Hr).
  destruct (step_no_keepalive _ _ _ _ H1) as [Hp1 Hn1]. destruct (IH _ _ Hr) as [Hp2 Hn2].
  split; [by etransitivity|]. intros Hout Hn. apply Hn2; [done|]. apply Hn1; [|done].
  intros Hin. apply Hout. destruct Hp2 as [l ->]. apply elem_of_app. by left.
Qed.

(** The keepalive never starts.  In every run of the application, with any
    events of both connections, unless the exchange itself sends the text that
    the transport would send on connection, no keepalive runs and its rounds do
    nothing: the stream is set up without the notification that would start it,
    so the listen key is never renewed. *)
Theorem keepalive_never_starts capacity notify events s env :
  run events (new_session capacity notify) = Some s ->
  kConnectedSignalString ∉ received (stream_transport_ s) ->
  keepalive_running_ s = false /\ step env KeepaliveRound s = Some s.
Proof.
  intros Hr Hout. destruct (run_no_keepalive _ _ _ Hr) as [_ Hn]. destruct (Hn Hout) as [Hk _]; [by split; [|intros [=]]|].
  split; [done|]. cbn. unfold keepalive_round. by rewrite Hk.
Qed.

(** ** Logging on *)

(** A connected api transport that has queued [acc] and given nothing away. *)
Record online (t : Transport) (acc : list (list Z)) : Prop := mkOnline {
  on_usable : usable t;
  on_connected_ : connected_ t = true;
  on_interrupted : interrupted_ t = false;
  on_fragments : fragment_buffer_ t = [];
  on_queue : exists queue, queue_ t = Some queue /\ length queue = length acc;
  on_accepted : accepted t = acc;
}.

Lemma api_write_online s t acc msg :
  api_transport_ s = Some t -> online t acc -> zlen acc < kQueueSize ->
  exists t' r, api_write LWS_PRE msg s = Some (set_api (Some t') s, r) /\ online t' (acc ++ [msg]).
Proof.
  intros Ht [(Hcb & _ & Hx) Hc Hi Hf (queue & Hq & Hl) Ha] Hlen. unfold api_write. rewrite Ht. cbn [mbind option_bind].
  destruct (write_queued LWS_PRE t msg queue) as (t' & Hw & H1 & H2 & H3 & H4 & H5 & H6 & H7); try done;
    [unfold zlen in *; lia|]. rewrite Hw. eexists t', _. split; [done|].
  constructor; [split_and!; [congruence | by rewrite H2 | done] | done | done | congruence | | by rewrite H1, Ha].
  eexists. split; [exact H2|]. rewrite !length_app. cbn [length]. lia.
Qed.

Lemma send_online s t acc msg :
  api_transport_ s = Some t -> online t acc -> zlen acc < kQueueSize -> msg <> [] ->
  exists t', fst <$> send LWS_PRE msg s = Some (set_api (Some t') s) /\ online t' (acc ++ [msg]).
Proof.
  intros Ht Ho Hl Hm. destruct (api_write_online s t acc msg Ht Ho Hl) as (t' & r & Hw & Ho'). exists t'. split; [|done].
  unfold send. rewrite Ht. destruct msg; [done|]. by rewrite Hw.
Qed.

Lemma receive_online env s t acc payload :
  api_transport_ s = Some t -> online t acc -> payload <> [] ->
  exists t', step env (ApiEvent (Receive payload true true)) s = handle_api_payload env payload (set_api (Some t') s) /\ online t' acc.
Proof.
  intros Ht [Hu Hc Hi Hf Hq Ha] Hp. cbn [WsOeSession.step]. rewrite Ht. destruct payload as [|c payload]; [done|].
  cbn [handle_callback andb]. rewrite (proj1 Hu), Hf. eexists. split; [reflexivity|]. by constructor.
Qed.

Lemma connected_payload env s :
  handle_api_payload env kConnectedSignalString s = initiate_session_logon futures LWS_PRE texts api_key (now env) s.
Proof. unfold WsOeSession.handle_api_payload. destruct kConnectedSignalString eqn:E; [done|]. by rewrite bool_decide_true. Qed.

(** Start, connection, and the answer to the logon. *)
Lemma connect_steps capacity notify env0 env1 :
  answer env0 = Connecting ->
  exists s t, run [(env0, Start); (env1, ApiEvent Established)] (new_session capacity notify) = Some s /\
    api_transport_ s = Some t /\ online t [logon_text futures texts api_key (now env1)].
Proof.
  intros Ha0. unfold WsOeSession.run, WsOeSession.step, start. rewrite Ha0. cbn -[api_write logon_text kConnectedSignalString WsOeSession.handle_api_payload].
  match goal with |- context [WsOeSession.handle_api_payload _ _ _ _ _ _ _ _ _ _ _ ?s1] => set (s' := s1) end.
  rewrite connected_payload. unfold initiate_session_logon.
  destruct (api_write_online s' _ [] (logon_text futures texts api_key (now env1)) eq_refl) as (t1 & r & Hw & Ho1);
    [constructor; try done; by eexists | done |]. rewrite Hw. by eexists _, t1.
Qed.

Lemma logon_steps capacity notify env0 env1 env2 payload response :
  answer env0 = Connecting -> payload <> [] -> payload <> kConnectedSignalString ->
  decode futures json payload = Message (OeSessionLogon response) -> rs_status response = kHttpOK ->
  subscribe_text texts (now env2) <> [] ->
  exists s t, run ([(env0, Start); (env1, ApiEvent Established)] ++ [(env2, ApiEvent (Receive payload true true))])
      (new_session capacity notify) = Some s /\
    api_transport_ s = Some t /\ online t [logon_text futures texts api_key (now env1); subscribe_text texts (now env2)] /\
    session_ready_ (app s) = true.
Proof.
  intros Ha0 Hp1 Hp2 Hd Hst Hsub. destruct (connect_steps capacity notify env0 env1 Ha0) as (s1 & t1 & Hc & Ht1 & Ho1).
  rewrite run_app, Hc. cbn [mbind option_bind WsOeSession.run].
  destruct (receive_online env2 s1 t1 _ payload Ht1 Ho1 Hp1) as (t2 & Hr & Ho2). rewrite Hr.
  unfold WsOeSession.handle_api_payload. destruct payload as [|c payload]; [done|]. rewrite bool_decide_false by done. rewrite Hd.
  cbn [WsOeSession.process_decoded]. rewrite Hst, Z.eqb_refl.
  destruct (send_online (set_api (Some t2) s1) t2 _ _ eq_refl Ho2 eq_refl Hsub) as (t3 & Hs & Ho3). rewrite Hs.
  cbn [mbind option_bind]. by eexists _, t3.
Qed.

(** C19: the way into a session.  From the start, for any message that is read as a
    successful answer to the logon, the application connects with the request to
    be told, sends one signed logon when it is told, one request for the user
    data stream after the answer, and is ready; for futures the answer with a
    listen key then sets up the stream under this key. *)
Theorem session_logs_on capacity notify env0 env1 env2 env3 payload response answer2 subscription key :
  answer env0 = Connecting -> answer env3 = Connecting -> payload <> [] -> payload <> kConnectedSignalString ->
  decode futures json payload = Message (OeSessionLogon response) -> rs_status response = kHttpOK ->
  subscribe_text texts (now env2) <> [] ->
  answer2 <> [] -> answer2 <> kConnectedSignalString ->
  decode futures json answer2 = Subscription subscription (Some key) -> rs_status subscription = kHttpOK -> key <> [] ->
  exists s t, run (([(env0, Start); (env1, ApiEvent Established)] ++ [(env2, ApiEvent (Receive payload true true))]) ++
                   [(env3, ApiEvent (Receive answer2 true true))]) (new_session capacity notify) = Some s /\
    api_transport_ s = Some t /\ accepted t = [logon_text futures texts api_key (now env1); subscribe_text texts (now env2)] /\
    session_ready_ (app s) = true /\
    (futures = true -> listen_key_ s = key /\ path_ (stream_transport_ s) = ep_path stream ++ codes "/" ++ key /\
       ready_ (stream_transport_ s) = true).
Proof.
  intros Ha0 Ha3 Hp1 Hp2 Hd Hst Hsub Hq1 Hq2 Hd2 Hst2 Hk.
  destruct (logon_steps capacity notify env0 env1 env2 payload response) as (s & t & Hr & Ht & Ho & Hready); try done.
  rewrite run_app, Hr. cbn [mbind option_bind WsOeSession.run].
  destruct (receive_online env3 s t _ answer2 Ht Ho Hq1) as (t' & Hrec & [_ _ _ _ _ Hacc]). rewrite Hrec.
  unfold WsOeSession.handle_api_payload. destruct answer2 as [|c answer2]; [done|]. rewrite bool_decide_false by done. rewrite Hd2.
  cbn [WsOeSession.process_decoded]. rewrite Hst2, Z.eqb_refl. cbn [negb].
  destruct futures; [|by eexists _, t']. destruct key as [|k key]; [done|]. unfold handle_listen_key_response. rewrite Ha3.
  by eexists _, t'.
Qed.

(** ** From the bytes of the connection to the handlers *)

(** The session without what its api transport remembers of fragments. *)
Definition strip (s : Session) : Session :=
  match api_transport_ s with Some t => set_api (Some (set_fragments [] [] t)) s | None => s end.

Lemma api_write_strip msg s : api_write LWS_PRE msg (strip s) = (fun '(s, r) => (strip s, r)) <$> api_write LWS_PRE msg s.
Proof.
  unfold api_write, strip. destruct (api_transport_ s) as [t|] eqn:Ht; cbn; [|by rewrite Ht].
  rewrite write_fragments. by destruct (write LWS_PRE msg t) as [[t' r]|].
Qed.

Lemma send_strip msg s : send LWS_PRE msg (strip s) = (fun '(s, b) => (strip s, b)) <$> send LWS_PRE msg s.
Proof.
  unfold send. rewrite api_write_strip. replace (api_transport_ (strip s)) with (set_fragments [] [] <$> api_transport_ s)
    by (unfold strip; destruct (api_transport_ s) eqn:E; cbn; by rewrite ?E).
  destruct (api_transport_ s), msg; try done. cbn [fmap option_fmap option_map]. by destruct (api_write LWS_PRE _ s) as [[s' r]|].
Qed.

Lemma strip_set_app a s : set_app a (strip s) = strip (set_app a s).
Proof. unfold strip. cbn. by destruct (api_transport_ s). Qed.
Lemma strip_app s : app (strip s) = app s.
Proof. unfold strip. by destruct (api_transport_ s). Qed.

Lemma process_decoded_strip env m s : process_decoded env m (strip s) = strip <$> process_decoded env m s.
Proof.
  assert (Hmsg : forall message, (a ← process_message futures cfg ticker (allocated env) message (app (strip s)); Some (set_app a (strip s))) =
    strip <$> (a ← process_message futures cfg ticker (allocated env) message (app s); Some (set_app a s))).
  { intros message. rewrite strip_app. destruct (process_message _ _ _ _ _ _); [|done]. cbn. by rewrite strip_set_app. }
  destruct m as [[]|response key| |]; try apply Hmsg; cbn [WsOeSession.process_decoded].
  - destruct (_ =? _).
    + rewrite send_strip. destruct (send LWS_PRE _ s) as [[s1 b]|]; cbn; [|done]. by rewrite strip_app, strip_set_app.
    + cbn. by rewrite strip_app, strip_set_app.
  - destruct (negb _); [done|]. destruct futures; [|by rewrite strip_app, strip_set_app].
    destruct key as [[|c key]|]; try done. unfold handle_listen_key_response, strip.
    destruct (answer env), (api_transport_ s) eqn:E; cbn; by rewrite ?E.
  - done.
  - destruct futures; [|done]. rewrite send_strip. by destruct (send LWS_PRE _ s) as [[s1 b]|].
Qed.

Lemma api_payload_strip env payload s : handle_api_payload env payload (strip s) = strip <$> handle_api_payload env payload s.
Proof.
  unfold WsOeSession.handle_api_payload. destruct payload as [|c payload]; [done|].
  destruct (bool_decide _); [|apply process_decoded_strip]. cbn [WsOeSession.on_connected]. unfold initiate_session_logon.
  rewrite api_write_strip. by destruct (api_write LWS_PRE _ s) as [[s1 r]|].
Qed.

(** What a payload leaves of the transport that brought it. *)
Definition link (s : Session) : option (bool * list Z) := (fun t => (message_callback_ t, fragment_buffer_ t)) <$> api_transport_ s.

Lemma api_write_link msg s s' r : api_write LWS_PRE msg s = Some (s', r) -> link s' = link s.
Proof.
  unfold api_write, link. destruct (api_transport_ s) as [t|] eqn:E; [|done]. cbn. unfold write.
  destruct (_ || _); [by intros [= <- <-]|]. destruct (queue_ t); [|done]. cbn. unfold cancel_service.
  destruct (_ <? _); cbn; destruct (context_ t); by intros [= <- <-].
Qed.

Lemma send_link msg s s' b : send LWS_PRE msg s = Some (s', b) -> link s' = link s.
Proof.
  unfold send. destruct (api_transport_ s), msg; try (intros [= <- <-]; done).
  intros H. apply bind_Some in H as ([s1 r] & H & [= <- <-]). by eapply api_write_link.
Qed.

Lemma process_decoded_link env m s s' : process_decoded env m s = Some s' -> link s' = link s.
Proof.
  assert (Hsend : forall msg s s', fst <$> send LWS_PRE msg s = Some s' -> link s' = link s).
  { intros msg s0 s1 H. apply fmap_Some in H as ([s2 b] & H & ->). by eapply send_link. }
  assert (Hmsg : forall message s s', (a ← process_message futures cfg ticker (allocated env) message (app s); Some (set_app a s)) = Some s' ->
    link s' = link s).
  { intros message s0 s1 H. by apply bind_Some in H as (a & _ & [= <-]). }
  intros H. destruct m as [[]|response key| |]; cbn [WsOeSession.process_decoded] in H; try by apply Hmsg in H.
  - apply bind_Some in H as (s1 & H1 & H). apply bind_Some in H as (a & _ & [= <-]).
    change (link (set_app a s1)) with (link s1). destruct (_ =? _); [by eapply Hsend | by injection H1 as <-].
  - destruct (negb _); [by injection H as <-|]. destruct futures; [|by injection H as <-].
    destruct key as [[|c key]|]; try (by injection H as <-). unfold handle_listen_key_response in H.
    destruct (answer env); [done..|]. by injection H as <-.
  - by injection H as <-.
  - destruct futures; [by eapply Hsend | by injection H as <-].
Qed.

Lemma api_payload_link env payload s s' : handle_api_payload env payload s = Some s' -> link s' = link s.
Proof.
  unfold WsOeSession.handle_api_payload. destruct payload as [|c payload]; [by intros [= <-]|].
  destruct (bool_decide _); intros H; [|by eapply process_decoded_link].
  cbn in H. apply fmap_Some in H as ([s1 r] & H & ->). by eapply api_write_link.
Qed.

(** The handlers, one payload after the other. *)
Definition handle_all (env : Env) (msgs : list (list Z)) (s : Session) : option Session :=
  foldl (fun o payload => s ← o; handle_api_payload env payload s) (Some s) msgs.

Lemma handle_all_cons env payload msgs s :
  handle_all env (payload :: msgs) s = s ← handle_api_payload env payload s; handle_all env msgs s.
Proof.
  unfold handle_all. cbn [foldl mbind option_bind]. destruct (handle_api_payload env payload s) as [s1|]; [done|].
  cbn [mbind option_bind]. by induction msgs.
Qed.

Lemma run_arriving_handlers env buf msgs rest events : arriving buf msgs rest events -> forall s,
  link s = Some (true, buf) ->
  strip <$> run ((fun r => (env, ApiEvent r)) <$> events) s = handle_all env msgs (strip s).
Proof.
  induction 1 as [|buf c f n msgs rest events Hf _ IH|buf c msgs rest events Hc _ IH]; intros s Hl; [done|..];
    unfold link in Hl; destruct (api_transport_ s) as [t|] eqn:Ht; try done; injection Hl as Hcb Hb;
    rewrite fmap_cons; cbn [WsOeSession.run WsOeSession.step]; rewrite Ht;
    (destruct c as [|x c]; [try done|]); cbn [handle_callback].
  - cbn [mbind option_bind]. rewrite IH by (unfold link; cbn; by rewrite Hcb, Hb, app_nil_r).
    f_equal. unfold strip. cbn. by rewrite Ht.
  - destruct Hf as [Hf|]; [|done]. rewrite Hf, Hb. cbn [mbind option_bind]. rewrite IH by (unfold link; cbn; by rewrite Hcb).
    f_equal. unfold strip. cbn. by rewrite Ht.
  - cbn [andb]. rewrite Hcb, Hb. cbn [mbind option_bind]. set (s1 := set_api _ s). rewrite handle_all_cons.
    replace (strip s) with (strip s1) by (unfold strip; cbn; by rewrite Ht). rewrite api_payload_strip.
    destruct (handle_api_payload env (buf ++ x :: c) s1) as [s2|] eqn:E; [|done]. cbn [fmap option_fmap option_map mbind option_bind].
    apply IH. rewrite (api_payload_link _ _ _ _ E). unfold link. cbn. by rewrite Hcb.
Qed.

(** The bytes of the api connection run the handlers.  Whatever fragments the
    messages of the exchange arrive in (the last of each not empty), the session is the one that the payload
    handler makes of the whole messages, one after the other. *)
Theorem api_bytes_run_handlers env msgs rs s t :
  api_transport_ s = Some t -> message_callback_ t = true -> fragment_buffer_ t = [] -> Forall2 cut msgs rs ->
  strip <$> run ((fun r => (env, ApiEvent r)) <$> concat rs) s = handle_all env msgs (strip s).
Proof.
  intros Ht Hcb Hb Hc. apply (run_arriving_handlers env [] _ []); [by apply cuts_arriving|]. unfold link. rewrite Ht. cbn. by rewrite Hcb, Hb.
Qed.
End AppFacts.

(** The query that is signed does not depend on the order of its parameters. *)
Lemma canonical_query_order params1 params2 :
  NoDup params1.*1 -> params1 ≡ₚ params2 -> build_canonical_query params1 = build_canonical_query params2.
Proof.
  intros Hnd Hp. unfold build_canonical_query. f_equal. apply (StronglySorted_unique_strong param_le).
  - intros [k v] [k' v'] H1 H2 Hle Hle'. pose proof (string_le_antisym _ _ Hle Hle') as E. cbn in E. subst k'. f_equal.
    rewrite merge_sort_Permutation in H1. rewrite merge_sort_Permutation, <-Hp in H2.
    apply list_elem_of_lookup in H1 as [i1 H1]. apply list_elem_of_lookup in H2 as [i2 H2].
    assert (i1 = i2) as <- by (eapply (NoDup_lookup _ _ _ k Hnd); rewrite list_lookup_fmap, ?H1, ?H2; done). congruence.
  - apply StronglySorted_merge_sort; apply _.
  - apply StronglySorted_merge_sort; apply _.
  - by rewrite !merge_sort_Permutation.
Qed.

(** ** Examples *)

(** Readers that take the id from the text and find success. *)
Definition demo_id (payload : list Z) : option (list Z) := (fun n => take n (drop 7 payload)) <$> find [34] (drop 7 payload).
Definition demo_json : Json :=
  mkJson demo_id (fun _ => None) (fun _ payload => (fun id => mkApi id 200 None) <$> demo_id payload)
    (fun payload => (fun id => (mkApi id 200 None, Some (codes "k1"))) <$> demo_id payload) (fun _ => true) (fun _ => true) (fun _ => true).
Definition demo_texts : Texts :=
  mkTexts (fun q => q) (fun n => codes "subscribe " ++ render_int n) (fun n => codes "ping " ++ render_int n) (fun _ _ => codes "order").
Definition demo_api : Endpoint := mkEndpoint (codes "api") 443 (codes "/ws-fapi").
Definition demo_stream : Endpoint := mkEndpoint (codes "stream") 443 (codes "/ws").
Definition demo_env (n : Z) : Env := mkEnv n Connecting true.
Abbreviation demo_run futures :=
  (run futures XRPUSDCConfig "XRPUSDC" 16 demo_json demo_texts (codes "key") demo_api demo_stream true 2000).
Definition demo_login (id : string) : list Z := id_payload (codes id) (Onepass.json "','status':200}").

Lemma answers_read_by_kind_witness :
  let payload := id_payload (request_id false CancelAllId 42) (Onepass.json "','status':200}") in
  spot_decode demo_json payload = Message (OeCancelAll (mkApi (codes "ordercancelAll_42") 200 None)) /\
  futures_decode demo_json (id_payload (request_id true ModifyId 42) (Onepass.json "','status':400}")) = Nothing.
Proof.
  intros payload. destruct (answers_read_by_kind demo_json CancelAllId 42) as [H1 _]. split.
  - rewrite H1 by (by vm_compute). by vm_compute.
  - exact (proj2 (answers_read_by_kind demo_json ModifyId 42) (Onepass.json "','status':400}")).
Defined.

Lemma modification_answer_dropped_witness :
  handle_api_payload true XRPUSDCConfig "XRPUSDC" 16 demo_json demo_texts (codes "key") demo_stream true (demo_env 0)
    (id_payload (request_id true ModifyId 42) (Onepass.json "','status':400}")) (new_session 8 false) = Some (new_session 8 false).
Proof. by apply modification_answer_dropped. Defined.

Definition demo_events : list (Env * Event) :=
  [(demo_env 0, Start); (demo_env 1, ApiEvent Established); (demo_env 2, ApiEvent (Receive (demo_login "l1") true true));
   (demo_env 3, ApiEvent (Receive (demo_login "s2") true true)); (demo_env 4, StreamEvent Established);
   (demo_env 5, StreamEvent (Receive (Onepass.json "{'e':'ORDER_TRADE_UPDATE'}") true true)); (demo_env 1000, KeepaliveRound)].

Lemma keepalive_never_starts_witness :
  exists s, demo_run true demo_events (new_session 8 true) = Some s /\ connected_ (stream_transport_ s) = true /\
    listen_key_ s = codes "k1" /\ keepalive_running_ s = false.
Proof.
  destruct (demo_run true demo_events (new_session 8 true)) as [s|] eqn:E; [|by vm_compute in E].
  exists s. split; [done|]. split; [|split].
  - vm_compute in E. by injection E as <-.
  - vm_compute in E. by injection E as <-.
  - apply (keepalive_never_starts true XRPUSDCConfig "XRPUSDC" 16 demo_json demo_texts (codes "key") demo_api demo_stream true 2000
      8 true demo_events s (demo_env 0) E).
    vm_compute in E. injection E as <-. by apply (bool_decide_unpack _); vm_compute.
Defined.

Lemma session_logs_on_witness :
  exists s t, demo_run true (([(demo_env 0, Start); (demo_env 1, ApiEvent Established)] ++
      [(demo_env 2, ApiEvent (Receive (demo_login "l1") true true))]) ++
      [(demo_env 3, ApiEvent (Receive (demo_login "s2") true true))]) (new_session 8 true) = Some s /\
    api_transport_ s = Some t /\ accepted t = [logon_text true demo_texts (codes "key") 1; codes "subscribe 2"] /\
    session_ready_ (app s) = true /\ path_ (stream_transport_ s) = codes "/ws/k1".
Proof.
  destruct (session_logs_on true XRPUSDCConfig "XRPUSDC" 16 demo_json demo_texts (codes "key") demo_api demo_stream true 2000 8 true
    (demo_env 0) (demo_env 1) (demo_env 2) (demo_env 3) (demo_login "l1") (mkApi (codes "l1") 200 None) (demo_login "s2")
    (mkApi (codes "s2") 200 None) (codes "k1")) as (s & t & H1 & H2 & H3 & H4 & H5);
    [reflexivity | reflexivity | discriminate | discriminate | vm_compute; reflexivity | reflexivity | discriminate | discriminate |
     discriminate | vm_compute; reflexivity | reflexivity | discriminate |].
  exists s, t. split_and!; [exact H1 | done | exact H3 | done |]. destruct (H5 eq_refl) as (_ & -> & _). by vm_compute.
Defined.

Lemma api_bytes_run_handlers_witness :
  exists s1, demo_run false [(demo_env 0, Start)] (new_session 8 true) = Some s1 /\
    strip <$> demo_run false ((fun r => (demo_env 1, ApiEvent r)) <$>
        [Receive (take 9 (demo_login "login_1")) false true; Receive (drop 9 (demo_login "login_1")) true true]) s1 =
      handle_all false XRPUSDCConfig "XRPUSDC" 16 demo_json demo_texts (codes "key") demo_stream true (demo_env 1)
        [demo_login "login_1"] (strip s1).
Proof.
  destruct (demo_run false [(demo_env 0, Start)] (new_session 8 true)) as [s1|] eqn:E; [|done]. exists s1. split; [done|].
  injection E as <-.
  eapply (api_bytes_run_handlers false XRPUSDCConfig "XRPUSDC" 16 demo_json demo_texts (codes "key") demo_api demo_stream true 2000
    (demo_env 1) [demo_login "login_1"]
    [[Receive (take 9 (demo_login "login_1")) false true; Receive (drop 9 (demo_login "login_1")) true true]]); [done | done | done |].
  constructor; [|constructor]. apply (cut_more (take 9 (demo_login "login_1")) false true (drop 9 (demo_login "login_1"))); [done |].
  by apply cut_last.
Defined.

End WsOeSession.
