(* ===== verification/WsMdSession.v ===== *)
(** * The market data session (src/hft/core/websocket/market_data/ws_md_app.hpp)

    [WsMarketDataAppT] over its two transports, with the texts of its requests
    ([binance_futures_encoder.hpp], [binance_spot_encoder.h]).  What decoder, router
    and consumer make of a payload is an interface, the record [Feed], which the
    futures feed implements; the requests for snapshots that the consumer makes
    are sent here.

    The theorems: the bytes of the stream run the consumer on their messages; the
    application asks for a snapshot when it is connected; the symbol of a snapshot
    request comes back from the id of its answer; request ids do not repeat. *)

From S2P Require Import Prelude Types MemoryPool OrderBookRefine FixedPoint Text LevelParser OnepassDecoder IniConfig MarketConsumer FuturesFeed WsTransport.

Module WsMdSession.
Import FixedPoint Text IniConfig WsTransport.
Local Open Scope Z_scope.

(** ** Requests *)

(** [std::toupper] in the C locale. *)
Definition toupper (c : Z) : Z := if (97 <=? c) && (c <=? 122) then c - 32 else c.

(** The encoder: the next id of a request. *)
Record Encoder := mkEncoder { request_sequence_ : Z }.
Definition new_encoder : Encoder := mkEncoder 1.

Definition kDepthSuffix : list Z := codes "@depth@100ms".
Definition kTradeSuffix : list Z := codes "@trade".
Definition kBookTickerSuffix : list Z := codes "@bookTicker".
Definition kSubscribe : list Z := codes "SUBSCRIBE".
Definition kUnsubscribe : list Z := codes "UNSUBSCRIBE".

(** The body that the three subscription messages share; [int] ids. *)
Definition subscription_message (suffix symbol : list Z) (subscribe : bool) (e : Encoder) : list Z * Encoder :=
  match symbol with
  | [] => ([], e)
  | _ =>
      (Onepass.json "{'method':'" ++ (if subscribe then kSubscribe else kUnsubscribe) ++ Onepass.json "','params':['" ++
       (tolower <$> symbol) ++ suffix ++ Onepass.json "'],'id':" ++ render_int (request_sequence_ e) ++ Onepass.json "}",
       mkEncoder (i32 (request_sequence_ e + 1)))
  end.
Definition create_market_data_subscription_message := subscription_message kDepthSuffix.
Definition create_trade_data_subscription_message := subscription_message kTradeSuffix.
Definition create_book_ticker_subscription_message := subscription_message kBookTickerSuffix.

Definition snapshot_id (symbol : list Z) : list Z := codes "snapshot_" ++ (toupper <$> symbol).
Definition create_snapshot_data_subscription_message (level symbol : list Z) : list Z :=
  match symbol with
  | [] => []
  | _ =>
      Onepass.json "{'id':'" ++ snapshot_id symbol ++ Onepass.json "','method':'depth','params':{'symbol':'" ++
      (toupper <$> symbol) ++ Onepass.json "','limit':" ++ level ++ Onepass.json "}}"
  end.

(** The symbol of an answer is the symbol of the request. *)
Theorem snapshot_symbol_roundtrip ticker symbol :
  symbol <> [] -> FuturesFeed.snapshot_symbol ticker (snapshot_id symbol) = FuturesFeed.of_codes (toupper <$> symbol).
Proof. intros Hs. unfold FuturesFeed.snapshot_symbol. change (FuturesFeed.after_underscore (snapshot_id symbol)) with (toupper <$> symbol). by destruct symbol. Qed.

(** Ids of requests do not repeat before the counter wraps. *)
Fixpoint subscribe_all (requests : list (list Z * list Z * bool)) (e : Encoder) : list Z * Encoder :=
  match requests with
  | [] => ([], e)
  | (suffix, symbol, sub) :: requests =>
      let '(msg, e') := subscription_message suffix symbol sub e in
      let '(ids, e'') := subscribe_all requests e' in
      (request_sequence_ e :: ids, e'')
  end.

Theorem subscription_ids_consecutive requests n :
  Forall (fun r => r.1.2 <> []) requests -> 1 <= n -> n + zlen requests < 2 ^ 31 ->
  (subscribe_all requests (mkEncoder n)).1 = seqZ n (zlen requests).
Proof.
  intros Hr. revert n. induction Hr as [|[[suffix symbol] sub] requests Hs _ IH]; intros n H1 H2; [done|].
  unfold zlen in *. cbn [length] in *. cbn [subscribe_all]. destruct symbol as [|c symbol]; [done|]. cbn [subscription_message request_sequence_].
  rewrite i32_small by lia. specialize (IH (n + 1) ltac:(lia) ltac:(lia)).
  destruct (subscribe_all requests (mkEncoder (n + 1))) as [ids e]. cbn [fst] in *. rewrite IH.
  rewrite (seqZ_cons n) by lia. f_equal; f_equal; lia.
Qed.

(** ** The application *)

Inductive TransportId := kApi | kStream.

(** What the application needs of decoder, router and consumer: a payload of a
    connection, whether the pool of messages has a node, and how many requests
    for a snapshot were made. *)
Record Feed := mkFeed {
  St : Type;
  feed_payload : TransportId -> bool -> list Z -> St -> option St;
  feed_requests : St -> Z;
}.

Record Endpoint := mkEndpoint { ep_host : list Z; ep_port : Z; ep_path : list Z }.

Section App.
Variables (feed : Feed) (LWS_PRE : nat).
Variables (api stream : Endpoint) (use_ssl : bool) (stream_key snapshot_request : list Z).

Record Session := mkSession {
  client : St feed;
  api_transport_ : option Transport;
  stream_transport_ : option Transport;
  running_ : bool;
}.

Definition set_client (c : St feed) (s : Session) : Session := mkSession c (api_transport_ s) (stream_transport_ s) (running_ s).
Definition set_api (t : Transport) (s : Session) : Session := mkSession (client s) (Some t) (stream_transport_ s) (running_ s).
Definition set_stream (t : Transport) (s : Session) : Session := mkSession (client s) (api_transport_ s) (Some t) (running_ s).

(** [start], with [initialize_stream]: only the api connection asks to be told;
    [None]: a constructor throws. *)
Definition start (answer_api answer_stream : Setup) (s : Session) : option (Session * bool) :=
  if running_ s then Some (s, false)
  else
    t ← new_transport (ep_host api) (ep_port api) (ep_path api) use_ssl true [] answer_api;
    t' ← new_transport (ep_host stream) (ep_port stream) (ep_path stream) use_ssl false stream_key answer_stream;
    Some (mkSession (client s) (Some (register_message_callback t)) (Some (register_message_callback t')) true, true).

(** [stop]: both transports are interrupted and destroyed. *)
Definition stop (s : Session) : Session := if running_ s then mkSession (client s) None None false else s.

Definition send (msg : list Z) (s : Session) : option (Session * bool) :=
  match msg, api_transport_ s with
  | [], _ | _, None => Some (s, false)
  | _, Some t => '(t, r) ← write LWS_PRE msg t; Some (set_api t s, 0 <=? r)
  end.

Definition send_to_stream (msg : list Z) (s : Session) : option (Session * bool) :=
  match msg, stream_transport_ s with
  | [], _ | _, None => Some (s, false)
  | _, Some t => '(t, r) ← write LWS_PRE msg t; Some (set_stream t s, 0 <=? r)
  end.

(** The requests of a handler, whose results are only logged; the handler does
    not look at the transport, so they are sent after it. *)
Fixpoint send_requests (n : nat) (s : Session) : option Session :=
  match n with O => Some s | S n => '(s, _) ← send snapshot_request s; send_requests n s end.

Definition handle_payload (tid : TransportId) (allocated : bool) (payload : list Z) (s : Session) : option Session :=
  c ← feed_payload feed tid allocated payload (client s);
  send_requests (Z.to_nat (feed_requests feed c - feed_requests feed (client s))) (set_client c s).

Inductive Event :=
| Start (answer_api answer_stream : Setup)
| Stop
| ApiEvent (reason : Reason) (allocated : bool)
| StreamEvent (reason : Reason) (allocated : bool).

Definition step (e : Event) (s : Session) : option Session :=
  match e with
  | Start a b => fst <$> start a b s
  | Stop => Some (stop s)
  | ApiEvent reason allocated =>
      match api_transport_ s with
      | None => Some s
      | Some t =>
          '(t, msg, _) ← handle_callback LWS_PRE reason t;
          match msg with Some payload => handle_payload kApi allocated payload (set_api t s) | None => Some (set_api t s) end
      end
  | StreamEvent reason allocated =>
      match stream_transport_ s with
      | None => Some s
      | Some t =>
          '(t, msg, _) ← handle_callback LWS_PRE reason t;
          match msg with Some payload => handle_payload kStream allocated payload (set_stream t s) | None => Some (set_stream t s) end
      end
  end.

Fixpoint run (events : list Event) (s : Session) : option Session :=
  match events with [] => Some s | e :: events => s ← step e s; run events s end.

Definition new_session (c : St feed) : Session := mkSession c None None false.

(** ** From bytes to the consumer *)

(** A transport that is there has its queue. *)
Definition api_ok (s : Session) : Prop := forall t, api_transport_ s = Some t -> usable t.

Lemma md_send_ok msg s : api_ok s -> exists s' b, send msg s = Some (s', b) /\ api_ok s' /\ client s' = client s /\
  stream_transport_ s' = stream_transport_ s.
Proof.
  intros Hok. unfold send. destruct msg as [|c msg]; [by eexists _, _|]. destruct (api_transport_ s) as [t|] eqn:Ht; [|by eexists _, _].
  destruct (step_usable LWS_PRE (Write (c :: msg)) t (Hok t Ht)) as (t' & Hs & Hu & _). cbn in Hs.
  destruct (write LWS_PRE (c :: msg) t) as [[t1 r]|]; [|done]. injection Hs as ->.
  eexists _, _. split; [done|]. split_and!; try done. by intros ? [= <-].
Qed.

Lemma send_requests_ok n s : api_ok s -> exists s', send_requests n s = Some s' /\ api_ok s' /\ client s' = client s /\
  stream_transport_ s' = stream_transport_ s.
Proof.
  revert s. induction n as [|n IH]; intros s Hok; [by eexists|]. cbn [send_requests].
  destruct (md_send_ok snapshot_request s Hok) as (s1 & b & -> & Hok1 & Hc1 & Hs1). cbn [mbind option_bind].
  destruct (IH s1 Hok1) as (s2 & -> & Hok2 & Hc2 & Hs2). exists s2. split_and!; [done | done | congruence | congruence].
Qed.

Definition handle_all (allocated : bool) (msgs : list (list Z)) (c : St feed) : option (St feed) :=
  foldl (fun o payload => c ← o; feed_payload feed kStream allocated payload c) (Some c) msgs.

Lemma feed_handle_all_cons allocated payload msgs c :
  handle_all allocated (payload :: msgs) c = c ← feed_payload feed kStream allocated payload c; handle_all allocated msgs c.
Proof.
  unfold handle_all. cbn [foldl mbind option_bind]. destruct (feed_payload feed kStream allocated payload c) as [c'|]; [done|].
  cbn [mbind option_bind]. by induction msgs.
Qed.

Lemma run_arriving_feed allocated buf msgs rest events : arriving buf msgs rest events -> forall s t,
  api_ok s -> stream_transport_ s = Some t -> message_callback_ t = true -> fragment_buffer_ t = buf ->
  client <$> run ((fun r => StreamEvent r allocated) <$> events) s = handle_all allocated msgs (client s).
Proof.
  induction 1 as [|buf c f n msgs rest events Hf _ IH|buf c msgs rest events Hc _ IH]; intros s t Hok Ht Hcb Hb; [done|..];
    rewrite fmap_cons; cbn [run step]; rewrite Ht; (destruct c as [|x c]; [try done|]); cbn [handle_callback].
  - cbn [mbind option_bind]. apply (IH (set_stream t s) t); [exact Hok | done | done | by rewrite app_nil_r].
  - destruct Hf as [Hf|]; [|done]. rewrite Hf. cbn [mbind option_bind]. set (t1 := set_fragments _ _ t).
    apply (IH (set_stream t1 s) t1); [exact Hok | done | done | cbn; by rewrite Hb].
  - cbn [andb]. rewrite Hcb, Hb. cbn [mbind option_bind]. rewrite feed_handle_all_cons. unfold handle_payload. cbn [client set_stream].
    destruct (feed_payload feed kStream allocated (buf ++ x :: c) (client s)) as [c'|]; [|done]. cbn [mbind option_bind].
    match goal with |- context [send_requests ?k ?s0] => destruct (send_requests_ok k s0) as (s' & -> & Hok' & Hc' & Hs') end; [done|].
    cbn [mbind option_bind]. cbn in Hc'. rewrite <-Hc'. eapply (IH s'); [exact Hok' | exact Hs' | done | done].
Qed.

(** The bytes of the stream run the consumer.  Whatever fragments the messages
    of the stream arrive in (the last of each not empty), the consumer is the one that the feed makes of the
    whole messages, one after the other; sending its requests never fails the
    run. *)
Theorem stream_bytes_run_feed allocated msgs rs s t :
  api_ok s -> stream_transport_ s = Some t -> message_callback_ t = true -> fragment_buffer_ t = [] -> Forall2 cut msgs rs ->
  client <$> run ((fun r => StreamEvent r allocated) <$> concat rs) s = handle_all allocated msgs (client s).
Proof. intros Hok Ht Hcb Hb Hc. by eapply run_arriving_feed; [apply cuts_arriving|..]. Qed.
End App.

(** ** The futures application *)

Section Futures.
Context {P : Type} `{NodePool P} {Api Info : Type}.
Variables (n m : nat) (ticker : string) (read_api : list Z -> option Api) (read_info : list Z -> option Info).
Variables (LWS_PRE : nat) (api stream : Endpoint) (use_ssl : bool) (stream_key snapshot_request : list Z).

Definition futures_feed : Feed :=
  mkFeed (MarketConsumer.Consumer * P)
    (fun _ allocated payload s => FuturesFeed.handle_payload ticker (pow10 n) (pow10 m) read_api read_info allocated payload s)
    (fun s => MarketConsumer.requests s.1).

Abbreviation run := (run futures_feed LWS_PRE api stream use_ssl stream_key snapshot_request).

Lemma login_payload allocated (c : MarketConsumer.Consumer) (pool : P) :
  feed_payload futures_feed kApi allocated kConnectedSignalString (c, pool) = Some (MarketConsumer.on_login c, pool).
Proof.
  cbn [feed_payload futures_feed]. unfold FuturesFeed.handle_payload.
  destruct kConnectedSignalString eqn:E; [done|]. rewrite bool_decide_true by (rewrite <-E; reflexivity). done.
Qed.

(** Connecting asks for the book.  When the api connection of a new
    application is made, the consumer buffers, and exactly one message is given
    to the connection: the request for the snapshot. *)
Theorem connected_requests_snapshot allocated (c : MarketConsumer.Consumer) (pool : P) :
  snapshot_request <> [] ->
  exists s t, run [Start Connecting Connecting; ApiEvent Established allocated] (new_session futures_feed (c, pool)) = Some s /\
    client _ s = (MarketConsumer.on_login c, pool) /\ MarketConsumer.state_ (client _ s).1 = MarketConsumer.kBuffering /\
    api_transport_ _ s = Some t /\ accepted t = [snapshot_request].
Proof.
  intros Hne. cbn [WsMdSession.run step]. unfold start. cbn [running_ new_session new_transport initialize mbind option_bind fmap option_fmap option_map fst].
  cbn [api_transport_ handle_callback register_message_callback set_link notify_connected_ message_callback_ mbind option_bind].
  unfold handle_payload. cbn [client set_api new_session]. rewrite login_payload. cbn [mbind option_bind feed_requests futures_feed fst].
  replace (Z.to_nat _) with 1%nat by (cbn; lia). cbn [send_requests]. unfold send. destruct snapshot_request as [|x request]; [done|].
  cbn [set_client api_transport_ set_api]. set (t := set_link _ _ _).
  destruct (write_queued LWS_PRE t (x :: request) []) as (t' & Hw & Ha & _); [done..|]. rewrite Hw. cbn [mbind option_bind].
  by eexists _, t'.
Qed.

(** The levels of depth messages, and the consumer after their events. *)
Definition levels_of (rs : list Onepass.RawDepth) : nat :=
  sum_list ((fun r => length (Onepass.rd_b r) + length (Onepass.rd_a r))%nat <$> rs).
Definition consume (allocated : bool) (rs : list Onepass.RawDepth) (c : MarketConsumer.Consumer) : option MarketConsumer.Consumer :=
  foldl (fun o r => c ← o; MarketConsumer.on_subscribe MarketConsumer.kFutures allocated (FuturesFeed.depth_event n m r) c)
    (Some c) rs.

Lemma consume_cons allocated r rs c :
  consume allocated (r :: rs) c =
  c ← MarketConsumer.on_subscribe MarketConsumer.kFutures allocated (FuturesFeed.depth_event n m r) c; consume allocated rs c.
Proof.
  unfold consume. cbn [foldl mbind option_bind]. destruct (MarketConsumer.on_subscribe _ _ _ _) as [c'|]; [done|].
  cbn [mbind option_bind]. by induction rs.
Qed.

Lemma handle_depths rs : forall pool : P,
  Forall (Onepass.depth_ok n m) rs -> np_ok pool -> (levels_of rs <= length (np_free pool))%nat ->
  exists pool', np_ok pool' /\ length (np_free pool) = (levels_of rs + length (np_free pool'))%nat /\
    forall allocated c, handle_all futures_feed allocated (Onepass.render_depth <$> rs) (c, pool) =
      (fun c' => (c', pool')) <$> consume allocated rs c.
Proof.
  induction rs as [|r rs IH]; intros pool Hrs Hok Hf; [by exists pool|].
  apply Forall_cons in Hrs as [Hr Hrs]. change (levels_of (r :: rs)) with
    ((length (Onepass.rd_b r) + length (Onepass.rd_a r)) + levels_of rs)%nat in *.
  destruct (FuturesFeed.handle_depth n m ticker read_api read_info r pool Hr Hok ltac:(lia)) as (p1 & Hok1 & Hl1 & Hh).
  destruct (IH p1 Hrs Hok1 ltac:(lia)) as (p2 & Hok2 & Hl2 & Hhs). exists p2. split_and!; [done | lia |].
  intros allocated c. rewrite fmap_cons, feed_handle_all_cons, consume_cons. cbn [feed_payload futures_feed].
  rewrite Hh. destruct (MarketConsumer.on_subscribe _ _ _ _) as [c'|]; [|done]. cbn [mbind option_bind]. apply Hhs.
Qed.

(** C20: a stream of depth messages, from the websocket to the consumer.  For
    every sequence of depth messages in the documented format whose levels fit
    into the free nodes of the market-data pool, each cut by the websocket into
    any pieces of which the last is not empty, the session never fails in the
    transport, and the consumer is the one that is given the events of the
    messages (their ids and levels), each once and in order; the run takes exactly
    one node per level. *)
Theorem depth_fragments_reach_consumer allocated rs events s t (c : MarketConsumer.Consumer) (pool : P) :
  Forall (Onepass.depth_ok n m) rs -> np_ok pool -> (levels_of rs <= length (np_free pool))%nat ->
  api_ok futures_feed s -> stream_transport_ _ s = Some t -> message_callback_ t = true -> fragment_buffer_ t = [] ->
  client _ s = (c, pool) -> Forall2 cut (Onepass.render_depth <$> rs) events ->
  exists pool', np_ok pool' /\ length (np_free pool) = (levels_of rs + length (np_free pool'))%nat /\
    client _ <$> run ((fun e => StreamEvent e allocated) <$> concat events) s =
    (fun c' => (c', pool')) <$> consume allocated rs c.
Proof.
  intros Hrs Hok Hf Ha Ht Hcb Hb Hc Hcut. destruct (handle_depths rs pool Hrs Hok Hf) as (pool' & Hok' & Hl & Hh).
  exists pool'. split_and!; [done | done |]. rewrite <-Hh, <-Hc.
  exact (run_arriving_feed futures_feed LWS_PRE api stream use_ssl stream_key snapshot_request allocated [] _ [] _
    (cuts_arriving _ _ Hcut) s t Ha Ht Hcb Hb).
Qed.
End Futures.

(** ** Examples *)

#[local] Existing Instance bucket_pool_impl.

Definition demo_endpoint (host : string) : Endpoint := mkEndpoint (codes host) 443 (codes "/ws").
Definition demo_request : list Z := create_snapshot_data_subscription_message (codes "1000") (codes "xrpusdc").
Definition demo_feed : Feed := futures_feed (P := MemoryPool.pool) 2 3 "XRPUSDC" FuturesFeed.no_message FuturesFeed.no_message.
Definition demo_state : St demo_feed := (MarketConsumer.new_consumer 8, MemoryPool.create 16).
Abbreviation demo_run := (run demo_feed 16 (demo_endpoint "api") (demo_endpoint "stream") true [] demo_request).

Example demo_request_text :
  demo_request = Onepass.json "{'id':'snapshot_XRPUSDC','method':'depth','params':{'symbol':'XRPUSDC','limit':1000}}".
Proof. by vm_compute. Qed.

Lemma snapshot_symbol_roundtrip_witness : FuturesFeed.snapshot_symbol "" (snapshot_id (codes "xrpusdc")) = "XRPUSDC"%string.
Proof. by rewrite (snapshot_symbol_roundtrip "" (codes "xrpusdc")) by done. Defined.

Lemma connected_requests_snapshot_witness :
  exists s t, demo_run [Start Connecting Connecting; ApiEvent Established true] (new_session demo_feed demo_state) = Some s /\
    api_transport_ _ s = Some t /\ accepted t = [demo_request].
Proof.
  destruct (connected_requests_snapshot (P := MemoryPool.pool) 2 3 "XRPUSDC" FuturesFeed.no_message FuturesFeed.no_message 16 (demo_endpoint "api")
    (demo_endpoint "stream") true [] demo_request true (MarketConsumer.new_consumer 8) (MemoryPool.create 16)) as (s & t & H1 & _ & _ & H2 & H3);
    [by vm_compute|]. by exists s, t.
Defined.

Definition demo_session : Session demo_feed :=
  mkSession demo_feed demo_state None
    (Some (mkTransport (codes "stream") (codes "/ws") 443 true false [] true true false true (Some []) true [] false false [] [] [])) true.

Lemma stream_bytes_run_feed_witness :
  let msg := Onepass.render_depth FuturesFeed.wire_depth in
  client _ <$> demo_run ((fun r => StreamEvent r true) <$>
      concat [[Receive (take 20 msg) true false; Receive (drop 20 msg) true true]; [Receive msg true true]]) demo_session =
    handle_all demo_feed true [msg; msg] demo_state.
Proof.
  intros msg. eapply (stream_bytes_run_feed demo_feed 16 (demo_endpoint "api") (demo_endpoint "stream") true [] demo_request true [msg; msg]
    [[Receive (take 20 msg) true false; Receive (drop 20 msg) true true]; [Receive msg true true]] demo_session); [done | reflexivity | done | done |].
  constructor; [|constructor; [by apply cut_last | constructor]].
  change msg with (take 20 msg ++ drop 20 msg) at 1. apply cut_more; [done | by apply cut_last].
Defined.

Example demo_consume :
  is_Some (consume 2 3 true [FuturesFeed.wire_depth; FuturesFeed.wire_depth] (MarketConsumer.new_consumer 8)).
Proof. vm_compute. by eexists. Qed.

(** Two depth messages, the first in three pieces, the second whole. *)
Lemma depth_fragments_reach_consumer_witness :
  let msg := Onepass.render_depth FuturesFeed.wire_depth in
  exists pool' c', np_ok pool' /\ length (np_free pool') = 10%nat /\
    client demo_feed <$> demo_run ((fun e => StreamEvent e true) <$>
      concat [[Receive (take 20 msg) true false; Receive [] true false; Receive (drop 20 msg) true true]; [Receive msg true true]])
      demo_session = Some (c', pool') /\
    consume 2 3 true [FuturesFeed.wire_depth; FuturesFeed.wire_depth] (MarketConsumer.new_consumer 8) = Some c'.
Proof.
  intros msg.
  destruct (depth_fragments_reach_consumer (P := MemoryPool.pool) 2 3 "XRPUSDC" FuturesFeed.no_message FuturesFeed.no_message 16
    (demo_endpoint "api") (demo_endpoint "stream") true [] demo_request true [FuturesFeed.wire_depth; FuturesFeed.wire_depth]
    [[Receive (take 20 msg) true false; Receive [] true false; Receive (drop 20 msg) true true]; [Receive msg true true]]
    demo_session
    (mkTransport (codes "stream") (codes "/ws") 443 true false [] true true false true (Some []) true [] false false [] [] [])
    (MarketConsumer.new_consumer 8) (MemoryPool.create 16)) as (pool' & H1 & H2 & H3);
    [| apply FuturesFeed.demo_pool_ok | | done | reflexivity | reflexivity | reflexivity | reflexivity | |].
  - constructor; [apply FuturesFeed.wire_depth_ok|]. constructor; [apply FuturesFeed.wire_depth_ok | constructor].
  - rewrite (proj2 FuturesFeed.demo_pool_ok). cbn. lia.
  - constructor; [|constructor; [by apply cut_last | constructor]].
    change (Onepass.render_depth FuturesFeed.wire_depth) with (take 20 msg ++ [] ++ drop 20 msg).
    apply cut_more; [done|]. apply cut_more; [done|]. by apply cut_last.
  - rewrite (proj2 FuturesFeed.demo_pool_ok) in H2. change (levels_of _) with 6%nat in H2.
    destruct demo_consume as [c' E]. rewrite E in H3.
    exists pool', c'. split_and!; [done | lia | exact H3 | done].
Defined.

End WsMdSession.
