(* ===== verification/Broker.v ===== *)
(** * Market data recorder (src/repository/broker.h, broker.cpp)

    The second program of the repository logs the messages of the exchange and
    follows the stream with a copy of the consumer's recovery.  [Broker] is its
    websocket build and [FixBroker] its FIX build.  The pools are the numbers of
    their free nodes; the results of the coming calls of [app_->send] are a list,
    after which every send is accepted.  Ghost fields record the snapshots and
    events the recorder accepted, and the events no pointer leads to any more. *)

From S2P Require Import Prelude Types Text IniConfig MarketConsumer FixSession.

Module Broker.
Import MarketConsumer(MarketType, kSpot, kFutures, StreamState, kRunning, kAwaitingSnapshot, kApplyingSnapshot, kBuffering,
  Event, mkEvent, start_idx, end_idx, prev_end_idx, type, data, valid, new_update_index,
  validate_first_depth_after_snapshot, validate_continuous_depth, Item, Snapshot, Update).

Definition kMemoryPoolSize : Z := 65536.
Definition kMarketUpdateDataMemoryPoolSize : Z := 1024.
Definition kMaxRetries : Z := 3.
Definition kMaxBufferedEvents : Z := 10.

(** Free nodes of the two pools; [lost]: events whose node and entries were
    dropped, [orphans]: events whose entries only were dropped. *)
Record Pools := mkPools { update_nodes : Z; entry_nodes : Z; lost : list Event; orphans : list Event }.

(** Results of the coming sends, number of accepted ones, logged messages. *)
Record Link := mkLink { sends : list bool; sent : Z; records : list (list Z) }.

Record Broker := mkBroker {
  state_ : StreamState;
  update_index_ : Z;
  retry_count_ : Z;
  buffered_events_ : list Event;
  first_buffered_update_id_ : Z;
  first_depth_after_snapshot_ : bool;
  pools : Pools;
  link : Link;
  applied : list Item;
  stopped : bool;
}.

Definition new_pools : Pools := mkPools kMarketUpdateDataMemoryPoolSize kMemoryPoolSize [] [].

Definition new_broker (results : list bool) : Broker :=
  mkBroker kAwaitingSnapshot 0 0 [] 0 false new_pools (mkLink results 0 []) [] false.

(** ** Fields *)

Definition set_state (s : StreamState) (b : Broker) : Broker :=
  mkBroker s (update_index_ b) (retry_count_ b) (buffered_events_ b) (first_buffered_update_id_ b)
    (first_depth_after_snapshot_ b) (pools b) (link b) (applied b) (stopped b).
Definition set_retry (n : Z) (b : Broker) : Broker :=
  mkBroker (state_ b) (update_index_ b) n (buffered_events_ b) (first_buffered_update_id_ b)
    (first_depth_after_snapshot_ b) (pools b) (link b) (applied b) (stopped b).
Definition set_buffer (es : list Event) (first : Z) (b : Broker) : Broker :=
  mkBroker (state_ b) (update_index_ b) (retry_count_ b) es first
    (first_depth_after_snapshot_ b) (pools b) (link b) (applied b) (stopped b).
Definition set_first_depth (f : bool) (b : Broker) : Broker :=
  mkBroker (state_ b) (update_index_ b) (retry_count_ b) (buffered_events_ b) (first_buffered_update_id_ b)
    f (pools b) (link b) (applied b) (stopped b).
Definition set_pools (p : Pools) (b : Broker) : Broker :=
  mkBroker (state_ b) (update_index_ b) (retry_count_ b) (buffered_events_ b) (first_buffered_update_id_ b)
    (first_depth_after_snapshot_ b) p (link b) (applied b) (stopped b).
Definition set_link (l : Link) (b : Broker) : Broker :=
  mkBroker (state_ b) (update_index_ b) (retry_count_ b) (buffered_events_ b) (first_buffered_update_id_ b)
    (first_depth_after_snapshot_ b) (pools b) l (applied b) (stopped b).
(** [update_index_ = index], the item being what moved it. *)
Definition advance (i : Item) (index : Z) (b : Broker) : Broker :=
  mkBroker (state_ b) index (retry_count_ b) (buffered_events_ b) (first_buffered_update_id_ b)
    (first_depth_after_snapshot_ b) (pools b) (link b) (applied b ++ [i]) (stopped b).
(** An event that is no depth update passes without moving the index. *)
Definition pass (i : Item) (b : Broker) : Broker := advance i (update_index_ b) b.
(** [app_->stop(); std::exit(1);] *)
Definition exit_process (b : Broker) : Broker :=
  mkBroker (state_ b) (update_index_ b) (retry_count_ b) (buffered_events_ b) (first_buffered_update_id_ b)
    (first_depth_after_snapshot_ b) (pools b) (link b) (applied b) true.

(** ** Pools and link *)

(** The converter has taken the entries of the event. *)
Definition convert (e : Event) (p : Pools) : Pools :=
  mkPools (update_nodes p) (entry_nodes p - zlen (data e)) (lost p) (orphans p).
Definition take_node (p : Pools) : Pools := mkPools (update_nodes p - 1) (entry_nodes p) (lost p) (orphans p).
(** The loop over [data] and [deallocate] of the event. *)
Definition release (e : Event) (p : Pools) : Pools :=
  mkPools (update_nodes p + 1) (entry_nodes p + zlen (data e)) (lost p) (orphans p).
Definition lose (es : list Event) (p : Pools) : Pools :=
  mkPools (update_nodes p) (entry_nodes p) (lost p ++ es) (orphans p).
Definition orphan (e : Event) (p : Pools) : Pools :=
  mkPools (update_nodes p) (entry_nodes p) (lost p) (orphans p ++ [e]).

Definition on_pools (f : Pools -> Pools) (b : Broker) : Broker := set_pools (f (pools b)) b.

Definition send (l : Link) : bool * Link :=
  match sends l with
  | [] => (true, mkLink [] (sent l + 1) (records l))
  | r :: rs => (r, mkLink rs (if r then sent l + 1 else sent l) (records l))
  end.

(** [while (!app_->send(message)) sleep] *)
Fixpoint send_loop (rs : list bool) (l : Link) : Link :=
  match rs with
  | [] => mkLink [] (sent l + 1) (records l)
  | r :: rs' => if r then mkLink rs' (sent l + 1) (records l) else send_loop rs' l
  end.

Definition send_until (l : Link) : Link := send_loop (sends l) l.

Definition record (raw : list Z) (l : Link) : Link := mkLink (sends l) (sent l) (records l ++ [raw]).

Definition on_link (f : Link -> Link) (b : Broker) : Broker := set_link (f (link b)) b.

(** [std::ignore = app_->send(...)], or a result that is only logged. *)
Definition send_ignored (b : Broker) : Broker := on_link (fun l => (send l).2) b.

(** ** Handlers of the websocket build *)

Section Handlers.
Context (ty : MarketType).

Definition on_login (b : Broker) : Broker :=
  let b := set_state kBuffering (send_ignored b) in
  set_buffer [] 0 (on_pools (lose (buffered_events_ b)) b).

Definition recover_from_gap (b : Broker) : Broker :=
  if bool_decide (state_ b = kBuffering) then b
  else
    let b := set_state kBuffering b in
    let b := set_buffer [] 0 (on_pools (lose (buffered_events_ b)) b) in
    on_link send_until b.

(** [if (++retry_count_ >= kMaxRetries) exit] *)
Definition retry (b : Broker) : Broker * bool :=
  let b := set_retry (retry_count_ b + 1) b in
  if kMaxRetries <=? retry_count_ b then (exit_process b, false) else (b, true).

Fixpoint erase_front (snapshot_update_id : Z) (events : list Event) (b : Broker) : Broker :=
  match events with
  | [] => set_buffer [] (first_buffered_update_id_ b) b
  | front :: rest =>
      if end_idx front <=? snapshot_update_id
      then erase_front snapshot_update_id rest (on_pools (release front) b)
      else set_buffer events (first_buffered_update_id_ b) b
  end.

Definition erase_buffer_lower_than_snapshot (snapshot_update_id : Z) (b : Broker) : Broker :=
  let b := erase_front snapshot_update_id (buffered_events_ b) b in
  match buffered_events_ b with
  | front :: _ => set_buffer (buffered_events_ b) (start_idx front) b
  | [] => set_buffer [] 0 b
  end.

(** The loop over the buffered events; the flag is whether it came to its end. *)
Fixpoint apply_buffered (first_buffered : bool) (events : list Event) (b : Broker) : Broker * bool :=
  match events with
  | [] => (b, true)
  | buffered :: events' =>
      let result :=
        if first_buffered
        then validate_first_depth_after_snapshot ty (start_idx buffered) (end_idx buffered) (update_index_ b)
        else validate_continuous_depth ty (start_idx buffered) (end_idx buffered) (prev_end_idx buffered)
               (update_index_ b) in
      if valid result then
        apply_buffered false events'
          (on_pools (release buffered) (advance (Update buffered) (new_update_index result) b))
      else
        let b := set_buffer [] (first_buffered_update_id_ b) (on_pools (lose (buffered :: events')) b) in
        let '(b, again) := retry b in
        (if again then recover_from_gap b else b, false)
  end.

Definition apply_snapshot (snapshot_data : Event) (b : Broker) : Broker :=
  let b := advance (Snapshot snapshot_data) (end_idx snapshot_data) (set_state kApplyingSnapshot b) in
  let b := on_pools (release snapshot_data) b in
  let '(b, ok) := apply_buffered true (buffered_events_ b) b in
  if ok then
    set_state kRunning (set_first_depth true (set_retry 0 (set_buffer [] (first_buffered_update_id_ b) b)))
  else b.

Definition release_all (es : list Event) (p : Pools) : Pools := foldl (fun p e => release e p) p es.

Definition on_snapshot (snapshot_data : Event) (b : Broker) : Broker :=
  let b := on_pools (convert snapshot_data) b in
  if update_nodes (pools b) <=? 0 then
    let b := on_pools (orphan snapshot_data) b in
    let b := set_buffer [] 0 (on_pools (release_all (buffered_events_ b)) b) in
    let '(b, again) := retry b in
    if again then send_ignored b else b
  else
    let b := on_pools take_node b in
    let snapshot_update_id := end_idx snapshot_data in
    if bool_decide (state_ b = kBuffering) then
      if snapshot_update_id <? first_buffered_update_id_ b then
        let '(b, again) := retry (on_pools (lose [snapshot_data]) b) in
        if again then send_ignored b else b
      else apply_snapshot snapshot_data (erase_buffer_lower_than_snapshot snapshot_update_id (set_retry 0 b))
    else apply_snapshot snapshot_data b.

(** The buffering state of [on_subscribe]. *)
Definition buffer_event (e : Event) (b : Broker) : Broker :=
  if negb (bool_decide (type e = MDMarket)) then on_pools (release e) b
  else
    let b :=
      if first_buffered_update_id_ b =? 0 then set_buffer (buffered_events_ b) (start_idx e) b else b in
    let b :=
      if kMaxBufferedEvents <=? zlen (buffered_events_ b) then
        match buffered_events_ b with
        | [] => b
        | oldest :: rest =>
            let b := set_buffer rest (first_buffered_update_id_ b) (on_pools (release oldest) b) in
            match rest with
            | [] => b
            | front :: _ => set_buffer rest (start_idx front) b
            end
        end
      else b in
    set_buffer (buffered_events_ b ++ [e]) (first_buffered_update_id_ b) b.

(** [None]: the pool has no node and the null pointer is dereferenced. *)
Definition on_subscribe (str_msg : list Z) (e : Event) (b : Broker) : option Broker :=
  let b := on_pools (convert e) (on_link (record str_msg) b) in
  if update_nodes (pools b) <=? 0 then None
  else
    let b := on_pools take_node b in
    if bool_decide (state_ b = kBuffering) then Some (buffer_event e b)
    else if bool_decide (type e = MDMarket) then
      let result :=
        if first_depth_after_snapshot_ b
        then validate_first_depth_after_snapshot ty (start_idx e) (end_idx e) (update_index_ b)
        else validate_continuous_depth ty (start_idx e) (end_idx e) (prev_end_idx e) (update_index_ b) in
      let b := set_first_depth false b in
      if negb (valid result) then Some (on_pools (release e) (recover_from_gap b))
      else Some (on_pools (release e) (advance (Update e) (new_update_index result) b))
    else Some (on_pools (release e) (pass (Update e) b)).

Definition on_heartbeat (b : Broker) : Broker := send_ignored b.

(** [on_market_request_reject] only logs. *)
Inductive Input :=
| Login
| SnapshotMessage (e : Event)
| StreamMessage (str_msg : list Z) (e : Event)
| Heartbeat
| RequestReject.

(** The callbacks; a process that has ended takes no more messages. *)
Definition step (i : Input) (b : Broker) : option Broker :=
  if stopped b then Some b
  else match i with
       | Login => Some (on_login b)
       | SnapshotMessage e => Some (on_snapshot e b)
       | StreamMessage str_msg e => on_subscribe str_msg e b
       | Heartbeat => Some (on_heartbeat b)
       | RequestReject => Some b
       end.

Fixpoint run (inputs : list Input) (b : Broker) : option Broker :=
  match inputs with
  | [] => Some b
  | i :: inputs' => b' ← step i b; run inputs' b'
  end.

End Handlers.
(** ** Accounting of the pools *)

Definition entries (es : list Event) : Z := foldr (fun e n => zlen (data e) + n) 0 es.

Lemma entries_app l1 l2 : entries (l1 ++ l2) = entries l1 + entries l2.
Proof. induction l1 as [|e l1 IH]; cbn; [done|]. fold (entries (l1 ++ l2)). rewrite IH. fold (entries l1). lia. Qed.

(** The nodes that are not free are those of the [live] events and of the
    dropped ones. *)
Definition balance (p : Pools) (live : list Event) : Prop :=
  0 <= update_nodes p /\
  update_nodes p + zlen live + zlen (lost p) = kMarketUpdateDataMemoryPoolSize /\
  entry_nodes p + entries live + entries (lost p) + entries (orphans p) = kMemoryPoolSize.

Ltac balance_solve :=
  unfold balance; cbn [update_nodes entry_nodes lost orphans convert take_node release lose orphan entries foldr];
  rewrite ?zlen_app, ?zlen_cons, ?entries_app; cbn [entries foldr]; change (foldr (fun e n => zlen (data e) + n) 0) with entries;
  try change (zlen (@nil Event)) with 0; intuition lia.

Lemma balance_take p live e : 0 < update_nodes p -> balance p live -> balance (take_node (convert e p)) (e :: live).
Proof. balance_solve. Qed.

Lemma balance_release p live e : balance p (e :: live) -> balance (release e p) live.
Proof. balance_solve. Qed.

Lemma balance_lose p live es : balance p (es ++ live) -> balance (lose es p) live.
Proof. balance_solve. Qed.

Lemma balance_orphan p live e : balance p live -> balance (orphan e (convert e p)) live.
Proof. balance_solve. Qed.

Lemma balance_snoc p live e : balance p (e :: live) -> balance p (live ++ [e]).
Proof. balance_solve. Qed.

Lemma balance_swap p live e e' : balance p (e :: e' :: live) -> balance p (e' :: e :: live).
Proof. balance_solve. Qed.

Lemma balance_release_all p es live : balance p (es ++ live) -> balance (release_all es p) live.
Proof.
  revert p. induction es as [|e es IH]; intros p Hp; [done|]. cbn. apply IH, balance_release, Hp.
Qed.

Lemma balance_lose_all p es : balance p es -> balance (lose es p) [].
Proof. intros Hp. apply balance_lose. by rewrite app_nil_r. Qed.

(** The pools are balanced by the buffer, which is short and empty unless the
    recorder waits for a snapshot. *)
Definition inv (b : Broker) : Prop :=
  balance (pools b) (buffered_events_ b) /\ zlen (buffered_events_ b) <= kMaxBufferedEvents /\
  (state_ b <> kBuffering -> buffered_events_ b = []).

Lemma inv_empty b : balance (pools b) [] -> buffered_events_ b = [] -> inv b.
Proof. unfold inv. intros Hb ->. done. Qed.

Lemma retry_fields b :
  pools (retry b).1 = pools b /\ buffered_events_ (retry b).1 = buffered_events_ b /\ state_ (retry b).1 = state_ b.
Proof. unfold retry. by case_match. Qed.

Lemma recover_inv b : balance (pools b) (buffered_events_ b) ->
  state_ b <> kBuffering -> inv (recover_from_gap b).
Proof.
  intros Hb Hs. unfold recover_from_gap. rewrite bool_decide_eq_false_2 by done. cbn.
  apply inv_empty; [by apply balance_lose_all | done].
Qed.

Section Accounting.
Context (ty : MarketType).

Lemma apply_buffered_balance first events b :
  balance (pools b) events -> state_ b <> kBuffering ->
  let '(b', finished) := apply_buffered ty first events b in
  balance (pools b') [] /\ (finished = false -> buffered_events_ b' = []).
Proof.
  revert first b. induction events as [|e events IH]; intros first b Hb Hs; cbn [apply_buffered]; [done|].
  set (r := if first then _ else _). destruct (valid r); [by apply IH; [apply balance_release|]|].
  set (b1 := set_buffer [] _ _). destruct (retry_fields b1) as (Hp & Hbuf & Hst).
  assert (H1 : balance (pools (retry b1).1) (buffered_events_ (retry b1).1)) by (rewrite Hp, Hbuf; by apply balance_lose_all).
  destruct (retry b1) as [b2 again]. cbn [fst] in *. destruct again.
  - destruct (recover_inv b2) as (H2 & _ & _); [done | by rewrite Hst |]. revert H2. unfold recover_from_gap.
    rewrite bool_decide_eq_false_2 by (by rewrite Hst). by cbn.
  - rewrite Hbuf in *. done.
Qed.

Lemma apply_snapshot_inv e b : balance (pools b) (e :: buffered_events_ b) -> inv (apply_snapshot ty e b).
Proof.
  intros Hb. unfold apply_snapshot. set (b1 := on_pools _ _).
  pose proof (apply_buffered_balance true (buffered_events_ b1) b1) as H.
  assert (Hb1 : balance (pools b1) (buffered_events_ b1)) by (by apply balance_release).
  destruct (apply_buffered ty true _ b1) as [b2 []]; (destruct H as [H1 H2]; [exact Hb1 | done |]);
    (apply inv_empty; [exact H1 |]); [done | by apply H2].
Qed.

Lemma erase_front_eq id es b :
  erase_front id es b =
    set_buffer (MarketConsumer.erase_buffer id es).2 (first_buffered_update_id_ b)
      (set_pools (release_all (MarketConsumer.erase_buffer id es).1 (pools b)) b).
Proof.
  revert b. induction es as [|e es IH]; intros b; cbn; [by destruct b|].
  case_match; [|by destruct b]. rewrite IH. by destruct (MarketConsumer.erase_buffer id es).
Qed.

Lemma erase_buffer_app id es : es = (MarketConsumer.erase_buffer id es).1 ++ (MarketConsumer.erase_buffer id es).2.
Proof.
  induction es as [|e es IH]; cbn; [done|]. case_match; [|done].
  destruct (MarketConsumer.erase_buffer id es). cbn in *. by rewrite IH at 1.
Qed.

Lemma erase_pools id b :
  let b' := erase_buffer_lower_than_snapshot id b in
  pools b' = release_all (MarketConsumer.erase_buffer id (buffered_events_ b)).1 (pools b) /\
  buffered_events_ b' = (MarketConsumer.erase_buffer id (buffered_events_ b)).2.
Proof.
  unfold erase_buffer_lower_than_snapshot. rewrite erase_front_eq. cbn [buffered_events_ set_buffer set_pools pools].
  by destruct (MarketConsumer.erase_buffer id (buffered_events_ b)) as [er []].
Qed.

Lemma erase_balance id b live :
  balance (pools b) (live ++ buffered_events_ b) ->
  balance (pools (erase_buffer_lower_than_snapshot id b)) (live ++ buffered_events_ (erase_buffer_lower_than_snapshot id b)).
Proof.
  intros Hb. destruct (erase_pools id b) as [-> ->]. rewrite (erase_buffer_app id (buffered_events_ b)) in Hb.
  apply balance_release_all. revert Hb. balance_solve.
Qed.

Lemma on_snapshot_inv e b : inv b -> inv (on_snapshot ty e b).
Proof.
  intros (Hb & Hlen & Hempty). unfold on_snapshot. cbn [pools on_pools set_pools convert update_nodes].
  case_match; zprop.
  - set (b1 := set_buffer [] 0 _). destruct (retry_fields b1) as (Hp & Hbuf & _).
    assert (H1 : inv (retry b1).1).
    { apply inv_empty; [|by rewrite Hbuf]. rewrite Hp. apply balance_release_all. rewrite app_nil_r. by apply balance_orphan. }
    destruct (retry b1) as [b2 []]; exact H1.
  - set (b1 := on_pools take_node _).
    assert (H1 : balance (pools b1) (e :: buffered_events_ b1)) by (apply balance_take; [lia | exact Hb]).
    case_bool_decide as Hs; [|by apply apply_snapshot_inv]. case_match.
    + set (b2 := on_pools (lose [e]) b1). destruct (retry_fields b2) as (Hp & Hbuf & Hst).
      assert (H2 : inv (retry b2).1).
      { unfold inv. rewrite Hp, Hbuf, Hst. split; [|split]; [by apply (balance_lose _ _ [e]) | done | done]. }
      destruct (retry b2) as [b3 []]; exact H2.
    + apply apply_snapshot_inv. by apply (erase_balance (end_idx e) (set_retry 0 b1) [e]).
Qed.

Ltac len_solve :=
  unfold kMaxBufferedEvents in *; rewrite ?zlen_app, ?zlen_cons in *; change (zlen (@nil Event)) with 0 in *; lia.

Lemma buffer_event_inv e b :
  state_ b = kBuffering -> zlen (buffered_events_ b) <= kMaxBufferedEvents ->
  balance (pools b) (e :: buffered_events_ b) -> inv (buffer_event e b).
Proof.
  intros Hs Hlen Hb. unfold buffer_event. case_match; [by split; [apply balance_release|]|].
  set (b1 := if first_buffered_update_id_ b =? 0 then _ else b).
  assert (H1 : pools b1 = pools b /\ buffered_events_ b1 = buffered_events_ b /\ state_ b1 = kBuffering) by (unfold b1; by case_match).
  destruct H1 as (Hp & Hbuf & Hst). rewrite Hbuf. unfold kMaxBufferedEvents in *. case_match; zprop.
  - destruct (buffered_events_ b) as [|o rest] eqn:E; [done|]. rewrite zlen_cons in *.
    assert (H2 : balance (release o (pools b1)) (rest ++ [e])).
    { apply balance_snoc, balance_release, balance_swap. by rewrite Hp. }
    destruct rest as [|fr rest]; unfold inv; cbn [pools buffered_events_ state_ set_buffer on_pools set_pools];
      (split; [exact H2 | split; [len_solve | done]]).
  - unfold inv; cbn [pools buffered_events_ state_ set_buffer]. rewrite Hp, Hbuf.
    split; [by apply balance_snoc | split; [len_solve | done]].
Qed.

Lemma on_subscribe_inv raw e b b' : inv b -> on_subscribe ty raw e b = Some b' -> inv b'.
Proof.
  intros (Hb & Hlen & Hempty). unfold on_subscribe. cbn [pools on_pools set_pools convert update_nodes on_link set_link].
  case_match; zprop; [done|]. set (b1 := on_pools take_node _).
  assert (H1 : balance (pools b1) (e :: buffered_events_ b1)) by (apply balance_take; [cbn in *; lia | exact Hb]).
  case_bool_decide as Hs; [intros [= <-]; by apply buffer_event_inv|].
  assert (H0 : buffered_events_ b1 = []) by (apply Hempty, Hs). rewrite H0 in H1.
  case_bool_decide; [|intros [= <-]; apply inv_empty; [by apply balance_release | exact H0]].
  set (r := if first_depth_after_snapshot_ b1 then _ else _).
  destruct (valid r); cbn [negb]; intros [= <-]; apply inv_empty.
  - by apply balance_release.
  - exact H0.
  - unfold recover_from_gap. cbn [state_ set_first_depth]. rewrite bool_decide_eq_false_2 by done.
    apply balance_release, balance_lose. cbn [buffered_events_ set_state set_first_depth]. rewrite H0. exact H1.
  - unfold recover_from_gap. cbn [state_ set_first_depth]. by rewrite bool_decide_eq_false_2.
Qed.

Lemma recorder_step_inv i b b' : inv b -> step ty i b = Some b' -> inv b'.
Proof.
  intros Hb. unfold step. destruct (stopped b); [by intros [= <-]|].
  destruct i as [|e|raw e| |]; [intros [= <-] | intros [= <-] | | intros [= <-]; exact Hb | intros [= <-]; exact Hb].
  - apply inv_empty; [|done]. apply balance_lose_all, Hb.
  - by apply on_snapshot_inv.
  - by apply on_subscribe_inv.
Qed.

Lemma run_inv inputs b b' : inv b -> run ty inputs b = Some b' -> inv b'.
Proof.
  revert b. induction inputs as [|i inputs IH]; intros b Hb; cbn; [by intros [= <-]|].
  destruct (step ty i b) as [b1|] eqn:E; [|done]. cbn. apply IH. by eapply recorder_step_inv.
Qed.

Lemma recorder_new_inv results : inv (new_broker results).
Proof. apply inv_empty; done. Qed.

(** No node of the pools is unaccounted for.  After any messages, the free
    nodes of the two pools, those of the buffered events, and those of the
    events that were dropped without being returned make up the pools; the
    buffer holds at most ten events and none while the stream is live. *)
Theorem recorder_nodes_accounted results inputs b :
  run ty inputs (new_broker results) = Some b ->
  update_nodes (pools b) + zlen (buffered_events_ b) + zlen (lost (pools b)) = kMarketUpdateDataMemoryPoolSize /\
  entry_nodes (pools b) + entries (buffered_events_ b) + entries (lost (pools b)) + entries (orphans (pools b)) = kMemoryPoolSize /\
  zlen (buffered_events_ b) <= kMaxBufferedEvents /\
  (state_ b <> kBuffering -> buffered_events_ b = []).
Proof. intros ((_ & H1 & H2) & H3 & H4)%run_inv; [by repeat split | apply recorder_new_inv]. Qed.

(** The recorder fails on a message exactly when the pool of events is empty,
    and then at least 1014 of its 1024 nodes were dropped by its own handlers. *)
Theorem recorder_fails_by_leaks results inputs b raw e :
  run ty inputs (new_broker results) = Some b ->
  (on_subscribe ty raw e b = None <-> update_nodes (pools b) = 0) /\
  (on_subscribe ty raw e b = None -> 1014 <= zlen (lost (pools b))).
Proof.
  intros (Hb & Hlen & _)%run_inv; [|apply recorder_new_inv]. destruct Hb as (H0 & H1 & _).
  assert (Hiff : on_subscribe ty raw e b = None <-> update_nodes (pools b) = 0).
  { unfold on_subscribe. cbn [pools on_pools set_pools convert update_nodes on_link set_link].
    case_match; zprop; [split; [lia | done]|]. split; [|lia]. repeat case_match; done. }
  split; [exact Hiff|]. rewrite Hiff. unfold kMarketUpdateDataMemoryPoolSize, kMaxBufferedEvents in *. lia.
Qed.

End Accounting.
(** ** The recorder and the consumer

    The recorder's handlers were copied from the consumer.  They differ in what
    they do with an accepted event and in the number they keep as the first
    buffered one, which is only looked at while buffering. *)

Section Simulation.
Context (ty : MarketType).

Definition sim_core (k : Z) (b : Broker) (m : MarketConsumer.Consumer) : Prop :=
  state_ b = MarketConsumer.state_ m /\ update_index_ b = MarketConsumer.update_index_ m /\
  retry_count_ b = MarketConsumer.retry_count_ m /\ buffered_events_ b = MarketConsumer.buffered_events_ m /\
  first_depth_after_snapshot_ b = MarketConsumer.first_depth_after_snapshot_ m /\
  stopped b = MarketConsumer.stopped m /\ applied b = MarketConsumer.log m /\
  MarketConsumer.dropped m = [] /\ k <= MarketConsumer.room m.

(** [k] slots of the trade engine's queue are free. *)
Definition sim (k : Z) (b : Broker) (m : MarketConsumer.Consumer) : Prop :=
  sim_core k b m /\
  (state_ b = kBuffering -> first_buffered_update_id_ b = MarketConsumer.first_buffered_update_id_ m).

Lemma sim_weaken k k' b m : k' <= k -> sim k b m -> sim k' b m.
Proof. unfold sim, sim_core. intuition lia. Qed.

Lemma advance_sim k i index b m :
  0 <= k -> sim (k + 1) b m ->
  sim k (advance i index b) (MarketConsumer.on_market_data_fn i (MarketConsumer.set_index index m)).
Proof.
  intros Hk ((H1 & H2 & H3 & H4 & H5 & H6 & H7 & H8 & H9) & H10). unfold MarketConsumer.on_market_data_fn.
  cbn [MarketConsumer.room MarketConsumer.set_index]. rewrite (proj2 (Z.ltb_lt _ _)) by lia.
  split; [|exact H10]. unfold sim_core. cbn. rewrite H7. intuition lia.
Qed.

Lemma retry_sim k b m :
  sim k b m -> sim k (retry b).1 (MarketConsumer.retry m).1 /\ (retry b).2 = (MarketConsumer.retry m).2.
Proof.
  intros ((H1 & H2 & H3 & H4 & H5 & H6 & H7 & H8 & H9) & H10). unfold retry, MarketConsumer.retry.
  cbn [retry_count_ set_retry MarketConsumer.retry_count_ MarketConsumer.set_retry]. rewrite H3.
  change MarketConsumer.kMaxRetries with kMaxRetries.
  case_match; (split; [|done]); (split; [|exact H10]); unfold sim_core; cbn; by repeat split.
Qed.

Lemma recover_sim k b m : sim k b m -> sim k (recover_from_gap b) (MarketConsumer.recover_from_gap m).
Proof.
  intros ((H1 & H2 & H3 & H4 & H5 & H6 & H7 & H8 & H9) & H10).
  unfold recover_from_gap, MarketConsumer.recover_from_gap. rewrite <-H1. case_bool_decide; [by split|].
  split; [unfold sim_core; cbn; by repeat split | done].
Qed.

Lemma clear_sim k b m :
  sim k b m ->
  sim k (set_buffer [] (first_buffered_update_id_ b) b)
    (MarketConsumer.set_buffer [] (MarketConsumer.first_buffered_update_id_ m) m).
Proof. unfold sim, sim_core. cbn. intuition. Qed.

Lemma apply_buffered_sim first events b m k :
  0 <= k -> sim (k + zlen events) b m ->
  sim k (apply_buffered ty first events b).1 (MarketConsumer.apply_buffered ty first events m).1 /\
  (apply_buffered ty first events b).2 = (MarketConsumer.apply_buffered ty first events m).2.
Proof.
  intros Hk. revert first b m. induction events as [|e events IH]; intros first b m Hs.
  { split; [|done]. eapply sim_weaken; [|exact Hs]. unfold zlen. cbn. lia. }
  rewrite zlen_cons in Hs. pose proof (zlen_nonneg events) as Hlen.
  cbn [apply_buffered MarketConsumer.apply_buffered].
  assert (Hi : update_index_ b = MarketConsumer.update_index_ m) by apply Hs. rewrite <-Hi.
  set (r := if first then _ else _). destruct (valid r).
  - apply IH. apply (advance_sim _ (Update e) (new_update_index r) b m); [lia|].
    eapply sim_weaken; [|exact Hs]. lia.
  - set (b1 := set_buffer [] _ _). set (m1 := MarketConsumer.set_buffer [] _ m).
    assert (H1 : sim k b1 m1).
    { apply (clear_sim k (on_pools (lose (e :: events)) b) m). eapply sim_weaken; [|exact Hs]. lia. }
    destruct (retry_sim k b1 m1 H1) as [H2 Ha]. destruct (retry b1) as [b2 again], (MarketConsumer.retry m1) as [m2 again'].
    cbn [fst snd] in *. subst again'. split; [|done]. destruct again; [by apply recover_sim | done].
Qed.

Lemma apply_snapshot_sim k e b m :
  0 <= k -> sim_core (k + 1 + zlen (buffered_events_ b)) b m ->
  sim k (apply_snapshot ty e b) (MarketConsumer.apply_snapshot ty e m).
Proof.
  intros Hk Hs. unfold apply_snapshot, MarketConsumer.apply_snapshot.
  pose proof (zlen_nonneg (buffered_events_ b)) as Hlen.
  set (b0 := set_state kApplyingSnapshot b). set (m0 := MarketConsumer.set_state _ m).
  assert (H0 : sim (k + zlen (buffered_events_ b) + 1) b0 m0).
  { split; [|done]. revert Hs. unfold sim_core. cbn. intuition lia. }
  apply (advance_sim _ (Snapshot e) (end_idx e)) in H0; [|lia].
  set (m1 := MarketConsumer.on_market_data_fn _ _) in *. set (b1 := on_pools _ _).
  assert (H1 : sim (k + zlen (buffered_events_ b)) b1 m1) by exact H0.
  assert (Hbuf : MarketConsumer.buffered_events_ m1 = buffered_events_ b1) by (symmetry; apply H1). rewrite Hbuf.
  destruct (apply_buffered_sim true (buffered_events_ b1) b1 m1 k Hk H1) as [H2 Ha].
  destruct (apply_buffered ty true _ b1) as [b2 fin], (MarketConsumer.apply_buffered ty true _ m1) as [m2 fin'].
  cbn [fst snd] in *. subst fin'. destruct fin; [|done].
  split; [|done]. destruct H2 as [H2 _]. revert H2. unfold sim_core. cbn. intuition.
Qed.

Lemma erase_sim k id b m :
  sim_core k b m ->
  sim_core k (erase_buffer_lower_than_snapshot id b) (MarketConsumer.erase_buffer_lower_than_snapshot id m).
Proof.
  intros Hs. assert (Hbuf : buffered_events_ b = MarketConsumer.buffered_events_ m) by apply Hs.
  unfold erase_buffer_lower_than_snapshot, MarketConsumer.erase_buffer_lower_than_snapshot.
  rewrite erase_front_eq, <-Hbuf. cbn [buffered_events_ set_buffer].
  destruct (MarketConsumer.erase_buffer id (buffered_events_ b)) as [er [|fr kept]]; cbn [fst snd];
    revert Hs; unfold sim_core; cbn; intuition.
Qed.

Lemma on_snapshot_sim e b m :
  inv b -> sim 16 b m -> sim 0 (on_snapshot ty e b) (MarketConsumer.on_snapshot ty (0 <? update_nodes (pools b)) e m).
Proof.
  intros (_ & Hlen & _) Hs. unfold on_snapshot, MarketConsumer.on_snapshot.
  cbn [pools on_pools set_pools convert update_nodes]. rewrite Z.leb_antisym.
  destruct (0 <? update_nodes (pools b)) eqn:Ha; cbn [negb].
  - set (b1 := on_pools take_node _). assert (H1 : sim 16 b1 m) by exact Hs.
    assert (Hst : state_ b1 = MarketConsumer.state_ m) by apply Hs. rewrite Hst.
    assert (Hl1 : zlen (buffered_events_ b1) <= 10) by exact Hlen.
    case_bool_decide as Hbuf.
    + rewrite (proj2 H1) by congruence. case_match.
      * destruct (retry_sim 16 (on_pools (lose [e]) b1) m H1) as [H2 Hr].
        destruct (retry (on_pools _ b1)) as [b2 again], (MarketConsumer.retry m) as [m2 again']. cbn [fst snd] in *. subst again'.
        apply (sim_weaken 16); [done|]. by destruct again.
      * apply apply_snapshot_sim; [done|]. set (b2 := set_retry 0 b1).
        assert (Hl2 : zlen (buffered_events_ (erase_buffer_lower_than_snapshot (end_idx e) b2)) <= 10).
        { destruct (erase_pools (end_idx e) b2) as [_ ->]. change (buffered_events_ b2) with (buffered_events_ b1).
          rewrite (erase_buffer_app (end_idx e) (buffered_events_ b1)), zlen_app in Hl1.
          pose proof (zlen_nonneg (MarketConsumer.erase_buffer (end_idx e) (buffered_events_ b1)).1). lia. }
        assert (H2 : sim_core 16 b2 (MarketConsumer.set_retry 0 m)) by (destruct H1 as [H1 _]; revert H1; unfold sim_core; cbn; intuition).
        apply (erase_sim 16 (end_idx e)) in H2. revert H2. unfold sim_core. intuition lia.
    + apply apply_snapshot_sim; [done|]. destruct H1 as [H1 _]. revert H1. unfold sim_core. intuition lia.
  - set (b1 := set_buffer [] 0 _). set (m1 := MarketConsumer.set_buffer [] 0 _).
    assert (H1 : sim 16 b1 m1) by (split; [|done]; destruct Hs as [H1 _]; revert H1; unfold sim_core; cbn; intuition).
    destruct (retry_sim 16 b1 m1 H1) as [H2 Hr].
    destruct (retry b1) as [b2 again], (MarketConsumer.retry m1) as [m2 again']. cbn [fst snd] in *. subst again'.
    apply (sim_weaken 16); [done|]. by destruct again.
Qed.

Lemma buffer_event_sim e b m : sim 0 b m -> state_ b = kBuffering -> sim 0 (buffer_event e b) (MarketConsumer.buffer_event e m).
Proof.
  intros Hs Hst. pose proof Hs as ((_ & _ & _ & Hbuf & _) & Hf). specialize (Hf Hst).
  unfold buffer_event, MarketConsumer.buffer_event. case_match; [exact Hs|]. rewrite <-Hf, <-Hbuf.
  assert (Hupd : forall b m es first, sim 0 b m -> sim 0 (set_buffer es first b) (MarketConsumer.set_buffer es first m)).
  { unfold sim, sim_core. cbn. intuition. }
  set (b1 := if first_buffered_update_id_ b =? 0 then _ else b). set (m1 := if first_buffered_update_id_ b =? 0 then _ else m).
  assert (H1 : sim 0 b1 m1 /\ state_ b1 = kBuffering) by (unfold b1, m1; case_match; split; [by apply Hupd | done | done | done]).
  destruct H1 as [H1 Hst1]. pose proof H1 as ((_ & _ & _ & Hbuf1 & _) & Hf1). rewrite <-Hbuf1, <-(Hf1 Hst1).
  change MarketConsumer.kMaxBufferedEvents with kMaxBufferedEvents.
  set (b2 := if kMaxBufferedEvents <=? _ then _ else b1). set (m2 := if kMaxBufferedEvents <=? _ then _ else m1).
  assert (H2 : sim 0 b2 m2 /\ state_ b2 = kBuffering).
  { unfold b2, m2. case_match; [|done]. destruct (buffered_events_ b1) as [|o [|fr rest]]; [done | |];
      (split; [|done]); revert H1; unfold sim, sim_core; cbn; intuition. }
  destruct H2 as [H2 Hst2]. pose proof H2 as ((_ & _ & _ & Hbuf2 & _) & Hf2). rewrite <-Hbuf2, <-(Hf2 Hst2). by apply Hupd.
Qed.

Lemma on_subscribe_sim raw e b m b' :
  sim 16 b m -> on_subscribe ty raw e b = Some b' ->
  exists m', MarketConsumer.on_subscribe ty true e m = Some m' /\ sim 0 b' m'.
Proof.
  intros Hs. unfold on_subscribe, MarketConsumer.on_subscribe. cbn [pools on_pools set_pools convert update_nodes on_link set_link negb].
  case_match; [done|]. set (b1 := on_pools take_node _). assert (H1 : sim 16 b1 m) by exact Hs.
  pose proof H1 as ((Hst & Hi & _ & _ & Hfd & _) & _). rewrite <-Hst, <-Hi, <-Hfd.
  case_bool_decide as Hbuf.
  { intros [= <-]. eexists. split; [done|]. apply buffer_event_sim; [|done]. by eapply sim_weaken; [|exact H1]. }
  case_bool_decide as Ht.
  - set (r := if first_depth_after_snapshot_ b1 then _ else _).
    assert (H2 : sim 16 (set_first_depth false b1) (MarketConsumer.set_first_depth false m)).
    { revert H1. unfold sim, sim_core. cbn. intuition. }
    destruct (valid r); cbn [negb]; intros [= <-]; (eexists; split; [done|]).
    + apply (advance_sim 0 (Update e)); [done|]. by eapply sim_weaken; [|exact H2].
    + apply (sim_weaken 16); [done|]. apply recover_sim in H2. exact H2.
  - intros [= <-]. eexists. split; [done|]. unfold pass. rewrite Hi.
    assert (H2 : sim 1 b1 m) by (by eapply sim_weaken; [|exact H1]).
    apply (advance_sim 0 (Update e) (MarketConsumer.update_index_ m)) in H2; [|done]. by destruct m.
Qed.

Definition wf_input (i : Input) : Prop :=
  match i with
  | SnapshotMessage e | StreamMessage _ e => MarketConsumer.wf_event e
  | _ => True
  end.

(** Between two messages the trade engine has emptied its queue. *)
Lemma drain_sim b m : sim 0 b m -> sim 16 b (MarketConsumer.drain 16 m).
Proof. unfold sim, sim_core. cbn. intuition lia. Qed.

Lemma step_sim i b b' m :
  wf_input i -> inv b -> MarketConsumer.reachable ty m -> sim 0 b m -> step ty i b = Some b' ->
  exists m', MarketConsumer.reachable ty m' /\ sim 0 b' m'.
Proof.
  intros Hw Hinv Hr Hs. unfold step. destruct (stopped b) eqn:Estop; [intros [= <-]; by exists m|].
  apply drain_sim in Hs. apply (MarketConsumer.reach_drain ty m 16) in Hr; [|done].
  set (m1 := MarketConsumer.drain 16 m) in *. clearbody m1.
  assert (Hst : MarketConsumer.stopped m1 = false) by (rewrite <-Estop; symmetry; apply Hs).
  destruct i as [|e|raw e| |].
  - intros [= <-]. exists (MarketConsumer.on_login m1). split; [by apply MarketConsumer.reach_login|].
    revert Hs. unfold sim, sim_core. cbn. intuition lia.
  - intros [= <-]. eexists. split; [by eapply (MarketConsumer.reach_snapshot ty m1 (0 <? update_nodes (pools b)) e)|].
    by apply on_snapshot_sim.
  - intros E. destruct (on_subscribe_sim raw e b m1 b' Hs E) as (m' & E' & Hs').
    exists m'. split; [|done]. by eapply MarketConsumer.reach_subscribe.
  - intros [= <-]. exists m1. split; [done|]. by eapply (sim_weaken 16 0).
  - intros [= <-]. exists m1. split; [done|]. by eapply (sim_weaken 16 0).
Qed.

Lemma run_sim inputs b b' m :
  Forall wf_input inputs -> inv b -> MarketConsumer.reachable ty m -> sim 0 b m -> run ty inputs b = Some b' ->
  exists m', MarketConsumer.reachable ty m' /\ sim 0 b' m'.
Proof.
  intros Hw. revert b m. induction Hw as [|i inputs Hi _ IH]; intros b m Hinv Hr Hs; cbn.
  { intros [= <-]. by exists m. }
  destruct (step ty i b) as [b1|] eqn:E; [|done]. cbn.
  destruct (step_sim i b b1 m Hi Hinv Hr Hs E) as (m1 & Hr1 & Hs1). eapply IH; [|exact Hr1 | exact Hs1]. by eapply recorder_step_inv.
Qed.

Lemma new_sim results : sim 0 (new_broker results) (MarketConsumer.new_consumer 0).
Proof. by repeat split. Qed.

(** C29: the recorder follows the stream as the consumer of the trading program
    does.  For every sequence of messages there is a history of the consumer that
    leads to the same state, update index, retry count and buffer, and whose
    deliveries are the events the recorder accepted. *)
Theorem recorder_follows_consumer results inputs b :
  Forall wf_input inputs -> run ty inputs (new_broker results) = Some b ->
  exists m, MarketConsumer.reachable ty m /\
    state_ b = MarketConsumer.state_ m /\ update_index_ b = MarketConsumer.update_index_ m /\
    retry_count_ b = MarketConsumer.retry_count_ m /\ buffered_events_ b = MarketConsumer.buffered_events_ m /\
    first_depth_after_snapshot_ b = MarketConsumer.first_depth_after_snapshot_ m /\
    stopped b = MarketConsumer.stopped m /\ applied b = MarketConsumer.log m.
Proof.
  intros Hw Hrun. destruct (run_sim inputs (new_broker results) b (MarketConsumer.new_consumer 0))
    as (m & Hr & (H1 & H2 & H3 & H4 & H5 & H6 & H7 & _) & _); [done | apply recorder_new_inv | constructor | apply new_sim | done |].
  by exists m.
Qed.

(** The events the recorder accepted form a stream without a gap that ends at
    its update index, for every sequence of messages and every result of its
    sends. *)
Theorem recorder_stream_gap_free results inputs b :
  Forall wf_input inputs -> run ty inputs (new_broker results) = Some b ->
  MarketConsumer.follow ty 0 (applied b) = Some (update_index_ b).
Proof.
  intros Hw Hrun. destruct (run_sim inputs (new_broker results) b (MarketConsumer.new_consumer 0))
    as (m & Hr & (_ & H2 & _ & _ & _ & _ & H7 & H8 & _) & _); [done | apply recorder_new_inv | constructor | apply new_sim | done |].
  rewrite H2, H7. apply MarketConsumer.reachable_ok in Hr as [[_ Hf] _]. by apply Hf.
Qed.

End Simulation.
(** ** Where the recorder loses nodes *)

(** A snapshot older than the buffer is dropped with its node and entries. *)
Theorem stale_snapshot_leaks ty e b :
  state_ b = kBuffering -> 0 < update_nodes (pools b) -> end_idx e < first_buffered_update_id_ b ->
  pools (on_snapshot ty e b) = mkPools (update_nodes (pools b) - 1) (entry_nodes (pools b) - zlen (data e))
    (lost (pools b) ++ [e]) (orphans (pools b)) /\
  buffered_events_ (on_snapshot ty e b) = buffered_events_ b /\ state_ (on_snapshot ty e b) = kBuffering.
Proof.
  intros Hs Hn Hst. unfold on_snapshot. cbn [pools on_pools set_pools convert update_nodes state_ first_buffered_update_id_].
  rewrite (proj2 (Z.leb_gt _ _)), bool_decide_eq_true_2, (proj2 (Z.ltb_lt _ _)) by done.
  set (b1 := on_pools (lose [e]) _). destruct (retry_fields b1) as (Hp & Hb & Hst1).
  destruct (retry b1) as [b2 []]; cbn [fst] in *; rewrite <-?Hs; repeat split; (exact Hp || exact Hb || exact Hst1).
Qed.

(** An event is buffered, two snapshots are too old, the third is applied, and
    the next live event shows a gap. *)
Definition stale_cycle : list Input :=
  let depth s e := mkEvent s e 0 MDMarket [] in
  [StreamMessage [] (depth 100 101); SnapshotMessage (depth 0 50); SnapshotMessage (depth 0 60);
   SnapshotMessage (depth 0 100); StreamMessage [] (depth 500 501)].

(** A buffered event, an old snapshot and another event. *)
Definition last_cycle : list Input :=
  let depth s e := mkEvent s e 0 MDMarket [] in
  [StreamMessage [] (depth 100 101); SnapshotMessage (depth 0 50); StreamMessage [] (depth 102 103)].

(** After 511 such cycles two nodes are left, since the retry count never reaches
    its limit and each cycle drops two; one more old snapshot ends the recorder
    with the next event. *)
Theorem recorder_runs_out :
  (exists b, run kSpot (Login :: concat (replicate 511 stale_cycle)) (new_broker []) = Some b /\
    update_nodes (pools b) = 2 /\ zlen (lost (pools b)) = 1022 /\ stopped b = false) /\
  run kSpot (Login :: concat (replicate 511 stale_cycle) ++ last_cycle) (new_broker []) = None.
Proof.
  split; [|vm_compute; reflexivity].
  destruct (run kSpot (Login :: concat (replicate 511 stale_cycle)) (new_broker [])) as [b|] eqn:E.
  - exists b. split; [done|]. revert E. vm_compute. by intros [= <-].
  - revert E. vm_compute. done.
Qed.

Section Retries.
Context (ty : MarketType).

Lemma apply_buffered_stopped first events b :
  retry_count_ b = 0 \/ events = [] -> stopped (apply_buffered ty first events b).1 = stopped b.
Proof.
  intros [Hr| ->]; [|done]. revert first b Hr. induction events as [|e events IH]; intros first b Hr; [done|].
  cbn [apply_buffered]. set (r := if first then _ else _). destruct (valid r); [by rewrite IH|].
  unfold retry. cbn [retry_count_ set_retry set_buffer on_pools set_pools]. rewrite Hr. cbn [fst].
  change (kMaxRetries <=? 0 + 1) with false. cbn [fst]. unfold recover_from_gap. by case_bool_decide.
Qed.

Lemma apply_snapshot_stopped e b :
  retry_count_ b = 0 \/ buffered_events_ b = [] -> stopped (apply_snapshot ty e b) = stopped b.
Proof.
  intros Hr. unfold apply_snapshot. set (b1 := on_pools _ _).
  pose proof (apply_buffered_stopped true (buffered_events_ b1) b1 Hr) as Hst.
  destruct (apply_buffered ty true _ b1) as [b2 []]; exact Hst.
Qed.

(** The limit of three retries does not hold for gaps in the buffer.  A
    snapshot that finds a node and is not older than the buffer never ends the
    program, however often the buffered events do not continue it. *)
Theorem buffered_gap_never_exits results inputs b e :
  run ty inputs (new_broker results) = Some b -> stopped b = false -> 0 < update_nodes (pools b) ->
  first_buffered_update_id_ b <= end_idx e ->
  stopped (on_snapshot ty e b) = false.
Proof.
  intros (_ & _ & Hempty)%run_inv Hs Hn Hf; [|apply recorder_new_inv].
  unfold on_snapshot. cbn [pools on_pools set_pools convert update_nodes state_ first_buffered_update_id_].
  rewrite (proj2 (Z.leb_gt _ _)) by done. case_bool_decide as Hb.
  - rewrite (proj2 (Z.ltb_ge _ _)) by done. rewrite apply_snapshot_stopped.
    + unfold erase_buffer_lower_than_snapshot. rewrite erase_front_eq. by case_match.
    + left. unfold erase_buffer_lower_than_snapshot. rewrite erase_front_eq. by case_match.
  - rewrite apply_snapshot_stopped; [done|]. right. by apply Hempty.
Qed.

End Retries.

(** ** Witnesses *)

Definition demo_depth (s e pu : Z) : Event := mkEvent s e pu MDMarket [].
Definition demo_inputs : list Input :=
  [Login; StreamMessage [65] (demo_depth 98 101 97); SnapshotMessage (demo_depth 0 100 0); StreamMessage [66] (demo_depth 102 105 101);
   StreamMessage [67] (demo_depth 200 201 199); StreamMessage [68] (demo_depth 202 203 201)].
Definition demo_broker : Broker := default (new_broker []) (run kSpot demo_inputs (new_broker [false; false; true])).

Lemma demo_run : run kSpot demo_inputs (new_broker [false; false; true]) = Some demo_broker.
Proof. by vm_compute. Qed.

Lemma recorder_nodes_accounted_witness :
  update_nodes (pools demo_broker) + zlen (buffered_events_ demo_broker) + zlen (lost (pools demo_broker)) = 1024 /\
  buffered_events_ demo_broker = [demo_depth 202 203 201].
Proof. split; [apply (recorder_nodes_accounted kSpot _ _ _ demo_run) | by vm_compute]. Defined.

Lemma recorder_fails_by_leaks_witness :
  on_subscribe kSpot [] (demo_depth 1 2 0) demo_broker = None <-> update_nodes (pools demo_broker) = 0.
Proof. apply (recorder_fails_by_leaks kSpot _ _ _ [] (demo_depth 1 2 0) demo_run). Defined.

Lemma demo_wf : Forall wf_input demo_inputs.
Proof. repeat constructor; vm_compute; congruence. Qed.

Lemma recorder_follows_consumer_witness :
  exists m, MarketConsumer.reachable kSpot m /\ MarketConsumer.log m =
    [Snapshot (demo_depth 0 100 0); Update (demo_depth 98 101 97); Update (demo_depth 102 105 101)].
Proof.
  destruct (recorder_follows_consumer kSpot _ _ _ demo_wf demo_run) as (m & Hr & _ & _ & _ & _ & _ & _ & Hl).
  exists m. split; [exact Hr|]. rewrite <-Hl. by vm_compute.
Defined.

Lemma recorder_stream_gap_free_witness : MarketConsumer.follow kSpot 0 (applied demo_broker) = Some 105.
Proof. rewrite (recorder_stream_gap_free kSpot _ _ _ demo_wf demo_run). by vm_compute. Defined.

Lemma stale_snapshot_leaks_witness : update_nodes (pools (on_snapshot kSpot (demo_depth 0 5 0) demo_broker)) = 1022.
Proof.
  destruct (stale_snapshot_leaks kSpot (demo_depth 0 5 0) demo_broker) as (-> & _ & _); by vm_compute.
Defined.

Lemma buffered_gap_never_exits_witness : stopped (on_snapshot kSpot (demo_depth 0 300 0) demo_broker) = false.
Proof. apply (buffered_gap_never_exits kSpot _ _ _ (demo_depth 0 300 0) demo_run); by vm_compute. Defined.

End Broker.

(** ** The FIX build *)

Module FixBroker.
Import Text.
Import MarketConsumer(StreamState, kRunning, kAwaitingSnapshot, kApplyingSnapshot, Event, end_idx, data).
Import Broker(Pools, convert, take_node, release, orphan, update_nodes, new_pools, Link, mkLink, sends, sent, records, send, send_until, record).

Record FixBroker := mkFixBroker {
  fix_state : StreamState;
  fix_update_index : Z;
  current_sequence_ : Z;
  fix_pools : Pools;
  fix_link : Link;
}.

Definition new_fix_broker (results : list bool) : FixBroker :=
  mkFixBroker kAwaitingSnapshot 0 0 new_pools (mkLink results 0 []).

(** One subscription, whose refusal is only logged. *)
Definition fix_on_login (b : FixBroker) : FixBroker :=
  mkFixBroker (fix_state b) (fix_update_index b) (current_sequence_ b) (fix_pools b) (send (fix_link b)).2.

(** Unsubscribe, then subscribe again. *)
Definition resubscribe (b : FixBroker) : FixBroker :=
  mkFixBroker (fix_state b) (fix_update_index b) (current_sequence_ b) (fix_pools b) (send_until (send_until (fix_link b))).

Definition fix_on_snapshot (e : Event) (b : FixBroker) : FixBroker :=
  let p := convert e (fix_pools b) in
  if update_nodes p <=? 0 then
    mkFixBroker (fix_state b) (fix_update_index b) (current_sequence_ b) (orphan e p) (fix_link b)
  else
    let b := mkFixBroker kApplyingSnapshot (end_idx e) (current_sequence_ b) (take_node p) (fix_link b) in
    mkFixBroker kRunning (fix_update_index b) (current_sequence_ b) (release e (fix_pools b)) (fix_link b).

(** [None]: the number of the message cannot be read and [std::stoull] throws. *)
Definition fix_on_subscribe (str_msg : list Z) (b : FixBroker) : option FixBroker :=
  let b := mkFixBroker (fix_state b) (fix_update_index b) (current_sequence_ b) (fix_pools b) (record str_msg (fix_link b)) in
  '(ok, next) ← FixSession.is_valid str_msg (current_sequence_ b);
  let b := mkFixBroker (fix_state b) (fix_update_index b) next (fix_pools b) (fix_link b) in
  Some (if ok : bool then b else resubscribe b).

Fixpoint fix_run (msgs : list (list Z)) (b : FixBroker) : option FixBroker :=
  match msgs with
  | [] => Some b
  | m :: msgs' => b' ← fix_on_subscribe m b; fix_run msgs' b'
  end.

(** ** Resubscriptions *)

(** The message carries the sequence number [n]. *)
Definition numbered (msg : list Z) (n : Z) : Prop :=
  exists before d after_, msg = before ++ FixSession.kMessageSequenceStartKeyword ++ d ++ FixSession.SOH :: after_ /\
    IniConfig.find FixSession.kMessageSequenceStartKeyword (before ++ FixSession.kMessageSequenceStartKeyword) = Some (length before) /\
    digits d /\ d <> [] /\ digits_value d < two64 /\ digits_value d = n.

(** Numbers that do not follow the one before them. *)
Fixpoint jumps (current : Z) (ns : list Z) : Z :=
  match ns with
  | [] => 0
  | n :: ns' => (if n =? u64 (current + 1) then 0 else 1) + jumps n ns'
  end.

Lemma send_loop_sent rs l : sent (Broker.send_loop rs l) = sent l + 1 /\ records (Broker.send_loop rs l) = records l.
Proof. revert l. induction rs as [|[] rs IH]; intros l; cbn; [done | done | apply IH]. Qed.

Lemma resubscribe_link b :
  sent (fix_link (resubscribe b)) = sent (fix_link b) + 2 /\ records (fix_link (resubscribe b)) = records (fix_link b) /\
  current_sequence_ (resubscribe b) = current_sequence_ b.
Proof.
  cbn. unfold send_until. destruct (send_loop_sent (sends (Broker.send_loop (sends (fix_link b)) (fix_link b))) (Broker.send_loop (sends (fix_link b)) (fix_link b))) as [-> ->].
  destruct (send_loop_sent (sends (fix_link b)) (fix_link b)) as [-> ->]. split; [lia | done].
Qed.

(** The FIX recorder logs every message and subscribes anew, with two
    requests, exactly as often as a sequence number does not follow the one
    before it, whatever the results of its sends. *)
Theorem fix_recorder_resubscribes msgs ns b :
  Forall2 numbered msgs ns ->
  exists b', fix_run msgs b = Some b' /\
    records (fix_link b') = records (fix_link b) ++ msgs /\
    sent (fix_link b') = sent (fix_link b) + 2 * jumps (current_sequence_ b) ns /\
    current_sequence_ b' = default (current_sequence_ b) (last ns).
Proof.
  intros Hn. revert b. induction Hn as [|m n msgs ns Hm _ IH]; intros b.
  { exists b. cbn. rewrite app_nil_r. repeat split; lia. }
  destruct Hm as (before & d & after_ & -> & Hf & Hd & Hne & Hv & <-). cbn [fix_run].
  set (msg := before ++ _). unfold fix_on_subscribe. cbn [fix_state fix_update_index current_sequence_ fix_pools fix_link].
  assert (Hok : FixSession.is_valid msg (current_sequence_ b) = Some (digits_value d =? u64 (current_sequence_ b + 1), digits_value d))
    by (by apply FixSession.sequence_number_checked).
  rewrite Hok. cbn [mbind option_bind].
  set (b1 := mkFixBroker _ _ (digits_value d) _ _).
  set (b2 := if digits_value d =? _ then b1 else resubscribe b1).
  assert (H2 : sent (fix_link b2) = sent (fix_link b) + 2 * (if digits_value d =? u64 (current_sequence_ b + 1) then 0 else 1) /\
    records (fix_link b2) = records (fix_link b) ++ [msg] /\ current_sequence_ b2 = digits_value d).
  { unfold b2. case_match; [cbn; repeat split; lia|]. destruct (resubscribe_link b1) as (-> & -> & ->). cbn. repeat split; lia. }
  clearbody b2. destruct H2 as (Hs & Hr & Hc), (IH b2) as (b' & -> & Hr' & Hs' & Hc'). exists b'.
  rewrite Hr', Hs', Hc', Hr, Hs, Hc, <-app_assoc. cbn [jumps app]. repeat split; [lia|].
  rewrite last_cons. by destruct (last ns).
Qed.

Definition demo_message (n : string) : list Z := codes "8=FIX.4.4 34=" ++ codes n ++ FixSession.SOH :: codes "52=x".

Lemma demo_numbered n : digits (codes n) -> codes n <> [] -> digits_value (codes n) < two64 ->
  numbered (demo_message n) (digits_value (codes n)).
Proof. intros. exists (codes "8=FIX.4.4 "), (codes n), (codes "52=x"). by repeat split. Qed.

Lemma fix_recorder_resubscribes_witness :
  exists b', fix_run [demo_message "1"; demo_message "2"; demo_message "7"; demo_message "8"] (new_fix_broker [false; true]) = Some b' /\
    sent (fix_link b') = 2.
Proof.
  destruct (fix_recorder_resubscribes [demo_message "1"; demo_message "2"; demo_message "7"; demo_message "8"] [1; 2; 7; 8]
    (new_fix_broker [false; true])) as (b' & Hb & _ & Hs & _).
  - repeat constructor; apply demo_numbered; try done; repeat constructor; vm_compute; congruence.
  - exists b'. split; [exact Hb | exact Hs].
Defined.

End FixBroker.
