(* ===== verification/Logger.v ===== *)
(** * Logger (src/hft/common/logger.h, logger.cpp)

    [LogText]: levels and the line of a message with its time stamp.
    [FileSink]: the file sink and its rotation, on a file system that maps names
    to contents.  [Logger]: producers, the queue, the worker and the shutdown, as
    steps in any order.  The queue is a third-party library: what is used of it is
    that each producer has a stream of its own, first in, first out, and that a
    failed [try_dequeue] has found every stream empty when it looked at it. *)

From S2P Require Import Prelude FixedPoint Text.

Module LogText.
Import FixedPoint Text.

(** ** Levels *)

Inductive LogLevel := kTrace | kDebug | kInfo | kWarn | kError | kFatal | kNone.

#[global] Instance LogLevel_eq_dec : EqDecision LogLevel.
Proof. solve_decision. Defined.

Definition level_num (l : LogLevel) : Z :=
  match l with kTrace => 0 | kDebug => 1 | kInfo => 2 | kWarn => 3 | kError => 4 | kFatal => 5 | kNone => 6 end.

Definition string_to_level (level : string) : LogLevel :=
  if String.eqb level "TRACE" then kTrace
  else if String.eqb level "DEBUG" then kDebug
  else if String.eqb level "INFO" then kInfo
  else if String.eqb level "WARN" then kWarn
  else if String.eqb level "ERROR" then kError
  else if String.eqb level "FATAL" then kFatal
  else kNone.

Definition level_to_string (level : LogLevel) : string :=
  match level with
  | kTrace => "TRACE" | kDebug => "DEBUG" | kInfo => "INFO" | kWarn => "WARN" | kError => "ERROR" | kFatal => "FATAL"
  | kNone => "NONE"
  end.

Lemma level_names_read_back l : string_to_level (level_to_string l) = l.
Proof. by destruct l. Qed.

(** ** The calendar ([gmtime_r]) *)

Record Tm := mkTm { tm_year : Z; tm_mon : Z; tm_mday : Z; tm_hour : Z; tm_min : Z; tm_sec : Z }.

(** Year, month and day of a day of the 400-year era that starts on 1 March. *)
Definition civil_of_era_day (doe : Z) : Z * Z * Z :=
  let yoe := (doe - doe / 1460 + doe / 36524 - doe / 146096) / 365 in
  let doy := doe - (365 * yoe + yoe / 4 - yoe / 100) in
  let mp := (5 * doy + 2) / 153 in
  let d := doy - (153 * mp + 2) / 5 + 1 in
  let m := if mp <? 10 then mp + 3 else mp - 9 in
  (if m <=? 2 then yoe + 1 else yoe, m, d).

Definition days_before_1970 : Z := 719468.
Definition days_per_era : Z := 146097.

(** Seconds since 1970; [tm_year] counts from 1900 and [tm_mon] from 0. *)
Definition gmtime_r (sec : Z) : Tm :=
  let z := sec / 86400 + days_before_1970 in
  let '(y, m, d) := civil_of_era_day (z mod days_per_era) in
  let s := sec mod 86400 in
  mkTm (y + 400 * (z / days_per_era) - 1900) (m - 1) d (s / 3600) (s mod 3600 / 60) (s mod 60).

(** ** The line of a message *)

(** [{:0w}] *)
Fixpoint fixed (w : nat) (n : Z) : list Z :=
  match w with
  | O => []
  | S w' => fixed w' (n / 10) ++ [chr_0 + n mod 10]
  end.

Definition pad (w : nat) (n : Z) : list Z := if n <? 10 ^ Z.of_nat w then fixed w n else to_string_u64 n.

Definition k1900 : Z := 1900.
Definition k1000 : Z := 1000.

Definition format_iso8601_utc (ts_ns : Z) : list Z :=
  let sec := ts_ns / 1000000000 in
  let nano := ts_ns - sec * 1000000000 in
  let t := gmtime_r sec in
  codes "[" ++ pad 4 (tm_year t + k1900) ++ codes "-" ++ pad 2 (tm_mon t + 1) ++ codes "-" ++ pad 2 (tm_mday t) ++ codes "T" ++
  pad 2 (tm_hour t) ++ codes ":" ++ pad 2 (tm_min t) ++ codes ":" ++ pad 2 (tm_sec t) ++ codes "." ++ pad 6 (nano / k1000) ++ codes "Z]".

Record LogMessage := mkMessage { is_stop : bool; level : LogLevel; ts_ns : Z; text : list Z }.

Definition make_stop_sentinel : LogMessage := mkMessage true kTrace 0 [].

Definition format (msg : LogMessage) : list Z :=
  if is_stop msg then [] else format_iso8601_utc (ts_ns msg) ++ text msg.

(** ** Reading a time stamp *)

Lemma fixed_length w n : length (fixed w n) = w.
Proof. revert n. induction w as [|w IH]; intros n; [done|]. cbn [fixed]. rewrite length_app, IH. cbn. lia. Qed.

Lemma fixed_value w n : 0 <= n < 10 ^ Z.of_nat w -> digits_value (fixed w n) = n.
Proof.
  revert n. induction w as [|w IH]; intros n Hn; [cbn in *; lia|].
  cbn [fixed]. unfold digits_value. rewrite fold_left_app. fold (digits_value (fixed w (n / 10))).
  rewrite Nat2Z.inj_succ, Z.pow_succ_r in Hn by lia. rewrite IH by zdiv. cbn. zdiv.
Qed.

Lemma pad_fixed w n : n < 10 ^ Z.of_nat w -> pad w n = fixed w n.
Proof. intros Hn. unfold pad. by rewrite (proj2 (Z.ltb_lt _ _)). Qed.

(** The day since 1970 of a date. *)
Definition days_from_civil (y m d : Z) : Z :=
  let y := if m <=? 2 then y - 1 else y in
  let doy := (153 * (if 2 <? m then m - 3 else m + 9) + 2) / 5 + d - 1 in
  let yoe := y mod 400 in
  y / 400 * days_per_era + (yoe * 365 + yoe / 4 - yoe / 100 + doy) - days_before_1970.

(** The year of an era is the one whose days contain the day. *)
Lemma year_of_era doe :
  0 <= doe < days_per_era ->
  let yoe := (doe - doe / 1460 + doe / 36524 - doe / 146096) / 365 in
  0 <= yoe < 400 /\ 0 <= doe - (365 * yoe + yoe / 4 - yoe / 100) <= 365.
Proof.
  unfold days_per_era. intros H. cbv zeta.
  set (q1 := doe / 1460). set (q2 := doe / 36524). set (q3 := doe / 146096).
  assert (0 <= doe - 1460 * q1 < 1460) by (subst q1; zdiv). assert (0 <= doe - 36524 * q2 < 36524) by (subst q2; zdiv).
  assert (0 <= doe - 146096 * q3 < 146096) by (subst q3; zdiv). clearbody q1 q2 q3.
  set (yoe := (doe - q1 + q2 - q3) / 365).
  assert (0 <= (doe - q1 + q2 - q3) - 365 * yoe < 365) by (subst yoe; zdiv). clearbody yoe.
  set (a := yoe / 4). assert (0 <= yoe - 4 * a < 4) by (subst a; zdiv). clearbody a.
  set (b := yoe / 100). assert (0 <= yoe - 100 * b < 100) by (subst b; zdiv). clearbody b. lia.
Qed.

Lemma civil_date doe :
  0 <= doe < days_per_era ->
  let '(y, m, d) := civil_of_era_day doe in
  days_from_civil y m d = doe - days_before_1970 /\ 0 <= y <= 400 /\ 1 <= m <= 12 /\ 1 <= d <= 31.
Proof.
  intros Hd. destruct (year_of_era doe Hd) as [Hy Hdoy]. unfold civil_of_era_day.
  set (yoe := (doe - _ + _ - _) / 365) in *. clearbody yoe. set (doy := doe - _) in *.
  set (mp := (5 * doy + 2) / 153). assert (Hmp : 0 <= 5 * doy + 2 - 153 * mp < 153) by (subst mp; zdiv). clearbody mp.
  set (k := (153 * mp + 2) / 5). assert (Hk : 0 <= 153 * mp + 2 - 5 * k < 5) by (subst k; zdiv).
  unfold days_from_civil. assert (Hdoe : doe = 365 * yoe + yoe / 4 - yoe / 100 + doy) by (unfold doy; lia).
  destruct (Z.ltb_spec mp 10).
  - rewrite (proj2 (Z.leb_gt _ 2)), (proj2 (Z.ltb_lt 2 _)) by lia.
    rewrite Z.mod_small, Z.div_small by lia. replace (mp + 3 - 3) with mp by lia. fold k. lia.
  - rewrite (proj2 (Z.leb_le _ 2)), (proj2 (Z.ltb_ge 2 _)) by lia.
    replace (yoe + 1 - 1) with yoe by lia. rewrite Z.mod_small, Z.div_small by lia.
    replace (mp - 9 + 9) with mp by lia. fold k. lia.
Qed.

(** Eras repeat the calendar. *)
Lemma days_from_civil_era y m d era : days_from_civil (y + 400 * era) m d = days_from_civil y m d + era * days_per_era.
Proof.
  unfold days_from_civil. destruct (m <=? 2).
  - replace (y + 400 * era - 1) with (y - 1 + era * 400) by lia. rewrite Z.div_add, Z.mod_add by done. lia.
  - replace (y + 400 * era) with (y + era * 400) by lia. rewrite Z.div_add, Z.mod_add by done. lia.
Qed.

(** The microseconds since 1970 that a time stamp names. *)
Definition read_timestamp (s : list Z) : Z :=
  let field (off w : nat) := digits_value (take w (drop off s)) in
  (days_from_civil (field 1%nat 4%nat) (field 6%nat 2%nat) (field 9%nat 2%nat) * 86400 +
   field 12%nat 2%nat * 3600 + field 15%nat 2%nat * 60 + field 18%nat 2%nat) * 1000000 + field 21%nat 6%nat.

Ltac list_of_length l H :=
  first [ destruct l; [|cbn in H; lia]; clear H
        | let x := fresh "c" in let l' := fresh "l" in destruct l as [|x l']; [cbn in H; lia | cbn in H; apply Nat.succ_inj in H; list_of_length l' H] ].

Lemma read_layout (f1 f2 f3 f4 f5 f6 f7 : list Z) :
  length f1 = 4%nat -> length f2 = 2%nat -> length f3 = 2%nat -> length f4 = 2%nat -> length f5 = 2%nat -> length f6 = 2%nat ->
  length f7 = 6%nat ->
  read_timestamp (codes "[" ++ f1 ++ codes "-" ++ f2 ++ codes "-" ++ f3 ++ codes "T" ++ f4 ++ codes ":" ++ f5 ++ codes ":" ++ f6 ++
    codes "." ++ f7 ++ codes "Z]") =
  (days_from_civil (digits_value f1) (digits_value f2) (digits_value f3) * 86400 + digits_value f4 * 3600 + digits_value f5 * 60 +
   digits_value f6) * 1000000 + digits_value f7.
Proof.
  intros H1 H2 H3 H4 H5 H6 H7.
  list_of_length f1 H1. list_of_length f2 H2. list_of_length f3 H3. list_of_length f4 H4. list_of_length f5 H5.
  list_of_length f6 H6. list_of_length f7 H7. reflexivity.
Qed.

Lemma gmtime_ranges sec :
  0 <= sec < 9223372037 ->
  let t := gmtime_r sec in
  0 <= tm_year t + k1900 < 10 ^ 4 /\ 0 <= tm_mon t + 1 < 10 ^ 2 /\ 0 <= tm_mday t < 10 ^ 2 /\ 0 <= tm_hour t < 10 ^ 2 /\
  0 <= tm_min t < 10 ^ 2 /\ 0 <= tm_sec t < 10 ^ 2 /\
  days_from_civil (tm_year t + k1900) (tm_mon t + 1) (tm_mday t) * 86400 + tm_hour t * 3600 + tm_min t * 60 + tm_sec t = sec.
Proof.
  intros Hs. unfold gmtime_r. set (z := sec / 86400 + days_before_1970).
  assert (Hz : 0 <= z mod days_per_era < days_per_era) by (apply Z.mod_pos_bound; done).
  pose proof (civil_date (z mod days_per_era) Hz) as H. destruct (civil_of_era_day _) as [[y m] d].
  destruct H as (Hdate & Hy & Hm & Hd). cbn [tm_year tm_mon tm_mday tm_hour tm_min tm_sec]. unfold k1900.
  replace (y + 400 * (z / days_per_era) - 1900 + 1900) with (y + 400 * (z / days_per_era)) by lia.
  replace (m - 1 + 1) with m by lia. rewrite days_from_civil_era, Hdate.
  unfold z, days_before_1970, days_per_era in *. zdiv.
Qed.

(** The time stamp of a line can be read back.  For every reading of the
    clock up to the year 2262 it has 29 characters and names the day, hour, minute,
    second and microsecond of the reading. *)
Theorem timestamp_read_back ts :
  0 <= ts < 2 ^ 63 ->
  length (format_iso8601_utc ts) = 29%nat /\ read_timestamp (format_iso8601_utc ts) = ts / k1000.
Proof.
  intros Hts. unfold format_iso8601_utc. set (sec := ts / 1000000000).
  assert (Hsec : 0 <= sec < 9223372037) by (unfold sec; zdiv).
  destruct (gmtime_ranges sec Hsec) as (H1 & H2 & H3 & H4 & H5 & H6 & Heq). set (t := gmtime_r sec) in *.
  assert (H7 : 0 <= (ts - sec * 1000000000) / k1000 < 10 ^ 6) by (unfold sec, k1000; zdiv).
  rewrite !pad_fixed by (cbn [Z.of_nat Pos.of_succ_nat Pos.succ]; lia).
  set (f1 := fixed 4 _). set (f2 := fixed 2 (tm_mon t + 1)). set (f3 := fixed 2 (tm_mday t)). set (f4 := fixed 2 (tm_hour t)).
  set (f5 := fixed 2 (tm_min t)). set (f6 := fixed 2 (tm_sec t)). set (f7 := fixed 6 _).
  assert (L1 : length f1 = 4%nat) by apply fixed_length. assert (L2 : length f2 = 2%nat) by apply fixed_length.
  assert (L3 : length f3 = 2%nat) by apply fixed_length. assert (L4 : length f4 = 2%nat) by apply fixed_length.
  assert (L5 : length f5 = 2%nat) by apply fixed_length. assert (L6 : length f6 = 2%nat) by apply fixed_length.
  assert (L7 : length f7 = 6%nat) by apply fixed_length. split.
  { rewrite !length_app, L1, L2, L3, L4, L5, L6, L7. done. }
  rewrite read_layout by done. unfold f1, f2, f3, f4, f5, f6, f7. rewrite !fixed_value by done. rewrite Heq.
  unfold sec, k1000. zdiv.
Qed.

Lemma timestamp_read_back_witness :
  format_iso8601_utc 1735689600123456789 = codes "[2025-01-01T00:00:00.123456Z]" /\
  read_timestamp (format_iso8601_utc 1735689600123456789) = 1735689600123456.
Proof. split; [by vm_compute | apply (timestamp_read_back 1735689600123456789); by vm_compute]. Defined.

End LogText.

(** ** The file sink *)

Module FileSink.
Import FixedPoint Text.

(** The file system maps names to contents, what is not flushed included. *)
Record FileSink := mkSink {
  filename_ : list Z;
  file_extension_ : list Z;
  max_size_ : Z;
  line_cnt_ : Z;
  index_ : Z;
  (** lines written since the last flush *)
  pending : Z;
}.

(** [find_last_of('.')] with the two [substr]: the extension has the dot. *)
Fixpoint split_last_dot (filename : list Z) : option (list Z * list Z) :=
  match filename with
  | [] => None
  | c :: rest =>
      match split_last_dot rest with
      | Some (name, ext) => Some (c :: name, ext)
      | None => if c =? 46 then Some ([], c :: rest) else None
      end
  end.

Definition path (s : FileSink) : list Z := filename_ s ++ file_extension_ s.
Definition rotated (s : FileSink) (k : Z) : list Z := filename_ s ++ codes "_" ++ to_string_u64 k ++ file_extension_ s.

(** [std::ofstream::open] truncates. *)
Definition open_file (name : list Z) (fs : gmap (list Z) (list Z)) : gmap (list Z) (list Z) := <[name := []]> fs.

Definition new_sink (filename : list Z) (max_size : Z) (fs : gmap (list Z) (list Z)) : FileSink * gmap (list Z) (list Z) :=
  let '(name, ext) := default (filename, []) (split_last_dot filename) in
  let ext := if bool_decide (ext = []) then codes ".txt" else ext in
  let s := mkSink name ext max_size 0 0 0 in
  (s, open_file (path s) fs).

Definition tellp (s : FileSink) (fs : gmap (list Z) (list Z)) : Z := zlen (default [] (fs !! path s)).

(** [std::filesystem::rename] replaces the file that has the new name. *)
Definition rename_file (old new : list Z) (fs : gmap (list Z) (list Z)) : gmap (list Z) (list Z) := <[new := default [] (fs !! old)]> (delete old fs).

Definition rotate (s : FileSink) (fs : gmap (list Z) (list Z)) : FileSink * gmap (list Z) (list Z) :=
  let s := mkSink (filename_ s) (file_extension_ s) (max_size_ s) (line_cnt_ s) (index_ s + 1) 0 in
  (s, open_file (path s) (rename_file (path s) (rotated s (index_ s)) fs)).

Definition kMaxLineCnt : Z := 100.

Definition write (st : FileSink * gmap (list Z) (list Z)) (msg : list Z) : FileSink * gmap (list Z) (list Z) :=
  let '(s, fs) := st in
  let '(s, fs) := if max_size_ s <? tellp s fs + zlen msg + 1 then rotate s fs else (s, fs) in
  let fs := <[path s := default [] (fs !! path s) ++ msg ++ [10]]> fs in
  let flushed := kMaxLineCnt <=? line_cnt_ s in
  let line_cnt := if flushed then 0 else line_cnt_ s in
  (mkSink (filename_ s) (file_extension_ s) (max_size_ s) (line_cnt + 1) (index_ s) (if flushed then 0 else pending s + 1), fs).

Definition write_all (msgs : list (list Z)) (st : FileSink * gmap (list Z) (list Z)) : FileSink * gmap (list Z) (list Z) := foldl write st msgs.

(** ** What the files hold *)

Definition render (lines : list (list Z)) : list Z := concat ((fun l => l ++ [10]) <$> lines).

(** A file is within the limit or has a single line. *)
Definition within (max_size : Z) (lines : list (list Z)) : Prop := zlen (render lines) <= max_size \/ length lines = 1%nat.

Definition same_sink (s s' : FileSink) : Prop :=
  filename_ s' = filename_ s /\ file_extension_ s' = file_extension_ s /\ max_size_ s' = max_size_ s.

(** [segs] are the rotated files and [cur] the open one. *)
Definition holds (fs0 : gmap (list Z) (list Z)) (s : FileSink) (fs : gmap (list Z) (list Z)) (segs : list (list (list Z))) (cur : list (list Z)) : Prop :=
  0 <= max_size_ s /\ index_ s = zlen segs /\ fs !! path s = Some (render cur) /\
  (forall k seg, segs !! k = Some seg -> fs !! rotated s (Z.of_nat k + 1) = Some (render seg)) /\
  (forall name, name <> path s -> (forall k, 1 <= k <= zlen segs -> name <> rotated s k) -> fs !! name = fs0 !! name) /\
  within (max_size_ s) cur /\ Forall (within (max_size_ s)) segs.

Lemma rotated_not_path s k : rotated s k <> path s.
Proof.
  intros E. apply (f_equal length) in E. unfold rotated, path in E. rewrite !length_app in E. cbn in E. lia.
Qed.

Lemma rotated_inj s k k' : 0 <= k < 2 ^ 31 -> 0 <= k' < 2 ^ 31 -> rotated s k = rotated s k' -> k = k'.
Proof.
  intros Hk Hk' E. unfold rotated in E. apply app_inv_head, app_inv_head, app_inv_tail in E.
  destruct (to_string_u64_spec k) as (_ & <- & _); [unfold two64; lia|]. rewrite E. apply to_string_u64_spec. unfold two64. lia.
Qed.

Lemma render_snoc lines l : render (lines ++ [l]) = render lines ++ l ++ [10].
Proof. unfold render. rewrite fmap_app, concat_app. cbn. by rewrite app_nil_r. Qed.

Lemma rotate_holds fs0 s fs segs cur :
  zlen segs + 1 < 2 ^ 31 -> holds fs0 s fs segs cur ->
  holds fs0 (rotate s fs).1 (rotate s fs).2 (segs ++ [cur]) [] /\ same_sink s (rotate s fs).1.
Proof.
  intros Hlen (Hmax & Hi & Hp & Hsegs & Hother & Hcur & Hall). split; [|done].
  pose proof (zlen_nonneg segs) as Hnn.
  unfold rotate, open_file, rename_file. cbn [fst snd index_ max_size_].
  set (s' := mkSink _ _ _ _ _ _). unfold holds. change (path s') with (path s). change (rotated s') with (rotated s). rewrite Hp, Hi. cbn [default].
  split; [done|]. split; [cbn; by rewrite Hi, zlen_app|]. split; [by rewrite lookup_insert_eq|].
  assert (Hnew : rotated s (zlen segs + 1) <> path s) by apply rotated_not_path. split_and!.
  - intros k seg Hk. rewrite lookup_insert_ne by (by apply not_eq_sym, rotated_not_path).
    apply lookup_app_Some in Hk as [Hk|[Hk Hseg]].
    + apply lookup_lt_Some in Hk as Hlt. rewrite lookup_insert_ne, lookup_delete_ne by
        first [by apply not_eq_sym, rotated_not_path | intros E; apply rotated_inj in E; unfold zlen in *; lia]. by apply Hsegs.
    + apply list_lookup_singleton_Some in Hseg as [Hz ->]. replace (Z.of_nat k + 1) with (zlen segs + 1) by (unfold zlen; lia).
      by rewrite lookup_insert_eq.
  - intros name Hname Hrot. rewrite zlen_app in Hrot. cbn in Hrot.
    rewrite lookup_insert_ne, lookup_insert_ne, lookup_delete_ne; [|done| |done].
    + apply Hother; [done|]. intros k Hk. apply Hrot. change (zlen [cur]) with 1. lia.
    + apply not_eq_sym, Hrot. change (zlen [cur]) with 1. lia.
  - by left.
  - apply Forall_app. split; [done|]. by apply Forall_singleton.
Qed.

Lemma append_holds fs0 s fs segs cur msg :
  holds fs0 s fs segs cur -> zlen (render cur) + zlen msg + 1 <= max_size_ s \/ cur = [] ->
  holds fs0 s (<[path s := default [] (fs !! path s) ++ msg ++ [10]]> fs) segs (cur ++ [msg]).
Proof.
  intros (Hmax & Hi & Hp & Hsegs & Hother & Hcur & Hall) Hfit. rewrite Hp. cbn [default]. split_and!; [done | done | | | | |done].
  - by rewrite lookup_insert_eq, render_snoc.
  - intros k seg Hk. rewrite lookup_insert_ne by (by apply not_eq_sym, rotated_not_path). by apply Hsegs.
  - intros name Hname Hrot. rewrite lookup_insert_ne by done. by apply Hother.
  - destruct Hfit as [Hfit| ->]; [left | by right]. rewrite render_snoc, !zlen_app. change (zlen [10]) with 1. lia.
Qed.

(** One write adds its line to the last file or to a new one. *)
Lemma write_holds fs0 s fs segs cur msg :
  zlen segs + 1 < 2 ^ 31 -> holds fs0 s fs segs cur ->
  exists segs' cur', holds fs0 (write (s, fs) msg).1 (write (s, fs) msg).2 segs' cur' /\ same_sink s (write (s, fs) msg).1 /\
    concat segs' ++ cur' = (concat segs ++ cur) ++ [msg] /\ zlen segs' <= zlen segs + 1.
Proof.
  intros Hlen Hh. unfold write.
  assert (Hcur : tellp s fs = zlen (render cur)) by (unfold tellp; destruct Hh as (_ & _ & -> & _); done).
  rewrite Hcur. destruct (Z.ltb_spec (max_size_ s) (zlen (render cur) + zlen msg + 1)) as [Hbig|Hfit].
  - destruct (rotate_holds fs0 s fs segs cur Hlen Hh) as [Hr Hsame]. destruct (rotate s fs) as [s1 fs1]. cbn [fst snd] in *.
    exists (segs ++ [cur]), [msg]. split_and!.
    + by apply (append_holds fs0 s1 fs1 (segs ++ [cur]) [] msg); [|right].
    + done.
    + rewrite concat_app. cbn. by rewrite app_nil_r.
    + rewrite zlen_app. change (zlen [cur]) with 1. lia.
  - cbn [fst snd]. exists segs, (cur ++ [msg]). split_and!.
    + by apply (append_holds fs0 s fs segs cur msg); [|left].
    + done.
    + by rewrite app_assoc.
    + lia.
Qed.

Lemma write_all_holds fs0 msgs s fs segs cur :
  zlen segs + zlen msgs < 2 ^ 31 -> holds fs0 s fs segs cur ->
  exists segs' cur', holds fs0 (write_all msgs (s, fs)).1 (write_all msgs (s, fs)).2 segs' cur' /\
    same_sink s (write_all msgs (s, fs)).1 /\ concat segs' ++ cur' = (concat segs ++ cur) ++ msgs.
Proof.
  revert s fs segs cur. induction msgs as [|msg msgs IH]; intros s fs segs cur Hlen Hh.
  { exists segs, cur. by rewrite app_nil_r. }
  rewrite zlen_cons in Hlen. pose proof (zlen_nonneg msgs).
  destruct (write_holds fs0 s fs segs cur msg) as (segs1 & cur1 & Hh1 & Hs1 & Hc1 & Hl1); [lia | done |].
  unfold write_all. cbn [foldl]. destruct (write (s, fs) msg) as [s1 fs1]. cbn [fst snd] in *.
  destruct (IH s1 fs1 segs1 cur1) as (segs2 & cur2 & Hh2 & Hs2 & Hc2); [lia | done |].
  exists segs2, cur2. split; [done|]. split; [destruct Hs1 as (E1 & E2 & E3), Hs2 as (E4 & E5 & E6); unfold same_sink; by rewrite <-E1, <-E2, <-E3|]. rewrite Hc2, Hc1. by rewrite <-app_assoc.
Qed.

(** C30: the log files hold every line once and in order.  After any lines have
    been written to a new sink, the rotated files 1, 2, ... and then the open file
    contain them, each file is within the size limit or holds a single line, and
    no other file has changed. *)
Theorem log_files_hold_lines filename max_size fs0 msgs :
  0 <= max_size -> zlen msgs < 2 ^ 31 ->
  let '(s, fs) := write_all msgs (new_sink filename max_size fs0) in
  exists segs cur, concat segs ++ cur = msgs /\
    (forall k seg, segs !! k = Some seg -> fs !! rotated s (Z.of_nat k + 1) = Some (render seg)) /\
    fs !! path s = Some (render cur) /\ Forall (within max_size) (segs ++ [cur]) /\
    (forall name, name <> path s -> (forall k, 1 <= k <= zlen segs -> name <> rotated s k) -> fs !! name = fs0 !! name).
Proof.
  intros Hmax Hlen. unfold new_sink. destruct (default _ (split_last_dot filename)) as [name ext].
  set (s0 := mkSink _ _ _ _ _ _).
  assert (H0 : holds fs0 s0 (open_file (path s0) fs0) [] []).
  { unfold open_file. split_and!; [done | done | by rewrite lookup_insert_eq | done | | by left | done].
    intros n Hn _. by rewrite lookup_insert_ne. }
  destruct (write_all_holds fs0 msgs s0 _ [] [] Hlen H0) as (segs & cur & Hh & (_ & _ & Hm) & Hc).
  destruct (write_all msgs _) as [s fs]. cbn [fst snd] in *. destruct Hh as (_ & _ & Hp & Hsegs & Hother & Hcur & Hall).
  exists segs, cur. change max_size with (max_size_ s0). rewrite <-Hm. split_and!; [done | done | done | | done].
  apply Forall_app. split; [done|]. by apply Forall_singleton.
Qed.

(** At most a hundred lines are written and not flushed. *)
Theorem unflushed_bounded filename max_size fs0 msgs :
  pending (write_all msgs (new_sink filename max_size fs0)).1 <= kMaxLineCnt.
Proof.
  set (st0 := new_sink _ _ _).
  assert (Hinv : forall st, 0 <= pending st.1 <= line_cnt_ st.1 -> line_cnt_ st.1 <= kMaxLineCnt ->
    forall msg, 0 <= pending (write st msg).1 <= line_cnt_ (write st msg).1 /\ line_cnt_ (write st msg).1 <= kMaxLineCnt).
  { intros [s fs] Hp Hl msg. unfold write, kMaxLineCnt in *. cbn [fst] in *.
    destruct (max_size_ s <? _); cbn; destruct (Z.leb_spec 100 (line_cnt_ s)); cbn; lia. }
  assert (H : 0 <= pending (write_all msgs st0).1 <= line_cnt_ (write_all msgs st0).1 /\
    line_cnt_ (write_all msgs st0).1 <= kMaxLineCnt); [|lia].
  assert (H0 : 0 <= pending st0.1 <= line_cnt_ st0.1 /\ line_cnt_ st0.1 <= kMaxLineCnt).
  { unfold st0, new_sink. destruct (default _ _). cbn. unfold kMaxLineCnt. lia. }
  clearbody st0. revert st0 H0. induction msgs as [|m msgs IH]; intros st0 [H1 H2]; [done|]. cbn. by apply IH, Hinv.
Qed.

(** A second run of the program on the same files replaces the log of the first:
    the open file is truncated and the numbering of rotated files starts again. *)
Example restart_loses_lines :
  let run msgs fs := (write_all (codes <$> msgs) (new_sink (codes "hft.log") 8 fs)).2 in
  let fs1 := run ["first"; "second"; "third"]%string ∅ in
  let fs2 := run ["new1"; "new2"; "new3"]%string fs1 in
  fs1 !! codes "hft_1.log" = Some (render [codes "first"]) /\
  fs2 !! codes "hft_1.log" = Some (render [codes "new1"]) /\ fs2 !! codes "hft_2.log" = Some (render [codes "new2"]) /\
  fs2 !! codes "hft.log" = Some (render [codes "new3"]) /\ size fs2 = 3%nat.
Proof. vm_compute. repeat split. Qed.

Lemma log_files_hold_lines_witness :
  exists segs cur, concat segs ++ cur = [codes "first"; codes "second"; codes "third"] /\
    (write_all [codes "first"; codes "second"; codes "third"] (new_sink (codes "hft.log") 8 ∅)).2 !! codes "hft.log" = Some (render cur).
Proof.
  pose proof (log_files_hold_lines (codes "hft.log") 8 ∅ [codes "first"; codes "second"; codes "third"] ltac:(done) ltac:(done)) as H.
  assert (Hp : path (write_all [codes "first"; codes "second"; codes "third"] (new_sink (codes "hft.log") 8 ∅)).1 = codes "hft.log")
    by (by vm_compute).
  destruct (write_all _ _) as [s fs]. destruct H as (segs & cur & H1 & _ & H2 & _). exists segs, cur. split; [exact H1|].
  cbn [fst] in Hp. rewrite Hp in H2. exact H2.
Defined.

End FileSink.

(** ** Producers, worker and shutdown *)

Module Logger.
Import LogText.

(** A stream of the queue: that of a producing thread, or that of the thread that
    enqueues without a token. *)
Definition Key := option nat.

(** The worker thread, and the thread in [shutdown] after it has joined it; [todo]
    are the streams a running [try_dequeue] has not yet found empty. *)
Inductive Phase :=
| NoWorker
| Working
| Draining (todo : gset Key)
| Joined (todo : gset Key)
| Closed.

Record State := mkState {
  level_ : LogLevel;
  queue : gmap Key (list LogMessage);
  stop_ : bool;
  phase : Phase;
  (** messages formatted and written to the sinks *)
  out : list (Key * LogMessage);
  (** messages enqueued so far, and those enqueued before [shutdown] *)
  history : list (Key * LogMessage);
  before : list (Key * LogMessage);
}.

Definition new_logger (started : bool) : State :=
  mkState kInfo ∅ (negb started) (if started then Working else NoWorker) [] [] [].

Definition stream (q : gmap Key (list LogMessage)) (p : Key) : list LogMessage := default [] (q !! p).
Definition enqueue (p : Key) (m : LogMessage) (q : gmap Key (list LogMessage)) : gmap Key (list LogMessage) :=
  <[p := stream q p ++ [m]]> q.

Definition is_enabled (lvl : LogLevel) (st : State) : bool := level_num (level_ st) <=? level_num lvl.

Definition setLevel (lvl : LogLevel) (st : State) : State :=
  mkState lvl (queue st) (stop_ st) (phase st) (out st) (history st) (before st).

(** [Producer::log] on thread [p], with its reading of the clock. *)
Definition log (p : nat) (lvl : LogLevel) (now : Z) (txt : list Z) (st : State) : State :=
  if is_enabled lvl st then
    let m := mkMessage false lvl now txt in
    mkState (level_ st) (enqueue (Some p) m (queue st)) (stop_ st) (phase st) (out st) (history st ++ [(Some p, m)]) (before st)
  else st.

(** The start of [shutdown]: the first caller enqueues the sentinel. *)
Definition shutdown (st : State) : State :=
  if stop_ st then st
  else mkState (level_ st) (enqueue None make_stop_sentinel (queue st)) true (phase st) (out st) (history st) (history st).

(** A message taken from stream [p]; a sentinel is not written. *)
Definition take (p : Key) (m : LogMessage) (rest : list LogMessage) (ph : Phase) (st : State) : State :=
  mkState (level_ st) (<[p := rest]> (queue st)) (stop_ st) ph
    (if is_stop m then out st else out st ++ [(p, m)]) (history st) (before st).

Definition set_phase (ph : Phase) (st : State) : State :=
  mkState (level_ st) (queue st) (stop_ st) ph (out st) (history st) (before st).

(** [try_dequeue] finds a message in stream [p]. *)
Definition dequeue (p : Key) (st : State) : option State :=
  match queue st !! p with
  | Some (m :: rest) =>
      let streams := dom (queue st) in
      match phase st with
      | Working => Some (take p m rest (if is_stop m then Draining streams else Working) st)
      | Draining _ => Some (take p m rest (Draining streams) st)
      | Joined _ => Some (take p m rest (Joined streams) st)
      | NoWorker | Closed => None
      end
  | _ => None
  end.

(** [try_dequeue] finds stream [p] empty. *)
Definition found_empty (p : Key) (st : State) : option State :=
  if bool_decide (stream (queue st) p = []) then
    match phase st with
    | Draining todo => if bool_decide (p ∈ todo) then Some (set_phase (Draining (todo ∖ {[p]})) st) else None
    | Joined todo => if bool_decide (p ∈ todo) then Some (set_phase (Joined (todo ∖ {[p]})) st) else None
    | _ => None
    end
  else None.

(** [try_dequeue] fails: the worker ends and is joined, then [shutdown] ends. *)
Definition loop_ends (st : State) : option State :=
  match phase st with
  | Draining todo => if bool_decide (todo = ∅) then Some (set_phase (Joined (dom (queue st))) st) else None
  | Joined todo => if bool_decide (todo = ∅) then Some (set_phase Closed st) else None
  | _ => None
  end.

(** Steps of the worker and of the thread in [shutdown]. *)
Inductive consume : State -> State -> Prop :=
| consume_dequeue p st st' : dequeue p st = Some st' -> consume st st'
| consume_empty p st st' : found_empty p st = Some st' -> consume st st'
| consume_end st st' : loop_ends st = Some st' -> consume st st'.

Inductive reachable : State -> Prop :=
| reach_new started : reachable (new_logger started)
| reach_level st lvl : reachable st -> reachable (setLevel lvl st)
| reach_log st p lvl now txt : reachable st -> reachable (log p lvl now txt st)
| reach_shutdown st : reachable st -> reachable (shutdown st)
| reach_consume st st' : reachable st -> consume st st' -> reachable st'.

(** ** Order and completeness *)

Definition of_producer (p : nat) (l : list (Key * LogMessage)) : list LogMessage := (filter (fun x => x.1 = Some p) l).*2.

Lemma of_producer_app p l1 l2 : of_producer p (l1 ++ l2) = of_producer p l1 ++ of_producer p l2.
Proof. unfold of_producer. by rewrite filter_app, fmap_app. Qed.

Lemma of_producer_same p m : of_producer p [(Some p, m)] = [m].
Proof. unfold of_producer. rewrite filter_cons_True by done. done. Qed.

Lemma of_producer_other p k m : k <> Some p -> of_producer p [(k, m)] = [].
Proof. intros Hk. unfold of_producer. by rewrite filter_cons_False. Qed.

Lemma of_producer_prefix p l1 l2 : l1 `prefix_of` l2 -> of_producer p l1 `prefix_of` of_producer p l2.
Proof. intros [k ->]. rewrite of_producer_app. by eexists. Qed.

Lemma stream_insert_eq q p l : stream (<[p := l]> q) p = l.
Proof. unfold stream. by rewrite lookup_insert_eq. Qed.

Lemma stream_insert_ne q p p' l : p <> p' -> stream (<[p := l]> q) p' = stream q p'.
Proof. intros Hp. unfold stream. by rewrite lookup_insert_ne. Qed.

(** What is written of a producer and what waits in its stream is what it logged. *)
Definition streams_ok (st : State) : Prop :=
  (forall p, of_producer p (out st) ++ stream (queue st) (Some p) = of_producer p (history st)) /\
  (forall p, Forall (fun m => is_stop m = false) (stream (queue st) (Some p))) /\
  Forall (fun m => is_stop m = true) (stream (queue st) None) /\
  (forall p, Some p ∉ dom (queue st) -> of_producer p (history st) = []).

(** The messages enqueued before the shutdown that the phase promises. *)
Definition promised (st : State) : Prop :=
  match phase st with
  | NoWorker | Working => True
  | Draining todo => stop_ st = true /\ forall p, Some p ∉ todo -> of_producer p (before st) `prefix_of` of_producer p (out st)
  | Joined _ | Closed => stop_ st = true /\ forall p, of_producer p (before st) `prefix_of` of_producer p (out st)
  end.

Definition ok (st : State) : Prop :=
  streams_ok st /\ promised st /\ before st `prefix_of` history st /\ (stop_ st = false -> stream (queue st) None = []).

Lemma new_ok started : ok (new_logger started).
Proof. split_and!; [done | by destruct started | done | done]. Qed.

Lemma log_ok p lvl now txt st : ok st -> ok (log p lvl now txt st).
Proof.
  intros ((H1 & H2 & H3 & H4) & Hp & Hb & Hs). unfold log. destruct (is_enabled lvl st); [|by split_and!].
  set (m := mkMessage false lvl now txt). unfold ok, streams_ok, enqueue.
  cbn [queue out history before stop_]. split_and!.
  - intros p'. rewrite of_producer_app, <-H1. destruct (decide (p' = p)) as [->|Hne].
    + by rewrite stream_insert_eq, of_producer_same, app_assoc.
    + rewrite stream_insert_ne, of_producer_other, app_nil_r by congruence. done.
  - intros p'. destruct (decide (p' = p)) as [->|Hne].
    + rewrite stream_insert_eq. apply Forall_app. split; [apply H2 | by apply Forall_singleton].
    + by rewrite stream_insert_ne by congruence.
  - by rewrite stream_insert_ne.
  - intros p' Hd. rewrite dom_insert in Hd. rewrite of_producer_app, H4, of_producer_other by set_solver. done.
  - exact Hp.
  - by apply prefix_app_r.
  - intros Hst. by rewrite stream_insert_ne, Hs.
Qed.

Lemma shutdown_ok st : ok st -> ok (shutdown st).
Proof.
  intros Hok. pose proof Hok as ((H1 & H2 & H3 & H4) & Hp & Hb & Hs). unfold shutdown. destruct (stop_ st) eqn:E; [exact Hok|].
  unfold ok, streams_ok, enqueue. cbn [queue out history before stop_]. split_and!.
  - intros p. by rewrite stream_insert_ne.
  - intros p. by rewrite stream_insert_ne.
  - rewrite stream_insert_eq. apply Forall_app. split; [done | by apply Forall_singleton].
  - intros p Hd. apply H4. set_solver.
  - unfold promised in *. cbn [phase]. destruct (phase st); destruct Hp; congruence || done.
  - done.
  - done.
Qed.

(** Taking the head of a stream keeps the streams. *)
Lemma take_ok p m rest ph st :
  queue st !! p = Some (m :: rest) -> ok st ->
  streams_ok (take p m rest ph st) /\ dom (queue (take p m rest ph st)) = dom (queue st) /\
  (forall i, of_producer i (out st) `prefix_of` of_producer i (out (take p m rest ph st))) /\
  (stop_ st = false -> stream (queue (take p m rest ph st)) None = []) /\ (is_stop m = true -> stop_ st = true).
Proof.
  intros Hq ((H1 & H2 & H3 & H4) & Hp & Hb & Hs). unfold streams_ok. cbn [take queue out history].
  assert (Hst : stream (queue st) p = m :: rest) by (unfold stream; by rewrite Hq).
  assert (Hd : dom (<[p := rest]> (queue st)) = dom (queue st)) by (apply dom_insert_lookup_L; by eexists).
  rewrite !Hd. destruct p as [i|].
  - pose proof (H2 i) as Hi. rewrite Hst in Hi. apply Forall_cons in Hi as [Hm Hrest]. rewrite Hm. split_and!.
    + intros j. rewrite of_producer_app, <-H1. destruct (decide (j = i)) as [->|Hne].
      * by rewrite Hst, stream_insert_eq, of_producer_same, <-app_assoc.
      * rewrite stream_insert_ne, of_producer_other, app_nil_r by congruence. done.
    + intros j. destruct (decide (j = i)) as [->|Hne]; [by rewrite stream_insert_eq | by rewrite stream_insert_ne by congruence].
    + by rewrite stream_insert_ne.
    + exact H4.
    + done.
    + intros j. rewrite of_producer_app. by eexists.
    + intros E. by rewrite stream_insert_ne, Hs.
    + done.
  - rewrite Hst in H3. apply Forall_cons in H3 as [Hm Hrest]. rewrite Hm. split_and!.
    + intros j. by rewrite stream_insert_ne.
    + intros j. by rewrite stream_insert_ne.
    + by rewrite stream_insert_eq.
    + exact H4.
    + done.
    + done.
    + intros E. rewrite Hst in Hs. by specialize (Hs E).
    + intros _. destruct (stop_ st) eqn:E; [done|]. rewrite Hst in Hs. by specialize (Hs eq_refl).
Qed.

(** A stream that does not exist yet had nothing before the shutdown. *)
Lemma absent_promised st p l : ok st -> Some p ∉ dom (queue st) -> of_producer p (before st) `prefix_of` l.
Proof.
  intros ((_ & _ & _ & H4) & _ & Hb & _) Hd. apply (of_producer_prefix p) in Hb. rewrite H4 in Hb by done.
  apply prefix_nil_inv in Hb as ->. apply prefix_nil.
Qed.

Lemma dequeue_ok p st st' : ok st -> dequeue p st = Some st' -> ok st'.
Proof.
  intros Hok. unfold dequeue. destruct (queue st !! p) as [[|m rest]|] eqn:Hq; [done | | done].
  assert (Hkeep : forall ph, promised (take p m rest ph st) -> ok (take p m rest ph st)).
  { intros ph Hph. destruct (take_ok p m rest ph st Hq Hok) as (H1 & _ & _ & H4 & _).
    split_and!; [exact H1 | exact Hph | apply Hok | exact H4]. }
  destruct (take_ok p m rest Working st Hq Hok) as (_ & _ & Hout & _ & Hstop).
  pose proof Hok as (_ & Hp & _ & _). unfold promised in Hp.
  destruct (phase st) as [| |todo|todo|] eqn:Eph; intros [= <-]; try done; apply Hkeep; unfold promised; cbn [take phase stop_ before].
  - destruct (is_stop m) eqn:Em; [|done]. split; [by apply Hstop|]. intros i Hi. by eapply absent_promised.
  - split; [apply Hp|]. intros i Hi. by eapply absent_promised.
  - split; [apply Hp|]. intros i. etrans; [apply Hp | apply Hout].
Qed.

Lemma found_empty_ok p st st' : ok st -> found_empty p st = Some st' -> ok st'.
Proof.
  intros Hok. pose proof Hok as ((H1 & H2 & H3 & H4) & Hp & Hb & Hs). unfold found_empty.
  case_bool_decide as He; [|done]. unfold promised in Hp.
  destruct (phase st) as [| |todo|todo|] eqn:Eph; try done; (case_bool_decide as Hin; [|done]); intros [= <-].
  - split_and!; try done. split; [apply Hp|]. intros i Hi. cbn [set_phase out before].
    destruct (decide (Some i = p)) as [<-|Hne]; [|apply Hp; set_solver].
    specialize (H1 i). rewrite He, app_nil_r in H1. rewrite H1. by apply of_producer_prefix.
  - by split_and!.
Qed.

Lemma loop_ends_ok st st' : ok st -> loop_ends st = Some st' -> ok st'.
Proof.
  intros Hok. pose proof Hok as (H1 & Hp & Hb & Hs). unfold loop_ends. unfold promised in Hp.
  destruct (phase st) as [| |todo|todo|] eqn:Eph; try done; (case_bool_decide as Hin; [|done]); intros [= <-].
  - split_and!; try done. split; [apply Hp|]. intros i. apply Hp. subst todo. set_solver.
  - by split_and!.
Qed.

Lemma logger_reachable_ok st : reachable st -> ok st.
Proof.
  induction 1 as [started|st lvl _ IH|st p lvl now txt _ IH|st _ IH|st st' _ IH Hc].
  - apply new_ok.
  - exact IH.
  - by apply log_ok.
  - by apply shutdown_ok.
  - destruct Hc; [by eapply dequeue_ok | by eapply found_empty_ok | by eapply loop_ends_ok].
Qed.

(** No line is lost, repeated or reordered.  For every interleaving, what has
    been written of a thread's messages and what waits in its stream is, in
    order, what the thread logged. *)
Theorem log_order_kept st p :
  reachable st -> of_producer p (out st) ++ stream (queue st) (Some p) = of_producer p (history st).
Proof. intros ((H & _) & _)%logger_reachable_ok. apply H. Qed.

(** C31: after [shutdown] every message that was enqueued before it has been
    written, however the threads interleave and although the sentinel can
    overtake the messages of other threads. *)
Theorem logged_before_shutdown_written st p :
  reachable st -> phase st = Closed -> of_producer p (before st) `prefix_of` of_producer p (out st).
Proof. intros (_ & Hp & _)%logger_reachable_ok Hc. unfold promised in Hp. rewrite Hc in Hp. apply Hp. Qed.

(** ** The shutdown ends *)

(** Messages in the queue. *)
Definition waiting (q : gmap Key (list LogMessage)) : nat := map_fold (fun _ l n => (length l + n)%nat) 0%nat q.

Lemma waiting_delete q p l : q !! p = Some l -> waiting q = (length l + waiting (delete p q))%nat.
Proof. intros Hp. unfold waiting. rewrite (map_fold_delete_L _ _ p l q); [done | intros; lia | done]. Qed.

Lemma waiting_take q p m rest : q !! p = Some (m :: rest) -> waiting q = S (waiting (<[p := rest]> q)).
Proof.
  intros Hp. rewrite (waiting_delete q p (m :: rest) Hp), (waiting_delete (<[p := rest]> q) p rest) by apply lookup_insert_eq.
  by rewrite delete_insert_eq.
Qed.

(** Work that is left: messages, loops and the streams of the running attempt. *)
Definition measure (st : State) : nat :=
  let d := S (size (dom (queue st))) in
  waiting (queue st) * d +
  match phase st with
  | NoWorker | Closed => 0
  | Working => 3 * d
  | Draining todo => 2 * d + size todo
  | Joined todo => d + size todo
  end.

Lemma consume_decreases st st' : consume st st' -> (measure st' < measure st)%nat.
Proof.
  intros [p s s' H|p s s' H|s s' H]; revert H.
  - unfold dequeue. destruct (queue s !! p) as [[|m rest]|] eqn:Hq; [done | | done].
    assert (Hd : dom (<[p := rest]> (queue s)) = dom (queue s)) by (apply dom_insert_lookup_L; by eexists).
    unfold measure. rewrite (waiting_take _ _ _ _ Hq).
    destruct (phase s); intros [= <-]; cbn [take queue phase]; rewrite Hd; try destruct (is_stop m); lia.
  - unfold found_empty. case_bool_decide; [|done]. unfold measure.
    destruct (phase s) as [| |todo|todo|]; try done; (case_bool_decide as Hin; [|done]); intros [= <-]; cbn [set_phase queue phase];
      assert (size (todo ∖ {[p]}) < size todo)%nat by (apply subset_size; set_solver); lia.
  - unfold loop_ends, measure. destruct (phase s) as [| |todo|todo|]; try done; (case_bool_decide; [|done]);
      intros [= <-]; cbn [set_phase queue phase]; lia.
Qed.

(** The sentinel waits until the worker has seen it. *)
Definition sentinel_waits (st : State) : Prop := phase st = Working -> stop_ st = true -> stream (queue st) None <> [].

Lemma consume_keeps st st' : ok st -> sentinel_waits st -> consume st st' -> sentinel_waits st' /\ stop_ st' = stop_ st.
Proof.
  intros Hok Hs Hc. destruct Hc as [p s s' H|p s s' H|s s' H]; revert H.
  - unfold dequeue. destruct (queue s !! p) as [[|m rest]|] eqn:Hq; [done | | done].
    destruct (phase s) eqn:Eph; intros [= <-]; (split; [|done]); try done.
    destruct p as [i|]; [|].
    + intros _ Hstop. cbn [take queue]. rewrite stream_insert_ne by done. by apply Hs.
    + destruct Hok as ((_ & _ & H3 & _) & _). unfold stream in H3. rewrite Hq in H3. apply Forall_cons in H3 as [-> _]. done.
  - unfold found_empty. case_bool_decide; [|done]. destruct (phase s); try done; (case_bool_decide; [|done]); intros [= <-]; done.
  - unfold loop_ends. destruct (phase s); try done; (case_bool_decide; [|done]); intros [= <-]; done.
Qed.

Lemma reachable_sentinel st : reachable st -> sentinel_waits st.
Proof.
  induction 1 as [[]|st lvl _ IH|st p lvl now txt _ IH|st _ IH|st st' Hr IH Hc]; [done | done | exact IH | | |].
  - unfold log. destruct (is_enabled lvl st); [|done]. intros Hp Hs. cbn [queue enqueue]. unfold enqueue.
    rewrite stream_insert_ne by done. by apply IH.
  - unfold shutdown. destruct (stop_ st) eqn:E; [done|]. intros _ _. cbn [queue]. unfold enqueue. rewrite stream_insert_eq.
    by destruct (stream (queue st) None).
  - by eapply consume_keeps; [apply logger_reachable_ok|..].
Qed.

Lemma dequeue_progress p st : stream (queue st) p <> [] -> phase st <> NoWorker -> phase st <> Closed -> exists st', consume st st'.
Proof.
  intros Hs Hn Hc. unfold stream in Hs. destruct (queue st !! p) as [[|m rest]|] eqn:Hq; [done | | done].
  destruct (dequeue p st) as [st'|] eqn:E; [exists st'; by eapply consume_dequeue|].
  unfold dequeue in E. rewrite Hq in E. by destruct (phase st).
Qed.

Lemma progress st : sentinel_waits st -> stop_ st = true -> phase st <> NoWorker -> phase st = Closed \/ exists st', consume st st'.
Proof.
  intros Hw Hs Hn. destruct (phase st) as [| |todo|todo|] eqn:Eph; [done | | | | by left]; right.
  - apply (dequeue_progress None); [by apply Hw | by rewrite Eph | by rewrite Eph].
  - destruct (set_choose_or_empty todo) as [[p Hp]|He].
    + destruct (decide (stream (queue st) p = [])) as [He|Hne]; [|apply (dequeue_progress p); [done | by rewrite Eph | by rewrite Eph]].
      eexists. apply (consume_empty p). unfold found_empty. by rewrite bool_decide_eq_true_2, Eph, bool_decide_eq_true_2.
    + eexists. apply consume_end. unfold loop_ends. rewrite Eph, bool_decide_eq_true_2; [done | by apply leibniz_equiv].
  - destruct (set_choose_or_empty todo) as [[p Hp]|He].
    + destruct (decide (stream (queue st) p = [])) as [He|Hne]; [|apply (dequeue_progress p); [done | by rewrite Eph | by rewrite Eph]].
      eexists. apply (consume_empty p). unfold found_empty. by rewrite bool_decide_eq_true_2, Eph, bool_decide_eq_true_2.
    + eexists. apply consume_end. unfold loop_ends. rewrite Eph, bool_decide_eq_true_2; [done | by apply leibniz_equiv].
Qed.

Lemma phase_stays st st' : consume st st' -> phase st <> NoWorker -> phase st' <> NoWorker.
Proof.
  intros [p s s' H|p s s' H|s s' H]; revert H.
  - unfold dequeue. destruct (queue s !! p) as [[|m rest]|]; try done. destruct (phase s); intros [= <-]; cbn; try destruct (is_stop m); done.
  - unfold found_empty. case_bool_decide; [|done]. destruct (phase s); try done; (case_bool_decide; [|done]); by intros [= <-].
  - unfold loop_ends. destruct (phase s); try done; (case_bool_decide; [|done]); by intros [= <-].
Qed.

(** C32: a shutdown ends.  Once it has begun and no more messages are logged, the
    worker and the thread in [shutdown] take a bounded number of steps, and as
    long as the logger is not closed one of them can take a step. *)
Theorem shutdown_ends st :
  reachable st -> stop_ st = true -> phase st <> NoWorker ->
  (forall n st', nsteps consume n st st' -> (n <= measure st)%nat) /\
  (forall st', rtc consume st st' -> phase st' = Closed \/ exists st'', consume st' st'').
Proof.
  intros Hr Hs Hn. split.
  - intros n st' Hsteps. clear Hr Hs Hn. induction Hsteps as [|n st st1 st' Hc _ IH]; [lia|]. apply consume_decreases in Hc. lia.
  - intros st' Hsteps. revert Hr Hs Hn. induction Hsteps as [st|st st1 st' Hc _ IH]; intros Hr Hs Hn.
    + apply progress; [by apply reachable_sentinel | done | done].
    + destruct (consume_keeps st st1) as [_ E]; [by apply logger_reachable_ok | by apply reachable_sentinel | done |].
      apply IH; [by eapply reach_consume | by rewrite E | by eapply phase_stays].
Qed.

(** ** Witnesses *)

Definition demo_logged : State :=
  shutdown (log 1 kWarn 5 (Text.codes "b") (log 0 kDebug 4 (Text.codes "x") (log 0 kInfo 3 (Text.codes "a") (new_logger true)))).

Definition then_ (f : State -> option State) (st : State) : State := default st (f st).

(** The worker takes the sentinel first. *)
Definition demo_closed : State :=
  then_ loop_ends (then_ (found_empty (Some 1%nat)) (then_ (found_empty (Some 0%nat)) (then_ (found_empty None)
  (then_ loop_ends (then_ (found_empty None) (then_ (found_empty (Some 1%nat)) (then_ (found_empty (Some 0%nat))
  (then_ (dequeue (Some 0%nat)) (then_ (dequeue (Some 1%nat)) (then_ (dequeue None) demo_logged)))))))))).

Lemma reachable_then f st :
  reachable st -> (forall st', f st = Some st' -> consume st st') -> reachable (then_ f st).
Proof. intros Hr Hf. unfold then_. destruct (f st) as [st'|] eqn:E; [|done]. cbn. by eapply reach_consume; [|apply Hf]. Qed.

Lemma reachable_dequeue p st : reachable st -> reachable (then_ (dequeue p) st).
Proof. intros Hr. apply reachable_then; [done|]. intros st' E. by apply (consume_dequeue p). Qed.

Lemma reachable_empty p st : reachable st -> reachable (then_ (found_empty p) st).
Proof. intros Hr. apply reachable_then; [done|]. intros st' E. by apply (consume_empty p). Qed.

Lemma reachable_end st : reachable st -> reachable (then_ loop_ends st).
Proof. intros Hr. apply reachable_then; [done|]. intros st' E. by apply consume_end. Qed.

Lemma demo_logged_reachable : reachable demo_logged.
Proof. unfold demo_logged. do 4 (constructor; try apply reach_log). Qed.

Lemma demo_closed_reachable : reachable demo_closed.
Proof.
  apply reachable_end. do 3 apply reachable_empty. apply reachable_end. do 3 apply reachable_empty. do 3 apply reachable_dequeue.
  apply demo_logged_reachable.
Qed.

Lemma log_order_kept_witness :
  of_producer 0 (out demo_closed) ++ stream (queue demo_closed) (Some 0%nat) = of_producer 0 (history demo_closed).
Proof. apply (log_order_kept demo_closed 0 demo_closed_reachable). Defined.

Lemma logged_before_shutdown_written_witness :
  of_producer 1 (before demo_closed) = [mkMessage false kWarn 5 (Text.codes "b")] /\
  of_producer 1 (before demo_closed) `prefix_of` of_producer 1 (out demo_closed).
Proof.
  split; [by vm_compute|]. apply (logged_before_shutdown_written demo_closed 1 demo_closed_reachable). by vm_compute.
Defined.

Lemma shutdown_ends_witness : phase demo_logged = Closed \/ exists st', consume demo_logged st'.
Proof. apply (shutdown_ends demo_logged demo_logged_reachable); [by vm_compute | by vm_compute | apply rtc_refl]. Defined.

End Logger.
