(* ===== verification/CpuManager.v ===== *)
(** * CPU manager (src/hft/common/cpumanager/cpu_manager.h, cpu_manager.cpp)

    The Linux build.  The configuration is that of [IniConfig]; the kernel is a
    parameter that answers a call by the calls made before it, and the directory
    of the process's tasks is a list of entries.  The state keeps the calls made. *)

From S2P Require Import Prelude FixedPoint Text IniConfig.

Module CpuManager.
Import FixedPoint Text IniConfig.

Definition u8 (n : Z) : Z := n mod 256.
Definition i32 (n : Z) : Z := (n + 2147483648) mod 4294967296 - 2147483648.

Record CpuInfo := mkCpu { use_irq : bool; type : Z }.
Record ThreadInfo := mkThread { cpu_id : Z; value : Z; tid : Z }.

Inductive SchedPolicy := kOther | kFinfo | kRr | kBatch | kIso | kIdle | kDeadline.

Definition policy_num (p : SchedPolicy) : Z :=
  match p with kOther => 0 | kFinfo => 1 | kRr => 2 | kBatch => 3 | kIso => 4 | kIdle => 5 | kDeadline => 6 end.

(** [<sched.h>] *)
Definition SCHED_OTHER : Z := 0.
Definition SCHED_FIFO : Z := 1.
Definition SCHED_RR : Z := 2.
Definition SCHED_BATCH : Z := 3.
Definition SCHED_IDLE : Z := 5.

(** The map of threads is ordered by name. *)
Record Manager := mkManager {
  cpu_info_list_ : gmap Z CpuInfo;
  thread_info_list_ : list (list Z * ThreadInfo);
  use_cpu_group_ : bool;
  use_cpu_to_tid_ : bool;
}.

(** ** Constructor *)

(** [std::map::emplace] leaves an entry that exists. *)
Definition emplace_cpu (i : Z) (info : CpuInfo) (m : gmap Z CpuInfo) : gmap Z CpuInfo :=
  match m !! u8 i with Some _ => m | None => <[u8 i := info]> m end.

Fixpoint emplace_thread (name : list Z) (info : ThreadInfo) (l : list (list Z * ThreadInfo)) : list (list Z * ThreadInfo) :=
  match l with
  | [] => [(name, info)]
  | (n, i) :: rest =>
      if bool_decide (n = name) then l
      else if string_le name n then (name, info) :: l
      else (n, i) :: emplace_thread name info rest
  end.

Definition numbered (prefix : string) (i : Z) : list Z := codes prefix ++ to_string_u64 i.

Definition to_bool (n : Z) : bool := negb (n =? 0).

Definition read_cpu (ini : Ini) (m : gmap Z CpuInfo) (i : Z) : gmap Z CpuInfo :=
  let id := numbered "cpu_" i in
  emplace_cpu i (mkCpu (to_bool (get_int id (codes "use_irq") 0 ini)) (u8 (get_int id (codes "cpu_type") 0 ini))) m.

(** [None]: the cpu of the thread is not configured; the end iterator is
    dereferenced after the error has been logged. *)
Definition read_thread (ini : Ini) (cpus : gmap Z CpuInfo) (l : list (list Z * ThreadInfo)) (i : Z) :
    option (list (list Z * ThreadInfo)) :=
  let id := numbered "thread_" i in
  let thread_name := get id (codes "name") [] ini in
  let cpu := u8 (get_int id (codes "cpu_id") 0 ini) in
  info ← cpus !! cpu;
  let v :=
    if (type info =? SCHED_RR) || (type info =? SCHED_FIFO)
    then get_int id (codes "prio") 0 ini else get_int id (codes "nicev") 0 ini in
  Some (emplace_thread thread_name (mkThread cpu v 0) l).

Fixpoint read_threads (ini : Ini) (cpus : gmap Z CpuInfo) (l : list (list Z * ThreadInfo)) (ids : list Z) :
    option (list (list Z * ThreadInfo)) :=
  match ids with
  | [] => Some l
  | i :: ids' => l' ← read_thread ini cpus l i; read_threads ini cpus l' ids'
  end.

Definition new_manager (ini : Ini) : option Manager :=
  let cpu_use_count := get_int (codes "cpu_id") (codes "count") 0 ini in
  let use_cpu_group := to_bool (get_int (codes "cpu_id") (codes "use_cpu_group") 0 ini) in
  let use_cpu_to_tid := to_bool (get_int (codes "cpu_id") (codes "use_cpu_to_tid") 0 ini) in
  let cpus := foldl (read_cpu ini) ∅ (seqZ 0 cpu_use_count) in
  threads ← read_threads ini cpus [] (seqZ 0 (get_int (codes "thread") (codes "count") 0 ini));
  Some (mkManager cpus threads use_cpu_group use_cpu_to_tid).

(** ** Threads of the process *)

(** An entry of the task directory: its name, whether it is a directory, and the
    first line of its file [comm] if that can be read. *)
Record Task := mkTask { file_name : list Z; is_directory : bool; comm : option (list Z) }.

Definition trim_newline (str : list Z) : list Z :=
  match last str with
  | Some c => if (c =? 10) || (c =? 13) then take (length str - 1) str else str
  | None => str
  end.

(** [std::from_chars] to 64 signed bits. *)
Definition from_chars (l : list Z) : option Z :=
  match l with
  | 45 :: rest =>
      let d := leading_digits rest in
      if bool_decide (d = []) then None else if int64_min <=? - digits_value d then Some (- digits_value d) else None
  | _ =>
      let d := leading_digits l in
      if bool_decide (d = []) then None else if digits_value d <=? int64_max then Some (digits_value d) else None
  end.

Fixpoint find_task (target_name : list Z) (tasks : list Task) : Z :=
  match tasks with
  | [] => 0
  | entry :: rest =>
      if negb (is_directory entry) then find_task target_name rest
      else match comm entry with
           | None => find_task target_name rest
           | Some name =>
               if bool_decide (trim_newline name = target_name) then
                 match from_chars (file_name entry) with
                 | Some val => i32 val
                 | None => find_task target_name rest
                 end
               else find_task target_name rest
           end
  end.

(** [None] for the directory: it does not exist. *)
Definition get_tid_by_thread_name (task_dir : option (list Task)) (target_name : list Z) : Z :=
  match task_dir with None => 0 | Some tasks => find_task target_name tasks end.

(** ** Calls of the kernel *)

Inductive Call :=
| SetAffinity (tid cpu : Z)
| GetAffinity (tid : Z)
| SetScheduler (tid policy priority : Z)
| GetScheduler (tid : Z)
| SetPriority (tid nice : Z).

Section Kernel.
Context (kernel : list Call -> Call -> Z) (prio_min prio_max : Z -> Z) (task_dir : option (list Task)).

(** A call, its result and the calls made so far. *)
Definition call (c : Call) (calls : list Call) : Z * list Call := (kernel calls c, calls ++ [c]).

Definition set_cpu_to_tid (cpu tid : Z) (calls : list Call) : Z * list Call :=
  let '(r, calls) := call (SetAffinity tid cpu) calls in
  if negb (r =? 0) then (-1, calls)
  else
    let '(r, calls) := call (GetAffinity tid) calls in
    (if r =? -1 then -1 else 0, calls).

Definition set_scheduler (tid priority scheduler_policy : Z) (calls : list Call) : Z * list Call :=
  let '(r, calls) := call (SetScheduler tid scheduler_policy priority) calls in
  if negb (r =? 0) then (-1, calls)
  else
    let '(r, calls) := call (GetScheduler tid) calls in
    (if r <? 0 then -1 else 0, calls).

Definition set_rt (cpu tid : Z) (policy : SchedPolicy) (priority : Z) (calls : list Call) : Z * list Call :=
  let pmin := prio_min (policy_num policy) in
  let pmax := prio_max (policy_num policy) in
  if (priority <? pmin) || (pmax <? priority) then (-1, calls)
  else
    let '(r, calls) := set_cpu_to_tid cpu tid calls in
    if negb (r =? 0) then (-1, calls)
    else
      let '(r, calls) := set_scheduler tid priority (policy_num policy) calls in
      (if negb (r =? 0) then -1 else 0, calls).

Definition set_cfs (cpu tid : Z) (policy : SchedPolicy) (nicev : Z) (calls : list Call) : Z * list Call :=
  let '(r, calls) := set_cpu_to_tid cpu tid calls in
  if negb (r =? 0) then (-1, calls)
  else
    let '(r, calls) := set_scheduler tid 0 (policy_num policy) calls in
    if negb (r =? 0) then (-1, calls)
    else
      let '(r, calls) := call (SetPriority tid nicev) calls in
      (if negb (r =? 0) then -1 else 0, calls).

Definition set_cpu_fifo (cpu tid prio : Z) := set_rt cpu tid kFinfo prio.
Definition set_cpu_rr (cpu tid prio : Z) := set_rt cpu tid kRr prio.
Definition set_cpu_other (cpu tid nicev : Z) := set_cfs cpu tid kOther nicev.
Definition set_cpu_batch (cpu tid nicev : Z) := set_cfs cpu tid kBatch nicev.
Definition set_cpu_idle (cpu tid nicev : Z) := set_cfs cpu tid kIdle nicev.

(** The switch of [init_cpu_to_tid]. *)
Definition set_policy (ty cpu tid v : Z) (calls : list Call) : Z * list Call :=
  if ty =? SCHED_FIFO then set_cpu_fifo cpu tid v calls
  else if ty =? SCHED_RR then set_cpu_rr cpu tid v calls
  else if ty =? SCHED_OTHER then set_cpu_other cpu tid v calls
  else if ty =? SCHED_BATCH then set_cpu_batch cpu tid v calls
  else if ty =? SCHED_IDLE then set_cpu_idle cpu tid v calls
  else (-1, calls).

(** The loop of [init_cpu_to_tid]: its result, the threads with their ids, the calls. *)
Fixpoint init_threads (cpus : gmap Z CpuInfo) (threads : list (list Z * ThreadInfo)) (calls : list Call) :
    bool * list (list Z * ThreadInfo) * list Call :=
  match threads with
  | [] => (false, [], calls)
  | (name, info) :: rest =>
      let t := get_tid_by_thread_name task_dir name in
      if t =? 0 then
        let '(r, rest', calls) := init_threads cpus rest calls in (r, (name, info) :: rest', calls)
      else
        let info' := mkThread (cpu_id info) (value info) t in
        match cpus !! cpu_id info with
        | None => (true, (name, info') :: rest, calls)
        | Some cpu =>
            let '(ret, calls) := set_policy (type cpu) (cpu_id info) t (value info) calls in
            if negb (ret =? 0) then (true, (name, info') :: rest, calls)
            else let '(r, rest', calls) := init_threads cpus rest calls in (r, (name, info') :: rest', calls)
        end
  end.

Definition init_cpu_to_tid (m : Manager) (calls : list Call) : bool * Manager * list Call :=
  if negb (use_cpu_to_tid_ m) then (true, m, calls)
  else
    let '(r, threads, calls) := init_threads (cpu_info_list_ m) (thread_info_list_ m) calls in
    (r, mkManager (cpu_info_list_ m) threads (use_cpu_group_ m) (use_cpu_to_tid_ m), calls).

End Kernel.

Fixpoint find_thread (name : list Z) (l : list (list Z * ThreadInfo)) : option ThreadInfo :=
  match l with
  | [] => None
  | (n, i) :: rest => if bool_decide (n = name) then Some i else find_thread name rest
  end.

Definition get_tid (thread_name : list Z) (m : Manager) : Z :=
  match find_thread thread_name (thread_info_list_ m) with None => -1 | Some info => tid info end.

(** [init_cpu_group]: the first line of [/proc/self/cgroup], empty if there is none. *)
Definition init_cpu_group (cgroup_line : list Z) (m : Manager) : Z :=
  if negb (use_cpu_group_ m) then 1
  else match find (codes "iso.slice") cgroup_line with None => 1 | Some _ => 0 end.

(** ** What is asked of the kernel *)

Section Facts.
Context (kernel : list Call -> Call -> Z) (prio_min prio_max : Z -> Z) (task_dir : option (list Task)).

Definition accepted (c : Call) (r : Z) : bool :=
  match c with
  | SetAffinity _ _ | SetScheduler _ _ _ | SetPriority _ _ => r =? 0
  | GetAffinity _ => negb (r =? -1)
  | GetScheduler _ => negb (r <? 0)
  end.

(** The calls one after the other, up to the first that is refused. *)
Fixpoint attempt (cs : list Call) (calls : list Call) : bool * list Call :=
  match cs with
  | [] => (true, calls)
  | c :: cs' => if accepted c (kernel calls c) then attempt cs' (calls ++ [c]) else (false, calls ++ [c])
  end.

Definition real_time (ty : Z) : bool := (ty =? SCHED_FIFO) || (ty =? SCHED_RR).
Definition known_policy (ty : Z) : bool := real_time ty || (ty =? SCHED_OTHER) || (ty =? SCHED_BATCH) || (ty =? SCHED_IDLE).

(** Pin the thread, set its policy and, unless it is a real-time one, its nice
    value. *)
Definition policy_calls (ty cpu tid v : Z) : list Call :=
  [SetAffinity tid cpu; GetAffinity tid; SetScheduler tid ty (if real_time ty then v else 0); GetScheduler tid] ++
  (if real_time ty then [] else [SetPriority tid v]).

Definition result (ok : bool) : Z := if ok then 0 else -1.

Lemma attempt_app cs1 cs2 calls :
  attempt (cs1 ++ cs2) calls = let '(ok, calls') := attempt cs1 calls in if ok then attempt cs2 calls' else (false, calls').
Proof. revert calls. induction cs1 as [|c cs1 IH]; intros calls; [done|]. cbn. by destruct (accepted _ _). Qed.

Lemma set_cpu_to_tid_eq cpu t calls :
  set_cpu_to_tid kernel cpu t calls =
    let '(ok, calls') := attempt [SetAffinity t cpu; GetAffinity t] calls in (result ok, calls').
Proof. unfold set_cpu_to_tid, call. cbn. destruct (_ =? 0); [|done]. cbn. by destruct (_ =? -1). Qed.

Lemma set_scheduler_eq t priority policy calls :
  set_scheduler kernel t priority policy calls =
    let '(ok, calls') := attempt [SetScheduler t policy priority; GetScheduler t] calls in (result ok, calls').
Proof. unfold set_scheduler, call. cbn. destruct (_ =? 0); [|done]. cbn. by destruct (_ <? 0). Qed.

Lemma set_rt_eq cpu t policy priority calls :
  prio_min (policy_num policy) <= priority <= prio_max (policy_num policy) ->
  set_rt kernel prio_min prio_max cpu t policy priority calls =
    let '(ok, calls') := attempt ([SetAffinity t cpu; GetAffinity t] ++ [SetScheduler t (policy_num policy) priority; GetScheduler t]) calls in
    (result ok, calls').
Proof.
  intros Hp. unfold set_rt. rewrite (proj2 (Z.ltb_ge _ _)), (proj2 (Z.ltb_ge _ _)) by lia. cbn [orb].
  rewrite set_cpu_to_tid_eq, attempt_app. destruct (attempt [SetAffinity t cpu; _] calls) as [[] calls1]; [|done].
  change (negb (result true =? 0)) with false. cbn iota. rewrite set_scheduler_eq. by destruct (attempt _ calls1) as [[] calls2].
Qed.

Lemma set_cfs_eq cpu t policy nicev calls :
  set_cfs kernel cpu t policy nicev calls =
    let '(ok, calls') := attempt ([SetAffinity t cpu; GetAffinity t] ++ ([SetScheduler t (policy_num policy) 0; GetScheduler t] ++ [SetPriority t nicev])) calls in
    (result ok, calls').
Proof.
  unfold set_cfs. rewrite set_cpu_to_tid_eq, attempt_app. destruct (attempt [SetAffinity t cpu; _] calls) as [[] calls1]; [|done].
  change (negb (result true =? 0)) with false. cbn iota. rewrite set_scheduler_eq, attempt_app.
  destruct (attempt [SetScheduler _ _ _; _] calls1) as [[] calls2]; [|done].
  change (negb (result true =? 0)) with false. cbn. unfold call. by destruct (_ =? 0).
Qed.

Lemma set_policy_eq ty cpu t v calls :
  known_policy ty = true -> (real_time ty = true -> prio_min ty <= v <= prio_max ty) ->
  set_policy kernel prio_min prio_max ty cpu t v calls =
    let '(ok, calls') := attempt (policy_calls ty cpu t v) calls in (result ok, calls').
Proof.
  intros Hk Hp. unfold known_policy, real_time, SCHED_FIFO, SCHED_RR, SCHED_OTHER, SCHED_BATCH, SCHED_IDLE in Hk.
  unfold set_policy, SCHED_FIFO, SCHED_RR, SCHED_OTHER, SCHED_BATCH, SCHED_IDLE.
  destruct (Z.eqb_spec ty 1) as [->|]; [by apply set_rt_eq, Hp|].
  destruct (Z.eqb_spec ty 2) as [->|]; [by apply set_rt_eq, Hp|].
  destruct (Z.eqb_spec ty 0) as [->|]; [by apply set_cfs_eq|].
  destruct (Z.eqb_spec ty 3) as [->|]; [by apply set_cfs_eq|].
  destruct (Z.eqb_spec ty 5) as [->|]; [by apply set_cfs_eq | done].
Qed.

(** A thread of the process runs on a configured cpu, with a known policy and a
    priority in its range. *)
Definition configured (cpus : gmap Z CpuInfo) (entry : list Z * ThreadInfo) : Prop :=
  get_tid_by_thread_name task_dir entry.1 = 0 \/
  exists cpu, cpus !! cpu_id entry.2 = Some cpu /\ known_policy (type cpu) = true /\
    (real_time (type cpu) = true -> prio_min (type cpu) <= value entry.2 <= prio_max (type cpu)).

Definition thread_calls (cpus : gmap Z CpuInfo) (entry : list Z * ThreadInfo) : list Call :=
  let t := get_tid_by_thread_name task_dir entry.1 in
  if t =? 0 then []
  else match cpus !! cpu_id entry.2 with
       | Some cpu => policy_calls (type cpu) (cpu_id entry.2) t (value entry.2)
       | None => []
       end.

Definition with_tid (entry : list Z * ThreadInfo) : list Z * ThreadInfo :=
  let t := get_tid_by_thread_name task_dir entry.1 in
  (entry.1, mkThread (cpu_id entry.2) (value entry.2) (if t =? 0 then tid entry.2 else t)).

Lemma init_threads_eq cpus threads calls :
  Forall (configured cpus) threads ->
  let '(r, threads', calls') := init_threads kernel prio_min prio_max task_dir cpus threads calls in
  let '(ok, calls'') := attempt (concat (thread_calls cpus <$> threads)) calls in
  r = negb ok /\ calls' = calls'' /\ (ok = true -> threads' = with_tid <$> threads).
Proof.
  intros Hc. revert calls. induction Hc as [|[name info] threads Hconf _ IH]; intros calls; [done|].
  cbn [init_threads fmap list_fmap concat]. rewrite attempt_app.
  unfold thread_calls at 1, with_tid at 1. cbn [fst snd].
  destruct (Z.eqb_spec (get_tid_by_thread_name task_dir name) 0) as [E|E].
  - cbn [attempt]. specialize (IH calls). destruct (init_threads _ _ _ _ _ threads calls) as [[r rest'] calls'].
    destruct (attempt _ calls) as [ok calls'']. destruct IH as (-> & -> & IH). split_and!; [done | done |].
    intros Hok. rewrite IH by done. by destruct info.
  - destruct Hconf as [?|(cpu & Hcpu & Hk & Hp)]; [done|]. cbn [fst snd] in Hcpu, Hp. rewrite Hcpu, set_policy_eq by done.
    destruct (attempt (policy_calls _ _ _ _) calls) as [[] calls1]; [|done].
    change (negb (result true =? 0)) with false. cbn iota.
    specialize (IH calls1). destruct (init_threads _ _ _ _ _ threads calls1) as [[r rest'] calls'].
    destruct (attempt _ calls1) as [ok calls'']. destruct IH as (-> & -> & IH). split_and!; [done | done |].
    intros Hok. by rewrite IH.
Qed.

(** [init_cpu_to_tid] asks for exactly the configured placement.  When every
    running thread has a cpu, a known policy and a priority in its range, the
    calls made are those of the running threads, in the order of their names, up
    to the first that the kernel refuses; it reports a failure exactly when there
    is one, and otherwise the ids of the running threads are stored. *)
Theorem placement_exact m calls :
  use_cpu_to_tid_ m = true -> Forall (configured (cpu_info_list_ m)) (thread_info_list_ m) ->
  let '(failed, m', calls') := init_cpu_to_tid kernel prio_min prio_max task_dir m calls in
  let '(ok, calls'') := attempt (concat (thread_calls (cpu_info_list_ m) <$> thread_info_list_ m)) calls in
  failed = negb ok /\ calls' = calls'' /\ (ok = true -> thread_info_list_ m' = with_tid <$> thread_info_list_ m).
Proof.
  intros Hu Hc. unfold init_cpu_to_tid. rewrite Hu. cbn [negb].
  pose proof (init_threads_eq (cpu_info_list_ m) (thread_info_list_ m) calls Hc) as H.
  destruct (init_threads _ _ _ _ _ _ calls) as [[r threads'] calls']. exact H.
Qed.

(** The flag that turns the placement off is reported as a failure. *)
Lemma disabled_reports_failure m calls :
  use_cpu_to_tid_ m = false -> (init_cpu_to_tid kernel prio_min prio_max task_dir m calls).1.1 = true.
Proof. intros H. unfold init_cpu_to_tid. by rewrite H. Qed.

End Facts.

(** A thread on a cpu that is not configured: the constructor logs the error and
    then reads the missing entry. *)
Theorem thread_without_cpu_undefined ini :
  get_int (codes "cpu_id") (codes "count") 0 ini <= 0 -> 0 < get_int (codes "thread") (codes "count") 0 ini -> new_manager ini = None.
Proof.
  intros Hc Ht. unfold new_manager. rewrite (seqZ_nil 0 _ Hc). cbn [foldl].
  rewrite (seqZ_cons 0) by done. cbn [read_threads]. unfold read_thread. by rewrite lookup_empty.
Qed.

(** ** Witnesses *)

Definition demo_ini : Ini :=
  let put s k v (i : Ini) := set (codes s) (codes k) (codes v) i in
  put "cpu_id" "count" "2" (put "cpu_id" "use_cpu_to_tid" "1" (put "cpu_0" "cpu_type" "0" (put "cpu_1" "cpu_type" "1"
  (put "thread" "count" "2" (put "thread_0" "name" "TradeEngine" (put "thread_0" "cpu_id" "1" (put "thread_0" "prio" "80"
  (put "thread_1" "name" "Logger" (put "thread_1" "cpu_id" "0" (put "thread_1" "nicev" "5" (mkIni ∅ [] [] [] [] []))))))))))).

Definition demo_manager : Manager := default (mkManager ∅ [] false false) (new_manager demo_ini).
Definition demo_tasks : option (list Task) := Some [mkTask (codes "100") true (Some (codes "hft")); mkTask (codes "107") true (Some (codes "TradeEngine"))].

Lemma placement_exact_witness :
  let '(failed, _, calls) := init_cpu_to_tid (fun _ _ => 0) (fun _ => 1) (fun _ => 99) demo_tasks demo_manager [] in
  failed = false /\ calls = [SetAffinity 107 1; GetAffinity 107; SetScheduler 107 1 80; GetScheduler 107].
Proof.
  assert (Hc : Forall (configured (fun _ => 1) (fun _ => 99) demo_tasks (cpu_info_list_ demo_manager)) (thread_info_list_ demo_manager)).
  { constructor; [by left; vm_compute|]. constructor; [|constructor]. right. exists (mkCpu false 1). by vm_compute. }
  assert (Ea : attempt (fun _ _ => 0) (concat (thread_calls demo_tasks (cpu_info_list_ demo_manager) <$> thread_info_list_ demo_manager)) [] =
    (true, [SetAffinity 107 1; GetAffinity 107; SetScheduler 107 1 80; GetScheduler 107])) by (by vm_compute).
  assert (Hu : use_cpu_to_tid_ demo_manager = true) by (by vm_compute).
  pose proof (placement_exact (fun _ _ => 0) (fun _ => 1) (fun _ => 99) demo_tasks demo_manager [] Hu Hc) as H. rewrite Ea in H.
  destruct (init_cpu_to_tid _ _ _ _ _ _) as [[failed m'] calls]. destruct H as (H1 & H2 & _). split; [exact H1 | exact H2].
Defined.

Lemma thread_without_cpu_undefined_witness :
  new_manager (set (codes "cpu_id") (codes "count") (codes "0") demo_ini) = None.
Proof. apply thread_without_cpu_undefined; by vm_compute. Defined.

End CpuManager.
