(* ===== verification/FeatureEngine.v ===== *)
(** * Feature engine (src/hft/src/feature_engine.hpp)

    The trade ratio, the volume-weighted price over a ring of the last trades,
    the trade history ring, the book ticker, the micro price and the order-book
    imbalance.  Signed arithmetic is exact; [uint32_t] and [size_t] indices wrap. *)

From S2P Require Import Prelude Types OrderBookPeek.

Module FeatureEngine.

Definition kMaxTradeHistory : Z := 128.

Record TradeInfo := mkTrade { t_side : Side; price_raw : Z; qty_raw : Z; timestamp : Z }.
#[global] Instance TradeInfo_dflt : Dflt TradeInfo := mkTrade kBuy 0 0 0.

Record BookTickerRaw := mkTicker {
  bt_bid_price : Z; bt_bid_qty : Z; bt_ask_price : Z; bt_ask_qty : Z }.

Record Engine := mkEngine {
  agg_trade_qty_ratio_ : Z;
  vwap_size_ : Z;
  vwap_index_ : Z;
  mkt_price_raw_ : Z;
  spread_raw_ : Z;
  acc_vwap_qty_raw_ : Z;
  acc_vwap_raw_ : Z;
  vwap_raw_ : Z;
  vwap_qty_raw_ : list Z;
  vwap_price_raw_ : list Z;
  recent_trades_ : list TradeInfo;
  trade_history_index_ : Z;
  trade_history_count_ : Z;
  book_ticker_raw_ : BookTickerRaw;
}.

(** The constructor, for the configured [vwap_size]. *)
Definition new_engine (vwap_size : Z) : Engine :=
  mkEngine 0 vwap_size 0 0 0 0 0 0 (replicate (Z.to_nat vwap_size) 0) (replicate (Z.to_nat vwap_size) 0)
    (replicate (Z.to_nat kMaxTradeHistory) dflt) 0 0 (mkTicker 0 0 0 0).

(** The first block of [on_trade_updated]. *)
Definition trade_ratio (side : Side) (qty : Z) (bbo : BBO) (old : Z) : Z :=
  if (0 <? bid_price bbo) && (0 <? ask_price bbo) then
    let denom := match side with kBuy => ask_qty bbo | _ => bid_qty bbo end in
    if 0 <? denom then Z.quot (qty * kSignalScale) denom else old
  else old.

Definition on_trade_updated (u : MarketData) (bbo : BBO) (e : Engine) : Engine :=
  let idx := Z.land (vwap_index_ e) (u32 (vwap_size_ e - 1)) in
  let evict := vwap_size_ e <=? vwap_index_ e in
  let old_q := zget (vwap_qty_raw_ e) idx in
  let old_p := zget (vwap_price_raw_ e) idx in
  let acc_qty := if evict then acc_vwap_qty_raw_ e - old_q else acc_vwap_qty_raw_ e in
  let acc := if evict then acc_vwap_raw_ e - old_p * old_q else acc_vwap_raw_ e in
  let prices := zset (vwap_price_raw_ e) idx (md_price u) in
  let qtys := zset (vwap_qty_raw_ e) idx (md_qty u) in
  let acc_qty := acc_qty + md_qty u in
  let acc := acc + md_price u * md_qty u in
  let vwap := if 0 <? acc_qty then Z.quot acc acc_qty else vwap_raw_ e in
  mkEngine (trade_ratio (md_side u) (md_qty u) bbo (agg_trade_qty_ratio_ e)) (vwap_size_ e)
    (u32 (vwap_index_ e + 1)) (mkt_price_raw_ e) (spread_raw_ e) acc_qty acc vwap qtys prices
    (zset (recent_trades_ e) (trade_history_index_ e) (mkTrade (md_side u) (md_price u) (md_qty u) 0))
    ((trade_history_index_ e + 1) mod kMaxTradeHistory)
    (if trade_history_count_ e <? kMaxTradeHistory then trade_history_count_ e + 1
     else trade_history_count_ e)
    (book_ticker_raw_ e).

Definition on_book_ticker_updated (u : MarketData) (e : Engine) : Engine :=
  let t := book_ticker_raw_ e in
  let t := match md_side u with
           | kBuy => mkTicker (md_price u) (md_qty u) (bt_ask_price t) (bt_ask_qty t)
           | _ => mkTicker (bt_bid_price t) (bt_bid_qty t) (md_price u) (md_qty u)
           end in
  mkEngine (agg_trade_qty_ratio_ e) (vwap_size_ e) (vwap_index_ e) (mkt_price_raw_ e) (spread_raw_ e)
    (acc_vwap_qty_raw_ e) (acc_vwap_raw_ e) (vwap_raw_ e) (vwap_qty_raw_ e) (vwap_price_raw_ e)
    (recent_trades_ e) (trade_history_index_ e) (trade_history_count_ e) t.

Definition on_order_book_updated (bbo : BBO) (e : Engine) : Engine :=
  if (0 <? bid_price bbo) && (0 <? ask_price bbo) then
    let num := bid_price bbo * ask_qty bbo + ask_price bbo * bid_qty bbo in
    let den := bid_qty bbo + ask_qty bbo in
    mkEngine (agg_trade_qty_ratio_ e) (vwap_size_ e) (vwap_index_ e)
      (if 0 <? den then Z.quot num den else mkt_price_raw_ e) (ask_price bbo - bid_price bbo)
      (acc_vwap_qty_raw_ e) (acc_vwap_raw_ e) (vwap_raw_ e) (vwap_qty_raw_ e) (vwap_price_raw_ e)
      (recent_trades_ e) (trade_history_index_ e) (trade_history_count_ e) (book_ticker_raw_ e)
  else e.

(** [vwap_from_levels], before the conversion to a double; [None] is
    [kPriceInvalid]. *)
Definition vwap_from_levels (level : list LevelView) : option Z :=
  let '(num, den) := fold_left (fun '(num, den) l =>
    (num + lv_price_raw l * lv_qty_raw l, den + lv_qty_raw l)) level (0, 0) in
  if den <=? 0 then None else Some (Z.quot num den).

(** [for (; index + 3 < min_size; index += 4)]: the blocks of four; [fuel]
    bounds their number. *)
Fixpoint obi_unrolled (fuel : nat) (index min_size : Z) (bid ask : list Z) (total diff : Z) : Z * Z * Z :=
  match fuel with
  | O => (index, total, diff)
  | S fuel' =>
      if index + 3 <? min_size then
        let b k := zget bid (index + k) in
        let a k := zget ask (index + k) in
        obi_unrolled fuel' (index + 4) min_size bid ask
          (total + ((b 0 + a 0) + (b 1 + a 1) + (b 2 + a 2) + (b 3 + a 3)))
          (diff + ((b 0 - a 0) + (b 1 - a 1) + (b 2 - a 2) + (b 3 - a 3)))
      else (index, total, diff)
  end.

Definition orderbook_imbalance_int64 (bid ask : list Z) : Z :=
  let min_size := Z.min (zlen bid) (zlen ask) in
  let '(index, total, diff) := obi_unrolled (Z.to_nat min_size) 0 min_size bid ask 0 0 in
  let '(total, diff) := fold_left (fun '(total, diff) i =>
    (total + (zget bid i + zget ask i), diff + (zget bid i - zget ask i)))
    (seqZ index (min_size - index)) (total, diff) in
  let '(total, diff) := fold_left (fun '(total, diff) j => (total + zget bid j, diff + zget bid j))
    (seqZ min_size (zlen bid - min_size)) (total, diff) in
  let '(total, diff) := fold_left (fun '(total, diff) j => (total + zget ask j, diff - zget ask j))
    (seqZ min_size (zlen ask - min_size)) (total, diff) in
  if total <=? 0 then 0 else Z.quot (diff * kObiScale) total.

Definition get_mid_price (e : Engine) : Z :=
  Z.quot (bt_bid_price (book_ticker_raw_ e) + bt_ask_price (book_ticker_raw_ e)) 2.

Definition get_spread_fast (e : Engine) : Z :=
  bt_ask_price (book_ticker_raw_ e) - bt_bid_price (book_ticker_raw_ e).

Definition get_trade (offset : Z) (e : Engine) : TradeInfo :=
  zget (recent_trades_ e)
    (Z.land (u64 (trade_history_index_ e + kMaxTradeHistory - 1 - offset)) (kMaxTradeHistory - 1)).

(** ** Order-book imbalance *)

Lemma zsum_drop l i : 0 <= i < zlen l -> zsum (drop (Z.to_nat i) l) = zget l i + zsum (drop (Z.to_nat (i + 1)) l).
Proof.
  intros Hi. pose proof (zget_Some l i Hi) as E.
  rewrite (drop_S _ _ _ E). replace (Z.to_nat (i + 1)) with (S (Z.to_nat i)) by lia. done.
Qed.

Lemma zsum_drop_all l i : zlen l <= i -> zsum (drop (Z.to_nat i) l) = 0.
Proof. intros Hi. rewrite drop_ge; [done|]. unfold zlen in Hi. lia. Qed.

(** What remains to be added from [index] on. *)
Definition rest_sums (bid ask : list Z) (index : Z) (s : Z * Z) : Prop :=
  let b := zsum (drop (Z.to_nat index) bid) in
  let a := zsum (drop (Z.to_nat index) ask) in
  s.1 + (b + a) = zsum bid + zsum ask /\ s.2 + (b - a) = zsum bid - zsum ask.

Lemma obi_unrolled_spec fuel bid ask min_size index total diff :
  min_size = Z.min (zlen bid) (zlen ask) -> 0 <= index <= min_size ->
  rest_sums bid ask index (total, diff) ->
  let '(index', total', diff') := obi_unrolled fuel index min_size bid ask total diff in
  0 <= index' <= min_size /\ rest_sums bid ask index' (total', diff').
Proof.
  intros Hmin. revert index total diff.
  induction fuel as [|fuel IH]; intros index total diff Hi Hr; cbn [obi_unrolled]; [done|].
  destruct (Z.ltb_spec (index + 3) min_size); [|done]. apply IH; [lia|].
  unfold rest_sums in *. cbn [fst snd] in *.
  rewrite (zsum_drop bid index), (zsum_drop bid (index + 1)), (zsum_drop bid (index + 1 + 1)),
    (zsum_drop bid (index + 1 + 1 + 1)) in Hr by lia.
  rewrite (zsum_drop ask index), (zsum_drop ask (index + 1)), (zsum_drop ask (index + 1 + 1)),
    (zsum_drop ask (index + 1 + 1 + 1)) in Hr by lia.
  rewrite Z.add_0_r. replace (index + 2) with (index + 1 + 1) by lia.
  replace (index + 3) with (index + 1 + 1 + 1) by lia. replace (index + 4) with (index + 1 + 1 + 1 + 1) by lia. lia.
Qed.

(** A loop over [index, ..., stop - 1] that adds one element at a time. *)
Lemma fold_range_spec {S} (P : Z -> S -> Prop) (f : S -> Z -> S) start stop s :
  start <= stop -> (forall i s, start <= i < stop -> P i s -> P (i + 1) (f s i)) ->
  P start s -> P stop (fold_left f (seqZ start (stop - start)) s).
Proof.
  intros Hle Hf. remember (Z.to_nat (stop - start)) as n eqn:Hn. revert start s Hle Hf Hn.
  induction n as [|n IH]; intros start s Hle Hf Hn H0.
  - replace (stop - start) with 0 by lia. cbn. by replace stop with start by lia.
  - rewrite seqZ_cons by lia. cbn [fold_left].
    replace (Z.pred (stop - start)) with (stop - Z.succ start) by lia. apply IH; [lia | | lia |].
    + intros i s' Hi. apply Hf. lia.
    + apply Hf; [lia | done].
Qed.

Lemma imbalance_exact bid ask :
  orderbook_imbalance_int64 bid ask =
  if zsum bid + zsum ask <=? 0 then 0
  else Z.quot ((zsum bid - zsum ask) * kObiScale) (zsum bid + zsum ask).
Proof.
  unfold orderbook_imbalance_int64. set (mn := Z.min _ _).
  assert (Hmn : 0 <= mn) by (unfold mn, zlen; lia).
  pose proof (obi_unrolled_spec (Z.to_nat mn) bid ask mn 0 0 0 eq_refl ltac:(lia)) as H1.
  destruct (obi_unrolled _ _ _ _ _ _ _) as [[index total] diff].
  destruct H1 as [Hidx H1]; [unfold rest_sums; change (Z.to_nat 0) with 0%nat; rewrite !drop_0; cbn [fst snd]; lia|].
  set (f1 := fun '(total, diff) i => _ : Z * Z).
  pose proof (fold_range_spec (rest_sums bid ask) f1 index mn (total, diff) ltac:(lia)) as H2.
  destruct (fold_left f1 _ _) as [t2 d2]. specialize (H2).
  assert (Hr2 : rest_sums bid ask mn (t2, d2)).
  { apply H2; [|done]. intros i [t d] Hi Hr. unfold rest_sums, f1 in *. cbn [fst snd] in *.
    rewrite (zsum_drop bid i), (zsum_drop ask i) in Hr by lia. lia. }
  clear H1 H2 f1. set (f2 := fun '(total, diff) j => _ : Z * Z).
  set (B i (s : Z * Z) := s.1 + zsum (drop (Z.to_nat i) bid) + zsum (drop (Z.to_nat mn) ask) = zsum bid + zsum ask /\
    s.2 + zsum (drop (Z.to_nat i) bid) - zsum (drop (Z.to_nat mn) ask) = zsum bid - zsum ask).
  pose proof (fold_range_spec B f2 mn (zlen bid) (t2, d2) ltac:(lia)) as H3.
  destruct (fold_left f2 _ _) as [t3 d3].
  assert (Hr3 : B (zlen bid) (t3, d3)).
  { apply H3; [|unfold B, rest_sums in *; cbn [fst snd] in *; lia]. intros i [t d] Hi Hr. unfold B, f2 in *.
    cbn [fst snd] in *. rewrite (zsum_drop bid i) in Hr by lia. lia. }
  clear H3 f2. unfold B in Hr3. cbn [fst snd] in Hr3. rewrite zsum_drop_all in Hr3 by lia.
  set (f3 := fun '(total, diff) j => _ : Z * Z).
  set (C i (s : Z * Z) := s.1 + zsum (drop (Z.to_nat i) ask) = zsum bid + zsum ask /\
    s.2 - zsum (drop (Z.to_nat i) ask) = zsum bid - zsum ask).
  pose proof (fold_range_spec C f3 mn (zlen ask) (t3, d3) ltac:(lia)) as H4.
  destruct (fold_left f3 _ _) as [t4 d4].
  assert (Hr4 : C (zlen ask) (t4, d4)).
  { apply H4; [|unfold C; cbn [fst snd]; lia]. intros i [t d] Hi Hr. unfold C, f3 in *.
    cbn [fst snd] in *. rewrite (zsum_drop ask i) in Hr by lia. lia. }
  unfold C in Hr4. cbn [fst snd] in Hr4. rewrite zsum_drop_all in Hr4 by lia.
  by replace t4 with (zsum bid + zsum ask) by lia; replace d4 with (zsum bid - zsum ask) by lia.
Qed.

Lemma zsum_nonneg l : Forall (fun x => 0 <= x) l -> 0 <= zsum l.
Proof. induction 1; simpl; unfold zsum in *; lia. Qed.

(** The imbalance of the unrolled loop is the imbalance of the sums, scaled
    and truncated, zero for an empty book; for non-negative quantities it lies
    between minus and plus the scale, and it reaches an end exactly when the
    other side is empty. *)
Theorem imbalance_is_ratio_of_sums bid ask :
  Forall (fun x => 0 <= x) bid -> Forall (fun x => 0 <= x) ask ->
  let r := orderbook_imbalance_int64 bid ask in
  r = (if zsum bid + zsum ask <=? 0 then 0
       else Z.quot ((zsum bid - zsum ask) * kObiScale) (zsum bid + zsum ask)) /\
  - kObiScale <= r <= kObiScale /\
  (0 < zsum bid -> (r = kObiScale <-> zsum ask = 0)) /\
  (0 < zsum ask -> (r = - kObiScale <-> zsum bid = 0)).
Proof.
  intros Hb%zsum_nonneg Ha%zsum_nonneg. cbn zeta. rewrite imbalance_exact.
  set (b := zsum bid) in *. set (a := zsum ask) in *. split; [done|]. unfold kObiScale.
  destruct (Z.leb_spec (b + a) 0); [lia|].
  set (q := Z.quot ((b - a) * 10000) (b + a)).
  pose proof (Z.quot_rem ((b - a) * 10000) (b + a) ltac:(lia)) as E. fold q in E.
  pose proof (Z.rem_bound_abs ((b - a) * 10000) (b + a) ltac:(lia)) as Hr.
  pose proof (Z.rem_sign_mul ((b - a) * 10000) (b + a) ltac:(lia)) as Hs.
  set (r := Z.rem _ _) in *. split_and!; [nia | nia | |]; intros Hp; split; intros; nia.
Qed.

Lemma imbalance_is_ratio_of_sums_witness :
  orderbook_imbalance_int64 [5; 4; 3; 2; 1] [1; 1; 1; 1; 1; 5] = 2000 /\
  - kObiScale <= orderbook_imbalance_int64 [5; 4; 3; 2; 1] [1; 1; 1; 1; 1; 5] <= kObiScale.
Proof.
  split; [by vm_compute|].
  apply (imbalance_is_ratio_of_sums [5; 4; 3; 2; 1] [1; 1; 1; 1; 1; 5]); repeat constructor; lia.
Defined.

(** ** Trade windows *)

Section Windows.

(** [vwap_size] is a power of two that the index reaches before it wraps. *)
Context (k : Z) (Hk : 0 <= k <= 31).

Definition size : Z := 2 ^ k.

(** Trades with the quotes they were seen at. *)
Definition run (history : list (MarketData * BBO)) : Engine :=
  fold_left (fun e '(u, bbo) => on_trade_updated u bbo e) history (new_engine size).

Definition as_trade (u : MarketData) : TradeInfo := mkTrade (md_side u) (md_price u) (md_qty u) 0.

Definition qty_of (t : MarketData * BBO) : Z := md_qty t.1.
Definition price_of (t : MarketData * BBO) : Z := md_price t.1.
Definition value_of (t : MarketData * BBO) : Z := md_price t.1 * md_qty t.1.

Record window_ok (h : list (MarketData * BBO)) (e : Engine) : Prop := {
  w_size : vwap_size_ e = size;
  w_index : vwap_index_ e = u32 (zlen h);
  w_qty : ring size qty_of h (vwap_qty_raw_ e);
  w_price : ring size price_of h (vwap_price_raw_ e);
  w_trades : ring kMaxTradeHistory (fun t => as_trade t.1) h (recent_trades_ e);
  w_hist : trade_history_index_ e = zlen h mod kMaxTradeHistory;
  w_count : trade_history_count_ e = Z.min (zlen h) kMaxTradeHistory;
  w_acc_qty : acc_vwap_qty_raw_ e = zsum (qty_of <$> lastn size h);
  w_acc : acc_vwap_raw_ e = zsum (value_of <$> lastn size h);
  w_vwap : 0 < acc_vwap_qty_raw_ e -> vwap_raw_ e = Z.quot (acc_vwap_raw_ e) (acc_vwap_qty_raw_ e);
}.

Lemma size_pos : 0 < size <= 2147483648.
Proof using Hk.
  unfold size. split; [lia|]. change 2147483648 with (2 ^ 31). apply Z.pow_le_mono_r; lia.
Qed.

Lemma land_size n : 0 <= n -> Z.land n (u32 (size - 1)) = n mod size.
Proof using Hk.
  intros Hn. pose proof size_pos. unfold u32, two32. rewrite Z.mod_small by lia.
  unfold size. replace (2 ^ k - 1) with (Z.ones k) by (rewrite Z.ones_equiv; lia). apply Z.land_ones. lia.
Qed.

Lemma window_new : window_ok [] (new_engine size).
Proof using Hk.
  pose proof size_pos. assert (Hr : forall {B} `{Dflt B} (f : MarketData * BBO -> B) n d,
    0 <= n -> ring n f [] (replicate (Z.to_nat n) d)).
  { intros B HB f n d Hn. split; [rewrite zlen_replicate; lia | done]. }
  constructor; cbn; try done; try (apply Hr; unfold kMaxTradeHistory; lia).
Qed.

(** The accumulators after an eviction. *)
Lemma evict_sum (f : MarketData * BBO -> Z) h x :
  zlen h >= size -> lastn size h = x :: lastn (size - 1) h ->
  zsum (f <$> lastn size h) - f x = zsum (f <$> lastn (size - 1) h).
Proof. intros _ ->. rewrite fmap_cons. unfold zsum. simpl. lia. Qed.

Lemma window_step h u bbo e :
  zlen h < two32 -> window_ok h e -> window_ok (h ++ [(u, bbo)]) (on_trade_updated u bbo e).
Proof using Hk.
  intros Hlt [Hs Hi Hq Hp Ht Hx Hc Haq Ha Hv]. pose proof size_pos as Hsz.
  pose proof (zlen_nonneg h) as H0.
  assert (Hidx : vwap_index_ e = zlen h) by (rewrite Hi; unfold u32; apply Z.mod_small; lia).
  assert (Hslot : Z.land (vwap_index_ e) (u32 (vwap_size_ e - 1)) = zlen h mod size)
    by (rewrite Hs, Hidx; by apply land_size).
  assert (Hlen : zlen (h ++ [(u, bbo)]) = zlen h + 1) by (rewrite zlen_app; done).
  unfold on_trade_updated. rewrite Hslot.
  set (evict := vwap_size_ e <=? vwap_index_ e).
  assert (Hsum : forall (f : MarketData * BBO -> Z) acc gone, acc = zsum (f <$> lastn size h) ->
    (size <= zlen h -> forall x, lastn size h = x :: lastn (size - 1) h ->
       zget (vwap_qty_raw_ e) (zlen h mod size) = qty_of x ->
       zget (vwap_price_raw_ e) (zlen h mod size) = price_of x -> gone = f x) ->
    (if evict then acc - gone else acc) + f (u, bbo) = zsum (f <$> lastn size (h ++ [(u, bbo)]))).
  { intros f acc gone -> Hgone. rewrite lastn_snoc, fmap_app, zsum_app by lia. simpl.
    unfold evict. rewrite Hs, Hidx. destruct (Z.leb_spec size (zlen h)) as [Hle|Hgt].
    - destruct (ring_oldest size qty_of h _ ltac:(lia) Hq Hle) as (x & Ex & Eq).
      destruct (ring_oldest size price_of h _ ltac:(lia) Hp Hle) as (y & Ey & Ep).
      assert (y = x) as -> by congruence.
      rewrite (Hgone Hle x Ex Eq Ep), <- (evict_sum f h x) by (done || lia). lia.
    - rewrite !lastn_all by lia. lia. }
  constructor; cbn; rewrite ?Hlen.
  - done.
  - rewrite Hi. unfold u32. by rewrite Zplus_mod_idemp_l.
  - apply (ring_snoc size qty_of h _ (u, bbo)); [lia | done].
  - apply (ring_snoc size price_of h _ (u, bbo)); [lia | done].
  - rewrite Hx. by apply (ring_snoc kMaxTradeHistory (fun t => as_trade t.1) h _ (u, bbo)).
  - rewrite Hx. by rewrite Zplus_mod_idemp_l.
  - rewrite Hc. unfold kMaxTradeHistory. destruct (Z.ltb_spec (Z.min (zlen h) 128) 128); lia.
  - apply (Hsum qty_of); [done|]. intros _ x _ Eq _. exact Eq.
  - apply (Hsum value_of); [done|]. intros _ x _ Eq Ep. rewrite Eq, Ep. done.
  - intros Hpos. by rewrite (proj2 (Z.ltb_lt _ _) Hpos).
Qed.

Lemma run_ok h : zlen h <= two32 -> window_ok h (run h).
Proof using Hk.
  unfold run. induction h as [|[u bbo] h IH] using rev_ind; intros Hlen; [apply window_new|].
  rewrite zlen_app in Hlen. change (zlen [(u, bbo)]) with 1 in Hlen.
  rewrite fold_left_app. cbn [fold_left]. apply window_step; [lia | apply IH; lia].
Qed.

(** The volume-weighted price is over the last trades.  For a window size
    that is a power of two and up to [2^32] trades, the accumulators are the sums
    of quantity and of price times quantity over the last [vwap_size] trades,
    the price is their truncated quotient whenever the quantity is positive, and
    [get_trade] returns the trades of the history, the most recent first. *)
Theorem vwap_window_exact h :
  zlen h <= two32 ->
  let e := run h in
  acc_vwap_qty_raw_ e = zsum (qty_of <$> lastn size h) /\
  acc_vwap_raw_ e = zsum (value_of <$> lastn size h) /\
  (0 < zsum (qty_of <$> lastn size h) ->
   vwap_raw_ e = Z.quot (zsum (value_of <$> lastn size h)) (zsum (qty_of <$> lastn size h))) /\
  trade_history_count_ e = Z.min (zlen h) kMaxTradeHistory /\
  forall offset u, 0 <= offset < trade_history_count_ e ->
    h !! Z.to_nat (zlen h - 1 - offset) = Some u -> get_trade offset e = as_trade u.1.
Proof using Hk.
  intros Hlen e. destruct (run_ok h Hlen) as [_ _ _ _ [_ Ht] Hx Hc Haq Ha Hv]. fold e in Ht, Hx, Hc, Haq, Ha, Hv.
  rewrite <- Haq, <- Ha. split_and!; try done.
  intros offset u Hoff Hu. rewrite Hc in Hoff. unfold kMaxTradeHistory in *.
  unfold get_trade, kMaxTradeHistory. rewrite Hx.
  pose proof (Z.mod_pos_bound (zlen h) 128 ltac:(lia)) as Hm.
  rewrite u64_small by (unfold in_u64, two64; lia).
  change (128 - 1) with (Z.ones 7). rewrite Z.land_ones by lia. change (2 ^ 7) with 128.
  rewrite <- (Ht _ _ Hu) by lia. f_equal. rewrite Z2Nat.id by lia.
  replace (zlen h mod 128 + 128 - 1 - offset) with (zlen h mod 128 + (-1 - offset) + 1 * 128) by lia.
  rewrite Z_mod_plus_full, Zplus_mod_idemp_l. f_equal. lia.
Qed.

End Windows.

Definition demo_trade (price qty : Z) : MarketData * BBO :=
  (mkMarketData MUTrade 0 "BTCUSDC" kBuy price qty, mkBBO 99 101 5 5).

Lemma vwap_window_exact_witness :
  let h := [demo_trade 100 5; demo_trade 110 2; demo_trade 120 3] in
  vwap_raw_ (run 1 h) = 116 /\ acc_vwap_qty_raw_ (run 1 h) = zsum (qty_of <$> lastn (size 1) h).
Proof.
  split; [by vm_compute|].
  apply (vwap_window_exact 1 ltac:(lia) [demo_trade 100 5; demo_trade 110 2; demo_trade 120 3]).
  by vm_compute.
Defined.

End FeatureEngine.
