(* ===== verification/RobustZScore.v ===== *)
(** * Robust z-score
      (src/hft/src/strategy/mean_reversion_maker/robust_zscore.h)

    The window of the last prices, kept in order of arrival and sorted, the
    exponential averages of the price and of its deviation, and the history of
    the deviations that were used.  [calculate_zscore] changes that history (the
    members are [mutable]) and so returns the new state.  [None] stands for an
    [erase] at the end of a vector and for a division by zero. *)

From S2P Require Import Prelude Types.

Module RobustZScore.

(** ** Configuration *)

Definition kWindowSize : Z := 30.
Definition kMinSamples : Z := 20.
Definition kMinMadThresholdRaw : Z := 50.
Definition kEmaAlpha : Z := 645.
Definition kBaselineWindow : Z := 100.
Definition kBaselineMinHistory : Z := 30.
Definition kMinVolScalar : Z := 7000.
Definition kMaxVolScalar : Z := 13000.
Definition kVolRatioLow : Z := 5000.
Definition kVolRatioHigh : Z := 20000.
Definition kMadScaleFactor : Z := 14826.
Definition kMadScaleDivisor : Z := 10000.

Record RobustZScoreConfig := mkConfig {
  window_size : Z;
  min_samples : Z;
  min_mad_threshold_raw : Z;
  ema_alpha : Z;
  baseline_window : Z;
  min_vol_scalar : Z;
  max_vol_scalar : Z;
  vol_ratio_low : Z;
  vol_ratio_high : Z;
  baseline_min_history : Z;
}.

Definition RobustZScoreConfig_default : RobustZScoreConfig :=
  mkConfig kWindowSize kMinSamples kMinMadThresholdRaw kEmaAlpha kBaselineWindow
    kMinVolScalar kMaxVolScalar kVolRatioLow kVolRatioHigh kBaselineMinHistory.

(** ** State *)

Record RobustZScore := mkZ {
  prices_ : list Z;
  sorted_prices_ : list Z;
  ema_price_ : Z;
  emad_ : Z;
  sample_count_ : Z;
  emad_history_ : list Z;
  emad_sum_ : Z;
}.

Definition new_zscore : RobustZScore := mkZ [] [] 0 0 0 [] 0.

(** [std::lower_bound] on a sorted vector: the position of the first element
    that is not below [x]. *)
Fixpoint lower_bound (l : list Z) (x : Z) : nat :=
  match l with
  | y :: l' => if y <? x then S (lower_bound l' x) else O
  | [] => O
  end.

(** [vector::insert(begin + pos, x)] and [vector::erase(begin + pos)]. *)
Definition vec_insert (pos : nat) (x : Z) (l : list Z) : list Z := take pos l ++ x :: drop pos l.
Definition vec_erase (pos : nat) (l : list Z) : option (list Z) :=
  if (pos <? length l)%nat then Some (delete pos l) else None.

Section ops.
Context (cfg : RobustZScoreConfig).

(** ** Operations *)

(** The two averages of [on_price]; both read the previous average price. *)
Definition update_averages (price_raw : Z) (z : RobustZScore) : Z * Z :=
  if sample_count_ z =? 0 then (price_raw, 0)
  else
    let deviation := Z.abs (price_raw - ema_price_ z) in
    (ema kEmaScale (ema_alpha cfg) price_raw (ema_price_ z),
     ema kEmaScale (ema_alpha cfg) deviation (emad_ z)).

Definition on_price (price_raw : Z) (z : RobustZScore) : option RobustZScore :=
  let prices := prices_ z ++ [price_raw] in
  let insert_pos := lower_bound (sorted_prices_ z) price_raw in
  let sorted_prices := vec_insert insert_pos price_raw (sorted_prices_ z) in
  '(prices, sorted_prices) ←
    (if u64 (window_size cfg) <? zlen prices then
       match prices with
       | [] => None
       | old_val :: prices' =>
           let remove_pos := lower_bound sorted_prices old_val in
           sorted' ← vec_erase remove_pos sorted_prices;
           Some (prices', sorted')
       end
     else Some (prices, sorted_prices));
  let '(ema_price, emad) := update_averages price_raw z in
  Some (mkZ prices sorted_prices ema_price emad (sample_count_ z + 1) (emad_history_ z) (emad_sum_ z)).

Definition calculate_median (z : RobustZScore) : Z :=
  let l := sorted_prices_ z in
  if bool_decide (l = []) then 0
  else
    let mid := zlen l / 2 in
    if zlen l mod 2 =? 0 then Z.quot (zget l (mid - 1) + zget l mid) 2
    else zget l mid.

Definition get_median : RobustZScore -> Z := calculate_median.

(** [emad_sum_] and [emad_history_] after a call that gets past the guard. *)
Definition push_emad (z : RobustZScore) : RobustZScore :=
  let sum := emad_sum_ z + emad_ z in
  let history := emad_history_ z ++ [emad_ z] in
  let '(history, sum) :=
    if u64 (baseline_window cfg) <? zlen history then
      match history with
      | [] => (history, sum)
      | front :: history' => (history', sum - front)
      end
    else (history, sum) in
  mkZ (prices_ z) (sorted_prices_ z) (ema_price_ z) (emad_ z) (sample_count_ z) history sum.

Definition get_robust_std (z : RobustZScore) : Z := Z.quot (emad_ z * kMadScaleFactor) kMadScaleDivisor.

Definition calculate_zscore (current_price_raw : Z) (z : RobustZScore) : Z * RobustZScore :=
  if zlen (prices_ z) <? u64 (min_samples cfg) then (0, z)
  else
    let median := calculate_median z in
    let z := push_emad z in
    let robust_std := Z.max (get_robust_std z) (min_mad_threshold_raw cfg) in
    if robust_std =? 0 then (0, z)
    else
      let delta := current_price_raw - median in
      (Z.quot (delta * kZScoreScale) robust_std, z).

Definition calculate_baseline_emad (z : RobustZScore) : option Z :=
  if zlen (emad_history_ z) <? u64 (baseline_min_history cfg) then Some (emad_ z)
  else
    let count := Z.min (zlen (emad_history_ z)) (u64 (baseline_window cfg)) in
    if i64 count =? 0 then None else Some (Z.quot (emad_sum_ z) (i64 count)).

Definition get_adaptive_threshold (base_threshold_scaled : Z) (z : RobustZScore) : option Z :=
  baseline_emad ← calculate_baseline_emad z;
  let current_emad := emad_ z in
  if baseline_emad =? 0 then Some base_threshold_scaled
  else
    let vol_ratio := Z.quot (current_emad * kSignalScale) baseline_emad in
    let vol_range := vol_ratio_high cfg - vol_ratio_low cfg in
    if vol_range =? 0 then Some base_threshold_scaled
    else
      let vol_scalar :=
        if vol_ratio <=? vol_ratio_low cfg then min_vol_scalar cfg
        else if vol_ratio_high cfg <=? vol_ratio then max_vol_scalar cfg
        else min_vol_scalar cfg +
             Z.quot ((max_vol_scalar cfg - min_vol_scalar cfg) * (vol_ratio - vol_ratio_low cfg)) vol_range in
      Some (Z.quot (base_threshold_scaled * vol_scalar) kSignalScale).

(** ** Histories

    The calls a strategy makes: prices as trades come in, scores when it looks. *)
Inductive call := OnPrice (price_raw : Z) | CalculateZScore (current_price_raw : Z).

Definition step (c : call) (z : RobustZScore) : option RobustZScore :=
  match c with
  | OnPrice p => on_price p z
  | CalculateZScore p => Some (snd (calculate_zscore p z))
  end.

Definition run (calls : list call) : option RobustZScore :=
  foldl (fun acc c => acc ≫= step c) (Some new_zscore) calls.

Definition fed (calls : list call) : list Z :=
  omap (fun c => match c with OnPrice p => Some p | CalculateZScore _ => None end) calls.

(** ** The sorted window *)

Lemma vec_insert_perm pos x l : vec_insert pos x l ≡ₚ x :: l.
Proof. unfold vec_insert. by rewrite <- Permutation_middle, take_drop. Qed.

Lemma insert_sorted l x :
  StronglySorted Z.le l -> StronglySorted Z.le (vec_insert (lower_bound l x) x l).
Proof.
  induction l as [|y l IH]; intros Hs; [by repeat constructor|].
  apply StronglySorted_inv in Hs as [Hs Hy]. simpl. destruct (Z.ltb_spec y x) as [Hlt|Hge].
  - constructor; [by apply IH|]. change (Forall (Z.le y) (vec_insert (lower_bound l x) x l)).
    rewrite vec_insert_perm. constructor; [lia | done].
  - constructor; [by constructor|]. constructor; [lia|].
    eapply Forall_impl; [exact Hy|]. simpl. lia.
Qed.

Lemma lower_bound_found l x :
  StronglySorted Z.le l -> x ∈ l -> l !! lower_bound l x = Some x.
Proof.
  induction l as [|y l IH]; intros Hs Hx; [by apply not_elem_of_nil in Hx|].
  apply StronglySorted_inv in Hs as [Hs Hy]. rewrite Forall_forall in Hy.
  apply elem_of_cons in Hx. simpl. destruct (Z.ltb_spec y x) as [Hlt|Hge]; simpl.
  - destruct Hx as [->|Hx]; [lia | auto].
  - destruct Hx as [->|Hx]; [done|]. apply Hy in Hx. f_equal. lia.
Qed.

Lemma erase_sorted l x :
  StronglySorted Z.le l -> x ∈ l ->
  exists l', vec_erase (lower_bound l x) l = Some l' /\ StronglySorted Z.le l' /\ l ≡ₚ x :: l'.
Proof.
  intros Hs Hx. pose proof (lower_bound_found l x Hs Hx) as E.
  pose proof (lookup_lt_Some _ _ _ E) as Hlt. exists (delete (lower_bound l x) l).
  unfold vec_erase. rewrite (proj2 (Nat.ltb_lt _ _) Hlt). split_and!; [done | |].
  - eapply StronglySorted_sublist; [apply sublist_delete | done].
  - by apply delete_Permutation.
Qed.

(** ** Ranks in a sorted list *)

Definition below (m : Z) (l : list Z) : Z := zlen (filter (fun p => p < m) l).
Definition above (m : Z) (l : list Z) : Z := zlen (filter (fun p => m < p) l).

Lemma below_perm m l l' : l ≡ₚ l' -> below m l = below m l'.
Proof. intros E. unfold below, zlen. by rewrite E. Qed.
Lemma above_perm m l l' : l ≡ₚ l' -> above m l = above m l'.
Proof. intros E. unfold above, zlen. by rewrite E. Qed.

Lemma sorted_split l i a :
  StronglySorted Z.le l -> l !! i = Some a ->
  Forall (fun p => p <= a) (take (S i) l) /\ Forall (fun p => a <= p) (drop i l).
Proof.
  intros Hs. revert i. induction Hs as [|y l Hs IH Hy]; intros [|i] E; simplify_eq/=.
  - split; [constructor; [lia|constructor]|]. constructor; [lia | done].
  - destruct (IH i E) as [Ht Hd]. split; [|done]. constructor; [|done].
    rewrite Forall_forall in Hy. apply Hy. by eapply list_elem_of_lookup_2.
Qed.

Lemma filter_none {A} (P : A -> Prop) `{!forall x, Decision (P x)} l :
  Forall (fun x => ~ P x) l -> filter P l = [].
Proof. induction 1; [done|]. by rewrite filter_cons_False. Qed.

Lemma below_rank l i a m :
  StronglySorted Z.le l -> l !! i = Some a -> m <= a -> below m l <= Z.of_nat i.
Proof.
  intros Hs E Hm. destruct (sorted_split l i a Hs E) as [_ Hd]. unfold below, zlen.
  rewrite <- (take_drop i l), filter_app, (filter_none _ (drop i l)), app_nil_r.
  - pose proof (length_filter (fun p => p < m) (take i l)). rewrite length_take in *. lia.
  - eapply Forall_impl; [exact Hd|]. simpl. lia.
Qed.

Lemma above_rank l i a m :
  StronglySorted Z.le l -> l !! i = Some a -> a <= m -> above m l <= zlen l - Z.of_nat i - 1.
Proof.
  intros Hs E Hm. destruct (sorted_split l i a Hs E) as [Ht _].
  pose proof (lookup_lt_Some _ _ _ E) as Hlt. unfold above, zlen.
  rewrite <- (take_drop (S i) l) at 1. rewrite filter_app, (filter_none _ (take (S i) l)).
  - pose proof (length_filter (fun p => m < p) (drop (S i) l)). rewrite length_drop in *. simpl. lia.
  - eapply Forall_impl; [exact Ht|]. simpl. lia.
Qed.

(** At most half of a sorted window lies on either side of its median. *)
Lemma median_splits z :
  StronglySorted Z.le (sorted_prices_ z) ->
  2 * below (get_median z) (sorted_prices_ z) <= zlen (sorted_prices_ z) /\
  2 * above (get_median z) (sorted_prices_ z) <= zlen (sorted_prices_ z).
Proof.
  unfold get_median, calculate_median. set (l := sorted_prices_ z). intros Hs.
  case_bool_decide as Hl; [by rewrite Hl|].
  assert (Hn : 0 < zlen l) by (destruct l; [done | unfold zlen; simpl; lia]).
  assert (Hmid : 0 <= zlen l / 2 < zlen l) by zdiv.
  pose proof (zget_Some l (zlen l / 2) Hmid) as Eb.
  destruct (Z.eqb_spec (zlen l mod 2) 0) as [Heven|Hodd].
  - assert (Hmid' : 0 <= zlen l / 2 - 1 < zlen l) by zdiv.
    pose proof (zget_Some l (zlen l / 2 - 1) Hmid') as Ea.
    set (a := zget l (zlen l / 2 - 1)) in *. set (b := zget l (zlen l / 2)) in *.
    assert (Hab : a <= b).
    { destruct (sorted_split l _ a Hs Ea) as [_ Hd]. rewrite Forall_forall in Hd. apply Hd.
      apply list_elem_of_lookup_2 with 1%nat. rewrite lookup_drop.
      by replace (Z.to_nat (zlen l / 2 - 1) + 1)%nat with (Z.to_nat (zlen l / 2)) by lia. }
    assert (Hm : a <= Z.quot (a + b) 2 <= b) by (Z.to_euclidean_division_equations; lia).
    pose proof (below_rank l _ b (Z.quot (a + b) 2) Hs Eb ltac:(lia)).
    pose proof (above_rank l _ a (Z.quot (a + b) 2) Hs Ea ltac:(lia)). split; zdiv.
  - pose proof (below_rank l _ _ (zget l (zlen l / 2)) Hs Eb (Z.le_refl _)).
    pose proof (above_rank l _ _ (zget l (zlen l / 2)) Hs Eb (Z.le_refl _)). split; zdiv.
Qed.

(** ** Invariants *)

(** [window_size_], [baseline_window_] and [baseline_min_history_] are [int]s. *)
Definition pos_int (n : Z) : Prop := 0 < n < 2147483648.

Lemma pos_int_u64 n : pos_int n -> u64 n = n.
Proof. unfold pos_int. intros ?. apply u64_small. unfold in_u64, two64. lia. Qed.

Record window_ok (ps : list Z) (z : RobustZScore) : Prop := {
  wk_prices : prices_ z = lastn (window_size cfg) ps;
  wk_perm : sorted_prices_ z ≡ₚ prices_ z;
  wk_sorted : StronglySorted Z.le (sorted_prices_ z);
}.

Lemma on_price_ok ps p z :
  pos_int (window_size cfg) -> window_ok ps z ->
  exists z', on_price p z = Some z' /\ window_ok (ps ++ [p]) z' /\
    (ema_price_ z', emad_ z') = update_averages p z /\ sample_count_ z' = sample_count_ z + 1 /\
    emad_history_ z' = emad_history_ z /\ emad_sum_ z' = emad_sum_ z.
Proof.
  intros Hw [Hp Hperm Hs]. unfold on_price. rewrite pos_int_u64 by done.
  pose proof (insert_sorted _ p Hs) as Hins. set (l := vec_insert _ _ _) in *.
  assert (Hl : l ≡ₚ prices_ z ++ [p])
    by (unfold l; rewrite vec_insert_perm, Hperm; apply Permutation_cons_append).
  pose proof (lastn_push (window_size cfg) ps p (proj1 Hw)) as Hpush. rewrite <- Hp in Hpush.
  destruct (update_averages p z) as [e d]. destruct (Z.ltb_spec (window_size cfg) (zlen (prices_ z ++ [p]))).
  - destruct (prices_ z ++ [p]) as [|old rest] eqn:Eq; [by apply app_eq_nil in Eq as [_ ?]|].
    destruct (erase_sorted l old Hins) as (l' & -> & Hs' & Hl'); [rewrite Hl; left|].
    eexists. split; [reflexivity|]. split_and!; try done. split; try done. simpl.
    rewrite Hl' in Hl. by apply Permutation_cons_inv in Hl.
  - eexists. split; [reflexivity|]. split_and!; try done.
Qed.

(** [calculate_zscore] leaves everything but the history alone. *)
Lemma calculate_zscore_state p z :
  let z' := snd (calculate_zscore p z) in z' = z \/ z' = push_emad z.
Proof.
  unfold calculate_zscore. destruct (_ <? _); [by left|]. right. by destruct (_ =? 0).
Qed.

Lemma push_emad_frame z :
  prices_ (push_emad z) = prices_ z /\ sorted_prices_ (push_emad z) = sorted_prices_ z /\
  ema_price_ (push_emad z) = ema_price_ z /\ emad_ (push_emad z) = emad_ z /\
  sample_count_ (push_emad z) = sample_count_ z.
Proof. unfold push_emad. by destruct (_ <? _), (emad_history_ z ++ [_]). Qed.

Lemma run_snoc calls c : run (calls ++ [c]) = run calls ≫= step c.
Proof. unfold run. by rewrite foldl_app. Qed.

Lemma fed_snoc calls c :
  fed (calls ++ [c]) = fed calls ++ match c with OnPrice p => [p] | CalculateZScore _ => [] end.
Proof. unfold fed. rewrite omap_app. by destruct c. Qed.

Lemma run_window calls :
  pos_int (window_size cfg) -> exists z, run calls = Some z /\ window_ok (fed calls) z.
Proof.
  intros Hw. induction calls as [|c calls IH] using rev_ind.
  { exists new_zscore. split; [done|]. split; [by destruct (window_size cfg) | done | constructor]. }
  destruct IH as (z & Hz & Hok). rewrite run_snoc, fed_snoc, Hz. destruct c as [p|p]; simpl.
  - destruct (on_price_ok _ p z Hw Hok) as (z' & ? & ? & _). eauto.
  - eexists. split; [done|]. rewrite app_nil_r. destruct Hok as [Hp Hperm Hs].
    destruct (calculate_zscore_state p z) as [-> | ->]; [done|].
    destruct (push_emad_frame z) as (E1 & E2 & _). split; by rewrite ?E1, ?E2.
Qed.

(** ** Averages and the baseline *)

Section averages.
Context (lo hi : Z).

Record averages_ok (z : RobustZScore) : Prop := {
  ak_count : 0 <= sample_count_ z;
  ak_ema : 0 < sample_count_ z -> lo <= ema_price_ z <= hi;
  ak_emad : 0 <= emad_ z <= hi - lo;
  ak_sum : emad_sum_ z = zsum (emad_history_ z);
  ak_history : Forall (fun d => 0 <= d <= hi - lo) (emad_history_ z);
  ak_length : zlen (emad_history_ z) <= baseline_window cfg;
}.

Context (Hlo : 0 <= lo <= hi) (Halpha : 0 <= ema_alpha cfg <= kEmaScale)
  (Hbase : pos_int (baseline_window cfg)).

Lemma averages_on_price p z z' :
  averages_ok z -> lo <= p <= hi ->
  (ema_price_ z', emad_ z') = update_averages p z -> sample_count_ z' = sample_count_ z + 1 ->
  emad_history_ z' = emad_history_ z -> emad_sum_ z' = emad_sum_ z -> averages_ok z'.
Proof.
  intros [Hc He Hd Hs Hf Hl] Hp Hup Hc' Hh Hsum. unfold update_averages in Hup.
  assert (Hk : 0 < kEmaScale) by done.
  assert (Hnew : lo <= ema_price_ z' <= hi /\ 0 <= emad_ z' <= hi - lo).
  { destruct (Z.eqb_spec (sample_count_ z) 0); injection Hup as -> ->; [lia|].
    split; apply ema_between; try done; lia. }
  destruct Hnew. split; rewrite ?Hh, ?Hsum; try done; lia.
Qed.

Lemma averages_push z : averages_ok z -> averages_ok (push_emad z).
Proof.
  intros [Hc He Hd Hs Hf Hl]. destruct (push_emad_frame z) as (_ & _ & E1 & E2 & E3).
  unfold push_emad in *. rewrite pos_int_u64 in * by done.
  assert (Hf' : Forall (fun d => 0 <= d <= hi - lo) (emad_history_ z ++ [emad_ z]))
    by (apply Forall_app; auto).
  assert (Hs' : emad_sum_ z + emad_ z = zsum (emad_history_ z ++ [emad_ z]))
    by (rewrite zsum_app; simpl; lia).
  assert (Hl' : zlen (emad_history_ z ++ [emad_ z]) <= baseline_window cfg + 1)
    by (rewrite zlen_app; change (zlen [emad_ z]) with 1; lia).
  destruct (Z.ltb_spec (baseline_window cfg) (zlen (emad_history_ z ++ [emad_ z]))) as [Hlt|?];
    [|split; cbn in *; done || lia].
  destruct (emad_history_ z ++ [emad_ z]) as [|d h].
  { unfold pos_int, zlen in *. simpl in Hlt. lia. }
  apply Forall_cons in Hf' as [_ ?]. change (zsum (d :: h)) with (d + zsum h) in Hs'.
  assert (zlen (d :: h) = 1 + zlen h) by (unfold zlen; simpl; lia).
  split; cbn [emad_ ema_price_ emad_history_ emad_sum_ sample_count_]; done || lia.
Qed.

Lemma run_averages calls z :
  pos_int (window_size cfg) -> Forall (fun p => lo <= p <= hi) (fed calls) ->
  run calls = Some z -> averages_ok z.
Proof.
  intros Hw. revert z. induction calls as [|c calls IH] using rev_ind; intros z Hp Hz.
  { injection Hz as <-. split; cbn; try lia; [constructor | destruct Hbase; unfold zlen; simpl; lia]. }
  rewrite fed_snoc in Hp. apply Forall_app in Hp as [Hp Hc].
  destruct (run_window calls Hw) as (z0 & Hz0 & Hok). rewrite run_snoc, Hz0 in Hz.
  specialize (IH z0 Hp Hz0). destruct c as [p|p]; simpl in Hz.
  - destruct (on_price_ok _ p z0 Hw Hok) as (z' & E & _ & H1 & H2 & H3 & H4).
    rewrite E in Hz. injection Hz as <-. apply Forall_cons in Hc as [Hc _].
    eapply averages_on_price; eauto.
  - injection Hz as <-. destruct (calculate_zscore_state p z0) as [-> | ->]; [done|].
    by apply averages_push.
Qed.

Lemma zsum_bounds (l : list Z) b : Forall (fun d => 0 <= d <= b) l -> 0 <= zsum l <= zlen l * b.
Proof.
  induction 1 as [|d l Hd Hl IH]; [done|]. unfold zlen in *. simpl. lia.
Qed.

Lemma baseline_ok z :
  pos_int (baseline_min_history cfg) -> averages_ok z ->
  exists b, calculate_baseline_emad z = Some b /\ 0 <= b <= hi - lo.
Proof.
  intros Hm [Hc He Hd Hs Hf Hl]. unfold calculate_baseline_emad. rewrite !pos_int_u64 by done.
  destruct (Z.ltb_spec (zlen (emad_history_ z)) (baseline_min_history cfg)) as [?|Hge]; [by eauto|].
  rewrite Z.min_l by done. unfold pos_int in *.
  assert (Ei : i64 (zlen (emad_history_ z)) = zlen (emad_history_ z)).
  { unfold i64, two63, two64. rewrite Z.mod_small; lia. }
  rewrite Ei. destruct (Z.eqb_spec (zlen (emad_history_ z)) 0); [lia|]. eexists. split; [done|].
  pose proof (zsum_bounds _ _ Hf). rewrite Hs, Z.quot_div_nonneg by lia.
  split; [apply Z.div_pos; lia | apply Z.div_le_upper_bound; lia].
Qed.
End averages.

(** Interpolation stays between its ends. *)
Lemma interpolate_between a b x range :
  a <= b -> 0 <= x <= range -> 0 < range -> a <= a + Z.quot ((b - a) * x) range <= b.
Proof.
  intros Hab Hx Hr. rewrite Z.quot_div_nonneg by nia.
  assert (0 <= (b - a) * x / range) by (apply Z.div_pos; nia).
  assert ((b - a) * x / range <= b - a) by (apply Z.div_le_upper_bound; nia). lia.
Qed.

Lemma threshold_between base b z :
  vol_ratio_low cfg < vol_ratio_high cfg -> min_vol_scalar cfg <= max_vol_scalar cfg ->
  0 <= base -> 0 <= min_vol_scalar cfg -> calculate_baseline_emad z = Some b -> 0 < b ->
  exists thr, get_adaptive_threshold base z = Some thr /\
    base * min_vol_scalar cfg / kSignalScale <= thr <= base * max_vol_scalar cfg / kSignalScale.
Proof.
  intros Hr Hv Hbase Hmin Eb Hb. unfold get_adaptive_threshold. rewrite Eb. simpl.
  destruct (Z.eqb_spec b 0); [lia|]. destruct (Z.eqb_spec (vol_ratio_high cfg - vol_ratio_low cfg) 0); [lia|].
  eexists. split; [reflexivity|]. match goal with |- context [Z.quot (base * ?e) _] => set (v := e) in |- * end.
  assert (Hvb : min_vol_scalar cfg <= v <= max_vol_scalar cfg).
  { unfold v. destruct (Z.leb_spec (Z.quot (emad_ z * kSignalScale) b) (vol_ratio_low cfg)); [lia|].
    destruct (Z.leb_spec (vol_ratio_high cfg) (Z.quot (emad_ z * kSignalScale) b)); [lia|].
    apply interpolate_between; lia. }
  clearbody v. unfold kSignalScale. rewrite Z.quot_div_nonneg by nia.
  split; apply Z.div_le_mono; nia.
Qed.

(** C26: after any calls the window holds the last [window_size] prices, its sorted
    copy is a sorted permutation of it (no [erase] ever misses), and at most half
    of the window lies below, and at most half above, the reported median. *)
Theorem median_of_window calls :
  pos_int (window_size cfg) ->
  exists z, run calls = Some z /\
    let window := lastn (window_size cfg) (fed calls) in
    prices_ z = window /\ sorted_prices_ z ≡ₚ window /\ StronglySorted Z.le (sorted_prices_ z) /\
    2 * below (get_median z) window <= zlen window /\
    2 * above (get_median z) window <= zlen window.
Proof.
  intros Hw. destruct (run_window calls Hw) as (z & Hz & [Hp Hperm Hs]). exists z.
  rewrite Hp in Hperm. pose proof (median_splits z Hs) as [Hb Ha].
  rewrite (below_perm _ _ _ Hperm) in Hb. rewrite (above_perm _ _ _ Hperm) in Ha.
  assert (El : zlen (sorted_prices_ z) = zlen (lastn (window_size cfg) (fed calls)))
    by (unfold zlen; by rewrite Hperm).
  rewrite El in Hb, Ha. done.
Qed.

(** As long as the prices stay within [lo, hi], the average price does, the
    average deviation is at most [hi - lo], the running sum is the sum of the
    kept history, and the adaptive threshold is defined: it is the base threshold
    when the baseline is zero and otherwise the base scaled by a factor between
    [min_vol_scalar] and [max_vol_scalar]. *)
Theorem adaptive_threshold_bounded calls lo hi base :
  pos_int (window_size cfg) -> pos_int (baseline_window cfg) -> pos_int (baseline_min_history cfg) ->
  0 <= ema_alpha cfg <= kEmaScale ->
  vol_ratio_low cfg < vol_ratio_high cfg -> 0 <= min_vol_scalar cfg <= max_vol_scalar cfg ->
  0 <= lo <= hi -> Forall (fun p => lo <= p <= hi) (fed calls) -> 0 <= base ->
  exists z b thr, run calls = Some z /\
    (0 < sample_count_ z -> lo <= ema_price_ z <= hi) /\ 0 <= emad_ z <= hi - lo /\
    emad_sum_ z = zsum (emad_history_ z) /\ zlen (emad_history_ z) <= baseline_window cfg /\
    calculate_baseline_emad z = Some b /\ 0 <= b <= hi - lo /\
    get_adaptive_threshold base z = Some thr /\
    (b = 0 -> thr = base) /\
    (0 < b -> base * min_vol_scalar cfg / kSignalScale <= thr <= base * max_vol_scalar cfg / kSignalScale).
Proof.
  intros Hw Hbw Hbm Ha Hr Hv Hlo Hp Hbase. destruct (run_window calls Hw) as (z & Hz & _).
  pose proof (run_averages lo hi Hlo Ha Hbw calls z Hw Hp Hz) as Hok.
  destruct (baseline_ok lo hi Hbw z Hbm Hok) as (b & Eb & Hb). destruct Hok.
  exists z, b. destruct (Z.eq_dec b 0) as [E|E].
  - exists base. split_and!; try done; try lia.
    unfold get_adaptive_threshold. rewrite Eb, E. done.
  - destruct (threshold_between base b z) as (thr & Et & Hthr); try done; try lia.
    exists thr. split_and!; try done; try lia.
Qed.

End ops.

(** Ten prices, then three scores. *)
Definition demo_calls : list call :=
  (OnPrice <$> [1000; 1010; 990; 1005; 1200; 995; 1001; 1003; 998; 1002]) ++
  (CalculateZScore <$> [1010; 1020; 900]).
Definition demo_cfg : RobustZScoreConfig := mkConfig 4 3 5 645 5 7000 13000 5000 20000 2.

Lemma median_of_window_witness :
  pos_int (window_size demo_cfg) /\
  (exists z, run demo_cfg demo_calls = Some z /\
    let window := lastn (window_size demo_cfg) (fed demo_calls) in
    prices_ z = window /\ sorted_prices_ z ≡ₚ window /\ StronglySorted Z.le (sorted_prices_ z) /\
    2 * below (get_median z) window <= zlen window /\
    2 * above (get_median z) window <= zlen window) /\
  option_map get_median (run demo_cfg demo_calls) = Some 1001.
Proof.
  split; [done|]. split; [by apply (median_of_window demo_cfg demo_calls)|]. vm_compute. reflexivity.
Defined.

Lemma adaptive_threshold_bounded_witness :
  exists z b thr, run demo_cfg demo_calls = Some z /\
    (0 < sample_count_ z -> 990 <= ema_price_ z <= 1200) /\ 0 <= emad_ z <= 1200 - 990 /\
    emad_sum_ z = zsum (emad_history_ z) /\ zlen (emad_history_ z) <= baseline_window demo_cfg /\
    calculate_baseline_emad demo_cfg z = Some b /\ 0 <= b <= 1200 - 990 /\
    get_adaptive_threshold demo_cfg 25000 z = Some thr /\
    (b = 0 -> thr = 25000) /\
    (0 < b -> 25000 * min_vol_scalar demo_cfg / kSignalScale <= thr <=
              25000 * max_vol_scalar demo_cfg / kSignalScale).
Proof.
  apply (adaptive_threshold_bounded demo_cfg demo_calls 990 1200 25000); try done.
  apply (bool_decide_unpack _). vm_compute. exact I.
Defined.

End RobustZScore.
