(* ===== verification/WallThreshold.v ===== *)
(** * Wall threshold
      (src/hft/src/strategy/mean_reversion_maker/dynamic_wall_threshold.h)

    The notional from which a resting quantity counts as a wall: an exponential
    average of traded notionals, a percentile of the best levels of the book, and
    their weighted sum.  [get_bbo] returns the address of a member, so its null
    checks are never taken and are left out.  [std::nth_element] is the interface
    [NthElement] with what the standard promises of it; iterators past the end of
    a vector are [None]. *)

From S2P Require Import Prelude BitScan MemoryPool Types OrderBook OrderBookFacts OrderBookRefine OrderBookPeek.

(** [nth_element(begin, begin + n, end)]: a permutation of the range with the
    element that sorting would put there at position [n]. *)
Class NthElement := {
  nth_element : list Z -> nat -> list Z;
  nth_element_perm l n : nth_element l n ≡ₚ l;
  nth_element_at l n : (n < length l)%nat -> nth_element l n !! n = merge_sort Z.le l !! n;
}.

(** Sorting the whole range is one implementation. *)
#[export] Instance sorting_nth_element : NthElement := {|
  nth_element l _ := merge_sort Z.le l;
  nth_element_perm l _ := merge_sort_Permutation Z.le l;
  nth_element_at l n _ := eq_refl |}.

Module WallThreshold.

(** ** Configuration *)

Definition kVolumeEmaAlpha : Z := 300.
Definition kVolumeMultiplier : Z := 40000.
Definition kVolumeMinSamples : Z := 20.
Definition kOrderbookTopLevels : Z := 20.
Definition kOrderbookMultiplier : Z := 30000.
Definition kOrderbookPercentile : Z := 8000.
Definition kVolumeWeight : Z := 7000.
Definition kOrderbookWeight : Z := 3000.
Definition kMinQuantityRaw : Z := 50000.
Definition kPercentileScale : Z := 10000.

Record VolumeThresholdConfig := mkVolume { ema_alpha : Z; vol_multiplier : Z; min_samples : Z }.
Record OrderbookThresholdConfig := mkOrderbook { top_levels : Z; ob_multiplier : Z; percentile : Z }.
Record HybridThresholdConfig := mkHybrid { volume_weight : Z; orderbook_weight : Z; min_quantity_raw : Z }.

Definition VolumeThresholdConfig_default : VolumeThresholdConfig :=
  mkVolume kVolumeEmaAlpha kVolumeMultiplier kVolumeMinSamples.
Definition OrderbookThresholdConfig_default : OrderbookThresholdConfig :=
  mkOrderbook kOrderbookTopLevels kOrderbookMultiplier kOrderbookPercentile.
Definition HybridThresholdConfig_default : HybridThresholdConfig :=
  mkHybrid kVolumeWeight kOrderbookWeight kMinQuantityRaw.

(** ** State *)

Record DynamicWallThreshold := mkDWT {
  ema_notional_raw_ : Z;
  sample_count_ : Z;
  volume_threshold_raw_ : Z;
  orderbook_threshold_raw_ : Z;
  bid_qty_ : list Z;
  ask_qty_ : list Z;
}.

Section ops.
Context {P : Type} `{NodePool P} `{NthElement} (fp : FixedPointConfig)
  (vol_cfg : VolumeThresholdConfig) (ob_cfg : OrderbookThresholdConfig) (hybrid_cfg : HybridThresholdConfig).

(** The constructor: the two buffers have [top_levels] elements. *)
Definition new_threshold : DynamicWallThreshold :=
  let buffer := replicate (Z.to_nat (top_levels ob_cfg)) 0 in mkDWT 0 0 0 0 buffer buffer.

Definition mid_price (bk : Book P) : Z := Z.quot (bid_price (bbo bk) + ask_price (bbo bk)) 2.

(** ** Operations *)

Definition calculate (bk : Book P) (t : DynamicWallThreshold) : Z :=
  let min_threshold := Z.quot (min_quantity_raw hybrid_cfg * mid_price bk) (kQtyScale fp) in
  let hybrid := Z.quot (volume_threshold_raw_ t * volume_weight hybrid_cfg +
                        orderbook_threshold_raw_ t * orderbook_weight hybrid_cfg) kSignalScale in
  Z.max hybrid min_threshold.

Definition notional_of (price_raw qty_raw : Z) : Z := Z.quot (price_raw * qty_raw) (kQtyScale fp).

Definition on_trade (price_raw qty_raw : Z) (t : DynamicWallThreshold) : DynamicWallThreshold :=
  let notional := notional_of price_raw qty_raw in
  let ema_notional :=
    if sample_count_ t =? 0 then notional
    else ema kEmaScale (ema_alpha vol_cfg) notional (ema_notional_raw_ t) in
  let sample_count := sample_count_ t + 1 in
  let volume_threshold :=
    if min_samples vol_cfg <=? sample_count
    then Z.quot (ema_notional * vol_multiplier vol_cfg) kSignalScale
    else volume_threshold_raw_ t in
  mkDWT ema_notional sample_count volume_threshold (orderbook_threshold_raw_ t) (bid_qty_ t) (ask_qty_ t).

(** The value with the vector as [nth_element] leaves it; [count] is a [size_t]. *)
Definition calculate_percentile_fast (data : list Z) (count : Z) : option (Z * list Z) :=
  if count =? 0 then Some (0, data)
  else
    let index := Z.min (u64 (count * u64 (percentile ob_cfg)) / kPercentileScale) (count - 1) in
    if zlen data <? count then None
    else
      let data' := nth_element (take (Z.to_nat count) data) (Z.to_nat index) ++ drop (Z.to_nat count) data in
      Some (zget data' index, data').

Definition set_threshold (threshold : Z) (bid_qty ask_qty : list Z) (t : DynamicWallThreshold)
    : DynamicWallThreshold :=
  mkDWT (ema_notional_raw_ t) (sample_count_ t) (volume_threshold_raw_ t) threshold bid_qty ask_qty.

Definition update_orderbook_threshold (bk : Book P) (t : DynamicWallThreshold)
    : option (DynamicWallThreshold * Book P) :=
  let '(bid_levels, bid_qty, _, bids) := peek_qty true (top_levels ob_cfg) (bid_qty_ t) [] (bid_side bk) in
  let '(ask_levels, ask_qty, _, asks) := peek_qty false (top_levels ob_cfg) (ask_qty_ t) [] (ask_side bk) in
  let bk := set_side false asks (set_side true bids bk) in
  if (bid_levels =? 0) || (ask_levels =? 0) then Some (set_threshold 0 bid_qty ask_qty t, bk)
  else
    '(bid_percentile_qty, bid_qty) ← calculate_percentile_fast bid_qty (u64 bid_levels);
    '(ask_percentile_qty, ask_qty) ← calculate_percentile_fast ask_qty (u64 ask_levels);
    let avg_qty := Z.quot (bid_percentile_qty + ask_percentile_qty) 2 in
    let threshold :=
      Z.quot (Z.quot (avg_qty * mid_price bk) (kQtyScale fp) * ob_multiplier ob_cfg) kSignalScale in
    Some (set_threshold threshold bid_qty ask_qty t, bk).

(** ** The percentile of a side *)

(** The element of the sorted list at [percentile] hundredths of a per cent. *)
Definition percentile_of (l : list Z) : Z :=
  zget (merge_sort Z.le l) (Z.min (zlen l * percentile ob_cfg / kPercentileScale) (zlen l - 1)).

Lemma percentile_fast_eq l rest :
  l <> [] -> zlen l < 2147483648 -> 0 <= percentile ob_cfg < 2147483648 ->
  exists data', calculate_percentile_fast (l ++ rest) (u64 (zlen l)) = Some (percentile_of l, data') /\
    zlen data' = zlen (l ++ rest).
Proof.
  intros Hl Hn Hp. assert (0 < zlen l) by (destruct l; [done | unfold zlen; simpl; lia]).
  unfold calculate_percentile_fast. rewrite !(u64_small (zlen l)), (u64_small (percentile ob_cfg))
    by (unfold in_u64, two64; lia).
  rewrite u64_small by (unfold in_u64, two64; nia).
  destruct (Z.eqb_spec (zlen l) 0); [lia|]. unfold percentile_of. set (i := Z.min _ _).
  assert (Hi : 0 <= i < zlen l) by (unfold i, kPercentileScale; zdiv).
  destruct (Z.ltb_spec (zlen (l ++ rest)) (zlen l)); [rewrite zlen_app in *; pose proof (zlen_nonneg rest); lia|].
  assert (En : Z.to_nat (zlen l) = length l) by (unfold zlen; lia).
  rewrite En, take_app_length, drop_app_length. exists (nth_element l (Z.to_nat i) ++ rest).
  split; [|unfold zlen; by rewrite !length_app, (nth_element_perm l (Z.to_nat i))].
  do 2 f_equal. pose proof (nth_element_at l (Z.to_nat i) ltac:(unfold zlen in Hi; lia)) as E.
  assert (Hms : zlen (merge_sort Z.le l) = zlen l) by (unfold zlen; by rewrite merge_sort_Permutation).
  rewrite (zget_Some (merge_sort Z.le l) i) in E by lia. apply zget_lookup; [|lia].
  rewrite lookup_app, E. done.
Qed.

(** What [peek_qty] puts into a buffer of [top_levels] elements. *)
Definition top_quantities (is_bid : bool) (bk : Book P) : list Z :=
  level (get_side is_bid bk) <$> take (Z.to_nat (top_levels ob_cfg)) (active_levels is_bid (get_side is_bid bk)).

Definition top_ok : Prop := 0 < top_levels ob_cfg < 2147483648.

Lemma peek_top is_bid bk buffer :
  book_ok bk -> top_ok -> zlen buffer = top_levels ob_cfg ->
  let q := top_quantities is_bid bk in
  peek_qty is_bid (top_levels ob_cfg) buffer [] (get_side is_bid bk) =
    (if bool_decide (q = []) then -1 else zlen q, q ++ drop (length q) buffer, [], get_side is_bid bk) /\
  zlen q <= top_levels ob_cfg.
Proof.
  intros [_ Hsides] Htop Hbuf q. destruct (Hsides is_bid) as [Hwf _ Hc _]. unfold top_ok in Htop.
  pose proof (peek_qty_spec is_bid _ (top_levels ob_cfg) buffer [] _ Hwf Hc (or_introl eq_refl)) as Hpeek.
  rewrite Hbuf, Z.min_id in Hpeek. cbv zeta in Hpeek.
  assert (Hq : zlen q <= top_levels ob_cfg)
    by (unfold q, top_quantities, zlen; rewrite length_fmap, length_take; lia).
  split; [|done]. destruct (Z.leb_spec (top_levels ob_cfg) 0); [lia|]. simpl in Hpeek.
  unfold q, top_quantities in *. destruct (active_levels is_bid (get_side is_bid bk)) as [|i l].
  - rewrite take_nil. simpl. by rewrite Hpeek.
  - destruct Hpeek as (st & -> & [Hf Hqo Hio]). rewrite Hf, Hqo, Hio, length_fmap.
    unfold zlen. rewrite length_fmap, bool_decide_true by done.
    destruct (Z.to_nat (top_levels ob_cfg)) eqn:E; [lia|]. simpl. done.
Qed.

(** Reading the quantities off what [peek_qty] returned. *)
Lemma top_from_peek is_bid bk buffer :
  book_ok bk -> top_ok -> zlen buffer = top_levels ob_cfg ->
  let r := peek_qty is_bid (top_levels ob_cfg) buffer [] (get_side is_bid bk) in
  top_quantities is_bid bk = take (Z.to_nat r.1.1.1) r.1.1.2.
Proof.
  intros Hok Htop Hbuf r. unfold r. destruct (peek_top is_bid bk buffer Hok Htop Hbuf) as [-> _]. simpl.
  case_bool_decide as E; [by rewrite E|]. unfold zlen. by rewrite Nat2Z.id, take_app_length.
Qed.

(** The buffers keep the size the constructor gave them. *)
Definition buffers_ok (t : DynamicWallThreshold) : Prop :=
  zlen (bid_qty_ t) = top_levels ob_cfg /\ zlen (ask_qty_ t) = top_levels ob_cfg.

Lemma new_threshold_ok : top_ok -> buffers_ok new_threshold.
Proof. unfold top_ok, buffers_ok. intros ?. simpl. rewrite !zlen_replicate. lia. Qed.

Lemma set_sides_same (bk : Book P) : set_side false (ask_side bk) (set_side true (bid_side bk) bk) = bk.
Proof. by destruct bk. Qed.

Lemma refilled_length (q buffer : list Z) : zlen q <= zlen buffer -> zlen (q ++ drop (length q) buffer) = zlen buffer.
Proof. unfold zlen. rewrite length_app, length_drop. lia. Qed.

(** With levels on both sides the book threshold is the notional, at the mid
    price, of the mean of the two percentiles, each the element that sorting the
    quantities of the best [top_levels] levels of the side puts at the percentile's
    index, whatever order [nth_element] leaves behind; the book and the size of the
    buffers do not change. *)
Theorem orderbook_threshold_percentile bk t :
  book_ok bk -> top_ok -> 0 <= percentile ob_cfg < 2147483648 -> buffers_ok t ->
  top_quantities true bk <> [] -> top_quantities false bk <> [] ->
  exists t', update_orderbook_threshold bk t = Some (t', bk) /\ buffers_ok t' /\
    orderbook_threshold_raw_ t' =
      Z.quot (Z.quot (Z.quot (percentile_of (top_quantities true bk) + percentile_of (top_quantities false bk)) 2
                      * mid_price bk) (kQtyScale fp) * ob_multiplier ob_cfg) kSignalScale.
Proof.
  intros Hok Htop Hp [Hb Ha] Hqb Hqa. unfold update_orderbook_threshold.
  destruct (peek_top true bk _ Hok Htop Hb) as [Eb Hlb]. destruct (peek_top false bk _ Hok Htop Ha) as [Ea Hla].
  simpl get_side in Eb, Ea. rewrite Eb, Ea, set_sides_same. rewrite !bool_decide_false by done.
  assert (Hpos : forall q : list Z, q <> [] -> 0 < zlen q)
    by (intros [|] ?; [done | unfold zlen; simpl; lia]).
  pose proof (Hpos _ Hqb). pose proof (Hpos _ Hqa). unfold top_ok in Htop.
  destruct (Z.eqb_spec (zlen (top_quantities true bk)) 0), (Z.eqb_spec (zlen (top_quantities false bk)) 0);
    try lia. simpl.
  destruct (percentile_fast_eq (top_quantities true bk) (drop (length (top_quantities true bk)) (bid_qty_ t)))
    as (db & -> & Hdb); [done | lia | done |]. simpl.
  destruct (percentile_fast_eq (top_quantities false bk) (drop (length (top_quantities false bk)) (ask_qty_ t)))
    as (da & -> & Hda); [done | lia | done |]. simpl.
  eexists. split; [reflexivity|]. split; [|done].
  split; simpl; [rewrite Hdb | rewrite Hda]; rewrite refilled_length; lia.
Qed.

(** With an empty side [peek_qty] returns -1, which passes the test for zero
    levels and, as a [size_t], makes [nth_element] run past the end of the buffer. *)
Theorem empty_side_past_end bk t is_bid :
  book_ok bk -> top_ok -> buffers_ok t ->
  top_quantities is_bid bk = [] -> update_orderbook_threshold bk t = None.
Proof.
  intros Hok Htop [Hb Ha] Hempty. unfold update_orderbook_threshold.
  destruct (peek_top true bk _ Hok Htop Hb) as [Eb Hlb]. destruct (peek_top false bk _ Hok Htop Ha) as [Ea Hla].
  simpl get_side in Eb, Ea. rewrite Eb, Ea. unfold top_ok in Htop.
  assert (Hnone : forall data, zlen data = top_levels ob_cfg -> calculate_percentile_fast data (u64 (-1)) = None).
  { intros data Hd. unfold calculate_percentile_fast. change (u64 (-1)) with 18446744073709551615.
    simpl Z.eqb. cbv match. destruct (Z.ltb_spec (zlen data) 18446744073709551615); [done | lia]. }
  assert (Hz : forall q : list Z, ((if bool_decide (q = []) then -1 else zlen q) =? 0) = false).
  { intros [|x q]; [done|]. apply Z.eqb_neq. unfold zlen. simpl. lia. }
  rewrite !Hz. simpl. destruct is_bid; rewrite Hempty; simpl bool_decide; cbv match.
  - rewrite Hnone; [done|]. rewrite refilled_length; [done | unfold zlen; simpl; lia].
  - rewrite (Hnone ([] ++ _)) by (rewrite refilled_length; [done | unfold zlen; simpl; lia]).
    by destruct (calculate_percentile_fast _ _) as [[? ?]|].
Qed.

(** While the notionals of the trades stay within [lo, hi] so does their
    average; from [min_samples] trades on the volume threshold is that average
    times the multiplier (and it is zero before); the final threshold is never
    below the notional of the minimum quantity at the mid price. *)
Theorem volume_threshold_bounded (trades : list (Z * Z)) lo hi bk :
  0 <= ema_alpha vol_cfg <= kEmaScale -> 0 <= vol_multiplier vol_cfg -> 0 <= lo <= hi ->
  Forall (fun tr => lo <= notional_of tr.1 tr.2 <= hi) trades ->
  let t := foldl (fun t tr => on_trade tr.1 tr.2 t) new_threshold trades in
  sample_count_ t = zlen trades /\
  (trades <> [] -> lo <= ema_notional_raw_ t <= hi) /\
  (if decide (trades <> [] /\ min_samples vol_cfg <= zlen trades)
   then lo * vol_multiplier vol_cfg / kSignalScale <= volume_threshold_raw_ t <=
        hi * vol_multiplier vol_cfg / kSignalScale
   else volume_threshold_raw_ t = 0) /\
  Z.quot (min_quantity_raw hybrid_cfg * mid_price bk) (kQtyScale fp) <= calculate bk t.
Proof.
  intros Ha Hm Hlo HF. cbv zeta. assert (Hcalc : forall t,
    Z.quot (min_quantity_raw hybrid_cfg * mid_price bk) (kQtyScale fp) <= calculate bk t) by (unfold calculate; lia).
  induction trades as [|[p q] trades IH] using rev_ind; [rewrite decide_False by tauto; by split_and!|].
  apply Forall_app in HF as [HF [Hn _]%Forall_cons]. destruct (IH HF) as (Hc & He & Hv & _). clear IH HF.
  rewrite foldl_app. simpl. set (t := foldl _ _ trades) in *. rewrite zlen_app. change (zlen [(p, q)]) with 1.
  pose proof (zlen_nonneg trades). cbn in Hn.
  assert (Hnew : lo <= ema_notional_raw_ (on_trade p q t) <= hi).
  { unfold on_trade. simpl. destruct (Z.eqb_spec (sample_count_ t) 0) as [E|E]; [done|].
    apply ema_between; try done; try lia. apply He. intros ->. by apply E. }
  split_and!; [simpl; lia | done | | apply Hcalc]. unfold on_trade in *. simpl in *. rewrite Hc in *.
  set (e := if zlen trades =? 0 then _ else _) in *. clearbody e.
  destruct (Z.leb_spec (min_samples vol_cfg) (zlen trades + 1)).
  - rewrite decide_True by (split; [by intros [_ ?]%app_eq_nil | done]). unfold kSignalScale.
    rewrite Z.quot_div_nonneg by nia. split; apply Z.div_le_mono; nia.
  - rewrite decide_False by lia. rewrite decide_False in Hv by lia. done.
Qed.

End ops.

(** ** Witnesses *)

Definition demo_two_sided : Book MemoryPool.pool :=
  demo_after [demo_msg MUAdd kBuy 100 7; demo_msg MUAdd kBuy 170 4; demo_msg MUAdd kBuy 160 9;
              demo_msg MUAdd kSell 200 5; demo_msg MUAdd kSell 5000 3].

Definition update_demo (bk : Book MemoryPool.pool) :=
  update_orderbook_threshold BTCUSDTConfig OrderbookThresholdConfig_default bk
    (new_threshold OrderbookThresholdConfig_default).

Lemma demo_two_sided_ok : book_ok demo_two_sided.
Proof. apply demo_after_ok. by repeat constructor. Qed.

Lemma demo_top is_bid bk :
  book_ok bk ->
  let r := peek_qty is_bid kOrderbookTopLevels (replicate 20 0) [] (get_side is_bid bk) in
  top_quantities OrderbookThresholdConfig_default is_bid bk = take (Z.to_nat r.1.1.1) r.1.1.2.
Proof. intros Hok. by apply (top_from_peek OrderbookThresholdConfig_default). Qed.

Lemma demo_quantities :
  top_quantities OrderbookThresholdConfig_default true demo_two_sided = [4; 9; 7] /\
  top_quantities OrderbookThresholdConfig_default false demo_two_sided = [5; 3].
Proof. rewrite !demo_top by apply demo_two_sided_ok. vm_compute. done. Qed.

Lemma demo_one_sided_ok : book_ok (demo_after [demo_msg MUAdd kBuy 100 7]).
Proof. apply demo_after_ok. by repeat constructor. Qed.

Lemma demo_one_sided_asks :
  top_quantities OrderbookThresholdConfig_default false (demo_after [demo_msg MUAdd kBuy 100 7]) = [].
Proof. rewrite demo_top by apply demo_one_sided_ok. vm_compute. done. Qed.

Lemma orderbook_threshold_percentile_witness :
  let ob_cfg := OrderbookThresholdConfig_default in
  (exists t', update_demo demo_two_sided = Some (t', demo_two_sided) /\ buffers_ok ob_cfg t' /\
    orderbook_threshold_raw_ t' =
      Z.quot (Z.quot (Z.quot (percentile_of ob_cfg [4; 9; 7] + percentile_of ob_cfg [5; 3]) 2
                      * mid_price demo_two_sided) (kQtyScale BTCUSDTConfig) * ob_multiplier ob_cfg) kSignalScale) /\
  percentile_of ob_cfg [4; 9; 7] = 9.
Proof.
  cbv zeta. split; [|vm_compute; done]. destruct demo_quantities as [<- <-].
  apply (orderbook_threshold_percentile BTCUSDTConfig OrderbookThresholdConfig_default demo_two_sided
    (new_threshold OrderbookThresholdConfig_default)).
  - apply demo_two_sided_ok.
  - unfold top_ok. simpl. unfold kOrderbookTopLevels. lia.
  - simpl. unfold kOrderbookPercentile. lia.
  - by apply new_threshold_ok.
  - by rewrite (proj1 demo_quantities).
  - by rewrite (proj2 demo_quantities).
Defined.

Lemma empty_side_past_end_witness : update_demo (demo_after [demo_msg MUAdd kBuy 100 7]) = None.
Proof.
  apply (empty_side_past_end BTCUSDTConfig OrderbookThresholdConfig_default
    (demo_after [demo_msg MUAdd kBuy 100 7]) (new_threshold OrderbookThresholdConfig_default) false).
  - apply demo_one_sided_ok.
  - done.
  - by apply new_threshold_ok.
  - apply demo_one_sided_asks.
Defined.

Lemma volume_threshold_bounded_witness :
  let vol_cfg := mkVolume 300 40000 2 in
  let t := foldl (fun t tr => on_trade BTCUSDTConfig vol_cfg tr.1 tr.2 t)
             (new_threshold OrderbookThresholdConfig_default) [(10000, 200000); (10010, 400000); (9990, 100000)] in
  sample_count_ t = 3 /\ 9990 <= ema_notional_raw_ t <= 40040 /\
  9990 * 40000 / kSignalScale <= volume_threshold_raw_ t <= 40040 * 40000 / kSignalScale /\
  Z.quot (kMinQuantityRaw * mid_price demo_two_sided) (kQtyScale BTCUSDTConfig) <=
    calculate BTCUSDTConfig HybridThresholdConfig_default demo_two_sided t.
Proof.
  cbv zeta.
  destruct (volume_threshold_bounded BTCUSDTConfig (mkVolume 300 40000 2) OrderbookThresholdConfig_default
    HybridThresholdConfig_default [(10000, 200000); (10010, 400000); (9990, 100000)] 9990 40040 demo_two_sided)
    as (Hc & He & Hv & Hm).
  - done.
  - done.
  - done.
  - apply (bool_decide_unpack _). vm_compute. exact I.
  - rewrite decide_True in Hv by (split; done). split; [exact Hc|]. split; [by apply He|]. by split.
Defined.

End WallThreshold.
