(* ===== verification/WallDetector.v ===== *)
(** * Wall detection
      (src/hft/src/strategy/mean_reversion_maker/wall_detector.h)

    [WallTracker] keeps the last snapshots of a wall in two rings and scores how
    long, how steadily and how close to the best quote it has been there;
    [detect_wall] adds up the notional of the best levels of a side until it
    reaches the threshold.  A division by zero is [None].  [get_bbo] returns the
    address of a member and is never null. *)

From S2P Require Import Prelude BitScan MemoryPool Types OrderBook OrderBookFacts OrderBookRefine OrderBookPeek.

Module WallDetector.

(** ** Constants *)

Definition kMaxSnapshots : Z := 20.
Definition kMinSnapshotsForPersistence : Z := 5.
Definition kMinSnapshotsForStability : Z := 10.
Definition kPersistenceNsDivisor : Z := 2000000000.
Definition kDistanceGoodBps : Z := 5.
Definition kDistanceBadBps : Z := 15.
Definition kDistanceRange : Z := 10.
Definition kStabilityWeight : Z := 5000.
Definition kPersistenceWeight : Z := 3500.
Definition kDistanceWeight : Z := 1500.

Record WallInfo := mkInfo {
  accumulated_notional : Z;
  distance_bps : Z;
  levels_checked : Z;
  wall_valid : bool;
}.
Definition WallInfo_default : WallInfo := mkInfo 0 0 0 false.

(** ** Tracker *)

Record WallTracker := mkTracker {
  first_seen : Z;
  last_update : Z;
  snapshot_count : Z;
  size_snapshots : list Z;
  distance_snapshots : list Z;
  write_index : Z;
}.

Definition new_tracker : WallTracker :=
  mkTracker 0 0 0 (replicate (Z.to_nat kMaxSnapshots) 0) (replicate (Z.to_nat kMaxSnapshots) 0) 0.

Definition update (now notional_raw distance : Z) (t : WallTracker) : WallTracker :=
  mkTracker (if snapshot_count t =? 0 then now else first_seen t) now (snapshot_count t + 1)
    (zset (size_snapshots t) (write_index t) notional_raw)
    (zset (distance_snapshots t) (write_index t) distance)
    ((write_index t + 1) mod kMaxSnapshots).

Definition reset (t : WallTracker) : WallTracker :=
  mkTracker 0 0 0 (size_snapshots t) (distance_snapshots t) 0.

Definition buffer_size (t : WallTracker) : Z := Z.min (u64 (snapshot_count t)) kMaxSnapshots.

Definition clamp (x lo hi : Z) : Z := if x <? lo then lo else if hi <? x then hi else x.

Definition persistence_score (t : WallTracker) : Z :=
  if snapshot_count t <? kMinSnapshotsForPersistence then 0
  else
    let duration_ns := i64 (u64 (last_update t - first_seen t)) in
    let score := Z.quot (duration_ns * kSignalScale) kPersistenceNsDivisor in
    clamp score 0 kSignalScale.

(** The valid entries, as the loops [for (i = 0; i < count; ++i)] read them. *)
Definition valid_entries (t : WallTracker) (arr : list Z) : list Z := take (Z.to_nat (buffer_size t)) arr.

Definition stability_score (t : WallTracker) : Z :=
  let count := buffer_size t in
  if count <? kMinSnapshotsForStability then 0
  else
    let entries := valid_entries t (size_snapshots t) in
    let sum := foldl Z.add 0 entries in
    let avg := Z.quot sum count in
    if avg =? 0 then 0
    else
      let variance_sum :=
        foldl (fun acc x => let diff := x - avg in acc + i64 (Z.quot (diff * diff) avg)) 0 entries in
      let normalized_variance := Z.quot variance_sum count in
      let threshold := Z.quot avg 4 in
      if threshold =? 0 then kSignalScale
      else
        let score := kSignalScale - Z.quot (normalized_variance * kSignalScale) threshold in
        clamp score 0 kSignalScale.

Definition distance_consistency_score (t : WallTracker) : Z :=
  let count := buffer_size t in
  if count <? kMinSnapshotsForStability then 0
  else
    let sum := foldl Z.add 0 (valid_entries t (distance_snapshots t)) in
    let avg_bps := Z.quot sum count in
    if avg_bps <=? kDistanceGoodBps then kSignalScale
    else if kDistanceBadBps <=? avg_bps then 0
    else Z.quot (kSignalScale * (kDistanceBadBps - avg_bps)) kDistanceRange.

Definition composite_quality (t : WallTracker) : Z :=
  Z.quot (stability_score t * kStabilityWeight + persistence_score t * kPersistenceWeight +
          distance_consistency_score t * kDistanceWeight) kSignalScale.

(** ** Histories of a tracker *)

(** An update: time, notional and distance. *)
Definition snapshot : Type := Z * Z * Z.
Definition snap_time (u : snapshot) : Z := u.1.1.
Definition snap_size (u : snapshot) : Z := u.1.2.
Definition snap_distance (u : snapshot) : Z := u.2.

Definition track (t : WallTracker) (us : list snapshot) : WallTracker :=
  foldl (fun t u => update (snap_time u) (snap_size u) (snap_distance u) t) t us.

(** A tracker that was reset and has seen the updates [us] since. *)
Record tracks (us : list snapshot) (t : WallTracker) : Prop := {
  tk_count : snapshot_count t = zlen us;
  tk_index : write_index t = zlen us mod kMaxSnapshots;
  tk_first : first_seen t = default 0 (snap_time <$> head us);
  tk_last : last_update t = default 0 (snap_time <$> last us);
  tk_size : ring kMaxSnapshots snap_size us (size_snapshots t);
  tk_distance : ring kMaxSnapshots snap_distance us (distance_snapshots t);
}.

Definition arrays_ok (t : WallTracker) : Prop :=
  zlen (size_snapshots t) = kMaxSnapshots /\ zlen (distance_snapshots t) = kMaxSnapshots.

Lemma ring_nil {A B} `{Dflt B} n (f : A -> B) arr : zlen arr = n -> ring n f [] arr.
Proof. intros ?. split; [done|]. intros i x Hx. by rewrite lookup_nil in Hx. Qed.

Lemma track_tracks t us : arrays_ok t -> tracks us (track (reset t) us).
Proof.
  intros [Hs Hd]. induction us as [|u us IH] using rev_ind.
  { split; try done; by apply ring_nil. }
  unfold track. rewrite foldl_app. simpl. fold (track (reset t) us). destruct IH as [Hc Hi Hf Hl Hrs Hrd].
  assert (Hk : 0 < kMaxSnapshots) by done.
  split; cbn; rewrite ?zlen_app, ?Hi; change (zlen [u]) with 1.
  - lia.
  - by rewrite Zplus_mod_idemp_l.
  - rewrite Hc, Hf. destruct us as [|u0 us]; [done|]. simpl.
    destruct (Z.eqb_spec (zlen (u0 :: us)) 0); [unfold zlen in *; simpl in *; lia | done].
  - by rewrite last_snoc.
  - by apply ring_snoc.
  - by apply ring_snoc.
Qed.

Lemma new_tracker_reset : reset new_tracker = new_tracker.
Proof. done. Qed.

(** Two trackers with the same history agree on all they report. *)
Lemma tracks_agree us t t' :
  tracks us t -> tracks us t' ->
  valid_entries t (size_snapshots t) = valid_entries t' (size_snapshots t') /\
  valid_entries t (distance_snapshots t) = valid_entries t' (distance_snapshots t') /\
  buffer_size t = buffer_size t' /\ persistence_score t = persistence_score t'.
Proof.
  intros [Hc _ Hf Hl Hs Hd] [Hc' _ Hf' Hl' Hs' Hd'].
  assert (Hk : 0 < kMaxSnapshots) by done.
  assert (Heq : forall (f : snapshot -> Z) arr arr', ring kMaxSnapshots f us arr -> ring kMaxSnapshots f us arr' ->
    take (Z.to_nat (buffer_size t)) arr = take (Z.to_nat (buffer_size t)) arr').
  { intros f arr arr' Hr Hr'. pose proof Hr as [Hlen _]. pose proof Hr' as [Hlen' _]. unfold zlen in Hlen, Hlen'.
    apply zget_ext; [unfold zlen; rewrite !length_take; lia|]. intros j Hj.
    unfold zlen in Hj. rewrite length_take in Hj. rewrite !zget_take by lia.
    apply (ring_determined kMaxSnapshots f us); try done. unfold buffer_size in Hj. rewrite Hc in Hj.
    assert (u64 (zlen us) <= zlen us) by (apply Z.mod_le; [apply zlen_nonneg | done]). lia. }
  unfold valid_entries, persistence_score, buffer_size in *. rewrite Hc', Hf', Hl', <- Hc, <- Hf, <- Hl.
  split_and!; try done; [apply (Heq snap_size) | apply (Heq snap_distance)]; done.
Qed.

Lemma clamp_range x lo hi : lo <= hi -> lo <= clamp x lo hi <= hi.
Proof. unfold clamp. intros. destruct (Z.ltb_spec x lo), (Z.ltb_spec hi x); lia. Qed.

Lemma scores_range t :
  0 <= persistence_score t <= kSignalScale /\ 0 <= stability_score t <= kSignalScale /\
  0 <= distance_consistency_score t <= kSignalScale.
Proof.
  split; [|split].
  - unfold persistence_score. case_match; [done|]. by apply clamp_range.
  - unfold stability_score. repeat (case_match; [done|]). by apply clamp_range.
  - unfold distance_consistency_score. case_match; [done|].
    set (a := Z.quot (foldl Z.add 0 (valid_entries t (distance_snapshots t))) (buffer_size t)). destruct (Z.leb_spec a kDistanceGoodBps); [done|].
    destruct (Z.leb_spec kDistanceBadBps a); [done|].
    unfold kDistanceGoodBps, kDistanceBadBps, kSignalScale, kDistanceRange in *.
    rewrite Z.quot_div_nonneg by lia. zdiv.
Qed.

Lemma quality_range t : 0 <= composite_quality t <= kSignalScale.
Proof.
  destruct (scores_range t) as (Hp & Hs & Hd). unfold composite_quality.
  unfold kStabilityWeight, kPersistenceWeight, kDistanceWeight, kSignalScale in *.
  rewrite Z.quot_div_nonneg by lia. zdiv.
Qed.

(** ** Detection *)

Section detect.
Context {P : Type} `{NodePool P} (fp : FixedPointConfig).

(** The loop of [detect_wall], [n] levels from level [i] on. *)
Fixpoint wall_loop (n : nat) (i : Z) (min_price_int base_price threshold max_distance : Z)
    (qty idx : list Z) (weighted_sum : Z) (info : WallInfo) : option WallInfo :=
  match n with
  | O => Some info
  | S n' =>
      if zget qty i <=? 0 then Some info
      else
        let price_raw := min_price_int + zget idx i in
        let notional := Z.quot (price_raw * zget qty i) (kQtyScale fp) in
        let acc := accumulated_notional info + notional in
        let weighted_sum := weighted_sum + price_raw * notional in
        if threshold <=? acc then
          if acc =? 0 then None
          else
            let weighted_avg_price := i64 (Z.quot weighted_sum acc) in
            let delta := Z.abs (weighted_avg_price - base_price) in
            let distance := Z.quot (delta * kBpsScale) base_price in
            Some (mkInfo acc distance (i + 1) (distance <=? max_distance))
        else wall_loop n' (i + 1) min_price_int base_price threshold max_distance qty idx weighted_sum
               (mkInfo acc (distance_bps info) (i + 1) (wall_valid info))
  end.

(** The result with the two buffers and the book (whose best-level cache
    [peek_qty] may refresh). *)
Definition detect_wall (side : Side) (max_levels threshold_notional_raw max_distance_bps min_price_int : Z)
    (level_qty_buffer level_idx_buffer : list Z) (bk : Book P)
    : option (WallInfo * list Z * list Z * Book P) :=
  let is_bid := bool_decide (side = kBuy) in
  if negb (is_valid (bid_price (bbo bk))) || negb (is_valid (ask_price (bbo bk)))
  then Some (WallInfo_default, level_qty_buffer, level_idx_buffer, bk)
  else
    let base_price := if is_bid then bid_price (bbo bk) else ask_price (bbo bk) in
    if base_price =? 0 then Some (WallInfo_default, level_qty_buffer, level_idx_buffer, bk)
    else
      let '(actual_levels, qty, idx, s) :=
        peek_qty is_bid max_levels level_qty_buffer level_idx_buffer (get_side is_bid bk) in
      info ← wall_loop (Z.to_nat actual_levels) 0 min_price_int base_price threshold_notional_raw
               max_distance_bps qty idx 0 WallInfo_default;
      let info :=
        if accumulated_notional info <? threshold_notional_raw
        then mkInfo (accumulated_notional info) (distance_bps info) (levels_checked info) false
        else info in
      Some (info, qty, idx, set_side is_bid s bk).

(** ** Reference *)

Section reference.
Context (s : SideBook P) (base0 : Z).

(** Price and notional of a level, and the sums over levels. *)
Definition price_at (i : Z) : Z := base0 + i.
Definition notional_at (i : Z) : Z := Z.quot (price_at i * level s i) (kQtyScale fp).
Definition total (l : list Z) : Z := zsum (notional_at <$> l).
Definition weighted (l : list Z) : Z := zsum ((fun i => price_at i * notional_at i) <$> l).
Definition average_price (l : list Z) : Z := Z.quot (weighted l) (total l).

Lemma total_snoc l i : total (l ++ [i]) = total l + notional_at i.
Proof. unfold total. rewrite fmap_app, zsum_app. simpl. lia. Qed.
Lemma weighted_snoc l i : weighted (l ++ [i]) = weighted l + price_at i * notional_at i.
Proof. unfold weighted. rewrite fmap_app, zsum_app. simpl. lia. Qed.

Context (lo hi : Z) (Hscale : 0 < kQtyScale fp) (Hlo : 0 <= lo).

Definition good_level (i : Z) : Prop := 0 < level s i /\ lo <= price_at i <= hi.

Lemma notional_nonneg i : good_level i -> 0 <= notional_at i.
Proof using Hscale Hlo. intros [? ?]. unfold notional_at. apply Z.quot_pos; nia. Qed.

(** The weighted price of levels lies between their prices. *)
Lemma weighted_between l :
  Forall good_level l -> 0 <= total l /\ lo * total l <= weighted l <= hi * total l.
Proof using Hscale Hlo.
  induction 1 as [|i l Hi Hl IH]; [unfold total, weighted; simpl; lia|].
  pose proof (notional_nonneg i Hi). destruct Hi as [_ Hp].
  destruct IH as (Ht & Hw).
  assert (E1 : total (i :: l) = notional_at i + total l) by done.
  assert (E2 : weighted (i :: l) = price_at i * notional_at i + weighted l) by done.
  rewrite E1, E2. nia.
Qed.

Lemma average_between l : Forall good_level l -> 0 < total l -> lo <= average_price l <= hi.
Proof using Hscale Hlo.
  intros Hl Ht. destruct (weighted_between l Hl) as (_ & Hw). unfold average_price.
  rewrite Z.quot_div_nonneg by nia. split; [apply Z.div_le_lower_bound | apply Z.div_le_upper_bound]; nia.
Qed.

Context (base_price threshold max_distance : Z) (Hthr : 0 < threshold) (Hhi : hi <= int64_max).

Definition distance_of (l : list Z) : Z := Z.quot (Z.abs (average_price l - base_price) * kBpsScale) base_price.

(** What the loop reports for the levels [l]: the shortest prefix whose notional
    reaches the threshold, or all of them. *)
Definition reports (l : list Z) (info : WallInfo) : Prop :=
  exists k, (k <= length l)%nat /\ levels_checked info = Z.of_nat k /\
    accumulated_notional info = total (take k l) /\
    (forall j, (j < k)%nat -> total (take j l) < threshold) /\
    if decide (threshold <= total (take k l))
    then distance_bps info = distance_of (take k l) /\
         wall_valid info = (distance_of (take k l) <=? max_distance)
    else k = length l /\ distance_bps info = 0 /\ wall_valid info = false.

Lemma zget_middle (pre post rest : list Z) i :
  zget ((pre ++ i :: post) ++ rest) (zlen pre) = i.
Proof using Type.
  apply zget_lookup; [|apply zlen_nonneg]. unfold zlen. rewrite Nat2Z.id, <- app_assoc.
  rewrite lookup_app_r by lia. by rewrite Nat.sub_diag.
Qed.

Lemma wall_loop_reports pre post qrest irest info :
  Forall good_level (pre ++ post) ->
  (forall j, (j <= length pre)%nat -> total (take j pre) < threshold) ->
  accumulated_notional info = total pre -> levels_checked info = zlen pre ->
  distance_bps info = 0 -> wall_valid info = false ->
  exists info', wall_loop (length post) (zlen pre) base0 base_price threshold max_distance
      ((level s <$> (pre ++ post)) ++ qrest) ((pre ++ post) ++ irest) (weighted pre) info = Some info' /\
    reports (pre ++ post) info'.
Proof using Hscale Hlo Hthr Hhi.
  revert pre info. induction post as [|i post IH]; intros pre info HF Hpre Ha Hn Hd Hv.
  - exists info. split; [done|]. exists (length pre). rewrite app_nil_r, firstn_all.
    specialize (Hpre (length pre) ltac:(lia)) as Hlt. rewrite firstn_all in Hlt.
    rewrite decide_False by lia. split_and!; try done. intros j Hj. apply Hpre. lia.
  - simpl. rewrite zget_middle. assert (Eq : zget ((level s <$> (pre ++ i :: post)) ++ qrest) (zlen pre) = level s i).
    { rewrite fmap_app, fmap_cons. replace (zlen pre) with (zlen (level s <$> pre))
        by (unfold zlen; by rewrite length_fmap). apply zget_middle. }
    rewrite Eq. pose proof HF as HF'. rewrite cons_middle, app_assoc in HF'.
    apply Forall_app in HF' as [Hpi _]. apply Forall_app in Hpi as Hpi'. destruct Hpi' as [_ Hi].
    apply Forall_cons in Hi as [Hi _]. destruct (Z.leb_spec (level s i) 0); [destruct Hi; lia|].
    fold (price_at i) (notional_at i). rewrite Ha, <- total_snoc, <- weighted_snoc.
    assert (Elen : zlen pre + 1 = zlen (pre ++ [i])) by (rewrite zlen_app; done).
    assert (Etake : forall j, (j <= length pre)%nat -> take j (pre ++ i :: post) = take j pre)
      by (intros; by rewrite take_app_le).
    assert (Etot : take (length (pre ++ [i])) (pre ++ i :: post) = pre ++ [i])
      by (rewrite (cons_middle i pre post), (app_assoc pre [i] post); apply take_app_length).
    destruct (Z.leb_spec threshold (total (pre ++ [i]))) as [Hge|Hlt].
    + destruct (Z.eqb_spec (total (pre ++ [i])) 0); [lia|]. fold (average_price (pre ++ [i])).
      pose proof (average_between _ Hpi ltac:(lia)) as Havg.
      assert (E64 : i64 (average_price (pre ++ [i])) = average_price (pre ++ [i])).
      { unfold i64, two63, two64, int64_max in *. rewrite Z.mod_small; lia. }
      rewrite E64, Elen. fold (distance_of (pre ++ [i])). eexists. split; [reflexivity|].
      exists (length (pre ++ [i])). rewrite Etot, decide_True by done.
      split_and!; try done; [rewrite !length_app; simpl; lia|]. intros j Hj.
      rewrite length_app in Hj. simpl in Hj. rewrite Etake by lia. apply Hpre. lia.
    + rewrite Elen, (cons_middle i pre post), !(app_assoc pre [i] post). apply IH; try done.
      * by rewrite <- app_assoc.
      * intros j Hj. rewrite length_app in Hj. simpl in Hj.
        destruct (decide (j <= length pre)%nat); [rewrite take_app_le by done; auto|].
        rewrite take_ge by (rewrite length_app; simpl; lia). done.
Qed.

(** The last test of [detect_wall] changes nothing. *)
Lemma reports_final l info :
  reports l info ->
  (if accumulated_notional info <? threshold
   then mkInfo (accumulated_notional info) (distance_bps info) (levels_checked info) false else info) = info.
Proof using Type.
  intros (k & _ & _ & Ha & _ & Hd). destruct (Z.ltb_spec (accumulated_notional info) threshold); [|done].
  rewrite decide_False in Hd by lia. destruct Hd as (_ & _ & <-). by destruct info.
Qed.
End reference.

Lemma set_side_same is_bid (bk : Book P) : set_side is_bid (get_side is_bid bk) bk = bk.
Proof. by destruct is_bid, bk. Qed.

Lemma peek_wall is_bid bk max_levels qty_buffer idx_buffer :
  book_ok bk -> 0 < max_levels <= zlen qty_buffer -> max_levels <= zlen idx_buffer ->
  let s := get_side is_bid bk in
  let l := take (Z.to_nat max_levels) (active_levels is_bid s) in
  exists n qrest irest, Z.to_nat n = length l /\
    peek_qty is_bid max_levels qty_buffer idx_buffer s = (n, (level s <$> l) ++ qrest, l ++ irest, s).
Proof.
  intros [_ Hsides] Hm Hi s l. destruct (Hsides is_bid) as [Hwf _ Hc _].
  pose proof (peek_qty_spec is_bid _ max_levels qty_buffer idx_buffer _ Hwf Hc ltac:(right; lia)) as Hpeek.
  rewrite Z.min_l in Hpeek by lia. cbv zeta in Hpeek. fold s in Hpeek. fold l in Hpeek.
  destruct (Z.leb_spec max_levels 0); [lia|]. simpl in Hpeek. case_bool_decide as El.
  - exists (-1), qty_buffer, idx_buffer. unfold l. rewrite El, take_nil. done.
  - destruct Hpeek as (st & -> & [Hf Hq Hx]). rewrite Hf, Hq, Hx.
    rewrite bool_decide_false by (intros ->; unfold zlen in *; simpl in *; lia).
    eexists _, _, _. split; [|reflexivity]. unfold zlen. lia.
Qed.

(** For a positive threshold and a book with two valid quotes, [detect_wall]
    is defined and examines the shortest prefix of the best [max_levels] levels
    whose notional reaches the threshold; the distance is that of the prefix's
    notional-weighted price from the best quote and the wall is valid exactly
    when it is within the limit.  When no prefix reaches the threshold all levels
    are examined and the wall is invalid. *)
Theorem detect_wall_exact side max_levels threshold max_distance qty_buffer idx_buffer bk :
  let is_bid := bool_decide (side = kBuy) in
  let s := get_side is_bid bk in
  let min_price := min_price_int (config bk) in
  let base_price := if is_bid then bid_price (bbo bk) else ask_price (bbo bk) in
  book_ok bk -> 0 < kQtyScale fp -> 0 < threshold ->
  0 <= min_price -> min_price + 4096 * bucket_count (config bk) <= int64_max ->
  0 < max_levels <= zlen qty_buffer -> max_levels <= zlen idx_buffer ->
  is_valid (bid_price (bbo bk)) = true -> is_valid (ask_price (bbo bk)) = true -> base_price <> 0 ->
  exists info qty idx,
    detect_wall side max_levels threshold max_distance min_price qty_buffer idx_buffer bk
      = Some (info, qty, idx, bk) /\
    reports s min_price base_price threshold max_distance
      (take (Z.to_nat max_levels) (active_levels is_bid s)) info.
Proof.
  intros is_bid s min_price base_price Hok Hsc Hthr Hmin Hmax Hm Hi Hvb Hva Hbase.
  unfold detect_wall. rewrite Hvb, Hva. simpl negb. cbv match. fold is_bid. fold base_price.
  destruct (Z.eqb_spec base_price 0); [done|]. simpl orb. cbv match.
  destruct (peek_wall is_bid bk max_levels qty_buffer idx_buffer Hok Hm Hi) as (n0 & qr & ir & Hn & ->).
  fold s in Hn |- *. set (l := take (Z.to_nat max_levels) (active_levels is_bid s)) in *.
  assert (Hgood : Forall (good_level s min_price min_price int64_max) l).
  { apply Forall_forall. intros i Hin. assert (Hk : i ∈ active_levels is_bid s)
      by (eapply elem_of_submseteq; [exact Hin | apply sublist_submseteq, sublist_take]).
    unfold active_levels in Hk. apply list_elem_of_filter in Hk as [Hact _].
    destruct Hok as [_ Hsides]. destruct (Hsides is_bid) as [Hwf Hlen _ _].
    pose proof (level_range _ _ _ Hwf Hact) as Hr. rewrite Hlen in Hr.
    destruct Hact. unfold good_level, price_at. lia. }
  rewrite Hn. change 0 with (zlen (@nil Z)) at 1. change 0 with (weighted s min_price []) at 1.
  destruct (wall_loop_reports s min_price min_price int64_max Hsc Hmin base_price threshold max_distance
    Hthr (Z.le_refl _) [] l qr ir WallInfo_default) as (info & Eloop & Hrep); try done.
  { intros j _. by rewrite take_nil. }
  simpl app in Eloop, Hrep. simpl app. rewrite Eloop. simpl.
  exists info, ((level s <$> l) ++ qr), (l ++ ir). replace (set_side is_bid s bk) with bk by (symmetry; apply set_side_same).
  split; [|done]. do 4 f_equal. by eapply reports_final.
Qed.

End detect.

(** What a tracker reports depends only on the updates since its last [reset],
    although [reset] leaves the rings as they are: the valid entries are those of a
    new tracker with the same updates, namely the last twenty sizes and distances
    in some order, and so are the scores.  All scores lie in [0, kSignalScale]. *)
Theorem tracker_since_reset t us :
  arrays_ok t ->
  let t1 := track (reset t) us in let t0 := track new_tracker us in
  (zlen us < two64 ->
   valid_entries t1 (size_snapshots t1) ≡ₚ snap_size <$> lastn kMaxSnapshots us /\
   valid_entries t1 (distance_snapshots t1) ≡ₚ snap_distance <$> lastn kMaxSnapshots us) /\
  stability_score t1 = stability_score t0 /\ persistence_score t1 = persistence_score t0 /\
  distance_consistency_score t1 = distance_consistency_score t0 /\
  composite_quality t1 = composite_quality t0 /\ 0 <= composite_quality t1 <= kSignalScale.
Proof.
  intros Hok t1 t0. pose proof (track_tracks t us Hok) as H1. fold t1 in H1.
  assert (H0 : tracks us t0) by (apply (track_tracks new_tracker us); done).
  destruct (tracks_agree us t1 t0 H1 H0) as (Es & Ed & Eb & Ep).
  assert (Estab : stability_score t1 = stability_score t0) by (unfold stability_score; by rewrite Es, Eb).
  assert (Edist : distance_consistency_score t1 = distance_consistency_score t0)
    by (unfold distance_consistency_score; by rewrite Ed, Eb).
  split; [|unfold composite_quality; rewrite Estab, Ep, Edist; split_and!; try done; apply quality_range].
  intros Hlen. destruct H1 as [Hc _ _ _ Hs Hd]. unfold valid_entries, buffer_size. rewrite Hc, u64_small.
  - split; by apply ring_window.
  - split; [apply zlen_nonneg | done].
Qed.

(** Half a second of presence scores a quarter of the scale. *)
Example persistence_half_second :
  persistence_score (track new_tracker ((fun k => (k * 125000000, 1000, 5)) <$> [0; 1; 2; 3; 4])) = 2500.
Proof. vm_compute. reflexivity. Qed.

(** A tracker with old entries, then 23 updates. *)
Definition demo_used_tracker : WallTracker := track new_tracker [(1, 7, 2); (2, 9, 3)].
Definition demo_updates : list snapshot := (fun k => (k * 100000000, 1000 + k, 6)) <$> seqZ 1 23.

Lemma tracker_since_reset_witness :
  (let t1 := track (reset demo_used_tracker) demo_updates in let t0 := track new_tracker demo_updates in
   (zlen demo_updates < two64 ->
    valid_entries t1 (size_snapshots t1) ≡ₚ snap_size <$> lastn kMaxSnapshots demo_updates /\
    valid_entries t1 (distance_snapshots t1) ≡ₚ snap_distance <$> lastn kMaxSnapshots demo_updates) /\
   stability_score t1 = stability_score t0 /\ persistence_score t1 = persistence_score t0 /\
   distance_consistency_score t1 = distance_consistency_score t0 /\
   composite_quality t1 = composite_quality t0 /\ 0 <= composite_quality t1 <= kSignalScale) /\
  composite_quality (track (reset demo_used_tracker) demo_updates) = 9850.
Proof.
  split; [|vm_compute; reflexivity].
  apply (tracker_since_reset demo_used_tracker demo_updates). split; vm_compute; reflexivity.
Defined.

Definition demo_wall_book : Book MemoryPool.pool :=
  demo_after [demo_msg MUAdd kBuy 4000 300; demo_msg MUAdd kBuy 3999 900; demo_msg MUAdd kBuy 3000 500;
              demo_msg MUAdd kSell 4001 100].

Lemma detect_wall_exact_witness :
  exists info qty idx,
    detect_wall XRPUSDCConfig kBuy 3 2000 10 (min_price_int (config demo_wall_book)) [0; 0; 0] [0; 0; 0; 0]
      demo_wall_book = Some (info, qty, idx, demo_wall_book) /\
    reports XRPUSDCConfig (bid_side demo_wall_book) (min_price_int (config demo_wall_book))
      (bid_price (bbo demo_wall_book)) 2000 10
      (take 3 (active_levels true (bid_side demo_wall_book))) info.
Proof.
  destruct (demo_after_ok [demo_msg MUAdd kBuy 4000 300; demo_msg MUAdd kBuy 3999 900;
    demo_msg MUAdd kBuy 3000 500; demo_msg MUAdd kSell 4001 100]) as [Hok Hcfg]; [by repeat constructor|].
  fold demo_wall_book in Hok, Hcfg.
  assert (Hbbo : bbo demo_wall_book = mkBBO 4000 4001 300 100) by (vm_compute; reflexivity).
  apply (detect_wall_exact XRPUSDCConfig kBuy 3 2000 10 [0; 0; 0] [0; 0; 0; 0] demo_wall_book Hok).
  - done.
  - done.
  - by rewrite Hcfg.
  - rewrite Hcfg. vm_compute. discriminate.
  - done.
  - done.
  - by rewrite Hbbo.
  - by rewrite Hbbo.
  - change (bid_price (bbo demo_wall_book) <> 0). by rewrite Hbbo.
Defined.

Example detect_wall_demo :
  option_map (fun r => r.1.1.1)
    (detect_wall XRPUSDCConfig kBuy 3 2000 10 1 [0; 0; 0] [0; 0; 0; 0] demo_wall_book) =
  Some (mkInfo 4799 2 2 true).
Proof. vm_compute. reflexivity. Qed.

End WallDetector.
