(* ===== verification/MarketPhase.v ===== *)
(** * Market phases
      (src/hft/src/strategy/mean_reversion_maker/mean_reversion_maker.h)

    The five-phase machine with which the maker follows an excursion of the
    price: one machine for falling prices ([short_phase]) and one for rising
    prices ([long_phase]), which share the field [peak_z].  [update_short_phase]
    and [update_long_phase] are the two switches of the code; the reading of the
    clock they store is an argument. *)

From S2P Require Import Prelude Types.

(** The phases, in the order of the enumeration. *)
Inductive MarketPhase := kNeutral | kBuilding | kDeep | kWeak | kVeryWeak.

#[export] Instance MarketPhase_eq_dec : EqDecision MarketPhase.
Proof. solve_decision. Defined.

Module MarketPhase.

Definition phase_index (p : MarketPhase) : Z :=
  match p with kNeutral => 0 | kBuilding => 1 | kDeep => 2 | kWeak => 3 | kVeryWeak => 4 end.

(** [phase >= MarketPhase::kDeep] *)
Definition at_least_deep (p : MarketPhase) : bool := phase_index kDeep <=? phase_index p.

Definition phase_to_string (phase : MarketPhase) : string :=
  match phase with
  | kNeutral => "NEUTRAL" | kBuilding => "BUILDING" | kDeep => "DEEP"
  | kWeak => "WEAK" | kVeryWeak => "VERY_WEAK"
  end.

Record PhaseState := mkPhase {
  long_phase : MarketPhase;
  short_phase : MarketPhase;
  peak_z : Z;
  phase_entry_time : Z;
}.
Definition PhaseState_default : PhaseState := mkPhase kNeutral kNeutral 0 0.

Record ZScores := mkZScores { z_fast : Z; z_mid : Z; z_slow : Z }.

Record MeanReversionConfig := mkMR {
  min_reversal_bounce : Z;
  neutral_zone_threshold : Z;
  building_multiplier : Z;
  deep_multiplier : Z;
  reversal_weak_multiplier : Z;
  reversal_strong_multiplier : Z;
  false_reversal_ratio : Z;
}.
Definition MeanReversionConfig_default : MeanReversionConfig :=
  mkMR 2000 10000 10000 12000 8000 6000 5000.

(** [zscore_fast_threshold_], [zscore_mid_threshold_], [zscore_slow_threshold_]. *)
Record ZThresholds := mkZT { fast_threshold : Z; mid_threshold : Z; slow_threshold : Z }.

Section phases.
Context (cfg : MeanReversionConfig) (zt : ZThresholds).

(** [(adaptive_threshold * multiplier) / kSignalScale] *)
Definition scaled (adaptive multiplier : Z) : Z := Z.quot (adaptive * multiplier) kSignalScale.

Definition min_bounce : Z := Z.quot (min_reversal_bounce cfg * false_reversal_ratio cfg) kSignalScale.

(** The cases of a weak and of a very weak phase. *)
Definition short_weak (z : ZScores) (st : PhaseState) : PhaseState :=
  let set_phase p := mkPhase (long_phase st) p (peak_z st) (phase_entry_time st) in
  let bounce := z_mid z - peak_z st in
  if bounce <? min_bounce then set_phase kDeep
  else
    let fast_weak := - fast_threshold zt <? z_fast z in
    let mid_weak := - mid_threshold zt <? z_mid z in
    let slow_weak := - slow_threshold zt <? z_slow z in
    if fast_weak && mid_weak && slow_weak then set_phase kVeryWeak else st.

Definition short_very_weak (z : ZScores) (adaptive_threshold : Z) (st : PhaseState) : PhaseState :=
  let building_threshold := - scaled adaptive_threshold (building_multiplier cfg) in
  if building_threshold <? z_mid z then mkPhase (long_phase st) kNeutral (peak_z st) (phase_entry_time st) else st.

Definition long_weak (z : ZScores) (st : PhaseState) : PhaseState :=
  let set_phase p := mkPhase p (short_phase st) (peak_z st) (phase_entry_time st) in
  let bounce := peak_z st - z_mid z in
  if bounce <? min_bounce then set_phase kDeep
  else
    let fast_weak := z_fast z <? fast_threshold zt in
    let mid_weak := z_mid z <? mid_threshold zt in
    let slow_weak := z_slow z <? slow_threshold zt in
    if fast_weak && mid_weak && slow_weak then set_phase kVeryWeak else st.

Definition long_very_weak (z : ZScores) (adaptive_threshold : Z) (st : PhaseState) : PhaseState :=
  let building_threshold := scaled adaptive_threshold (building_multiplier cfg) in
  if z_mid z <? building_threshold then mkPhase kNeutral (short_phase st) (peak_z st) (phase_entry_time st) else st.

(** [check_long_momentum_weakening] and [check_short_momentum_weakening]: tests of
    the scores that no other code calls. *)
Definition check_long_momentum_weakening (z : ZScores) : bool :=
  if (z_slow z <=? 0) || (z_mid z <=? 0) then false
  else (z_fast z <? fast_threshold zt) && (z_mid z <? mid_threshold zt) && (slow_threshold zt <? z_slow z).

Definition check_short_momentum_weakening (z : ZScores) : bool :=
  if (0 <=? z_mid z) || (0 <=? z_fast z) then false
  else (- fast_threshold zt <? z_fast z) && (- mid_threshold zt <? z_mid z) && (z_slow z <? - slow_threshold zt).

Definition update_short_phase (now : Z) (z : ZScores) (adaptive_threshold : Z) (st : PhaseState) : PhaseState :=
  let set_phase p := mkPhase (long_phase st) p (peak_z st) (phase_entry_time st) in
  match short_phase st with
  | kNeutral =>
      let building_threshold := - scaled adaptive_threshold (building_multiplier cfg) in
      if z_mid z <? building_threshold then mkPhase (long_phase st) kBuilding (peak_z st) now else st
  | kBuilding =>
      let deep_threshold := - scaled adaptive_threshold (deep_multiplier cfg) in
      let building_threshold := - scaled adaptive_threshold (building_multiplier cfg) in
      if z_mid z <? deep_threshold then mkPhase (long_phase st) kDeep (z_mid z) (phase_entry_time st)
      else if building_threshold <? z_mid z then set_phase kNeutral
      else st
  | kDeep =>
      let peak := if z_mid z <? peak_z st then z_mid z else peak_z st in
      let weak_threshold := - scaled adaptive_threshold (reversal_weak_multiplier cfg) in
      mkPhase (long_phase st) (if weak_threshold <? z_mid z then kWeak else kDeep) peak (phase_entry_time st)
  | kWeak => short_weak z st
  | kVeryWeak => short_very_weak z adaptive_threshold st
  end.

Definition update_long_phase (now : Z) (z : ZScores) (adaptive_threshold : Z) (st : PhaseState) : PhaseState :=
  let set_phase p := mkPhase p (short_phase st) (peak_z st) (phase_entry_time st) in
  match long_phase st with
  | kNeutral =>
      let building_threshold := scaled adaptive_threshold (building_multiplier cfg) in
      if building_threshold <? z_mid z then mkPhase kBuilding (short_phase st) (peak_z st) now else st
  | kBuilding =>
      let deep_threshold := scaled adaptive_threshold (deep_multiplier cfg) in
      let building_threshold := scaled adaptive_threshold (building_multiplier cfg) in
      if deep_threshold <? z_mid z then mkPhase kDeep (short_phase st) (z_mid z) (phase_entry_time st)
      else if z_mid z <? building_threshold then set_phase kNeutral
      else st
  | kDeep =>
      let peak := if peak_z st <? z_mid z then z_mid z else peak_z st in
      let weak_threshold := scaled adaptive_threshold (reversal_weak_multiplier cfg) in
      mkPhase (if z_mid z <? weak_threshold then kWeak else kDeep) (short_phase st) peak (phase_entry_time st)
  | kWeak => long_weak z st
  | kVeryWeak => long_very_weak z adaptive_threshold st
  end.

(** ** Mirror symmetry *)

Definition mirror_z (z : ZScores) : ZScores := mkZScores (- z_fast z) (- z_mid z) (- z_slow z).
Definition mirror (st : PhaseState) : PhaseState :=
  mkPhase (short_phase st) (long_phase st) (- peak_z st) (phase_entry_time st).

Lemma mirror_mirror st : mirror (mirror st) = st.
Proof. destruct st. unfold mirror. simpl. by rewrite Z.opp_involutive. Qed.

Lemma ltb_opp a b : (- a <? b) = (- b <? a).
Proof. destruct (Z.ltb_spec (- a) b), (Z.ltb_spec (- b) a); lia. Qed.

Lemma ltb_opp_r a b : (a <? - b) = (b <? - a).
Proof. destruct (Z.ltb_spec a (- b)), (Z.ltb_spec b (- a)); lia. Qed.

Lemma ltb_opp_both a b : (- a <? - b) = (b <? a).
Proof. destruct (Z.ltb_spec (- a) (- b)), (Z.ltb_spec b a); lia. Qed.

(** The machine for rising prices is the machine for falling prices seen in a
    mirror: negating the scores and the peak and exchanging the two phases turns
    one update into the other. *)
Theorem phases_mirror now z adaptive st :
  update_long_phase now z adaptive st = mirror (update_short_phase now (mirror_z z) adaptive (mirror st)).
Proof.
  destruct st as [lp sp pk t]. unfold update_long_phase, update_short_phase, long_weak, short_weak, long_very_weak, short_very_weak, mirror, mirror_z.
  destruct lp; cbn; rewrite ?ltb_opp_both, ?Z.opp_involutive;
    replace (- z_mid z - - pk) with (pk - z_mid z) by lia; repeat case_match; cbn;
    rewrite ?Z.opp_involutive; done.
Qed.

(** Where the fast score is negative the two unused tests are mirrors of each other;
    elsewhere the short test fails at once, and the long test never asks for the
    sign of the fast score. *)
Theorem momentum_tests_mirror z :
  0 < slow_threshold zt -> z_fast z < 0 ->
  check_short_momentum_weakening z = check_long_momentum_weakening (mirror_z z).
Proof.
  intros Hs Hf. unfold check_short_momentum_weakening, check_long_momentum_weakening, mirror_z. cbn.
  destruct (Z.leb_spec 0 (z_mid z)), (Z.leb_spec 0 (z_fast z)), (Z.leb_spec (- z_slow z) 0), (Z.leb_spec (- z_mid z) 0);
    cbn [orb]; try lia; try done.
Qed.

(** ** Runs of the two machines *)

(** A trade: the clock, the scores and the adaptive threshold. *)
Record tick := mkTick { tk_now : Z; tk_z : ZScores; tk_adaptive : Z }.

Definition step_tick (k : tick) (st : PhaseState) : PhaseState :=
  update_long_phase (tk_now k) (tk_z k) (tk_adaptive k)
    (update_short_phase (tk_now k) (tk_z k) (tk_adaptive k) st).

Definition reset_short (st : PhaseState) : PhaseState :=
  mkPhase (long_phase st) kNeutral (peak_z st) (phase_entry_time st).
Definition reset_long (st : PhaseState) : PhaseState :=
  mkPhase kNeutral (short_phase st) (peak_z st) (phase_entry_time st).

(** The states that the ticks [ks], last one first, can lead to: every trade
    updates both machines, and an attempt to enter resets one of them. *)
Inductive run : list tick -> PhaseState -> Prop :=
  | run_init : run [] PhaseState_default
  | run_tick k ks st : run ks st -> run (k :: ks) (step_tick k st)
  | run_reset_short ks st : run ks st -> run ks (reset_short st)
  | run_reset_long ks st : run ks st -> run ks (reset_long st).

(** What a tick shows of an excursion of [sign] -1 (falling) or 1 (rising). *)
Definition deep_tick (sign : Z) (k : tick) : Prop :=
  scaled (tk_adaptive k) (deep_multiplier cfg) < sign * z_mid (tk_z k).
Definition weak_tick (sign : Z) (k : tick) : Prop :=
  sign * z_mid (tk_z k) < scaled (tk_adaptive k) (reversal_weak_multiplier cfg).
Definition reverted_tick (sign : Z) (k : tick) : Prop :=
  sign * z_fast (tk_z k) < fast_threshold zt /\ sign * z_mid (tk_z k) < mid_threshold zt /\
  sign * z_slow (tk_z k) < slow_threshold zt.

(** What a phase knows of the ticks before it, last one first. *)
Definition phase_evidence (sign : Z) (p : MarketPhase) (ks : list tick) : Prop :=
  match p with
  | kNeutral | kBuilding => True
  | kDeep => exists d, [d] `sublist_of` ks /\ deep_tick sign d
  | kWeak => exists d w, [w; d] `sublist_of` ks /\ deep_tick sign d /\ weak_tick sign w
  | kVeryWeak => exists d w v, [v; w; d] `sublist_of` ks /\
      deep_tick sign d /\ weak_tick sign w /\ reverted_tick sign v
  end.

Lemma evidence_cons sign p k ks : phase_evidence sign p ks -> phase_evidence sign p (k :: ks).
Proof. destruct p; simpl; try done; [| |]; intros; naive_solver eauto using sublist_cons. Qed.

(** A move of a machine adds the evidence of the tick that made it. *)
Inductive phase_move (sign : Z) (k : tick) : MarketPhase -> MarketPhase -> Prop :=
  | move_stay p : phase_move sign k p p
  | move_neutral p : phase_move sign k p kNeutral
  | move_building : phase_move sign k kNeutral kBuilding
  | move_deep : deep_tick sign k -> phase_move sign k kBuilding kDeep
  | move_weak : weak_tick sign k -> phase_move sign k kDeep kWeak
  | move_false_reversal : phase_move sign k kWeak kDeep
  | move_very_weak : reverted_tick sign k -> phase_move sign k kWeak kVeryWeak.

Lemma short_moves k st :
  phase_move (-1) k (short_phase st) (short_phase (update_short_phase (tk_now k) (tk_z k) (tk_adaptive k) st)).
Proof.
  unfold update_short_phase, short_weak, short_very_weak. destruct (short_phase st) eqn:E; repeat case_match; cbn; rewrite ?E;
    try (by constructor).
  all: try (apply move_deep; unfold deep_tick; lia).
  all: try (apply move_weak; unfold weak_tick; lia).
  apply move_very_weak. unfold reverted_tick. rewrite !andb_true_iff, !Z.ltb_lt in *. lia.
Qed.

Lemma long_moves k st :
  phase_move 1 k (long_phase st) (long_phase (update_long_phase (tk_now k) (tk_z k) (tk_adaptive k) st)).
Proof.
  unfold update_long_phase, long_weak, long_very_weak. destruct (long_phase st) eqn:E; repeat case_match; cbn; rewrite ?E;
    try (by constructor).
  all: try (apply move_deep; unfold deep_tick; lia).
  all: try (apply move_weak; unfold weak_tick; lia).
  apply move_very_weak. unfold reverted_tick. rewrite !andb_true_iff, !Z.ltb_lt in *. lia.
Qed.

Lemma move_evidence sign k p q ks :
  phase_move sign k p q -> phase_evidence sign p ks -> phase_evidence sign q (k :: ks).
Proof.
  destruct 1 as [p|p| |Hd|Hw| |Hv]; try (by apply evidence_cons); simpl; intros Hev; try done.
  - exists k. split; [apply sublist_skip, sublist_nil_l | done].
  - destruct Hev as (d & Hs & Hd). exists d, k. split; [by apply sublist_skip | done].
  - destruct Hev as (d & w & Hs & Hd & Hw). exists d. split; [|done].
    apply sublist_cons. etrans; [|exact Hs]. by apply sublist_cons.
  - destruct Hev as (d & w & Hs & Hd & Hw). exists d, w, k. split; [by apply sublist_skip | done].
Qed.

(** Each update leaves the other machine's phase alone. *)
Lemma short_keeps_long now z adaptive st : long_phase (update_short_phase now z adaptive st) = long_phase st.
Proof. unfold update_short_phase, short_weak, short_very_weak. by repeat case_match. Qed.
Lemma long_keeps_short now z adaptive st : short_phase (update_long_phase now z adaptive st) = short_phase st.
Proof. unfold update_long_phase, long_weak, long_very_weak. by repeat case_match. Qed.

Lemma run_evidence ks st :
  run ks st -> phase_evidence (-1) (short_phase st) ks /\ phase_evidence 1 (long_phase st) ks.
Proof.
  induction 1 as [|k ks st _ [IHs IHl]|ks st _ [IHs IHl]|ks st _ [IHs IHl]]; [done| |done|done].
  unfold step_tick. rewrite long_keeps_short. split.
  - by eapply move_evidence; [apply short_moves|].
  - eapply move_evidence; [apply long_moves|]. by rewrite short_keeps_long.
Qed.

(** An entry phase is the end of a whole excursion.  In every run of the two
    machines, resets included, the falling-price machine is in [kVeryWeak] only
    after, in this order, a trade whose score was below the deep threshold, a
    trade that came back above the weak threshold, and a trade with all three
    scores inside of their entry thresholds. *)
Theorem very_weak_after_excursion ks st :
  run ks st -> short_phase st = kVeryWeak ->
  exists d w v, [v; w; d] `sublist_of` ks /\
    z_mid (tk_z d) < - scaled (tk_adaptive d) (deep_multiplier cfg) /\
    - scaled (tk_adaptive w) (reversal_weak_multiplier cfg) < z_mid (tk_z w) /\
    - fast_threshold zt < z_fast (tk_z v) /\ - mid_threshold zt < z_mid (tk_z v) /\
    - slow_threshold zt < z_slow (tk_z v).
Proof.
  intros Hrun Hp. destruct (run_evidence _ _ Hrun) as [Hs _]. rewrite Hp in Hs.
  destruct Hs as (d & w & v & Hsub & Hd & Hw & Hv). exists d, w, v.
  unfold deep_tick, weak_tick, reverted_tick in *. split; [done|]. lia.
Qed.

(** ** The shared peak *)

(** The two machines write the same [peak_z].  When the rising-price machine
    enters [kDeep] while the falling-price machine waits in [kWeak], it replaces
    the trough by its own peak; from then on any trade whose score is not
    [min_bounce] above that peak counts as a false reversal and throws the
    falling-price machine back to [kDeep], however far the price has recovered. *)
Theorem shared_peak_false_reversal k k' st :
  short_phase st = kWeak -> long_phase st = kBuilding ->
  scaled (tk_adaptive k) (deep_multiplier cfg) < z_mid (tk_z k) ->
  min_bounce <= z_mid (tk_z k) - peak_z st -> z_slow (tk_z k) <= - slow_threshold zt ->
  z_mid (tk_z k') < z_mid (tk_z k) + min_bounce ->
  short_phase (step_tick k st) = kWeak /\ peak_z (step_tick k st) = z_mid (tk_z k) /\
  short_phase (step_tick k' (step_tick k st)) = kDeep.
Proof.
  intros Hs Hl Hd Hb Hslow Hk'.
  assert (E : step_tick k st = mkPhase kDeep kWeak (z_mid (tk_z k)) (phase_entry_time st)).
  { unfold step_tick, update_short_phase, short_weak, short_very_weak. rewrite Hs.
    rewrite (proj2 (Z.ltb_ge (z_mid _ - _) _)), (proj2 (Z.ltb_ge (- slow_threshold _) _)) by lia.
    rewrite andb_false_r. unfold update_long_phase, long_weak, long_very_weak. rewrite Hl, (proj2 (Z.ltb_lt _ _)) by lia. by rewrite Hs. }
  rewrite E. split; [done|]. split; [done|]. unfold step_tick. rewrite long_keeps_short.
  unfold update_short_phase, short_weak, short_very_weak. cbn. by rewrite (proj2 (Z.ltb_lt _ _)) by lia.
Qed.
End phases.

(** ** Witnesses *)

Definition demo_zt : ZThresholds := mkZT 5000 8000 14000.
Definition demo_ticks : list tick :=
  [mkTick 5 (mkZScores (-1000) (-2000) (-3000)) 8000;
   mkTick 4 (mkZScores (-1000) (-3000) (-9000)) 8000;
   mkTick 3 (mkZScores (-9000) (-20000) (-9000)) 8000;
   mkTick 2 (mkZScores (-9000) (-12000) (-9000)) 8000;
   mkTick 1 (mkZScores (-9000) (-9000) (-9000)) 8000].
Definition demo_run : PhaseState :=
  foldr (step_tick MeanReversionConfig_default demo_zt) PhaseState_default demo_ticks.

Lemma very_weak_after_excursion_witness :
  short_phase demo_run = kVeryWeak /\
  exists d w v, [v; w; d] `sublist_of` demo_ticks /\
    z_mid (tk_z d) < - scaled (tk_adaptive d) 12000 /\
    - scaled (tk_adaptive w) 8000 < z_mid (tk_z w) /\
    - 5000 < z_fast (tk_z v) /\ - 8000 < z_mid (tk_z v) /\ - 14000 < z_slow (tk_z v).
Proof.
  split; [by vm_compute|].
  apply (very_weak_after_excursion MeanReversionConfig_default demo_zt demo_ticks demo_run); [|by vm_compute].
  unfold demo_run, demo_ticks. simpl. repeat apply run_tick. apply run_init.
Defined.

(** A trough of -20000, a recovery to 12000 with the slow score still low. *)
Definition demo_shared : PhaseState := mkPhase kBuilding kWeak (-20000) 7.
Lemma shared_peak_false_reversal_witness :
  let step := step_tick MeanReversionConfig_default demo_zt in
  let k := mkTick 8 (mkZScores 4000 12000 (-14000)) 8000 in
  let k' := mkTick 9 (mkZScores 3000 11000 (-9000)) 8000 in
  short_phase (step k demo_shared) = kWeak /\ peak_z (step k demo_shared) = 12000 /\
  short_phase (step k' (step k demo_shared)) = kDeep.
Proof.
  apply (shared_peak_false_reversal MeanReversionConfig_default demo_zt
    (mkTick 8 (mkZScores 4000 12000 (-14000)) 8000) (mkTick 9 (mkZScores 3000 11000 (-9000)) 8000) demo_shared);
    by vm_compute.
Defined.

End MarketPhase.
