(* ===== verification/MakerScores.v ===== *)
(** * Entry and exit scores
      (src/hft/src/strategy/mean_reversion_maker/mean_reversion_maker.h)

    The configuration of entries and exits and the weighted scores that decide
    them.  Strengths and scores are scaled by [kSignalScale]; the time pressure is
    computed on unsigned 64-bit numbers, whose wrap is written out. *)

From S2P Require Import Prelude Types WallDetector.

Module MakerScores.

Import WallDetector.

(** ** Configuration *)

Record WallDetectionConfig := mkWallDetection { max_distance_bps : Z; max_levels : Z }.
Definition WallDetectionConfig_default : WallDetectionConfig := mkWallDetection 15 100.

Record EntryConfig := mkEntry {
  obi_threshold : Z;
  obi_levels : Z;
  position_size_raw : Z;
  safety_margin_entry_bps : Z;
  safety_margin_exit_bps : Z;
  min_signal_quality : Z;
  wall_weight : Z;
  obi_weight : Z;
  wall_norm_multiplier : Z;
  obi_norm_min : Z;
  obi_norm_max : Z;
  short_zscore_min_ratio : Z;
  defense_max_price_slippage_raw : Z;
}.
Definition EntryConfig_default : EntryConfig :=
  mkEntry 2500 5 10 5 5 6500 6000 4000 30000 0 1500 8000 500.

Record ExitConfig := mkExit {
  wall_amount_decay_ratio : Z;
  wall_distance_expand_ratio : Z;
  max_loss_bps : Z;
  max_hold_time_ns : Z;
  max_price_deviation_bps : Z;
  cancel_on_wall_decay : bool;
  obi_exit_threshold : Z;
  exit_neutral_threshold : Z;
  min_exit_quality : Z;
  obi_reversal_weight : Z;
  wall_decay_weight : Z;
  time_weight : Z;
  soft_time_ratio : Z;
  override_exit_threshold : Z;
  urgency_high_threshold : Z;
  urgency_low_threshold : Z;
}.
Definition ExitConfig_default : ExitConfig :=
  mkExit 5000 12000 20 30000000000 20 true 5000 3000 6500 5000 3000 2000 5000 5000 8000 5000.

(** ** Entry score *)

Record SignalScore := mkSignal { wall_strength : Z; obi_strength : Z }.

Definition signal_composite (cfg : EntryConfig) (s : SignalScore) : Z :=
  Z.quot (wall_weight cfg * wall_strength s + obi_weight cfg * obi_strength s) kSignalScale.

Inductive Quality := kExcellent | kGood | kMarginal | kPoor.

Definition get_quality (cfg : EntryConfig) (s : SignalScore) : Quality :=
  let score := signal_composite cfg s in
  if 8000 <? score then kExcellent
  else if min_signal_quality cfg <=? score then kGood
  else if 5000 <? score then kMarginal
  else kPoor.

(** [min_quantity] is [dynamic_threshold_->get_min_quantity()], [qty_scale] is
    [FixedPointConfig::kQtyScale]. *)
Definition calculate_long_signal_score (cfg : EntryConfig) (qty_scale min_quantity : Z)
    (wall : WallInfo) (obi mid_price : Z) : SignalScore :=
  let min_notional := Z.quot (min_quantity * mid_price) qty_scale in
  let wall_target := Z.quot (min_notional * wall_norm_multiplier cfg) kSignalScale in
  let wall_strength :=
    if 0 <? wall_target
    then clamp (Z.quot (accumulated_notional wall * kSignalScale) wall_target) 0 kSignalScale else 0 in
  let obi_range := obi_norm_max cfg - obi_norm_min cfg in
  let obi_strength :=
    if 0 <? obi_range
    then clamp (Z.quot ((obi_norm_max cfg - Z.abs obi) * kSignalScale) obi_range) 0 kSignalScale else 0 in
  mkSignal wall_strength obi_strength.

Definition calculate_short_signal_score (cfg : EntryConfig) (qty_scale min_quantity : Z)
    (wall : WallInfo) (obi mid_price : Z) : SignalScore :=
  let min_notional := Z.quot (min_quantity * mid_price) qty_scale in
  let wall_target := Z.quot (min_notional * wall_norm_multiplier cfg) kSignalScale in
  let wall_strength :=
    if 0 <? wall_target
    then clamp (Z.quot (accumulated_notional wall * kSignalScale) wall_target) 0 kSignalScale else 0 in
  let obi_range := obi_norm_max cfg - obi_norm_min cfg in
  let obi_strength :=
    if 0 <? obi_range
    then clamp (Z.quot ((obi_norm_max cfg - Z.abs obi) * kSignalScale) obi_range) 0 kSignalScale else 0 in
  mkSignal wall_strength obi_strength.

(** ** Exit score *)

Record ExitScore := mkExitScore {
  obi_reversal_strength : Z;
  wall_decay_strength : Z;
  time_pressure : Z;
}.

Definition exit_composite (cfg : ExitConfig) (s : ExitScore) : Z :=
  Z.quot (obi_reversal_weight cfg * obi_reversal_strength s + wall_decay_weight cfg * wall_decay_strength s +
          time_weight cfg * time_pressure s) kSignalScale.

Inductive Urgency := kHigh | kMedium | kLow | kNoUrgency.

Definition get_urgency (cfg : ExitConfig) (s : ExitScore) : Urgency :=
  let score := exit_composite cfg s in
  if urgency_high_threshold cfg <=? score then kHigh
  else if min_exit_quality cfg <=? score then kMedium
  else if urgency_low_threshold cfg <=? score then kLow
  else kNoUrgency.

Definition calculate_z_reversion_strength (current_z exit_threshold : Z) (is_long : bool) : Z :=
  let z_from_threshold := if is_long then current_z - - exit_threshold else - current_z - - exit_threshold in
  if z_from_threshold <=? 0 then 0
  else
    let z_max_range := exit_threshold in
    if z_max_range <=? 0 then 0
    else clamp (Z.quot (z_from_threshold * kSignalScale) z_max_range) 0 kSignalScale.

Definition calculate_obi_reversal_strength (current_obi exit_threshold : Z) (is_long : bool) : Z :=
  let reversal_condition :=
    if is_long then current_obi <? - exit_threshold else exit_threshold <? current_obi in
  if negb reversal_condition then 0
  else
    let obi_excess := if is_long then Z.abs current_obi - exit_threshold else current_obi - exit_threshold in
    if obi_excess <=? 0 then 0
    else
      let obi_max_range := kObiScale - exit_threshold in
      if obi_max_range <=? 0 then 0
      else clamp (Z.quot (obi_excess * kSignalScale) obi_max_range) 0 kSignalScale.

Definition calculate_wall_decay_strength (cfg : ExitConfig) (current_wall_info entry_wall_info : WallInfo) : Z :=
  if accumulated_notional entry_wall_info <=? 0 then 0
  else
    let wall_ratio :=
      Z.quot (accumulated_notional current_wall_info * kSignalScale) (accumulated_notional entry_wall_info) in
    let strength :=
      if wall_ratio <? wall_amount_decay_ratio cfg then
        let decay_delta := wall_amount_decay_ratio cfg - wall_ratio in
        let decay_range := wall_amount_decay_ratio cfg in
        if 0 <? decay_range then clamp (Z.quot (decay_delta * kSignalScale) decay_range) 0 kSignalScale else 0
      else 0 in
    if (0 <? distance_bps entry_wall_info) &&
       (distance_bps entry_wall_info * wall_distance_expand_ratio cfg
          <? distance_bps current_wall_info * kSignalScale) then
      let distance_ratio :=
        Z.quot (distance_bps current_wall_info * kSignalScale) (distance_bps entry_wall_info) in
      let distance_excess := distance_ratio - wall_distance_expand_ratio cfg in
      let distance_contribution := Z.min (Z.quot distance_excess 2) (Z.quot kSignalScale 2) in
      Z.min (strength + distance_contribution) kSignalScale
    else strength.

Definition soft_time (cfg : ExitConfig) : Z :=
  u64 (max_hold_time_ns cfg * u64 (soft_time_ratio cfg)) / kSignalScale.

Definition calculate_time_pressure (cfg : ExitConfig) (hold_time_ns : Z) : Z :=
  if hold_time_ns =? 0 then 0
  else
    let pressure :=
      if hold_time_ns <? soft_time cfg then
        i64 (u64 (hold_time_ns * u64 (soft_time_ratio cfg)) / soft_time cfg)
      else
        let excess_time := u64 (hold_time_ns - soft_time cfg) in
        let remaining_time := u64 (max_hold_time_ns cfg - soft_time cfg) in
        if 0 <? remaining_time then
          let excess_pressure :=
            i64 (u64 (excess_time * u64 (kSignalScale - soft_time_ratio cfg)) / remaining_time) in
          soft_time_ratio cfg + excess_pressure
        else 0 in
    clamp pressure 0 kSignalScale.

(** The wall of the position's side now and when it was opened. *)
Definition calculate_long_exit_score (cfg : ExitConfig) (bid_wall entry_wall : WallInfo)
    (current_obi hold_time_ns : Z) : ExitScore :=
  mkExitScore (calculate_obi_reversal_strength current_obi (obi_exit_threshold cfg) true)
    (calculate_wall_decay_strength cfg bid_wall entry_wall) (calculate_time_pressure cfg hold_time_ns).

Definition calculate_short_exit_score (cfg : ExitConfig) (ask_wall entry_wall : WallInfo)
    (current_obi hold_time_ns : Z) : ExitScore :=
  mkExitScore (calculate_obi_reversal_strength current_obi (obi_exit_threshold cfg) false)
    (calculate_wall_decay_strength cfg ask_wall entry_wall) (calculate_time_pressure cfg hold_time_ns).

(** ** Ranges *)

Definition strength_ok (x : Z) : Prop := 0 <= x <= kSignalScale.

Lemma clamp_strength x : strength_ok (clamp x 0 kSignalScale).
Proof. by apply clamp_range. Qed.
#[local] Hint Resolve clamp_strength : core.

Lemma zero_strength : strength_ok 0.
Proof. done. Qed.
#[local] Hint Resolve zero_strength : core.

Lemma signal_score_range cfg qty_scale q wall obi mid :
  let s := calculate_long_signal_score cfg qty_scale q wall obi mid in
  strength_ok (wall_strength s) /\ strength_ok (obi_strength s).
Proof. cbn. split; case_match; auto. Qed.

Lemma obi_reversal_range obi th is_long : strength_ok (calculate_obi_reversal_strength obi th is_long).
Proof. unfold calculate_obi_reversal_strength. repeat case_match; auto. Qed.

Lemma time_pressure_range cfg t : strength_ok (calculate_time_pressure cfg t).
Proof. unfold calculate_time_pressure. case_match; auto. Qed.

Lemma wall_decay_range cfg cur ent : strength_ok (calculate_wall_decay_strength cfg cur ent).
Proof.
  unfold calculate_wall_decay_strength. case_match; [auto|]. cbv zeta.
  match goal with |- context [if ?c then if _ then clamp ?a _ _ else 0 else 0] =>
    assert (Hs : strength_ok (if c then if 0 <? wall_amount_decay_ratio cfg then clamp a 0 kSignalScale else 0 else 0))
      by (repeat case_match; auto);
    revert Hs; generalize (if c then if 0 <? wall_amount_decay_ratio cfg then clamp a 0 kSignalScale else 0 else 0)
  end.
  intros strength Hs. case_match eqn:E; [|done]. rewrite andb_true_iff, !Z.ltb_lt in E. destruct E as [Hd Hx].
  assert (He : 0 <= Z.quot (distance_bps cur * kSignalScale) (distance_bps ent) - wall_distance_expand_ratio cfg).
  { pose proof (Z.quot_rem' (distance_bps cur * kSignalScale) (distance_bps ent)).
    pose proof (Z.rem_bound_abs (distance_bps cur * kSignalScale) (distance_bps ent) ltac:(lia)). nia. }
  revert He. generalize (Z.quot (distance_bps cur * kSignalScale) (distance_bps ent) - wall_distance_expand_ratio cfg).
  intros e He. unfold strength_ok, kSignalScale in *. rewrite (Z.quot_div_nonneg e) by lia.
  change (Z.quot 10000 2) with 5000. pose proof (Z.div_pos e 2). lia.
Qed.

(** A weighted mean of strengths. *)
Definition weights_ok (ws : list Z) : Prop := Forall (Z.le 0) ws /\ foldr Z.add 0 ws = kSignalScale.

Lemma weighted2 a b x y :
  weights_ok [a; b] -> strength_ok x -> strength_ok y -> strength_ok (Z.quot (a * x + b * y) kSignalScale).
Proof.
  intros [Hw Hsum]. rewrite !Forall_cons in Hw. cbn in Hsum. unfold strength_ok, kSignalScale in *.
  intros. rewrite Z.quot_div_nonneg by nia.
  split; [apply Z.div_pos; nia | apply Z.div_le_upper_bound; nia].
Qed.

Lemma weighted3 a b c x y z :
  weights_ok [a; b; c] -> strength_ok x -> strength_ok y -> strength_ok z ->
  strength_ok (Z.quot (a * x + b * y + c * z) kSignalScale).
Proof.
  intros [Hw Hsum]. rewrite !Forall_cons in Hw. cbn in Hsum. unfold strength_ok, kSignalScale in *.
  intros. rewrite Z.quot_div_nonneg by nia.
  split; [apply Z.div_pos; nia | apply Z.div_le_upper_bound; nia].
Qed.

(** The scores are percentages.  With weights that are not negative and sum
    to [kSignalScale], the entry score and the exit scores of both sides are in
    [0, kSignalScale] for every book, wall, position and holding time. *)
Theorem composite_scores_range ecfg xcfg qty_scale q wall entry_wall obi mid t :
  weights_ok [wall_weight ecfg; obi_weight ecfg] ->
  weights_ok [obi_reversal_weight xcfg; wall_decay_weight xcfg; time_weight xcfg] ->
  strength_ok (signal_composite ecfg (calculate_long_signal_score ecfg qty_scale q wall obi mid)) /\
  strength_ok (signal_composite ecfg (calculate_short_signal_score ecfg qty_scale q wall obi mid)) /\
  strength_ok (exit_composite xcfg (calculate_long_exit_score xcfg wall entry_wall obi t)) /\
  strength_ok (exit_composite xcfg (calculate_short_exit_score xcfg wall entry_wall obi t)).
Proof.
  intros He Hx. destruct (signal_score_range ecfg qty_scale q wall obi mid) as [Hw Ho].
  split_and!; try by apply weighted2.
  all: apply weighted3; try done; cbn; auto using obi_reversal_range, wall_decay_range, time_pressure_range.
Qed.

Lemma default_entry_weights : weights_ok [wall_weight EntryConfig_default; obi_weight EntryConfig_default].
Proof. split; [|done]. repeat (apply Forall_cons; split; [by vm_compute|]). apply Forall_nil_2. Qed.
Lemma default_exit_weights :
  weights_ok [obi_reversal_weight ExitConfig_default; wall_decay_weight ExitConfig_default;
              time_weight ExitConfig_default].
Proof. split; [|done]. repeat (apply Forall_cons; split; [by vm_compute|]). apply Forall_nil_2. Qed.

Lemma composite_scores_range_witness :
  let wall := mkInfo 5000000 4 3 true in
  let s := calculate_long_signal_score EntryConfig_default 1000 50000 wall (-700) 650 in
  strength_ok (signal_composite EntryConfig_default s) /\ signal_composite EntryConfig_default s = 8133.
Proof.
  split; [|by vm_compute].
  assert (H : _) by exact (composite_scores_range EntryConfig_default ExitConfig_default 1000 50000
    (mkInfo 5000000 4 3 true) (mkInfo 5000000 4 3 true) (-700) 650 0
    default_entry_weights default_exit_weights).
  apply H.
Defined.

(** ** What an exit needs *)

(** The part of an exit score that does not come from the book's imbalance. *)
Definition passive_share (cfg : ExitConfig) : Z := wall_decay_weight cfg + time_weight cfg.

Lemma no_reversal_score cfg d t :
  0 <= wall_decay_weight cfg -> 0 <= time_weight cfg -> strength_ok d -> strength_ok t ->
  exit_composite cfg (mkExitScore 0 d t) <= passive_share cfg.
Proof.
  intros. unfold exit_composite, passive_share, strength_ok, kSignalScale in *. cbn.
  rewrite Z.mul_0_r, Z.quot_div_nonneg by nia. apply Z.div_le_upper_bound; nia.
Qed.

Lemma reversal_condition obi th is_long :
  calculate_obi_reversal_strength obi th is_long <> 0 -> if is_long then obi < - th else th < obi.
Proof.
  unfold calculate_obi_reversal_strength. destruct is_long.
  - destruct (Z.ltb_spec obi (- th)); done.
  - destruct (Z.ltb_spec th obi); done.
Qed.

(** A scored exit needs a reversal of the book.  When the weights of the wall
    and of the time together are below the exit quality (5000 against 6500 by
    default), neither the decay of the wall nor any holding time makes the score
    reach it: a long is closed by the score only while the imbalance is below
    minus the exit threshold, a short only while it is above the threshold. *)
Theorem scored_exit_needs_reversal cfg wall entry_wall obi t :
  0 <= wall_decay_weight cfg -> 0 <= time_weight cfg -> passive_share cfg < min_exit_quality cfg ->
  (min_exit_quality cfg <= exit_composite cfg (calculate_long_exit_score cfg wall entry_wall obi t) ->
     obi < - obi_exit_threshold cfg) /\
  (min_exit_quality cfg <= exit_composite cfg (calculate_short_exit_score cfg wall entry_wall obi t) ->
     obi_exit_threshold cfg < obi).
Proof.
  intros Hw Ht Hq. split; intros Hs.
  - apply (reversal_condition _ _ true). intros E. unfold calculate_long_exit_score in Hs. rewrite E in Hs.
    pose proof (no_reversal_score cfg _ _ Hw Ht (wall_decay_range cfg wall entry_wall) (time_pressure_range cfg t)).
    lia.
  - apply (reversal_condition _ _ false). intros E. unfold calculate_short_exit_score in Hs. rewrite E in Hs.
    pose proof (no_reversal_score cfg _ _ Hw Ht (wall_decay_range cfg wall entry_wall) (time_pressure_range cfg t)).
    lia.
Qed.

Lemma scored_exit_needs_reversal_witness :
  let s obi := calculate_long_exit_score ExitConfig_default (mkInfo 0 9 3 true) (mkInfo 5000000 4 3 true) obi
    40000000000 in
  min_exit_quality ExitConfig_default <= exit_composite ExitConfig_default (s (-8000)) /\ - 8000 < - 5000 /\
  exit_composite ExitConfig_default (s (-5000)) = 5000.
Proof.
  split; [by vm_compute|]. split; [|by vm_compute].
  apply (scored_exit_needs_reversal ExitConfig_default (mkInfo 0 9 3 true) (mkInfo 5000000 4 3 true) (-8000)
    40000000000); by vm_compute.
Defined.

(** ** Time pressure *)

(** The ramp on exact integers. *)
Definition pressure_ramp (cfg : ExitConfig) (t : Z) : Z :=
  let soft := max_hold_time_ns cfg * soft_time_ratio cfg / kSignalScale in
  if t <? soft then t * soft_time_ratio cfg / soft
  else soft_time_ratio cfg + (t - soft) * (kSignalScale - soft_time_ratio cfg) / (max_hold_time_ns cfg - soft).

Definition hold_ok (cfg : ExitConfig) : Prop :=
  0 <= soft_time_ratio cfg < kSignalScale /\ 0 < max_hold_time_ns cfg /\
  max_hold_time_ns cfg * kSignalScale < two64.

Lemma soft_range cfg : hold_ok cfg ->
  0 <= max_hold_time_ns cfg * soft_time_ratio cfg / kSignalScale < max_hold_time_ns cfg.
Proof. unfold hold_ok, kSignalScale. intros (Hr & Hm & _). split; [apply Z.div_pos; nia|]. apply Z.div_lt_upper_bound; nia. Qed.

Lemma pressure_is_ramp cfg t :
  hold_ok cfg -> 0 < t -> t * kSignalScale <= int64_max ->
  calculate_time_pressure cfg t = Z.min (pressure_ramp cfg t) kSignalScale.
Proof.
  intros Hok Ht Hb. pose proof (soft_range cfg Hok) as Hs. destruct Hok as (Hr & Hm & Hmb).
  unfold calculate_time_pressure, pressure_ramp, soft_time.
  unfold kSignalScale, two64, int64_max in *.
  rewrite (u64_small (soft_time_ratio cfg)), (u64_small (max_hold_time_ns cfg * _)) by (unfold in_u64, two64; nia).
  set (soft := max_hold_time_ns cfg * soft_time_ratio cfg / 10000) in *.
  rewrite (proj2 (Z.eqb_neq t 0)) by lia. cbv zeta.
  rewrite (u64_small (10000 - _)), (u64_small (max_hold_time_ns cfg - _)) by (unfold in_u64, two64; lia).
  rewrite (proj2 (Z.ltb_lt 0 _)) by lia.
  destruct (Z.ltb_spec t soft).
  - rewrite (u64_small (t * _)) by (unfold in_u64, two64; nia).
    assert (0 <= t * soft_time_ratio cfg / soft <= soft_time_ratio cfg)
      by (split; [apply Z.div_pos; nia | apply Z.div_le_upper_bound; nia]).
    rewrite i64_small by (unfold in_i64, int64_min, int64_max; lia). unfold clamp.
    destruct (Z.ltb_spec (t * soft_time_ratio cfg / soft) 0), (Z.ltb_spec 10000 (t * soft_time_ratio cfg / soft)); lia.
  - rewrite (u64_small (t - _)) by (unfold in_u64, two64; lia).
    rewrite (u64_small ((t - soft) * _)) by (unfold in_u64, two64; nia).
    assert (Hq : 0 <= (t - soft) * (10000 - soft_time_ratio cfg) / (max_hold_time_ns cfg - soft) <= t * 10000)
      by (split; [apply Z.div_pos; nia | apply Z.div_le_upper_bound; nia]).
    rewrite i64_small by (unfold in_i64, int64_min, int64_max; lia). unfold clamp.
    set (q := (t - soft) * _ / _) in *. destruct (Z.ltb_spec (soft_time_ratio cfg + q) 0), (Z.ltb_spec 10000 (soft_time_ratio cfg + q)); lia.
Qed.

Lemma ramp_mono cfg t t' : hold_ok cfg -> 0 <= t <= t' -> pressure_ramp cfg t <= pressure_ramp cfg t'.
Proof.
  intros Hok Ht. pose proof (soft_range cfg Hok) as Hs. destruct Hok as (Hr & Hm & Hmb).
  unfold pressure_ramp. unfold kSignalScale in *.
  set (soft := max_hold_time_ns cfg * soft_time_ratio cfg / 10000) in *.
  destruct (Z.ltb_spec t soft), (Z.ltb_spec t' soft); try lia.
  - apply Z.div_le_mono; nia.
  - assert (t * soft_time_ratio cfg / soft <= soft_time_ratio cfg) by (apply Z.div_le_upper_bound; nia).
    assert (0 <= (t' - soft) * (10000 - soft_time_ratio cfg) / (max_hold_time_ns cfg - soft)) by (apply Z.div_pos; nia).
    lia.
  - apply Z.add_le_mono_l, Z.div_le_mono; nia.
Qed.

(** The pressure of time is a ramp.  With a soft ratio below one and holding
    times whose scaled product fits 64 bits, the pressure never decreases while a
    position is held, is 0 at the start, and is complete from the maximum holding
    time on. *)
Theorem time_pressure_ramp cfg t t' :
  hold_ok cfg -> 0 <= t <= t' -> t' * kSignalScale <= int64_max ->
  calculate_time_pressure cfg t <= calculate_time_pressure cfg t' /\
  calculate_time_pressure cfg 0 = 0 /\
  (max_hold_time_ns cfg <= t' -> calculate_time_pressure cfg t' = kSignalScale).
Proof.
  intros Hok Ht Hb. split_and!; [|done|].
  - destruct (decide (t = 0)) as [-> |]; [apply time_pressure_range|].
    rewrite !pressure_is_ramp by (done || unfold kSignalScale in *; lia).
    pose proof (ramp_mono cfg t t' Hok Ht). lia.
  - intros Hmax. pose proof (soft_range cfg Hok) as Hs. pose proof Hok as (Hr & Hm & Hmb).
    rewrite pressure_is_ramp by (done || lia). unfold pressure_ramp, kSignalScale in *.
    set (soft := max_hold_time_ns cfg * soft_time_ratio cfg / 10000) in *.
    rewrite (proj2 (Z.ltb_ge _ _)) by lia.
    assert (10000 - soft_time_ratio cfg <= (t' - soft) * (10000 - soft_time_ratio cfg) / (max_hold_time_ns cfg - soft))
      by (apply Z.div_le_lower_bound; nia).
    lia.
Qed.

Lemma time_pressure_ramp_witness :
  calculate_time_pressure ExitConfig_default 7500000000 <= calculate_time_pressure ExitConfig_default 30000000000 /\
  calculate_time_pressure ExitConfig_default 0 = 0 /\
  calculate_time_pressure ExitConfig_default 30000000000 = 10000 /\
  calculate_time_pressure ExitConfig_default 7500000000 = 2500.
Proof.
  assert (H : _) by exact (time_pressure_ramp ExitConfig_default 7500000000 30000000000
    ltac:(by vm_compute) ltac:(lia) ltac:(by vm_compute)).
  destruct H as (H1 & H2 & H3). split; [exact H1|]. split; [exact H2|]. split; [apply H3; by vm_compute | by vm_compute].
Defined.

End MakerScores.
