(* ===== verification/AdverseSelection.v ===== *)
(** * Adverse selection
      (src/hft/src/strategy/mean_reversion_maker/mean_reversion_maker.h)

    [AdverseSelectionTracker] keeps the last fills and compares each with the
    price about a second later.  Times are unsigned 64-bit numbers; a division by
    zero is [None]. *)

From S2P Require Import Prelude Types.

Module AdverseSelection.

Record AdverseSelectionConfig := mkAdverse {
  max_fill_history : Z;
  measurement_window_ns : Z;
  measurement_tolerance_ns : Z;
  adverse_threshold_bps : Z;
  min_samples : Z;
  ratio_threshold : Z;
  margin_multiplier : Z;
}.
Definition AdverseSelectionConfig_default : AdverseSelectionConfig :=
  mkAdverse 20 1000000000 100000000 2 10 5000 15000.

Record FillRecord := mkFill {
  fill_time : Z;
  fill_price_raw : Z;
  fill_side : Side;
  price_1s_later_raw : Z;
  measured : bool;
}.

Record AdverseSelectionTracker := mkAST {
  recent_fills : list FillRecord;
  adverse_count : Z;
  total_measured : Z;
}.
Definition new_adverse_tracker : AdverseSelectionTracker := mkAST [] 0 0.

(** ** Operations *)

Definition on_fill (time price_raw : Z) (side : Side) (max_history : Z) (t : AdverseSelectionTracker)
    : AdverseSelectionTracker :=
  let fills := recent_fills t ++ [mkFill time price_raw side 0 false] in
  mkAST (if max_history <? zlen fills then drop 1 fills else fills) (adverse_count t) (total_measured t).

(** Whether [now] is in the measurement window of a fill. *)
Definition in_window (cfg : AdverseSelectionConfig) (now : Z) (fill : FillRecord) : bool :=
  let elapsed := u64 (now - fill_time fill) in
  (u64 (measurement_window_ns cfg - measurement_tolerance_ns cfg) <=? elapsed) &&
  (elapsed <? u64 (measurement_window_ns cfg + measurement_tolerance_ns cfg)).

Definition is_adverse (cfg : AdverseSelectionConfig) (side : Side) (ret_bps : Z) : bool :=
  (bool_decide (side = kBuy) && (ret_bps <? - adverse_threshold_bps cfg)) ||
  (bool_decide (side = kSell) && (adverse_threshold_bps cfg <? ret_bps)).

(** One turn of the loop of [on_price_update]. *)
Definition measure (cfg : AdverseSelectionConfig) (now current_price_raw : Z) (fill : FillRecord)
    (counts : Z * Z) : option (FillRecord * (Z * Z)) :=
  if measured fill then Some (fill, counts)
  else if in_window cfg now fill then
    let delta := current_price_raw - fill_price_raw fill in
    if fill_price_raw fill =? 0 then None
    else
      let ret_bps := Z.quot (delta * kBpsScale) (fill_price_raw fill) in
      let adverse := if is_adverse cfg (fill_side fill) ret_bps then counts.1 + 1 else counts.1 in
      Some (mkFill (fill_time fill) (fill_price_raw fill) (fill_side fill) current_price_raw true,
            (adverse, counts.2 + 1))
  else Some (fill, counts).

Fixpoint measure_all (cfg : AdverseSelectionConfig) (now price : Z) (fills : list FillRecord) (counts : Z * Z)
    : option (list FillRecord * (Z * Z)) :=
  match fills with
  | [] => Some ([], counts)
  | fill :: rest =>
      '(fill', counts) ← measure cfg now price fill counts;
      '(rest', counts) ← measure_all cfg now price rest counts;
      Some (fill' :: rest', counts)
  end.

Definition on_price_update (cfg : AdverseSelectionConfig) (now current_price_raw : Z)
    (t : AdverseSelectionTracker) : option AdverseSelectionTracker :=
  '(fills, counts) ← measure_all cfg now current_price_raw (recent_fills t) (adverse_count t, total_measured t);
  Some (mkAST fills counts.1 counts.2).

Definition get_ratio (min_samples : Z) (t : AdverseSelectionTracker) : option Z :=
  if total_measured t <? min_samples then Some 0
  else if total_measured t =? 0 then None
  else Some (Z.quot (adverse_count t * kSignalScale) (total_measured t)).

Definition is_being_picked_off (cfg : AdverseSelectionConfig) (t : AdverseSelectionTracker) : option bool :=
  ratio ← get_ratio (min_samples cfg) t; Some (ratio_threshold cfg <? ratio).

Definition reset (t : AdverseSelectionTracker) : AdverseSelectionTracker := mkAST [] 0 0.

(** ** Histories *)

Inductive event := Fill (time price_raw : Z) (side : Side) | Price (now price_raw : Z).

Definition step (cfg : AdverseSelectionConfig) (e : event) (t : AdverseSelectionTracker)
    : option AdverseSelectionTracker :=
  match e with
  | Fill time price side => Some (on_fill time price side (max_fill_history cfg) t)
  | Price now price => on_price_update cfg now price t
  end.

Definition run (cfg : AdverseSelectionConfig) (es : list event) : option AdverseSelectionTracker :=
  foldl (fun acc e => acc ≫= step cfg e) (Some new_adverse_tracker) es.

Definition is_fill (e : event) : bool := match e with Fill _ _ _ => true | Price _ _ => false end.
Definition fills_of (es : list event) : Z := zlen (filter (fun e => is_fill e = true) es).

Definition unmeasured (l : list FillRecord) : Z := zlen (filter (fun f => measured f = false) l).

(** [n] fills were reported: the counts are of different ones among them, and
    what waits to be measured is of those that are left. *)
Record tracker_ok (cfg : AdverseSelectionConfig) (n : Z) (t : AdverseSelectionTracker) : Prop := {
  ok_adverse : 0 <= adverse_count t <= total_measured t;
  ok_total : total_measured t + unmeasured (recent_fills t) <= n;
  ok_history : zlen (recent_fills t) <= Z.max 0 (max_fill_history cfg);
  ok_prices : Forall (fun f => fill_price_raw f <> 0) (recent_fills t);
}.

Lemma unmeasured_app l k : unmeasured (l ++ k) = unmeasured l + unmeasured k.
Proof. unfold unmeasured. by rewrite filter_app, zlen_app. Qed.
Lemma unmeasured_cons f l : unmeasured (f :: l) = (if measured f then 0 else 1) + unmeasured l.
Proof.
  unfold unmeasured. rewrite filter_cons. destruct (measured f); simpl; [lia|]. unfold zlen. simpl. lia.
Qed.

Lemma on_fill_ok cfg n time price side t :
  price <> 0 -> tracker_ok cfg n t -> tracker_ok cfg (n + 1) (on_fill time price side (max_fill_history cfg) t).
Proof.
  intros Hp [Ha Ht Hh Hz]. unfold on_fill. set (f := mkFill time price side 0 false).
  assert (Hun : unmeasured (recent_fills t ++ [f]) = unmeasured (recent_fills t) + 1)
    by (by rewrite unmeasured_app, unmeasured_cons).
  assert (Hlen : zlen (recent_fills t ++ [f]) = zlen (recent_fills t) + 1) by (by rewrite zlen_app).
  assert (Hall : Forall (fun f => fill_price_raw f <> 0) (recent_fills t ++ [f])).
  { apply Forall_app. split; [done|]. by repeat constructor. }
  split; cbn [adverse_count total_measured recent_fills]; [done| | |].
  - case_match; [|lia]. destruct (recent_fills t ++ [f]) as [|g l] eqn:E; [by destruct (recent_fills t)|].
    change (drop 1 (g :: l)) with l. rewrite unmeasured_cons in Hun. destruct (measured g); lia.
  - case_match; [|lia]. destruct (recent_fills t ++ [f]) as [|g l] eqn:E; [by destruct (recent_fills t)|].
    change (drop 1 (g :: l)) with l. unfold zlen in *. simpl in *. lia.
  - case_match; [|done]. by apply Forall_drop.
Qed.

Lemma measure_ok cfg now price f counts :
  fill_price_raw f <> 0 ->
  exists f' counts', measure cfg now price f counts = Some (f', counts') /\
    fill_price_raw f' = fill_price_raw f /\ (measured f = true -> f' = f) /\
    counts'.2 + (if measured f' then 0 else 1) = counts.2 + (if measured f then 0 else 1) /\
    counts.1 <= counts'.1 /\ counts'.1 - counts.1 <= counts'.2 - counts.2.
Proof.
  intros Hp. unfold measure. destruct (measured f) eqn:E; [eexists _, _; split; [done|]; rewrite E; split_and!; try done; lia|].
  destruct (in_window cfg now f).
  - rewrite (proj2 (Z.eqb_neq _ _)) by done. eexists _, _. split; [done|]. cbn. split_and!; try done; try case_match; lia.
  - eexists _, _. split; [done|]. rewrite E. split_and!; try done; lia.
Qed.

Lemma measure_all_ok cfg now price fills counts :
  Forall (fun f => fill_price_raw f <> 0) fills ->
  exists fills' counts', measure_all cfg now price fills counts = Some (fills', counts') /\
    Forall (fun f => fill_price_raw f <> 0) fills' /\ zlen fills' = zlen fills /\
    counts'.2 + unmeasured fills' = counts.2 + unmeasured fills /\
    counts.1 <= counts'.1 /\ counts'.1 - counts.1 <= counts'.2 - counts.2.
Proof.
  intros Hall. revert counts. induction Hall as [|f fills Hf Hall IH]; intros counts; simpl.
  { eexists _, _. split; [done|]. split_and!; try done; lia. }
  destruct (measure_ok cfg now price f counts Hf) as (f' & c1 & -> & Hpf & _ & Hc1). simpl.
  destruct (IH c1) as (fills' & c2 & -> & Hall' & Hlen & Hc2). simpl.
  eexists _, _. split; [done|]. rewrite !unmeasured_cons. split_and!; try lia.
  - constructor; [by rewrite Hpf | done].
  - unfold zlen in *. simpl. lia.
Qed.

Definition fill_priced (e : event) : Prop :=
  match e with Fill _ price _ => price <> 0 | Price _ _ => True end.

(** The tracker counts each fill once.  For every sequence of fills with a
    price and of price updates, at whatever times: no update divides by zero,
    there are never more adverse fills than measured ones and never more measured
    ones than fills, the history is bounded by its configuration, and the ratio
    is a percentage (0 below a positive minimum of samples). *)
Theorem each_fill_counted_once cfg es :
  Forall fill_priced es -> 0 < min_samples cfg ->
  exists t ratio, run cfg es = Some t /\ get_ratio (min_samples cfg) t = Some ratio /\
    0 <= adverse_count t <= total_measured t /\ total_measured t <= fills_of es /\
    zlen (recent_fills t) <= Z.max 0 (max_fill_history cfg) /\ 0 <= ratio <= kSignalScale.
Proof.
  intros Hes Hmin.
  assert (Hrun : exists t, run cfg es = Some t /\ tracker_ok cfg (fills_of es) t).
  { induction es as [|e es IH] using rev_ind.
    { exists new_adverse_tracker. split; [done|]. split; cbn; try done; unfold zlen; simpl; lia. }
    apply Forall_app in Hes as [Hes He]. apply Forall_cons in He as [He _]. destruct (IH Hes) as (t & Ht & Hok).
    unfold run. rewrite foldl_app. fold (run cfg es). rewrite Ht. cbn [foldl mbind option_bind].
    assert (Hn : fills_of (es ++ [e]) = fills_of es + if is_fill e then 1 else 0)
      by (unfold fills_of; rewrite filter_app, zlen_app; by destruct e).
    rewrite Hn. destruct e as [time price side|now price]; cbn [is_fill step].
    - eexists. split; [reflexivity|]. apply on_fill_ok; [exact He | exact Hok].
    - destruct Hok as [Ha Htot Hh Hz]. unfold on_price_update.
      destruct (measure_all_ok cfg now price (recent_fills t) (adverse_count t, total_measured t) Hz)
        as (fills' & c & -> & Hz' & Hlen & Hc). cbn in *. eexists. split; [done|].
      split; cbn [adverse_count total_measured recent_fills]; [lia|lia|lia|done]. }
  destruct Hrun as (t & Ht & [Ha Htot Hh Hz]). exists t. unfold get_ratio.
  assert (0 <= unmeasured (recent_fills t)) by apply zlen_nonneg.
  destruct (Z.ltb_spec (total_measured t) (min_samples cfg)).
  - exists 0. split_and!; try done; try lia.
  - rewrite (proj2 (Z.eqb_neq _ _)) by lia. eexists. split; [done|]. split; [done|]. unfold kSignalScale in *.
    rewrite Z.quot_div_nonneg by lia. split_and!; try lia; [apply Z.div_pos | apply Z.div_le_upper_bound]; nia.
Qed.

(** Two buys at 10000; a second later the first sees the price at 9990 (adverse),
    the second at 10010. *)
Definition demo_events : list event :=
  [Fill 0 10000 kBuy; Fill 500000000 10000 kBuy; Price 1000000000 9990; Price 1050000000 9000;
   Price 1500000000 10010].
Definition demo_adverse : AdverseSelectionConfig := mkAdverse 20 1000000000 100000000 2 1 4000 15000.

Lemma each_fill_counted_once_witness :
  (exists t ratio, run demo_adverse demo_events = Some t /\ get_ratio 1 t = Some ratio /\
    0 <= adverse_count t <= total_measured t /\ total_measured t <= 2 /\
    zlen (recent_fills t) <= 20 /\ 0 <= ratio <= kSignalScale) /\
  (run demo_adverse demo_events ≫= get_ratio 1) = Some 5000.
Proof.
  split; [|by vm_compute].
  apply (each_fill_counted_once demo_adverse demo_events); [|done]. unfold demo_events.
  repeat (apply Forall_cons; split; [simpl; lia || done|]). apply Forall_nil_2.
Defined.

End AdverseSelection.
