(* ===== verification/MeanReversionMaker.v ===== *)
(** * Mean reversion maker
      (src/hft/src/strategy/mean_reversion_maker/mean_reversion_maker.h)

    The strategy: its three callbacks over the walls, the z-scores, the phases,
    the scores and the positions.  The code writes every routine twice, once per
    direction; here a [Leg] selects the direction and the routine of a direction
    is the instance at its leg.

    The order manager is reached only through [apply], which is a parameter of
    the section, so that what the strategy asks of it can be stated for every
    order manager.  Readings of the clock are arguments, one per reading.  What
    ends the process (an exception in a [noexcept] callback, a division by zero,
    an access outside of a vector) is [None].  The average price of a report is a
    [double]; its scaled and truncated value is an argument. *)

From S2P Require Import Prelude BitScan MemoryPool Types OrderBook OrderBookPeek FixedPoint PositionKeeper QuoteReconciler FeatureEngine RobustZScore WallThreshold WallDetector MarketPhase MakerScores AdverseSelection.

Module Maker.

Import WallDetector MarketPhase MakerScores AdverseSelection.

(** ** Positions *)

Inductive PositionStatus := kNone | kPending | kActive.
#[export] Instance PositionStatus_eq_dec : EqDecision PositionStatus.
Proof. solve_decision. Defined.

Record PositionState := mkPosition {
  pos_qty : Z;
  entry_price : Z;
  entry_wall_info : WallInfo;
  status : PositionStatus;
  state_time : Z;
  pending_order_id : option Z;
}.
Definition PositionState_default : PositionState := mkPosition 0 0 WallInfo_default kNone 0 None.

Definition set_pending (id : option Z) (p : PositionState) : PositionState :=
  mkPosition (pos_qty p) (entry_price p) (entry_wall_info p) (status p) (state_time p) id.
Definition set_status (s : PositionStatus) (p : PositionState) : PositionState :=
  mkPosition (pos_qty p) (entry_price p) (entry_wall_info p) s (state_time p) (pending_order_id p).
Definition set_actual (qty price : Z) (p : PositionState) : PositionState :=
  mkPosition qty price (entry_wall_info p) (status p) (state_time p) (pending_order_id p).

(** ** Configuration and state *)

Record MakerConfig := mkMakerConfig {
  supports_position_side : bool;
  defense_qty_multiplier_ : Z;
  z_thresholds : ZThresholds;
  wall_cfg_ : WallDetectionConfig;
  entry_cfg_ : EntryConfig;
  exit_cfg_ : ExitConfig;
  mean_reversion_cfg_ : MeanReversionConfig;
  adverse_selection_cfg_ : AdverseSelectionConfig;
  volume_cfg : WallThreshold.VolumeThresholdConfig;
  orderbook_cfg : WallThreshold.OrderbookThresholdConfig;
  hybrid_cfg : WallThreshold.HybridThresholdConfig;
  zscore_fast_cfg : RobustZScore.RobustZScoreConfig;
  zscore_mid_cfg : RobustZScore.RobustZScoreConfig;
  zscore_slow_cfg : RobustZScore.RobustZScoreConfig;
}.

(** The three score windows. *)
Record Scorers := mkScorers {
  robust_zscore_fast_ : RobustZScore.RobustZScore;
  robust_zscore_mid_ : RobustZScore.RobustZScore;
  robust_zscore_slow_ : RobustZScore.RobustZScore;
}.

(** The reused vectors. *)
Record Buffers := mkBuffers {
  bid_qty_ : list Z;
  ask_qty_ : list Z;
  wall_level_qty_ : list Z;
  wall_level_idx_ : list Z;
}.

(** Walls and their trackers. *)
Record Walls := mkWalls {
  bid_wall_info_ : WallInfo;
  ask_wall_info_ : WallInfo;
  bid_wall_tracker_ : WallTracker;
  ask_wall_tracker_ : WallTracker;
}.

Record State := mkState {
  ticker_ : string;
  walls : Walls;
  long_position_ : PositionState;
  short_position_ : PositionState;
  prev_bbo_ : BBO;
  buffers : Buffers;
  current_wall_threshold_raw_ : Z;
  dynamic_threshold_ : WallThreshold.DynamicWallThreshold;
  scorers : Scorers;
  margin_entry_bps_ : Z;                 (* entry_cfg_.safety_margin_entry_bps *)
  adverse_selection_tracker_ : AdverseSelectionTracker;
  phase_state_ : PhaseState;
  last_orderbook_check_time_ : Z;
}.

(** The constructor; [original_safety_margin_bps_] is the configured margin. *)
Definition new_maker (cfg : MakerConfig) : State :=
  let zeros n := replicate (Z.to_nat n) 0 in
  mkState "" (mkWalls WallInfo_default WallInfo_default new_tracker new_tracker)
    PositionState_default PositionState_default BBO_default
    (mkBuffers (zeros (obi_levels (entry_cfg_ cfg))) (zeros (obi_levels (entry_cfg_ cfg)))
       (zeros (max_levels (wall_cfg_ cfg))) (zeros (max_levels (wall_cfg_ cfg))))
    0 (WallThreshold.new_threshold (orderbook_cfg cfg))
    (mkScorers RobustZScore.new_zscore RobustZScore.new_zscore RobustZScore.new_zscore)
    (safety_margin_entry_bps (entry_cfg_ cfg)) new_adverse_tracker PhaseState_default 0.

Definition set_ticker (x : string) (s : State) : State :=
  mkState x (walls s) (long_position_ s) (short_position_ s) (prev_bbo_ s) (buffers s)
    (current_wall_threshold_raw_ s) (dynamic_threshold_ s) (scorers s) (margin_entry_bps_ s)
    (adverse_selection_tracker_ s) (phase_state_ s) (last_orderbook_check_time_ s).
Definition set_walls (x : Walls) (s : State) : State :=
  mkState (ticker_ s) x (long_position_ s) (short_position_ s) (prev_bbo_ s) (buffers s)
    (current_wall_threshold_raw_ s) (dynamic_threshold_ s) (scorers s) (margin_entry_bps_ s)
    (adverse_selection_tracker_ s) (phase_state_ s) (last_orderbook_check_time_ s).
Definition set_long (x : PositionState) (s : State) : State :=
  mkState (ticker_ s) (walls s) x (short_position_ s) (prev_bbo_ s) (buffers s)
    (current_wall_threshold_raw_ s) (dynamic_threshold_ s) (scorers s) (margin_entry_bps_ s)
    (adverse_selection_tracker_ s) (phase_state_ s) (last_orderbook_check_time_ s).
Definition set_short (x : PositionState) (s : State) : State :=
  mkState (ticker_ s) (walls s) (long_position_ s) x (prev_bbo_ s) (buffers s)
    (current_wall_threshold_raw_ s) (dynamic_threshold_ s) (scorers s) (margin_entry_bps_ s)
    (adverse_selection_tracker_ s) (phase_state_ s) (last_orderbook_check_time_ s).
Definition set_prev_bbo (x : BBO) (s : State) : State :=
  mkState (ticker_ s) (walls s) (long_position_ s) (short_position_ s) x (buffers s)
    (current_wall_threshold_raw_ s) (dynamic_threshold_ s) (scorers s) (margin_entry_bps_ s)
    (adverse_selection_tracker_ s) (phase_state_ s) (last_orderbook_check_time_ s).
Definition set_buffers (x : Buffers) (s : State) : State :=
  mkState (ticker_ s) (walls s) (long_position_ s) (short_position_ s) (prev_bbo_ s) x
    (current_wall_threshold_raw_ s) (dynamic_threshold_ s) (scorers s) (margin_entry_bps_ s)
    (adverse_selection_tracker_ s) (phase_state_ s) (last_orderbook_check_time_ s).
Definition set_wall_threshold (raw : Z) (x : WallThreshold.DynamicWallThreshold) (s : State) : State :=
  mkState (ticker_ s) (walls s) (long_position_ s) (short_position_ s) (prev_bbo_ s) (buffers s)
    raw x (scorers s) (margin_entry_bps_ s)
    (adverse_selection_tracker_ s) (phase_state_ s) (last_orderbook_check_time_ s).
Definition set_scorers (x : Scorers) (s : State) : State :=
  mkState (ticker_ s) (walls s) (long_position_ s) (short_position_ s) (prev_bbo_ s) (buffers s)
    (current_wall_threshold_raw_ s) (dynamic_threshold_ s) x (margin_entry_bps_ s)
    (adverse_selection_tracker_ s) (phase_state_ s) (last_orderbook_check_time_ s).
Definition set_adverse (margin : Z) (x : AdverseSelectionTracker) (s : State) : State :=
  mkState (ticker_ s) (walls s) (long_position_ s) (short_position_ s) (prev_bbo_ s) (buffers s)
    (current_wall_threshold_raw_ s) (dynamic_threshold_ s) (scorers s) margin
    x (phase_state_ s) (last_orderbook_check_time_ s).
Definition set_phase_state (x : PhaseState) (s : State) : State :=
  mkState (ticker_ s) (walls s) (long_position_ s) (short_position_ s) (prev_bbo_ s) (buffers s)
    (current_wall_threshold_raw_ s) (dynamic_threshold_ s) (scorers s) (margin_entry_bps_ s)
    (adverse_selection_tracker_ s) x (last_orderbook_check_time_ s).
Definition set_check_time (x : Z) (s : State) : State :=
  mkState (ticker_ s) (walls s) (long_position_ s) (short_position_ s) (prev_bbo_ s) (buffers s)
    (current_wall_threshold_raw_ s) (dynamic_threshold_ s) (scorers s) (margin_entry_bps_ s)
    (adverse_selection_tracker_ s) (phase_state_ s) x.

(** ** Legs *)

Inductive Leg := LongLeg | ShortLeg.
#[export] Instance Leg_eq_dec : EqDecision Leg.
Proof. solve_decision. Defined.

Definition other (l : Leg) : Leg := match l with LongLeg => ShortLeg | ShortLeg => LongLeg end.
Definition entry_side (l : Leg) : Side := match l with LongLeg => kBuy | ShortLeg => kSell end.
Definition exit_side (l : Leg) : Side := match l with LongLeg => kSell | ShortLeg => kBuy end.
Definition leg_position_side (l : Leg) : PositionSide :=
  match l with LongLeg => kLong | ShortLeg => kShort end.
Definition position (l : Leg) (s : State) : PositionState :=
  match l with LongLeg => long_position_ s | ShortLeg => short_position_ s end.
Definition set_position (l : Leg) (p : PositionState) (s : State) : State :=
  match l with LongLeg => set_long p s | ShortLeg => set_short p s end.
Definition wall_info (l : Leg) (s : State) : WallInfo :=
  match l with LongLeg => bid_wall_info_ (walls s) | ShortLeg => ask_wall_info_ (walls s) end.
Definition wall_tracker (l : Leg) (s : State) : WallTracker :=
  match l with LongLeg => bid_wall_tracker_ (walls s) | ShortLeg => ask_wall_tracker_ (walls s) end.
(** The best price of the leg's own side: entries rest there, exits hit it. *)
Definition best_price (l : Leg) (b : BBO) : Z :=
  match l with LongLeg => bid_price b | ShortLeg => ask_price b end.
Definition actual_position (l : Leg) (p : PositionKeeper.PositionInfo) : Z :=
  match l with
  | LongLeg => PositionKeeper.long_position_raw_ p | ShortLeg => PositionKeeper.short_position_raw_ p
  end.
Definition exit_phase (l : Leg) (ph : PhaseState) : MarketPhase :=
  match l with LongLeg => long_phase ph | ShortLeg => short_phase ph end.

(** ** Checks *)

Section maker.
Context {P : Type} `{NodePool P} `{NthElement} (fp : FixedPointConfig) (cfg : MakerConfig).
Context {M : Type} (apply : Z * Z -> list QuoteReconciler.QuoteIntent -> M -> option (M * list Z)).

(** What a callback changes: the strategy, the cache of the book, the order manager. *)
Record World := mkWorld { st : State; bk : Book P; om : M }.

Definition on_state (f : State -> State) (w : World) : World := mkWorld (f (st w)) (bk w) (om w).

Definition is_bbo_valid (b : BBO) : bool :=
  is_valid (bid_qty b) && is_valid (ask_qty b) && is_valid (bid_price b) && is_valid (ask_price b) &&
  (bid_price b <=? ask_price b).

Definition validate_defense_realtime (trade_qty : Z) (prev_bbo current_bbo : BBO) (defense_side : Side) : bool :=
  let max_price_move := defense_max_price_slippage_raw (entry_cfg_ cfg) in
  let required_qty := Z.quot (trade_qty * defense_qty_multiplier_ cfg) kSignalScale in
  if bool_decide (defense_side = kBuy) then
    let price_diff := bid_price prev_bbo - bid_price current_bbo in
    (price_diff <=? max_price_move) && (required_qty <=? bid_qty current_bbo)
  else
    let price_diff := ask_price current_bbo - ask_price prev_bbo in
    (price_diff <=? max_price_move) && (required_qty <=? ask_qty current_bbo).

Definition kMinWallQuality : Z := 6000.
Definition check_wall_quality (t : WallTracker) : bool := negb (composite_quality t <? kMinWallQuality).

Definition check_long_obi_direction (obi : Z) : bool :=
  if 0 <=? obi then false else negb (obi <? - obi_threshold (entry_cfg_ cfg)).
Definition check_short_obi_direction (obi : Z) : bool :=
  if obi <=? 0 then false else negb (obi_threshold (entry_cfg_ cfg) <? obi).
Definition check_obi_direction (l : Leg) : Z -> bool :=
  match l with LongLeg => check_long_obi_direction | ShortLeg => check_short_obi_direction end.

(** The levels that [peek_qty] does not fill keep their old quantities. *)
Definition calculate_orderbook_imbalance_int64 (w : World) : Z * World :=
  let b := buffers (st w) in
  let n := obi_levels (entry_cfg_ cfg) in
  let '(_, bids, _, bid_s) := peek_qty true n (bid_qty_ b) [] (bid_side (bk w)) in
  let '(_, asks, _, ask_s) := peek_qty false n (ask_qty_ b) [] (ask_side (bk w)) in
  let b' := mkBuffers bids asks (wall_level_qty_ b) (wall_level_idx_ b) in
  (FeatureEngine.orderbook_imbalance_int64 bids asks,
   mkWorld (set_buffers b' (st w)) (set_side false ask_s (set_side true bid_s (bk w))) (om w)).

Definition mid_of (b : BBO) : Z := Z.quot (bid_price b + ask_price b) 2.

Definition signal_score (l : Leg) : Z -> Z -> WallInfo -> Z -> Z -> SignalScore :=
  match l with
  | LongLeg => calculate_long_signal_score (entry_cfg_ cfg)
  | ShortLeg => calculate_short_signal_score (entry_cfg_ cfg)
  end.

(** ** Orders *)

Definition intent_of (side : Side) (pos : PositionSide) (price qty : Z) (s : State) : QuoteReconciler.QuoteIntent :=
  QuoteReconciler.mkIntent (ticker_ s) side (if supports_position_side cfg then Some pos else None) (Some price) qty.

(** The entry intent, at a margin behind the best price of its side. *)
Definition entry_intent (l : Leg) (base_price_raw : Z) (s : State) : QuoteReconciler.QuoteIntent :=
  let margin_raw := Z.quot (base_price_raw * margin_entry_bps_ s) kBpsScale in
  let price := match l with LongLeg => base_price_raw - margin_raw | ShortLeg => base_price_raw + margin_raw end in
  intent_of (entry_side l) (leg_position_side l) price (position_size_raw (entry_cfg_ cfg)) s.

Definition place_entry_order (apply_clock : Z * Z) (l : Leg) (base_price_raw : Z) (w : World) : option World :=
  '(m, order_ids) ← apply apply_clock [entry_intent l base_price_raw (st w)] (om w);
  let s := match order_ids with
           | id :: _ => set_position l (set_pending (Some id) (position l (st w))) (st w)
           | [] => st w
           end in
  Some (mkWorld s (bk w) m).

(** [emergency_exit(exit_side, price)]: a sell closes the long, a buy the short. *)
Definition exit_intent (l : Leg) (market_price_raw : Z) (s : State) : QuoteReconciler.QuoteIntent :=
  intent_of (exit_side l) (leg_position_side l) market_price_raw (pos_qty (position l s)) s.

Definition emergency_exit (apply_clock : Z * Z) (l : Leg) (market_price_raw : Z) (w : World)
    : option (World * list Z) :=
  '(m, order_ids) ← apply apply_clock [exit_intent l market_price_raw (st w)] (om w);
  Some (mkWorld (st w) (bk w) m, order_ids).

(** ** Entries *)

Definition check_entry (l : Leg) (now : Z) (apply_clock : Z * Z) (b : BBO) (w : World) : option World :=
  if negb (bool_decide (status (position l (st w)) = kNone)) then Some w
  else if negb (check_wall_quality (wall_tracker l (st w))) then Some w
  else
    let '(obi, w) := calculate_orderbook_imbalance_int64 w in
    let wall := wall_info l (st w) in
    let signal := signal_score l (kQtyScale fp) (WallThreshold.min_quantity_raw (hybrid_cfg cfg)) wall obi (mid_of b) in
    if signal_composite (entry_cfg_ cfg) signal <? min_signal_quality (entry_cfg_ cfg) then Some w
    else if negb (wall_valid wall) then Some w
    else if negb (check_obi_direction l obi) then Some w
    else
      let p := mkPosition (position_size_raw (entry_cfg_ cfg)) (best_price l b) wall kPending now
                 (pending_order_id (position l (st w))) in
      place_entry_order apply_clock l (best_price l b) (on_state (set_position l p) w).

Definition check_long_entry := check_entry LongLeg.
Definition check_short_entry := check_entry ShortLeg.

Definition is_long_reversal_signal (s : State) : bool := bool_decide (status (long_position_ s) = kNone).
Definition is_short_reversal_signal (s : State) : bool := bool_decide (status (short_position_ s) = kNone).

(** [try_long_entry] asks [is_short_reversal_signal] and [try_short_entry] asks
    [is_long_reversal_signal]. *)
Definition try_entry (l : Leg) (now : Z) (apply_clock : Z * Z) (trade_qty : Z) (b : BBO) (w : World) : option World :=
  if negb (match l with LongLeg => is_short_reversal_signal | ShortLeg => is_long_reversal_signal end (st w))
  then Some w
  else if negb (wall_valid (wall_info l (st w))) then Some w
  else if negb (validate_defense_realtime trade_qty (prev_bbo_ (st w)) b (entry_side l)) then Some w
  else check_entry l now apply_clock b w.

Definition try_long_entry := try_entry LongLeg.
Definition try_short_entry := try_entry ShortLeg.

(** ** Exits *)

(** [emergency_exit] with the order id kept as pending. *)
Definition exit_and_track (apply_clock : Z * Z) (l : Leg) (price : Z) (w : World) : option World :=
  '(w, order_ids) ← emergency_exit apply_clock l price w;
  Some (match order_ids with
        | id :: _ => on_state (set_position l (set_pending (Some id) (position l (st w)))) w
        | [] => w
        end).

Definition exit_score (l : Leg) (s : State) (current_obi hold_time : Z) : ExitScore :=
  match l with
  | LongLeg => calculate_long_exit_score (exit_cfg_ cfg) (bid_wall_info_ (walls s))
                 (entry_wall_info (long_position_ s)) current_obi hold_time
  | ShortLeg => calculate_short_exit_score (exit_cfg_ cfg) (ask_wall_info_ (walls s))
                  (entry_wall_info (short_position_ s)) current_obi hold_time
  end.

Definition pnl_bps (l : Leg) (mid_price entry : Z) : Z :=
  let move := match l with LongLeg => mid_price - entry | ShortLeg => entry - mid_price end in
  Z.quot (move * kBpsScale) entry.

Definition check_exit (l : Leg) (now : Z) (apply_clock : Z * Z) (b : BBO) (current_obi : Z) (w : World)
    : option World :=
  let p := position l (st w) in
  if negb (bool_decide (status p = kActive)) then Some w
  else if bool_decide (is_Some (pending_order_id p)) then Some w
  else if negb (at_least_deep (exit_phase l (phase_state_ (st w)))) then Some w
  else if negb (wall_valid (wall_info l (st w))) then exit_and_track apply_clock l (best_price l b) w
  else if entry_price p =? 0 then None
  else if pnl_bps l (mid_of b) (entry_price p) <? - max_loss_bps (exit_cfg_ cfg)
  then exit_and_track apply_clock l (best_price l b) w
  else
    let hold_time := u64 (now - state_time p) in
    if min_exit_quality (exit_cfg_ cfg) <=? exit_composite (exit_cfg_ cfg) (exit_score l (st w) current_obi hold_time)
    then exit_and_track apply_clock l (best_price l b) w
    else Some w.

Definition check_long_exit := check_exit LongLeg.
Definition check_short_exit := check_exit ShortLeg.

(** ** The book callback *)

Definition kThrottleNs : Z := 100000000.

(** A tracker follows its wall while the wall is valid. *)
Definition follow (now : Z) (info : WallInfo) (t : WallTracker) : WallTracker :=
  if wall_valid info then WallDetector.update now (accumulated_notional info) (distance_bps info) t
  else WallDetector.reset t.

Definition on_orderbook_updated (ticker : string) (current_time : Z) (w : World) : option World :=
  let w := on_state (set_ticker ticker) w in
  if u64 (current_time - last_orderbook_check_time_ (st w)) <? kThrottleNs then Some w
  else
    let s := set_check_time current_time (st w) in
    '(t, b) ← WallThreshold.update_orderbook_threshold fp (orderbook_cfg cfg) (bk w) (dynamic_threshold_ s);
    let threshold := WallThreshold.calculate fp (hybrid_cfg cfg) b t in
    let detect side q i b :=
      detect_wall fp side (max_levels (wall_cfg_ cfg)) threshold (max_distance_bps (wall_cfg_ cfg))
        (min_price_int (config b)) q i b in
    let bf := buffers s in
    '(bid_info, q, i, b) ← detect kBuy (wall_level_qty_ bf) (wall_level_idx_ bf) b;
    '(ask_info, q, i, b) ← detect kSell q i b;
    let ws := mkWalls bid_info ask_info (follow current_time bid_info (bid_wall_tracker_ (walls s)))
                (follow current_time ask_info (ask_wall_tracker_ (walls s))) in
    let s := set_walls ws (set_buffers (mkBuffers (bid_qty_ bf) (ask_qty_ bf) q i) (set_wall_threshold threshold t s)) in
    Some (mkWorld s b (om w)).

(** ** The trade callback *)

Definition calculate_multi_timeframe_zscores (price : Z) (z : Scorers) : option (ZScores * Scorers) :=
  let '(fast, zf) := RobustZScore.calculate_zscore (zscore_fast_cfg cfg) price (robust_zscore_fast_ z) in
  let '(mid, zm) := RobustZScore.calculate_zscore (zscore_mid_cfg cfg) price (robust_zscore_mid_ z) in
  let '(slow, zs) := RobustZScore.calculate_zscore (zscore_slow_cfg cfg) price (robust_zscore_slow_ z) in
  zf ← RobustZScore.on_price (zscore_fast_cfg cfg) price zf;
  zm ← RobustZScore.on_price (zscore_mid_cfg cfg) price zm;
  zs ← RobustZScore.on_price (zscore_slow_cfg cfg) price zs;
  Some (mkZScores fast mid slow, mkScorers zf zm zs).

Definition handle_adverse_selection (now price : Z) (s : State) : option State :=
  let a := adverse_selection_cfg_ cfg in
  let original_safety_margin_bps := safety_margin_entry_bps (entry_cfg_ cfg) in
  t ← on_price_update a now price (adverse_selection_tracker_ s);
  picked_off ← is_being_picked_off a t;
  let margin := if (picked_off : bool)
    then Z.quot (original_safety_margin_bps * margin_multiplier a) kSignalScale
    else original_safety_margin_bps in
  Some (set_adverse margin t s).

(** The readings of the clock of one trade; [apply] reads it twice. *)
Record TradeClock := mkTradeClock {
  c_adverse : Z;
  c_short_phase : Z;
  c_long_phase : Z;
  c_entry : Leg -> Z;
  c_entry_apply : Leg -> Z * Z;
  c_exit : Leg -> Z;
  c_exit_apply : Leg -> Z * Z;
  c_sweep : Z * Z;
}.

Definition update_phases (clk : TradeClock) (z : ZScores) (adaptive : Z) (ph : PhaseState) : PhaseState :=
  let ph := update_short_phase (mean_reversion_cfg_ cfg) (z_thresholds cfg) (c_short_phase clk) z adaptive ph in
  update_long_phase (mean_reversion_cfg_ cfg) (z_thresholds cfg) (c_long_phase clk) z adaptive ph.

(** Scores, adverse selection and phases: the part before the entries. *)
Definition update_signals (clk : TradeClock) (md : MarketData) (s : State) : option State :=
  '(z, sc) ← calculate_multi_timeframe_zscores (md_price md) (scorers s);
  s ← handle_adverse_selection (c_adverse clk) (md_price md) (set_scorers sc s);
  adaptive ← RobustZScore.get_adaptive_threshold (zscore_mid_cfg cfg) (mid_threshold (z_thresholds cfg))
               (robust_zscore_mid_ sc);
  Some (set_phase_state (update_phases clk z adaptive (phase_state_ s)) s).

(** [if (phase == kVeryWeak) { try_..._entry(...); phase = kNeutral; }]: a fall
    that has reverted opens a long, a rise that has reverted opens a short. *)
Definition entry_phase (l : Leg) (ph : PhaseState) : MarketPhase :=
  match l with LongLeg => short_phase ph | ShortLeg => long_phase ph end.
Definition reset_phase (l : Leg) (s : State) : State :=
  set_phase_state
    (match l with LongLeg => reset_short (phase_state_ s) | ShortLeg => reset_long (phase_state_ s) end) s.
Definition entry_attempt (l : Leg) (clk : TradeClock) (trade_qty : Z) (b : BBO) (w : World) : option World :=
  if bool_decide (entry_phase l (phase_state_ (st w)) = kVeryWeak) then
    w ← try_entry l (c_entry clk l) (c_entry_apply clk l) trade_qty b w;
    Some (on_state (reset_phase l) w)
  else Some w.

(** Each exit check is guarded by the status once more. *)
Definition exit_if_active (l : Leg) (clk : TradeClock) (b : BBO) (current_obi : Z) (w : World) : option World :=
  if bool_decide (status (position l (st w)) = kActive)
  then check_exit l (c_exit clk l) (c_exit_apply clk l) b current_obi w else Some w.

Definition check_position_exit (clk : TradeClock) (b : BBO) (w : World) : option World :=
  let '(current_obi, w) := calculate_orderbook_imbalance_int64 w in
  w ← exit_if_active LongLeg clk b current_obi w;
  exit_if_active ShortLeg clk b current_obi w.

Definition on_trade_updated (clk : TradeClock) (md : MarketData) (w : World) : option World :=
  let current_bbo := bbo (bk w) in
  if negb (is_bbo_valid current_bbo) then Some w
  else
    s ← update_signals clk md (st w);
    w ← entry_attempt LongLeg clk (md_qty md) current_bbo (mkWorld s (bk w) (om w));
    w ← entry_attempt ShortLeg clk (md_qty md) current_bbo w;
    w ← check_position_exit clk current_bbo w;
    let s := set_prev_bbo current_bbo (st w) in
    let t := WallThreshold.on_trade fp (volume_cfg cfg) (md_price md) (md_qty md) (dynamic_threshold_ s) in
    let s := set_wall_threshold (current_wall_threshold_raw_ s) t s in
    '(m, _) ← apply (c_sweep clk) [] (om w);
    Some (mkWorld s (bk w) m).

(** ** The report callback *)

(** A fill of an order that is not the expected one: the whole position of the
    leg is closed at the price of the fill. *)
Definition liquidate (l : Leg) (apply_clock : Z * Z) (avg_price actual : Z) (w : World) : option World :=
  let w := on_state (fun s => set_position l (set_actual actual avg_price (position l s)) s) w in
  '(w, order_ids) ← emergency_exit apply_clock l avg_price w;
  let p := position l (st w) in
  let p := match order_ids with
           | id :: _ => set_status kPending (set_pending (Some id) p)
           | [] => set_pending None (set_status kNone p)
           end in
  Some (on_state (set_position l p) w).

(** A fill on the entry side of a leg; [avg_price] is the scaled average price. *)
Definition leg_filled (l : Leg) (now : Z) (apply_clock : Z * Z) (r : ExecutionReport) (avg_price : Z)
    (pos_info : PositionKeeper.PositionInfo) (w : World) : option World :=
  let p := position l (st w) in
  let actual := actual_position l pos_info in
  match status p with
  | kPending =>
      if bool_decide (pending_order_id p = Some (cl_order_id r)) then
        let p' := mkPosition (pos_qty p) avg_price (wall_info l (st w)) kActive now None in
        let t := on_fill now avg_price (er_side r) (max_fill_history (adverse_selection_cfg_ cfg))
                   (adverse_selection_tracker_ (st w)) in
        Some (on_state (fun s => set_adverse (margin_entry_bps_ s) t (set_position l p' s)) w)
      else if 0 <? actual then liquidate l apply_clock avg_price actual w
      else Some (on_state (set_position l (set_pending None (set_status kNone p))) w)
  | kNone => if 0 <? actual then liquidate l apply_clock avg_price actual w else Some w
  | kActive => Some w
  end.

Definition buy_filled := leg_filled LongLeg.
Definition sell_filled := leg_filled ShortLeg.

(** A cancelled or rejected order on the entry side of a leg. *)
Definition leg_canceled (l : Leg) (s : State) : State :=
  if bool_decide (status (position l s) = kPending) then set_position l PositionState_default s else s.

(** [ACTIVE -> NONE] once the keeper shows no position. *)
Definition leg_closed (l : Leg) (pos_info : PositionKeeper.PositionInfo) (s : State) : State :=
  if bool_decide (status (position l s) = kActive) && (actual_position l pos_info =? 0)
  then set_position l (set_pending None (set_status kNone (position l s))) s else s.

Definition is_fill_status (o : OrdStatus) : bool :=
  bool_decide (o = OSFilled) || bool_decide (o = OSPartiallyFilled).
Definition is_cancel_status (o : OrdStatus) : bool :=
  bool_decide (o = OSCanceled) || bool_decide (o = OSRejected).

Definition on_order_updated (now : Z) (apply_clock : Z * Z) (keeper : PositionKeeper.Keeper)
    (r : ExecutionReport) (avg_price : Z) (w : World) : option World :=
  if negb (is_fill_status (ord_status r) || is_cancel_status (ord_status r)) then Some w
  else
    pos_info ← PositionKeeper.get_position_info (ticker_ (st w)) keeper;
    w ← (if is_fill_status (ord_status r) then
           match er_side r with
           | kBuy => buy_filled now apply_clock r avg_price pos_info w
           | kSell => sell_filled now apply_clock r avg_price pos_info w
           | _ => Some w
           end
         else Some w);
    let s := st w in
    let s :=
      if is_cancel_status (ord_status r) then
        match er_side r with
        | kBuy => leg_canceled LongLeg s
        | kSell => leg_canceled ShortLeg s
        | _ => s
        end
      else s in
    Some (on_state (fun _ => leg_closed ShortLeg pos_info (leg_closed LongLeg pos_info s)) w).

End maker.

End Maker.
