(* ===== verification/MakerFacts.v ===== *)
(** * What the mean reversion maker does

    Theorems on the callbacks of the maker, for every order manager: the orders a
    trade can send, the phases after a trade, the legs that no market event moves
    any more, and the states in which no callback fails. *)

From S2P Require Import Prelude BitScan MemoryPool Types OrderBook OrderBookFacts OrderBookRefine OrderBookPeek FixedPoint PositionKeeper QuoteReconciler FeatureEngine RobustZScore WallThreshold WallDetector MarketPhase MakerScores AdverseSelection MeanReversionMaker.

Module MakerFacts.

Import WallDetector MarketPhase MakerScores AdverseSelection Maker.

(** ** Legs and states *)

Lemma position_set_position l p s : position l (set_position l p s) = p.
Proof. by destruct l. Qed.
Lemma position_set_other l l' p s : l <> l' -> position l (set_position l' p s) = position l s.
Proof. by destruct l, l'. Qed.
Lemma position_set_buffers l b s : position l (set_buffers b s) = position l s.
Proof. by destruct l. Qed.
Lemma wall_info_set_position l l' p s : wall_info l (set_position l' p s) = wall_info l s.
Proof. by destruct l, l'. Qed.
Lemma phase_set_position l p s : phase_state_ (set_position l p s) = phase_state_ s.
Proof. by destruct l. Qed.
Lemma other_ne l : other l <> l.
Proof. by destruct l. Qed.

Section facts.
Context {P : Type} `{NodePool P} `{NthElement} (fp : FixedPointConfig) (cfg : MakerConfig).
Context {M : Type} (apply : Z * Z -> list QuoteReconciler.QuoteIntent -> M -> option (M * list Z)).

Implicit Types (w : World (P := P) (M := M)) (s : State).

(** The calls of [apply] that lead from one order manager to another. *)
Inductive sends : M -> list (list QuoteReconciler.QuoteIntent) -> M -> Prop :=
  | sends_nil m : sends m [] m
  | sends_apply m clk batch ids m' batches m'' :
      apply clk batch m = Some (m', ids) -> sends m' batches m'' -> sends m (batch :: batches) m''.

Lemma sends_one m clk batch ids m' : apply clk batch m = Some (m', ids) -> sends m [batch] m'.
Proof. intros ?. eapply sends_apply; [done | constructor]. Qed.

Lemma sends_app m b1 m1 b2 m2 : sends m b1 m1 -> sends m1 b2 m2 -> sends m (b1 ++ b2) m2.
Proof. induction 1; intros ?; [done|]. simpl. eapply sends_apply; eauto. Qed.

(** ** Imbalance *)

(** Nothing but the buffers and the cache of the book changed. *)
Definition buffers_only w w' : Prop :=
  (exists b, st w' = set_buffers b (st w)) /\ bbo (bk w') = bbo (bk w) /\ om w' = om w.

Lemma set_buffers_id s : set_buffers (buffers s) s = s.
Proof. by destruct s. Qed.

Lemma buffers_only_refl w : buffers_only w w.
Proof. split; [|done]. exists (buffers (st w)). by rewrite set_buffers_id. Qed.

Lemma obi_buffers_only w : buffers_only w (calculate_orderbook_imbalance_int64 cfg w).2.
Proof.
  unfold calculate_orderbook_imbalance_int64.
  destruct (peek_qty true _ _ _ _) as [[[? bids] ?] bs], (peek_qty false _ _ _ _) as [[[? asks] ?] asd]. cbn.
  split; [eexists; reflexivity | done].
Qed.

(** ** Entries *)

(** The position a leg has right after its entry was sent. *)
Definition entered (l : Leg) (now : Z) (b : BBO) s (ids : list Z) : PositionState :=
  mkPosition (position_size_raw (entry_cfg_ cfg)) (best_price l b) (wall_info l s) kPending now
    (match ids with id :: _ => Some id | [] => pending_order_id (position l s) end).

Lemma check_entry_cases l now clk b w w' :
  check_entry fp cfg apply l now clk b w = Some w' ->
  buffers_only w w' \/
  status (position l (st w)) = kNone /\
  exists bf ids, apply clk [entry_intent cfg l (best_price l b) (st w)] (om w) = Some (om w', ids) /\
    st w' = set_position l (entered l now b (st w) ids) (set_buffers bf (st w)) /\ bbo (bk w') = bbo (bk w).
Proof.
  unfold check_entry. case_bool_decide as Hs; simpl; [|intros [= <-]; left; apply buffers_only_refl].
  case_match; [intros [= <-]; left; apply buffers_only_refl|].
  pose proof (obi_buffers_only w) as Hb. destruct (calculate_orderbook_imbalance_int64 cfg w) as [obi w1].
  simpl in Hb. do 3 (case_match; [intros [= <-]; by left|]).
  destruct Hb as ([bf Hst] & Hbbo & Hom). unfold place_entry_order, on_state. cbn [st bk om]. rewrite Hst, Hom.
  replace (entry_intent cfg l (best_price l b) (set_position l _ (set_buffers bf (st w))))
    with (entry_intent cfg l (best_price l b) (st w)) by (by destruct l).
  destruct (apply clk _ (om w)) as [[m ids]|] eqn:E; simpl; [|done]. intros [= <-]. right. split; [done|].
  exists bf, ids. cbn. split; [done|]. split; [|done]. unfold entered. destruct ids, l; done.
Qed.

(** The conditions of [try_entry] that concern the positions and the wall. *)
Definition may_enter (l : Leg) s : Prop :=
  (forall l', status (position l' s) = kNone) /\ wall_valid (wall_info l s) = true.

Lemma try_entry_cases l now clk qty b w w' :
  try_entry fp cfg apply l now clk qty b w = Some w' ->
  buffers_only w w' \/
  may_enter l (st w) /\
  exists bf ids, apply clk [entry_intent cfg l (best_price l b) (st w)] (om w) = Some (om w', ids) /\
    st w' = set_position l (entered l now b (st w) ids) (set_buffers bf (st w)) /\ bbo (bk w') = bbo (bk w).
Proof.
  unfold try_entry.
  set (signal := match l with LongLeg => _ | ShortLeg => _ end).
  destruct (negb (signal (st w))) eqn:Hsig; [intros [= <-]; left; apply buffers_only_refl|]. 
  destruct (negb (wall_valid _)) eqn:Hw; [intros [= <-]; left; apply buffers_only_refl|].
  destruct (negb (validate_defense_realtime _ _ _ _ _)); [intros [= <-]; left; apply buffers_only_refl|].
  intros [?|(Hs & Hrest)]%check_entry_cases; [by left|]. right. split; [|done].
  apply negb_false_iff in Hsig, Hw. split; [|done].
  unfold signal, is_short_reversal_signal, is_long_reversal_signal in Hsig.
  intros l'. destruct l, l'; try done; by apply bool_decide_eq_true in Hsig.
Qed.

(** ** Exits *)

(** The leg is open, its exit was not sent yet and its phase asks for one. *)
Definition may_exit (l : Leg) s : Prop :=
  status (position l s) = kActive /\ pending_order_id (position l s) = None /\
  at_least_deep (exit_phase l (phase_state_ s)) = true.

Definition tracked (ids : list Z) (p : PositionState) : PositionState :=
  match ids with id :: _ => set_pending (Some id) p | [] => p end.

Lemma set_position_id l s : set_position l (position l s) s = s.
Proof. by destruct l, s. Qed.

Lemma exit_and_track_cases l clk price w w' :
  exit_and_track cfg apply clk l price w = Some w' ->
  exists ids, apply clk [exit_intent cfg l price (st w)] (om w) = Some (om w', ids) /\
    st w' = set_position l (tracked ids (position l (st w))) (st w) /\ bk w' = bk w.
Proof.
  unfold exit_and_track, emergency_exit. destruct (apply clk _ (om w)) as [[m ids]|]; simpl; [|done].
  intros [= <-]. exists ids. destruct ids; cbn; [|done]. by rewrite set_position_id.
Qed.

Lemma check_exit_cases l now clk b obi w w' :
  check_exit cfg apply l now clk b obi w = Some w' ->
  w' = w \/
  may_exit l (st w) /\
  exists ids, apply clk [exit_intent cfg l (best_price l b) (st w)] (om w) = Some (om w', ids) /\
    st w' = set_position l (tracked ids (position l (st w))) (st w) /\ bk w' = bk w.
Proof.
  unfold check_exit.
  destruct (bool_decide (status _ = kActive)) eqn:Hs; simpl; [|intros [= <-]; by left].
  destruct (bool_decide (is_Some _)) eqn:Hp; simpl; [intros [= <-]; by left|].
  destruct (at_least_deep _) eqn:Hd; simpl; [|intros [= <-]; by left].
  apply bool_decide_eq_true in Hs. apply bool_decide_eq_false, eq_None_not_Some in Hp.
  assert (Hmay : may_exit l (st w)) by done.
  destruct (negb _); [intros Hx%exit_and_track_cases; by right|].
  destruct (_ =? 0); [done|].
  destruct (_ <? _); [intros Hx%exit_and_track_cases; by right|].
  destruct (_ <=? _); [intros Hx%exit_and_track_cases; by right | intros [= <-]; by left].
Qed.

(** The effect of the exit check of one leg on a world whose state agrees with
    [s0] in positions, phases and ticker. *)
Lemma exit_intent_ext l price s s' :
  ticker_ s = ticker_ s' -> position l s = position l s' -> exit_intent cfg l price s = exit_intent cfg l price s'.
Proof. unfold exit_intent, intent_of. by intros -> ->. Qed.

(** The windows of the scores and the record of fills are the same. *)
Definition same_signals s s' : Prop :=
  scorers s' = scorers s /\ adverse_selection_tracker_ s' = adverse_selection_tracker_ s.

(** What the exits of [ls] leave of a state. *)
Definition exited (ls : list Leg) s s' : Prop :=
  ticker_ s' = ticker_ s /\ phase_state_ s' = phase_state_ s /\ walls s' = walls s /\ same_signals s s' /\
  forall l, (l ∉ ls -> position l s' = position l s) /\ (l ∈ ls -> exists ids, position l s' = tracked ids (position l s)).

Definition exits_of (b : BBO) s (ls : list Leg) : list (list QuoteReconciler.QuoteIntent) :=
  (fun l => [exit_intent cfg l (best_price l b) s]) <$> ls.

Lemma exited_step l ls ids s s' :
  l ∉ ls -> exited ls s s' ->
  exited (ls ++ [l]) s (set_position l (tracked ids (position l s')) s').
Proof.
  intros Hl (Ht & Hp & Hw & Hsig & Hpos). split_and!; [by destruct l | by destruct l | by destruct l | by destruct l |].
  intros k. rewrite elem_of_app, list_elem_of_singleton. destruct (decide (k = l)) as [-> |Hk].
  - rewrite position_set_position, (proj1 (Hpos l) Hl). split; [intros []; by right | by eauto].
  - rewrite position_set_other by done. destruct (Hpos k) as [H1 H2].
    split; intros Hin; [apply H1; tauto | apply H2; tauto].
Qed.

Lemma exit_step l ls clk b obi s w w' :
  l ∉ ls -> exited ls s (st w) -> exit_if_active cfg apply l clk b obi w = Some w' ->
  exists ls', (ls' = [] \/ ls' = [l] /\ may_exit l s) /\ sends (om w) (exits_of b s ls') (om w') /\
    exited (ls ++ ls') s (st w') /\ bbo (bk w') = bbo (bk w).
Proof.
  intros Hl Hex. pose proof Hex as (Ht & Hp & _ & _ & Hpos). unfold exit_if_active.
  assert (Hnone : exists ls', (ls' = [] \/ ls' = [l] /\ may_exit l s) /\ sends (om w) (exits_of b s ls') (om w) /\
    exited (ls ++ ls') s (st w) /\ bbo (bk w) = bbo (bk w)).
  { exists []. rewrite app_nil_r. split_and!; [by left | constructor | apply Hex..| done]. }
  case_bool_decide; [|intros [= <-]; exact Hnone].
  intros [-> | (Hmay & ids & Ha & Hst & Hbk)]%check_exit_cases; [exact Hnone|].
  exists [l]. split; [|split].
  - right. split; [done|]. unfold may_exit in *. by rewrite <- (proj1 (Hpos l) Hl), <- Hp.
  - eapply sends_one. rewrite <- Ha. f_equal. f_equal. apply exit_intent_ext; [done|]. symmetry. by apply Hpos.
  - rewrite Hst, Hbk. split; [by apply exited_step | done].
Qed.

Lemma exited_nil bf s : exited [] s (set_buffers bf s).
Proof.
  split_and!; try done. intros l. rewrite position_set_buffers. split; [done|]. intros Hin. by apply elem_of_nil in Hin.
Qed.

Lemma check_position_exit_cases clk b w w' :
  check_position_exit cfg apply clk b w = Some w' ->
  exists ls, ls `sublist_of` [LongLeg; ShortLeg] /\ Forall (fun l => may_exit l (st w)) ls /\
    sends (om w) (exits_of b (st w) ls) (om w') /\ exited ls (st w) (st w') /\ bbo (bk w') = bbo (bk w).
Proof.
  unfold check_position_exit. pose proof (obi_buffers_only w) as Hb.
  destruct (calculate_orderbook_imbalance_int64 cfg w) as [obi w1]. simpl in Hb.
  destruct Hb as ([bf Hst] & Hbbo & Hom). intros Hx.
  destruct (exit_if_active cfg apply LongLeg clk b obi w1) as [w2|] eqn:E1; simpl in Hx; [|done].
  destruct (exit_step LongLeg [] clk b obi (st w) w1 w2) as (l1 & H1 & S1 & X1 & B1);
    [apply not_elem_of_nil | rewrite Hst; apply exited_nil | done |].
  assert (Hnot : ShortLeg ∉ [] ++ l1) by (destruct H1 as [-> | [-> _]]; set_solver).
  destruct (exit_step ShortLeg ([] ++ l1) clk b obi (st w) w2 w' Hnot X1 Hx) as (l2 & H2 & S2 & X2 & B2).
  exists (l1 ++ l2). split_and!; [| | |exact X2|congruence].
  - destruct H1 as [-> | [-> _]], H2 as [-> | [-> _]]; simpl; try done.
    + apply sublist_nil_l.
    + apply sublist_cons. done.
    + apply sublist_skip, sublist_nil_l.
  - apply Forall_app. split; [destruct H1 as [-> | [-> ?]] | destruct H2 as [-> | [-> ?]]];
      first [apply Forall_nil_2 | by apply Forall_singleton].
  - unfold exits_of. rewrite fmap_app. rewrite <- Hom. by eapply sends_app.
Qed.

(** ** Signals *)

Lemma update_phases_neutral clk z adaptive ph :
  short_phase (update_phases cfg clk z adaptive ph) =
    short_phase (update_short_phase (mean_reversion_cfg_ cfg) (z_thresholds cfg) (c_short_phase clk) z adaptive ph).
Proof. unfold update_phases. apply long_keeps_short. Qed.

Lemma update_signals_frame clk md s s' :
  update_signals cfg clk md s = Some s' ->
  ticker_ s' = ticker_ s /\ walls s' = walls s /\ (forall l, position l s' = position l s) /\
  prev_bbo_ s' = prev_bbo_ s /\
  (margin_entry_bps_ s' = safety_margin_entry_bps (entry_cfg_ cfg) \/
   margin_entry_bps_ s' = Z.quot (safety_margin_entry_bps (entry_cfg_ cfg) *
     margin_multiplier (adverse_selection_cfg_ cfg)) kSignalScale).
Proof.
  unfold update_signals. destruct (calculate_multi_timeframe_zscores cfg _ _) as [[z sc]|]; simpl; [|done].
  unfold handle_adverse_selection. destruct (on_price_update _ _ _ _) as [t|]; simpl; [|done].
  destruct (is_being_picked_off _ t) as [picked|]; simpl; [|done].
  destruct (RobustZScore.get_adaptive_threshold _ _ _); simpl; [|done]. intros [= <-]. cbn.
  split_and!; try done; destruct picked; [by right | by left].
Qed.

(** ** Attempts to enter *)

Lemma reset_phase_frame l s :
  ticker_ (reset_phase l s) = ticker_ s /\ walls (reset_phase l s) = walls s /\
  (forall k, position k (reset_phase l s) = position k s) /\ prev_bbo_ (reset_phase l s) = prev_bbo_ s /\
  margin_entry_bps_ (reset_phase l s) = margin_entry_bps_ s.
Proof. split_and!; try by destruct l. Qed.

(** What every attempt leaves alone. *)
Definition attempt_frame s s' : Prop :=
  ticker_ s' = ticker_ s /\ walls s' = walls s /\ margin_entry_bps_ s' = margin_entry_bps_ s /\
  same_signals s s' /\
  forall k, exit_phase k (phase_state_ s') = exit_phase k (phase_state_ s) \/
            exit_phase k (phase_state_ s') = kNeutral.

(** [apply] answered an intent with the order ids [ids]. *)
Definition answered (i : QuoteReconciler.QuoteIntent) (ids : list Z) : Prop :=
  exists c m m', apply c [i] m = Some (m', ids).

(** Either nothing was sent, or one entry, which its leg waits for. *)
Definition attempt_result (ls : list Leg) (clk : TradeClock) (b : BBO) w w' : Prop :=
  om w' = om w /\ (forall k, position k (st w') = position k (st w)) \/
  exists l ids, l ∈ ls /\ may_enter l (st w) /\
    sends (om w) [[entry_intent cfg l (best_price l b) (st w)]] (om w') /\
    answered (entry_intent cfg l (best_price l b) (st w)) ids /\
    position l (st w') = entered l (c_entry clk l) b (st w) ids /\
    position (other l) (st w') = position (other l) (st w).

Lemma entry_attempt_cases l clk qty b w w' :
  entry_attempt fp cfg apply l clk qty b w = Some w' ->
  attempt_frame (st w) (st w') /\ bbo (bk w') = bbo (bk w) /\
  entry_phase l (phase_state_ (st w')) <> kVeryWeak /\
  exit_phase l (phase_state_ (st w')) = exit_phase l (phase_state_ (st w)) /\
  attempt_result [l] clk b w w'.
Proof.
  unfold entry_attempt. case_bool_decide as Hp.
  2:{ intros [= <-]. split_and!; try done; [|by left]. split_and!; try done. intros k. by left. }
  destruct (try_entry _ _ _ _ _ _ _ _ _) as [w1|] eqn:E; simpl; [|done]. intros [= <-].
  unfold attempt_frame, attempt_result. cbn [st bk om on_state].
  destruct (reset_phase_frame l (st w1)) as (R1 & R2 & R3 & R4 & R5). rewrite R1, R2, R5.
  assert (Hph : phase_state_ (st w1) = phase_state_ (st w)).
  { apply try_entry_cases in E as [([bf ->] & _)|(_ & bf & ids & _ & -> & _)]; [done|]. by rewrite phase_set_position. }
  assert (Hph' : entry_phase l (phase_state_ (reset_phase l (st w1))) <> kVeryWeak /\
    exit_phase l (phase_state_ (reset_phase l (st w1))) = exit_phase l (phase_state_ (st w))).
  { rewrite <- Hph. by destruct l. }
  assert (Hsig : same_signals (st w) (reset_phase l (st w1))).
  { apply try_entry_cases in E as [([bf ->] & _)|(_ & bf & ids & _ & -> & _)]; by destruct l. }
  assert (Hlow : forall k, exit_phase k (phase_state_ (reset_phase l (st w1))) = exit_phase k (phase_state_ (st w)) \/
    exit_phase k (phase_state_ (reset_phase l (st w1))) = kNeutral).
  { rewrite <- Hph. destruct l; intros []; first [by left | by right]. }
  apply try_entry_cases in E as [([bf Hst] & Hbbo & Hom)|(Hmay & bf & ids & Ha & Hst & Hbbo)].
  - split_and!; try apply Hph'; try apply Hlow; try apply Hsig; try done; try (by rewrite Hst). left. split; [done|].
    intros k. by rewrite R3, Hst, position_set_buffers.
  - split_and!; try apply Hph'; try apply Hlow; try apply Hsig; try done; try (by rewrite Hst; destruct l).
    right. exists l, ids. split; [by left|]. split; [done|]. split; [by eapply sends_one|].
    split; [by do 3 eexists|]. rewrite !R3, Hst. split; [by rewrite position_set_position | by rewrite position_set_other by apply other_ne].
Qed.

Lemma entry_ext l clk b s s' ids :
  attempt_frame s s' -> (forall k, position k s' = position k s) ->
  entry_intent cfg l (best_price l b) s' = entry_intent cfg l (best_price l b) s /\
  entered l (c_entry clk l) b s' ids = entered l (c_entry clk l) b s ids /\ (may_enter l s' -> may_enter l s).
Proof.
  intros (Ht & Hw & Hm & _ & _) Hp. unfold entry_intent, intent_of, entered, may_enter, wall_info. rewrite Ht, Hm, Hw, Hp.
  split_and!; try done. intros [Hn ?]. split; [|done]. intros k. rewrite <- Hp. apply Hn.
Qed.

Lemma attempts_cases clk qty b w w1 w2 :
  entry_attempt fp cfg apply LongLeg clk qty b w = Some w1 ->
  entry_attempt fp cfg apply ShortLeg clk qty b w1 = Some w2 ->
  attempt_frame (st w) (st w2) /\ bbo (bk w2) = bbo (bk w) /\
  short_phase (phase_state_ (st w2)) <> kVeryWeak /\ long_phase (phase_state_ (st w2)) <> kVeryWeak /\
  attempt_result [LongLeg; ShortLeg] clk b w w2.
Proof.
  intros (F1 & B1 & V1 & X1 & R1)%entry_attempt_cases (F2 & B2 & V2 & X2 & R2)%entry_attempt_cases.
  split_and!; [| congruence | simpl in *; congruence | done |].
  { destruct F1 as (? & ? & ? & [] & L1), F2 as (? & ? & ? & [] & L2). split_and!; try congruence; [split; congruence|].
    intros k. destruct (L2 k) as [-> | ->]; [apply L1 | by right]. }
  destruct R1 as [[O1 P1]|(l & ids & Hl & Hmay & S1 & A1 & E1 & Eo1)].
  - destruct R2 as [[O2 P2]|(l & ids & Hl & Hmay & S2 & A2 & E2 & Eo2)].
    + left. split; [congruence|]. intros k. by rewrite P2.
    + right. exists l, ids. destruct (entry_ext l clk b (st w) (st w1) ids F1 P1) as (Ei & Ee & Em).
      rewrite <- Ei, <- O1, <- Ee, <- P1. split_and!; try done; [by right | by apply Em].
  - apply list_elem_of_singleton in Hl as ->.
    destruct R2 as [[O2 P2]|(l & ids' & Hl & [Hn _] & _)].
    + right. exists LongLeg, ids. rewrite O2, !P2. split_and!; try done. by left.
    + specialize (Hn LongLeg). rewrite E1 in Hn. done.
Qed.

(** ** Trades *)

(** The positions after a trade with signals [s1]. *)
Inductive trade_result (clk : TradeClock) (b : BBO) s1 : list (list QuoteReconciler.QuoteIntent) -> State -> Prop :=
  | trade_entry l ids s' :
      may_enter l s1 -> answered (entry_intent cfg l (best_price l b) s1) ids ->
      position l s' = entered l (c_entry clk l) b s1 ids ->
      position (other l) s' = position (other l) s1 ->
      trade_result clk b s1 [[entry_intent cfg l (best_price l b) s1]] s'
  | trade_exits ls s' :
      ls `sublist_of` [LongLeg; ShortLeg] ->
      Forall (fun l => may_exit l s1) ls ->
      (forall l, (l ∉ ls -> position l s' = position l s1) /\
                 (l ∈ ls -> exists ids, position l s' = tracked ids (position l s1))) ->
      trade_result clk b s1 (exits_of b s1 ls) s'.

Lemma trade_result_ext clk b s1 batches s s' :
  (forall k, position k s' = position k s) -> trade_result clk b s1 batches s -> trade_result clk b s1 batches s'.
Proof.
  intros Hp Hr. revert Hp. destruct Hr as [l ids s0 H1 Ha H2 H3|ls s0 H1 H2 H3]; intros Hp.
  - apply (trade_entry _ _ _ l ids); [done | done | by rewrite Hp | by rewrite Hp].
  - apply trade_exits; [done | done|]. intros l. rewrite Hp. apply H3.
Qed.

Lemma exits_ext b s s' ls :
  ticker_ s = ticker_ s' -> (forall k, position k s = position k s') -> exits_of b s ls = exits_of b s' ls.
Proof. intros Ht Hp. apply list_fmap_ext. intros _ l _. f_equal. by apply exit_intent_ext. Qed.

(** After the attempts, the exits. *)
Lemma attempts_then_exits clk b w w2 w3 :
  attempt_frame (st w) (st w2) -> attempt_result [LongLeg; ShortLeg] clk b w w2 ->
  check_position_exit cfg apply clk b w2 = Some w3 ->
  exists batches, sends (om w) batches (om w3) /\ trade_result clk b (st w) batches (st w3).
Proof.
  intros (Ft & _ & _ & _ & Flow) Hres (ls & Hsub & Hls & S3 & (_ & _ & _ & _ & P3) & _)%check_position_exit_cases.
  destruct Hres as [[O2 P2]|(l & ids & _ & Hmay & S2 & A2 & E2 & Eo2)].
  - exists (exits_of b (st w) ls). rewrite <- O2, <- (exits_ext b (st w2) (st w) ls) by done. split; [done|].
    rewrite (exits_ext b (st w2) (st w) ls) by done. apply trade_exits; [done | |].
    + eapply Forall_impl; [exact Hls|]. simpl. intros l (H1 & H2 & H3). rewrite P2 in H1, H2.
      split_and!; try done. destruct (Flow l) as [E|E]; rewrite E in H3; done.
    + intros l. rewrite <- P2. apply P3.
  - assert (ls = []) as ->.
    { destruct ls as [|k ls]; [done|]. apply Forall_cons in Hls as [(Hk & _) _].
      destruct (decide (k = l)) as [-> |Hne]; [by rewrite E2 in Hk|].
      assert (k = other l) as -> by (by destruct k, l). rewrite Eo2 in Hk. destruct Hmay as [Hn _].
      rewrite Hn in Hk. done. }
    exists ([[entry_intent cfg l (best_price l b) (st w)]] ++ []). split; [by eapply sends_app|].
    rewrite app_nil_r.
    apply trade_entry with ids; [done | done | |].
    + rewrite <- E2. apply P3, not_elem_of_nil.
    + rewrite <- Eo2. apply P3, not_elem_of_nil.
Qed.

Lemma trade_cases clk md w w' :
  is_bbo_valid (bbo (bk w)) = true -> on_trade_updated fp cfg apply clk md w = Some w' ->
  exists s1 batches, update_signals cfg clk md (st w) = Some s1 /\
    sends (om w) (batches ++ [[]]) (om w') /\ trade_result clk (bbo (bk w)) s1 batches (st w') /\
    bbo (bk w') = bbo (bk w) /\ ticker_ (st w') = ticker_ s1 /\ walls (st w') = walls s1 /\
    same_signals s1 (st w') /\
    short_phase (phase_state_ (st w')) <> kVeryWeak /\ long_phase (phase_state_ (st w')) <> kVeryWeak.
Proof.
  intros Hv. unfold on_trade_updated. set (b := bbo (bk w)) in *. rewrite Hv. cbn [negb].
  destruct (update_signals cfg clk md (st w)) as [s1|] eqn:Es; cbn [mbind option_bind]; [|done].
  destruct (entry_attempt fp cfg apply LongLeg _ _ _ _) as [w1|] eqn:E1; cbn [mbind option_bind]; [|done].
  destruct (entry_attempt fp cfg apply ShortLeg _ _ _ _) as [w2|] eqn:E2; cbn [mbind option_bind]; [|done].
  destruct (check_position_exit cfg apply clk b w2) as [w3|] eqn:E3; cbn [mbind option_bind]; [|done].
  destruct (apply (c_sweep clk) [] (om w3)) as [[m ids0]|] eqn:E4; cbn [mbind option_bind]; [|done].
  intros [= <-]. destruct (attempts_cases _ _ _ _ _ _ E1 E2) as (F & B & V1 & V2 & R). cbn [st bk om] in *.
  destruct (attempts_then_exits clk b (mkWorld s1 (bk w) (om w)) w2 w3 F R E3) as (batches & S3 & T). cbn [st om] in *.
  apply check_position_exit_cases in E3 as (_ & _ & _ & _ & (T3 & F3 & W3 & G3 & _) & B3).
  destruct F as (F1 & F2 & _ & F4 & _). exists s1, batches.
  split_and!; cbn; rewrite ?F3; try (unfold b; congruence); [by eapply sends_app; [|eapply sends_one]| |];
    [|destruct F4, G3; split; cbn; congruence].
  eapply trade_result_ext; [|exact T]. by intros [].
Qed.

(** An entry rests at or behind the best price of its side. *)
Definition entry_passive (l : Leg) (b : BBO) (price : Z) : Prop :=
  match l with LongLeg => price <= bid_price b | ShortLeg => ask_price b <= price end.

Lemma entry_intent_passive l b s :
  0 <= margin_entry_bps_ s -> 0 <= best_price l b ->
  exists price, entry_intent cfg l (best_price l b) s =
    intent_of cfg (entry_side l) (leg_position_side l) price (position_size_raw (entry_cfg_ cfg)) s /\
    entry_passive l b price.
Proof.
  intros Hm Hb. unfold entry_intent. eexists. split; [reflexivity|].
  assert (0 <= Z.quot (best_price l b * margin_entry_bps_ s) kBpsScale) by (apply Z.quot_pos; unfold kBpsScale; nia).
  destruct l; cbn in *; lia.
Qed.

(** One entry or exits. *)
Definition allowed_batches (b : BBO) s (batches : list (list QuoteReconciler.QuoteIntent)) : Prop :=
  (exists l price, (forall k, status (position k s) = kNone) /\ wall_valid (wall_info l s) = true /\
     batches = [[intent_of cfg (entry_side l) (leg_position_side l) price (position_size_raw (entry_cfg_ cfg)) s]] /\
     entry_passive l b price) \/
  (exists ls, ls `sublist_of` [LongLeg; ShortLeg] /\ batches = exits_of b s ls /\
     Forall (fun l => status (position l s) = kActive /\ pending_order_id (position l s) = None) ls).

Lemma trade_allowed clk md w w' :
  0 <= safety_margin_entry_bps (entry_cfg_ cfg) -> 0 <= margin_multiplier (adverse_selection_cfg_ cfg) ->
  let b := bbo (bk w) in
  is_bbo_valid b = true -> 0 <= bid_price b -> on_trade_updated fp cfg apply clk md w = Some w' ->
  exists batches, sends (om w) (batches ++ [[]]) (om w') /\ allowed_batches b (st w) batches.
Proof.
  intros Hm Hmult b Hv Hbid Ht. destruct (trade_cases _ _ _ _ Hv Ht) as (s1 & batches & Hs & S & R & _).
  apply update_signals_frame in Hs as (F1 & F2 & F3 & _ & F5).
  exists batches. split; [done|]. fold b in R.
  assert (Hmargin : 0 <= margin_entry_bps_ s1).
  { destruct F5 as [-> | ->]; [done|]. apply Z.quot_pos; unfold kSignalScale; nia. }
  assert (Hask : bid_price b <= ask_price b).
  { unfold is_bbo_valid in Hv. rewrite !andb_true_iff, Z.leb_le in Hv. apply Hv. }
  destruct R as [l ids s' [Hn Hw] _ _ _|ls s' Hsub Hls _].
  - left. destruct (entry_intent_passive l b s1 Hmargin) as (price & E & Hp); [destruct l; cbn; lia|].
    exists l, price. rewrite E. split_and!; [intros k; rewrite <- F3; apply Hn| |unfold intent_of; by rewrite F1|done].
    unfold wall_info in *. by rewrite <- F2.
  - right. exists ls. split; [done|]. split; [by apply exits_ext|].
    eapply Forall_impl; [exact Hls|]. simpl. intros l (H1 & H2 & _). by rewrite <- F3.
Qed.

(** The exits of the first tier wait for the phase.  While the phase of the
    leg's own direction is below [kDeep] after the signals of a trade, the trade
    leaves an open leg as it is: neither a vanished wall nor a loss of any size
    closes it. *)
Theorem no_exit_below_deep clk md w w' l s1 :
  is_bbo_valid (bbo (bk w)) = true -> update_signals cfg clk md (st w) = Some s1 ->
  at_least_deep (exit_phase l (phase_state_ s1)) = false -> status (position l (st w)) = kActive ->
  on_trade_updated fp cfg apply clk md w = Some w' ->
  position l (st w') = position l (st w).
Proof.
  intros Hv Hs1 Hdeep Hact Ht. destruct (trade_cases _ _ _ _ Hv Ht) as (s1' & batches & Hs & _ & R & _).
  rewrite Hs1 in Hs. injection Hs as <-. apply update_signals_frame in Hs1 as (_ & _ & F3 & _).
  destruct R as [k ids s' [Hn _] _ _ _|ls s' Hsub Hls Hpos].
  - specialize (Hn l). rewrite F3, Hact in Hn. done.
  - rewrite <- F3. apply Hpos. intros Hin. rewrite Forall_forall in Hls.
    destruct (Hls l Hin) as (_ & _ & E). congruence.
Qed.

(** ** Market events *)

Lemma orderbook_frame ticker now w w' :
  on_orderbook_updated fp cfg ticker now w = Some w' ->
  (forall l, position l (st w') = position l (st w)) /\ om w' = om w /\ phase_state_ (st w') = phase_state_ (st w).
Proof.
  unfold on_orderbook_updated. case_match; [intros [= <-]; split_and!; by try intros []|]. cbv zeta.
  destruct (WallThreshold.update_orderbook_threshold _ _ _ _) as [[t b]|]; simpl; [|done].
  destruct (detect_wall _ kBuy _ _ _ _ _ _ _) as [[[[bi q] i] b1]|]; simpl; [|done].
  destruct (detect_wall _ kSell _ _ _ _ _ _ _) as [[[[ai q'] i'] b2]|]; simpl; [|done].
  intros [= <-]. split_and!; by try intros [].
Qed.

(** A leg that waits for a report. *)
Definition waiting (p : PositionState) : Prop :=
  status p = kPending \/ status p = kActive /\ is_Some (pending_order_id p).

(** A trade leaves a waiting leg alone; with the other leg flat, nothing but the
    sweep is sent. *)
Lemma trade_waiting l clk md w w' :
  waiting (position l (st w)) -> on_trade_updated fp cfg apply clk md w = Some w' ->
  position l (st w') = position l (st w) /\
  (status (position (other l) (st w)) = kNone ->
     position (other l) (st w') = position (other l) (st w) /\
     (w' = w \/ sends (om w) [[]] (om w'))).
Proof.
  intros Hw Ht. destruct (is_bbo_valid (bbo (bk w))) eqn:Hv.
  2:{ unfold on_trade_updated in Ht. rewrite Hv in Ht. injection Ht as <-. split; [done|]. intros _. split; [done | by left]. }
  destruct (trade_cases _ _ _ _ Hv Ht) as (s1 & batches & Hs & S & R & _).
  apply update_signals_frame in Hs as (_ & _ & F3 & _). rewrite <- !F3 in *.
  destruct R as [k ids s' [Hn _] _ _ _|ls s' Hsub Hls Hpos].
  { specialize (Hn l). destruct Hw as [Hw|[Hw _]]; congruence. }
  rewrite Forall_forall in Hls.
  assert (Hl : l ∉ ls).
  { intros (H1 & H2 & _)%Hls. destruct Hw as [Hw|[_ [? Hw]]]; congruence. }
  split; [by apply Hpos|]. intros Hnone.
  assert (Ho : other l ∉ ls) by (intros (H1 & _)%Hls; congruence).
  split; [by apply Hpos|]. right.
  assert (ls = []) as ->; [|done]. destruct ls as [|k ls]; [done|]. exfalso.
  destruct (decide (k = l)) as [-> |Hne]; [apply Hl; left|]. apply Ho.
  assert (k = other l) as -> by (by destruct k, l). left.
Qed.

End facts.

(** ** Runs *)

Section runs.
Context {P : Type} `{NodePool P} `{NthElement} (fp : FixedPointConfig) (cfg : MakerConfig).
Context {M : Type} (apply : Z * Z -> list QuoteReconciler.QuoteIntent -> M -> option (M * list Z)).

(** The order manager with a log of the batches it was given. *)
Definition logged (clk : Z * Z) (batch : list QuoteReconciler.QuoteIntent)
    (m : M * list (list QuoteReconciler.QuoteIntent)) : option (M * list (list QuoteReconciler.QuoteIntent) * list Z) :=
  '(m', ids) ← apply clk batch m.1; Some (m', m.2 ++ [batch], ids).

Abbreviation LWorld := (World (P := P) (M := M * list (list QuoteReconciler.QuoteIntent))).
Implicit Types w : LWorld.

Lemma sends_log m batches m' : sends logged m batches m' -> m'.2 = m.2 ++ batches.
Proof.
  induction 1 as [m|m clk batch ids m' batches m'' Ha _ IH]; [by rewrite app_nil_r|].
  unfold logged in Ha. destruct (apply clk batch m.1) as [[m1 ids1]|]; simpl in Ha; [|done].
  injection Ha as <- _. rewrite IH. simpl. by rewrite <- app_assoc.
Qed.

(** C4: what a trade can send.  For every order manager, a trade makes at most
    one kind of request before the sweep: either one entry, sent only while
    neither leg has a position or an order and the wall of its side stands, of
    the configured size and never better than the best price of its own side; or
    for each open leg without a pending exit one order that closes its quantity at
    the best price. *)
Theorem trade_sends_one_entry_or_exits clk md w w' :
  0 <= safety_margin_entry_bps (entry_cfg_ cfg) -> 0 <= margin_multiplier (adverse_selection_cfg_ cfg) ->
  let b := bbo (bk w) in
  is_bbo_valid b = true -> 0 <= bid_price b -> on_trade_updated fp cfg logged clk md w = Some w' ->
  exists batches, (om w').2 = (om w).2 ++ batches ++ [[]] /\ allowed_batches cfg b (st w) batches.
Proof.
  intros Hm Hk b Hv Hb Ht. destruct (trade_allowed fp cfg logged clk md w w' Hm Hk Hv Hb Ht) as (batches & S & Ha).
  exists batches. split; [by apply sends_log in S | done].
Qed.

(** Everything that happens without a report to the strategy: book and trade
    callbacks, with any change of the book and of the order manager between
    them. *)
Inductive market_run : LWorld -> LWorld -> Prop :=
  | market_done w : market_run w w
  | market_change w b m w' :
      market_run (mkWorld (st w) b (m, (om w).2)) w' -> market_run w w'
  | market_book w ticker now w1 w' :
      on_orderbook_updated fp cfg ticker now w = Some w1 -> market_run w1 w' -> market_run w w'
  | market_trade w clk md w1 w' :
      on_trade_updated fp cfg logged clk md w = Some w1 -> market_run w1 w' -> market_run w w'.

(** While one leg waits and the other is flat, market events change neither, and
    every call of [apply] is an empty batch. *)
Lemma waiting_run l w w' :
  market_run w w' -> waiting (position l (st w)) -> status (position (other l) (st w)) = kNone ->
  position l (st w') = position l (st w) /\ position (other l) (st w') = position (other l) (st w) /\
  exists n, (om w').2 = (om w).2 ++ replicate n [].
Proof.
  induction 1 as [w|w b m w' _ IH|w ticker now w1 w' Hb _ IH|w clk md w1 w' Ht _ IH]; intros Hw Ho.
  - split_and!; try done. exists 0%nat. by rewrite app_nil_r.
  - by apply IH.
  - apply orderbook_frame in Hb as (Hp & Hom & _). rewrite <- !Hp, <- Hom in *. by apply IH.
  - destruct (trade_waiting fp cfg logged l clk md w w1 Hw Ht) as (E1 & E2). destruct (E2 Ho) as (E3 & Hsent).
    rewrite <- E1, <- E3 in *. destruct (IH Hw Ho) as (H1 & H2 & n & H3). split_and!; try done.
    destruct Hsent as [-> |S]; [by exists n|]. apply sends_log in S. exists (Datatypes.S n).
    rewrite H3, S, <- app_assoc. done.
Qed.

(** A refused entry ends the trading.  When a trade sets a leg to pending and
    the order manager returns no order id for the entry (the risk check or the
    venue filter dropped it), no sequence of market events ever moves the leg
    again: it stays pending without an order to wait for, and every later call of
    [apply] is the empty sweep. *)
Theorem refused_entry_stops_trading l clk md w w1 w' :
  is_bbo_valid (bbo (bk w)) = true ->
  (forall k, status (position k (st w)) = kNone /\ pending_order_id (position k (st w)) = None) ->
  (forall c i m m' ids, apply c [i] m = Some (m', ids) -> ids = []) ->
  on_trade_updated fp cfg logged clk md w = Some w1 -> status (position l (st w1)) = kPending ->
  market_run w1 w' ->
  status (position l (st w')) = kPending /\ pending_order_id (position l (st w')) = None /\
  exists n, (om w').2 = (om w1).2 ++ replicate n [].
Proof.
  intros Hv Hflat Href Ht Hpend Hrun.
  destruct (trade_cases fp cfg logged clk md w w1 Hv Ht) as (s1 & batches & Hs & _ & R & _).
  apply update_signals_frame in Hs as (_ & _ & F3 & _).
  assert (Hl : pending_order_id (position l (st w1)) = None /\ status (position (other l) (st w1)) = kNone).
  { destruct R as [k ids s' _ (c & m & m' & Ha) Ek Eo|ls s' _ Hls Hpos].
    - unfold logged in Ha. destruct (apply c _ m.1) as [[m1 ids1]|] eqn:E; simpl in Ha; [|done].
      apply Href in E. injection Ha as _ <-. subst ids1.
      destruct (decide (l = k)) as [-> |Hne].
      + rewrite Ek, Eo. cbn. rewrite F3. split; [apply Hflat|]. rewrite F3. apply Hflat.
      + assert (l = other k) as -> by (by destruct l, k). rewrite Eo, F3 in Hpend.
        destruct (Hflat (other k)). congruence.
    - rewrite Forall_forall in Hls. assert (Hno : l ∉ ls).
      { intros (Hact & _)%Hls. rewrite F3 in Hact. destruct (Hflat l). congruence. }
      rewrite (proj1 (Hpos l) Hno), F3 in Hpend. destruct (Hflat l). congruence. }
  destruct Hl as [Hid Hoth]. destruct (waiting_run l w1 w' Hrun) as (H1 & _ & H3); [by left | done |].
  rewrite H1. done.
Qed.

(** A cancelled exit is never sent again.  The cancellation or rejection of
    the order that closes an open leg (its side is the other one) leaves the leg
    open with the dead order still pending; from then on no sequence of market
    events closes it: the leg keeps its state and every call of [apply] is the
    empty sweep. *)
Theorem cancelled_exit_never_retried l now clk keeper info r avg id w w1 w' :
  status (position l (st w)) = kActive -> pending_order_id (position l (st w)) = Some id ->
  status (position (other l) (st w)) = kNone ->
  cl_order_id r = id -> er_side r = exit_side l -> is_cancel_status (ord_status r) = true ->
  PositionKeeper.get_position_info (ticker_ (st w)) keeper = Some info -> actual_position l info <> 0 ->
  on_order_updated cfg logged now clk keeper r avg w = Some w1 -> market_run w1 w' ->
  position l (st w') = position l (st w) /\ exists n, (om w').2 = (om w).2 ++ replicate n [].
Proof.
  intros Hact Hid Hoth _ Hside Hcan Hinfo Hraw Hr Hrun.
  assert (Hst : (forall k, position k (st w1) = position k (st w)) /\ om w1 = om w).
  { unfold on_order_updated in Hr. rewrite Hcan, orb_true_r in Hr. cbn [negb] in Hr. rewrite Hinfo in Hr.
    assert (Hfill : is_fill_status (ord_status r) = false) by (by destruct (ord_status r)).
    rewrite Hfill in Hr. cbn [mbind option_bind] in Hr. injection Hr as <-. cbn.
    assert (Hno : leg_canceled (other l) (st w) = st w) by (unfold leg_canceled; by rewrite bool_decide_eq_false_2 by congruence).
    assert (Hc : match er_side r with kBuy => leg_canceled LongLeg (st w) | kSell => leg_canceled ShortLeg (st w) | _ => st w end = st w).
    { rewrite Hside. by destruct l. }
    rewrite Hc. assert (Hcl : forall k, leg_closed k info (st w) = st w).
    { intros k. unfold leg_closed. destruct (decide (k = l)) as [-> |Hne].
      - rewrite (proj2 (Z.eqb_neq _ _)), andb_false_r by done. done.
      - assert (k = other l) as -> by (by destruct k, l). by rewrite bool_decide_eq_false_2 by congruence. }
    by rewrite !Hcl. }
  destruct Hst as [Hst Hom].
  destruct (waiting_run l w1 w' Hrun) as (H1 & _ & H3); [| by rewrite Hst |].
  { rewrite Hst. right. split; [done|]. by rewrite Hid. }
  rewrite H1, Hst, <- Hom. done.
Qed.

End runs.

(** ** Witnesses *)

#[local] Existing Instance bucket_pool_impl.

Definition demo_cfg : MakerConfig :=
  mkMakerConfig true 20000 demo_zt WallDetectionConfig_default EntryConfig_default ExitConfig_default
    MeanReversionConfig_default AdverseSelectionConfig_default
    WallThreshold.VolumeThresholdConfig_default WallThreshold.OrderbookThresholdConfig_default
    WallThreshold.HybridThresholdConfig_default RobustZScore.RobustZScoreConfig_default
    RobustZScore.RobustZScoreConfig_default RobustZScore.RobustZScoreConfig_default.
Definition demo_bbo : BBO := mkBBO 1000 1001 500 500.
Definition demo_book : Book MemoryPool.pool :=
  set_bbo demo_bbo (new_book (from_ini 1 8192) (MemoryPool.create 2) (MemoryPool.create 2)).
Definition demo_wall : WallInfo := mkInfo 1000000 4 3 true.
(** A wall of the same size at the same distance for two seconds. *)
Definition demo_tracker : WallTracker :=
  track new_tracker ((fun i => (Z.of_nat i * 100000000, 1000000, 4)) <$> seq 0 21).
Definition demo_walls : Walls := mkWalls demo_wall demo_wall demo_tracker demo_tracker.

(** A maker with the walls up, the given legs and phases, and an imbalance of -5%. *)
Definition demo_maker (long short : PositionState) (ph : PhaseState) : State :=
  set_walls demo_walls (set_long long (set_short short (set_phase_state ph
    (set_prev_bbo demo_bbo (set_buffers (mkBuffers [9; 0; 0; 0; 0] [10; 0; 0; 0; 0] [] [])
      (set_ticker "BTCUSDC" (new_maker demo_cfg))))))).
Definition demo_world (long short : PositionState) (ph : PhaseState)
    : World (P := MemoryPool.pool) (M := unit * list (list QuoteReconciler.QuoteIntent)) :=
  mkWorld (demo_maker long short ph) demo_book (tt, []).

(** Order managers that take, and that refuse, every order. *)
Definition taking (c : Z * Z) (batch : list QuoteReconciler.QuoteIntent) (m : unit) : option (unit * list Z) :=
  Some (m, (fun _ => 77) <$> batch).
Definition refusing (c : Z * Z) (batch : list QuoteReconciler.QuoteIntent) (m : unit) : option (unit * list Z) :=
  Some (m, []).

Definition demo_clock : TradeClock :=
  mkTradeClock 1 2 3 (fun _ => 4) (fun _ => (5, 5)) (fun _ => 6) (fun _ => (7, 7)) (8, 8).
Definition demo_trade : MarketData := mkMarketData MUTrade 1 "BTCUSDC" kSell 1000 10.

Definition flat : PositionState := PositionState_default.
Definition open_leg (pending : option Z) : PositionState := mkPosition 10 1000 demo_wall kActive 0 pending.
(** A fall that has come back, and a rise that goes on. *)
Definition after_fall : PhaseState := mkPhase kNeutral kWeak (-20000) 0.
Definition in_rise : PhaseState := mkPhase kDeep kNeutral 20000 0.

(** The demo trade in a world. *)
Abbreviation after om_apply w := (on_trade_updated BTCUSDCConfig demo_cfg (logged om_apply) demo_clock demo_trade w).

(** The result of a computation that returns. *)
Definition returned {A} (o : option A) (Q : A -> Prop) : Prop := exists a, o = Some a /\ Q a.

Lemma returns {A} (o : option A) (Q : A -> Prop) :
  bool_decide (is_Some o) = true -> (forall a, o = Some a -> Q a) -> returned o Q.
Proof. intros Ho HQ. apply bool_decide_eq_true in Ho as [a ->]. exists a. auto. Qed.

Lemma trade_sends_one_entry_or_exits_witness :
  let w := demo_world flat flat after_fall in
  returned (after taking w) (fun w' =>
    (exists batches, (om w').2 = (om w).2 ++ batches ++ [[]] /\
       allowed_batches demo_cfg (bbo (bk w)) (st w) batches) /\
    (om w').2 = [[QuoteReconciler.mkIntent "BTCUSDC" kBuy (Some kLong) (Some 1000) 10]; []]).
Proof.
  intros w. apply returns; [by vm_compute|]. intros w' E.
  split; [|vm_compute in E; injection E as <-; reflexivity].
  apply (trade_sends_one_entry_or_exits BTCUSDCConfig demo_cfg taking demo_clock demo_trade w w');
    [by vm_compute | by vm_compute | by vm_compute | by vm_compute | exact E].
Defined.

(** Half of the value of the position is lost and the wall is gone. *)
Definition demo_losing : World (P := MemoryPool.pool) (M := unit * list (list QuoteReconciler.QuoteIntent)) :=
  on_state (set_walls (mkWalls WallInfo_default WallInfo_default new_tracker new_tracker))
    (demo_world (mkPosition 10 2000 demo_wall kActive 0 None) flat PhaseState_default).

Lemma no_exit_below_deep_witness :
  returned (update_signals demo_cfg demo_clock demo_trade (st demo_losing)) (fun s1 =>
    returned (after taking demo_losing) (fun w' => position LongLeg (st w') = position LongLeg (st demo_losing))) /\
  pnl_bps LongLeg (mid_of demo_bbo) 2000 = -5000.
Proof.
  split; [|by vm_compute]. apply returns; [by vm_compute|]. intros s1 E1. apply returns; [by vm_compute|]. intros w' E.
  apply (no_exit_below_deep BTCUSDCConfig demo_cfg (logged taking) demo_clock demo_trade demo_losing w' LongLeg s1);
    [by vm_compute | exact E1 | vm_compute in E1; injection E1 as <-; by vm_compute | by vm_compute | exact E].
Defined.

Lemma refused_entry_stops_trading_witness :
  returned (after refusing (demo_world flat flat after_fall)) (fun w1 =>
    returned (after refusing w1) (fun w' =>
      status (position LongLeg (st w')) = kPending /\ pending_order_id (position LongLeg (st w')) = None /\
      exists n, (om w').2 = (om w1).2 ++ replicate n [])).
Proof.
  apply returns; [by vm_compute|]. intros w1 E1. apply returns; [vm_compute in E1; injection E1 as <-; by vm_compute|].
  intros w' E.
  apply (refused_entry_stops_trading BTCUSDCConfig demo_cfg refusing LongLeg demo_clock demo_trade
    (demo_world flat flat after_fall) w1 w').
  - by vm_compute.
  - intros []; split; vm_compute; reflexivity.
  - by intros c i m m' ids [= _ <-].
  - exact E1.
  - vm_compute in E1. injection E1 as <-. by vm_compute.
  - eapply market_trade; [exact E | apply market_done].
Defined.

Definition demo_cancel : ExecutionReport :=
  mkReport 77 "BTCUSDC" ETCanceled OSCanceled 10 0 1000 kSell (Some kLong).
(** The keeper still shows the open leg. *)
Definition demo_info : PositionKeeper.PositionInfo :=
  PositionKeeper.add_fill (mkReport 70 "BTCUSDC" ETTrade OSFilled 0 10 1000 kBuy (Some kLong))
    PositionKeeper.PositionInfo_default.
Definition demo_keeper : PositionKeeper.Keeper := {[ "BTCUSDC" := demo_info ]}.

Lemma cancelled_exit_never_retried_witness :
  let w := demo_world (open_leg (Some 77)) flat in_rise in
  returned (on_order_updated demo_cfg (logged taking) 9 (9, 9) demo_keeper demo_cancel 0 w) (fun w1 =>
    returned (after taking w1) (fun w' =>
      position LongLeg (st w') = position LongLeg (st w) /\ exists n, (om w').2 = (om w).2 ++ replicate n [])).
Proof.
  intros w. apply returns; [by vm_compute|]. intros w1 E1.
  apply returns; [vm_compute in E1; injection E1 as <-; by vm_compute|]. intros w' E.
  apply (cancelled_exit_never_retried BTCUSDCConfig demo_cfg taking LongLeg 9 (9, 9) demo_keeper demo_info demo_cancel 0
    77 w w1 w'); try exact E1; try (by vm_compute). eapply market_trade; [exact E | apply market_done].
Defined.

End MakerFacts.
