(* ===== verification/MakerSafety.v ===== *)
(** * The mean reversion maker: no callback fails, and what reports do

    The states in which the trade and report callbacks return whenever the order
    manager answers, that the callbacks preserve them, and the effect of fills on a
    leg.  [MakerOrders] discharges the condition on the order manager. *)

From S2P Require Import Prelude BitScan MemoryPool Types OrderBook OrderBookFacts OrderBookRefine OrderBookPeek FixedPoint PositionKeeper QuoteReconciler FeatureEngine RobustZScore WallThreshold WallDetector MarketPhase MakerScores AdverseSelection MeanReversionMaker MakerFacts.

Module MakerSafety.

Import WallDetector MarketPhase MakerScores AdverseSelection Maker MakerFacts.

(** ** Score windows *)

Definition scorer_cfg_ok (c : RobustZScore.RobustZScoreConfig) : Prop :=
  RobustZScore.pos_int (RobustZScore.window_size c) /\ RobustZScore.pos_int (RobustZScore.baseline_window c) /\
  RobustZScore.pos_int (RobustZScore.baseline_min_history c).

Definition scorer_ok (c : RobustZScore.RobustZScoreConfig) (z : RobustZScore.RobustZScore) : Prop :=
  exists ps, RobustZScore.window_ok c ps z.

Lemma new_scorer_ok c : scorer_ok c RobustZScore.new_zscore.
Proof. exists []. split; [by destruct (RobustZScore.window_size c) | done | constructor]. Qed.

Lemma scorer_step c price z :
  scorer_cfg_ok c -> scorer_ok c z ->
  exists z', RobustZScore.on_price c price (RobustZScore.calculate_zscore c price z).2 = Some z' /\ scorer_ok c z'.
Proof.
  intros (Hw & _) [ps Hz].
  assert (Hc : RobustZScore.window_ok c ps (RobustZScore.calculate_zscore c price z).2).
  { destruct Hz as [Hp Hperm Hs]. destruct (RobustZScore.calculate_zscore_state c price z) as [-> | ->]; [done|].
    destruct (RobustZScore.push_emad_frame c z) as (E1 & E2 & _). split; by rewrite ?E1, ?E2. }
  destruct (RobustZScore.on_price_ok c ps price _ Hw Hc) as (z' & E & Hok & _). exists z'. split; [done|]. by eexists.
Qed.

Lemma baseline_defined c z : scorer_cfg_ok c -> is_Some (RobustZScore.calculate_baseline_emad c z).
Proof.
  intros (_ & Hb & Hm). unfold RobustZScore.calculate_baseline_emad. rewrite !RobustZScore.pos_int_u64 by done.
  destruct (Z.ltb_spec (zlen (RobustZScore.emad_history_ z)) (RobustZScore.baseline_min_history c)); [by eexists|].
  unfold RobustZScore.pos_int in *. rewrite i64_small by (unfold in_i64, int64_min, int64_max; lia).
  rewrite (proj2 (Z.eqb_neq _ _)) by lia. by eexists.
Qed.

Lemma adaptive_defined c base z : scorer_cfg_ok c -> is_Some (RobustZScore.get_adaptive_threshold c base z).
Proof.
  intros Hc. destruct (baseline_defined c z Hc) as [b Hb]. unfold RobustZScore.get_adaptive_threshold.
  rewrite Hb. simpl. do 2 (case_match; [by eexists|]). by eexists.
Qed.

(** ** States *)

(** A flat leg waits for nothing; an open leg has an entry price. *)
Definition leg_ok (p : PositionState) : Prop :=
  match status p with
  | kNone => pending_order_id p = None
  | kPending => True
  | kActive => entry_price p <> 0
  end.

Record maker_cfg_ok (cfg : MakerConfig) : Prop := {
  mc_fast : scorer_cfg_ok (zscore_fast_cfg cfg);
  mc_mid : scorer_cfg_ok (zscore_mid_cfg cfg);
  mc_slow : scorer_cfg_ok (zscore_slow_cfg cfg);
  mc_samples : 0 < min_samples (adverse_selection_cfg_ cfg);
}.

Record maker_ok (cfg : MakerConfig) (s : State) : Prop := {
  mo_fast : scorer_ok (zscore_fast_cfg cfg) (robust_zscore_fast_ (scorers s));
  mo_mid : scorer_ok (zscore_mid_cfg cfg) (robust_zscore_mid_ (scorers s));
  mo_slow : scorer_ok (zscore_slow_cfg cfg) (robust_zscore_slow_ (scorers s));
  mo_fills : Forall (fun f => fill_price_raw f <> 0) (recent_fills (adverse_selection_tracker_ s));
  mo_legs : forall l, leg_ok (position l s);
}.

Lemma new_maker_ok cfg : maker_ok cfg (new_maker cfg).
Proof. split; try apply new_scorer_ok; [constructor|]. by intros []. Qed.

Lemma tracked_ok ids p : leg_ok p -> status p = kActive -> leg_ok (tracked ids p).
Proof. unfold leg_ok. intros Hp Hs. rewrite Hs in Hp. destruct ids; cbn; by rewrite Hs. Qed.

Lemma maker_ok_ext cfg s s' :
  maker_ok cfg s -> same_signals s s' -> (forall l, leg_ok (position l s')) -> maker_ok cfg s'.
Proof. intros [H1 H2 H3 H4 _] [E1 E2] Hl. split; rewrite ?E1, ?E2; done. Qed.

(** A branch of the goal, its condition forgotten. *)
Ltac branch := match goal with |- is_Some (if ?c then _ else _) => destruct c end.

Section safety.
Context {P : Type} `{NodePool P} `{NthElement} (fp : FixedPointConfig) (cfg : MakerConfig).
Context {M : Type} (apply : Z * Z -> list QuoteReconciler.QuoteIntent -> M -> option (M * list Z)).
(** An order manager that answers intents for the tickers it knows; [MakerOrders]
    shows that the order manager of the program is one. *)
Context (known : string -> Prop).
Context (Hcfg : maker_cfg_ok cfg).
Context (Happly : forall c batch m,
  Forall (fun i => known (QuoteReconciler.qi_ticker i)) batch -> is_Some (apply c batch m)).

Implicit Types (w : World (P := P) (M := M)) (s : State).

(** ** Trades *)

Lemma signals_total clk md s :
  maker_ok cfg s -> exists s1, update_signals cfg clk md s = Some s1 /\ maker_ok cfg s1.
Proof using Hcfg.
  intros [Hf Hm Hs Hfill Hlegs]. destruct Hcfg as [Cf Cm Cs Cn]. unfold update_signals, calculate_multi_timeframe_zscores.
  destruct (scorer_step _ (md_price md) _ Cf Hf) as (zf & Ef & Of).
  destruct (scorer_step _ (md_price md) _ Cm Hm) as (zm & Em & Om).
  destruct (scorer_step _ (md_price md) _ Cs Hs) as (zs & Es & Os).
  destruct (RobustZScore.calculate_zscore (zscore_fast_cfg cfg) _ _) as [v1 z1]. simpl in Ef.
  destruct (RobustZScore.calculate_zscore (zscore_mid_cfg cfg) _ _) as [v2 z2]. simpl in Em.
  destruct (RobustZScore.calculate_zscore (zscore_slow_cfg cfg) _ _) as [v3 z3]. simpl in Es.
  rewrite Ef. cbn [mbind option_bind]. rewrite Em. cbn [mbind option_bind]. rewrite Es. cbn [mbind option_bind].
  unfold handle_adverse_selection. cbn [adverse_selection_tracker_ set_scorers].
  unfold on_price_update.
  destruct (measure_all_ok (adverse_selection_cfg_ cfg) (c_adverse clk) (md_price md) _
    (adverse_count (adverse_selection_tracker_ s), total_measured (adverse_selection_tracker_ s)) Hfill)
    as (fills & c & -> & Hfill' & _). cbn [mbind option_bind].
  unfold is_being_picked_off, get_ratio. cbn [total_measured adverse_count].
  assert (Hr : exists r, (if c.2 <? min_samples (adverse_selection_cfg_ cfg) then Some 0
    else if c.2 =? 0 then None else Some (Z.quot (c.1 * kSignalScale) c.2)) = Some r).
  { destruct (Z.ltb_spec c.2 (min_samples (adverse_selection_cfg_ cfg))); [by eexists|].
    rewrite (proj2 (Z.eqb_neq _ _)) by lia. by eexists. }
  destruct Hr as [r ->]. cbn [mbind option_bind robust_zscore_mid_].
  destruct (adaptive_defined (zscore_mid_cfg cfg) (mid_threshold (z_thresholds cfg)) zm Cm) as [a ->].
  cbn [mbind option_bind]. eexists. split; [reflexivity|]. split; cbn; done.
Qed.

Lemma place_total clk l price w : known (ticker_ (st w)) -> is_Some (place_entry_order cfg apply clk l price w).
Proof using Happly.
  intros Hk. unfold place_entry_order.
  destruct (Happly clk [entry_intent cfg l price (st w)] (om w)) as [[m ids] ->]; [by apply Forall_singleton | by eexists].
Qed.

Lemma try_entry_total l now clk qty b w : known (ticker_ (st w)) -> is_Some (try_entry fp cfg apply l now clk qty b w).
Proof using Happly.
  intros Hk. unfold try_entry, check_entry. repeat (branch; [by eexists|]).
  pose proof (obi_buffers_only cfg w) as Hb. destruct (calculate_orderbook_imbalance_int64 cfg w) as [obi w1].
  destruct Hb as ([bf Hst] & _). simpl in Hst.
  repeat (branch; [by eexists|]). apply place_total. cbn [st on_state]. rewrite Hst. by destruct l.
Qed.

Lemma entry_attempt_total l clk qty b w : known (ticker_ (st w)) -> is_Some (entry_attempt fp cfg apply l clk qty b w).
Proof using Happly.
  intros Hk. unfold entry_attempt. case_bool_decide; [|by eexists].
  destruct (try_entry_total l (c_entry clk l) (c_entry_apply clk l) qty b w Hk) as [w1 ->]. by eexists.
Qed.

Lemma exit_and_track_total clk l price w : known (ticker_ (st w)) -> is_Some (exit_and_track cfg apply clk l price w).
Proof using Happly.
  intros Hk. unfold exit_and_track, emergency_exit.
  destruct (Happly clk [exit_intent cfg l price (st w)] (om w)) as [[m ids] ->]; [by apply Forall_singleton | by eexists].
Qed.

Lemma exit_if_active_total l clk b obi w :
  known (ticker_ (st w)) -> leg_ok (position l (st w)) -> is_Some (exit_if_active cfg apply l clk b obi w).
Proof using Happly.
  intros Hk Hok. unfold exit_if_active. case_bool_decide as Hs; [|by eexists]. unfold check_exit.
  unfold leg_ok in Hok. rewrite Hs in Hok.
  do 3 (branch; [by eexists|]). branch; [by apply exit_and_track_total|].
  rewrite (proj2 (Z.eqb_neq _ _)) by done. repeat (branch; [by apply exit_and_track_total|]). by eexists.
Qed.

Lemma position_exit_total clk b w :
  known (ticker_ (st w)) -> (forall l, leg_ok (position l (st w))) -> is_Some (check_position_exit cfg apply clk b w).
Proof using Happly.
  clear Hcfg. intros Hk Hok. unfold check_position_exit. pose proof (obi_buffers_only cfg w) as Hb.
  destruct (calculate_orderbook_imbalance_int64 cfg w) as [obi w1]. destruct Hb as ([bf Hst] & _). simpl in Hst.
  destruct (exit_if_active_total LongLeg clk b obi w1) as [w2 E]; [by rewrite Hst | rewrite Hst; apply (Hok LongLeg)|]. rewrite E. simpl.
  destruct (exit_step cfg apply LongLeg [] clk b obi (st w) w1 w2) as (ls & Hls & _ & (Ht & _ & _ & _ & Hpos) & _);
    [apply not_elem_of_nil | rewrite Hst; apply exited_nil | done |].
  apply exit_if_active_total; [by rewrite Ht|]. rewrite (proj1 (Hpos ShortLeg)); [apply Hok|]. destruct Hls as [-> | [-> _]]; set_solver.
Qed.

(** The trade callback returns, and leaves a consistent maker of the same ticker. *)
Lemma trade_total clk md w :
  known (ticker_ (st w)) -> maker_ok cfg (st w) ->
  exists w', on_trade_updated fp cfg apply clk md w = Some w' /\ maker_ok cfg (st w') /\ ticker_ (st w') = ticker_ (st w).
Proof using Hcfg Happly.
  intros Hk Hok.
  destruct (is_bbo_valid (bbo (bk w))) eqn:Hv.
  2:{ exists w. unfold on_trade_updated. by rewrite Hv. }
  destruct (signals_total clk md (st w) Hok) as (s1 & Hs & Hok1).
  assert (Ht1 : ticker_ s1 = ticker_ (st w)) by (by apply update_signals_frame in Hs as [? _]).
  assert (Hex : is_Some (on_trade_updated fp cfg apply clk md w)).
  { unfold on_trade_updated. rewrite Hv, Hs. cbn [negb mbind option_bind].
    destruct (entry_attempt_total LongLeg clk (md_qty md) (bbo (bk w)) (mkWorld s1 (bk w) (om w))) as [w1 E1];
      [cbn; by rewrite Ht1|].
    rewrite E1. cbn [mbind option_bind].
    assert (Hk1 : ticker_ (st w1) = ticker_ (st w)).
    { destruct (entry_attempt_cases fp cfg apply _ _ _ _ _ _ E1) as ((E & _) & _). cbn in E. congruence. }
    destruct (entry_attempt_total ShortLeg clk (md_qty md) (bbo (bk w)) w1) as [w2 E2]; [by rewrite Hk1|].
    rewrite E2. cbn [mbind option_bind].
    destruct (attempts_cases fp cfg apply _ _ _ _ _ _ E1 E2) as ((Hk2 & _) & _ & _ & _ & R). cbn in Hk2.
    destruct (position_exit_total clk (bbo (bk w)) w2) as [w3 ->]; [by rewrite Hk2, Ht1| |].
    { intros k. destruct R as [[_ ->]|(l & ids & _ & _ & _ & _ & El & Eo)]; [apply (mo_legs _ _ Hok1)|].
      destruct (decide (k = l)) as [-> |Hne]; [by rewrite El|].
      assert (k = other l) as -> by (by destruct k, l). rewrite Eo. apply (mo_legs _ _ Hok1). }
    cbn [mbind option_bind]. destruct (Happly (c_sweep clk) [] (om w3)) as [[m ids] ->]; [constructor | by eexists]. }
  destruct Hex as [w' Ht]. exists w'. split; [done|].
  destruct (trade_cases fp cfg apply clk md w w' Hv Ht) as (s1' & batches & Hs' & _ & R & _ & Etk & _ & Hsig & _).
  rewrite Hs in Hs'. injection Hs' as <-. split; [|congruence]. eapply maker_ok_ext; [exact Hok1 | exact Hsig |].
  intros k. destruct R as [l ids s' _ _ El Eo|ls s' _ Hls Hpos].
  - destruct (decide (k = l)) as [-> |Hne]; [by rewrite El|].
    assert (k = other l) as -> by (by destruct k, l). rewrite Eo. apply (mo_legs _ _ Hok1).
  - destruct (decide (k ∈ ls)) as [Hin|Hnin]; [|rewrite (proj1 (Hpos k) Hnin); apply (mo_legs _ _ Hok1)].
    destruct (proj2 (Hpos k) Hin) as [ids ->]. rewrite Forall_forall in Hls. apply tracked_ok; [apply (mo_legs _ _ Hok1)|].
    apply (Hls k Hin).
Qed.

(** ** Reports *)

Lemma position_other_cases l k p s : position k (set_position l p s) = if decide (k = l) then p else position k s.
Proof. destruct (decide (k = l)) as [-> |]; [apply position_set_position | by apply position_set_other]. Qed.

Lemma set_position_ok l p s : maker_ok cfg s -> leg_ok p -> maker_ok cfg (set_position l p s).
Proof.
  intros Hok Hp. eapply maker_ok_ext; [exact Hok | by destruct l |]. intros k. rewrite position_other_cases.
  case_decide; [done | apply (mo_legs _ _ Hok)].
Qed.

Lemma set_adverse_ok margin t s :
  maker_ok cfg s -> Forall (fun f => fill_price_raw f <> 0) (recent_fills t) -> maker_ok cfg (set_adverse margin t s).
Proof. intros [H1 H2 H3 _ H5] Ht. by split. Qed.

Lemma on_fill_priced time price side n t :
  price <> 0 -> Forall (fun f => fill_price_raw f <> 0) (recent_fills t) ->
  Forall (fun f => fill_price_raw f <> 0) (recent_fills (on_fill time price side n t)).
Proof.
  intros Hp Ht. unfold on_fill. cbn [recent_fills].
  assert (Hall : Forall (fun f => fill_price_raw f <> 0) (recent_fills t ++ [mkFill time price side 0 false])).
  { apply Forall_app. split; [done|]. by apply Forall_singleton. }
  case_match; [by apply Forall_drop | done].
Qed.

(** The liquidation of a fill that nobody waits for: one order, for all of the
    leg's quantity, at the price of the fill. *)
Lemma liquidate_cases l clk avg actual w :
  known (ticker_ (st w)) ->
  exists m ids, apply clk [exit_intent cfg l avg (set_position l (set_actual actual avg (position l (st w))) (st w))] (om w)
      = Some (m, ids) /\
    liquidate cfg apply l clk avg actual w = Some (mkWorld (set_position l
      (match ids with
       | id :: _ => set_status kPending (set_pending (Some id) (set_actual actual avg (position l (st w))))
       | [] => set_pending None (set_status kNone (set_actual actual avg (position l (st w))))
       end) (set_position l (set_actual actual avg (position l (st w))) (st w))) (bk w) m).
Proof using Happly.
  clear Hcfg. intros Hk. unfold liquidate, emergency_exit, on_state. cbn [st bk om].
  destruct (Happly clk [exit_intent cfg l avg (set_position l (set_actual actual avg (position l (st w))) (st w))] (om w))
    as [[m ids] E]; [apply Forall_singleton; by destruct l|]. exists m, ids. split; [done|]. rewrite E. simpl.
  by rewrite position_set_position.
Qed.

Lemma liquidate_ok l clk avg actual w :
  known (ticker_ (st w)) -> maker_ok cfg (st w) -> avg <> 0 ->
  exists w', liquidate cfg apply l clk avg actual w = Some w' /\ maker_ok cfg (st w').
Proof using Happly.
  clear Hcfg. intros Hk Hok Ha. destruct (liquidate_cases l clk avg actual w Hk) as (m & ids & _ & ->). eexists. split; [done|].
  cbn [st]. apply set_position_ok; [|by destruct ids]. apply set_position_ok; [done|].
  pose proof (mo_legs _ _ Hok l) as Hl. unfold leg_ok in *. cbn. by destruct (status (position l (st w))).
Qed.

Lemma leg_filled_ok l now clk r avg info w :
  known (ticker_ (st w)) -> maker_ok cfg (st w) -> avg <> 0 ->
  exists w', leg_filled cfg apply l now clk r avg info w = Some w' /\ maker_ok cfg (st w').
Proof using Happly.
  clear Hcfg. intros Hk Hok Ha. unfold leg_filled. destruct (status (position l (st w))) eqn:Es.
  - case_match; [by apply liquidate_ok | by eexists].
  - case_bool_decide.
    + eexists. split; [done|]. cbn [st on_state]. apply set_adverse_ok; [by apply set_position_ok|].
      apply on_fill_priced; [done | apply (mo_fills _ _ Hok)].
    + case_match; [by apply liquidate_ok|]. eexists. split; [done|]. cbn. by apply set_position_ok.
  - by eexists.
Qed.

Lemma leg_canceled_ok l s : maker_ok cfg s -> maker_ok cfg (leg_canceled l s).
Proof. intros Hok. unfold leg_canceled. case_match; [by apply set_position_ok | done]. Qed.

Lemma leg_closed_ok l info s : maker_ok cfg s -> maker_ok cfg (leg_closed l info s).
Proof. intros Hok. unfold leg_closed. case_match; [by apply set_position_ok | done]. Qed.

(** The report callback returns.  When the positions of the ticker are known and
    the average price of the report is not zero, a report of any status and side,
    expected or not, is handled without a failure, and the maker it leaves is one
    from which every trade and every such report is handled. *)
Lemma report_total now clk keeper r avg w :
  known (ticker_ (st w)) ->
  is_Some (PositionKeeper.get_position_info (ticker_ (st w)) keeper) -> avg <> 0 -> maker_ok cfg (st w) ->
  exists w', on_order_updated cfg apply now clk keeper r avg w = Some w' /\ maker_ok cfg (st w').
Proof using Happly.
  clear Hcfg. intros Hk [info Hinfo] Ha Hok. unfold on_order_updated. destruct (negb _); [by eexists|]. rewrite Hinfo. cbn [mbind option_bind].
  set (filled := if is_fill_status _ then _ else _).
  assert (Hf : exists w1, filled = Some w1 /\ maker_ok cfg (st w1)).
  { unfold filled, buy_filled, sell_filled. destruct (is_fill_status _); [|by eexists].
    destruct (er_side r); try (by eexists); by apply leg_filled_ok. }
  destruct Hf as (w1 & -> & Hok1). cbn [mbind option_bind]. eexists. split; [done|]. cbn [st on_state].
  do 2 apply leg_closed_ok. destruct (is_cancel_status _); [|done].
  destruct (er_side r); try done; by apply leg_canceled_ok.
Qed.

(** ** Fills *)

(** The fill branch of a report, when the keeper is known. *)
Lemma fill_report_eq l now clk keeper info r avg w :
  is_fill_status (ord_status r) = true -> er_side r = entry_side l ->
  PositionKeeper.get_position_info (ticker_ (st w)) keeper = Some info ->
  on_order_updated cfg apply now clk keeper r avg w =
  w1 ← leg_filled cfg apply l now clk r avg info w;
  Some (on_state (fun s => leg_closed ShortLeg info (leg_closed LongLeg info s)) w1).
Proof.
  clear. intros Hf Hside Hinfo. unfold on_order_updated. rewrite Hf, Hinfo. cbn [negb orb mbind option_bind].
  assert (Hc : is_cancel_status (ord_status r) = false) by (by destruct (ord_status r)).
  rewrite Hc, Hside. unfold buy_filled, sell_filled. by destruct l.
Qed.

Lemma closed_not_active l info s :
  status (position l s) <> kActive -> position l (leg_closed ShortLeg info (leg_closed LongLeg info s)) = position l s.
Proof.
  clear. intros Hs. unfold leg_closed at 2. set (s1 := if bool_decide _ && _ then _ else s).
  assert (E : position l s1 = position l s).
  { unfold s1. destruct (bool_decide (status (position LongLeg s) = kActive)) eqn:Ea; simpl; [|done].
    apply bool_decide_eq_true in Ea. case_match; [|done]. by destruct l. }
  rewrite <- E in *. unfold leg_closed. destruct (bool_decide (status (position ShortLeg s1) = kActive)) eqn:Ea; simpl; [|done].
  apply bool_decide_eq_true in Ea. case_match; [|done]. by destruct l.
Qed.

(** A fill that the leg does not wait for is closed at once.  When a fill
    arrives on the entry side of a leg that is flat or waits for another order,
    and the keeper shows a position, exactly one order is sent: it closes all of
    the position at the price of the fill.  The leg then waits for that order; if
    it was refused, the leg is flat. *)
Theorem late_fill_is_liquidated l now clk keeper info r avg w :
  known (ticker_ (st w)) -> is_fill_status (ord_status r) = true -> er_side r = entry_side l ->
  PositionKeeper.get_position_info (ticker_ (st w)) keeper = Some info -> 0 < actual_position l info ->
  (status (position l (st w)) = kNone \/
   status (position l (st w)) = kPending /\ pending_order_id (position l (st w)) <> Some (cl_order_id r)) ->
  exists w' ids,
    on_order_updated cfg apply now clk keeper r avg w = Some w' /\
    apply clk [intent_of cfg (exit_side l) (leg_position_side l) avg (actual_position l info) (st w)] (om w)
      = Some (om w', ids) /\
    pos_qty (position l (st w')) = actual_position l info /\
    match ids with
    | id :: _ => status (position l (st w')) = kPending /\ pending_order_id (position l (st w')) = Some id
    | [] => status (position l (st w')) = kNone /\ pending_order_id (position l (st w')) = None
    end.
Proof using Happly.
  clear Hcfg. intros Hk Hf Hside Hinfo Hpos Hlate. rewrite (fill_report_eq l) with (info := info) by done.
  assert (E : leg_filled cfg apply l now clk r avg info w = liquidate cfg apply l clk avg (actual_position l info) w).
  { unfold leg_filled. rewrite (proj2 (Z.ltb_lt 0 _)) by done.
    destruct Hlate as [-> | [-> Hid]]; [done|]. by rewrite bool_decide_eq_false_2. }
  rewrite E. destruct (liquidate_cases l clk avg (actual_position l info) w Hk) as (m & ids & Ha & ->).
  cbn [mbind option_bind]. eexists _, ids. split; [reflexivity|]. cbn [st om on_state].
  rewrite closed_not_active by (rewrite position_set_position; by destruct ids).
  rewrite position_set_position. split; [|destruct ids; done].
  rewrite <- Ha. do 2 f_equal. unfold exit_intent, intent_of. rewrite position_set_position. cbn. by destruct l.
Qed.

(** Without a position side the entry is forgotten.  A fill report without a
    position side (as the spot venues send it) does not move the leg that the
    keeper tracks; the maker, told of the fill it was waiting for, opens the leg
    and closes it again in the same callback because that leg is empty, while the
    net position of the keeper has moved by the filled quantity. *)
Theorem spot_fill_forgotten l now clk keeper keeper' info r avg w w' :
  er_position_side r = None -> is_fill_status (ord_status r) = true -> er_side r = entry_side l ->
  ticker_ (st w) = symbol r -> keeper !! symbol r = Some info -> actual_position l info = 0 ->
  PositionKeeper.keeper_add_fill r keeper = Some keeper' ->
  status (position l (st w)) = kPending -> pending_order_id (position l (st w)) = Some (cl_order_id r) ->
  on_order_updated cfg apply now clk keeper' r avg w = Some w' ->
  status (position l (st w')) = kNone /\ pending_order_id (position l (st w')) = None /\ om w' = om w /\
  exists info', keeper' !! symbol r = Some info' /\
    PositionKeeper.position_ info' = PositionKeeper.position_ info + last_qty r * sideToValue (er_side r).
Proof.
  clear. intros Hps Hf Hside Ht Hk Hraw Hadd Hs Hid Hr.
  unfold PositionKeeper.keeper_add_fill in Hadd. rewrite Hk in Hadd. injection Hadd as <-.
  set (info' := PositionKeeper.add_fill r info) in *.
  assert (Hi : PositionKeeper.get_position_info (ticker_ (st w)) (<[symbol r := info']> keeper) = Some info').
  { unfold PositionKeeper.get_position_info. rewrite Ht. apply lookup_insert_eq. }
  assert (Hraw' : actual_position l info' = 0).
  { rewrite <- Hraw. unfold info', PositionKeeper.add_fill. rewrite Hps.
    rewrite !bool_decide_eq_false_2 by done. repeat case_match; by destruct l. }
  rewrite (fill_report_eq l) with (info := info') in Hr by done.
  unfold leg_filled in Hr. rewrite Hs, bool_decide_eq_true_2 in Hr by done. cbn [mbind option_bind] in Hr.
  injection Hr as <-. cbn [st om on_state]. split; [|split; [|split; [done|]]].
  3:{ exists info'. split; [apply lookup_insert_eq|]. apply PositionKeeper.add_fill_position. }
  all: destruct l; cbn in *; unfold leg_closed; cbn; rewrite ?bool_decide_eq_true_2 by done; rewrite Hraw'; cbn.
  all: repeat (case_match; cbn); done.
Qed.

End safety.

(** ** Witnesses *)

#[local] Existing Instance bucket_pool_impl.

Lemma demo_cfg_ok : maker_cfg_ok demo_cfg.
Proof. by repeat split. Qed.

Lemma taking_answers c batch m :
  Forall (fun i => QuoteReconciler.qi_ticker i = "BTCUSDC"%string) batch -> is_Some (logged taking c batch m).
Proof. by eexists. Qed.

Lemma demo_maker_ok long short ph : leg_ok long -> leg_ok short -> maker_ok demo_cfg (demo_maker long short ph).
Proof.
  intros Hl Hs. eapply maker_ok_ext; [apply (new_maker_ok demo_cfg) | done |]. by intros [].
Qed.

(** A fill of order 5 while the leg waits for order 77. *)
Definition waiting_leg : PositionState := mkPosition 10 1000 demo_wall kPending 0 (Some 77).
Definition demo_late : ExecutionReport := mkReport 5 "BTCUSDC" ETTrade OSFilled 0 10 1000 kBuy (Some kLong).

Lemma late_fill_is_liquidated_witness :
  let w := demo_world waiting_leg flat in_rise in
  exists w' ids,
    on_order_updated demo_cfg (logged taking) 9 (9, 9) demo_keeper demo_late 1000 w = Some w' /\
    logged taking (9, 9) [intent_of demo_cfg (exit_side LongLeg) (leg_position_side LongLeg) 1000
      (actual_position LongLeg demo_info) (st w)] (om w) = Some (om w', ids) /\
    pos_qty (position LongLeg (st w')) = actual_position LongLeg demo_info /\
    match ids with
    | id :: _ => status (position LongLeg (st w')) = kPending /\ pending_order_id (position LongLeg (st w')) = Some id
    | [] => status (position LongLeg (st w')) = kNone /\ pending_order_id (position LongLeg (st w')) = None
    end.
Proof.
  intros w. apply (late_fill_is_liquidated demo_cfg (logged taking) (fun t => t = "BTCUSDC"%string) taking_answers LongLeg 9 (9, 9) demo_keeper demo_info
    demo_late 1000 w); try (by vm_compute). right. split; vm_compute; [reflexivity | discriminate].
Defined.

(** The expected fill, without a position side. *)
Definition demo_spot : ExecutionReport := mkReport 77 "BTCUSDC" ETTrade OSFilled 0 10 1000 kBuy None.
Definition demo_spot_keeper : PositionKeeper.Keeper := PositionKeeper.new_keeper "BTCUSDC".

Definition demo_spot_keeper' : PositionKeeper.Keeper :=
  default ∅ (PositionKeeper.keeper_add_fill demo_spot demo_spot_keeper).

Lemma spot_fill_forgotten_witness :
  let w := demo_world waiting_leg flat in_rise in
  returned (on_order_updated demo_cfg (logged taking) 9 (9, 9) demo_spot_keeper' demo_spot 1000 w) (fun w' =>
    status (position LongLeg (st w')) = kNone /\ pending_order_id (position LongLeg (st w')) = None /\ om w' = om w /\
    exists info', demo_spot_keeper' !! symbol demo_spot = Some info' /\
      PositionKeeper.position_ info' =
      PositionKeeper.position_ PositionKeeper.PositionInfo_default + last_qty demo_spot * sideToValue (er_side demo_spot)).
Proof.
  intros w. apply returns; [by vm_compute|]. intros w' E.
  apply (spot_fill_forgotten demo_cfg (logged taking) LongLeg 9 (9, 9) demo_spot_keeper demo_spot_keeper'
    PositionKeeper.PositionInfo_default demo_spot 1000 w w'); try exact E; by vm_compute.
Defined.

End MakerSafety.
