(* ===== verification/MakerSettings.v ===== *)
(** * Configuration of the mean reversion maker
      (src/hft/src/strategy/mean_reversion_maker/mean_reversion_maker.h, the
      constructor; [get_double] of src/hft/common/ini_config.hpp)

    From the text of a configuration to the numbers the maker computes with.
    [std::stod] reads decimals with an optional exponent; hexadecimal numbers,
    infinities and NaN are not modelled.  A double literal of the source is its
    decimal value, rounded once. *)

From Stdlib Require Import QArith Qabs.
From S2P Require Import Prelude Types FixedPoint Text IniConfig Binary64 WallThreshold RobustZScore MarketPhase MakerScores AdverseSelection MeanReversionMaker MakerFacts MakerSafety.

Module MakerSettings.
Import FixedPoint Text IniConfig Binary64 MarketPhase MakerScores AdverseSelection Maker MakerSafety.

(** ** Decimals *)

(** Value of a decimal with [frac] after the point and the exponent [ex]. *)
Definition decimal_value (whole frac : list Z) (ex : Z) : Q :=
  let n := digits_value (whole ++ frac) in
  let e := ex - zlen frac in
  if 0 <=? e then inject_Z (n * 10 ^ e) else n # Z.to_pos (10 ^ (- e)).

(** [e], an optional sign and digits; nothing is read if there are no digits. *)
Definition read_exponent (l : list Z) : Z :=
  match l with
  | c :: rest =>
      if (c =? 101) || (c =? 69) then
        match rest with
        | 45 :: rest' => - digits_value (leading_digits rest')
        | 43 :: rest' => digits_value (leading_digits rest')
        | _ => digits_value (leading_digits rest)
        end
      else 0
  | [] => 0
  end.

Definition read_unsigned (l : list Z) : option Q :=
  let whole := leading_digits l in
  let rest := drop (length whole) l in
  let '(frac, rest) :=
    match rest with
    | 46 :: rest' => let f := leading_digits rest' in (f, drop (length f) rest')
    | _ => ([], rest)
    end in
  if bool_decide (whole ++ frac = []) then None else Some (decimal_value whole frac (read_exponent rest)).

(** [None]: no number at the start of the text, [std::stod] throws. *)
Definition stod (l : list Z) : option Q :=
  let l := drop_space l in
  match l with
  | 45 :: rest => q ← read_unsigned rest; Some (Qopp (rnd q))
  | 43 :: rest => rnd <$> read_unsigned rest
  | _ => rnd <$> read_unsigned l
  end.

Definition get_double (section key : list Z) (def : Q) (ini : Ini) : Q :=
  default def (stod (erase_separators (get section key [] ini))).

(** ** The constructor *)

Section Constructor.
Context (fp : FixedPointConfig) (ini : Ini).

Definition num (section key : string) (def : Q) : Q := get_double (codes section) (codes key) def ini.
Definition int (section key : string) (def : Z) : Z := get_int (codes section) (codes key) def ini.
(** [static_cast<int64_t>(INI_CONFIG.get_double(section, key, def) * scale)] *)
Definition scaled (section key : string) (def : Q) (scale : Z) : Z := cast_scaled scale (num section key (rnd def)).
Definition flag (section key def : string) : bool :=
  bool_decide (get (codes section) (codes key) (codes def) ini = codes "true").

Definition read_thresholds : ZThresholds :=
  mkZT (scaled "robust_zscore_fast" "entry_threshold" (5 # 10) kZScoreScale)
    (scaled "robust_zscore_mid" "entry_threshold" (8 # 10) kZScoreScale)
    (scaled "robust_zscore_slow" "entry_threshold" (14 # 10) kZScoreScale).

Definition read_wall : WallDetectionConfig :=
  mkWallDetection (scaled "wall_detection" "max_distance_pct" (15 # 10000) kBpsScale) (int "wall_detection" "max_levels" 100).

Definition read_entry : EntryConfig :=
  mkEntry (scaled "entry" "obi_threshold" (25 # 100) kObiScale)
    (int "entry" "obi_levels" 5)
    (scaled "entry" "position_size" (1 # 100) (kQtyScale fp))
    (scaled "entry" "safety_margin_entry" (1 # 10000) kBpsScale)
    (scaled "entry" "safety_margin_exit" (1 # 10000) kBpsScale)
    (scaled "entry" "min_signal_quality" (65 # 100) kSignalScale)
    (scaled "entry" "wall_weight" (60 # 100) kSignalScale)
    (scaled "entry" "obi_weight" (40 # 100) kSignalScale)
    (scaled "entry" "wall_norm_multiplier" (3 # 1) kSignalScale)
    (scaled "entry" "obi_norm_min" 0 kObiScale)
    (scaled "entry" "obi_norm_max" (15 # 100) kObiScale)
    (scaled "entry" "short_zscore_min_ratio" (8 # 10) kSignalScale)
    (scaled "entry" "defense_max_price_slippage" (5 # 10000) (kPriceScale fp)).

Definition read_exit : ExitConfig :=
  mkExit (scaled "exit" "wall_amount_decay_ratio" (5 # 10) kSignalScale)
    (scaled "exit" "wall_distance_expand_ratio" (12 # 10) kSignalScale)
    (scaled "exit" "max_loss_pct" (2 # 1000) kBpsScale)
    (scaled "exit" "max_hold_time_sec" (30 # 1) 1000000000)
    (scaled "exit" "max_price_deviation_pct" (2 # 1000) kBpsScale)
    (flag "exit" "cancel_on_wall_decay" "true")
    (scaled "exit" "obi_exit_threshold" (5 # 10) kObiScale)
    (scaled "exit" "exit_neutral_threshold" (30 # 100) kZScoreScale)
    (scaled "exit" "min_exit_quality" (65 # 100) kSignalScale)
    (scaled "exit" "obi_reversal_weight" (50 # 100) kSignalScale)
    (scaled "exit" "wall_decay_weight" (30 # 100) kSignalScale)
    (scaled "exit" "time_weight" (20 # 100) kSignalScale)
    (scaled "exit" "soft_time_ratio" (5 # 10) kSignalScale)
    (scaled "exit" "override_exit_threshold" (5 # 10) kSignalScale)
    (scaled "exit" "urgency_high_threshold" (8 # 10) kSignalScale)
    (scaled "exit" "urgency_low_threshold" (5 # 10) kSignalScale).

Definition read_mean_reversion : MeanReversionConfig :=
  mkMR (scaled "mean_reversion" "min_reversal_bounce" (2 # 10) kZScoreScale)
    (scaled "mean_reversion" "neutral_zone_threshold" (1 # 1) kZScoreScale)
    (scaled "mean_reversion" "building_multiplier" (1 # 1) kSignalScale)
    (scaled "mean_reversion" "deep_multiplier" (12 # 10) kSignalScale)
    (scaled "mean_reversion" "reversal_weak_multiplier" (8 # 10) kSignalScale)
    (scaled "mean_reversion" "reversal_strong_multiplier" (6 # 10) kSignalScale)
    (scaled "mean_reversion" "false_reversal_ratio" (5 # 10) kSignalScale).

Definition read_adverse : AdverseSelectionConfig :=
  mkAdverse (int "adverse_selection" "max_fill_history" 20)
    (trunc (num "adverse_selection" "measurement_window_ns" (1000000000 # 1)))
    (trunc (num "adverse_selection" "measurement_tolerance_ns" (100000000 # 1)))
    (scaled "adverse_selection" "adverse_threshold_pct" (2 # 10000) kBpsScale)
    (int "adverse_selection" "min_samples" 10)
    (scaled "adverse_selection" "ratio_threshold" (5 # 10) kSignalScale)
    (scaled "adverse_selection" "margin_multiplier" (15 # 10) kSignalScale).

Definition read_volume : WallThreshold.VolumeThresholdConfig :=
  WallThreshold.mkVolume (scaled "wall_defense" "volume_ema_alpha" (3 # 100) kEmaScale)
    (scaled "wall_defense" "volume_multiplier" (4 # 1) kSignalScale) (int "wall_defense" "volume_min_samples" 20).

Definition read_orderbook : WallThreshold.OrderbookThresholdConfig :=
  WallThreshold.mkOrderbook (int "wall_defense" "orderbook_top_levels" 20)
    (scaled "wall_defense" "orderbook_multiplier" (3 # 1) kSignalScale) (scaled "wall_defense" "orderbook_percentile" (80 # 1) 100).

Definition read_hybrid : WallThreshold.HybridThresholdConfig :=
  WallThreshold.mkHybrid (scaled "wall_defense" "volume_weight" (7 # 10) kSignalScale)
    (scaled "wall_defense" "orderbook_weight" (3 # 10) kSignalScale) (scaled "wall_defense" "min_quantity" (50 # 1) (kQtyScale fp)).

(** A number of the common section, or of the section of older files. *)
Definition common (key : string) (def : Q) (scale : Z) : Z :=
  cast_scaled scale (num "robust_zscore_common" key (num "robust_zscore" key (rnd def))).
Definition common_int (key : string) (def : Z) : Z := int "robust_zscore_common" key (int "robust_zscore" key def).

(** The window and the number of samples are those of the time frame. *)
Definition read_zscore (section : string) (window samples : Z) : RobustZScore.RobustZScoreConfig :=
  RobustZScore.mkConfig (int section "window_size" window) (int section "min_samples" samples)
    (common "min_mad_threshold" (5 # 1) (kPriceScale fp)) RobustZScore.kEmaAlpha (common_int "baseline_window" 100)
    (common "min_vol_scalar" (7 # 10) kSignalScale) (common "max_vol_scalar" (13 # 10) kSignalScale)
    (common "vol_ratio_low" (5 # 10) kSignalScale) (common "vol_ratio_high" (2 # 1) kSignalScale)
    (common_int "baseline_min_history" 30).

(** The three time frames. *)
Definition robust_zscore_fast : RobustZScore.RobustZScoreConfig := read_zscore "robust_zscore_fast" 10 8.
Definition robust_zscore_mid : RobustZScore.RobustZScoreConfig := read_zscore "robust_zscore_mid" 30 20.
Definition robust_zscore_slow : RobustZScore.RobustZScoreConfig := read_zscore "robust_zscore_slow" 100 60.

(** [position_side] is a constant of the build. *)
Definition read_config (position_side : bool) : MakerConfig :=
  mkMakerConfig position_side (scaled "wall_defense" "qty_multiplier" (2 # 1) kSignalScale)
    read_thresholds read_wall read_entry read_exit read_mean_reversion read_adverse read_volume read_orderbook read_hybrid
    robust_zscore_fast robust_zscore_mid robust_zscore_slow.

End Constructor.
(** ** Settings in the file and in the maker *)

(** A text that starts with a digit has no sign and no space. *)
Lemma stod_digit c l : chr_0 <= c <= chr_9 -> stod (c :: l) = rnd <$> read_unsigned (c :: l).
Proof.
  intros Hc. unfold chr_0, chr_9 in Hc.
  assert (H : c = 48 \/ c = 49 \/ c = 50 \/ c = 51 \/ c = 52 \/ c = 53 \/ c = 54 \/ c = 55 \/ c = 56 \/ c = 57) by lia.
  by repeat destruct H as [->|H]; [..|subst c].
Qed.

(** A decimal in the documented notation, whatever follows it. *)
Lemma read_unsigned_decimal d1 d2 rest :
  digits d1 -> digits d2 -> d1 <> [] -> leading_digits rest = [] -> read_exponent rest = 0 ->
  read_unsigned (d1 ++ 46 :: d2 ++ rest) = Some (decimal_value d1 d2 0).
Proof.
  intros H1 H2 Hne Hr He. unfold read_unsigned. rewrite leading_digits_app, drop_app_length by done.
  rewrite leading_digits_app, drop_app_length, He by done. rewrite bool_decide_eq_false_2; [done|]. by destruct d1.
Qed.

Lemma decimal_value_scaled d1 d2 (k : nat) :
  (length d2 <= k)%nat ->
  (decimal_value d1 d2 0 * inject_Z (10 ^ Z.of_nat k) ==
   inject_Z (digits_value (d1 ++ d2) * 10 ^ (Z.of_nat k - Z.of_nat (length d2))))%Q.
Proof.
  intros Hk. unfold decimal_value, zlen. set (n := digits_value (d1 ++ d2)). set (m := Z.of_nat (length d2)).
  assert (E : 10 ^ Z.of_nat k = 10 ^ (Z.of_nat k - m) * 10 ^ m) by (rewrite <-Z.pow_add_r by lia; f_equal; lia).
  destruct (Z.leb_spec 0 (0 - m)).
  - assert (m = 0) as Hm by lia. rewrite Hm in *. rewrite Z.sub_0_r. unfold Qeq. cbn. rewrite E, Z.sub_0_r. cbn. lia.
  - replace (- (0 - m)) with m by lia. unfold Qeq. cbn [Qnum Qden Qmult inject_Z]. rewrite E.
    rewrite Pos.mul_1_r, Z2Pos.id by (apply Z.pow_pos_nonneg; lia). lia.
Qed.

Lemma stod_decimal d1 d2 rest :
  digits d1 -> digits d2 -> d1 <> [] -> leading_digits rest = [] -> read_exponent rest = 0 ->
  stod (d1 ++ 46 :: d2 ++ rest) = Some (rnd (decimal_value d1 d2 0)).
Proof.
  intros H1 H2 Hne Hr He. pose proof (read_unsigned_decimal d1 d2 rest H1 H2 Hne Hr He) as E.
  destruct d1 as [|c d1]; [done|]. cbn [app] in *. rewrite stod_digit by (by apply Forall_cons in H1 as [? _]). by rewrite E.
Qed.

(** A decimal in the configuration arrives as the number it denotes, or as one
    unit less.  A setting written with as many digits after the point as the scale
    has zeros, or fewer, becomes its value in units of the scale, or that value
    minus one since the product is truncated. *)
Theorem decimal_setting_read ini section key def d1 d2 rest k :
  erase_separators (get (codes section) (codes key) [] ini) = d1 ++ 46 :: d2 ++ rest ->
  digits d1 -> digits d2 -> d1 <> [] -> leading_digits rest = [] -> read_exponent rest = 0 -> (length d2 <= k)%nat ->
  let v := digits_value (d1 ++ d2) * 10 ^ (Z.of_nat k - Z.of_nat (length d2)) in
  0 < v <= kExactRange ->
  scaled ini section key def (10 ^ Z.of_nat k) = v \/ scaled ini section key def (10 ^ Z.of_nat k) = v - 1.
Proof.
  intros Hget H1 H2 Hne Hr He Hk v Hv. unfold scaled, num, get_double. rewrite Hget.
  rewrite stod_decimal by done. cbn [default]. apply cast_scaled_near; [apply Z.pow_pos_nonneg; lia | done | by apply decimal_value_scaled].
Qed.

(** A maker built from any configuration with positive windows, baselines and
    sample counts starts in the invariant that its callbacks keep, with the
    configuration they need. *)
Theorem configured_maker_ok fp ini position_side :
  (forall s w, (s, w) ∈ [("robust_zscore_fast", 10); ("robust_zscore_mid", 30); ("robust_zscore_slow", 100)]%string ->
     RobustZScore.pos_int (int ini s "window_size" w)) ->
  RobustZScore.pos_int (common_int ini "baseline_window" 100) -> RobustZScore.pos_int (common_int ini "baseline_min_history" 30) ->
  0 < int ini "adverse_selection" "min_samples" 10 ->
  maker_cfg_ok (read_config fp ini position_side) /\
  maker_ok (read_config fp ini position_side) (new_maker (read_config fp ini position_side)).
Proof.
  intros Hw Hb Hm Hs. split; [|apply new_maker_ok].
  split; [split_and!; [apply Hw; set_solver | done | done] .. | done].
Qed.

(** Without a configuration file the numbers are those of the structs, but for the
    two safety margins: 1 basis point in the constructor, 5 in the struct. *)
Theorem missing_settings_are_defaults :
  let ini := mkIni ∅ [] [] [] [] [] in
  read_wall ini = WallDetectionConfig_default /\ read_exit ini = ExitConfig_default /\
  read_mean_reversion ini = MeanReversionConfig_default /\ read_adverse ini = AdverseSelectionConfig_default /\
  read_volume ini = WallThreshold.VolumeThresholdConfig_default /\ read_orderbook ini = WallThreshold.OrderbookThresholdConfig_default /\
  safety_margin_entry_bps (read_entry XRPUSDCConfig ini) = 1 /\ safety_margin_entry_bps EntryConfig_default = 5.
Proof. vm_compute. repeat split. Qed.

(** The margin of exits is read from the section of entries: the setting that the
    shipped files have in the section of exits has no effect. *)
Theorem exit_margin_of_exit_section_ignored fp ini v :
  read_entry fp (set (codes "exit") (codes "safety_margin_exit") v ini) = read_entry fp ini.
Proof.
  assert (H : forall section key def, get_key (codes "exit") (codes "safety_margin_exit") <> get_key section key ->
    get section key def (set (codes "exit") (codes "safety_margin_exit") v ini) = get section key def ini).
  { intros section key def Hne. unfold get, set. cbn [data_]. by rewrite lookup_insert_ne. }
  unfold read_entry, scaled, num, get_double, int, get_int. by rewrite !H by done.
Qed.

(** ** Witnesses *)

Definition demo_settings : Ini :=
  let put s k v (i : Ini) := set (codes s) (codes k) (codes v) i in
  put "robust_zscore_fast" "window_size" "7" (put "robust_zscore_slow" "entry_threshold" "1.40        # 14000"
  (put "adverse_selection" "adverse_threshold_pct" "0.0003" (mkIni ∅ [] [] [] [] []))).

Lemma decimal_setting_read_witness :
  (scaled demo_settings "adverse_selection" "adverse_threshold_pct" (2 # 10000) (10 ^ 4) = 3 \/
   scaled demo_settings "adverse_selection" "adverse_threshold_pct" (2 # 10000) (10 ^ 4) = 2) /\
  scaled demo_settings "adverse_selection" "adverse_threshold_pct" (2 # 10000) (10 ^ 4) = 2.
Proof.
  split; [|by vm_compute].
  apply (decimal_setting_read demo_settings "adverse_selection" "adverse_threshold_pct" (2 # 10000) (codes "0") (codes "0003") [] 4);
    try by vm_compute; repeat constructor; vm_compute; congruence.
Defined.

Lemma configured_maker_ok_witness :
  maker_cfg_ok (read_config XRPUSDCConfig demo_settings true) /\
  RobustZScore.window_size (zscore_fast_cfg (read_config XRPUSDCConfig demo_settings true)) = 7.
Proof.
  split; [|by vm_compute]. apply (configured_maker_ok XRPUSDCConfig demo_settings true); [|by vm_compute..].
  intros s w Hin. apply list_elem_of_In in Hin. destruct Hin as [[= <- <-]|[[= <- <-]|[[= <- <-]|[]]]]; by vm_compute.
Defined.

End MakerSettings.
