(* ===== verification/PriceQtyArray.v ===== *)
(** * Price levels in doubles
      (src/hft/core/websocket/schema/price_qty_array.h: [PriceQtyArray], and the
       writer of [ScaledInt64])

    The other array of levels of the header: the same loop as the one in
    fixed point, with [std::from_chars] for the numbers.  A text that is no number
    leaves its zero.  The writer of doubles is a parameter.

    The theorem: on decimals, the array in doubles and the array in fixed point
    hold the same levels. *)

From Stdlib Require Import QArith Qabs Lqa.
From S2P Require Import Prelude Types FixedPoint Text LevelParser IniConfig Binary64 MakerSettings.

Module PriceQtyArray.
Import FixedPoint Text LevelParser Binary64.

(** [std::from_chars(start, end, value)]: no blanks and no plus sign are passed.
    [None]: no number, the value stays. *)
Definition from_chars (text : list Z) : option Q :=
  match text with
  | c :: rest =>
      if c =? chr_minus then q ← MakerSettings.read_unsigned rest; Some (Qopp (rnd q))
      else rnd <$> MakerSettings.read_unsigned text
  | [] => None
  end.

Definition convert_double (price qty : list Z) : option (Q * Q) :=
  Some (default 0%Q (from_chars price), default 0%Q (from_chars qty)).

(** [from<JSON, PriceQtyArray>::op] *)
Definition read_double_levels : list Z -> Outcome (list (Q * Q)) := read_array convert_double.

(** The writer of arrays of doubles. *)
Section Writer.
Variable write_chars : Q -> list Z.

Definition write_double_entry (entry : Q * Q) : list Z :=
  [chr_open; chr_quote] ++ write_chars entry.1 ++ [chr_quote; chr_comma; chr_quote]
  ++ write_chars entry.2 ++ [chr_quote; chr_close].

Fixpoint write_double_entries (first : bool) (data : list (Q * Q)) : list Z :=
  match data with
  | [] => []
  | entry :: data' =>
      (if first then [] else [chr_comma]) ++ write_double_entry entry ++ write_double_entries false data'
  end.

(** [to<JSON, PriceQtyArray>::op] *)
Definition write_double_levels (data : list (Q * Q)) : list Z :=
  [chr_open] ++ write_double_entries true data ++ [chr_close].
End Writer.

(** [to<JSON, ScaledInt64<Scale>>::op] *)
Definition write_scaled (value : Z) : list Z := [chr_quote] ++ write_int value ++ [chr_quote].

(** ** One decimal, two readers *)

(** [text] is a decimal of [v] units of [10^-n]. *)
Definition decimal_units (n : nat) (text : list Z) (v : Z) : Prop :=
  exists d1 d2, text = d1 ++ 46 :: d2 /\ digits d1 /\ digits d2 /\ d1 <> [] /\ (length d2 <= n)%nat /\ (length d2 <= 10)%nat /\
    v = digits_value (d1 ++ d2) * 10 ^ (Z.of_nat n - Z.of_nat (length d2)) /\ v <= kExactRange.

Lemma decimal_fold d m k b :
  digits d ->
  fold_left decimal_step d (mkDecimal m k b) =
  mkDecimal (fold_left (fun val c => val * 10 + (c - chr_0)) d m) (if b then k + zlen d else k) b.
Proof.
  intros Hd. revert m k. induction Hd as [|c d Hc Hd IH]; intros m k.
  - cbn. destruct b; [by rewrite Z.add_0_r | done].
  - cbn [fold_left]. unfold decimal_step at 2. cbn [dc_mantissa dc_frac_digits dc_in_frac].
    rewrite (proj2 (Z.leb_le chr_0 c)), (proj2 (Z.leb_le c chr_9)) by lia. cbn [andb]. rewrite IH. f_equal.
    rewrite zlen_cons. destruct b; lia.
Qed.

Lemma scaled_reads_decimal n text v :
  decimal_units n text v -> parse_quoted_decimal_to_int (pow10 n) text = Some v.
Proof.
  intros (d1 & d2 & -> & H1 & H2 & Hne & Hn & H10 & -> & _). unfold parse_quoted_decimal_to_int.
  rewrite fold_left_app, decimal_fold by done. cbn [fold_left]. unfold decimal_step at 2. cbn. rewrite decimal_fold by done.
  cbn [dc_mantissa dc_frac_digits]. rewrite Z.add_0_l. unfold digits_value. rewrite fold_left_app.
  set (m := fold_left _ d2 _). rewrite pow10_eq. unfold zlen. destruct (Z.eqb_spec (Z.of_nat (length d2)) 0) as [E|E].
  - rewrite E, Z.sub_0_r. done.
  - rewrite power_of_10_spec. case_decide; [|lia]. cbn [mbind option_bind]. rewrite pow10_eq.
    assert (Hsplit : 10 ^ Z.of_nat n = 10 ^ (Z.of_nat n - Z.of_nat (length d2)) * 10 ^ Z.of_nat (length d2))
      by (rewrite <-Z.pow_add_r by lia; f_equal; lia).
    assert (0 < 10 ^ Z.of_nat (length d2)) by (apply Z.pow_pos_nonneg; lia).
    assert (0 < 10 ^ (Z.of_nat n - Z.of_nat (length d2))) by (apply Z.pow_pos_nonneg; lia).
    rewrite (proj2 (Z.leb_le _ _)) by nia. rewrite Hsplit, Z.quot_mul by lia. done.
Qed.

Lemma digits_value_nonneg d : digits d -> 0 <= digits_value d.
Proof. intros Hd. apply fold_digits_ge; [done | lia]. Qed.

Lemma double_reads_decimal n text v :
  decimal_units n text v -> exists q, from_chars text = Some q /\ from_double (pow10 n) q = v.
Proof.
  intros (d1 & d2 & -> & H1 & H2 & Hne & Hn & _ & Hv & Hb).
  pose proof (MakerSettings.read_unsigned_decimal d1 d2 [] H1 H2 Hne eq_refl eq_refl) as Hr. rewrite app_nil_r in Hr.
  exists (rnd (MakerSettings.decimal_value d1 d2 0)). split.
  - destruct d1 as [|c d1]; [done|]. cbn [app from_chars] in *. apply Forall_cons in H1 as [Hc _].
    rewrite (proj2 (Z.eqb_neq c chr_minus)) by (unfold chr_0, chr_minus in *; lia). by rewrite Hr.
  - assert (Hs : (MakerSettings.decimal_value d1 d2 0 * inject_Z (10 ^ Z.of_nat n) == inject_Z v)%Q)
      by (rewrite Hv; by apply MakerSettings.decimal_value_scaled).
    assert (Hp : 0 < 10 ^ Z.of_nat n) by (apply Z.pow_pos_nonneg; lia). rewrite pow10_eq.
    assert (Hq : (MakerSettings.decimal_value d1 d2 0 == inject_Z v / inject_Z (10 ^ Z.of_nat n))%Q).
    { rewrite <-Hs. field. unfold Qeq, inject_Z. simpl. lia. }
    assert (0 <= v) by (rewrite Hv; apply Z.mul_nonneg_nonneg; [apply digits_value_nonneg; by apply Forall_app | apply Z.pow_nonneg; lia]).
    rewrite Hq. apply from_double_decimal; lia.
Qed.

Lemma decimal_unquoted n text v : decimal_units n text v -> chr_quote ∉ text.
Proof.
  intros (d1 & d2 & -> & H1 & H2 & _). rewrite elem_of_app, elem_of_cons. unfold digits in *. rewrite !Forall_forall in *.
  unfold chr_quote, chr_0, chr_9 in *. intros [H|[H|H]]; [apply H1 in H; lia | done | apply H2 in H; lia].
Qed.

(** C35: the two readers of price levels agree.  On an array of decimals that the
    scales can represent, whatever follows it, the reader in doubles and the reader in
    fixed point return the same levels in the same order: the fixed-point values are
    those of the doubles. *)
Theorem level_readers_agree n m texts rest :
  Forall (fun text => (exists v, decimal_units n text.1 v) /\ exists w, decimal_units m text.2 w) texts ->
  exists doubles, read_double_levels (render_levels texts ++ rest) = Done doubles /\
    length doubles = length texts /\
    read_levels (pow10 n) (pow10 m) (render_levels texts ++ rest) =
    Done ((fun level => (from_double (pow10 n) level.1, from_double (pow10 m) level.2)) <$> doubles).
Proof.
  intros Hall. exists ((fun text => (default 0%Q (from_chars text.1), default 0%Q (from_chars text.2))) <$> texts).
  assert (Hu : Forall unquoted texts).
  { eapply Forall_impl; [exact Hall|]. intros text [[v Hv] [w Hw]]. split; by eapply decimal_unquoted. }
  split; [|split; [by rewrite length_fmap|]].
  - apply read_array_render; [done|]. apply Forall2_fmap_r, Forall_Forall2_diag, Forall_true. done.
  - apply read_rendered_levels; [done|]. rewrite <-list_fmap_compose. apply Forall2_fmap_r, Forall_Forall2_diag.
    eapply Forall_impl; [exact Hall|]. intros text [[v Hv] [w Hw]]. unfold level_value. cbn.
    destruct (double_reads_decimal _ _ _ Hv) as (q1 & E1 & F1). destruct (double_reads_decimal _ _ _ Hw) as (q2 & E2 & F2).
    rewrite E1, E2. unfold default. cbn. rewrite F1, F2. split; by apply scaled_reads_decimal.
Qed.

Lemma level_readers_agree_witness :
  let input := render_levels [(codes "90558.30", codes "0.250"); (codes "90558.2", codes "12.")] ++ codes ",1" in
  exists doubles, read_double_levels input = Done doubles /\ length doubles = 2%nat /\
    read_levels (pow10 2) (pow10 3) input =
    Done ((fun level => (from_double (pow10 2) level.1, from_double (pow10 3) level.2)) <$> doubles).
Proof.
  intros input. apply (level_readers_agree 2 3 [(codes "90558.30", codes "0.250"); (codes "90558.2", codes "12.")] (codes ",1")).
  assert (Hd : forall n d1 d2, digits d1 -> digits d2 -> d1 <> [] -> (length d2 <= n)%nat -> (length d2 <= 10)%nat ->
    digits_value (d1 ++ d2) * 10 ^ (Z.of_nat n - Z.of_nat (length d2)) <= kExactRange -> exists v, decimal_units n (d1 ++ 46 :: d2) v).
  { intros n d1 d2 ? ? ? ? ? Hv. eexists. exists d1, d2. by repeat split. }
  repeat constructor; cbn [fst snd];
    [apply (Hd 2%nat (codes "90558") (codes "30")) | apply (Hd 3%nat (codes "0") (codes "250"))
    |apply (Hd 2%nat (codes "90558") (codes "2")) | apply (Hd 3%nat (codes "12") [])];
    try (refine (bool_decide_unpack (Forall _ _) _); vm_compute; exact I); try done; cbn; lia.
Defined.

End PriceQtyArray.
