(* ===== verification/Instruments.v ===== *)
(** * Lists of instruments
      (src/hft/core/websocket/market_data/exchanges/binance/futures/binance_futures_exchange_info_fetcher.h,
       the visitors [InstrumentInfoVisitor] and [RejectVisitor] of
       binance_spot_domain_converter.h and binance_future_domain_converter.hpp,
       src/hft/core/http/http_client.cpp, and [on_instrument_info] of
       src/hft/src/trade_engine.hpp)

    The way of the lot sizes from the exchange to the venue policy.  A futures
    build asks over HTTP, in a thread that the login starts; a spot build gets a
    message on the stream.  The transfer of curl and the JSON reader are
    parameters.  [std::strtod] reads what the reader of settings reads. *)

From Stdlib Require Import QArith Qabs Lqa.
From S2P Require Import Prelude Types FixedPoint Text OnepassDecoder Binary64 IniConfig LayerBook QuoteReconciler OrderManager FuturesFeed SpotFeed FixFeed MakerSettings.

Module Instruments.
Import Text Binary64 FixFeed.

(** ** The answer of the exchange *)

Record SymbolFilter := mkFilter {
  filter_type : list Z;
  tick_size : option (list Z);
  min_qty : option (list Z); max_qty : option (list Z); step_size : option (list Z);
}.

Record SymbolInfo := mkSymbolInfo { si_symbol : list Z; quote_asset : list Z; filters : list SymbolFilter }.

(** ** Conversion *)

Definition strtod : list Z -> option Q := MakerSettings.stod.

Definition parse_or_default (str : option (list Z)) (default_value : Q) : Q :=
  match str with
  | None | Some [] => default_value
  | Some text => default default_value (strtod text)
  end.

(** The three pointers of the loop over the filters. *)
Record Picked := mkPicked {
  lot_filter : option SymbolFilter; mlot_filter : option SymbolFilter; price_filter : option SymbolFilter;
}.

Definition pick (p : Picked) (f : SymbolFilter) : Picked :=
  if bool_decide (filter_type f = codes "LOT_SIZE") then mkPicked (Some f) (mlot_filter p) (price_filter p)
  else if bool_decide (filter_type f = codes "MARKET_LOT_SIZE") then mkPicked (lot_filter p) (Some f) (price_filter p)
  else if bool_decide (filter_type f = codes "PRICE_FILTER") then mkPicked (lot_filter p) (mlot_filter p) (Some f)
  else p.

Definition pick_filters (fs : list SymbolFilter) : Picked := foldl pick (mkPicked None None None) fs.

(** The literal 0.00001. *)
Definition kTickSize : Q := rnd (1 # 100000).

(** The body of the loop over the symbols. *)
Definition related_of (sym : SymbolInfo) : RelatedSymT :=
  let p := pick_filters (filters sym) in
  let '(min_vol, max_vol, increment) :=
    match lot_filter p with
    | Some f => (parse_or_default (min_qty f) 0, parse_or_default (max_qty f) 0, parse_or_default (step_size f) 0)
    | None => (0%Q, 0%Q, 0%Q)
    end in
  let '(market_min, market_max, market_increment) :=
    match mlot_filter p with
    | Some f => (parse_or_default (min_qty f) min_vol, parse_or_default (max_qty f) max_vol,
                 parse_or_default (step_size f) increment)
    | None => (min_vol, max_vol, increment)
    end in
  let tick := match price_filter p with Some f => parse_or_default (tick_size f) kTickSize | None => 0%Q end in
  mkRelatedSym (si_symbol sym) (quote_asset sym) min_vol max_vol increment market_min market_max market_increment tick.

Definition InstrumentInfo_default : InstrumentInfo := mkInstrumentInfo [] 0 [].

(** ** The visitors *)

(** [schema::ExchangeInfoResponse]: the id and the symbols of the result. *)
Record ExchangeInfoResponse := mkExchangeInfo { ei_id : list Z; ei_symbols : list SymbolInfo }.

(** The two error fields of an [ApiResponse]. *)
Record ErrorResponse := mkError { code : Z; message : list Z }.
Record ApiResponse := mkApiResponse { api_error : option ErrorResponse }.

Definition spot_instrument_info (msg : SpotFeed.WireMessage ApiResponse ExchangeInfoResponse) : InstrumentInfo :=
  match msg with
  | SpotFeed.ExchangeInfo payload =>
      mkInstrumentInfo (ei_id payload) (i32 (zlen (ei_symbols payload))) (related_of <$> ei_symbols payload)
  | _ => InstrumentInfo_default
  end.

(** [schema::futures::ExchangeInfoHttpResponse] is the list of symbols. *)
Definition futures_instrument_info (msg : Onepass.WireMessage ApiResponse (list SymbolInfo)) : InstrumentInfo :=
  match msg with
  | Onepass.ExchangeInfo symbols =>
      mkInstrumentInfo (codes "futures_http") (i32 (zlen symbols)) (related_of <$> symbols)
  | _ => InstrumentInfo_default
  end.

Definition reject_of (msg : ApiResponse) : MarketDataReject :=
  match api_error msg with
  | Some e => mkReject (message e) 0 (message e) (code e)
  | None => mkReject [] 0 [] 0
  end.

Definition spot_reject (msg : SpotFeed.WireMessage ApiResponse ExchangeInfoResponse) : MarketDataReject :=
  match msg with SpotFeed.ApiResponse r => reject_of r | _ => mkReject [] 0 [] 0 end.

Definition futures_reject (msg : Onepass.WireMessage ApiResponse (list SymbolInfo)) : MarketDataReject :=
  match msg with Onepass.ApiResponse r => reject_of r | _ => mkReject [] 0 [] 0 end.

(** ** The HTTP client *)

Definition kOk : Z := 200.
Definition kMultipleChoices : Z := 300.

Record HttpResponse := mkResponse { status_code : Z; body : list Z; error : list Z }.

Definition ok (r : HttpResponse) : bool := (kOk <=? status_code r) && (status_code r <? kMultipleChoices).

(** The options that a request sets on the handle. *)
Record Options := mkOptions {
  o_url : list Z; o_timeout_ms : Z; o_connect_timeout_ms : Z;
  o_post : bool; o_customrequest : option (list Z); o_postfields : option (list Z); o_httpheader : list (list Z);
}.

(** [curl] is null when [curl_easy_init] failed. *)
Record Impl := mkImpl { curl : bool; timeout_ms : Z; connect_timeout_ms : Z }.

Definition kDefaultTimeoutMs : Z := 30000.
Definition kDefaultConnectTimeoutMs : Z := 10000.
Definition new_client (init : bool) : Impl := mkImpl init kDefaultTimeoutMs kDefaultConnectTimeoutMs.
Definition set_timeout (ms : Z) (c : Impl) : Impl := mkImpl (curl c) ms (connect_timeout_ms c).
Definition set_connect_timeout (ms : Z) (c : Impl) : Impl := mkImpl (curl c) (timeout_ms c) ms.

(** What a callee sees of [text.c_str()]. *)
Fixpoint c_str (text : list Z) : list Z :=
  match text with
  | [] => []
  | c :: rest => if c =? 0 then [] else c :: c_str rest
  end.

Definition request_options (url method body : list Z) (headers : list (list Z)) (c : Impl) : Options :=
  let '(post, customrequest, postfields) :=
    if bool_decide (method = codes "POST") then (true, None, Some body)
    else if bool_decide (method = codes "PUT") then
      (false, Some (codes "PUT"), if bool_decide (body = []) then None else Some body)
    else if bool_decide (method = codes "DELETE") then (false, Some (codes "DELETE"), None)
    else (false, None, None) in
  mkOptions (c_str url) (timeout_ms c) (connect_timeout_ms c) post customrequest postfields (c_str <$> headers).

(** [write_callback]: the body so far and a block of [size * nmemb] bytes. *)
Definition write_callback (block output : list Z) : Z * list Z := (zlen block, output ++ block).

(** What a transfer does: the blocks it hands to the callback, then the status,
    or the text of its error. *)
Inductive Transfer := Done (blocks : list (list Z)) (status : Z) | Failed (blocks : list (list Z)) (error : list Z).

Section Client.
Variable curl_easy_perform : Options -> Transfer.

Definition perform_request (url method body : list Z) (headers : list (list Z)) (c : Impl) : HttpResponse :=
  if negb (curl c) then mkResponse 0 [] (codes "Failed to initialize CURL")
  else
    match curl_easy_perform (request_options url method body headers c) with
    | Failed _ error => mkResponse 0 [] error
    | Done blocks status => mkResponse status (foldl (fun output block => (write_callback block output).2) [] blocks) []
    end.

Definition http_get (url : list Z) (headers : list (list Z)) (c : Impl) : HttpResponse :=
  perform_request url (codes "GET") [] headers c.
Definition http_post (url body : list Z) (headers : list (list Z)) (c : Impl) : HttpResponse :=
  perform_request url (codes "POST") body headers c.
Definition http_put (url body : list Z) (headers : list (list Z)) (c : Impl) : HttpResponse :=
  perform_request url (codes "PUT") body headers c.
Definition http_del (url : list Z) (headers : list (list Z)) (c : Impl) : HttpResponse :=
  perform_request url (codes "DELETE") [] headers c.

(** ** The fetcher *)

Variable read_json : list Z -> option (list SymbolInfo).

Definition kBaseUrl : list Z := codes "https://fapi.binance.com/fapi/v1/exchangeInfo".

Definition exchange_info_url (symbol : list Z) : list Z :=
  match symbol with [] => kBaseUrl | _ => kBaseUrl ++ codes "?symbol=" ++ symbol end.

(** The loop with its [continue]. *)
Fixpoint convert_symbols (filter_symbol : list Z) (symbols : list SymbolInfo) (out : list RelatedSymT) : list RelatedSymT :=
  match symbols with
  | [] => out
  | sym :: symbols =>
      if negb (bool_decide (filter_symbol = [])) && negb (bool_decide (si_symbol sym = filter_symbol))
      then convert_symbols filter_symbol symbols out
      else convert_symbols filter_symbol symbols (out ++ [related_of sym])
  end.

Definition convert_to_instrument_info (symbols : list SymbolInfo) (filter_symbol : list Z) : InstrumentInfo :=
  let kept := convert_symbols filter_symbol symbols [] in
  mkInstrumentInfo (codes "futures_http") (i32 (zlen kept)) kept.

(** [init] is whether the handle of the fetch could be made. *)
Definition fetch (init : bool) (symbol : list Z) : option InstrumentInfo :=
  let response := http_get (exchange_info_url symbol) [] (new_client init) in
  if negb (ok response) then None
  else
    exchange_info ← read_json (body response);
    Some (convert_to_instrument_info exchange_info symbol).

(** ** The engine *)

(** [qty_increment_] of the trade engine, and its order manager. *)
Record Engine := mkEngine { qty_increment_ : Q; order_manager_ : OrderManager.OM }.

Definition kQtyDefault : Q := rnd (1 # 100000).

Section Venue.
Variable cfg : FixedPointConfig.
(** [INI_CONFIG.get("meta", "ticker")] *)
Variable target_ticker : list Z.

(** The symbols as the order manager reads them:
    [static_cast<int64_t>(min_qty_increment * kQtyScale)]. *)
Definition venue_symbols (info : InstrumentInfo) : list (string * Z) :=
  (fun sym => (FuturesFeed.of_codes (symbol sym), cast_scaled (kQtyScale cfg) (min_qty_increment sym))) <$> symbols info.

Definition on_instrument_info (info : InstrumentInfo) (t : Engine) : Engine :=
  if bool_decide (symbols info = []) then t
  else
    let increment :=
      match List.find (fun sym => String.eqb (FuturesFeed.of_codes (symbol sym)) (FuturesFeed.of_codes target_ticker)) (symbols info) with
      | Some sym => min_qty_increment sym
      | None => qty_increment_ t
      end in
    mkEngine increment (OrderManager.on_instrument_info (FuturesFeed.of_codes target_ticker) (venue_symbols info) (order_manager_ t)).

(** The thread that the login of a futures build starts. *)
Definition fetch_on_login (init : bool) (t : Engine) : Engine :=
  match fetch init target_ticker with
  | Some info => on_instrument_info info t
  | None => t
  end.

(** The handler of "y" in a spot build. *)
Definition on_instrument_list (msg : SpotFeed.WireMessage ApiResponse ExchangeInfoResponse) : Engine -> Engine :=
  on_instrument_info (spot_instrument_info msg).

(** Whether the handler of "3" stops the application. *)
Definition reject_stops (r : MarketDataReject) : bool := bool_decide (session_reject_reason r = codes "A").

End Venue.
End Client.

(** ** The filters of a symbol *)

Lemma pick_lot p f : filter_type f = codes "LOT_SIZE" -> lot_filter (pick p f) = Some f.
Proof. intros Hf. unfold pick. by rewrite bool_decide_eq_true_2. Qed.

Lemma pick_keeps_lot p f : filter_type f <> codes "LOT_SIZE" -> lot_filter (pick p f) = lot_filter p.
Proof. intros Hf. unfold pick. rewrite bool_decide_eq_false_2 by done. by repeat case_bool_decide. Qed.

Lemma foldl_keeps_lot fs p :
  Forall (fun f => filter_type f <> codes "LOT_SIZE") fs -> lot_filter (foldl pick p fs) = lot_filter p.
Proof. intros Hfs. revert p. induction Hfs; intros p; [done|]. cbn [foldl]. by rewrite IHHfs, pick_keeps_lot. Qed.

(** [text] is the step of the last filter of lot sizes. *)
Definition has_step (sym : SymbolInfo) (text : list Z) : Prop :=
  exists fs1 f fs2, filters sym = fs1 ++ f :: fs2 /\ filter_type f = codes "LOT_SIZE" /\
    Forall (fun g => filter_type g <> codes "LOT_SIZE") fs2 /\ step_size f = Some text.

Lemma has_step_increment sym text :
  has_step sym text -> min_qty_increment (related_of sym) = parse_or_default (Some text) 0.
Proof.
  intros (fs1 & f & fs2 & Hfs & Hf & H2 & Hs). unfold related_of.
  assert (E : lot_filter (pick_filters (filters sym)) = Some f).
  { unfold pick_filters. rewrite Hfs, foldl_app. cbn [foldl]. by rewrite foldl_keeps_lot, pick_lot. }
  rewrite E, Hs. by destruct (mlot_filter _), (price_filter _).
Qed.

Lemma no_lot_increment sym :
  Forall (fun g => filter_type g <> codes "LOT_SIZE") (filters sym) -> min_qty_increment (related_of sym) = 0%Q.
Proof.
  intros Hfs. unfold related_of, pick_filters. rewrite foldl_keeps_lot by done. by destruct (mlot_filter _), (price_filter _).
Qed.

(** The text of a step of [v] units of the scale, whatever its padding. *)
Definition step_text (scale : Z) (text : list Z) (v : Z) : Prop :=
  exists d1 d2 rest, text = d1 ++ 46 :: d2 ++ rest /\ digits d1 /\ digits d2 /\ d1 <> [] /\
    IniConfig.leading_digits rest = [] /\ MakerSettings.read_exponent rest = 0 /\
    digits_value (d1 ++ d2) * scale = v * 10 ^ Z.of_nat (length d2).

Lemma decimal_value_units d1 d2 scale v :
  digits_value (d1 ++ d2) * scale = v * 10 ^ Z.of_nat (length d2) ->
  (MakerSettings.decimal_value d1 d2 0 * inject_Z scale == inject_Z v)%Q.
Proof.
  unfold MakerSettings.decimal_value, zlen. set (n := digits_value _). set (m := Z.of_nat (length d2)). intros E.
  destruct (Z.leb_spec 0 (0 - m)).
  - assert (Hm : m = 0) by lia. rewrite Hm in *. unfold Qeq. cbn. lia.
  - replace (- (0 - m)) with m by lia. unfold Qeq. cbn [Qnum Qden Qmult inject_Z].
    rewrite Pos.mul_1_r, Z2Pos.id by (apply Z.pow_pos_nonneg; lia). lia.
Qed.

Lemma step_text_cast scale text v :
  step_text scale text v -> 0 < scale -> 0 < v <= kExactRange ->
  let raw := cast_scaled scale (parse_or_default (Some text) 0) in raw = v \/ raw = v - 1.
Proof.
  intros (d1 & d2 & rest & -> & H1 & H2 & Hne & Hr & He & Hv) Hs Hb. unfold parse_or_default, strtod.
  rewrite MakerSettings.stod_decimal by done. destruct d1 as [|c d1]; [done|]. cbn [app default].
  apply cast_scaled_near; [done | done | by apply decimal_value_units].
Qed.

(** The steps of the exchange are powers of ten [10 ^ e], written without a point
    ("1", "10") or with one and [pad] zeros at the end ("1.00", "0.00100000"). *)
Definition power_step (e : Z) (pad : option nat) : list Z :=
  if 0 <=? e
  then [49] ++ replicate (Z.to_nat e) 48 ++ match pad with Some pad => 46 :: replicate pad 48 | None => [] end
  else [48; 46] ++ replicate (Z.to_nat (- e - 1)) 48 ++ [49] ++ replicate (default 0%nat pad) 48.

(** [10 ^ e] in units of a scale of [k] digits; a step below one unit has none. *)
Definition step_units (k e : Z) : Z := if 0 <=? k + e then 10 ^ (k + e) else 0.

Definition power_step_cast (e : Z) (pad : option nat) (k : Z) : Prop :=
  cast_scaled (10 ^ k) (parse_or_default (Some (power_step e pad)) 0) = step_units k e.
#[export] Instance power_step_cast_dec e pad k : Decision (power_step_cast e pad k) := Z.eq_dec _ _.

Lemma power_steps_checked :
  Forall (fun e => Forall (fun k => Forall (fun pad => power_step_cast e pad k) (None :: (Some <$> seq 0 9)))
    (seqZ 0 9)) (seqZ (-8) 15).
Proof. refine (bool_decide_unpack _ _). vm_compute. exact I. Qed.

(** The steps the exchange uses arrive exactly: a power of ten between 10^-8 and
    10^6, with or without a point and up to eight zeros of padding, at every scale
    of up to eight digits; a step that is finer than the scale arrives as zero. *)
Theorem power_step_exact e pad k :
  -8 <= e <= 6 -> 0 <= k <= 8 -> (default 0 pad <= 8)%nat -> power_step_cast e pad k.
Proof.
  intros He Hk Hp. pose proof power_steps_checked as H. rewrite Forall_forall in H.
  specialize (H e ltac:(apply elem_of_seqZ; lia)). rewrite Forall_forall in H.
  specialize (H k ltac:(apply elem_of_seqZ; lia)). rewrite Forall_forall in H. apply H.
  destruct pad as [pad|]; [|left]. right. apply list_elem_of_fmap. exists pad. split; [done|].
  apply elem_of_seq. cbn in Hp. lia.
Qed.

Lemma power_step_exact_witness : power_step_cast (-3) (Some 5%nat) 5 /\ power_step_cast 0 None 3.
Proof. split; apply power_step_exact; cbn; lia. Defined.

(** ** The fetch *)

Definition wanted (filter_symbol : list Z) (sym : SymbolInfo) : Prop := filter_symbol = [] \/ si_symbol sym = filter_symbol.
#[export] Instance wanted_dec s sym : Decision (wanted s sym) := or_dec _ _.

Lemma convert_symbols_filter s syms out : convert_symbols s syms out = out ++ (related_of <$> filter (wanted s) syms).
Proof.
  revert out. induction syms as [|sym syms IH]; intros out; [by rewrite app_nil_r|]. cbn [convert_symbols].
  rewrite filter_cons, !IH. unfold wanted. repeat case_bool_decide; destruct (decide _); try tauto; simpl; by rewrite <-?app_assoc.
Qed.

Lemma written_body blocks out :
  foldl (fun output block => (write_callback block output).2) out blocks = out ++ concat blocks.
Proof.
  revert out. induction blocks as [|b bs IH]; intros out; [by rewrite app_nil_r|]. cbn [foldl]. rewrite IH. cbn. by rewrite <-app_assoc.
Qed.

(** The one request of a fetch. *)
Definition fetch_options (symbol : list Z) : Options :=
  mkOptions (c_str (exchange_info_url symbol)) kDefaultTimeoutMs kDefaultConnectTimeoutMs false None None [].

Section Fetch.
Variable curl_easy_perform : Options -> Transfer.
Variable read_json : list Z -> option (list SymbolInfo).

Lemma fetch_eq symbol :
  fetch curl_easy_perform read_json true symbol =
  match curl_easy_perform (fetch_options symbol) with
  | Done blocks status =>
      if (kOk <=? status) && (status <? kMultipleChoices) then
        syms ← read_json (concat blocks); Some (convert_to_instrument_info syms symbol)
      else None
  | Failed _ _ => None
  end.
Proof.
  unfold fetch, http_get, perform_request. cbn [negb curl new_client].
  change (request_options _ _ _ _ _) with (fetch_options symbol).
  destruct (curl_easy_perform _) as [blocks status|]; [|done]. rewrite written_body. unfold ok. cbn [status_code body app].
  by destruct ((kOk <=? status) && _).
Qed.

(** The fetch of one symbol over HTTP gives what the converter of the stream
    makes of the answer without the other symbols: whatever the blocks the body
    arrives in, one request is made, and a fetch without a symbol keeps them all. *)
Theorem fetch_is_converter symbol blocks status syms :
  curl_easy_perform (fetch_options symbol) = Done blocks status -> kOk <= status < kMultipleChoices ->
  read_json (concat blocks) = Some syms ->
  fetch curl_easy_perform read_json true symbol =
  Some (futures_instrument_info (Onepass.ExchangeInfo (filter (wanted symbol) syms))).
Proof.
  intros Hc Hs Hr. rewrite fetch_eq, Hc, Hr. rewrite (proj2 (Z.leb_le _ _)), (proj2 (Z.ltb_lt _ _)) by lia. cbn.
  unfold convert_to_instrument_info. rewrite convert_symbols_filter. cbn [app]. f_equal. f_equal.
  unfold zlen. by rewrite length_fmap.
Qed.

(** C39: the fetch fails exactly when no handle could be made, the transfer failed,
    the status is not one of success, or the body is not the document; the login
    then leaves the engine as it is. *)
Theorem fetch_fails_when init symbol cfg t :
  (fetch curl_easy_perform read_json init symbol = None <->
   init = false \/
   match curl_easy_perform (fetch_options symbol) with
   | Done blocks status => ~ (kOk <= status < kMultipleChoices) \/ read_json (concat blocks) = None
   | Failed _ _ => True
   end) /\
  (fetch curl_easy_perform read_json init symbol = None ->
   fetch_on_login curl_easy_perform read_json cfg symbol init t = t).
Proof.
  split; [|intros E; unfold fetch_on_login; by rewrite E].
  destruct init; [|split; [by left | done]]. rewrite fetch_eq.
  destruct (curl_easy_perform _) as [blocks status|]; [|split; [by right | done]].
  destruct (Z.leb_spec kOk status), (Z.ltb_spec status kMultipleChoices); cbn [andb]; try (split; [right; left; lia | done]).
  destruct (read_json (concat blocks)); cbn; split; [done | intros [?|[?|?]]; [done | lia | done] | by right; right | done].
Qed.
End Fetch.

(** ** From the exchange to the venue policy *)

Lemma find_map {A B} (f : A -> B) (p : B -> bool) (l : list A) :
  List.find p (f <$> l) = f <$> List.find (fun a => p (f a)) l.
Proof. induction l as [|a l IH]; [done|]. cbn. by destruct (p (f a)). Qed.

Lemma related_symbol_name sym : symbol (related_of sym) = si_symbol sym.
Proof. unfold related_of. by destruct (lot_filter _), (mlot_filter _). Qed.

(** The first symbol of the answer that has the name. *)
Definition listed (ticker : list Z) (syms : list SymbolInfo) (sym : SymbolInfo) : Prop :=
  List.find (fun s => bool_decide (si_symbol s = ticker)) syms = Some sym.

(** A name of characters. *)
Definition chars (text : list Z) : Prop := Forall (fun c => 0 <= c <= 255) text.

Lemma of_codes_inj a b : chars a -> chars b -> FuturesFeed.of_codes a = FuturesFeed.of_codes b -> a = b.
Proof.
  unfold FuturesFeed.of_codes. intros Ha Hb E. apply (f_equal String.list_ascii_of_string) in E.
  rewrite !String.list_ascii_of_string_of_list_ascii in E. revert b Hb E.
  induction Ha as [|c a Hc Ha IH]; intros [|d b] Hb E; try done. apply Forall_cons in Hb as [Hd Hb].
  injection E as E1 E2. f_equal; [|by apply IH].
  apply (f_equal Ascii.N_of_ascii) in E1. rewrite !Ascii.N_ascii_embedding in E1 by lia. lia.
Qed.

Section Venue.
Variable cfg : FixedPointConfig.
Variable ticker : list Z.
Hypothesis Hticker : chars ticker.

Definition names_ok (syms : list SymbolInfo) : Prop := Forall (fun s => chars (si_symbol s)) syms.

Lemma find_named syms :
  names_ok syms ->
  List.find (fun s => String.eqb (FuturesFeed.of_codes (symbol (related_of s))) (FuturesFeed.of_codes ticker)) syms =
  List.find (fun s => bool_decide (si_symbol s = ticker)) syms.
Proof.
  induction 1 as [|s syms Hs Hsyms IH]; [done|]. cbn [List.find]. rewrite related_symbol_name, IH.
  case_bool_decide as E; [by rewrite E, String.eqb_refl|].
  destruct (String.eqb_spec (FuturesFeed.of_codes (si_symbol s)) (FuturesFeed.of_codes ticker)) as [E'|]; [|done].
  by apply of_codes_inj in E'.
Qed.

Definition set_increment (increment : Q) (t : Engine) : Engine :=
  mkEngine increment
    (OrderManager.set_venue
       (QuoteReconciler.set_qty_increment (cast_scaled (kQtyScale cfg) increment)
          (OrderManager.venue_policy_ (order_manager_ t))) (order_manager_ t)).

(** What a list of symbols does: the increment of the first one with the name of
    the ticker, in the engine and in the venue policy; nothing without one. *)
Lemma instrument_info_effect syms req n t :
  names_ok syms ->
  on_instrument_info cfg ticker (mkInstrumentInfo req n (related_of <$> syms)) t =
  match List.find (fun s => bool_decide (si_symbol s = ticker)) syms with
  | Some sym => set_increment (min_qty_increment (related_of sym)) t
  | None => t
  end.
Proof.
  intros Hn. unfold on_instrument_info, OrderManager.on_instrument_info, venue_symbols. cbn [symbols].
  rewrite !find_map. cbn [fst]. rewrite find_named by done.
  case_bool_decide as E; [by destruct syms|]. destruct t.
  by destruct (List.find _ syms).
Qed.

Lemma find_filter_wanted syms :
  ticker <> [] ->
  List.find (fun s => bool_decide (si_symbol s = ticker)) (filter (wanted ticker) syms) =
  List.find (fun s => bool_decide (si_symbol s = ticker)) syms.
Proof.
  intros Ht. induction syms as [|s syms IH]; [done|]. rewrite filter_cons. cbn [List.find].
  destruct (decide (wanted ticker s)) as [[?|E]|Hn]; [done | cbn [List.find]; by rewrite !bool_decide_eq_true_2 |].
  rewrite IH, bool_decide_eq_false_2; [done|]. intros E. apply Hn. by right.
Qed.

Lemma names_ok_filter syms : names_ok syms -> names_ok (filter (wanted ticker) syms).
Proof. intros H. apply Forall_forall. intros s [_ Hs]%list_elem_of_filter. by eapply Forall_forall in H. Qed.

Lemma find_absent l :
  Forall (fun s => si_symbol s <> ticker) l -> List.find (fun s => bool_decide (si_symbol s = ticker)) l = None.
Proof. induction 1; [done|]. cbn [List.find]. by rewrite bool_decide_eq_false_2. Qed.

Section Login.
Variable curl_easy_perform : Options -> Transfer.
Variable read_json : list Z -> option (list SymbolInfo).
Variables (blocks : list (list Z)) (status : Z) (syms : list SymbolInfo).
Hypothesis Hperform : curl_easy_perform (fetch_options ticker) = Done blocks status.
Hypothesis Hstatus : kOk <= status < kMultipleChoices.
Hypothesis Hread : read_json (concat blocks) = Some syms.
Hypothesis Hnamed : ticker <> [].
Hypothesis Hnames : names_ok syms.

Lemma login_effect t :
  fetch_on_login curl_easy_perform read_json cfg ticker true t =
  match List.find (fun s => bool_decide (si_symbol s = ticker)) syms with
  | Some sym => set_increment (min_qty_increment (related_of sym)) t
  | None => t
  end.
Proof.
  unfold fetch_on_login. rewrite fetch_eq, Hperform, Hread. rewrite (proj2 (Z.leb_le _ _)), (proj2 (Z.ltb_lt _ _)) by lia.
  cbn. unfold convert_to_instrument_info. rewrite convert_symbols_filter. cbn [app].
  rewrite instrument_info_effect by (by apply names_ok_filter). by rewrite find_filter_wanted.
Qed.

(** The lot size that the exchange lists for the ticker becomes the increment of
    the venue policy.  A step that is a whole number of units of the quantity scale,
    with or without padding, arrives as that number or as one unit less, and nothing
    else of the order manager changes; the list fetched over HTTP at the login of a
    futures build and the same list received on the stream of a spot build have the
    same effect. *)
Theorem listed_step_sets_increment sym text v id t :
  listed ticker syms sym -> has_step sym text -> step_text (kQtyScale cfg) text v -> 0 < kQtyScale cfg ->
  0 < v <= kExactRange ->
  let t' := fetch_on_login curl_easy_perform read_json cfg ticker true t in
  t' = on_instrument_list cfg ticker (SpotFeed.ExchangeInfo (mkExchangeInfo id syms)) t /\
  exists i, (i = v \/ i = v - 1) /\
    order_manager_ t' =
    OrderManager.set_venue (QuoteReconciler.set_qty_increment i (OrderManager.venue_policy_ (order_manager_ t)))
      (order_manager_ t).
Proof.
  intros Hl Hs Ht Hq Hv t'. subst t'. rewrite login_effect. split.
  - unfold on_instrument_list. cbn [spot_instrument_info ei_id ei_symbols]. by rewrite instrument_info_effect.
  - rewrite Hl, (has_step_increment _ _ Hs). eexists. split; [exact (step_text_cast _ _ _ Ht Hq Hv) | done].
Qed.

(** C38: the lot size that the exchange lists for the ticker is the increment of the
    venue policy, exactly.  For a step that is a power of ten between 10^-8 and 10^6,
    in any of the notations of the exchange ("1", "0.1", "0.00100000"), and a
    quantity scale of up to eight digits, the login of a futures build leaves the
    engine with the step in units of the scale, and changes nothing else of the
    order manager; the same list received on the stream of a spot build has the same
    effect.  A step below one unit of the scale becomes the increment zero, which
    [round_qty] divides by; no other of these steps does. *)
Theorem listed_power_step_exact sym e pad k id t :
  listed ticker syms sym -> has_step sym (power_step e pad) -> -8 <= e <= 6 -> (default 0 pad <= 8)%nat ->
  0 <= k <= 8 -> kQtyScale cfg = 10 ^ k ->
  let t' := fetch_on_login curl_easy_perform read_json cfg ticker true t in
  t' = on_instrument_list cfg ticker (SpotFeed.ExchangeInfo (mkExchangeInfo id syms)) t /\
  order_manager_ t' =
  OrderManager.set_venue
    (QuoteReconciler.set_qty_increment (step_units k e) (OrderManager.venue_policy_ (order_manager_ t)))
    (order_manager_ t) /\
  (step_units k e = 0 <-> k < - e).
Proof.
  intros Hl Hs He Hp Hk Hq t'. subst t'. rewrite login_effect. split_and!.
  - unfold on_instrument_list. cbn [spot_instrument_info ei_id ei_symbols]. by rewrite instrument_info_effect.
  - rewrite Hl, (has_step_increment _ _ Hs). unfold set_increment. cbn [order_manager_]. do 2 f_equal. rewrite Hq.
    exact (power_step_exact e pad k He Hk Hp).
  - unfold step_units. destruct (Z.leb_spec 0 (k + e)); [|lia].
    pose proof (Z.pow_pos_nonneg 10 (k + e) ltac:(lia) ltac:(lia)). lia.
Qed.

(** A ticker whose entry has no filter of lot sizes gets the increment zero, which
    [round_qty] divides by. *)
Theorem missing_lot_size_zero_increment sym t :
  listed ticker syms sym -> Forall (fun g => filter_type g <> codes "LOT_SIZE") (filters sym) ->
  QuoteReconciler.qty_increment_
    (OrderManager.venue_policy_ (order_manager_ (fetch_on_login curl_easy_perform read_json cfg ticker true t))) = 0.
Proof.
  intros Hl Hf. rewrite login_effect, Hl, no_lot_increment by done. by destruct t.
Qed.

(** A ticker that is not in the answer leaves the engine as it is. *)
Lemma unlisted_ticker_keeps t :
  Forall (fun s => si_symbol s <> ticker) syms -> fetch_on_login curl_easy_perform read_json cfg ticker true t = t.
Proof.
  intros Hs. by rewrite login_effect, find_absent.
Qed.
End Login.
End Venue.

(** ** A list of one symbol *)

Ltac checked := unfold names_ok, chars, digits; refine (bool_decide_unpack _ _); vm_compute; exact I.

Definition demo_filter : SymbolFilter :=
  mkFilter (codes "LOT_SIZE") None (Some (codes "0.001")) (Some (codes "1000")) (Some (codes "0.00100000")).
Definition demo_symbol : SymbolInfo := mkSymbolInfo (codes "BTCUSDT") (codes "USDT") [demo_filter].
Definition demo_bare_symbol : SymbolInfo := mkSymbolInfo (codes "BTCUSDT") (codes "USDT") [].
Definition demo_perform (o : Options) : Transfer := Done [codes "{"; codes "}"] 200.
Definition demo_read (sym : SymbolInfo) (text : list Z) : option (list SymbolInfo) :=
  if bool_decide (text = codes "{}") then Some [demo_symbol; sym] else None.
Definition demo_step (step : string) : SymbolInfo :=
  mkSymbolInfo (codes "BTCUSDT") (codes "USDT")
    [mkFilter (codes "LOT_SIZE") None (Some (codes "0.001")) (Some (codes "1000")) (Some (codes step))].
Definition demo_list (sym : SymbolInfo) (text : list Z) : option (list SymbolInfo) :=
  if bool_decide (text = codes "{}") then Some [sym] else None.
Definition demo_engine : Engine :=
  mkEngine kQtyDefault (OrderManager.new_order_manager "BTCUSDT" (QuoteReconciler.new_venue_policy XRPUSDCConfig 1 1 10 0) 1 1).

Lemma fetch_is_converter_witness :
  fetch demo_perform (demo_read demo_symbol) true (codes "BTCUSDT") =
  Some (futures_instrument_info (Onepass.ExchangeInfo (filter (wanted (codes "BTCUSDT")) [demo_symbol; demo_symbol]))).
Proof. apply (fetch_is_converter _ _ _ [codes "{"; codes "}"] 200); [done | done | reflexivity]. Defined.

Lemma fetch_fails_when_witness :
  fetch (fun _ => Failed [] (codes "timeout")) (demo_read demo_symbol) true (codes "BTCUSDT") = None /\
  fetch_on_login (fun _ => Failed [] (codes "timeout")) (demo_read demo_symbol) XRPUSDCConfig (codes "BTCUSDT") true demo_engine
  = demo_engine.
Proof.
  destruct (fetch_fails_when (fun _ => Failed [] (codes "timeout")) (demo_read demo_symbol) true (codes "BTCUSDT")
    XRPUSDCConfig demo_engine) as [Hfail Hkeep].
  assert (E := proj2 Hfail (or_intror I)). split; [exact E | exact (Hkeep E)].
Defined.

(** The three notations of the samples: "0.00100000" and "1" at a scale of a
    thousand, and "0.00001000", for which the scale is too coarse. *)
Lemma listed_power_step_exact_witness :
  let increment_of sym :=
    QuoteReconciler.qty_increment_ (OrderManager.venue_policy_ (order_manager_
      (fetch_on_login demo_perform (demo_list sym) XRPUSDCConfig (codes "BTCUSDT") true demo_engine))) in
  increment_of (demo_step "0.00100000") = 1 /\ increment_of (demo_step "1") = 1000 /\
  increment_of (demo_step "0.00001000") = 0.
Proof.
  assert (H : forall text e pad, codes text = power_step e pad -> -8 <= e <= 6 -> (default 0 pad <= 8)%nat ->
    QuoteReconciler.qty_increment_ (OrderManager.venue_policy_ (order_manager_
      (fetch_on_login demo_perform (demo_list (demo_step text)) XRPUSDCConfig (codes "BTCUSDT") true demo_engine))) =
    step_units 3 e).
  { intros text e pad Ht He Hp.
    destruct (listed_power_step_exact XRPUSDCConfig (codes "BTCUSDT") ltac:(checked) demo_perform (demo_list (demo_step text))
      [codes "{"; codes "}"] 200 [demo_step text] ltac:(done) ltac:(done) ltac:(done) ltac:(done)
      ltac:(constructor; [checked | constructor]) (demo_step text) e pad 3 [] demo_engine) as (_ & H & _);
      [reflexivity | | done | done | lia | done | by rewrite H].
    eexists [], _, []. split_and!; [reflexivity | reflexivity | constructor | by rewrite <-Ht]. }
  split_and!.
  - apply (H _ (-3) (Some 5%nat)); [reflexivity | lia | cbn; lia].
  - apply (H _ 0 None); [reflexivity | lia | cbn; lia].
  - apply (H _ (-5) (Some 3%nat)); [reflexivity | lia | cbn; lia].
Defined.

Lemma listed_step_sets_increment_witness :
  exists i, (i = 1 \/ i = 1 - 1) /\
    order_manager_ (fetch_on_login demo_perform (demo_read demo_symbol) XRPUSDCConfig (codes "BTCUSDT") true demo_engine) =
    OrderManager.set_venue (QuoteReconciler.set_qty_increment i (OrderManager.venue_policy_ (order_manager_ demo_engine)))
      (order_manager_ demo_engine).
Proof.
  refine (proj2 (listed_step_sets_increment XRPUSDCConfig (codes "BTCUSDT") _ demo_perform (demo_read demo_symbol)
    [codes "{"; codes "}"] 200 [demo_symbol; demo_symbol] _ _ _ _ _ demo_symbol (codes "0.00100000") 1 [] demo_engine
    _ _ _ _ _)); try done.
  - checked.
  - checked.
  - exists [], demo_filter, []. by repeat split.
  - exists [48], (codes "00100000"), []. repeat split; try done; checked.
Defined.

Lemma missing_lot_size_zero_increment_witness :
  QuoteReconciler.qty_increment_ (OrderManager.venue_policy_ (order_manager_
    (fetch_on_login demo_perform (fun _ => Some [demo_bare_symbol]) XRPUSDCConfig (codes "BTCUSDT") true demo_engine))) = 0.
Proof.
  apply (missing_lot_size_zero_increment XRPUSDCConfig (codes "BTCUSDT") ltac:(checked) demo_perform
    (fun _ => Some [demo_bare_symbol]) [codes "{"; codes "}"] 200 [demo_bare_symbol]
    ltac:(done) ltac:(done) ltac:(done) ltac:(done)
    ltac:(checked) demo_bare_symbol); [reflexivity | constructor].
Defined.

(** ** Routing *)

(** No message of a websocket build has the type of a rejection: the handler of "3"
    never runs, and the error of an API response is converted by nobody. *)
Theorem rejects_never_routed (s : SpotFeed.WireMessage ApiResponse ExchangeInfoResponse)
    (f : Onepass.WireMessage ApiResponse (list SymbolInfo)) :
  ~ (SpotFeed.get_dispatch_type s = Some "3"%string \/ FuturesFeed.get_dispatch_type f = Some "3"%string).
Proof. by intros [E|E]; [destruct s | destruct f]. Qed.

End Instruments.
