(* ===== verification/Startup.v ===== *)
(** * Starting and stopping the program
      (src/main.cpp; the constructors of src/hft/src/quote_reconciler.h,
       src/hft/src/order_manager.hpp and src/hft/src/inventory_manager.cpp;
       src/hft/src/inventory_model.h, src/hft/common/precision_config.hpp,
       src/hft/common/authorization.cpp)

    From a loaded configuration to the limits, policies and coefficients the
    components compute with, and the order in which [main] starts and stops them.
    What [main] does to a component is an event of its trace; whether the gateway
    is ready, and the signals, are arguments.  A failed allocation or constructor
    is an exception that [main] catches. *)

From Stdlib Require Import QArith Qabs Lqa.
From S2P Require Import Prelude Types FixedPoint Text IniConfig Binary64 Clock PositionKeeper RiskManager LayerBook QuoteReconciler OrderExpiry OrderManager FuturesFeed MakerSettings.

Module Startup.
Import Text IniConfig Binary64 RiskManager QuoteReconciler OrderManager.

(** ** Settings *)

Section Settings.
Variable cfg : FixedPointConfig.
Variable ini : Ini.

Definition text (section key : string) : list Z := get (codes section) (codes key) [] ini.
Definition text_or (section key : string) (def : list Z) : list Z := get (codes section) (codes key) def ini.
Definition int (section key : string) (def : Z) : Z := get_int (codes section) (codes key) def ini.
Definition int64 (section key : string) (def : Z) : Z := get_int64 (codes section) (codes key) def ini.
Definition number (section key : string) (def : Q) : Q := MakerSettings.get_double (codes section) (codes key) def ini.

Definition ticker : string := FuturesFeed.of_codes (text "meta" "ticker").

(** The limits: [QtyType::from_int64] multiplies by the scale. *)
Definition kPnlScale : Z := kPriceScale cfg * kQtyScale cfg.
Definition risk_cfg : RiskCfg :=
  mkRiskCfg (int64 "risk" "max_order_size" 0 * kQtyScale cfg) (int64 "risk" "max_position" 0 * kQtyScale cfg)
    (int64 "risk" "min_position" 0 * kQtyScale cfg) (int64 "risk" "max_loss" 0 * kPnlScale).

Definition config_map : gmap string RiskCfg := {[ ticker := risk_cfg ]}.

(** The members of the order manager. *)
Definition venue_policy : VenuePolicy :=
  new_venue_policy cfg (int64 "venue" "minimum_order_usdt" 0) (int64 "venue" "minimum_order_qty" 0)
    (int64 "venue" "maximum_order_qty" 0) (int64 "venue" "minimum_order_time_gap" 0).

(** [TickConverter]: [scale] and [inv] are doubles, zero when they are not set. *)
Record TickConverter := mkTicks { scale : Q; inv : Q; scale_int : Z }.

Definition kDiff : Q := rnd (1 # 1000000000000).
Definition is_tick (tick : Q) (digit : Z) : bool :=
  let d := rnd (rnd (tick * inject_Z (10 ^ digit)) - 1) in negb (Qle_bool kDiff (Qabs d)).

Fixpoint find_digit (tick : Q) (rounds : nat) (digit : Z) : option Z :=
  match rounds with
  | O => None
  | S rounds => if is_tick tick digit then Some digit else find_digit tick rounds (digit + 1)
  end.

Definition kDigitMax : Z := 9.
Definition new_tick_converter (tick : Q) : TickConverter :=
  match find_digit tick (Z.to_nat (kDigitMax + 1)) 0 with
  | Some digit => mkTicks (inject_Z (10 ^ digit)) 0 (scale_int_of (kPriceScale cfg) digit)
  | None => mkTicks 0 (rnd (1 / tick)) 0
  end.

(** The conversion of a double; [std::llround] rounds halves away from zero. *)
Definition llround (q : Q) : Z := if Qle_bool 0 q then trunc (q + (1 # 2)) else trunc (q - (1 # 2)).
Definition to_ticks (t : TickConverter) (price : Q) : Z :=
  if negb (Qle_bool (scale t) 0) then trunc (rnd (rnd (price * scale t) + (1 # 2)))
  else u64 (llround (rnd (price * inv t))).

(** [None]: a division by zero. *)
Definition ticks_of_raw (t : TickConverter) (price_raw : Z) : option Z :=
  if scale_int t =? 0 then None else Some (to_ticks_raw (scale_int t) price_raw).

Definition ticker_size : Q := number "meta" "ticker_size" 0.

Definition reconciler : Reconciler :=
  mkReconciler (cast_scaled (kQtyScale cfg) (number "orders" "min_replace_qty_delta" 0))
    (get_uint64_t (codes "orders") (codes "min_replace_tick_delta") 0 ini) (scale_int (new_tick_converter ticker_size)).

(** The lifetimes are read as doubles and converted to [uint64_t]. *)
Definition order_manager : option OM :=
  ttl_reserved ← Clock.to_uint64 (number "orders" "ttl_reserved_ns" 0);
  ttl_live ← Clock.to_uint64 (number "orders" "ttl_live_ns" 0);
  Some (new_order_manager ticker venue_policy ttl_reserved ttl_live).

(** The clock of the order manager; the interval is converted to [unsigned]. *)
Definition fast_clock (cycle epoch : Z) : option Clock.FastClock :=
  Clock.new_clock (number "cpu_info" "clock" 0) (u32 (int "cpu_info" "interval" 0)) cycle epoch.

(** ** The inventory model *)

(** [LinearSkewModel(double)] and [set_skew_coefficient(double)] *)
Definition skew_scaled (coefficient : Q) : Z := cast_scaled (kPriceScale cfg) coefficient.
(** [from_scaled]: the coefficient of the default model is replaced. *)
Definition from_scaled (scaled_coefficient : Z) : Z := scaled_coefficient.
(** [get_skew_coefficient()] *)
Definition skew_coefficient (scaled : Z) : Q := to_double (kPriceScale cfg) scaled.

Record InventoryManager := mkInventory { skew_coefficient_scaled_ : Z; target_position_ : Z }.

(** [kModelDefaultParameter] *)
Variable default_coefficient : Q.

Definition inventory_manager : InventoryManager :=
  mkInventory (skew_scaled (number "inventory" "skew_coefficient" default_coefficient))
    (cast_scaled (kQtyScale cfg) (number "inventory" "target_position" 0)).

Definition set_skew_coefficient (coefficient : Q) (m : InventoryManager) : InventoryManager :=
  mkInventory (skew_scaled coefficient) (target_position_ m).

Definition set_skew_coefficient_scaled (scaled : Z) (m : InventoryManager) : InventoryManager :=
  mkInventory scaled (target_position_ m).

Definition quote_adjustment (m : InventoryManager) (side : Side) (ticker_id : string) (keeper : PositionKeeper.Keeper) :
    option Z :=
  get_quote_adjustment cfg (skew_coefficient_scaled_ m) (target_position_ m) side ticker_id keeper.

(** ** Precisions *)

Record PrecisionConfig := mkPrecision {
  qty_precision_ : Z; price_precision_ : Z; qty_multiplier_ : Q; price_multiplier_ : Q; initialized_ : bool;
}.

Definition kQtyPrecision : Z := 3.
Definition kPricePrecision : Z := 2.
Definition kQtyMultiplier : Q := 10000.
Definition kPriceMultiplier : Q := 10.
Definition new_precision : PrecisionConfig := mkPrecision kQtyPrecision kPricePrecision kQtyMultiplier kPriceMultiplier false.

Definition initialize (p : PrecisionConfig) : PrecisionConfig :=
  mkPrecision (int "meta" "qty_precision" kQtyPrecision) (int "meta" "price_precision" kPricePrecision)
    (number "meta" "qty_multiplier" kQtyMultiplier) (number "meta" "price_multiplier" kPriceMultiplier) true.

Definition qty_precision (p : PrecisionConfig) : Z := if initialized_ p then qty_precision_ p else kQtyPrecision.
Definition price_precision (p : PrecisionConfig) : Z := if initialized_ p then price_precision_ p else kPricePrecision.
Definition qty_multiplier (p : PrecisionConfig) : Q := if initialized_ p then qty_multiplier_ p else kQtyMultiplier.
Definition price_multiplier (p : PrecisionConfig) : Q := if initialized_ p then price_multiplier_ p else kPriceMultiplier.
Definition set_qty_precision (v : Z) (p : PrecisionConfig) : PrecisionConfig :=
  mkPrecision v (price_precision_ p) (qty_multiplier_ p) (price_multiplier_ p) true.
Definition set_price_precision (v : Z) (p : PrecisionConfig) : PrecisionConfig :=
  mkPrecision (qty_precision_ p) v (qty_multiplier_ p) (price_multiplier_ p) true.

(** ** Addresses and keys *)

Record Endpoint := mkEndpoint { address : list Z; port : Z; path : list Z; use_ssl : bool }.

(** The members [oe_ws_write_port_] and [oe_ws_write_use_ssl_] are not
    initialised: the endpoint is [None]. *)
Record Authorization := mkAuthorization {
  md_address_ : list Z; oe_address_ : list Z; port_ : Z;
  md_ws : Endpoint; oe_ws : Endpoint; md_ws_write : Endpoint; oe_ws_write : option Endpoint;
  api_key_ : list Z; pem_file_path_ : list Z; private_password_ : list Z;
}.

Definition authorization : option Authorization :=
  let md_address := text "auth" "md_address" in
  let oe_address := text "auth" "oe_address" in
  let port := int "auth" "port" 0 in
  let slash := [chr_slash] in
  md_path ← get_with_symbol (codes "auth") (codes "md_ws_path") slash ini;
  Some (mkAuthorization md_address oe_address port
    (mkEndpoint (text_or "auth" "md_ws_address" md_address) (int "auth" "md_ws_port" port) md_path
       (negb (int "auth" "md_ws_use_ssl" 1 =? 0)))
    (mkEndpoint (text_or "auth" "oe_ws_address" oe_address) (int "auth" "oe_ws_port" port)
       (text_or "auth" "oe_ws_path" slash) (negb (int "auth" "oe_ws_use_ssl" 1 =? 0)))
    (mkEndpoint (text_or "auth" "md_ws_write_address" md_address) (int "auth" "md_ws_write_port" port)
       (text_or "auth" "md_ws_write_path" slash) (negb (int "auth" "md_ws_write_use_ssl" 1 =? 0)))
    None (text "auth" "api_key") (text "auth" "pem_file_path") (text "auth" "private_password")).

End Settings.

(** ** The main program *)

Definition kOeReadyTimeoutMs : Z := 10000.
Definition kPollIntervalMs : Z := 100.

(** The loop that waits for the gateway: [ready n] is its [n]th answer.  Returned
    are the answers asked for and the sleeps, and [None] when the fuel is not
    enough, which it is. *)
Fixpoint wait_ready (fuel : nat) (ready : nat -> bool) (asked : nat) (waited_ms : Z) : option (nat * Z) :=
  match fuel with
  | O => None
  | S fuel =>
      if negb (ready asked) && (waited_ms <? kOeReadyTimeoutMs)
      then wait_ready fuel ready (S asked) (waited_ms + kPollIntervalMs)
      else Some (S asked, waited_ms)
  end.

Inductive Event :=
| MadeLogger | MadePools (sizes : list Z) | MadeGateway | MadeEngine | Connected | MadeConsumer
| NotReady | StartConsumer | InitCpus
| StopGateway | StopConsumer | StopEngine | StopLogger | CaughtException.

Definition SIGINT : Z := 2.
Definition SIGTERM : Z := 15.

(** The loop over [sigwait]: the signals that arrive. *)
Fixpoint wait_signal (signals : list Z) : option (list Z) :=
  match signals with
  | [] => None
  | sig :: signals => if (sig =? SIGINT) || (sig =? SIGTERM) then Some signals else wait_signal signals
  end.

(** The sizes of the pools, in the order of their construction. *)
Definition pool_sizes (ini : Ini) : list Z :=
  let response := int ini "main_init" "response_memory_size" 0 in
  [int ini "main_init" "mud_pool_size" 0; int ini "main_init" "md_pool_size" 0; response; response; response].

(** The steps before the wait; a constructor may throw. *)
Definition setup (ini : Ini) : list Event :=
  [MadeLogger; MadePools (pool_sizes ini); MadeGateway; MadeEngine; Connected; MadeConsumer].

(** The outcome: the events and the exit code; [None] as code: the program still
    waits for a signal.  [failure] is the step whose constructor throws. *)
Definition main (ini : Ini) (failure : option nat) (ready : nat -> bool) (signals : list Z) : list Event * option Z :=
  match failure with
  | Some step => (take step (setup ini) ++ [CaughtException], Some 0)
  | None =>
      match wait_ready 101 ready 0 0 with
      | None => (setup ini, None)
      | Some (asked, _) =>
          if negb (ready asked) then (setup ini ++ [NotReady], Some 1)
          else
            let running := setup ini ++ [StartConsumer; InitCpus] in
            match wait_signal signals with
            | None => (running, None)
            | Some _ => (running ++ [StopGateway; StopConsumer; StopEngine; StopLogger], Some 0)
            end
      end
  end.

(** ** The wait for the gateway *)

Lemma wait_ready_spec fuel ready asked (n : nat) :
  (fuel + n = 101)%nat -> (0 < fuel)%nat ->
  exists k, wait_ready fuel ready asked (Z.of_nat n * kPollIntervalMs) =
      Some (S (asked + k), Z.of_nat (n + k) * kPollIntervalMs) /\
    (n + k <= 100)%nat /\ (forall i, (i < k)%nat -> ready (asked + i)%nat = false) /\
    (ready (asked + k)%nat = true \/ (n + k = 100)%nat).
Proof.
  revert asked n. induction fuel as [|fuel IH]; intros asked n Hf Hp; [lia|]. cbn [wait_ready].
  destruct (ready asked) eqn:E; cbn [negb andb].
  { exists 0%nat. rewrite !Nat.add_0_r. split; [done|]. split; [lia|]. split; [lia | by left]. }
  unfold kOeReadyTimeoutMs, kPollIntervalMs in *. destruct (Z.ltb_spec (Z.of_nat n * 100) 10000) as [Hlt|Hge].
  - destruct (IH (S asked) (S n) ltac:(lia) ltac:(lia)) as (k & Hk & Hb & Hn & He). exists (S k).
    replace (Z.of_nat n * 100 + 100) with (Z.of_nat (S n) * 100) by lia. rewrite Hk.
    replace (S asked + k)%nat with (asked + S k)%nat in * by lia. replace (S n + k)%nat with (n + S k)%nat in * by lia.
    split; [done|]. split; [done|]. split; [|done]. intros [|i] Hi; [by rewrite Nat.add_0_r|].
    replace (asked + S i)%nat with (S asked + i)%nat by lia. apply Hn. lia.
  - exists 0%nat. rewrite !Nat.add_0_r. split; [done|]. split; [lia|]. split; [lia | right; lia].
Qed.

(** The wait for the gateway ends, and market data start behind it only.  After
    at most a hundred sleeps, the first that finds the gateway ready or the last,
    [main] asks once more: without a ready gateway it returns 1 and the consumer is
    never started; with one it starts the consumer, and the first SIGINT or SIGTERM
    stops gateway, consumer, engine and logger, in this order, with the code 0. *)
Theorem main_waits_then_starts ini ready signals :
  exists n, (n <= 100)%nat /\ (forall i, (i < n)%nat -> ready i = false) /\ (ready n = true \/ n = 100%nat) /\
  main ini None ready signals =
  if ready (S n) then
    let running := setup ini ++ [StartConsumer; InitCpus] in
    if bool_decide (SIGINT ∈ signals \/ SIGTERM ∈ signals)
    then (running ++ [StopGateway; StopConsumer; StopEngine; StopLogger], Some 0) else (running, None)
  else (setup ini ++ [NotReady], Some 1).
Proof.
  destruct (wait_ready_spec 101 ready 0 0 eq_refl ltac:(lia)) as (n & Hw & Hb & Hn & He). exists n.
  split; [done|]. split; [exact Hn|]. split; [exact He|]. unfold main. change (Z.of_nat 0 * kPollIntervalMs) with 0 in Hw.
  rewrite Hw. cbn [Nat.add]. destruct (ready (S n)); cbn [negb]; [|done].
  assert (Hs : match wait_signal signals with Some _ => true | None => false end =
    bool_decide (SIGINT ∈ signals \/ SIGTERM ∈ signals)).
  { clear. induction signals as [|sig signals IH]; cbn [wait_signal].
    - symmetry. apply bool_decide_eq_false_2. set_solver.
    - destruct (Z.eqb_spec sig SIGINT) as [->|]; [symmetry; apply bool_decide_eq_true_2; set_solver|].
      destruct (Z.eqb_spec sig SIGTERM) as [->|]; [symmetry; apply bool_decide_eq_true_2; set_solver|].
      cbn [orb]. rewrite IH. apply bool_decide_ext. set_solver. }
  rewrite <-Hs. by destruct (wait_signal signals).
Qed.

(** A constructor that throws ends the program with the code of success. *)
Theorem exception_exits_with_success ini step ready signals :
  snd (main ini (Some step) ready signals) = Some 0.
Proof. done. Qed.

(** ** Limits *)

(** [text] is [v] in decimal, with separators anywhere. *)
Definition written (ini : Ini) (section key : string) (v : Z) : Prop :=
  erase_separators (get (codes section) (codes key) [] ini) = render_int v /\ in_i64 v.

Lemma written_int64 ini section key v def : written ini section key v -> int64 ini section key def = v.
Proof. intros [Ht Hv]. apply (integers_read_back _ _ _ _ def Ht Hv). Qed.

(** C36: the limits of the configuration are the limits of the risk check.  With whole
    numbers in the file, an order is allowed exactly when its size, the position it
    leads to together with the reserved quantity, and the profit are within those
    numbers in units of the quantity and profit scales. *)
Theorem configured_limits_apply cfg ini size upper lower loss keeper p side qty reserved :
  written ini "risk" "max_order_size" size -> written ini "risk" "max_position" upper ->
  written ini "risk" "min_position" lower -> written ini "risk" "max_loss" loss ->
  PositionKeeper.get_position_info (ticker ini) keeper = Some p ->
  let next := PositionKeeper.position_ p + reserved + sideToValue side * qty in
  exists risk, new_risk_manager (ticker ini) (config_map cfg ini) = Some risk /\
    (check_pre_trade_risk risk keeper (ticker ini) side qty reserved = Some kAllowed <->
     qty <= size * kQtyScale cfg /\ lower * kQtyScale cfg <= next <= upper * kQtyScale cfg /\
     loss * kPnlScale cfg <= PositionKeeper.total_pnl_ p).
Proof.
  intros H1 H2 H3 H4 Hp next. unfold new_risk_manager, config_map. rewrite lookup_singleton_eq. cbn [mbind option_bind].
  eexists. split; [reflexivity|]. unfold check_pre_trade_risk, RiskTable.
  rewrite lookup_singleton_eq. cbn [mbind option_bind]. rewrite Hp.
  cbn [mbind option_bind]. pose proof (pre_trade_risk_exact p (risk_cfg cfg ini) side qty reserved) as He. cbv zeta in He.
  fold next in He. unfold risk_cfg in *.
  rewrite (written_int64 _ _ _ _ 0 H1), (written_int64 _ _ _ _ 0 H2), (written_int64 _ _ _ _ 0 H3), (written_int64 _ _ _ _ 0 H4) in *.
  cbn [max_order_size_ max_position_ min_position_ max_loss_] in He.
  destruct (checkPreTradeRisk _ _ _ _ _); split; intros H; try done; exfalso; lia.
Qed.

Lemma authorization_total ini : is_Some (authorization ini).
Proof.
  unfold authorization. destruct (placeholders_replaced (codes "auth") (codes "md_ws_path") [chr_slash] ini) as (r & -> & _).
  by eexists.
Qed.

Definition demo_ini : Ini :=
  mkIni (list_to_map [(codes "meta.ticker", codes "XRPUSDC"); (codes "risk.max_order_size", codes "1,000");
    (codes "risk.max_position", codes "5000"); (codes "risk.min_position", codes "-5'000"); (codes "risk.max_loss", codes "-30")])
    [] [] [] [] [].
Definition demo_keeper : PositionKeeper.Keeper := {[ "XRPUSDC" := PositionKeeper.PositionInfo_default ]}.

Ltac written_by_computation := split; [vm_compute; reflexivity | unfold in_i64, int64_min, int64_max; lia].

Lemma configured_limits_apply_witness :
  exists risk, new_risk_manager (ticker demo_ini) (config_map XRPUSDCConfig demo_ini) = Some risk /\
    (check_pre_trade_risk risk demo_keeper (ticker demo_ini) kBuy 7 0 = Some kAllowed <->
     7 <= 1000 * 1000 /\ -5000 * 1000 <= 0 + 0 + 1 * 7 <= 5000 * 1000 /\ -30 * 1000000000 <= 0).
Proof.
  refine (configured_limits_apply XRPUSDCConfig demo_ini 1000 5000 (-5000) (-30) demo_keeper
    PositionKeeper.PositionInfo_default kBuy 7 0 _ _ _ _ _); [written_by_computation.. | vm_compute; reflexivity].
Defined.

(** ** Ticks *)

(** The settings of the exchanges: a tick of [10^-j] is found in its place. *)
Lemma power_tick_found j :
  (j <= 9)%nat -> find_digit (rnd (1 # Z.to_pos (10 ^ Z.of_nat j))) 10 0 = Some (Z.of_nat j).
Proof. intros Hj. do 10 (destruct j as [|j]; [vm_compute; reflexivity|]). lia. Qed.

Lemma new_tick_converter_power cfg j :
  (j <= 9)%nat ->
  new_tick_converter cfg (rnd (1 # Z.to_pos (10 ^ Z.of_nat j))) =
  mkTicks (inject_Z (10 ^ Z.of_nat j)) 0 (Z.quot (kPriceScale cfg) (10 ^ Z.of_nat j)).
Proof.
  intros Hj. unfold new_tick_converter. change (Z.to_nat (kDigitMax + 1)) with 10%nat. by rewrite power_tick_found.
Qed.

Lemma to_ticks_from_double t k price :
  0 < k -> scale t = inject_Z k -> (0 <= price)%Q -> to_ticks t price = from_double k price.
Proof.
  intros Hk Hs Hp. unfold to_ticks, from_double. rewrite Hs. rewrite (proj2 (Qle_bool_iff 0 price) Hp).
  replace (Qle_bool (inject_Z k) 0) with false; [done|]. symmetry. unfold Qle_bool, inject_Z. cbn. apply Z.leb_gt. lia.
Qed.

(** C37: prices have one number of ticks.  With a tick of [10^-j] that the price scale
    can represent, the price of [n] ticks gives [n] both from the double the text of
    the price denotes and from its fixed-point value. *)
Theorem tick_conversions_agree cfg j m n :
  (j <= 9)%nat -> 0 < m -> kPriceScale cfg = m * 10 ^ Z.of_nat j -> 0 <= n <= kExactRange ->
  let t := new_tick_converter cfg (rnd (1 # Z.to_pos (10 ^ Z.of_nat j))) in
  to_ticks t (rnd (inject_Z n / inject_Z (10 ^ Z.of_nat j))) = n /\ ticks_of_raw t (n * m) = Some n.
Proof.
  intros Hj Hm Hs Hn t. unfold t. rewrite new_tick_converter_power by done.
  pose proof (Z.pow_pos_nonneg 10 (Z.of_nat j) ltac:(lia) ltac:(lia)) as Hp.
  rewrite Hs, Z.quot_mul by lia. split.
  - rewrite (to_ticks_from_double _ (10 ^ Z.of_nat j)); [apply from_double_decimal; lia | done | done|].
    apply rnd_nonneg, Qle_shift_div_l.
    + change 0%Q with (inject_Z 0). rewrite <-Zlt_Qlt. done.
    + rewrite Qmult_0_l. change 0%Q with (inject_Z 0). rewrite <-Zle_Qle. lia.
  - unfold ticks_of_raw. cbn [scale_int]. rewrite (proj2 (Z.eqb_neq _ _)) by lia. f_equal. unfold to_ticks_raw.
    rewrite Z.quot_mul by lia. apply u64_small. unfold kExactRange in Hn. unfold in_u64, two64. lia.
Qed.

Lemma tick_conversions_agree_witness :
  let t := new_tick_converter XRPUSDCConfig (rnd (1 # Z.to_pos (10 ^ Z.of_nat 4))) in
  to_ticks t (rnd (inject_Z 21345 / inject_Z (10 ^ Z.of_nat 4))) = 21345 /\ ticks_of_raw t (21345 * 100) = Some 21345.
Proof.
  apply (tick_conversions_agree XRPUSDCConfig 4 100 21345); [lia | lia | reflexivity |]. unfold kExactRange. lia.
Defined.

(** A tick finer than the price scale, or one that is no negative power of ten,
    leaves a zero to divide by: 0.01 with the scale 10 of BTCUSDC, 0.05 with any. *)
Theorem unsupported_tick_divides_by_zero price_raw cfg :
  ticks_of_raw (new_tick_converter BTCUSDCConfig (rnd (1 # 100))) price_raw = None /\
  ticks_of_raw (new_tick_converter cfg (rnd (5 # 100))) price_raw = None.
Proof.
  split; [by pose proof (new_tick_converter_power BTCUSDCConfig 2 ltac:(lia)) as E; change (1 # 100)%Q with (1 # Z.to_pos (10 ^ Z.of_nat 2))%Q; rewrite E|].
  unfold new_tick_converter. change (Z.to_nat (kDigitMax + 1)) with 10%nat.
  replace (find_digit (rnd (5 # 100)) 10 0) with (@None Z) by (vm_compute; reflexivity). done.
Qed.

End Startup.
