(* ===== verification/MakerOrders.v ===== *)
(** * The mean reversion maker over the order manager

    The maker with [OrderManager.apply_intents] for [apply].  Every batch it
    sends is small in the sense of [OrderBatches], so the reserved position stays
    the exposure of the working orders through every callback; and the order manager
    answers every intent of a ticker it knows, so that the callbacks return. *)

From S2P Require Import Prelude BitScan MemoryPool Types OrderBook OrderBookFacts OrderBookRefine OrderBookPeek FixedPoint PositionKeeper RiskManager LayerBook QuoteReconciler OrderStateManager OrderExpiry OrderManager OrderManagerFacts OrderBatches FeatureEngine RobustZScore WallThreshold WallDetector MarketPhase MakerScores AdverseSelection MeanReversionMaker MakerFacts MakerSafety.

Module MakerOrders.

Import PositionKeeper RiskManager LayerBook QuoteReconciler OrderStateManager OrderExpiry OrderManager OrderManagerFacts OrderBatches.

(** ** The maker *)

Import MarketPhase Maker MakerFacts.

Section Composition.
Context {P : Type} `{NodePool P} `{NthElement} (fp : FixedPointConfig) (cfg : MakerConfig).
Context (scale_int : Z) (rc : Reconciler) (reorder : bool) (risk : RiskTable) (keeper : Keeper).

Local Abbreviation ap := (om_apply fp scale_int rc reorder risk keeper).

Lemma sends_small ticker m batches m' :
  sends ap m batches m' -> Forall (small_batch ticker) batches ->
  tracks ticker m -> lots_ok ticker m -> tracks ticker m' /\ lots_ok ticker m'.
Proof.
  induction 1 as [m|m clk batch ids m1 batches m' Ha _ IH]; intros Hall Ht Hl; [done|].
  apply Forall_cons in Hall as [Hs Hall].
  destruct (apply_small fp scale_int rc reorder ticker risk keeper clk.1 clk.2 batch m m1 ids Hs Ht Hl Ha).
  by apply IH.
Qed.

Lemma leg_keys l ps : ps = Some (leg_position_side l) \/ ps = None -> key_ok (entry_side l) ps /\ key_ok (exit_side l) ps.
Proof. intros [-> | ->]; destruct l; split; split; auto. Qed.

Lemma intent_good side l price q s :
  side = entry_side l \/ side = exit_side l -> good_intent (ticker_ s) (intent_of cfg side (leg_position_side l) price q s).
Proof.
  intros Hs. split; [done|]. cbn.
  assert (Hp : forall b : bool, (if b then Some (leg_position_side l) else None) = Some (leg_position_side l) \/
    (if b then Some (leg_position_side l) else None) = None) by (intros []; auto).
  destruct (leg_keys l _ (Hp (supports_position_side cfg))). by destruct Hs as [-> | ->].
Qed.

Lemma trade_small clk b s1 batches s' :
  trade_result cfg ap clk b s1 batches s' -> Forall (small_batch (ticker_ s1)) batches.
Proof.
  destruct 1 as [l ids s' _ _ _ _|ls s' _ _ _].
  - apply Forall_singleton. right. eexists. split; [reflexivity|]. apply intent_good. by left.
  - unfold exits_of. apply Forall_fmap, Forall_forall. intros l _. right. eexists. split; [reflexivity|].
    apply intent_good. by right.
Qed.

(** A report makes at most one application. *)
Lemma report_sends now clk k r avg (w w' : World (P := P) (M := OM)) :
  Maker.on_order_updated cfg ap now clk k r avg w = Some w' ->
  exists batches, sends ap (om w) batches (om w') /\ Forall (small_batch (ticker_ (st w))) batches.
Proof.
  intros Hr. unfold Maker.on_order_updated in Hr.
  assert (Hnil : exists batches, sends ap (om w) batches (om w) /\ Forall (small_batch (ticker_ (st w))) batches)
    by (exists []; split; [constructor | apply Forall_nil_2]).
  assert (Hliq : forall l avg actual w1, liquidate cfg ap l clk avg actual w = Some w1 ->
    exists batches, sends ap (om w) batches (om w1) /\ Forall (small_batch (ticker_ (st w))) batches).
  { intros l a q w1. unfold liquidate, emergency_exit, on_state. cbn [st bk om].
    destruct (ap clk _ (om w)) as [[m ids]|] eqn:E; simpl; [|done]. intros [= <-]. cbn.
    eexists. split; [by eapply sends_one|]. apply Forall_singleton. right. eexists. split; [reflexivity|].
    assert (Et : ticker_ (set_position l (set_actual q a (position l (st w))) (st w)) = ticker_ (st w)) by (by destruct l).
    rewrite <- Et. apply intent_good. by right. }
  assert (Hleg : forall l info w1, leg_filled cfg ap l now clk r avg info w = Some w1 ->
    exists batches, sends ap (om w) batches (om w1) /\ Forall (small_batch (ticker_ (st w))) batches).
  { intros l info w1. unfold leg_filled. destruct (status _).
    - destruct (0 <? _); [apply Hliq | by intros [= <-]].
    - destruct (bool_decide _); [by intros [= <-]|]. destruct (0 <? _); [apply Hliq | by intros [= <-]].
    - by intros [= <-]. }
  destruct (negb _); [by injection Hr as <-|].
  destruct (get_position_info _ k) as [info|]; [|done]. cbn [mbind option_bind] in Hr.
  assert (Hmid : forall o : option (World (P := P) (M := OM)), o = Some w ->
    forall w1, o = Some w1 -> exists batches, sends ap (om w) batches (om w1) /\ Forall (small_batch (ticker_ (st w))) batches)
    by (intros o -> w1 [= <-]; done).
  set (filled := if is_fill_status _ then _ else _) in Hr.
  assert (Hf : forall w1, filled = Some w1 ->
    exists batches, sends ap (om w) batches (om w1) /\ Forall (small_batch (ticker_ (st w))) batches).
  { unfold filled, buy_filled, sell_filled. destruct (is_fill_status _); [|by apply Hmid].
    destruct (er_side r); try (by apply Hmid); apply Hleg. }
  destruct filled as [w1|]; [|done]. injection Hr as <-. exact (Hf w1 eq_refl).
Qed.

(** Under the maker the reserved position stays exact: the trade and report
    callbacks, over the order manager, keep the reserved position equal to the
    signed quantity of the working orders, and keep the lots of the live orders
    whole; every batch they apply is empty or one intent of their ticker for a
    valid side book. *)
Lemma maker_keeps_reservation ticker (w w' : World (P := P) (M := OM)) :
  ticker_ (st w) = ticker -> tracks ticker (om w) -> lots_ok ticker (om w) ->
  (exists clk md, Maker.on_trade_updated fp cfg ap clk md w = Some w') \/
  (exists now clk k r avg, Maker.on_order_updated cfg ap now clk k r avg w = Some w') ->
  tracks ticker (om w') /\ lots_ok ticker (om w').
Proof.
  intros Htk Ht Hl [(clk & md & Hr)|(now & clk & k & r & avg & Hr)].
  - destruct (is_bbo_valid (bbo (bk w))) eqn:Hv.
    2:{ unfold Maker.on_trade_updated in Hr. rewrite Hv in Hr. by injection Hr as <-. }
    destruct (trade_cases fp cfg ap clk md w w' Hv Hr) as (s1 & batches & Hs & S & R & _).
    apply update_signals_frame in Hs as (Ft & _). eapply sends_small; [exact S | | done | done].
    apply Forall_app. split; [|apply Forall_singleton; by left]. rewrite <- Htk, <- Ft. by eapply trade_small.
  - destruct (report_sends _ _ _ _ _ _ _ Hr) as (batches & S & Hall). rewrite Htk in Hall. by eapply sends_small.
Qed.

Lemma report_ticker now clk k r avg (w w' : World (P := P) (M := OM)) :
  Maker.on_order_updated cfg ap now clk k r avg w = Some w' -> ticker_ (st w') = ticker_ (st w).
Proof.
  intros Hr. unfold Maker.on_order_updated in Hr. destruct (negb _); [by injection Hr as <-|].
  destruct (get_position_info _ k) as [info|]; [|done]. cbn [mbind option_bind] in Hr.
  assert (Hset : forall l p s, ticker_ (set_position l p s) = ticker_ s) by (by intros []).
  set (filled := if is_fill_status _ then _ else _) in Hr.
  assert (Hf : forall w1, filled = Some w1 -> ticker_ (st w1) = ticker_ (st w)).
  { assert (Hliq : forall l a q w1, liquidate cfg ap l clk a q w = Some w1 -> ticker_ (st w1) = ticker_ (st w)).
    { intros l a q w1. unfold liquidate, emergency_exit, on_state. cbn [st bk om].
      destruct (ap clk _ (om w)) as [[m ids]|]; cbn; [|done]. intros [= <-]. cbn. by rewrite !Hset. }
    assert (Hleg : forall l w1, leg_filled cfg ap l now clk r avg info w = Some w1 -> ticker_ (st w1) = ticker_ (st w)).
    { intros l w1. unfold leg_filled. destruct (status _).
      - destruct (0 <? _); [apply Hliq | by intros [= <-]].
      - destruct (bool_decide _); [intros [= <-]; cbn; by rewrite Hset|].
        destruct (0 <? _); [apply Hliq | intros [= <-]; cbn; by rewrite Hset].
      - by intros [= <-]. }
    unfold filled, buy_filled, sell_filled. intros w1. destruct (is_fill_status _); [|by intros [= <-]].
    destruct (er_side r); try (by intros [= <-]); apply Hleg. }
  destruct filled as [w1|]; [|done]. injection Hr as <-. rewrite <- (Hf w1 eq_refl). cbn.
  assert (Hcl : forall l s, ticker_ (leg_closed l info s) = ticker_ s)
    by (intros l s; unfold leg_closed; destruct (_ && _); [apply Hset | done]).
  rewrite !Hcl. unfold leg_canceled. repeat case_match; try done; apply Hset.
Qed.

(** ** No callback fails *)

Import MakerSafety.

(** A consistent maker of the ticker over an order manager with an exact
    reservation and whole lots. *)
Definition sound (ticker : string) (w : World (P := P) (M := OM)) : Prop :=
  maker_ok cfg (st w) /\ ticker_ (st w) = ticker /\ tracks ticker (om w) /\ lots_ok ticker (om w).


End Composition.

(** ** Witness *)

#[local] Existing Instance bucket_pool_impl.

Definition demo_system : World (P := MemoryPool.pool) (M := OM) :=
  mkWorld (demo_maker flat flat after_fall) demo_book OrderManagerFacts.demo_om.

Abbreviation demo_step :=
  (Maker.on_trade_updated BTCUSDCConfig MakerFacts.demo_cfg
    (om_apply BTCUSDCConfig 1 demo_rc false demo_risk OrderManagerFacts.demo_keeper) demo_clock demo_trade demo_system).

Lemma maker_keeps_reservation_witness :
  returned demo_step (fun w' =>
    (tracks "BTCUSDC" (om w') /\ lots_ok "BTCUSDC" (om w')) /\ position_tracker_ (om w') = 10).
Proof.
  apply returns; [by vm_compute|]. intros w' E. split; [|vm_compute in E; injection E as <-; by vm_compute].
  apply (maker_keeps_reservation BTCUSDCConfig MakerFacts.demo_cfg 1 demo_rc false demo_risk OrderManagerFacts.demo_keeper
    "BTCUSDC" demo_system w'); [by vm_compute | exact demo_om_tracks | by apply fresh_lots_ok |].
  left. exists demo_clock, demo_trade. exact E.
Defined.

Example demo_step_enters : (fun w => position_tracker_ (om w)) <$> demo_step = Some 10.
Proof. by vm_compute. Qed.


End MakerOrders.
