(* ===== verification/TradeEngine.v ===== *)
(** * Trade engine (src/hft/src/trade_engine.hpp)

    The class template that owns the book, the features, the positions and the
    order manager and drives the strategy.  The strategy is a parameter, as it is
    of the template: its callbacks may change its own state and use the order
    manager.  The two queues are the lists of messages that are there when the
    loop looks (their order is that of the queue theorems). *)

From S2P Require Import Prelude Types MemoryPool OrderBook OrderBookRefine PositionKeeper LayerBook QuoteReconciler OrderStateManager OrderExpiry OrderManager FeatureEngine MarketConsumer.

Module TradeEngine.

Import PositionKeeper.

Section Engine.

Context {P : Type} `{NodePool P} {S : Type}.

(** [tick_converter_.scale_int] of the order manager. *)
Context (scale_int : Z).

(** The strategy's callbacks.  They may change the strategy, the order manager and
    the book (reading levels refreshes its cache), and may end the process. *)
Context (strategy_on_orderbook_updated : string -> Z -> Side -> FeatureEngine.Engine -> Keeper ->
           S * Book P * OrderManager.OM -> option (S * Book P * OrderManager.OM)).
Context (strategy_on_trade_updated : MarketData -> FeatureEngine.Engine -> Keeper ->
           S * Book P * OrderManager.OM -> option (S * Book P * OrderManager.OM)).
Context (strategy_on_order_updated : ExecutionReport -> Keeper ->
           S * Book P * OrderManager.OM -> option (S * Book P * OrderManager.OM)).

Record TE := mkTE {
  ticker_ : string;
  book_ : Book P;
  feature_engine_ : FeatureEngine.Engine;
  position_keeper_ : Keeper;
  order_manager_ : OrderManager.OM;
  strategy_ : S;
}.

Definition set_book (b : Book P) (t : TE) : TE :=
  mkTE (ticker_ t) b (feature_engine_ t) (position_keeper_ t) (order_manager_ t) (strategy_ t).
Definition set_features (f : FeatureEngine.Engine) (t : TE) : TE :=
  mkTE (ticker_ t) (book_ t) f (position_keeper_ t) (order_manager_ t) (strategy_ t).
Definition set_keeper (k : Keeper) (t : TE) : TE :=
  mkTE (ticker_ t) (book_ t) (feature_engine_ t) k (order_manager_ t) (strategy_ t).
Definition set_strategy (s : S * OrderManager.OM) (t : TE) : TE :=
  mkTE (ticker_ t) (book_ t) (feature_engine_ t) (position_keeper_ t) s.2 s.1.

(** ** Notifications of the book *)

Definition on_orderbook_updated (ticker : string) (price : Z) (side : Side) (t : TE) : option TE :=
  let t := set_features (FeatureEngine.on_order_book_updated (bbo (book_ t)) (feature_engine_ t)) t in
  '(s, b, m) ← strategy_on_orderbook_updated ticker price side (feature_engine_ t) (position_keeper_ t)
        (strategy_ t, book_ t, order_manager_ t);
  Some (set_strategy (s, m) (set_book b t)).

Definition on_trade_updated (md : MarketData) (t : TE) : option TE :=
  let t := set_features (FeatureEngine.on_trade_updated md (bbo (book_ t)) (feature_engine_ t)) t in
  '(s, b, m) ← strategy_on_trade_updated md (feature_engine_ t) (position_keeper_ t)
        (strategy_ t, book_ t, order_manager_ t);
  Some (set_strategy (s, m) (set_book b t)).

Definition on_book_ticker_updated (md : MarketData) (t : TE) : TE :=
  set_features (FeatureEngine.on_book_ticker_updated md (feature_engine_ t)) t.

Definition notify (n : Notification) (t : TE) : option TE :=
  match n with
  | OnTradeUpdated md => on_trade_updated md t
  | OnBookTickerUpdated md => Some (on_book_ticker_updated md t)
  | OnOrderbookUpdated ticker price side => on_orderbook_updated ticker price side t
  end.

(** [ticker_order_book_[ticker]->on_market_data_updated(market_data)]: an unknown
    ticker gives a null book. *)
Definition apply_market_data (md : MarketData) (t : TE) : option TE :=
  if negb (String.eqb (md_ticker_id md) (ticker_ t)) then None
  else
    '(b, ns) ← on_market_data_updated md (book_ t);
    foldl (fun acc n => acc ≫= notify n) (Some (set_book b t)) ns.

(** ** Responses *)

Definition on_order_updated (now : Z) (report : ExecutionReport) (t : TE) : option TE :=
  k ← (if bool_decide (exec_type report = ETTrade) then keeper_add_fill report (position_keeper_ t)
       else Some (position_keeper_ t));
  let t := set_keeper k t in
  '(s, b, m) ← strategy_on_order_updated report (position_keeper_ t) (strategy_ t, book_ t, order_manager_ t);
  let t := set_strategy (s, m) (set_book b t) in
  Some (set_strategy (strategy_ t, OrderManager.on_order_updated scale_int now report (order_manager_ t)) t).

Inductive Response :=
  ExecutionReportR (r : ExecutionReport) | OrderCancelRejectR | OrderMassCancelReportR | InvalidR.

Definition on_response (now : Z) (r : Response) (t : TE) : option TE :=
  match r with
  | ExecutionReportR report => on_order_updated now report t
  | _ => Some t
  end.

(** ** The loop of [run] *)

Definition kMarketDataBatchLimit : nat := 128.
Definition kResponseBatchLimit : nat := 64.

(** [while (queue->dequeue(message) && processed < limit) handle(message)]: the
    state, what was dequeued without being handled, and what is still queued. *)
Fixpoint batch {M : Type} (limit : nat) (handle : M -> TE -> option (TE * bool)) (processed : nat)
    (pending : list M) (t : TE) : option (TE * list M * list M) :=
  match pending with
  | [] => Some (t, [], [])
  | message :: pending' =>
      if (processed <? limit)%nat then
        '(t', counted) ← handle message t;
        batch limit handle (if (counted : bool) then Datatypes.S processed else processed) pending' t'
      else Some (t, [message], pending')
  end.

(** A market message: a null pointer is skipped, not counted. *)
Definition handle_market_message (message : option MarketConsumer.Event) (t : TE) : option (TE * bool) :=
  match message with
  | None => Some (t, false)
  | Some e =>
      t' ← foldl (fun acc md => acc ≫= apply_market_data md) (Some t) (MarketConsumer.data e);
      Some (t', true)
  end.

Definition handle_response (now : Z) (r : Response) (t : TE) : option (TE * bool) :=
  t' ← on_response now r t; Some (t', true).

Definition run_market_batch (pending : list (option MarketConsumer.Event)) (t : TE) :=
  batch kMarketDataBatchLimit handle_market_message 0 pending t.

Definition run_response_batch (now : Z) (pending : list Response) (t : TE) :=
  batch kResponseBatchLimit (handle_response now) 0 pending t.

(** ** Fills *)

(** The strategy handles the report without using the order manager. *)
Definition quiet (r : ExecutionReport) (t : TE) : Prop :=
  forall k, exists s' b',
    strategy_on_order_updated r k (strategy_ t, book_ t, order_manager_ t) = Some (s', b', order_manager_ t).

(** A fill moves quantity from the reserved position to the position.  For a
    trade report of a partial or complete fill whose fill quantity is what the
    slot it matches loses, and that the strategy handles without trading, the position plus the reserved position is the same before and
    after: the exposure that the risk limits bound does not jump. *)
Theorem fill_moves_reserved_to_position now r t p :
  quiet r t -> exec_type r = ETTrade -> position_keeper_ t !! symbol r = Some p ->
  let om := order_manager_ t in
  let sb := LayerBook.side_book (symbol r) (er_side r) (er_position_side r) (OrderManager.layer_book_ om) in
  let l := OrderStateManager.report_layer scale_int r sb in
  let slot := OrderStateManager.slot_at sb l in
  0 <= l ->
  (ord_status r = OSPartiallyFilled \/ (ord_status r = OSFilled /\ leaves_qty r = 0)) ->
  last_qty r = LayerBook.qty slot - leaves_qty r ->
  exists t' p', on_order_updated now r t = Some t' /\ position_keeper_ t' !! symbol r = Some p' /\
    position_ p' + OrderManager.position_tracker_ (order_manager_ t') =
    position_ p + OrderManager.position_tracker_ om.
Proof.
  intros Hq Hex Hp om sb l slot Hl Hst Hlast. unfold on_order_updated.
  rewrite bool_decide_eq_true_2 by done. unfold keeper_add_fill. rewrite Hp. cbn [mbind option_bind].
  match goal with |- context [strategy_on_order_updated r ?k _] => destruct (Hq k) as (s' & b' & Hs') end.
  cbn [position_keeper_ strategy_ order_manager_ book_ set_keeper] in *. rewrite Hs'. cbn [mbind option_bind].
  eexists _, _. split; [reflexivity|]. cbn. split; [apply lookup_insert_eq|].
  destruct (add_fill_position r p) as [-> _]. fold om.
  assert (E : OrderManager.position_tracker_ (OrderManager.on_order_updated scale_int now r om) =
    OrderManager.position_tracker_ om - sideToValue (er_side r) * last_qty r); [|lia].
  unfold OrderManager.on_order_updated. fold sb.
  assert (Hr : (OrderStateManager.handle_execution_report scale_int now r
      (sb, OrderManager.position_tracker_ om)).2 =
    OrderManager.position_tracker_ om - sideToValue (er_side r) * last_qty r).
  { unfold OrderStateManager.handle_execution_report.
    destruct Hst as [-> | [-> H0]];
      unfold OrderStateManager.handle_partially_filled, OrderStateManager.handle_filled;
      fold l; rewrite (proj2 (Z.ltb_ge l 0)) by lia; fold slot.
    - rewrite Hlast. by case_bool_decide.
    - rewrite Hlast, H0, Z.sub_0_r. done. }
  destruct (OrderStateManager.handle_execution_report _ _ _ _) as [sb' res']. cbn [snd] in Hr. subst res'.
  repeat case_match; done.
Qed.

(** ** Batches *)

Lemma batch_all {M} limit (handle : M -> TE -> option (TE * bool)) ms rest t t' processed :
  (processed + length ms <= limit)%nat ->
  foldl (fun acc m => acc ≫= fun t => '(t', c) ← handle m t; if (c : bool) then Some t' else None) (Some t) ms = Some t' ->
  batch limit handle processed (ms ++ rest) t = batch limit handle (processed + length ms) rest t'.
Proof.
  revert processed t. induction ms as [|m ms IH]; intros processed t Hlen; simpl in *.
  { intros [= ->]. by rewrite Nat.add_0_r. }
  rewrite (proj2 (Nat.ltb_lt _ _)) by lia.
  assert (Hnone : forall (f : TE -> M -> option TE), foldl (fun acc m => acc ≫= fun t => f t m) None ms = None)
    by (intros; clear IH Hlen; by induction ms).
  destruct (handle m t) as [[t1 c]|] eqn:E; simpl; [|intros X; by rewrite Hnone in X].
  destruct c; simpl; [|intros X; by rewrite Hnone in X].
  intros Hf. rewrite IH by (done || lia). f_equal. lia.
Qed.

(** A full batch loses the next message.  When more messages are there than
    the batch limit, the loop handles exactly the first [limit], then dequeues
    one more before it tests the limit: that message is neither handled nor
    queued any more. *)
Theorem full_batch_loses_message {M} limit (handle : M -> TE -> option (TE * bool)) ms x rest t t' :
  length ms = limit ->
  foldl (fun acc m => acc ≫= fun t => '(t', c) ← handle m t; if (c : bool) then Some t' else None) (Some t) ms = Some t' ->
  batch limit handle 0 (ms ++ x :: rest) t = Some (t', [x], rest).
Proof.
  intros Hlen Hf. rewrite (batch_all limit handle ms (x :: rest) t t') by (done || lia). simpl.
  by rewrite (proj2 (Nat.ltb_ge _ _)) by lia.
Qed.

End Engine.

(** ** Witnesses *)

#[local] Existing Instance bucket_pool_impl.

(** A strategy that does nothing. *)
Definition idle_report : ExecutionReport -> Keeper -> unit * Book MemoryPool.pool * OrderManager.OM ->
    option (unit * Book MemoryPool.pool * OrderManager.OM) :=
  fun _ _ s => Some s.
Definition idle_book : string -> Z -> Side -> FeatureEngine.Engine -> Keeper ->
    unit * Book MemoryPool.pool * OrderManager.OM -> option (unit * Book MemoryPool.pool * OrderManager.OM) :=
  fun _ _ _ _ _ s => Some s.
Definition idle_trade : MarketData -> FeatureEngine.Engine -> Keeper ->
    unit * Book MemoryPool.pool * OrderManager.OM -> option (unit * Book MemoryPool.pool * OrderManager.OM) :=
  fun _ _ _ s => Some s.

(** An engine with one live buy order of quantity 5, all of it reserved. *)
Definition demo_om : OrderManager.OM :=
  OrderManager.mkOM
    {[ "BTCUSDC"%string := [[OrderStateManager.demo_side_book; LayerBook.new_side_book];
                      [LayerBook.new_side_book; LayerBook.new_side_book]] ]}
    5 (QuoteReconciler.mkVenue 10 1 100 0 1) (OrderExpiry.new_expiry 100 1000) [].
Definition demo_engine : TE :=
  mkTE "BTCUSDC" (new_book (from_ini 1 8192) (MemoryPool.create 2) (MemoryPool.create 2))
    (FeatureEngine.new_engine 64) (new_keeper "BTCUSDC") demo_om tt.
Definition demo_fill : ExecutionReport :=
  mkReport 77 "BTCUSDC" ETTrade OSPartiallyFilled 2 3 1000 kBuy (Some kLong).

Lemma fill_moves_reserved_to_position_witness :
  exists t' p', on_order_updated 1 idle_report 9 demo_fill demo_engine = Some t' /\
    position_keeper_ t' !! "BTCUSDC"%string = Some p' /\
    position_ p' + OrderManager.position_tracker_ (order_manager_ t') = 0 + 5.
Proof.
  apply (fill_moves_reserved_to_position 1 idle_report 9 demo_fill demo_engine PositionInfo_default);
    [by do 2 eexists | done | done | by vm_compute | by left | by vm_compute].
Defined.

Definition empty_message : option MarketConsumer.Event :=
  Some (MarketConsumer.mkEvent 1 1 0 MDMarket []).

Lemma full_batch_loses_message_witness :
  run_market_batch idle_book idle_trade
    (replicate 128 empty_message ++ [empty_message; empty_message]) demo_engine =
  Some (demo_engine, [empty_message], [empty_message]).
Proof.
  apply (full_batch_loses_message kMarketDataBatchLimit (handle_market_message idle_book idle_trade)
    (replicate 128 empty_message) empty_message [empty_message] demo_engine demo_engine); by vm_compute.
Defined.

End TradeEngine.
