(* ===== verification/EngineStrategy.v ===== *)
(** * The trade engine over strategies with small batches

    What the trade engine needs of a strategy to keep its reservation exact, as
    a class: every callback, called with a strategy of the engine's ticker,
    leaves such a strategy, and leaves the reserved position equal to the
    exposure of the working orders and the lots whole.  The theorems about
    histories of the engine are proved against this class, once for all
    strategies. *)

From S2P Require Import Prelude MemoryPool Types OrderBook PositionKeeper RiskManager LayerBook QuoteReconciler OrderStateManager OrderManager OrderManagerFacts OrderBatches FeatureEngine TradeEngine.

Module EngineStrategy.

Import PositionKeeper QuoteReconciler OrderManager OrderManagerFacts OrderBatches TradeEngine.

(** A callback of a strategy, with its other arguments given. *)
Abbreviation Callback S P := (S * Book P * OM -> option (S * Book P * OM)).

(** The strategy [s] trades [ticker] over an exact order manager. *)
Definition exact {S : Type} (trades : string -> S -> Prop) (ticker : string) (s : S) (m : OM) : Prop :=
  trades ticker s /\ tracks ticker m /\ lots_ok ticker m.

Definition keeps_exact {S P : Type} (trades : string -> S -> Prop) (ticker : string) (f : Callback S P) : Prop :=
  forall s b m s' b' m', exact trades ticker s m -> f (s, b, m) = Some (s', b', m') -> exact trades ticker s' m'.

(** The promise of a strategy to the engine. *)
Class ExactStrategy {S P : Type} (trades : string -> S -> Prop)
    (on_book : string -> Z -> Side -> FeatureEngine.Engine -> Keeper -> Callback S P)
    (on_trade : MarketData -> FeatureEngine.Engine -> Keeper -> Callback S P)
    (on_order : ExecutionReport -> Keeper -> Callback S P) : Prop := {
  exact_book ticker price side fe keeper : keeps_exact trades ticker (on_book ticker price side fe keeper);
  exact_trade ticker md fe keeper : md_ticker_id md = ticker -> keeps_exact trades ticker (on_trade md fe keeper);
  exact_order ticker r keeper : keeps_exact trades ticker (on_order r keeper);
}.

(** Notifications of one ticker. *)
Definition own (ticker : string) (n : Notification) : Prop :=
  match n with
  | OnOrderbookUpdated t _ _ => t = ticker
  | OnTradeUpdated md => md_ticker_id md = ticker
  | OnBookTickerUpdated _ => True
  end.

Lemma market_notifications {P} `{NodePool P} (md : MarketData) (b b' : Book P) ns :
  on_market_data_updated md b = Some (b', ns) -> Forall (own (md_ticker_id md)) ns.
Proof.
  unfold on_market_data_updated. case_match; [intros [= <- <-]; apply Forall_nil_2|].
  destruct (md_type md); try (intros [= <- <-]; first [apply Forall_nil_2 | by apply Forall_singleton]).
  all: case_match; [|done]; intros [= <- <-]; by apply Forall_singleton.
Qed.

Lemma none_foldl {A B} (f : A -> B -> option A) l : foldl (fun acc x => acc ≫= fun a => f a x) None l = None.
Proof. by induction l. Qed.

Section engine.
Context {S P : Type} `{NodePool P} (scale_int : Z) {trades : string -> S -> Prop}.
Context {on_book : string -> Z -> Side -> FeatureEngine.Engine -> Keeper -> Callback S P}.
Context {on_trade : MarketData -> FeatureEngine.Engine -> Keeper -> Callback S P}.
Context {on_order : ExecutionReport -> Keeper -> Callback S P}.
Context `{!ExactStrategy trades on_book on_trade on_order}.

(** The engine: what one market update and one report do. *)
Definition engine_market_data : MarketData -> TE -> option TE := apply_market_data on_book on_trade.
Definition engine_report : Z -> ExecutionReport -> TE -> option TE := TradeEngine.on_order_updated scale_int on_order.

Definition system_exact (t : TE (P := P) (S := S)) : Prop :=
  exact trades (ticker_ t) (strategy_ t) (order_manager_ t).

Definition stays (t t' : TE (P := P) (S := S)) : Prop := system_exact t' /\ ticker_ t' = ticker_ t.

Lemma notify_exact n t t' :
  own (ticker_ t) n -> system_exact t -> notify on_book on_trade n t = Some t' -> stays t t'.
Proof.
  destruct t as [tk b fe k m s]. unfold stays, system_exact. cbn. intros Hown Hok.
  destruct n as [md|md|ticker price side]; cbn in *.
  - unfold TradeEngine.on_trade_updated. cbn. destruct (on_trade md _ k (s, b, m)) as [[[s' b'] m']|] eqn:E; cbn; [|done]. intros [= <-]. split; [|done].
    exact (exact_trade tk md _ _ Hown _ _ _ _ _ _ Hok E).
  - by intros [= <-].
  - subst ticker. unfold TradeEngine.on_orderbook_updated. cbn. destruct (on_book tk price side _ k (s, b, m)) as [[[s' b'] m']|] eqn:E; cbn; [|done]. intros [= <-]. split; [|done].
    exact (exact_book tk _ _ _ _ _ _ _ _ _ _ Hok E).
Qed.

Lemma notify_all ns t t' :
  Forall (own (ticker_ t)) ns -> system_exact t ->
  foldl (fun acc n => acc ≫= notify on_book on_trade n) (Some t) ns = Some t' -> stays t t'.
Proof.
  revert t. induction ns as [|n ns IH]; intros t Hall Hok; [by intros [= <-]|].
  apply Forall_cons in Hall as [Hn Hall]. cbn [foldl mbind option_bind].
  destruct (notify on_book on_trade n t) as [t1|] eqn:E.
  - destruct (notify_exact n t t1 Hn Hok E) as [Hok1 E1]. intros Hf. unfold stays. rewrite <- E1 in *. by apply IH.
  - intros Hf. by rewrite (none_foldl (fun t n => notify on_book on_trade n t)) in Hf.
Qed.

Lemma market_data_exact md t t' : system_exact t -> engine_market_data md t = Some t' -> stays t t'.
Proof.
  intros Hok. unfold engine_market_data, apply_market_data.
  destruct (String.eqb_spec (md_ticker_id md) (ticker_ t)) as [E|]; cbn [negb]; [|done].
  destruct (on_market_data_updated md (book_ t)) as [[b ns]|] eqn:Em; cbn [mbind option_bind]; [|done].
  apply market_notifications in Em. rewrite E in Em. by apply (notify_all ns (set_book b t)).
Qed.

(** ** Reports *)

(** What is asked of a report of the venue.  When the order manager gets it, the
    report is one of the engine's ticker and agrees with the slot it acts on
    ([good_report]: a slot it acts on has a working order, an acknowledgement
    leaves the whole quantity of the order, a partial fill leaves no negative
    quantity, a rejected replacement is the one that is pending), and what an
    acknowledgement or a partial fill leaves is in whole lots. *)
Definition report_agrees (r : ExecutionReport) (k : Keeper) (t : TE (P := P) (S := S)) : Prop :=
  forall s b m, on_order r k (strategy_ t, book_ t, order_manager_ t) = Some (s, b, m) ->
    good_report scale_int (ticker_ t) r m /\ whole_report (qty_increment_ (venue_policy_ m)) r.

(** The keeper that the strategy sees: with the fill of a trade report. *)
Definition keeper_for (r : ExecutionReport) (t : TE (P := P) (S := S)) : Keeper :=
  if bool_decide (exec_type r = ETTrade) then default ∅ (keeper_add_fill r (position_keeper_ t)) else position_keeper_ t.

(** Histories of the engine: market updates, and reports that agree with their
    slots. *)
Inductive engine_run : TE (P := P) (S := S) -> TE (P := P) (S := S) -> Prop :=
  | run_done t : engine_run t t
  | run_market t md t1 t2 : engine_market_data md t = Some t1 -> engine_run t1 t2 -> engine_run t t2
  | run_report t now r t1 t2 :
      engine_report now r t = Some t1 -> report_agrees r (keeper_for r t) t ->
      engine_run t1 t2 -> engine_run t t2.

Lemma report_exact now r t t' :
  system_exact t -> report_agrees r (keeper_for r t) t -> engine_report now r t = Some t' -> stays t t'.
Proof.
  intros Hok Hag. unfold engine_report, TradeEngine.on_order_updated. intros Hr.
  set (ok := if bool_decide _ then _ else _) in Hr.
  assert (Hk : forall k, ok = Some k -> keeper_for r t = k).
  { unfold ok, keeper_for. intros k. destruct (bool_decide _); [by intros -> | by intros [= ->]]. }
  destruct ok as [k|]; cbn [mbind option_bind] in Hr; [|done]. specialize (Hk k eq_refl). rewrite Hk in Hag.
  cbn [position_keeper_ strategy_ book_ order_manager_ set_keeper] in Hr.
  destruct (on_order r k _) as [[[s b] m]|] eqn:E; cbn [mbind option_bind] in Hr; [|done].
  destruct (Hag _ _ _ E) as [Hgood Hwhole]. destruct (exact_order _ r k _ _ _ _ _ _ Hok E) as (H1 & H2 & H3).
  injection Hr as <-. cbn in *. split; [|done]. split; cbn; [done|]. by apply report_step_exact.
Qed.

Lemma run_exact t t' : system_exact t -> engine_run t t' -> stays t t'.
Proof.
  intros Hok Hrun. unfold stays. induction Hrun as [t|t md t1 t2 E _ IH|t now r t1 t2 E Hag _ IH]; [done| |].
  - destruct (market_data_exact md t t1 Hok E) as [Hok1 E1]. rewrite <- E1. by apply IH.
  - destruct (report_exact now r t t1 Hok Hag E) as [Hok1 E1]. rewrite <- E1. by apply IH.
Qed.

(** In every history the reserved position is the exposure of the working orders. *)
Lemma run_reservation t t' :
  system_exact t -> engine_run t t' ->
  position_tracker_ (order_manager_ t') = net_exposure (ticker_ t) (layer_book_ (order_manager_ t')).
Proof.
  intros Hok Hrun. destruct (run_exact t t' Hok Hrun) as [(_ & [_ Ht] & _) E]. by rewrite <- E.
Qed.

(** ** Executable histories *)

Definition agrees_check (r : ExecutionReport) (k : Keeper) (t : TE (P := P) (S := S)) : bool :=
  match on_order r k (strategy_ t, book_ t, order_manager_ t) with
  | Some (_, _, m) =>
      bool_decide (good_report scale_int (ticker_ t) r m) && bool_decide (whole_report (qty_increment_ (venue_policy_ m)) r)
  | None => true
  end.

Lemma agrees_check_ok r k t : agrees_check r k t = true -> report_agrees r k t.
Proof.
  unfold agrees_check, report_agrees. intros Hc s b m E. rewrite E in Hc.
  apply andb_true_iff in Hc as [H1%bool_decide_eq_true H2%bool_decide_eq_true]. done.
Qed.

(** Runs market updates and reports at time [now], as long as the reports agree. *)
Fixpoint replay (now : Z) (steps : list (MarketData + ExecutionReport)) (t : TE (P := P) (S := S)) : option TE :=
  match steps with
  | [] => Some t
  | inl md :: steps => t ← engine_market_data md t; replay now steps t
  | inr r :: steps =>
      if agrees_check r (keeper_for r t) t then t ← engine_report now r t; replay now steps t else None
  end.

Lemma replay_run now steps t t' : replay now steps t = Some t' -> engine_run t t'.
Proof.
  revert t. induction steps as [|[md|r] steps IH]; intros t; cbn [replay]; [intros [= <-]; apply run_done| |].
  - intros (t1 & E & Hr)%bind_Some. eapply run_market; [exact E | by apply IH].
  - destruct (agrees_check _ _ _) eqn:Ha; [|done]. intros (t1 & E & Hr)%bind_Some.
    eapply run_report; [exact E | by apply agrees_check_ok | by apply IH].
Qed.

End engine.

Arguments replay {S P _} scale_int on_book on_trade on_order.
Arguments engine_market_data {S P _} on_book on_trade.
Arguments engine_report {S P} scale_int on_order.
Arguments engine_run {S P _} scale_int on_book on_trade on_order.
Arguments system_exact {S P} trades.

End EngineStrategy.
