(* ===== verification/MakerEngine.v ===== *)
(** * The trade engine with the mean reversion maker
      (src/hft/src/trade_engine.hpp with mean_reversion_maker.h and order_manager.hpp)

    The strategy parameter of [TradeEngine] instantiated by the maker over the
    order manager.  The readings of the clock come from a sequence, one element
    per callback; the average price of a report, a [double], is a function of the
    report. *)

From S2P Require Import Prelude BitScan MemoryPool Types OrderBook OrderBookFacts OrderBookRefine OrderBookPeek FixedPoint PositionKeeper RiskManager LayerBook QuoteReconciler OrderStateManager OrderExpiry OrderManager OrderManagerFacts FeatureEngine RobustZScore WallThreshold WallDetector MarketPhase MakerScores AdverseSelection MeanReversionMaker MakerFacts MakerSafety MakerOrders OrderBatches MarketConsumer TradeEngine EngineStrategy.

Module MakerEngine.

Import PositionKeeper RiskManager QuoteReconciler OrderManager OrderManagerFacts Maker MakerFacts OrderBatches MakerOrders TradeEngine EngineStrategy.

Record Readings := mkReadings {
  r_book : Z;
  r_trade : TradeClock;
  r_report : Z;
  r_report_apply : Z * Z;
}.

Section engine.
Context {P : Type} `{NodePool P} `{NthElement} (fp : FixedPointConfig) (cfg : MakerConfig).
Context (scale_int : Z) (rc : Reconciler) (reorder : bool) (risk : RiskTable).
Context (readings : nat -> Readings) (avg_price : ExecutionReport -> Z).

(** The maker and the number of callbacks it has run. *)
Definition Strat : Type := State * nat.

Definition maker_call (s : Strat * Book P * OM) (f : Readings -> World (P := P) (M := OM) -> option (World (P := P) (M := OM)))
    : option (Strat * Book P * OM) :=
  let '(s, n, b, m) := s in
  w ← f (readings n) (mkWorld s b m);
  Some (st w, S n, bk w, om w).

Definition maker_on_orderbook (ticker : string) (price : Z) (side : Side) (fe : FeatureEngine.Engine)
    (keeper : Keeper) (s : Strat * Book P * OM) : option (Strat * Book P * OM) :=
  maker_call s (fun c => Maker.on_orderbook_updated fp cfg ticker (r_book c)).

Definition maker_on_trade (md : MarketData) (fe : FeatureEngine.Engine) (keeper : Keeper)
    (s : Strat * Book P * OM) : option (Strat * Book P * OM) :=
  maker_call s (fun c => Maker.on_trade_updated fp cfg (om_apply fp scale_int rc reorder risk keeper) (r_trade c) md).

Definition maker_on_order (r : ExecutionReport) (keeper : Keeper) (s : Strat * Book P * OM)
    : option (Strat * Book P * OM) :=
  maker_call s (fun c => Maker.on_order_updated cfg (om_apply fp scale_int rc reorder risk keeper)
    (r_report c) (r_report_apply c) keeper r (avg_price r)).

(** The maker trades the ticker it last saw a book of. *)
Definition maker_trades (ticker : string) (s : Strat) : Prop := Maker.ticker_ s.1 = ticker.

(** The maker is a strategy of the engine. *)
Abbreviation maker_market_data := (engine_market_data maker_on_orderbook maker_on_trade).
Abbreviation maker_run := (engine_run scale_int maker_on_orderbook maker_on_trade maker_on_order).

Lemma orderbook_ticker ticker now (w w' : World (P := P) (M := OM)) :
  Maker.on_orderbook_updated fp cfg ticker now w = Some w' -> Maker.ticker_ (st w') = ticker.
Proof.
  unfold Maker.on_orderbook_updated. case_match; [by intros [= <-]|]. cbv zeta.
  destruct (WallThreshold.update_orderbook_threshold _ _ _ _) as [[t b]|]; simpl; [|done].
  destruct (WallDetector.detect_wall _ kBuy _ _ _ _ _ _ _) as [[[[bi q] i] b1]|]; simpl; [|done].
  destruct (WallDetector.detect_wall _ kSell _ _ _ _ _ _ _) as [[[[ai q'] i'] b2]|]; simpl; [|done].
  by intros [= <-].
Qed.

Lemma trade_ticker ap clk md (w w' : World (P := P) (M := OM)) :
  Maker.on_trade_updated fp cfg ap clk md w = Some w' -> Maker.ticker_ (st w') = Maker.ticker_ (st w).
Proof.
  intros Ht. destruct (is_bbo_valid (bbo (bk w))) eqn:Hv.
  - destruct (trade_cases fp cfg ap clk md w w' Hv Ht) as (s1 & batches & Hs & _ & _ & _ & E & _).
    apply update_signals_frame in Hs as (E' & _). congruence.
  - unfold Maker.on_trade_updated in Ht. rewrite Hv in Ht. by injection Ht as <-.
Qed.

#[global] Instance maker_exact : ExactStrategy maker_trades maker_on_orderbook maker_on_trade maker_on_order.
Proof.
  split; intros; intros [s n] b m [s' n'] b' m' (Hs & Ht & Hl);
    unfold maker_on_orderbook, maker_on_trade, maker_on_order, maker_call, exact, maker_trades in *; cbn in *.
  - destruct (Maker.on_orderbook_updated _ _ _ _ _) as [w|] eqn:E; cbn; [|done]. intros [= <- <- <- <-]. cbn.
    apply orderbook_frame in E as E'. apply orderbook_ticker in E. cbn in E'. destruct E' as (_ & -> & _). done.
  - destruct (Maker.on_trade_updated _ _ _ _ _ _) as [w|] eqn:E; cbn; [|done]. intros [= <- <- <- <-]. cbn.
    split; [apply trade_ticker in E; cbn in E; congruence|].
    eapply (maker_keeps_reservation fp cfg scale_int rc reorder risk keeper ticker (mkWorld s b m) w Hs Ht Hl).
    left. by do 2 eexists.
  - destruct (Maker.on_order_updated _ _ _ _ _ _ _ _) as [w|] eqn:E; cbn; [|done]. intros [= <- <- <- <-]. cbn.
    split; [apply report_ticker in E; cbn in E; congruence|].
    eapply (maker_keeps_reservation fp cfg scale_int rc reorder risk keeper ticker (mkWorld s b m) w Hs Ht Hl).
    right. by do 5 eexists.
Qed.

End engine.

Definition demo_readings (n : nat) : Readings := mkReadings 0 demo_clock 9 (9, 9).

End MakerEngine.
