(* ===== verification/DirectionalStrategy.v ===== *)
(** * Directional strategy (src/hft/src/strategy/directional_strategy/directional_strategy.h)

    The strategy compares the middle of the book ticker with the volume-weighted
    price and multiplies the difference with the imbalance of the book; beyond a
    threshold it enters, below another one it leaves.  It keeps two buffers of
    quantities; its other callbacks are empty.

    The theorems: what it sends in every case; the two cases in which the
    product of the signals does not do what the names of the branches say; that
    the callback returns; and that the trade engine with this strategy keeps its
    reservation exact. *)

From S2P Require Import Prelude BitScan MemoryPool Types Text IniConfig OrderBook OrderBookFacts OrderBookRefine OrderBookPeek PositionKeeper RiskManager LayerBook QuoteReconciler OrderStateManager OrderManager OrderManagerFacts OrderBatches FeatureEngine TradeEngine EngineStrategy.

Module Directional.

Import PositionKeeper QuoteReconciler.

Record DirectionalConfig := mkDirectionalConfig {
  supports_position_side : bool;
  obi_level_ : Z;
  safety_margin_ : Z;
  minimum_spread_ : Z;
  enter_threshold_ : Z;
  exit_threshold_ : Z;
  position_variance_ : Z;
}.

Record Buffers := mkBuffers { bid_qty_ : list Z; ask_qty_ : list Z }.

Definition kDefaultOBILevel10 : Z := 10.
Definition kDeltaScale : Z := 100.

(** The constructor reads the configuration; [safety_margin] is the truncated
    product of a double ([Binary64.cast_scaled]). *)
Definition config_from_ini (supports : bool) (safety_margin : Z) (ini : IniConfig.Ini) : DirectionalConfig :=
  let strategy := Text.codes "strategy" in
  mkDirectionalConfig supports
    (IniConfig.get_int strategy (Text.codes "obi_level") kDefaultOBILevel10 ini)
    safety_margin
    (IniConfig.get_int64 strategy (Text.codes "minimum_spread") 0 ini)
    (IniConfig.get_int64 strategy (Text.codes "enter_threshold") 0 ini)
    (IniConfig.get_int64 strategy (Text.codes "exit_threshold") 0 ini)
    (IniConfig.get_int64 strategy (Text.codes "position_variance") 0 ini).

(** The assertion of the constructor. *)
Definition level_asserted (level : Z) : bool := (0 <? level) && (Z.land level (level - 1) =? 0).

Definition new_buffers (cfg : DirectionalConfig) : Buffers :=
  mkBuffers (replicate (Z.to_nat (obi_level_ cfg)) 0) (replicate (Z.to_nat (obi_level_ cfg)) 0).

Definition valid_bbo (b : BBO) : bool :=
  is_valid (bid_qty b) && is_valid (ask_qty b) && is_valid (bid_price b) && is_valid (ask_price b) &&
  (bid_price b <=? ask_price b).

Section strategy.
Context {P : Type} `{NodePool P} (cfg : DirectionalConfig).

(** [delta_obi_scaled], from the features and the imbalance. *)
Definition delta_obi (fe : FeatureEngine.Engine) (obi : Z) : Z :=
  let vwap := FeatureEngine.vwap_raw_ fe in
  let mid := FeatureEngine.get_mid_price fe in
  let denom := Z.max (FeatureEngine.get_spread_fast fe) (minimum_spread_ cfg) in
  let delta_scaled := if 0 <? denom then Z.quot ((mid - vwap) * kDeltaScale) denom else 0 in
  delta_scaled * obi.

(** [signal / position_variance_]; a division by zero ends the process. *)
Definition order_qty (delta : Z) : option Z :=
  if position_variance_ cfg =? 0 then None else Some (Z.quot (Z.abs delta) (position_variance_ cfg)).

Definition make_quote_intent (ticker : string) (side : Side) (pos : PositionSide) (price qty : Z) : QuoteIntent :=
  mkIntent ticker side (if supports_position_side cfg then Some pos else None) (Some price) qty.

Definition one_intent (ticker : string) (side : Side) (pos : PositionSide) (price delta : Z) :
    option (list QuoteIntent) :=
  qty ← order_qty delta; Some [make_quote_intent ticker side pos price qty].

(** The intents of [on_trade_updated]; an unknown ticker is a null position. *)
Definition directional_intents (ticker : string) (b : BBO) (keeper : Keeper) (delta : Z) :
    option (list QuoteIntent) :=
  let margin := safety_margin_ cfg in
  if enter_threshold_ cfg <? delta then one_intent ticker kBuy kLong (bid_price b - margin) delta
  else if delta <? - enter_threshold_ cfg then one_intent ticker kSell kShort (ask_price b + margin) delta
  else if delta <? exit_threshold_ cfg then
    if supports_position_side cfg then
      pos_info ← get_position_info ticker keeper;
      if 0 <? long_position_raw_ pos_info then one_intent ticker kSell kLong (bid_price b + margin) delta
      else Some []
    else Some []
  else if - exit_threshold_ cfg <? delta then
    if supports_position_side cfg then
      pos_info ← get_position_info ticker keeper;
      if 0 <? short_position_raw_ pos_info then one_intent ticker kBuy kShort (ask_price b - margin) delta
      else Some []
    else Some []
  else Some [].

(** The levels that [peek_qty] does not fill keep their old quantities. *)
Definition refresh (s : Buffers) (bk : Book P) : Buffers * Book P :=
  let '(_, bids, _, bid_s) := peek_qty true (obi_level_ cfg) (bid_qty_ s) [] (bid_side bk) in
  let '(_, asks, _, ask_s) := peek_qty false (obi_level_ cfg) (ask_qty_ s) [] (ask_side bk) in
  (mkBuffers bids asks, set_side false ask_s (set_side true bid_s bk)).

Definition imbalance (s : Buffers) : Z := FeatureEngine.orderbook_imbalance_int64 (bid_qty_ s) (ask_qty_ s).

Context {M : Type} (apply : list QuoteIntent -> M -> option (M * list Z)).

Definition on_trade_updated (md : MarketData) (fe : FeatureEngine.Engine) (keeper : Keeper)
    (s : Buffers * Book P * M) : option (Buffers * Book P * M) :=
  let '(buffers, bk, m) := s in
  if negb (valid_bbo (bbo bk)) then Some s
  else
    let '(buffers, bk) := refresh buffers bk in
    intents ← directional_intents (md_ticker_id md) (bbo bk) keeper (delta_obi fe (imbalance buffers));
    '(m, _) ← apply intents m;
    Some (buffers, bk, m).

Definition on_orderbook_updated (ticker : string) (price : Z) (side : Side) (fe : FeatureEngine.Engine)
    (keeper : Keeper) (s : Buffers * Book P * M) : option (Buffers * Book P * M) := Some s.

Definition on_order_updated (r : ExecutionReport) (keeper : Keeper) (s : Buffers * Book P * M) :
    option (Buffers * Book P * M) := Some s.

(** ** What is sent *)

Lemma refresh_bbo_same s (bk : Book P) : bbo (refresh s bk).2 = bbo bk.
Proof.
  unfold refresh. destruct (peek_qty true _ _ _ _) as [[[? ?] ?] ?], (peek_qty false _ _ _ _) as [[[? ?] ?] ?]. done.
Qed.

(** One intent at a price, with the quantity of the signal. *)
Lemma one_intent_Some ticker side pos price delta l :
  one_intent ticker side pos price delta = Some l ->
  position_variance_ cfg <> 0 /\
  l = [make_quote_intent ticker side pos price (Z.quot (Z.abs delta) (position_variance_ cfg))].
Proof. unfold one_intent, order_qty. case_match eqn:E; [done|]. intros [= <-]. split; [lia | done]. Qed.

Lemma one_intent_eq ticker side pos price delta :
  position_variance_ cfg <> 0 ->
  one_intent ticker side pos price delta =
  Some [make_quote_intent ticker side pos price (Z.quot (Z.abs delta) (position_variance_ cfg))].
Proof. intros Hv. unfold one_intent, order_qty. by rewrite (proj2 (Z.eqb_neq _ _) Hv). Qed.

(** An intent behind the best price of its side. *)
Definition passive (b : BBO) (i : QuoteIntent) : Prop :=
  match qi_side i with
  | kBuy => exists price, qi_price i = Some price /\ price <= bid_price b
  | kSell => exists price, qi_price i = Some price /\ ask_price b <= price
  | _ => False
  end.

Lemma intents_cases ticker b keeper delta l :
  directional_intents ticker b keeper delta = Some l ->
  l = [] \/
  (position_variance_ cfg <> 0 /\
   exists i, l = [i] /\ qi_ticker i = ticker /\ qi_qty i = Z.quot (Z.abs delta) (position_variance_ cfg) /\
     ((enter_threshold_ cfg < delta /\ qi_side i = kBuy /\ qi_price i = Some (bid_price b - safety_margin_ cfg) /\
       qi_position_side i = if supports_position_side cfg then Some kLong else None) \/
      (delta < - enter_threshold_ cfg /\ qi_side i = kSell /\ qi_price i = Some (ask_price b + safety_margin_ cfg) /\
       qi_position_side i = if supports_position_side cfg then Some kShort else None) \/
      (- enter_threshold_ cfg <= delta < exit_threshold_ cfg /\ qi_side i = kSell /\
       qi_price i = Some (bid_price b + safety_margin_ cfg) /\ qi_position_side i = Some kLong /\
       exists info, get_position_info ticker keeper = Some info /\ 0 < long_position_raw_ info) \/
      (exit_threshold_ cfg <= delta <= enter_threshold_ cfg /\ - exit_threshold_ cfg < delta /\ qi_side i = kBuy /\
       qi_price i = Some (ask_price b - safety_margin_ cfg) /\ qi_position_side i = Some kShort /\
       exists info, get_position_info ticker keeper = Some info /\ 0 < short_position_raw_ info))).
Proof.
  unfold directional_intents. intros Hl.
  destruct (Z.ltb_spec (enter_threshold_ cfg) delta) as [He|He].
  { apply one_intent_Some in Hl as [Hv ->]. right. split; [done|]. eexists. split; [done|]. split_and!; [done..|]. by left. }
  destruct (Z.ltb_spec delta (- enter_threshold_ cfg)) as [Hs|Hs].
  { apply one_intent_Some in Hl as [Hv ->]. right. split; [done|]. eexists. split; [done|]. split_and!; [done..|]. by right; left. }
  destruct (Z.ltb_spec delta (exit_threshold_ cfg)) as [Hx|Hx].
  - destruct (supports_position_side cfg) eqn:Hp; [|injection Hl as <-; by left].
    destruct (get_position_info ticker keeper) as [info|] eqn:Hi; cbn [mbind option_bind] in Hl; [|done].
    destruct (Z.ltb_spec 0 (long_position_raw_ info)); [|injection Hl as <-; by left].
    apply one_intent_Some in Hl as [Hv ->]. right. split; [done|]. eexists. split; [done|]. split_and!; [done..|].
    right; right; left. cbn. rewrite Hp. split_and!; [lia | lia | done | done | done | by eexists].
  - destruct (Z.ltb_spec (- exit_threshold_ cfg) delta) as [Hn|Hn]; [|injection Hl as <-; by left].
    destruct (supports_position_side cfg) eqn:Hp; [|injection Hl as <-; by left].
    destruct (get_position_info ticker keeper) as [info|] eqn:Hi; cbn [mbind option_bind] in Hl; [|done].
    destruct (Z.ltb_spec 0 (short_position_raw_ info)); [|injection Hl as <-; by left].
    apply one_intent_Some in Hl as [Hv ->]. right. split; [done|]. eexists. split; [done|]. split_and!; [done..|].
    right; right; right. cbn. rewrite Hp. split_and!; [lia | lia | lia | done | done | done | by eexists].
Qed.

(** An intent that closes the leg it names, which is open. *)
Definition closes (ticker : string) (keeper : Keeper) (i : QuoteIntent) : Prop :=
  exists info, get_position_info ticker keeper = Some info /\
    ((qi_position_side i = Some kLong /\ qi_side i = kSell /\ 0 < long_position_raw_ info) \/
     (qi_position_side i = Some kShort /\ qi_side i = kBuy /\ 0 < short_position_raw_ info)).

(** What a trade makes the directional strategy send.  With a valid quote
    the order manager gets exactly one batch, of no intent or of one for the
    ticker of the trade; its quantity is the signal divided by the variance.  It
    is either an entry, sent for a signal beyond the entry threshold, at or
    behind the best price of its side, or it closes a leg that is open. *)
Theorem directional_sends_one md fe keeper buffers bk m buffers' bk' m' :
  0 <= safety_margin_ cfg -> 0 <= enter_threshold_ cfg -> 0 < position_variance_ cfg ->
  valid_bbo (bbo bk) = true ->
  on_trade_updated md fe keeper (buffers, bk, m) = Some (buffers', bk', m') ->
  let delta := delta_obi fe (imbalance buffers') in
  exists intents ids, apply intents m = Some (m', ids) /\
    (intents = [] \/
     exists i, intents = [i] /\ qi_ticker i = md_ticker_id md /\
       qi_qty i = Z.abs delta / position_variance_ cfg /\
       ((enter_threshold_ cfg < Z.abs delta /\ passive (bbo bk) i) \/ closes (md_ticker_id md) keeper i)).
Proof.
  intros Hm He Hv Hb. unfold on_trade_updated. rewrite Hb. cbn [negb].
  pose proof (refresh_bbo_same buffers bk) as Hq. destruct (refresh buffers bk) as [s1 b1]. cbn [snd] in Hq. rewrite Hq.
  destruct (directional_intents _ _ _ _) as [l|] eqn:El; cbn [mbind option_bind]; [|done].
  destruct (apply l m) as [[m1 ids]|] eqn:Ea; cbn; [|done]. intros [= <- <- <-]. exists l, ids. split; [done|].
  apply intents_cases in El as [->|(_ & i & -> & Ht & Hqty & Hc)]; [by left|]. right. exists i.
  rewrite Z.quot_div_nonneg in Hqty by lia. split_and!; [done..|].
  destruct Hc as [(Hd & Hs & Hp & _)|[(Hd & Hs & Hp & _)|[(_ & Hs & _ & Hps & info & Hi & Hpos)|(_ & _ & Hs & _ & Hps & info & Hi & Hpos)]]].
  - left. unfold passive. rewrite Hs. split; [lia|]. eexists. split; [done | lia].
  - left. unfold passive. rewrite Hs. split; [lia|]. eexists. split; [done | lia].
  - right. exists info. split; [done|]. by left.
  - right. exists info. split; [done|]. by right.
Qed.

(** A falling market that sellers dominate is bought.  The signal is the
    product of the distance to the volume-weighted price and the imbalance; when
    both are negative it is positive, and beyond the threshold the branch of the
    long entry runs, with the order that the opposite market would give. *)
Theorem falling_market_is_bought ticker b keeper fe obi :
  position_variance_ cfg <> 0 -> 0 < minimum_spread_ cfg ->
  FeatureEngine.get_mid_price fe < FeatureEngine.vwap_raw_ fe -> obi < 0 ->
  enter_threshold_ cfg < delta_obi fe obi ->
  exists i, directional_intents ticker b keeper (delta_obi fe obi) = Some [i] /\ qi_side i = kBuy /\
    0 <= delta_obi fe obi.
Proof.
  intros Hv Hs Hmid Hobi Henter. unfold directional_intents.
  rewrite (proj2 (Z.ltb_lt _ _) Henter), one_intent_eq by done. eexists. split; [done|]. split; [done|].
  unfold delta_obi in *. rewrite (proj2 (Z.ltb_lt _ _)) in * by lia. unfold kDeltaScale.
  set (denom := Z.max _ _). assert (0 < denom) by lia.
  set (gap := FeatureEngine.vwap_raw_ fe - FeatureEngine.get_mid_price fe).
  replace (FeatureEngine.get_mid_price fe - FeatureEngine.vwap_raw_ fe) with (- gap) by lia.
  rewrite Z.mul_opp_l, Z.quot_opp_l by lia.
  pose proof (Z.quot_pos (gap * 100) denom ltac:(lia) ltac:(lia)). nia.
Qed.

(** An open short is not closed by a neutral signal.  For a signal between
    minus and plus the exit threshold the branch of the long exit shadows the one
    of the short exit: with a short and no long nothing is sent. *)
Theorem neutral_signal_keeps_short ticker b keeper info delta :
  exit_threshold_ cfg <= enter_threshold_ cfg ->
  get_position_info ticker keeper = Some info -> long_position_raw_ info = 0 -> 0 < short_position_raw_ info ->
  - exit_threshold_ cfg < delta < exit_threshold_ cfg ->
  directional_intents ticker b keeper delta = Some [].
Proof.
  intros He Hi Hl Hsh Hd. unfold directional_intents.
  rewrite (proj2 (Z.ltb_ge _ _)), (proj2 (Z.ltb_ge _ _)), (proj2 (Z.ltb_lt delta _)) by lia.
  destruct (supports_position_side cfg); [|done]. rewrite Hi. cbn. by rewrite Hl.
Qed.

(** The callback returns for every trade, book and signal, when the variance
    is not zero, the ticker is known and the order manager answers. *)
Theorem directional_callback_total md fe keeper buffers bk m :
  (forall batch m, is_Some (apply batch m)) -> position_variance_ cfg <> 0 ->
  is_Some (get_position_info (md_ticker_id md) keeper) ->
  exists s', on_trade_updated md fe keeper (buffers, bk, m) = Some s'.
Proof.
  intros Ha Hv [info Hi]. unfold on_trade_updated. destruct (valid_bbo (bbo bk)); cbn [negb]; [|by eexists].
  destruct (refresh buffers bk) as [s1 b1].
  assert (Hin : is_Some (directional_intents (md_ticker_id md) (bbo b1) keeper (delta_obi fe (imbalance s1)))).
  { unfold directional_intents. rewrite Hi. cbn. rewrite !one_intent_eq by done. repeat case_match; by eexists. }
  destruct Hin as [l ->]. cbn. destruct (Ha l m) as [[m' ids] ->]. by eexists.
Qed.

End strategy.

(** A configuration without the variance gives zero, and the first signal divides by it. *)
Lemma missing_variance_stops supports margin ini ticker b keeper delta :
  IniConfig.has_key (Text.codes "strategy") (Text.codes "position_variance") ini = false ->
  let cfg := config_from_ini supports margin ini in
  enter_threshold_ cfg < delta -> directional_intents cfg ticker b keeper delta = None.
Proof.
  intros Hk cfg Hd. unfold directional_intents. rewrite (proj2 (Z.ltb_lt _ _) Hd). unfold one_intent, order_qty.
  replace (position_variance_ cfg) with 0; [done|]. symmetry. unfold cfg, config_from_ini. cbn [position_variance_].
  unfold IniConfig.get_int64, IniConfig.get. unfold IniConfig.has_key in Hk. apply bool_decide_eq_false in Hk.
  destruct (IniConfig.data_ ini !! _); [by destruct Hk; eexists | done].
Qed.

(** ** Witnesses *)

#[local] Existing Instance bucket_pool_impl.

Definition demo_cfg : DirectionalConfig := mkDirectionalConfig true 4 2 1 100000 1000 500.
Definition demo_bbo : BBO := mkBBO 1000 1004 50 10.
Definition demo_book : Book MemoryPool.pool :=
  set_bbo demo_bbo (new_book (from_ini 1 8192) (MemoryPool.create 2) (MemoryPool.create 2)).
Definition demo_features (vwap : Z) : FeatureEngine.Engine :=
  FeatureEngine.mkEngine 0 64 0 0 0 0 0 vwap [] [] [] 0 0 (FeatureEngine.mkTicker 1000 50 1004 10).
Definition demo_trade : MarketData := mkMarketData MUTrade 1 "BTCUSDC" kSell 1000 10.
(** Buffers of an earlier trade: the empty book leaves them as they are. *)
Definition demo_buffers : Buffers := mkBuffers [50; 40; 30; 20] [5; 5; 5; 5].
(** The order manager that takes every batch and remembers it. *)
Definition taking (batch : list QuoteIntent) (m : list (list QuoteIntent)) :
  option (list (list QuoteIntent) * list Z) := Some (batch :: m, []).

Lemma directional_sends_one_witness :
  exists buffers' bk' m',
    on_trade_updated demo_cfg taking demo_trade (demo_features 990) OrderManagerFacts.demo_keeper (demo_buffers, demo_book, []) =
      Some (buffers', bk', m') /\
    m' = [[mkIntent "BTCUSDC" kBuy (Some kLong) (Some 998) 4500]] /\
    exists intents ids, taking intents [] = Some (m', ids) /\
      (intents = [] \/
       exists i, intents = [i] /\ qi_ticker i = "BTCUSDC" /\
         qi_qty i = Z.abs (delta_obi demo_cfg (demo_features 990) (imbalance buffers')) / 500 /\
         ((100000 < Z.abs (delta_obi demo_cfg (demo_features 990) (imbalance buffers')) /\ passive demo_bbo i) \/
          closes "BTCUSDC" OrderManagerFacts.demo_keeper i)).
Proof.
  destruct (on_trade_updated demo_cfg taking demo_trade (demo_features 990) OrderManagerFacts.demo_keeper (demo_buffers, demo_book, []))
    as [[[buffers' bk'] m']|] eqn:E; [|exfalso; by vm_compute in E].
  exists buffers', bk', m'. split; [done|]. split; [vm_compute in E; injection E as _ _ <-; reflexivity|].
  apply (directional_sends_one demo_cfg taking demo_trade (demo_features 990) OrderManagerFacts.demo_keeper demo_buffers demo_book []
    buffers' bk' m'); [cbn; lia | cbn; lia | cbn; lia | reflexivity | exact E].
Defined.

Lemma falling_market_is_bought_witness :
  imbalance (mkBuffers [5; 5; 5; 5] [50; 40; 30; 20]) = -7500 /\
  exists i, directional_intents demo_cfg "BTCUSDC" demo_bbo OrderManagerFacts.demo_keeper
      (delta_obi demo_cfg (demo_features 1014) (-7500)) = Some [i] /\
    qi_side i = kBuy /\ 0 <= delta_obi demo_cfg (demo_features 1014) (-7500).
Proof.
  split; [reflexivity|].
  apply (falling_market_is_bought demo_cfg "BTCUSDC" demo_bbo OrderManagerFacts.demo_keeper (demo_features 1014) (-7500));
    vm_compute; congruence.
Defined.

Definition short_keeper : Keeper :=
  {[ "BTCUSDC" := mkPos (-20) 0 20 0 0 0 0 0 0 0 0 0 [0; 0] 0 None ]}.

Lemma neutral_signal_keeps_short_witness :
  directional_intents demo_cfg "BTCUSDC" demo_bbo short_keeper 10 = Some [].
Proof.
  apply (neutral_signal_keeps_short demo_cfg "BTCUSDC" demo_bbo short_keeper (mkPos (-20) 0 20 0 0 0 0 0 0 0 0 0 [0; 0] 0 None));
    vm_compute; [congruence | done | done | done | done].
Defined.

Lemma directional_callback_total_witness :
  exists s', on_trade_updated demo_cfg taking demo_trade (demo_features 990) OrderManagerFacts.demo_keeper
    (demo_buffers, demo_book, []) = Some s'.
Proof.
  apply directional_callback_total; [by eexists | done | by vm_compute; eexists].
Defined.

(** The default number of levels does not pass the assertion of the constructor. *)
Example default_level_refused : level_asserted kDefaultOBILevel10 = false.
Proof. reflexivity. Qed.

End Directional.

(** ** The trade engine with the directional strategy *)

Module DirectionalEngine.

Import PositionKeeper QuoteReconciler Directional.
Import RiskManager OrderManager OrderManagerFacts OrderBatches TradeEngine EngineStrategy.

Lemma intents_small cfg ticker b keeper delta l :
  directional_intents cfg ticker b keeper delta = Some l -> small_batch ticker l.
Proof.
  intros Hl. apply intents_cases in Hl as [->|(_ & i & -> & Ht & _ & Hc)]; [by left|]. right. exists i. split; [done|].
  split; [done|]. unfold key_ok.
  destruct Hc as [(_ & -> & _ & ->)|[(_ & -> & _ & ->)|[(_ & -> & _ & -> & _)|(_ & _ & -> & _ & -> & _)]]];
    (split; [auto | by destruct (supports_position_side cfg)]).
Qed.

Section engine.
Context {P : Type} `{NodePool P} (cfg : DirectionalConfig) (fp : FixedPointConfig).
Context (scale_int : Z) (rc : Reconciler) (reorder : bool) (risk : RiskTable) (readings : nat -> Z * Z).

(** The buffers and the number of trades seen, which counts the readings of the clock. *)
Definition Strat : Type := Buffers * nat.

Definition directional_on_trade (md : MarketData) (fe : FeatureEngine.Engine) (keeper : Keeper)
    (s : Strat * Book P * OM) : option (Strat * Book P * OM) :=
  let '(s, n, b, m) := s in
  '(s, b, m) ← Directional.on_trade_updated cfg (om_apply fp scale_int rc reorder risk keeper (readings n)) md fe keeper (s, b, m);
  Some (s, S n, b, m).

Definition directional_on_orderbook (ticker : string) (price : Z) (side : Side) (fe : FeatureEngine.Engine)
    (keeper : Keeper) (s : Strat * Book P * OM) : option (Strat * Book P * OM) := Some s.

Definition directional_on_order (r : ExecutionReport) (keeper : Keeper) (s : Strat * Book P * OM)
    : option (Strat * Book P * OM) := Some s.

(** The strategy quotes whatever ticker it gets a trade of. *)
Definition any_ticker (_ : string) (_ : Strat) : Prop := True.

#[global] Instance directional_exact :
  ExactStrategy any_ticker directional_on_orderbook directional_on_trade directional_on_order.
Proof.
  split; intros; intros [s n] b m [s' n'] b' m' (Hs & Ht & Hl); [by intros [= <- <- <- <-]| |by intros [= <- <- <- <-]].
  unfold directional_on_trade, Directional.on_trade_updated. destruct (valid_bbo (bbo b)); cbn [negb]; [|by intros [= <- <- <- <-]].
  destruct (refresh cfg s b) as [s1 b1].
  destruct (directional_intents _ _ _ _ _) as [l|] eqn:El; cbn [mbind option_bind]; [|done].
  apply intents_small in El. rewrite H0 in El.
  destruct (om_apply _ _ _ _ _ _ _ l m) as [[m1 ids]|] eqn:Ea; cbn; [|done]. intros [= <- <- <- <-].
  split; [done|]. by eapply apply_small.
Qed.

(** The trade engine with the directional strategy keeps its reservation exact in
    every history of market updates and of reports that agree with their slots,
    from a state in which it is: it is a strategy that sends small batches of the
    ticker, like the mean reversion maker. *)
Theorem directional_keeps_reservation t t' :
  system_exact any_ticker t ->
  engine_run scale_int directional_on_orderbook directional_on_trade directional_on_order t t' ->
  position_tracker_ (order_manager_ t') = net_exposure (ticker_ t) (layer_book_ (order_manager_ t')).
Proof. apply (run_reservation scale_int). Qed.

End engine.

#[local] Existing Instance bucket_pool_impl.

(** The engine after a book ticker, at the first trade: the trade itself sets the
    volume-weighted price, and the buffers hold the levels of an earlier book. *)
Definition demo_engine : TE (P := MemoryPool.pool) (S := Strat) :=
  mkTE "BTCUSDC" demo_book (demo_features 0) OrderManagerFacts.demo_keeper OrderManagerFacts.demo_om (demo_buffers, 0%nat).
Definition demo_risk : RiskTable := {[ "BTCUSDC" := mkRiskCfg 10000 5000 (-5000) (-1000) ]}.
Definition demo_step (t : TE (P := MemoryPool.pool) (S := Strat)) : option TE :=
  engine_market_data directional_on_orderbook
    (directional_on_trade Directional.demo_cfg BTCUSDCConfig 1 demo_rc false demo_risk (fun _ => (9, 9))) demo_trade t.

Lemma directional_keeps_reservation_witness :
  exists t', demo_step demo_engine = Some t' /\
    position_tracker_ (order_manager_ t') = net_exposure "BTCUSDC" (layer_book_ (order_manager_ t')) /\
    0 < position_tracker_ (order_manager_ t').
Proof.
  destruct (demo_step demo_engine) as [t'|] eqn:E; [|exfalso; by vm_compute in E].
  exists t'. split; [done|]. split; [|vm_compute in E; injection E as <-; by vm_compute].
  apply (directional_keeps_reservation Directional.demo_cfg BTCUSDCConfig 1 demo_rc false demo_risk (fun _ => (9, 9)) demo_engine t').
  - split; [done|]. split; [exact demo_om_tracks|]. by apply fresh_lots_ok.
  - eapply run_market; [exact E | apply run_done].
Defined.

End DirectionalEngine.
