(* ===== verification/System.v ===== *)
(** * The configured program
      (src/hft/src/trade_engine.hpp, the constructor of [TradeEngine], with what
       src/main.cpp gives it)

    The trade engine as the program builds it: book, features, positions, risk
    limits, order manager and maker from one configuration, over the pools of
    buckets.  The histories are those of [EngineStrategy]; here they start with the
    program, before the first quote, when the maker does not know its ticker yet.

    The theorems: from the start of the program the reserved position is the
    exposure of the working orders, and until the first quote nothing is sent. *)

From S2P Require Import Prelude BitScan MemoryPool Types OrderBook OrderBookFacts OrderBookRefine FixedPoint PositionKeeper RiskManager LayerBook QuoteReconciler OrderStateManager OrderExpiry OrderManager OrderManagerFacts FeatureEngine WallThreshold MeanReversionMaker MakerFacts OrderBatches MakerOrders TradeEngine EngineStrategy MakerEngine Text IniConfig Binary64 MakerSettings Startup.

Module System.

Import PositionKeeper RiskManager QuoteReconciler OrderManager OrderManagerFacts Maker MakerFacts OrderBatches TradeEngine EngineStrategy MakerEngine IniConfig.

Section System.
Context (fp : FixedPointConfig) (ini : Ini) (position_side reorder : bool).
Context `{NthElement}.
#[local] Existing Instance bucket_pool_impl.

(** [OrderBookConfig::from_ini()] with its two settings. *)
Definition book_config : OrderBookConfig :=
  from_ini (Startup.int ini "orderbook" "min_price_int" kDefaultMinPriceInt)
    (Startup.int ini "orderbook" "max_price_int" kDefaultMaxPriceInt).

(** The book of the ticker, with a pool of buckets per side. *)
Definition book : Book MemoryPool.pool :=
  new_book book_config (MemoryPool.create (bucket_pool_size book_config)) (MemoryPool.create (bucket_pool_size book_config)).

Definition kVwapSize : Z := 64.
Definition features : FeatureEngine.Engine := FeatureEngine.new_engine (Startup.int ini "strategy" "vwap_size" kVwapSize).

Definition maker_config : MakerConfig := MakerSettings.read_config fp ini position_side.
Definition tick_scale : Z := Startup.scale_int (Startup.new_tick_converter fp (Startup.ticker_size ini)).

(** The members of the engine that the callbacks change. *)
Definition new_trade_engine : option (TE (P := MemoryPool.pool) (S := Strat)) :=
  m ← Startup.order_manager fp ini;
  Some (mkTE (Startup.ticker ini) book features (new_keeper (Startup.ticker ini)) m (new_maker maker_config, 0%nat)).

(** The table of the risk manager. *)
Definition risk_table : RiskTable := {[ Startup.ticker ini := Startup.risk_cfg fp ini ]}.

Lemma risk_table_built : new_risk_manager (Startup.ticker ini) (Startup.config_map fp ini) = Some risk_table.
Proof. unfold new_risk_manager, Startup.config_map. by rewrite lookup_singleton_eq. Qed.

(** ** Histories of the configured engine *)

Context (readings : nat -> Readings) (avg_price : ExecutionReport -> Z).
Abbreviation Engine := (TE (P := MemoryPool.pool) (S := Strat)).
Abbreviation on_book := (maker_on_orderbook fp maker_config readings).
Abbreviation on_trade := (maker_on_trade fp maker_config tick_scale (Startup.reconciler fp ini) reorder risk_table readings).
Abbreviation on_order := (maker_on_order fp maker_config tick_scale (Startup.reconciler fp ini) reorder risk_table readings avg_price).
Abbreviation market_data := (engine_market_data on_book on_trade).
Abbreviation report := (engine_report tick_scale on_order).
Abbreviation run := (engine_run tick_scale on_book on_trade on_order).

(** Before the first quote: no quotes in the book, and a maker without a ticker. *)
Record waiting (t : Engine) : Prop := {
  wt_bbo : is_bbo_valid (bbo (book_ t)) = false;
  wt_maker : Maker.ticker_ (strategy_ t).1 = ""%string;
  wt_keeper : position_keeper_ t !! ""%string = None;
  wt_tracks : tracks (TradeEngine.ticker_ t) (order_manager_ t);
  wt_lots : lots_ok (TradeEngine.ticker_ t) (order_manager_ t);
  wt_sent : sent (order_manager_ t) = [];
}.

Lemma new_engine_waiting t : Startup.ticker ini <> ""%string -> new_trade_engine = Some t -> waiting t.
Proof.
  intros Hn. unfold new_trade_engine, Startup.order_manager.
  destruct (Clock.Clock.to_uint64 (Startup.number _ _ "ttl_reserved_ns" _)) as [ttl|]; cbn [mbind option_bind]; [|done].
  destruct (Clock.Clock.to_uint64 _) as [ttl'|]; cbn [mbind option_bind]; [|done]. intros [= <-]. split; cbn; try done.
  - unfold new_keeper. apply lookup_singleton_None. done.
  - split; cbn [layer_book_ new_order_manager position_tracker_].
    { intros k fw [_ <-]%lookup_singleton_Some. apply new_four_way_wf. }
    unfold net_exposure, fw_of. by rewrite lookup_singleton_eq.
  - by apply fresh_lots_ok.
Qed.

(** Market updates without a quote. *)
Definition no_quote (md : MarketData) : Prop :=
  match md_type md with MUTrade | MUBookTicker | MUClear => True | _ => False end.
#[local] Instance no_quote_dec md : Decision (no_quote md).
Proof. unfold no_quote. destruct (md_type md); apply _. Defined.

(** A trade finds no quotes and sends nothing. *)
Lemma waiting_no_quote md t t' :
  waiting t -> no_quote md -> market_data md t = Some t' -> waiting t' /\ TradeEngine.ticker_ t' = TradeEngine.ticker_ t.
Proof.
  destruct t as [tk b fe k m [s n]]. intros [Hb Hm Hk Ht Hl Hs] Hq. cbn in *.
  unfold engine_market_data, apply_market_data, on_market_data_updated. cbn [TradeEngine.ticker_ book_].
  destruct (negb _); [done|]. destruct (_ || _); cbn [mbind option_bind]; [by intros [= <-]|].
  unfold no_quote in Hq. destruct (md_type md); try done; cbn [mbind option_bind foldl]; [by intros [= <-] | | by intros [= <-]].
  unfold set_book. cbn. unfold TradeEngine.on_trade_updated, set_features, maker_on_trade, maker_call. cbn.
  unfold Maker.on_trade_updated. cbn. rewrite Hb. cbn. by intros [= <-].
Qed.

(** The first quote names the ticker. *)
Lemma quote_exact md t t' :
  waiting t -> ~ no_quote md -> market_data md t = Some t' ->
  TradeEngine.ticker_ t' = TradeEngine.ticker_ t /\ (waiting t' \/ system_exact maker_trades t').
Proof.
  destruct t as [tk b fe k m [s n]]. intros [Hb Hm Hk Ht Hl Hs] Hq. cbn in *.
  unfold engine_market_data, apply_market_data, on_market_data_updated. cbn [TradeEngine.ticker_ book_].
  destruct (String.eqb_spec (md_ticker_id md) tk) as [E|]; [|done]. cbn [negb].
  destruct (_ || _); cbn [mbind option_bind]; [intros [= <-]; split; [done|]; left; by split|].
  assert (Hn : forall b' price side (t1 : Engine),
    notify on_book on_trade (OnOrderbookUpdated (md_ticker_id md) price side) (mkTE tk b' fe k m (s, n)) = Some t1 ->
    TradeEngine.ticker_ t1 = tk /\ (waiting t1 \/ system_exact maker_trades t1)).
  { intros b' price side t1. cbn. unfold TradeEngine.on_orderbook_updated, set_features, maker_on_orderbook, maker_call. cbn.
    destruct (Maker.on_orderbook_updated _ _ _ _ _) as [w|] eqn:Ew; cbn; [|done]. intros [= <-].
    apply orderbook_frame in Ew as Ef. apply orderbook_ticker in Ew. destruct Ef as (_ & Em & _). cbn in Em.
    split; [done|]. right. unfold system_exact, exact, maker_trades. cbn. rewrite Em. split_and!; try done. congruence. }
  unfold no_quote in Hq. destruct (md_type md); try (by destruct Hq);
    try (case_match; cbn [mbind option_bind foldl]; [|done]); apply Hn.
Qed.

Lemma waiting_market md t t' :
  waiting t -> market_data md t = Some t' ->
  TradeEngine.ticker_ t' = TradeEngine.ticker_ t /\ (waiting t' \/ system_exact maker_trades t').
Proof.
  intros Hw E. destruct (decide (no_quote md)) as [Hq|Hq]; [|by eapply quote_exact].
  destruct (waiting_no_quote md t t' Hw Hq E). split; [done | by left].
Qed.

Lemma keeper_fill_other r (k k' : Keeper) t : k !! t = None -> keeper_add_fill r k = Some k' -> k' !! t = None.
Proof.
  unfold keeper_add_fill. intros Hk. destruct (k !! Types.symbol r) as [p|] eqn:E; cbn; [|done]. intros [= <-].
  apply lookup_insert_None. split; [done|]. intros <-. congruence.
Qed.

(** The maker asks for the position of its ticker, which it does not have yet. *)
Lemma waiting_call r k s n (b : Book MemoryPool.pool) m s' (b' : Book MemoryPool.pool) m' :
  Maker.ticker_ s = ""%string -> k !! ""%string = None ->
  on_order r k (s, n, b, m) = Some (s', b', m') -> s' = (s, S n) /\ b' = b /\ m' = m.
Proof.
  intros Hm Hk. unfold maker_on_order, maker_call, Maker.on_order_updated, get_position_info. cbn.
  destruct (negb _); cbn; [by intros [= <- <- <-]|]. by rewrite Hm, Hk.
Qed.

Lemma report_keeps_sent now r m : sent (OrderManager.on_order_updated tick_scale now r m) = sent m.
Proof.
  unfold OrderManager.on_order_updated. destruct (OrderStateManager.handle_execution_report _ _ _ _) as [sb reserved].
  destruct (ord_status r); try done; by case_match.
Qed.

(** A report before the first quote changes the order manager only. *)
Lemma waiting_report now r t t' :
  waiting t -> report_agrees tick_scale (on_order := on_order) r (keeper_for r t) t ->
  report now r t = Some t' -> waiting t' /\ TradeEngine.ticker_ t' = TradeEngine.ticker_ t.
Proof.
  destruct t as [tk b fe k m [s n]]. intros [Hb Hm Hk Ht Hl Hs] Hag Hr.
  unfold engine_report, TradeEngine.on_order_updated, report_agrees, keeper_for in *.
  cbn [position_keeper_ strategy_ book_ order_manager_ TradeEngine.ticker_ fst] in *.
  assert (Hk' : forall k', (if bool_decide (exec_type r = ETTrade) then keeper_add_fill r k else Some k) = Some k' ->
    k' !! ""%string = None /\ (if bool_decide (exec_type r = ETTrade) then default ∅ (keeper_add_fill r k) else k) = k').
  { intros k'. destruct (bool_decide _); [|by intros [= <-]]. intros E. rewrite E. split; [by eapply keeper_fill_other | done]. }
  destruct (if bool_decide _ then _ else Some k) as [k'|]; cbn [mbind option_bind] in Hr; [|done].
  destruct (Hk' k' eq_refl) as [Hn Ek]. rewrite Ek in Hag.
  cbn [position_keeper_ strategy_ book_ order_manager_ set_keeper] in Hr.
  apply bind_Some in Hr as ([[s' b'] m'] & Ec & Hr). destruct (Hag _ _ _ Ec) as [Hgood Hwhole]. clear Hag.
  destruct (waiting_call _ _ _ _ _ _ _ _ _ Hm Hn Ec) as (-> & -> & ->). injection Hr as <-.
  split; [|done]. split; cbn [book_ strategy_ position_keeper_ order_manager_ TradeEngine.ticker_ set_strategy set_book set_keeper fst snd]; try done.
  - by apply report_step_exact.
  - by apply report_step_exact.
  - by rewrite report_keeps_sent.
Qed.

Lemma run_from_waiting t t' :
  waiting t -> run t t' ->
  position_tracker_ (order_manager_ t') = net_exposure (TradeEngine.ticker_ t) (layer_book_ (order_manager_ t')).
Proof.
  intros Hw Hrun. induction Hrun as [t|t md t1 t2 E Hrun IH|t now r t1 t2 E Hag Hrun IH].
  - apply (wt_tracks _ Hw).
  - destruct (waiting_market md t t1 Hw E) as (E1 & [Hw1|Hx]); rewrite <-E1; [by apply IH|].
    by apply (run_reservation tick_scale).
  - destruct (waiting_report now r t t1 Hw Hag E) as [Hw1 E1]. rewrite <-E1. by apply IH.
Qed.

(** C3: the program keeps its reservation exact from its start.  In every history of
    the trade engine that the configuration builds, with the limits, ticks, venue
    policy and maker settings it names, of market updates (whatever the maker then
    sends: entries, exits, liquidations of late fills, expiry sweeps) and of reports
    that agree with the slot they act on and leave whole lots ([report_agrees]; a
    second final report of the same order does not agree, and releases again), the
    reserved position that the risk limits count is the signed quantity of the
    working orders of the ticker.  No state of the engine is assumed. *)
Theorem program_keeps_reservation t0 t :
  Startup.ticker ini <> ""%string -> new_trade_engine = Some t0 -> run t0 t ->
  position_tracker_ (order_manager_ t) = net_exposure (Startup.ticker ini) (layer_book_ (order_manager_ t)).
Proof.
  intros Hn H0 Hrun. pose proof (new_engine_waiting t0 Hn H0) as Hw.
  replace (Startup.ticker ini) with (TradeEngine.ticker_ t0); [by apply run_from_waiting|].
  unfold new_trade_engine in H0. apply bind_Some in H0 as (m & _ & [= <-]). done.
Qed.

(** The program sends nothing before the first quote: trades, book tickers and
    clears leave the order manager without a request. *)
Theorem nothing_sent_before_quotes mds t0 t :
  Startup.ticker ini <> ""%string -> new_trade_engine = Some t0 ->
  foldl (fun acc md => acc ≫= market_data md) (Some t0) mds = Some t -> Forall no_quote mds ->
  sent (order_manager_ t) = [].
Proof.
  intros Hn H0. pose proof (new_engine_waiting t0 Hn H0) as Hw. clear H0. revert t0 Hw.
  induction mds as [|md mds IH]; intros t0 Hw; [by intros [= <-]; destruct Hw|].
  cbn [foldl mbind option_bind]. intros Hf [Hq Hmds]%Forall_cons.
  destruct (market_data md t0) as [t1|] eqn:E; [|by rewrite none_foldl in Hf].
  destruct (waiting_no_quote md t0 t1 Hw Hq E) as [Hw1 _]. by eapply IH.
Qed.

End System.
(** ** A small configuration *)

#[local] Existing Instance bucket_pool_impl.

Definition demo_ini : Ini :=
  mkIni (list_to_map [(Text.codes "meta.ticker", Text.codes "XRPUSDC"); (Text.codes "orderbook.min_price_int", Text.codes "1");
    (Text.codes "orderbook.max_price_int", Text.codes "8192"); (Text.codes "risk.max_order_size", Text.codes "10");
    (Text.codes "risk.max_position", Text.codes "100"); (Text.codes "risk.min_position", Text.codes "-100");
    (Text.codes "venue.maximum_order_qty", Text.codes "100"); (Text.codes "orders.ttl_reserved_ns", Text.codes "1000000");
    (Text.codes "orders.ttl_live_ns", Text.codes "1000000"); (Text.codes "meta.ticker_size", Text.codes "0.0001")]) [] [] [] [] [].
Definition demo_msg (type : MarketUpdateType) (side : Side) (price : Z) : MarketData :=
  mkMarketData type 1 "XRPUSDC" side price 10.
Abbreviation demo_data :=
  (engine_market_data (maker_on_orderbook XRPUSDCConfig (maker_config XRPUSDCConfig demo_ini true) demo_readings)
    (maker_on_trade XRPUSDCConfig (maker_config XRPUSDCConfig demo_ini true) (tick_scale XRPUSDCConfig demo_ini)
       (Startup.reconciler XRPUSDCConfig demo_ini) false (risk_table XRPUSDCConfig demo_ini) demo_readings)).

Abbreviation demo_replay :=
  (replay (tick_scale XRPUSDCConfig demo_ini) (maker_on_orderbook XRPUSDCConfig (maker_config XRPUSDCConfig demo_ini true) demo_readings)
    (maker_on_trade XRPUSDCConfig (maker_config XRPUSDCConfig demo_ini true) (tick_scale XRPUSDCConfig demo_ini)
       (Startup.reconciler XRPUSDCConfig demo_ini) false (risk_table XRPUSDCConfig demo_ini) demo_readings)
    (maker_on_order XRPUSDCConfig (maker_config XRPUSDCConfig demo_ini true) (tick_scale XRPUSDCConfig demo_ini)
       (Startup.reconciler XRPUSDCConfig demo_ini) false (risk_table XRPUSDCConfig demo_ini) demo_readings (fun r => er_price r)) 9).

(** A trade before the first quote; a bid; the fill of an order that the maker does
    not wait for, which it closes by order 9; the acknowledgement of that order, and
    a partial fill of it. *)
Definition demo_history : list (MarketData + ExecutionReport) :=
  [inl (demo_msg MUTrade kBuy 1000); inl (demo_msg MUAdd kBuy 1000);
   inr (mkReport 5 "XRPUSDC" ETTrade OSFilled 0 5000 1000 kBuy (Some kLong));
   inr (mkReport 9 "XRPUSDC" ETNew OSNew 5000 0 1000 kSell (Some kLong));
   inr (mkReport 9 "XRPUSDC" ETTrade OSPartiallyFilled 3000 2000 1000 kSell (Some kLong))].

(** The reservation, the position and the requests after each step. *)
Definition demo_after (n : nat) : option (Z * Z * list (Side * Z)) :=
  t ← new_trade_engine XRPUSDCConfig demo_ini true; t ← demo_replay (take n demo_history) t;
  p ← position_keeper_ t !! "XRPUSDC"%string;
  Some (position_tracker_ (order_manager_ t), position_ p,
        (fun q => (rq_side q, rq_order_qty q)) <$> sent (order_manager_ t)).

Example demo_history_after :
  demo_after 2 = Some (0, 0, []) /\ demo_after 3 = Some (-5000, 5000, [(kSell, 5000)]) /\
  demo_after 4 = Some (-5000, 5000, [(kSell, 5000)]) /\ demo_after 5 = Some (-3000, 3000, [(kSell, 5000)]).
Proof. vm_compute. done. Qed.

Lemma program_keeps_reservation_witness :
  exists t0 t, new_trade_engine XRPUSDCConfig demo_ini true = Some t0 /\ demo_replay demo_history t0 = Some t /\
    position_tracker_ (order_manager_ t) = net_exposure (Startup.ticker demo_ini) (layer_book_ (order_manager_ t)) /\
    position_tracker_ (order_manager_ t) = -3000.
Proof.
  pose proof (proj2 (proj2 (proj2 demo_history_after))) as Hd. unfold demo_after in Hd.
  apply bind_Some in Hd as (t0 & E0 & Hd). apply bind_Some in Hd as (t & E & Hd).
  change (take 5 demo_history) with demo_history in E.
  exists t0, t. split; [exact E0|]. split; [exact E|]. split.
  - apply (program_keeps_reservation XRPUSDCConfig demo_ini true false demo_readings (fun r => er_price r) t0 t);
      [by vm_compute | exact E0|]. exact (replay_run _ _ _ _ _ E).
  - apply bind_Some in Hd as (p & _ & Hd). by injection Hd.
Defined.

End System.
